(* ===== verification/_CoqProject ===== *)
-Q . S2P
Prelude.v
FStream.v
PropertyLinks.v
PropertyLinkTheory.v
NodeBlock.v
RelationBlock.v
NodeRelations.v
NodeManager.v
GraphFiles.v
GraphTheory.v
ManagerTheory.v
ManagerQueries.v
Persistence.v
PropertyOwners.v
PropertyGraph.v
EdgeData.v
ManagerErrors.v
Partition.v
Partitioner.v
PartitionTheory.v
PartitionerTheory.v
Triangles.v
StreamingTriangles.v
TrianglesTheory.v
StreamingTheory.v
StreamingStore.v
HashMapStores.v
HashMapTheory.v
Shell.v
StaticTriangles.v
StaticTheory.v
Metis.v
MetisTheory.v
TriangleExecutor.v
ExecutorTheory.v
DistributedCount.v
Sessions.v
WorkerSessions.v
FileTransfer.v
Uploads.v
Cluster.v
Deployment.v
Calls.v
Samples.v
StaticSamples.v
SharedBuffer.v
Pipelines.v
ParallelExecutor.v
Json.v
IncrementalStore.v
IncrementalTheory.v
JsonPrinter.v
CypherFilter.v
FilterTheory.v
CypherRuntime.v
OrderBy.v
OrderTheory.v
RuntimeTheory.v
ProjectionTheory.v
CypherScans.v
ScanTheory.v
StreamedGraph.v
StreamInput.v
StreamWorker.v
StreamedCluster.v
StreamSessions.v
MasterMerge.v
CypherPlan.v
CypherPlanner.v
PlannerTheory.v
PlanTheory.v
QueryTheory.v
OrderedQuery.v
SemanticAnalyzer.v
AstBuilder.v
AstTheory.v
ParsedQuery.v
CypherSamples.v
ParsedSamples.v
StreamSamples.v
