(* ===== verification/Prelude.v ===== *)
(** * JasmineGraph: a verification library

    JasmineGraph is a distributed graph database.  A master splits a graph
    into partitions and sends them to workers; a worker keeps its partitions
    either as static stores (FlatBuffers files loaded into maps) or as a
    native store (block files that grow with a stream of edges), and answers
    analytics such as triangle counts, and queries in the Cypher language,
    whose results the master combines.  This library models these parts from the sources under [src/src/] as
    executable definitions and proves what they do.

    ** Parts, files and their sources

    - The native store (nativestore/).  [FStream]: the [std::fstream] files,
      with position, failed flag and short reads.  [PropertyLinks] and
      [PropertyLinkTheory]: PropertyLink, MetaPropertyLink, PropertyEdgeLink,
      MetaPropertyEdgeLink, four classes written once over a class of their
      differences.  [NodeBlock], [RelationBlock], [NodeRelations]: the vertex
      and edge blocks and the doubly linked edge lists of a vertex.
      [NodeManager]: the store of a partition, its indexes, locks and
      reopening.  [GraphFiles], [GraphTheory], [ManagerTheory]: blocks,
      lists, and the refinement of an abstract graph.  [ManagerQueries],
      [Persistence], [PropertyOwners], [ManagerErrors]: traversals, closing
      and reopening, properties and types, error paths.  [PropertyGraph],
      [EdgeData]: the refinement of a property graph, whose vertices and edges
      have labels, types, properties and partitions.
    - Streams of edges.  [StreamInput]: util/kafka/StreamHandler.cpp and
      StreamRegistry.cpp, the thread of the master that listens to a topic.
      [StreamWorker]: util/kafka/InstanceStreamHandler.cpp, the queues and
      threads of a worker as a step relation.  [IncrementalStore],
      [IncrementalTheory]: localstore/incremental/, the messages that enter an
      edge into the store of a partition.  [StreamSessions]:
      nativestore/DataPublisher.cpp and its command at the worker.
      [StreamedGraph], [StreamedCluster]: a stream into a partition, and a
      topic into a cluster.
    - Streaming partitioners (partitioner/stream/).  [Partition],
      [Partitioner]: hash, FENNEL and linear deterministic greedy;
      [PartitionTheory], [PartitionerTheory].
    - Triangles (query/algorithms/triangles/).  [Triangles],
      [TrianglesTheory]: the search.  [StreamingTriangles],
      [StreamingTheory], [StreamingStore]: counts of a growing graph, in
      memory and on stored partitions.
    - The static pipeline.  [Metis], [MetisTheory]: partitioner/local/
      MetisPartitioner.cpp.  [HashMapStores], [HashMapTheory]: localstore/
      and centralstore/.  [StaticTriangles], [StaticTheory]: Triangles::run
      and the counting functions of server/JasmineGraphInstanceService.cpp.
      [TriangleExecutor], [ExecutorTheory], [DistributedCount]: the master,
      frontend/core/executor/impl/TriangleCountExecutor.cpp and
      AbstractExecutor.cpp.
    - Sessions.  [Sessions]: programs on the two ends of a
      connection, their interleavings, and the wrappers of util/Utils.cpp.
      [WorkerSessions]: the command loop of a worker
      and the commands of the triangle count with their callers.
      [FileTransfer]: server/JasmineGraphInstanceFileTransferService.cpp and
      its sender.  [Uploads]: the commands that bring a file
      to a worker and their callers.  [Shell]: names, folders, compression.
    - The whole.  [Cluster]: the hosts and the calls of the master on them.
      [Deployment]: getWorkers and uploadGraphLocally of
      server/JasmineGraphServer.cpp.  [Calls]: the calls as sessions.
    - The query processor (query/processor/).  [SharedBuffer], [Pipelines]:
      the bounded buffers and the threads of a query on a worker
      (cypher/util/SharedBuffer.cpp, the loops of
      cypher/runtime/OperatorExecutor.cpp, InstanceHandler.cpp).
      [ParallelExecutor]: executor/IntraPartitionParallelExecutor.  [Json],
      [JsonPrinter]: JSON values, and printing and parsing as a class with its
      laws and an instance.  [CypherFilter], [FilterTheory]: the conditions of
      cypher/runtime/Helpers.cpp.  [CypherRuntime], [RuntimeTheory],
      [ProjectionTheory]: ProduceResult, Filter, Projection and Distinct.
      [OrderBy], [OrderTheory]: the external sort of OrderBy.  [CypherScans],
      [ScanTheory]: the scans of the native store.  [CypherPlan],
      [PlanTheory]: the operators of cypher/queryplanner/Operators.cpp, their
      texts and how a worker loads them.  [CypherPlanner], [PlannerTheory]:
      cypher/queryplanner/QueryPlanner.cpp.  [SemanticAnalyzer]:
      cypher/semanticanalyzer/.  [AstBuilder], [AstTheory]: the visitor of
      cypher/astbuilder/ASTBuilder.cpp, a definition per method, and the
      syntax trees it makes of parse trees.  [MasterMerge]: the results at the
      master, frontend/core/executor/impl/CypherQueryExecutor.cpp.
      [QueryTheory], [OrderedQuery], [ParsedQuery]: whole queries, on one
      worker, on a cluster, and from the parse tree.
    - [Samples], [StaticSamples], [CypherSamples], [ParsedSamples],
      [StreamSamples]: concrete
      instances in which the hypotheses of the theorems hold.

    ** How code is represented

    An effectful operation is a function [M S A] from a state to an outcome
    and a new state ([outcome]: a value, an exception, undefined behaviour,
    a wait for a lock that is never released, an exit, or exhausted fuel).
    A global or member variable is a field of the state; [zoom] runs an
    operation on a part of it.  32- and 64-bit integers are in [Z], with
    [u32], [u64], [s32], [s64] where the code converts or may wrap.  The
    order in which an unordered container is iterated is a parameter, and
    the theorems hold for every order.  [std::map] is a finite map visited
    in the order of its keys ([entries], [sentries]).  Classes stand for
    what is not in the sources: [HostMemory] (the bytes of string objects
    that the code writes to its files), [FlatBuffers] (the generated readers
    and writers) and [Gzip] (the compressor), each with its round trip as the
    law; [JsonText] (printing and parsing of the JSON library: what is printed
    is read back, objects start with a brace, texts are single lines) and
    [PriorityQueue] (the contract of [std::priority_queue]: for a strict weak
    ordering the top is not less than any other element).  A thread of a query
    is a [stage], the body of its loop; threads and buffers step in any order.  The function [pow] of
    FENNEL, the partition index [gpmetis] computes and the contents of
    memory that a constructor leaves uninitialised are arguments.

    ** What the theorems show

    - The native store refines an abstract graph: opening, inserting
      vertices, local and central edges, closing and reopening
      keep the representation, and the traversals answer from the graph.
      Property lists are finite chains that insertions extend or overwrite,
      with the places where the objects that own them lose track of them.
    - Streams: the messages that the master makes of the edges of a topic say
      the edge, its partitions and its graph; over an open connection they
      arrive as they were sent when they fit into a segment of TCP, and can be
      cut when they do not; the queue of a worker with one partition keeps
      their order and loses none before the end of the stream (with two there
      is a race); and every partition comes to hold the property graph of the
      edges with a vertex in it, which a scan returns.  A new connection,
      however, is closed by its first word.
    - The error paths: an exception that leaves a lock held, ids that do not
      fit, counts of empty files that a later count cannot use.
    - Streaming partitioners: hash partitioning stores every edge and reports
      the numbers of distinct edges and vertices, FENNEL places every edge in
      a partition, a partition counts its vertices.
    - Triangles: the search finds every triangle once for every iteration
      order; the dynamic counts are the differences of the static ones.
    - The static pipeline: reading an edge list, renumbering it, the input of
      gpmetis, where every edge is stored, the round trip of the files, the
      local count of a worker, the combinations of partitions, and end to
      end, through partitioning, upload, copies and counts, that the answer
      of the master is the number of triangles of the edges in the text.  The search follows directed edges, so that a
      triangle needs a vertex with an edge to both others ([apexed]); edges
      in both directions, or from smaller to larger vertices, satisfy it.  The
      count of the master is proved for two to four partitions; above that it
      uses composite stores, and the call for them is a parameter.
@SESSIONTHMS@    - Queries: a buffer loses and reorders nothing; the threads of a plan
      publish what its operators give one after the other, in every
      interleaving; work in chunks is the sequential work; conditions of
      numbers, texts, IS NULL, AND and OR have the meaning of the query
      language ([satisfies], independent of the evaluator), from the WHERE
      clause to the worker; scans give the nodes
      that a partition owns; ORDER BY and the merge at the master sort; the
      plan of a path has every relationship once; the semantic analysis is a
      sound and complete type check; the builder of syntax trees never casts
      to a wrong type, and a condition and a sorted query are built from every
      parse tree of them, whatever its parentheses and white space; and end to
      end, a query with a condition and columns, sorted or not, returns the
      nodes it asks for.  Theorems next to these state what XOR, NOT, >=, <=,
      DISTINCT, descending orders, label scans on threads and directed paths
      do instead of what they should.

    ** Fuel

    Recursion that is not structural takes fuel, and exhausting it is an
    outcome of its own that the theorems exclude.  List walks in a file get
    the number of its bytes plus one, more than it has blocks; the loop over
    the lines of a text their number plus one; the combinations of [n]
    partitions [2^n] rounds, one for each bit mask.  A session of a worker
    takes one command more than it is sent, the loops that ask for a file one
    round more than the transfer takes steps, and the loop over the chunks of
    an answer as many rounds as it has characters.  The evaluation of a
    condition gets the size of its JSON, more than its nesting; the loading of
    a plan one step more than it has operators above the scan; a merge one
    turn for each row; the walk over the keys of a row three steps more than
    there are keys, since a column adds at most two.  The publisher of a message
    waits for a line end for sixteen characters, the fifteen that are left of an
    acknowledgement and one more.  The bounds on a stream (links below nine
    million, ids shorter than the configured key) are those of 32-bit
    addresses and of the index file.

    ** Not modelled

    But for the threads of queries and streams, threads run one after the other (their
    shared data is disjoint or merged by the joining thread); a mutex is a
    flag.  Logging, telemetry, sleeping and process records have no effect on
    the data.  The machine is little endian.  A connection loses nothing and
    keeps the order of bytes; a message of at most 536 bytes, the least segment
    every host takes, is assumed to arrive in one piece, a longer one may
    arrive byte by byte, and messages may arrive together; a message to a side
    that has closed is lost, and one sent after the reset that answers it may
    end the process with SIGPIPE.  That a host cannot be reached is left out,
    and so are the sizes of socket buffers: sending never waits.  The buffers
    of file streams are not modelled: a stream reads what it has written, and
    [close] flushes; what a process that is ended without it leaves on the disk
    is not said.  Files can be created and written.  A mutex of a native store
    is kept with the store, of which a process has one here.  Queries are over
    ASCII texts.  Left out: the call of gpmetis and its retries, attribute
    files, SQL statements, the composite aggregation and the allocation of
    partitions under auto scaling in the executor; of queries the operators
    ExpandAll, Create and CartesianProduct at run time, the average, which is
    floating-point, and the connections between master and workers; the
    frontend, HDFS input, the embeddings of streamed vertices, Kubernetes, training and knowledge graph
    construction.  They consist of calls to libraries and services, of
    generated parsers, or are further work: the composite path, the streaming
    executor. *)
From Stdlib Require Import ZArith Ascii String Lia.
From stdpp Require Import base tactics numbers list strings gmap pretty.

(* ------------------------------------------------------------------ *)
(** ** Machine integers *)

Declare Scope jasmine_scope.
Delimit Scope jasmine_scope with jasmine.
#[global] Open Scope jasmine_scope.
#[global] Open Scope Z_scope.

(** [unsigned int] arithmetic wraps modulo [2^32]. *)
Definition u32 (z : Z) : Z := z mod 4294967296.

(** [unsigned long] arithmetic wraps modulo [2^64]. *)
Definition u64 (z : Z) : Z := z mod 18446744073709551616.

(** Conversion of an [unsigned long] to a [long]. *)
Definition s64 (z : Z) : Z :=
  if u64 z <? 9223372036854775808 then u64 z else u64 z - 18446744073709551616.

Definition is_u32 (z : Z) : Prop := 0 <= z < 4294967296.

Lemma u32_range z : is_u32 (u32 z).
Proof. unfold is_u32, u32. apply Z.mod_pos_bound. lia. Qed.

Lemma u32_id z : is_u32 z -> u32 z = z.
Proof. unfold is_u32, u32. intros. apply Z.mod_small. lia. Qed.

(** Conversion to [int], and [int] arithmetic that wraps ([atomic<int>]). *)
Definition s32 (z : Z) : Z := if u32 z <? 2147483648 then u32 z else u32 z - 4294967296.

Lemma s32_id z : 0 <= z < 2147483648 -> s32 z = z.
Proof.
  intros H. unfold s32. rewrite u32_id by (unfold is_u32; lia).
  by destruct (Z.ltb_spec z 2147483648); [|lia].
Qed.

Lemma s32_mod z : s32 z mod 4294967296 = z mod 4294967296.
Proof.
  unfold s32, u32. destruct (_ <? _); [by rewrite Z.mod_mod by lia|].
  replace (z mod 4294967296 - 4294967296) with (z mod 4294967296 + (-1) * 4294967296) by lia.
  by rewrite Z.mod_add, Z.mod_mod by lia.
Qed.

Lemma s32_succ z : s32 (s32 z + 1) = s32 (z + 1).
Proof.
  assert (u32 (s32 z + 1) = u32 (z + 1)) as E; [|unfold s32 at 1; rewrite E; done].
  unfold u32. rewrite Z.add_mod, s32_mod, <- Z.add_mod by lia. done.
Qed.

(* ------------------------------------------------------------------ *)
(** ** Outcomes of C++ code

    A call either returns, throws a C++ exception, reaches undefined
    behaviour (buffer overrun, read of an indeterminate value, null
    dereference), blocks on a mutex that is never released, ends the process
    ([std::terminate]), or - in the model only - exhausts the fuel of a
    loop. *)

Inductive exn :=
| invalid_argument | out_of_range | runtime_error | bad_alloc | bad_function_call | bad_any_cast | json_error.

Inductive outcome (A : Type) :=
| Ret (a : A)
| Throw (e : exn)
| Undef
| Deadlock
| Terminated
| OutOfFuel.
Arguments Ret {A} a.
Arguments Throw {A} e.
Arguments Undef {A}.
Arguments Deadlock {A}.
Arguments Terminated {A}.
Arguments OutOfFuel {A}.

#[export] Instance exn_eq_dec : EqDecision exn.
Proof. solve_decision. Defined.

(** State-passing computations; the state survives a throw. *)
Definition M (S A : Type) : Type := S -> outcome A * S.

#[export] Instance M_ret S : MRet (M S) := fun A a s => (Ret a, s).

#[export] Instance M_bind S : MBind (M S) := fun A B f c s =>
  match c s with
  | (Ret a, s') => f a s'
  | (Throw e, s') => (Throw e, s')
  | (Undef, s') => (Undef, s')
  | (Deadlock, s') => (Deadlock, s')
  | (Terminated, s') => (Terminated, s')
  | (OutOfFuel, s') => (OutOfFuel, s')
  end.

(** Computations without a state. *)
#[export] Instance outcome_ret : MRet outcome := fun A a => Ret a.

#[export] Instance outcome_bind : MBind outcome := fun A B f o =>
  match o with
  | Ret a => f a
  | Throw e => Throw e
  | Undef => Undef
  | Deadlock => Deadlock
  | Terminated => Terminated
  | OutOfFuel => OutOfFuel
  end.

Definition lift {S A} (o : outcome A) : M S A := fun s => (o, s).

Lemma outcome_bind_Ret_inv {A B} (f : A -> outcome B) o b :
  (o ≫= f) = Ret b -> exists a, o = Ret a /\ f a = Ret b.
Proof. destruct o; try discriminate. intros H. by eexists. Qed.

Definition get_state {S} : M S S := fun s => (Ret s, s).
Definition modify {S} (f : S -> S) : M S unit := fun s => (Ret tt, f s).
Definition throw {S A} (e : exn) : M S A := fun s => (Throw e, s).
Definition undef {S A} : M S A := fun s => (Undef, s).
Definition deadlock {S A} : M S A := fun s => (Deadlock, s).
Definition out_of_fuel {S A} : M S A := fun s => (OutOfFuel, s).

(** A thread: an exception that leaves its function ends the process. *)
Definition in_thread {S A} (c : M S A) : M S A := fun s =>
  match c s with (Throw _, s') => (Terminated, s') | r => r end.

(** A value that C++ reads although nothing may have initialised it. *)
Definition determinate {S A} (o : option A) : M S A :=
  match o with Some a => mret a | None => undef end.

(** [std::string("literal" + n)]: the pointer must stay inside the literal. *)
Definition literal_offset {S} (literal : string) (n : Z) : M S unit :=
  if (0 <=? n) && (n <=? Z.of_nat (String.length literal)) then mret tt else undef.

(** Run a computation on a component of the state. *)
Definition zoom {S T A} (get : S -> T) (put : T -> S -> S) (c : M T A) : M S A :=
  fun s => let '(o, t) := c (get s) in (o, put t s).

Lemma bind_Ret {S A B} (c : M S A) (f : A -> M S B) s a s' :
  c s = (Ret a, s') -> (c ≫= f) s = f a s'.
Proof. intros H. unfold mbind, M_bind. by rewrite H. Qed.

Lemma bind_Throw {S A B} (c : M S A) (f : A -> M S B) s e s' :
  c s = (Throw e, s') -> (c ≫= f) s = (Throw e, s').
Proof. intros H. unfold mbind, M_bind. by rewrite H. Qed.

Lemma bind_Undef {S A B} (c : M S A) (f : A -> M S B) s s' :
  c s = (Undef, s') -> (c ≫= f) s = (Undef, s').
Proof. intros H. unfold mbind, M_bind. by rewrite H. Qed.

Lemma bind_Deadlock {S A B} (c : M S A) (f : A -> M S B) s s' :
  c s = (Deadlock, s') -> (c ≫= f) s = (Deadlock, s').
Proof. intros H. unfold mbind, M_bind. by rewrite H. Qed.

Lemma zoom_run {S T A} (get : S -> T) put (c : M T A) s o t :
  c (get s) = (o, t) -> zoom get put c s = (o, put t s).
Proof. intros H. unfold zoom. by rewrite H. Qed.

(** Inversion of a bind that returned. *)
Lemma bind_Ret_inv {S A B} (c : M S A) (f : A -> M S B) s b s' :
  (c ≫= f) s = (Ret b, s') ->
  exists a s1, c s = (Ret a, s1) /\ f a s1 = (Ret b, s').
Proof.
  unfold mbind, M_bind. destruct (c s) as [[a| | | | |] s1]; naive_solver.
Qed.

(** One step of symbolic execution: the head of the computation is run by
    a hypothesis or by a lemma of the [run] database. *)
Create HintDb run.
#[export] Hint Resolve zoom_run : run.

Ltac mstep := erewrite bind_Ret; [| solve [eauto with run] ]; cbn beta iota.
Ltac msteps := repeat mstep.

(* ------------------------------------------------------------------ *)
(** ** Bytes and 32-bit words in memory (little endian) *)

Definition nul : ascii := "000"%char.

Definition code (a : ascii) : Z := Z.of_N (N_of_ascii a).
Definition byte (z : Z) : ascii := ascii_of_N (Z.to_N (z mod 256)).

Lemma code_byte z : code (byte z) = z mod 256.
Proof.
  unfold code, byte. pose proof (Z.mod_pos_bound z 256 ltac:(lia)).
  rewrite N_ascii_embedding by lia. lia.
Qed.

Lemma code_range a : 0 <= code a < 256.
Proof. unfold code. pose proof (N_ascii_bounded a). lia. Qed.

Definition enc32 (z : Z) : list ascii :=
  [byte z; byte (z / 256); byte (z / 65536); byte (z / 16777216)].

Definition dec32 (l : list ascii) : Z :=
  match l with
  | [a; b; c; d] => code a + 256 * code b + 65536 * code c + 16777216 * code d
  | _ => 0
  end.

Lemma length_enc32 z : length (enc32 z) = 4%nat.
Proof. reflexivity. Qed.

Lemma dec32_enc32_mod z : dec32 (enc32 z) = u32 z.
Proof.
  unfold dec32, enc32, u32. rewrite !code_byte.
  replace 16777216 with (65536 * 256) by lia.
  replace 65536 with (256 * 256) at 1 3 by lia.
  rewrite <- !Z.div_div by lia.
  Z.to_euclidean_division_equations. lia.
Qed.

Lemma dec32_enc32 z : is_u32 z -> dec32 (enc32 z) = z.
Proof. intros. rewrite dec32_enc32_mod. by apply u32_id. Qed.

Lemma dec32_range l : is_u32 (dec32 l).
Proof.
  unfold is_u32, dec32. repeat case_match; try lia.
  pose proof (code_range a). pose proof (code_range a0).
  pose proof (code_range a1). pose proof (code_range a2). lia.
Qed.

(* ------------------------------------------------------------------ *)
(** ** C strings *)

Definition chars (s : string) : list ascii := list_ascii_of_string s.

Fixpoint until_nul (l : list ascii) : list ascii :=
  match l with
  | [] => []
  | a :: l' => if decide (a = nul) then [] else a :: until_nul l'
  end.

(** The characters a [const char*] to a [std::string]'s data shows. *)
Definition c_str (s : string) : list ascii := until_nul (chars s).

(** [std::string(buf)] of a character array: undefined without a NUL. *)
Definition cstring (buf : list ascii) : option string :=
  if decide (nul ∈ buf) then Some (string_of_list_ascii (until_nul buf)) else None.

(** [char buf[n] = {0}; strcpy(buf, s)]: overruns unless [strlen(s) < n]. *)
Definition strcpy_buf (n : nat) (s : string) : option (list ascii) :=
  if decide (length (c_str s) < n)%nat then Some (resize n nul (c_str s)) else None.

(** [char buf[n] = {0}; strncpy(buf, s, n - 1); buf[n - 1] = 0]. *)
Definition strncpy_buf (n : nat) (s : list ascii) : list ascii :=
  resize n nul (take (n - 1) (until_nul s)).

(** [memcpy(buf, src, n)]: undefined when [src] has fewer than [n] bytes. *)
Definition memcpy_buf (n : nat) (src : list ascii) : option (list ascii) :=
  if decide (n <= length src)%nat then Some (take n src) else None.

(** A [std::string] without embedded NUL, the only kind that survives a
    trip through a C string. *)
Definition no_nul (s : string) : Prop := nul ∉ chars s.

#[export] Instance no_nul_dec s : Decision (no_nul s).
Proof. unfold no_nul. apply _. Defined.

Lemma string_chars s : string_of_list_ascii (chars s) = s.
Proof. apply string_of_list_ascii_of_string. Qed.

Lemma chars_string l : chars (string_of_list_ascii l) = l.
Proof. apply list_ascii_of_string_of_list_ascii. Qed.

Lemma until_nul_clean l : nul ∉ until_nul l.
Proof.
  induction l as [|a l IH]; simpl; [apply not_elem_of_nil|].
  case_decide; [apply not_elem_of_nil|]. rewrite not_elem_of_cons. naive_solver.
Qed.

Lemma until_nul_app l r : nul ∉ l -> until_nul (l ++ nul :: r) = l.
Proof.
  induction l as [|a l IH]; simpl; intros H.
  - reflexivity.
  - rewrite not_elem_of_cons in H. destruct H as [H1 H2].
    rewrite decide_False by done. by rewrite IH.
Qed.

Lemma until_nul_id l : nul ∉ l -> until_nul l = l.
Proof.
  induction l as [|a l IH]; simpl; intros H; [done|].
  rewrite not_elem_of_cons in H. destruct H as [H1 H2].
  rewrite decide_False by done. by rewrite IH.
Qed.

Lemma length_until_nul l : (length (until_nul l) <= length l)%nat.
Proof. induction l; simpl; [done|]. case_decide; simpl; lia. Qed.

Lemma c_str_no_nul s : no_nul s -> c_str s = chars s.
Proof. apply until_nul_id. Qed.

(** A NUL-padded buffer reads back as the string it was filled with. *)
Lemma resize_pad n (l : list ascii) :
  (length l < n)%nat ->
  resize n nul l = l ++ nul :: replicate (n - length l - 1) nul.
Proof.
  intros H. rewrite resize_ge by lia. f_equal.
  rewrite <- (replicate_S (n - length l - 1)). f_equal. lia.
Qed.

Lemma cstring_pad n l :
  nul ∉ l -> (length l < n)%nat -> cstring (resize n nul l) = Some (string_of_list_ascii l).
Proof.
  intros Hl Hn. rewrite resize_pad by done. unfold cstring.
  rewrite decide_True by set_solver. by rewrite until_nul_app.
Qed.

(** [char n[k] = {0}; strcpy(n, s)] then [std::string(n)] is the C string of [s]. *)
Lemma cstring_strcpy n s buf :
  strcpy_buf n s = Some buf -> cstring buf = Some (string_of_list_ascii (c_str s)).
Proof.
  unfold strcpy_buf. case_decide; [|done]. intros [= <-].
  apply cstring_pad; [apply until_nul_clean|done].
Qed.

Lemma length_strcpy n s buf : strcpy_buf n s = Some buf -> length buf = n.
Proof.
  unfold strcpy_buf. case_decide; [|done]. intros [= <-]. apply length_resize.
Qed.

Lemma cstring_strncpy n s :
  (0 < n)%nat ->
  cstring (strncpy_buf n s) = Some (string_of_list_ascii (take (n - 1) (until_nul s))).
Proof.
  intros Hn. unfold strncpy_buf. apply cstring_pad.
  - intros Hin. apply (until_nul_clean s). eapply elem_of_take in Hin.
    destruct Hin as (i & Hi & _). by eapply list_elem_of_lookup_2.
  - rewrite length_take. lia.
Qed.

Lemma length_memcpy n src buf : memcpy_buf n src = Some buf -> length buf = n.
Proof.
  unfold memcpy_buf. case_decide; [|done]. intros [= <-]. rewrite length_take. lia.
Qed.

(* ------------------------------------------------------------------ *)
(** ** The C and C++ library conversions the code uses *)

Definition is_space (a : ascii) : bool :=
  let n := code a in (n =? 32) || ((9 <=? n) && (n <=? 13)).

Definition digit_of (a : ascii) : option Z :=
  let n := code a in if (48 <=? n) && (n <=? 57) then Some (n - 48) else None.

Fixpoint drop_spaces (l : list ascii) : list ascii :=
  match l with
  | a :: l' => if is_space a then drop_spaces l' else l
  | [] => []
  end.

(** The longest digit prefix, most significant first. *)
Fixpoint digits_value (acc : Z) (l : list ascii) : Z :=
  match l with
  | a :: l' => match digit_of a with Some d => digits_value (acc * 10 + d) l' | None => acc end
  | [] => acc
  end.

Definition starts_with_digit (l : list ascii) : bool :=
  match l with
  | a :: _ => match digit_of a with Some _ => true | None => false end
  | [] => false
  end.

(** [std::stoul(s)] in base 10 ([strtoul] with its errors as exceptions):
    leading white space, one optional sign, then digits; trailing
    characters are ignored. *)
Definition stoul (s : string) : exn + Z :=
  let l := drop_spaces (c_str s) in
  let '(neg, l) := match l with
                   | a :: l' => if decide (a = "-"%char) then (true, l')
                                else if decide (a = "+"%char) then (false, l') else (false, l)
                   | [] => (false, l)
                   end in
  if starts_with_digit l then
    let v := digits_value 0 l in
    if v <? 18446744073709551616
    then inr (if neg then (- v) mod 18446744073709551616 else v)
    else inl out_of_range
  else inl invalid_argument.

(** [std::stol(s)]: the same syntax, checked against the range of [long]. *)
Definition stol (s : string) : exn + Z :=
  let l := drop_spaces (c_str s) in
  let '(neg, l) := match l with
                   | a :: l' => if decide (a = "-"%char) then (true, l')
                                else if decide (a = "+"%char) then (false, l') else (false, l)
                   | [] => (false, l)
                   end in
  if starts_with_digit l then
    let v := if neg then - digits_value 0 l else digits_value 0 l in
    if (-9223372036854775808 <=? v) && (v <? 9223372036854775808) then inr v else inl out_of_range
  else inl invalid_argument.

(** [std::stoi(s)]: [strtol], then checked against the range of [int]. *)
Definition stoi (s : string) : exn + Z :=
  match stol s with
  | inl e => inl e
  | inr v => if (-2147483648 <=? v) && (v <? 2147483648) then inr v else inl out_of_range
  end.

(** As computations: an unreadable number throws. *)
Definition stoul_exn {S} (s : string) : M S Z :=
  match stoul s with inl e => throw e | inr v => mret v end.
Definition stol_exn {S} (s : string) : M S Z :=
  match stol s with inl e => throw e | inr v => mret v end.
Definition stoi_exn {S} (s : string) : M S Z :=
  match stoi s with inl e => throw e | inr v => mret v end.

(** [std::to_string] of an unsigned number. *)
Definition to_string (z : Z) : string := pretty (Z.to_N z).

Lemma pretty_N_go_nonempty x s : s <> EmptyString -> pretty_N_go x s <> EmptyString.
Proof.
  revert s. induction (N.lt_wf_0 x) as [x _ IH]. intros s Hs.
  destruct (decide (0 < x)%N) as [Hx|Hx].
  - rewrite pretty_N_go_step by done. apply IH; [by apply N.div_lt|done].
  - replace x with 0%N by lia. by rewrite pretty_N_go_0.
Qed.

Lemma to_string_nonempty z : to_string z <> EmptyString.
Proof.
  unfold to_string, pretty, pretty_N. case_decide; [done|].
  rewrite pretty_N_go_step by lia. by apply pretty_N_go_nonempty.
Qed.

(** [std::stoul] and [std::stol] read back what [std::to_string] prints. *)
Definition all_digits (l : list ascii) : Prop := Forall (fun a => is_Some (digit_of a)) l.

Lemma digit_of_pretty x : (x < 10)%N -> digit_of (pretty_N_char x) = Some (Z.of_N x).
Proof.
  intros H. assert (exists n, (n < 10)%nat /\ x = N.of_nat n) as (n & Hn & ->).
  { exists (N.to_nat x). split; lia. }
  clear H. do 10 (destruct n as [|n]; [done|]). lia.
Qed.

Lemma digits_value_pretty x s :
  digits_value 0 (chars (pretty_N_go x s)) = digits_value (Z.of_N x) (chars s).
Proof.
  revert s. induction (N.lt_wf_0 x) as [x _ IH]. intros s.
  destruct (decide (0 < x)%N) as [Hx|Hx].
  - rewrite pretty_N_go_step by done. rewrite IH by (by apply N.div_lt). cbn [chars list_ascii_of_string].
    cbn [digits_value]. rewrite digit_of_pretty by (by apply N.mod_lt).
    f_equal. rewrite N2Z.inj_div, N2Z.inj_mod. pose proof (Z.div_mod (Z.of_N x) 10). lia.
  - replace x with 0%N by lia. by rewrite pretty_N_go_0.
Qed.

Lemma all_digits_pretty x s : all_digits (chars s) -> all_digits (chars (pretty_N_go x s)).
Proof.
  revert s. induction (N.lt_wf_0 x) as [x _ IH]. intros s Hs.
  destruct (decide (0 < x)%N) as [Hx|Hx].
  - rewrite pretty_N_go_step by done. apply IH; [by apply N.div_lt|]. constructor; [|done].
    rewrite digit_of_pretty; [by eauto|by apply N.mod_lt].
  - replace x with 0%N by lia. by rewrite pretty_N_go_0.
Qed.

Lemma to_string_digits z :
  0 <= z -> all_digits (chars (to_string z)) /\ digits_value 0 (chars (to_string z)) = z.
Proof.
  intros Hz. unfold to_string, pretty, pretty_N. case_decide as H0.
  - replace z with 0 by lia. split; [|done]. repeat constructor. by eexists.
  - split; [apply all_digits_pretty; constructor|]. rewrite digits_value_pretty. cbn [chars list_ascii_of_string digits_value]. lia.
Qed.

Lemma digit_char a d : digit_of a = Some d -> is_space a = false /\ a <> nul /\ a <> "-"%char /\ a <> "+"%char.
Proof.
  unfold digit_of, is_space. intros H.
  destruct ((48 <=? code a) && (code a <=? 57)) eqn:E; [|done]. apply andb_true_iff in E as [E1 E2].
  apply Z.leb_le in E1, E2. split_and!.
  - destruct (Z.eqb_spec (code a) 32), (Z.leb_spec 9 (code a)), (Z.leb_spec (code a) 13); simpl; lia.
  - intros ->. by compute in E1.
  - intros ->. by compute in E1.
  - intros ->. by compute in E1.
Qed.

Lemma all_digits_no_nul l : all_digits l -> nul ∉ l.
Proof.
  intros Hl Hin. eapply Forall_forall in Hl as [d Hd]; [|done]. by destruct (digit_char _ _ Hd) as (_ & ? & _).
Qed.

Lemma to_string_parse z :
  0 <= z ->
  stoul (to_string z) = (if z <? 18446744073709551616 then inr z else inl out_of_range) /\
  stol (to_string z) = (if z <? 9223372036854775808 then inr z else inl out_of_range).
Proof.
  intros Hz. destruct (to_string_digits z Hz) as [Hd Hv]. pose proof (all_digits_no_nul _ Hd) as Hn.
  unfold stoul, stol. rewrite c_str_no_nul by done.
  destruct (chars (to_string z)) as [|a l] eqn:E.
  { exfalso. apply (to_string_nonempty z). by rewrite <- (string_chars (to_string z)), E. }
  apply Forall_cons in Hd as [[d Ha] _]. destruct (digit_char _ _ Ha) as (H1 & H2 & H3 & H4).
  cbn [drop_spaces]. rewrite H1, !decide_False by done. cbn [starts_with_digit]. rewrite Ha, Hv. split; [done|].
  destruct (Z.leb_spec (-9223372036854775808) z); [done|lia].
Qed.

(* ------------------------------------------------------------------ *)
(** ** Strings *)

Lemma string_app_nil s : s +:+ "" = s.
Proof. induction s as [|a s IH]; [done|]. change (String a (s +:+ "") = String a s). by rewrite IH. Qed.

Lemma string_app_assoc s t u : (s +:+ t) +:+ u = s +:+ (t +:+ u).
Proof.
  induction s as [|a s IH]; [done|].
  change (String a ((s +:+ t) +:+ u) = String a (s +:+ (t +:+ u))). by rewrite IH.
Qed.

Lemma substring_app s t : String.substring 0 (String.length s) (s +:+ t) = s.
Proof.
  induction s as [|a s IH]; [by destruct t|].
  change (String a (String.substring 0 (String.length s) (s +:+ t)) = String a s). by rewrite IH.
Qed.

Lemma length_string_app s t : String.length (s +:+ t) = (String.length s + String.length t)%nat.
Proof.
  induction s as [|a s IH]; [done|].
  change (S (String.length (s +:+ t)) = S (String.length s + String.length t)). by rewrite IH.
Qed.

Lemma chars_app u v : chars (u +:+ v) = chars u ++ chars v.
Proof.
  induction u as [|a u IH]; [done|]. change (chars (String a u +:+ v)) with (a :: chars (u +:+ v)).
  by rewrite IH.
Qed.

(** [std::getline] with a delimiter: no item behind a final delimiter. *)
Fixpoint split_items (delim : ascii) (item : list ascii) (l : list ascii) : list (list ascii) :=
  match l with
  | [] => match item with [] => [] | _ => [rev item] end
  | a :: l' =>
      if decide (a = delim) then rev item :: split_items delim [] l'
      else split_items delim (a :: item) l'
  end.

Lemma split_items_word d item l rest :
  d ∉ l -> split_items d item (l ++ d :: rest) = (rev item ++ l) :: split_items d [] rest.
Proof.
  revert item. induction l as [|a l IH]; intros item Hd; cbn.
  - rewrite decide_True by done. by rewrite app_nil_r.
  - rewrite not_elem_of_cons in Hd. destruct Hd as [H1 H2].
    rewrite decide_False, IH by done. cbn [rev]. by rewrite <- app_assoc.
Qed.

Lemma split_items_last d item l :
  d ∉ l -> rev item ++ l <> [] -> split_items d item l = [rev item ++ l].
Proof.
  revert item. induction l as [|a l IH]; intros item Hd Hne; cbn.
  - rewrite app_nil_r in *. by destruct item.
  - rewrite not_elem_of_cons in Hd. destruct Hd as [H1 H2].
    rewrite decide_False, IH; [|done|cbn [rev]; by rewrite <- app_assoc|done].
    cbn [rev]. by rewrite <- app_assoc.
Qed.

Lemma elem_concat {A} (x : A) ls : x ∈ concat ls <-> exists l, l ∈ ls /\ x ∈ l.
Proof. rewrite list_elem_of_In, in_concat. by setoid_rewrite <- list_elem_of_In. Qed.

(** [std::to_string] and [operator<<] of a signed number. *)
Definition show_long (z : Z) : string := if z <? 0 then "-" +:+ to_string (- z) else to_string z.

Lemma chars_inj s t : chars s = chars t -> s = t.
Proof. intros H. by rewrite <- (string_chars s), <- (string_chars t), H. Qed.

Lemma to_string_inj a b : 0 <= a -> 0 <= b -> to_string a = to_string b -> a = b.
Proof.
  intros Ha Hb H. rewrite <- (proj2 (to_string_digits a Ha)), <- (proj2 (to_string_digits b Hb)). by rewrite H.
Qed.

(** A printed number has digits and perhaps a sign. *)
Lemma show_long_chars z a : a ∈ chars (show_long z) -> a = "-"%char \/ is_Some (digit_of a).
Proof.
  unfold show_long. destruct (Z.ltb_spec z 0).
  - rewrite chars_app, elem_of_app. cbn. rewrite list_elem_of_singleton. intros [->|H']; [by left|right].
    destruct (to_string_digits (- z) ltac:(lia)) as [Hd _]. by apply (proj1 (Forall_forall _ _) Hd).
  - intros H'. right. destruct (to_string_digits z ltac:(lia)) as [Hd _].
    by apply (proj1 (Forall_forall _ _) Hd).
Qed.

Lemma show_long_avoids z a : a <> "-"%char -> digit_of a = None -> a ∉ chars (show_long z).
Proof. intros H1 H2 [?|[d Hd]]%show_long_chars; congruence. Qed.

Lemma to_string_head z : 0 <= z -> exists a l, chars (to_string z) = a :: l /\ is_Some (digit_of a).
Proof.
  intros Hz. destruct (to_string_digits z Hz) as [Hd _].
  destruct (chars (to_string z)) as [|a l] eqn:E.
  - exfalso. apply (to_string_nonempty z). by apply chars_inj.
  - apply Forall_cons in Hd as [Ha _]. by exists a, l.
Qed.

Lemma show_long_nonempty z : show_long z <> "".
Proof.
  unfold show_long. destruct (Z.ltb_spec z 0); [done|]. apply to_string_nonempty.
Qed.

Lemma show_long_inj a b : show_long a = show_long b -> a = b.
Proof.
  assert (forall x y, 0 <= x -> 0 < y -> to_string x <> "-" +:+ to_string y) as Hne.
  { intros x y Hx Hy E. destruct (to_string_head x Hx) as (c & l & Hc & [d Hd]).
    apply (f_equal chars) in E. rewrite Hc, chars_app in E. cbn in E. injection E as -> _. by cbn in Hd. }
  unfold show_long. destruct (Z.ltb_spec a 0), (Z.ltb_spec b 0); intros E.
  - apply (f_equal chars) in E. rewrite !chars_app in E. cbn in E. injection E as E%chars_inj.
    apply to_string_inj in E; lia.
  - symmetry in E. apply Hne in E; [done|lia|lia].
  - apply Hne in E; [done|lia|lia].
  - by apply to_string_inj.
Qed.

(** Texts separated by a character that does not occur in them. *)
Lemma app_sep_inj {A} (d : A) l1 l2 r1 r2 :
  d ∉ l1 -> d ∉ l2 -> l1 ++ d :: r1 = l2 ++ d :: r2 -> l1 = l2 /\ r1 = r2.
Proof.
  revert l2. induction l1 as [|a l1 IH]; intros [|b l2] H1 H2 E; cbn in E.
  - by injection E as ->.
  - injection E as -> _. exfalso. apply H2. left.
  - injection E as -> _. exfalso. apply H1. left.
  - injection E as -> E. rewrite not_elem_of_cons in H1, H2. destruct (IH l2) as [-> ->]; tauto.
Qed.

(** The items between delimiters that are not empty. *)
Definition pieces (d : ascii) (l : list ascii) : list (list ascii) :=
  filter (fun i => i <> []) (split_items d [] l).

Lemma pieces_app d l1 l2 : pieces d (l1 ++ d :: l2) = pieces d l1 ++ pieces d l2.
Proof.
  unfold pieces. assert (forall item,
    filter (fun i => i <> []) (split_items d item (l1 ++ d :: l2)) =
    filter (fun i => i <> []) (split_items d item l1) ++ filter (fun i => i <> []) (split_items d [] l2)) as H;
    [|apply H].
  induction l1 as [|a l1 IH]; intros item; cbn [app split_items].
  - rewrite decide_True by done. rewrite filter_cons. destruct item as [|b item].
    + by rewrite decide_False by (cbn; tauto).
    + assert (rev (b :: item) <> []) as Hb.
      { intros E%(f_equal length). rewrite length_rev in E. done. }
      by rewrite filter_cons, !decide_True.
  - case_decide; [|apply IH]. rewrite !filter_cons. case_decide; [cbn [app]; f_equal|]; apply IH.
Qed.

Lemma pieces_word d l : d ∉ l -> l <> [] -> pieces d l = [l].
Proof.
  intros H1 H2. unfold pieces. rewrite split_items_last by done. cbn [rev app].
  by rewrite filter_cons, decide_True.
Qed.

(** [std::stoi] and [std::stol] read back a printed number. *)
Lemma stol_show z : -9223372036854775808 <= z < 9223372036854775808 -> stol (show_long z) = inr z.
Proof.
  intros Hz. unfold show_long. destruct (Z.ltb_spec z 0) as [Hn|Hn].
  - destruct (to_string_digits (- z) ltac:(lia)) as [Hd Hv].
    destruct (to_string_head (- z) ltac:(lia)) as (a & l & Ha & [d Hda]). unfold stol.
    rewrite c_str_no_nul.
    2: { unfold no_nul. rewrite chars_app, not_elem_of_app. split; [|by apply all_digits_no_nul].
         cbn. rewrite not_elem_of_cons. split; [done|apply not_elem_of_nil]. }
    rewrite chars_app. cbn [chars list_ascii_of_string app]. cbn [drop_spaces].
    change (is_space "-") with false. cbn iota. rewrite decide_True by done.
    change (list_ascii_of_string (to_string (- z))) with (chars (to_string (- z))).
    assert (starts_with_digit (chars (to_string (- z))) = true) as -> by (rewrite Ha; cbn; by rewrite Hda).
    rewrite Hv, Z.opp_involutive.
    destruct (Z.leb_spec (-9223372036854775808) z), (Z.ltb_spec z 9223372036854775808); (done || lia).
  - rewrite (proj2 (to_string_parse z Hn)). by destruct (Z.ltb_spec z 9223372036854775808); [|lia].
Qed.

Lemma stoi_show z : -2147483648 <= z < 2147483648 -> stoi (show_long z) = inr z.
Proof.
  intros Hz. unfold stoi. rewrite stol_show by lia.
  destruct (Z.leb_spec (-2147483648) z), (Z.ltb_spec z 2147483648); (done || lia).
Qed.

(** ** Constants of Conts.cpp *)

(** Above this number of partitions central stores are aggregated in
    composites. *)
Definition COMPOSITE_CENTRAL_STORE_WORKER_THRESHOLD : Z := 4.
