(* ===== verification/FStream.v ===== *)
(** * FStream: the [std::fstream] files of the native store

    A database file is opened once and kept in a [std::fstream]; the model
    keeps its bytes, its single file position (a [basic_filebuf] shares it
    between [seekg] and [seekp]) and its failure bit.  A short read sets the
    failure bit, nothing in the native store clears it, and with it set every
    later seek, read and write does nothing: the flag is sticky.  The buffer of
    the stream is not modelled: a write is seen by the reads of the same
    stream, which is all that a running process does with it; what has reached
    the disk at some moment is another question, and is not asked here.

    The second half is the theory of block files: a file that is the
    concatenation of blocks of one size, and how reads, field updates and
    appends act on the list of blocks. *)
From Stdlib Require Import ZArith Ascii String Lia.
From stdpp Require Import base tactics numbers list strings.
From S2P Require Import Prelude.

Record fstream := FStream {
  fs_data : list ascii;
  fs_pos : Z;
  fs_fail : bool
}.

(** Bytes written past the end leave a hole that reads as NULs. *)
Definition write_data (d : list ascii) (p : nat) (bs : list ascii) : list ascii :=
  resize p nul d ++ bs ++ drop (p + length bs) d.

Definition read_data (d : list ascii) (p n : nat) : list ascii := take n (drop p d).

Definition seek (p : Z) : M fstream unit := fun s =>
  if fs_fail s then (Ret tt, s) else (Ret tt, FStream (fs_data s) p false).

(** [write] tells whether the stream is still good. *)
Definition write (bs : list ascii) : M fstream bool := fun s =>
  if fs_fail s then (Ret false, s)
  else (Ret true, FStream (write_data (fs_data s) (Z.to_nat (fs_pos s)) bs)
                          (fs_pos s + Z.of_nat (length bs)) false).

(** [read] gives the bytes that were available and whether all were. *)
Definition read (n : nat) : M fstream (bool * list ascii) := fun s =>
  if fs_fail s then (Ret (false, []), s)
  else
    let got := read_data (fs_data s) (Z.to_nat (fs_pos s)) n in
    if decide (length got = n)
    then (Ret (true, got), FStream (fs_data s) (fs_pos s + Z.of_nat n) false)
    else (Ret (false, got),
          FStream (fs_data s) (fs_pos s + Z.of_nat (length got)) true).

(** A ladder [if (!db->write(..)) return ..; if (!db->write(..)) return ..;]. *)
Fixpoint write_seq (l : list (list ascii)) : M fstream bool :=
  match l with
  | [] => mret true
  | bs :: l' => ok ← write bs; if ok : bool then write_seq l' else mret false
  end.

(** Several reads in a row; [None] when one of them came up short. *)
Fixpoint read_seq (l : list nat) : M fstream (option (list (list ascii))) :=
  match l with
  | [] => mret (Some [])
  | n :: l' =>
      '(ok, got) ← read n;
      rest ← read_seq l';
      mret (if ok : bool then cons got <$> rest else None)
  end.

(** A read into a buffer that keeps what the read did not overwrite. *)
Definition read_into (buf : list ascii) : M fstream (list ascii) :=
  '(_, got) ← read (length buf); mret (got ++ drop (length got) buf).

(* ------------------------------------------------------------------ *)
(** ** Reads and writes on the bytes of a file *)

Lemma length_write_data d p bs :
  length (write_data d p bs) = (p `max` 0 + (length bs + (length d - (p + length bs))))%nat.
Proof. unfold write_data. rewrite !length_app, length_resize, length_drop. lia. Qed.

Lemma length_write_data_le d p bs :
  (p + length bs <= length d)%nat -> length (write_data d p bs) = length d.
Proof. intros. rewrite length_write_data. lia. Qed.

Lemma read_write_same d p bs : read_data (write_data d p bs) p (length bs) = bs.
Proof.
  unfold read_data, write_data.
  rewrite drop_app_length' by (by rewrite length_resize). apply take_app_length.
Qed.

(** Reading a field that lies inside the bytes just written. *)
Lemma read_write_inside d p bs q n :
  (p <= q)%nat -> (q + n <= p + length bs)%nat ->
  read_data (write_data d p bs) q n = read_data bs (q - p) n.
Proof.
  intros H1 H2. unfold read_data, write_data.
  rewrite drop_app_ge by (rewrite length_resize; lia). rewrite length_resize.
  rewrite drop_app_le by lia. rewrite take_app_le by (rewrite length_drop; lia). done.
Qed.

Lemma read_write_before d p bs q n :
  (q + n <= p)%nat -> (p <= length d)%nat ->
  read_data (write_data d p bs) q n = read_data d q n.
Proof.
  intros H1 H2. unfold read_data, write_data. rewrite resize_le by lia.
  rewrite drop_app_le by (rewrite length_take; lia).
  rewrite take_app_le by (rewrite length_drop, length_take; lia).
  rewrite !take_drop_commute, take_take. do 2 f_equal. lia.
Qed.

Lemma read_write_after d p bs q n :
  (p + length bs <= q)%nat -> (p <= length d)%nat ->
  read_data (write_data d p bs) q n = read_data d q n.
Proof.
  intros H1 H2. unfold read_data, write_data. f_equal.
  rewrite drop_app_ge by (rewrite length_resize; lia). rewrite length_resize.
  rewrite drop_app_ge by lia. rewrite drop_drop. f_equal. lia.
Qed.

(** Two adjacent writes are one write. *)
Lemma write_write_adjacent d p a b :
  write_data (write_data d p a) (p + length a) b = write_data d p (a ++ b).
Proof.
  unfold write_data at 1. unfold write_data at 1.
  rewrite (app_assoc (resize p nul d) a).
  rewrite resize_app_le by (rewrite length_app, length_resize; lia).
  rewrite resize_all_alt by (rewrite length_app, length_resize; lia).
  unfold write_data. rewrite <- !app_assoc, length_app. do 3 f_equal.
  rewrite drop_app_ge by (rewrite length_resize; lia). rewrite length_resize.
  rewrite drop_app_ge by lia. rewrite drop_drop. f_equal. lia.
Qed.

Lemma write_write_same d p a b :
  length a = length b -> write_data (write_data d p a) p b = write_data d p b.
Proof.
  intros H. unfold write_data at 1. unfold write_data at 1.
  rewrite resize_app_le by (rewrite length_resize; lia).
  rewrite resize_all_alt by (rewrite length_resize; lia).
  unfold write_data. do 2 f_equal. rewrite drop_app_ge by (rewrite length_resize; lia).
  rewrite length_resize, drop_app_ge by lia. rewrite drop_drop. f_equal. lia.
Qed.

(* ------------------------------------------------------------------ *)
(** ** Symbolic execution of the stream operations *)

Lemma seek_run d q p : seek p (FStream d q false) = (Ret tt, FStream d p false).
Proof. reflexivity. Qed.

Lemma write_run d p bs :
  write bs (FStream d p false) =
  (Ret true, FStream (write_data d (Z.to_nat p) bs) (p + Z.of_nat (length bs)) false).
Proof. reflexivity. Qed.

Lemma write_fail d p bs : write bs (FStream d p true) = (Ret false, FStream d p true).
Proof. reflexivity. Qed.

Lemma read_run d p n bs :
  read_data d (Z.to_nat p) n = bs -> length bs = n ->
  read n (FStream d p false) = (Ret (true, bs), FStream d (p + Z.of_nat n) false).
Proof. intros <- H. unfold read. simpl. by rewrite decide_True by done. Qed.

Lemma write_seq_run l d p :
  l <> [] -> 0 <= p ->
  write_seq l (FStream d p false) =
  (Ret true, FStream (write_data d (Z.to_nat p) (concat l))
                     (p + Z.of_nat (length (concat l))) false).
Proof.
  intros Hl. revert d p. induction l as [|a l IH]; [done|]. intros d p Hp.
  destruct l as [|b l].
  - cbn [write_seq concat]. rewrite (bind_Ret _ _ _ _ _ (write_run d p a)).
    by rewrite app_nil_r.
  - cbn [write_seq]. rewrite (bind_Ret _ _ _ _ _ (write_run d p a)).
    cbn [concat]. cbn [write_seq] in IH. rewrite IH by (done || lia).
    replace (Z.to_nat (p + Z.of_nat (length a))) with (Z.to_nat p + length a)%nat by lia.
    rewrite write_write_adjacent. cbn [concat]. do 2 f_equal. rewrite !length_app. lia.
Qed.

Lemma write_seq_fail l d p :
  l <> [] -> write_seq l (FStream d p true) = (Ret false, FStream d p true).
Proof. intros Hl. by destruct l. Qed.

(** Seeks and writes return whatever the state of the stream. *)
Lemma seek_total p f : exists f', seek p f = (Ret tt, f').
Proof. unfold seek. destruct (fs_fail f); by eexists. Qed.

Lemma write_seq_total l f : exists ok f', write_seq l f = (Ret ok, f').
Proof.
  revert f. induction l as [|a l IH]; intros f; cbn [write_seq]; [by do 2 eexists|].
  unfold mbind, M_bind, write. destruct (fs_fail f); [by do 2 eexists|]. apply IH.
Qed.

(** Consecutive reads cut consecutive pieces. *)
Fixpoint pieces (d : list ascii) (p : nat) (l : list nat) : list (list ascii) :=
  match l with
  | [] => []
  | n :: l' => read_data d p n :: pieces d (p + n) l'
  end.

(** The number of bytes a run of reads consumes. *)
Fixpoint total (l : list nat) : nat :=
  match l with [] => 0%nat | n :: l' => (n + total l')%nat end.

Lemma read_seq_run l d p :
  0 <= p -> (Z.to_nat p + total l <= length d)%nat ->
  read_seq l (FStream d p false) =
  (Ret (Some (pieces d (Z.to_nat p) l)), FStream d (p + Z.of_nat (total l)) false).
Proof.
  revert p. induction l as [|n l IH]; intros p Hp Hlen; simpl in *.
  - unfold mret, M_ret. by rewrite Z.add_0_r.
  - erewrite bind_Ret; [|apply read_run; [done|]].
    2: { unfold read_data. rewrite length_take, length_drop. lia. }
    cbn beta iota. erewrite bind_Ret; [|apply IH; lia].
    unfold mret, M_ret. cbn [fmap option_fmap option_map].
    replace (Z.to_nat (p + Z.of_nat n)) with (Z.to_nat p + n)%nat by lia.
    do 2 f_equal. lia.
Qed.

(* ------------------------------------------------------------------ *)
(** ** Block files *)

(** The file [d] is the concatenation of the blocks [bs], all [sz] long. *)
Definition block_file (sz : nat) (d : list ascii) (bs : list (list ascii)) : Prop :=
  d = concat bs /\ Forall (fun b => length b = sz) bs.

Section blocks.
Context (sz : nat).
Implicit Types (d b : list ascii) (bs : list (list ascii)).

Lemma block_file_length d bs : block_file sz d bs -> length d = (length bs * sz)%nat.
Proof. intros [-> H]. induction H; simpl; [done|]. rewrite length_app. lia. Qed.

Lemma block_length d bs i b : block_file sz d bs -> bs !! i = Some b -> length b = sz.
Proof. intros [_ H] Hi. by eapply Forall_lookup_1 in H. Qed.

Lemma drop_blocks d bs i :
  block_file sz d bs -> (i <= length bs)%nat -> drop (i * sz) d = concat (drop i bs).
Proof.
  intros [-> H]. revert i. induction H as [|b bs Hb H IH]; intros i Hi; simpl in *.
  - by rewrite !drop_nil.
  - destruct i as [|i]; simpl; [by rewrite drop_0|].
    rewrite drop_app_ge by lia. rewrite <- IH by lia. f_equal. lia.
Qed.

Lemma take_blocks d bs i :
  block_file sz d bs -> (i <= length bs)%nat -> take (i * sz) d = concat (take i bs).
Proof.
  intros [-> H]. revert i. induction H as [|b bs Hb H IH]; intros i Hi; simpl in *.
  - by rewrite !take_nil.
  - destruct i as [|i]; simpl; [by rewrite take_0|].
    rewrite take_app_ge by lia. f_equal. rewrite <- IH by lia. f_equal. lia.
Qed.

Lemma concat_drop_lookup bs i b :
  bs !! i = Some b -> concat (drop i bs) = b ++ concat (drop (S i) bs).
Proof. intros H. by rewrite (drop_S _ _ _ H). Qed.

(** Reading a field of a block. *)
Lemma read_block d bs i b off n :
  block_file sz d bs -> bs !! i = Some b -> (off + n <= sz)%nat ->
  read_data d (i * sz + off) n = read_data b off n.
Proof.
  intros Hd Hi Hoff. pose proof (block_length _ _ _ _ Hd Hi) as Hb.
  unfold read_data. rewrite <- drop_drop.
  rewrite (drop_blocks _ bs) by (done || (apply lookup_lt_Some in Hi; lia)).
  rewrite (concat_drop_lookup _ _ _ Hi).
  rewrite drop_app_le by lia. by rewrite take_app_le by (rewrite length_drop; lia).
Qed.

(** Updating a field of a block updates that block of the list. *)
Lemma write_block d bs i b off w :
  block_file sz d bs -> bs !! i = Some b -> (off + length w <= sz)%nat ->
  block_file sz (write_data d (i * sz + off) w) (<[i := write_data b off w]> bs).
Proof.
  intros Hd Hi Hoff. pose proof (block_length _ _ _ _ Hd Hi) as Hb.
  pose proof (lookup_lt_Some _ _ _ Hi) as Hlt.
  pose proof (block_file_length _ _ Hd) as Hlen.
  assert (i * sz + sz <= length d)%nat as Hin by nia.
  split.
  - unfold write_data. rewrite !resize_le by lia.
    rewrite insert_take_drop by done. rewrite concat_app. cbn [concat].
    rewrite <- (take_blocks d) by (done || lia).
    rewrite <- (drop_blocks d) by (done || lia).
    rewrite <- take_take_drop, <- !app_assoc. f_equal.
    replace (drop (i * sz) d) with (b ++ drop (S i * sz) d).
    2: { rewrite (drop_blocks d bs i), (drop_blocks d bs (S i)) by (done || lia).
         by rewrite (concat_drop_lookup _ _ _ Hi). }
    rewrite take_app_le by lia. do 2 f_equal.
    replace (i * sz + off + length w)%nat with (i * sz + (off + length w))%nat by lia.
    rewrite <- drop_drop. replace (drop (i * sz) d) with (b ++ drop (S i * sz) d).
    2: { rewrite (drop_blocks d bs i), (drop_blocks d bs (S i)) by (done || lia).
         by rewrite (concat_drop_lookup _ _ _ Hi). }
    by rewrite drop_app_le by lia.
  - apply Forall_insert; [by destruct Hd|]. rewrite length_write_data_le; lia.
Qed.

(** Writing a whole block at the end appends it. *)
Lemma append_block d bs b :
  block_file sz d bs -> length b = sz ->
  block_file sz (write_data d (length bs * sz) b) (bs ++ [b]).
Proof.
  intros Hd Hb. pose proof (block_file_length _ _ Hd) as Hlen. split.
  - unfold write_data. rewrite resize_all_alt by done. rewrite drop_ge by lia.
    rewrite app_nil_r, concat_app. cbn. rewrite app_nil_r. by destruct Hd as [-> _].
  - apply Forall_app; split; [by destruct Hd|]. by repeat constructor.
Qed.

(** The first block of an empty file goes to address [sz]: block 0 is a hole. *)
Lemma append_block_hole b :
  length b = sz -> block_file sz (write_data [] sz b) [replicate sz nul; b].
Proof.
  intros Hb. split.
  - unfold write_data. rewrite resize_nil, drop_nil. cbn. done.
  - repeat constructor; [apply length_replicate|done].
Qed.
End blocks.
