(* ===== verification/PropertyLinks.v ===== *)
(** * PropertyLinks: the singly linked property lists of nodes and edges

    [PropertyLink] (node properties), [MetaPropertyLink], [PropertyEdgeLink]
    and [MetaPropertyEdgeLink] (src/nativestore) store a list of name/value
    pairs as fixed-size blocks, each holding the address of the next one.
    The four classes have the same operations over their own file and their
    own next-block counter; they differ in the sizes, in how a name and a
    value are copied, in whether an existing name is overwritten and in
    whether address 0 stands for no link.  [LinkClass] collects the
    differences, the operations are written once over it and the four
    classes are its instances. *)
From Stdlib Require Import ZArith Ascii String Lia.
From stdpp Require Import base tactics numbers list strings gmap.
From S2P Require Import Prelude FStream.

(** What distinguishes one link class from another. *)
Class LinkClass := {
  MAX_NAME_SIZE : nat;
  MAX_VALUE_SIZE : nat;
  (** [char dataName[MAX_NAME_SIZE] = {0}] filled from the name. *)
  copy_name : string -> option (list ascii);
  (** [char dataValue[MAX_VALUE_SIZE]] of [insert], filled from the value pointer. *)
  copy_value : list ascii -> option (list ascii);
  (** Does [insert] overwrite the value under an existing name? *)
  updates_existing : bool;
  (** Does the class treat address 0 as the null link ([> 0] against [>= 0])? *)
  zero_is_null : bool
}.

(** The static members of one link class: its file and its counter, and the
    two mutexes that an early return leaves locked. *)
Record linkdb := LinkDB {
  ldb : fstream;
  nextPropertyIndex : Z;
  lockCreate : bool;
  lockInsert : bool
}.

(** A link object in memory; [None] is an indeterminate next address. *)
Record Link := mkLink {
  name : string;
  value : list ascii;
  blockAddress : Z;
  nextPropAddress : option Z
}.

Definition on_file {A} (c : M fstream A) : M linkdb A :=
  zoom ldb (fun f s => LinkDB f (nextPropertyIndex s) (lockCreate s) (lockInsert s)) c.

Definition acquireCreate : M linkdb unit := fun s =>
  if lockCreate s then (Deadlock, s)
  else (Ret tt, LinkDB (ldb s) (nextPropertyIndex s) true (lockInsert s)).
Definition releaseCreate : M linkdb unit :=
  modify (fun s => LinkDB (ldb s) (nextPropertyIndex s) false (lockInsert s)).
Definition acquireInsert : M linkdb unit := fun s =>
  if lockInsert s then (Deadlock, s)
  else (Ret tt, LinkDB (ldb s) (nextPropertyIndex s) (lockCreate s) true).
Definition releaseInsert : M linkdb unit :=
  modify (fun s => LinkDB (ldb s) (nextPropertyIndex s) (lockCreate s) false).
Definition bumpNextPropertyIndex : M linkdb unit :=
  modify (fun s => LinkDB (ldb s) (u32 (nextPropertyIndex s + 1)) (lockCreate s) (lockInsert s)).

Section ops.
Context {C : LinkClass}.

Definition PROPERTY_BLOCK_SIZE : nat := (MAX_NAME_SIZE + MAX_VALUE_SIZE + 4)%nat.

(** [unsigned int newAddress = nextPropertyIndex * PROPERTY_BLOCK_SIZE]. *)
Definition newAddress (s : linkdb) : Z :=
  u32 (nextPropertyIndex s * Z.of_nat PROPERTY_BLOCK_SIZE).

Definition no_link (propertyBlockAddress : Z) : bool :=
  zero_is_null && (propertyBlockAddress =? 0).

(** The constructor [PropertyLink(unsigned int)], used by [next]. *)
Definition read_link (propertyBlockAddress : Z) : M linkdb Link :=
  if no_link propertyBlockAddress
  then mret (mkLink "" (replicate MAX_VALUE_SIZE nul) propertyBlockAddress None)
  else
    on_file (seek propertyBlockAddress);;
    rawName ← on_file (read_into (replicate MAX_NAME_SIZE nul));
    v ← on_file (read_into (replicate MAX_VALUE_SIZE nul));
    '(ok, nx) ← on_file (read 4);
    nm ← determinate (cstring rawName);
    mret (mkLink nm v propertyBlockAddress (if ok : bool then Some (dec32 nx) else None)).

(** [PropertyLink::get]. *)
Definition get (propertyBlockAddress : Z) : M linkdb (option Link) :=
  if no_link propertyBlockAddress then mret None
  else
    on_file (seek propertyBlockAddress);;
    propertyName ← on_file (read_into (replicate MAX_NAME_SIZE nul));
    propertyValue ← on_file (read_into (replicate MAX_VALUE_SIZE nul));
    '(ok, nx) ← on_file (read 4);
    nm ← determinate (cstring propertyName);
    nextAddress ← determinate (if ok : bool then Some (dec32 nx) else None);
    mret (Some (mkLink nm propertyValue propertyBlockAddress (Some nextAddress))).

(** [PropertyLink::next]. *)
Definition next (this : Link) : M linkdb (option Link) :=
  nx ← determinate (nextPropAddress this);
  if nx =? 0 then mret None else l ← read_link nx; mret (Some l).

(** [PropertyLink::create]; a failed write returns with the mutex held. *)
Definition create (nm : string) (v : list ascii) : M linkdb (option Link) :=
  acquireCreate;;
  dataName ← determinate (copy_name nm);
  s ← get_state;
  let addr := newAddress s in
  on_file (seek addr);;
  on_file (write dataName);;
  dataValue ← determinate (memcpy_buf MAX_VALUE_SIZE v);
  on_file (write dataValue);;
  ok ← on_file (write (enc32 0));
  if ok : bool then
    bumpNextPropertyIndex;;
    releaseCreate;;
    mret (Some (mkLink nm dataValue addr (Some 0)))
  else mret None.

(** [PropertyLink::insert]: the returned address and the updated object. *)
Fixpoint insert (fuel : nat) (this : Link) (nm : string) (v : list ascii)
  : M linkdb (Z * Link) :=
  dataName ← determinate (copy_name nm);
  dataValue ← determinate (copy_value v);
  if decide (name this = nm) then
    if updates_existing then
      acquireInsert;;
      on_file (seek (blockAddress this + Z.of_nat MAX_NAME_SIZE));;
      on_file (write dataValue);;
      releaseInsert;;
      mret (blockAddress this, this)
    else mret (blockAddress this, this)
  else
    nx ← determinate (nextPropAddress this);
    if negb (nx =? 0) then
      match fuel with
      | O => out_of_fuel
      | S fuel' =>
          nextLink ← read_link nx;
          r ← insert fuel' nextLink nm v;
          mret (r.1, this)
      end
    else
      acquireInsert;;
      s ← get_state;
      let addr := newAddress s in
      on_file (seek addr);;
      on_file (write dataName);;
      on_file (write dataValue);;
      ok ← on_file (write (enc32 0));
      if negb ok then mret (u32 (-1), this)
      else
        let this' := mkLink (name this) (value this) (blockAddress this) (Some addr) in
        on_file (seek (blockAddress this + Z.of_nat MAX_NAME_SIZE + Z.of_nat MAX_VALUE_SIZE));;
        ok ← on_file (write (enc32 addr));
        if negb ok then mret (u32 (-1), this')
        else
          bumpNextPropertyIndex;;
          releaseInsert;;
          mret (blockAddress this, this').

(** The loop of [getAllProperties]: [try_emplace] keeps the first value. *)
Fixpoint collect (fuel : nat) (current : option Link) (acc : gmap string string)
  : M linkdb (gmap string string) :=
  match current with
  | None => mret acc
  | Some l =>
      v ← determinate (cstring (value l));
      let acc := match acc !! name l with Some _ => acc | None => <[name l := v]> acc end in
      match fuel with
      | O => out_of_fuel
      | S fuel' => temp ← next l; collect fuel' temp acc
      end
  end.

(** [getPropertyHead()->insert(name, value)]; a null head is dereferenced. *)
Definition insert_at (fuel : nat) (head : Z) (nm : string) (v : list ascii) : M linkdb Z :=
  l ← get head;
  match l with
  | None => undef
  | Some l => r ← insert fuel l nm v; mret r.1
  end.

(** [getAllProperties] of the list that starts at [head]. *)
Definition all_properties (fuel : nat) (head : Z) : M linkdb (gmap string string) :=
  l ← get head; collect fuel l ∅.
End ops.

(** ** The four classes *)

(** src/nativestore/PropertyLink.{h,cpp} *)
Definition PropertyLink : LinkClass := {|
  MAX_NAME_SIZE := 30; MAX_VALUE_SIZE := 400;
  copy_name := strcpy_buf 30; copy_value := memcpy_buf 400;
  updates_existing := false; zero_is_null := true |}.

(** src/nativestore/MetaPropertyLink.{h,cpp} *)
Definition MetaPropertyLink : LinkClass := {|
  MAX_NAME_SIZE := 12; MAX_VALUE_SIZE := 400;
  copy_name := strcpy_buf 12; copy_value := memcpy_buf 400;
  updates_existing := true; zero_is_null := false |}.

(** [insert] of an edge property copies the value as a C string, cut at 399. *)
Definition copy_edge_value (v : list ascii) : option (list ascii) :=
  if decide (nul ∈ v) then Some (strncpy_buf 400 v) else None.

(** src/nativestore/PropertyEdgeLink.{h,cpp} *)
Definition PropertyEdgeLink : LinkClass := {|
  MAX_NAME_SIZE := 30; MAX_VALUE_SIZE := 400;
  copy_name := fun s => Some (strncpy_buf 30 (chars s)); copy_value := copy_edge_value;
  updates_existing := false; zero_is_null := false |}.

(** src/nativestore/MetaPropertyEdgeLink.{h,cpp} *)
Definition MetaPropertyEdgeLink : LinkClass := {|
  MAX_NAME_SIZE := 12; MAX_VALUE_SIZE := 400;
  copy_name := strcpy_buf 12; copy_value := memcpy_buf 400;
  updates_existing := true; zero_is_null := false |}.

(** ** The methods as their callers use them

    A list never visits a block twice, so a fuel above the number of bytes
    of the file is never exhausted on an acyclic list; on a cyclic one the
    C++ loops do not terminate. *)
Definition link_fuel (s : linkdb) : nat := S (length (fs_data (ldb s))).

Definition insert_head (C : LinkClass) (head : Z) (nm : string) (v : list ascii) : M linkdb Z :=
  fun s => @insert_at C (link_fuel s) head nm v s.

Definition get_all (C : LinkClass) (head : Z) : M linkdb (gmap string string) :=
  fun s => @all_properties C (link_fuel s) head s.

Definition isEmpty (this : Link) : bool := blockAddress this =? 0.

Definition PropertyLink_read := @read_link PropertyLink.
Definition PropertyLink_insert := @insert PropertyLink.
Definition PropertyLink_create := @create PropertyLink.
Definition PropertyLink_next := @next PropertyLink.
Definition PropertyLink_get := @get PropertyLink.

Definition MetaPropertyLink_read := @read_link MetaPropertyLink.
Definition MetaPropertyLink_insert := @insert MetaPropertyLink.
Definition MetaPropertyLink_create := @create MetaPropertyLink.
Definition MetaPropertyLink_next := @next MetaPropertyLink.
Definition MetaPropertyLink_get := @get MetaPropertyLink.

Definition PropertyEdgeLink_read := @read_link PropertyEdgeLink.
Definition PropertyEdgeLink_insert := @insert PropertyEdgeLink.
Definition PropertyEdgeLink_create := @create PropertyEdgeLink.
Definition PropertyEdgeLink_next := @next PropertyEdgeLink.
Definition PropertyEdgeLink_get := @get PropertyEdgeLink.

Definition MetaPropertyEdgeLink_read := @read_link MetaPropertyEdgeLink.
Definition MetaPropertyEdgeLink_insert := @insert MetaPropertyEdgeLink.
Definition MetaPropertyEdgeLink_create := @create MetaPropertyEdgeLink.
Definition MetaPropertyEdgeLink_next := @next MetaPropertyEdgeLink.
Definition MetaPropertyEdgeLink_get := @get MetaPropertyEdgeLink.
