(* ===== verification/PropertyLinkTheory.v ===== *)
(** * PropertyLinkTheory: correctness of the property lists

    Abstract view: the list that starts at an address is a finite sequence of
    entries (block index, name, value), [chain].  The theorems describe what
    [get], [create], [insert] and [getAllProperties] do to that sequence, on
    every branch, for any [LinkClass] with the buffer laws [LinkClassOk]. *)
From Stdlib Require Import ZArith Ascii String Lia.
From stdpp Require Import base tactics numbers list strings gmap.
From S2P Require Import Prelude FStream PropertyLinks.

(** What the operations rely on: buffers are filled to their size and a
    stored name can be read back. *)
Class LinkClassOk (C : LinkClass) := {
  name_size_pos : (0 < MAX_NAME_SIZE)%nat;
  copy_name_length s b : copy_name s = Some b -> length b = MAX_NAME_SIZE;
  copy_name_reads s b : copy_name s = Some b -> is_Some (cstring b);
  copy_value_length v b : copy_value v = Some b -> length b = MAX_VALUE_SIZE
}.

#[export] Instance PropertyLink_ok : LinkClassOk PropertyLink.
Proof.
  split; simpl; [lia| | |].
  - intros s b. apply length_strcpy.
  - intros s b H. rewrite (cstring_strcpy _ _ _ H). eauto.
  - intros v b. apply length_memcpy.
Qed.

#[export] Instance MetaPropertyLink_ok : LinkClassOk MetaPropertyLink.
Proof.
  split; simpl; [lia| | |].
  - intros s b. apply length_strcpy.
  - intros s b H. rewrite (cstring_strcpy _ _ _ H). eauto.
  - intros v b. apply length_memcpy.
Qed.

#[export] Instance PropertyEdgeLink_ok : LinkClassOk PropertyEdgeLink.
Proof.
  split; simpl; [lia| | |].
  - intros s b [= <-]. apply length_resize.
  - intros s b [= <-]. rewrite cstring_strncpy by lia. eauto.
  - intros v b. unfold copy_edge_value. case_decide; [|done]. intros [= <-]. apply length_resize.
Qed.

#[export] Instance MetaPropertyEdgeLink_ok : LinkClassOk MetaPropertyEdgeLink.
Proof.
  split; simpl; [lia| | |].
  - intros s b. apply length_strcpy.
  - intros s b H. rewrite (cstring_strcpy _ _ _ H). eauto.
  - intros v b. apply length_memcpy.
Qed.

(** [std::map::try_emplace] as a left-biased union. *)
Lemma emplace_union (acc : gmap string string) nm w :
  match acc !! nm with Some _ => acc | None => <[nm := w]> acc end = acc ∪ {[nm := w]}.
Proof.
  apply map_eq. intros k. rewrite lookup_union.
  destruct (acc !! nm) eqn:E; destruct (decide (nm = k)) as [<-|Hne];
    rewrite ?lookup_insert_eq, ?lookup_insert_ne, ?E by done;
    rewrite ?lookup_singleton_eq, ?lookup_singleton_ne by done; try done;
    by destruct (acc !! k).
Qed.

Section theory.
Context {C : LinkClass} {OK : LinkClassOk C}.
Implicit Types (b : list ascii) (bs : list (list ascii)).

#[local] Abbreviation BLK := PROPERTY_BLOCK_SIZE.

(** The fields of a block. *)
Definition bname b := read_data b 0 MAX_NAME_SIZE.
Definition bvalue b := read_data b MAX_NAME_SIZE MAX_VALUE_SIZE.
Definition bnext b := dec32 (read_data b (MAX_NAME_SIZE + MAX_VALUE_SIZE) 4).

Definition mkblock (nm v : list ascii) (nx : Z) : list ascii := nm ++ v ++ enc32 nx.

(** The state of a link database between operations: a good stream over
    whole blocks, free mutexes, and a counter that names the next block. *)
Definition links_ok (s : linkdb) bs : Prop :=
  fs_fail (ldb s) = false /\ lockCreate s = false /\ lockInsert s = false /\
  block_file BLK (fs_data (ldb s)) bs /\
  ((bs = [] /\ nextPropertyIndex s = 1) \/
   ((2 <= length bs)%nat /\ nextPropertyIndex s = Z.of_nat (length bs) /\
    bs !! 0%nat = Some (replicate BLK nul))).

(** Room for one more block under 32-bit addresses. *)
Definition room (s : linkdb) : Prop :=
  (nextPropertyIndex s + 1) * Z.of_nat BLK < 4294967296.

Definition laddr (i : nat) : Z := Z.of_nat i * Z.of_nat BLK.

Definition entry : Type := nat * string * list ascii.
Definition e_idx (e : entry) : nat := e.1.1.
Definition e_name (e : entry) : string := e.1.2.
Definition e_value (e : entry) : list ascii := e.2.

Implicit Types (es : list entry).

(** The entries of the list that starts at an address. *)
Inductive chain bs : Z -> list entry -> Prop :=
| chain_nil : chain bs 0 []
| chain_cons i b nm es :
    (0 < i)%nat -> bs !! i = Some b -> cstring (bname b) = Some nm ->
    chain bs (bnext b) es ->
    chain bs (laddr i) ((i, nm, bvalue b) :: es).

(** The object [get] and the reading constructor build from block [i]. *)
Definition link_of (i : nat) b (nm : string) : Link :=
  mkLink nm (bvalue b) (laddr i) (Some (bnext b)).

Lemma BLK_pos : (0 < BLK)%nat.
Proof. unfold PROPERTY_BLOCK_SIZE. lia. Qed.

Lemma laddr_pos i : (0 < i)%nat -> 0 < laddr i.
Proof. pose proof BLK_pos. unfold laddr. nia. Qed.

Lemma laddr_inj i j : laddr i = laddr j -> i = j.
Proof. pose proof BLK_pos. unfold laddr. nia. Qed.

Lemma to_nat_laddr i off : 0 <= off -> Z.to_nat (laddr i + off) = (i * BLK + Z.to_nat off)%nat.
Proof. unfold laddr. nia. Qed.

Lemma laddr_not_null i : (0 < i)%nat -> no_link (laddr i) = false.
Proof.
  intros H. pose proof (laddr_pos i H). unfold no_link.
  destruct zero_is_null; simpl; [|done]. apply Z.eqb_neq. lia.
Qed.

(** *** Fields of blocks *)

Lemma length_mkblock nm v nx :
  length nm = MAX_NAME_SIZE -> length v = MAX_VALUE_SIZE -> length (mkblock nm v nx) = BLK.
Proof.
  intros. unfold mkblock, PROPERTY_BLOCK_SIZE. rewrite !length_app, length_enc32. lia.
Qed.

Lemma bname_mkblock nm v nx : length nm = MAX_NAME_SIZE -> bname (mkblock nm v nx) = nm.
Proof. intros. unfold bname, read_data, mkblock. by rewrite drop_0, take_app_length'. Qed.

Lemma bvalue_mkblock nm v nx :
  length nm = MAX_NAME_SIZE -> length v = MAX_VALUE_SIZE -> bvalue (mkblock nm v nx) = v.
Proof.
  intros. unfold bvalue, read_data, mkblock.
  rewrite drop_app_length' by done. by rewrite take_app_length'.
Qed.

Lemma bnext_mkblock nm v nx :
  length nm = MAX_NAME_SIZE -> length v = MAX_VALUE_SIZE -> is_u32 nx ->
  bnext (mkblock nm v nx) = nx.
Proof.
  intros. unfold bnext, read_data, mkblock. rewrite app_assoc.
  rewrite drop_app_length' by (rewrite length_app; lia).
  rewrite take_ge by (rewrite length_enc32; lia). by apply dec32_enc32.
Qed.

Definition set_next b (nx : Z) := write_data b (MAX_NAME_SIZE + MAX_VALUE_SIZE) (enc32 nx).
Definition set_value b (v : list ascii) := write_data b MAX_NAME_SIZE v.

Lemma bname_set_next b nx : length b = BLK -> bname (set_next b nx) = bname b.
Proof.
  intros. unfold bname, set_next. unfold PROPERTY_BLOCK_SIZE in *.
  apply read_write_before; lia.
Qed.

Lemma bvalue_set_next b nx : length b = BLK -> bvalue (set_next b nx) = bvalue b.
Proof.
  intros. unfold bvalue, set_next. unfold PROPERTY_BLOCK_SIZE in *.
  apply read_write_before; lia.
Qed.

Lemma bnext_set_next b nx : is_u32 nx -> bnext (set_next b nx) = nx.
Proof.
  intros. unfold bnext, set_next. change 4%nat with (length (enc32 nx)).
  rewrite read_write_same. by apply dec32_enc32.
Qed.

Lemma bname_set_value b v :
  length b = BLK -> length v = MAX_VALUE_SIZE -> bname (set_value b v) = bname b.
Proof.
  intros. unfold bname, set_value. unfold PROPERTY_BLOCK_SIZE in *.
  apply read_write_before; lia.
Qed.

Lemma bvalue_set_value b v : length v = MAX_VALUE_SIZE -> bvalue (set_value b v) = v.
Proof. intros H. unfold bvalue, set_value. rewrite <- H. apply read_write_same. Qed.

Lemma bnext_set_value b v :
  length b = BLK -> length v = MAX_VALUE_SIZE -> bnext (set_value b v) = bnext b.
Proof.
  intros. unfold bnext, set_value. unfold PROPERTY_BLOCK_SIZE in *. f_equal.
  apply read_write_after; lia.
Qed.

(** *** Chains *)

Lemma chain_head bs a e es : chain bs a (e :: es) -> a = laddr (e_idx e).
Proof. by inversion 1. Qed.

Lemma chain_cons_inv bs a e es :
  chain bs a (e :: es) ->
  exists b, bs !! e_idx e = Some b /\ (0 < e_idx e)%nat /\ a = laddr (e_idx e) /\
    e = (e_idx e, e_name e, bvalue b) /\ cstring (bname b) = Some (e_name e) /\
    chain bs (bnext b) es.
Proof. inversion 1; subst. eauto 10. Qed.

Lemma chain_null bs es : chain bs 0 es -> es = [].
Proof.
  inversion 1 as [|i b nm es' Hi Hb Hn Hc Ha]; subst; [done|].
  pose proof (laddr_pos i Hi). lia.
Qed.

Lemma chain_nil_inv bs a : chain bs a [] -> a = 0.
Proof. by inversion 1. Qed.

Lemma chain_det bs a es es' : chain bs a es -> chain bs a es' -> es = es'.
Proof.
  intros H. revert es'. induction H as [|i b nm es Hi Hb Hn Hc IH]; intros es' H'.
  - by rewrite (chain_null _ _ H').
  - destruct es' as [|e es'].
    { apply chain_nil_inv in H'. pose proof (laddr_pos i Hi). lia. }
    destruct (chain_cons_inv _ _ _ _ H') as (b' & Hb' & _ & Ha & He & Hn' & Hc').
    apply laddr_inj in Ha. subst i. assert (b' = b) as -> by congruence.
    assert (nm = e_name e) as -> by congruence. rewrite He at 3. f_equal. by apply IH.
Qed.

Lemma chain_suffix bs a es k e :
  chain bs a es -> es !! k = Some e -> chain bs (laddr (e_idx e)) (drop k es).
Proof.
  intros H. revert k. induction H as [|i b nm es Hi Hb Hn Hc IH]; intros k Hk; [done|].
  destruct k as [|k]; simpl in *; simplify_eq/=; [by constructor|auto].
Qed.

(** A list never visits a block twice. *)
Lemma chain_nodup bs a es : chain bs a es -> NoDup (e_idx <$> es).
Proof.
  induction 1 as [|i b nm es Hi Hb Hn Hc IH]; simpl; constructor; [|done].
  intros Hin. apply list_elem_of_fmap in Hin as (e & He & Hin).
  apply list_elem_of_lookup in Hin as [k Hk].
  assert (chain bs (laddr i) ((i, nm, bvalue b) :: es)) as Hfull by by constructor.
  pose proof (chain_suffix _ _ _ (S k) _ Hfull Hk) as Hsuf.
  rewrite <- He in Hsuf. unfold e_idx in Hsuf; simpl in Hsuf.
  pose proof (chain_det _ _ _ _ Hfull Hsuf) as Heq.
  apply (f_equal length) in Heq. simpl in Heq. rewrite length_drop in Heq. lia.
Qed.

Lemma chain_bounded bs a es e : chain bs a es -> e ∈ es -> (0 < e_idx e < length bs)%nat.
Proof.
  induction 1 as [|i b nm es Hi Hb Hn Hc IH]; intros Hin; [by apply not_elem_of_nil in Hin|].
  apply elem_of_cons in Hin as [->|Hin]; [|auto]. unfold e_idx; simpl.
  apply lookup_lt_Some in Hb. lia.
Qed.

(** Blocks appended to the file do not disturb a list. *)
Lemma chain_app bs bs2 a es : chain bs a es -> chain (bs ++ bs2) a es.
Proof.
  induction 1; econstructor; eauto. by apply lookup_app_l_Some.
Qed.

(** Nor does an update of a block that the list does not visit. *)
Lemma chain_frame bs a es i b :
  chain bs a es -> i ∉ (e_idx <$> es) -> chain (<[i:=b]> bs) a es.
Proof.
  induction 1 as [|j b' nm es Hj Hb Hn Hc IH]; intros Hni; [constructor|].
  simpl in Hni. rewrite not_elem_of_cons in Hni. destruct Hni as [Hne Hni].
  constructor; auto. rewrite list_lookup_insert_ne; [done|]. by unfold e_idx in Hne.
Qed.

(** *** Running the operations *)

Definition ready (d : list ascii) (p n : Z) : linkdb := LinkDB (FStream d p false) n false false.

Lemma links_ok_ready s bs :
  links_ok s bs -> s = ready (fs_data (ldb s)) (fs_pos (ldb s)) (nextPropertyIndex s).
Proof.
  destruct s as [[d p f] n lc li]. unfold links_ok. simpl.
  intros (-> & -> & -> & _). done.
Qed.

Lemma on_file_run {A} (c : M fstream A) d p n o d' p' lc li :
  c (FStream d p false) = (o, FStream d' p' false) ->
  on_file c (LinkDB (FStream d p false) n lc li) = (o, LinkDB (FStream d' p' false) n lc li).
Proof. intros H. unfold on_file, zoom. simpl. by rewrite H. Qed.

Lemma read_into_run d p n :
  (Z.to_nat p + n <= length d)%nat ->
  read_into (replicate n nul) (FStream d p false) =
  (Ret (read_data d (Z.to_nat p) n), FStream d (p + Z.of_nat n) false).
Proof.
  intros H. unfold read_into. rewrite length_replicate.
  erewrite bind_Ret; [|apply read_run; [done|]].
  2: { unfold read_data. rewrite length_take, length_drop. lia. }
  cbn beta iota. rewrite drop_ge, app_nil_r; [done|].
  rewrite length_replicate. unfold read_data. rewrite length_take, length_drop. lia.
Qed.

(** Three consecutive field reads at the start of a block. *)
Lemma block_reads d bs i b :
  block_file BLK d bs -> bs !! i = Some b ->
  (i * BLK + BLK <= length d)%nat /\
  read_data d (Z.to_nat (laddr i)) MAX_NAME_SIZE = bname b /\
  read_data d (Z.to_nat (laddr i + Z.of_nat MAX_NAME_SIZE)) MAX_VALUE_SIZE = bvalue b /\
  read_data d (Z.to_nat (laddr i + Z.of_nat MAX_NAME_SIZE + Z.of_nat MAX_VALUE_SIZE)) 4
    = read_data b (MAX_NAME_SIZE + MAX_VALUE_SIZE) 4.
Proof.
  intros Hd Hi. pose proof (lookup_lt_Some _ _ _ Hi).
  pose proof (block_file_length _ _ _ Hd).
  rewrite <- !Z.add_assoc, !to_nat_laddr by lia.
  replace (Z.to_nat (laddr i)) with (i * BLK + 0)%nat by (unfold laddr; lia).
  rewrite !(read_block BLK d bs i b) by (done || unfold PROPERTY_BLOCK_SIZE; lia).
  split; [nia|]. split; [done|]. split.
  - unfold bvalue. f_equal. lia.
  - f_equal. lia.
Qed.

(** The seek and the three reads of a block, before any continuation. *)
Lemma fields_run {A} (k : list ascii -> list ascii -> bool -> list ascii -> M linkdb A)
    d p n bs i b :
  block_file BLK d bs -> (0 < i)%nat -> bs !! i = Some b ->
  exists p',
  (on_file (seek (laddr i));;
   x ← on_file (read_into (replicate MAX_NAME_SIZE nul));
   y ← on_file (read_into (replicate MAX_VALUE_SIZE nul));
   '(ok, nx) ← on_file (read 4);
   k x y ok nx) (ready d p n) =
  k (bname b) (bvalue b) true (read_data b (MAX_NAME_SIZE + MAX_VALUE_SIZE) 4) (ready d p' n).
Proof.
  intros Hd Hi Hb. destruct (block_reads _ _ _ _ Hd Hb) as (Hlen & R1 & R2 & R3).
  pose proof (laddr_pos i Hi).
  assert (Z.to_nat (laddr i) = i * BLK)%nat by (unfold laddr; lia).
  unfold PROPERTY_BLOCK_SIZE in *.
  eexists. unfold ready. erewrite bind_Ret; [|apply on_file_run, seek_run].
  erewrite bind_Ret; [|apply on_file_run, read_into_run; lia].
  erewrite bind_Ret; [|apply on_file_run, read_into_run; lia].
  erewrite bind_Ret; [|apply on_file_run, read_run; [exact R3|] ].
  2: { rewrite <- R3. unfold read_data. rewrite length_take, length_drop. lia. }
  cbn beta iota. rewrite R1, R2. reflexivity.
Qed.

Lemma read_link_run d p n bs i b nm :
  block_file BLK d bs -> (0 < i)%nat -> bs !! i = Some b -> cstring (bname b) = Some nm ->
  exists p', read_link (laddr i) (ready d p n) = (Ret (link_of i b nm), ready d p' n).
Proof.
  intros Hd Hi Hb Hnm. unfold read_link. rewrite laddr_not_null by done.
  edestruct (fields_run (A := Link)) as [p' ->]; [done..|].
  exists p'. rewrite Hnm. by erewrite bind_Ret.
Qed.

Lemma get_run d p n bs i b nm :
  block_file BLK d bs -> (0 < i)%nat -> bs !! i = Some b -> cstring (bname b) = Some nm ->
  exists p', get (laddr i) (ready d p n) = (Ret (Some (link_of i b nm)), ready d p' n).
Proof.
  intros Hd Hi Hb Hnm. unfold get. rewrite laddr_not_null by done.
  edestruct (fields_run (A := option Link)) as [p' ->]; [done..|].
  exists p'. rewrite Hnm. by erewrite bind_Ret.
Qed.

Lemma get_null d p n :
  zero_is_null = true -> get 0 (ready d p n) = (Ret None, ready d p n).
Proof. intros H. unfold get, no_link. by rewrite H. Qed.

(** [create]: one block is appended and its link returned. *)
Lemma create_run s bs nm v dn dv :
  links_ok s bs -> room s -> copy_name nm = Some dn -> memcpy_buf MAX_VALUE_SIZE v = Some dv ->
  exists s' bs', create nm v s =
    (Ret (Some (mkLink nm dv (laddr (Z.to_nat (nextPropertyIndex s))) (Some 0))), s') /\
    links_ok s' bs' /\ (0 < Z.to_nat (nextPropertyIndex s))%nat /\
    bs' !! Z.to_nat (nextPropertyIndex s) = Some (mkblock dn dv 0) /\
    nextPropertyIndex s' = nextPropertyIndex s + 1 /\
    (forall a es, chain bs a es -> chain bs' a es).
Proof.
  intros Hok Hroom Hdn Hdv. rewrite (links_ok_ready s bs Hok).
  destruct s as [[d p f] n lc li]. unfold links_ok in Hok. simpl in *.
  destruct Hok as (_ & _ & _ & Hd & Hn). unfold room in Hroom; simpl in Hroom.
  pose proof (copy_name_length _ _ Hdn) as Ln. pose proof (length_memcpy _ _ _ Hdv) as Lv.
  pose proof BLK_pos. pose proof (length_mkblock dn dv 0 Ln Lv) as Lb.
  assert (1 <= n) by lia.
  assert (newAddress (LinkDB (FStream d p false) n true false) = laddr (Z.to_nat n)) as Ha.
  { unfold newAddress, laddr. simpl. rewrite u32_id; [lia|]. unfold is_u32. nia. }
  assert (exists bs', block_file BLK (write_data d (Z.to_nat (laddr (Z.to_nat n))) (mkblock dn dv 0)) bs'
    /\ length bs' = S (Z.to_nat n) /\ bs' !! Z.to_nat n = Some (mkblock dn dv 0)
    /\ (forall a es, chain bs a es -> chain bs' a es) /\ bs' !! 0%nat = Some (replicate BLK nul))
    as (bs' & Hd' & Hlen' & Hlk & Hch & Hz').
  { destruct Hn as [(-> & ->)|(Hl & -> & Hz)].
    - destruct Hd as [-> _]. exists [replicate BLK nul; mkblock dn dv 0].
      replace (Z.to_nat (laddr (Z.to_nat 1))) with BLK by (unfold laddr; lia).
      split; [by apply append_block_hole|]. split; [done|]. split; [done|]. split; [|done].
      inversion 1; simplify_eq/=; constructor.
    - exists (bs ++ [mkblock dn dv 0]). rewrite Nat2Z.id.
      replace (Z.to_nat (laddr (length bs))) with (length bs * BLK)%nat by (unfold laddr; lia).
      split; [by apply append_block|]. rewrite length_app; simpl. split; [lia|].
      split; [by apply list_lookup_middle|]. split; [intros; by apply chain_app|].
      by apply lookup_app_l_Some. }
  exists (ready (write_data d (Z.to_nat (laddr (Z.to_nat n))) (mkblock dn dv 0))
     (laddr (Z.to_nat n) + Z.of_nat (length (mkblock dn dv 0))) (n + 1)), bs'.
  split.
  { unfold create. erewrite bind_Ret; [|reflexivity].
    rewrite Hdn. erewrite bind_Ret; [|reflexivity]. erewrite bind_Ret; [|reflexivity].
    simpl. rewrite Ha. erewrite bind_Ret; [|apply on_file_run, seek_run].
    erewrite bind_Ret; [|apply on_file_run, write_run].
    rewrite Hdv. erewrite bind_Ret; [|reflexivity].
    erewrite bind_Ret; [|apply on_file_run, write_run].
    erewrite bind_Ret; [|apply on_file_run, write_run]. cbn beta iota.
    erewrite bind_Ret; [|reflexivity]. erewrite bind_Ret; [|reflexivity].
    pose proof (laddr_pos (Z.to_nat n) ltac:(lia)).
    unfold mret, M_ret, ready, mkblock. simpl. rewrite u32_id by (unfold is_u32; nia).
    replace (Z.to_nat (laddr (Z.to_nat n) + Z.of_nat (length dn)))
      with (Z.to_nat (laddr (Z.to_nat n)) + length dn)%nat by lia.
    replace (Z.to_nat (laddr (Z.to_nat n) + Z.of_nat (length dn) + Z.of_nat (length dv)))
      with (Z.to_nat (laddr (Z.to_nat n)) + length (dn ++ dv))%nat by (rewrite length_app; lia).
    rewrite !write_write_adjacent, <- app_assoc. do 3 f_equal. rewrite !length_app. simpl. lia. }
  unfold links_ok. simpl. repeat (split; [done || lia|]). split; [|by eauto with lia].
  split_and!; try done. right. rewrite Hlen'. split_and!; [lia..|done].
Qed.

(** *** Insertion *)

(** A list only depends on the blocks it visits. *)
Lemma chain_agree bs bs' a es :
  chain bs a es -> (forall j, j ∈ (e_idx <$> es) -> bs' !! j = bs !! j) -> chain bs' a es.
Proof.
  induction 1 as [|i b nm es Hi Hb Hn Hc IH]; intros Hag; [constructor|].
  constructor; auto.
  - rewrite Hag; [done|]. left.
  - apply IH. intros j Hj. apply Hag. by right.
Qed.

(** What [insert] means on the entries: the first entry of that name is
    kept (or overwritten by the updating classes), a new name goes last. *)
Fixpoint upsert (nm : string) (dv : list ascii) (new : entry) (es : list entry) : list entry :=
  match es with
  | [] => [new]
  | e :: es' =>
      if decide (e_name e = nm)
      then (if updates_existing then (e_idx e, e_name e, dv) else e) :: es'
      else e :: upsert nm dv new es'
  end.

(** The block whose address [insert] returns: the one with that name, or
    the last of the list as it was before the call. *)
Fixpoint visited (nm : string) (i : nat) (es : list entry) : nat :=
  match es with
  | [] => i
  | e :: es' => if decide (e_name e = nm) then e_idx e else visited nm (e_idx e) es'
  end.

Lemma write_field_block d bs i b off w :
  block_file BLK d bs -> bs !! i = Some b -> (off + length w <= BLK)%nat ->
  block_file BLK (write_data d (Z.to_nat (laddr i + Z.of_nat off)) w)
    (<[i := write_data b off w]> bs).
Proof.
  intros. rewrite to_nat_laddr by lia. rewrite Nat2Z.id. by apply write_block.
Qed.

Section insertion.
Context (nm : string) (v dn dv : list ascii) (nm' : string).
Context (Hdn : copy_name nm = Some dn) (Hdv : copy_value v = Some dv)
        (Hnm' : cstring dn = Some nm').

(** The three branches of [insert]. *)
Lemma insert_eq_found fuel this s :
  name this = nm ->
  insert fuel this nm v s =
  (if updates_existing then
     acquireInsert;; on_file (seek (blockAddress this + Z.of_nat MAX_NAME_SIZE));;
     on_file (write dv);; releaseInsert;; mret (blockAddress this, this)
   else mret (blockAddress this, this)) s.
Proof.
  intros H. destruct fuel; cbn [insert]; rewrite Hdn, Hdv;
    do 2 (erewrite bind_Ret; [|reflexivity]); by rewrite decide_True by done.
Qed.

Lemma insert_eq_next fuel this nx s :
  name this <> nm -> nextPropAddress this = Some nx -> nx <> 0 ->
  insert (S fuel) this nm v s =
  (nextLink ← read_link nx; r ← insert fuel nextLink nm v; mret (r.1, this)) s.
Proof.
  intros H Hnx Hz. cbn [insert]. rewrite Hdn, Hdv, Hnx.
  do 2 (erewrite bind_Ret; [|reflexivity]). rewrite decide_False by done.
  erewrite bind_Ret; [|reflexivity]. apply Z.eqb_neq in Hz. by rewrite Hz.
Qed.

Lemma insert_eq_tail fuel this s :
  name this <> nm -> nextPropAddress this = Some 0 ->
  insert fuel this nm v s =
  (acquireInsert;; st ← get_state;
   on_file (seek (newAddress st));; on_file (write dn);; on_file (write dv);;
   ok ← on_file (write (enc32 0));
   if negb ok then mret (u32 (-1), this)
   else
     let this' := mkLink (name this) (value this) (blockAddress this) (Some (newAddress st)) in
     on_file (seek (blockAddress this + Z.of_nat MAX_NAME_SIZE + Z.of_nat MAX_VALUE_SIZE));;
     ok ← on_file (write (enc32 (newAddress st)));
     if negb ok then mret (u32 (-1), this')
     else bumpNextPropertyIndex;; releaseInsert;; mret (blockAddress this, this')) s.
Proof.
  intros H Hnx. destruct fuel; cbn [insert]; rewrite Hdn, Hdv, Hnx;
    do 2 (erewrite bind_Ret; [|reflexivity]); rewrite decide_False by done;
    (erewrite bind_Ret; [|reflexivity]); reflexivity.
Qed.

(** The part of [insert]'s specification that its recursion carries. *)
Definition inserted bs (i : nat) (es : list entry) (d' : list ascii) (n' : Z) bs' : Prop :=
  block_file BLK d' bs' /\ n' = Z.of_nat (length bs') /\ (length bs <= length bs' <= S (length bs))%nat /\
  chain bs' (laddr i) (upsert nm dv (length bs, nm', dv) es) /\
  (forall j, (j < length bs)%nat -> j ∉ (e_idx <$> es) -> bs' !! j = bs !! j).

Lemma insert_found d p bs i b es fuel :
  block_file BLK d bs -> bs !! i = Some b ->
  chain bs (laddr i) ((i, nm, bvalue b) :: es) ->
  exists this' d' p' bs',
    insert fuel (link_of i b nm) nm v (ready d p (Z.of_nat (length bs))) =
    (Ret (laddr i, this'), ready d' p' (Z.of_nat (length bs))) /\
    inserted bs i ((i, nm, bvalue b) :: es) d' (Z.of_nat (length bs)) bs'.
Proof.
  intros Hd Hb Hc. pose proof (copy_value_length _ _ Hdv) as Lv.
  pose proof (block_length _ _ _ _ _ Hd Hb) as Lb.
  destruct (chain_cons_inv _ _ _ _ Hc) as (b' & Hb' & Hi & _ & _ & Hn & Hc').
  unfold e_idx, e_name in *; simpl in *. assert (b' = b) as -> by congruence.
  pose proof (chain_nodup _ _ _ Hc) as Hnd. simpl in Hnd. apply NoDup_cons in Hnd as [Hni _].
  rewrite insert_eq_found by done.
  unfold inserted. simpl. rewrite decide_True by done. destruct updates_existing.
  - do 3 eexists. exists (<[i := set_value b dv]> bs). split.
    { unfold ready. erewrite bind_Ret; [|reflexivity]. simpl.
      erewrite bind_Ret; [|apply on_file_run, seek_run].
      erewrite bind_Ret; [|apply on_file_run, write_run]. reflexivity. }
    pose proof (lookup_lt_Some _ _ _ Hb). rewrite length_insert.
    split; [apply write_field_block; [done..|unfold PROPERTY_BLOCK_SIZE; lia]|].
    split; [done|]. split; [lia|]. split.
    + unfold e_idx; simpl. rewrite <- (bvalue_set_value b dv) at 2 by done.
      constructor; [done| | |].
      * by apply list_lookup_insert_eq.
      * by rewrite bname_set_value.
      * rewrite bnext_set_value by done. apply chain_frame; [done|]. done.
    + intros j _ Hj. rewrite list_lookup_insert_ne; [done|].
      apply not_elem_of_cons in Hj as [Hj _]. unfold e_idx in Hj; simpl in Hj. done.
  - do 3 eexists. exists bs. split; [reflexivity|]. split_and!; done || lia.
Qed.

Lemma insert_append d p bs i b nm0 fuel :
  block_file BLK d bs -> bs !! i = Some b ->
  (Z.of_nat (length bs) + 1) * Z.of_nat BLK < 4294967296 ->
  nm0 <> nm -> chain bs (laddr i) [(i, nm0, bvalue b)] ->
  exists this' d' p' bs',
    insert fuel (link_of i b nm0) nm v (ready d p (Z.of_nat (length bs))) =
    (Ret (laddr i, this'), ready d' p' (Z.of_nat (length bs) + 1)) /\
    inserted bs i [(i, nm0, bvalue b)] d' (Z.of_nat (length bs) + 1) bs'.
Proof.
  intros Hd Hb Hroom Hne Hc. pose proof (copy_value_length _ _ Hdv) as Lv.
  pose proof (copy_name_length _ _ Hdn) as Ln.
  pose proof (block_length _ _ _ _ _ Hd Hb) as Lb. pose proof BLK_pos.
  destruct (chain_cons_inv _ _ _ _ Hc) as (b' & Hb' & Hi & _ & _ & Hn & Hc').
  unfold e_idx, e_name in *; simpl in *. assert (b' = b) as -> by congruence.
  apply chain_nil_inv in Hc'. pose proof (lookup_lt_Some _ _ _ Hb).
  set (n := length bs) in *.
  assert (u32 (Z.of_nat n * Z.of_nat BLK) = laddr n) as Ha.
  { unfold laddr. apply u32_id. unfold is_u32. nia. }
  assert (block_file BLK (write_data d (Z.to_nat (laddr n)) (mkblock dn dv 0))
            (bs ++ [mkblock dn dv 0])) as Hd1.
  { replace (Z.to_nat (laddr n)) with (n * BLK)%nat by (unfold laddr; lia).
    apply append_block; [done|by apply length_mkblock]. }
  assert ((bs ++ [mkblock dn dv 0]) !! i = Some b) as Hb1 by by apply lookup_app_l_Some.
  pose proof (write_field_block _ _ i b (MAX_NAME_SIZE + MAX_VALUE_SIZE) (enc32 (laddr n))
    Hd1 Hb1 ltac:(unfold PROPERTY_BLOCK_SIZE; simpl; lia)) as Hd2.
  exists (mkLink nm0 (bvalue b) (laddr i) (Some (laddr n))).
  do 2 eexists. exists (<[i := set_next b (laddr n)]> (bs ++ [mkblock dn dv 0])).
  assert (is_u32 (laddr n)) by (rewrite <- Ha; apply u32_range).
  split.
  { pose proof (laddr_pos i Hi).
    rewrite insert_eq_tail by (done || cbn; by rewrite Hc').
    do 2 (erewrite bind_Ret; [|reflexivity]).
    unfold newAddress. simpl. rewrite Ha.
    erewrite bind_Ret; [|apply on_file_run, seek_run].
    do 2 (erewrite bind_Ret; [|apply on_file_run, write_run]).
    erewrite bind_Ret; [|apply on_file_run, write_run]. cbn [negb].
    erewrite bind_Ret; [|apply on_file_run, seek_run].
    erewrite bind_Ret; [|apply on_file_run, write_run]. cbn [negb].
    do 2 (erewrite bind_Ret; [|reflexivity]).
    unfold mret, M_ret. simpl. rewrite u32_id by (unfold is_u32; nia). reflexivity. }
  pose proof (laddr_pos n ltac:(lia)).
  unfold inserted. rewrite length_insert, length_app. simpl.
  replace (Z.to_nat (laddr n + Z.of_nat (length dn)))
    with (Z.to_nat (laddr n) + length dn)%nat by lia.
  replace (Z.to_nat (laddr n + Z.of_nat (length dn) + Z.of_nat (length dv)))
    with (Z.to_nat (laddr n) + length (dn ++ dv))%nat by (rewrite length_app; lia).
  rewrite !write_write_adjacent, <- app_assoc. fold (mkblock dn dv 0).
  rewrite <- Z.add_assoc, <- Nat2Z.inj_add. split; [done|]. split; [lia|]. split; [lia|].
  unfold e_name; simpl. rewrite decide_False by done. split.
  - rewrite <- (bvalue_set_next b (laddr n)) by done. constructor; [done| | |].
    + apply list_lookup_insert_eq. rewrite length_app. lia.
    + by rewrite bname_set_next.
    + rewrite bnext_set_next by done.
      rewrite <- (bvalue_mkblock dn dv 0) at 2 by done. constructor; [lia| | |].
      * rewrite list_lookup_insert_ne by lia. by apply list_lookup_middle.
      * by rewrite bname_mkblock.
      * rewrite bnext_mkblock by (done || (unfold is_u32; lia)). constructor.
  - intros j Hj Hnj. rewrite list_lookup_insert_ne by (intros ->; apply Hnj; left). by apply lookup_app_l.
Qed.
End insertion.

Lemma visited_eq nm i j v es : visited nm i ((j, nm, v) :: es) = j.
Proof. cbn [visited]. change (e_name (j, nm, v)) with nm. by rewrite decide_True. Qed.

Lemma visited_ne nm nm0 i j v es :
  nm0 <> nm -> visited nm i ((j, nm0, v) :: es) = visited nm j es.
Proof. intros. cbn [visited]. change (e_name (j, nm0, v)) with nm0. by rewrite decide_False. Qed.

Lemma upsert_ne nm nm0 dv new j v es :
  nm0 <> nm -> upsert nm dv new ((j, nm0, v) :: es) = (j, nm0, v) :: upsert nm dv new es.
Proof. intros. cbn [upsert]. change (e_name (j, nm0, v)) with nm0. by rewrite decide_False. Qed.

Lemma insert_run fuel d p bs i b nm0 es nm v dn dv nm' :
  block_file BLK d bs -> (Z.of_nat (length bs) + 1) * Z.of_nat BLK < 4294967296 ->
  copy_name nm = Some dn -> copy_value v = Some dv -> cstring dn = Some nm' ->
  bs !! i = Some b -> chain bs (laddr i) ((i, nm0, bvalue b) :: es) ->
  (length es <= fuel)%nat ->
  exists this' d' p' n' bs',
    insert fuel (link_of i b nm0) nm v (ready d p (Z.of_nat (length bs))) =
    (Ret (laddr (visited nm i ((i, nm0, bvalue b) :: es)), this'), ready d' p' n') /\
    inserted nm dv nm' bs i ((i, nm0, bvalue b) :: es) d' n' bs'.
Proof.
  intros Hd Hroom Hdn Hdv Hnm'. revert p i b nm0 fuel.
  induction es as [|e es IH]; intros p i b nm0 fuel Hb Hc Hf;
    (destruct (decide (nm0 = nm)) as [->|Hne];
     [ destruct (insert_found nm v dn dv nm' Hdn Hdv d p bs i b _ fuel Hd Hb Hc)
         as (t & d' & p' & bs' & Hrun & Hins);
       exists t, d', p', (Z.of_nat (length bs)), bs'; split; [|done];
       by rewrite visited_eq | ]).
  - destruct (insert_append nm v dn dv nm' Hdn Hdv Hnm' d p bs i b nm0 fuel Hd Hb Hroom Hne Hc)
      as (t & d' & p' & bs' & Hrun & Hins).
    exists t, d', p', (Z.of_nat (length bs) + 1), bs'. split; [|done].
    by rewrite visited_ne.
  - destruct (chain_cons_inv _ _ _ _ Hc) as (b1 & Hb1 & Hi & _ & _ & Hn0 & Hc1).
    unfold e_idx, e_name in Hb1, Hi, Hn0; simpl in Hb1, Hi, Hn0.
    assert (b1 = b) as -> by congruence.
    destruct (chain_cons_inv _ _ _ _ Hc1) as (b2 & Hb2 & Hj & Ha & He & Hn2 & _).
    destruct fuel as [|fuel]; [simpl in Hf; lia|]. simpl in Hf.
    destruct (read_link_run d p (Z.of_nat (length bs)) bs _ _ _ Hd Hj Hb2 Hn2) as [p1 Hread].
    rewrite Ha in Hc1. rewrite He in Hc1.
    destruct (IH p1 _ b2 _ fuel Hb2 Hc1 ltac:(lia)) as (t & d' & p' & n' & bs' & Hrun & Hins).
    exists (link_of i b nm0), d', p', n', bs'. split.
    { rewrite (insert_eq_next nm v dn dv Hdn Hdv _ _ (bnext b)); [|done..|].
      2: { rewrite Ha. pose proof (laddr_pos _ Hj). lia. }
      rewrite Ha. erewrite bind_Ret; [|exact Hread]. erewrite bind_Ret; [|exact Hrun].
      rewrite <- He, visited_ne by done. destruct es; reflexivity. }
    rewrite <- He in Hins. destruct Hins as (I1 & I2 & I3 & I4 & I5).
    pose proof (chain_nodup _ _ _ Hc) as Hnd. rewrite fmap_cons in Hnd.
    apply NoDup_cons in Hnd as [Hni _]. unfold e_idx at 1 in Hni; cbn [fst] in Hni.
    pose proof (lookup_lt_Some _ _ _ Hb).
    split_and!; try (done || lia).
    + rewrite upsert_ne by done. constructor; [done|by rewrite I5|done|]. by rewrite Ha.
    + intros j Hjl Hnj. apply I5; [done|]. intros Hin. apply Hnj. by right.
Qed.

(** [getPropertyHead()->insert(name, value)], with fuel for the whole list. *)
Lemma insert_at_blocks fuel s bs a es nm v dn dv nm' :
  links_ok s bs -> room s -> chain bs a es -> es <> [] -> (length es <= fuel)%nat ->
  copy_name nm = Some dn -> copy_value v = Some dv -> cstring dn = Some nm' ->
  exists s' bs',
    insert_at fuel a nm v s = (Ret (laddr (visited nm 0 es)), s') /\
    links_ok s' bs' /\ nextPropertyIndex s <= nextPropertyIndex s' <= nextPropertyIndex s + 1 /\
    chain bs' a (upsert nm dv (length bs, nm', dv) es) /\
    (forall j, (j < length bs)%nat -> j ∉ (e_idx <$> es) -> bs' !! j = bs !! j).
Proof.
  intros Hok Hroom Hc Hne Hf Hdn Hdv Hnm'. rewrite (links_ok_ready s bs Hok).
  destruct s as [[d p f] n lc li]. unfold links_ok, room in *. simpl in *.
  destruct Hok as (_ & _ & _ & Hd & Hn). destruct es as [|e es]; [done|]. simpl in Hf.
  destruct (chain_cons_inv _ _ _ _ Hc) as (b & Hb & Hi & Ha & He & Hn0 & _).
  pose proof (lookup_lt_Some _ _ _ Hb).
  destruct Hn as [[-> ->]|(Hlen & -> & Hz)]; [simpl in *; lia|].
  destruct (get_run d p (Z.of_nat (length bs)) bs _ _ _ Hd Hi Hb Hn0) as [p1 Hget].
  destruct e as [[i nm0] v0]. unfold e_idx, e_name in Hb, Hi, Ha, Hget. cbn [fst snd] in *.
  assert (v0 = bvalue b) as -> by congruence. subst a.
  destruct (insert_run fuel d p1 bs i b nm0 es nm v dn dv nm' Hd Hroom Hdn Hdv Hnm' Hb Hc
    ltac:(lia)) as (t & d' & p' & n' & bs' & Hrun & I1 & I2 & I3 & I4 & I5).
  exists (ready d' p' n'), bs'. split_and!; try done; try (simpl; lia).
  - unfold insert_at. erewrite bind_Ret; [|exact Hget]. cbn beta iota.
    erewrite bind_Ret; [|exact Hrun]. reflexivity.
  - right. split_and!; [lia|done|]. rewrite I5; [done|lia|]. intros Hin.
    apply list_elem_of_fmap in Hin as (e' & He' & Hin).
    pose proof (chain_bounded _ _ _ _ Hc Hin). lia.
Qed.

(** Lists without the blocks of [es] survive a change of those blocks. *)
Lemma chains_apart bs bs' es a' es' :
  (forall j, (j < length bs)%nat -> j ∉ (e_idx <$> es) -> bs' !! j = bs !! j) ->
  chain bs a' es' -> (e_idx <$> es') ## (e_idx <$> es) -> chain bs' a' es'.
Proof.
  intros Hag Hc' Hdis. eapply chain_agree; [done|]. intros j Hj. apply Hag.
  - apply list_elem_of_fmap in Hj as (e' & -> & Hin). by destruct (chain_bounded _ _ _ _ Hc' Hin).
  - intros Hin. exact (Hdis j Hj Hin).
Qed.

Lemma insert_at_run fuel s bs a es nm v dn dv nm' :
  links_ok s bs -> room s -> chain bs a es -> es <> [] -> (length es <= fuel)%nat ->
  copy_name nm = Some dn -> copy_value v = Some dv -> cstring dn = Some nm' ->
  exists s' bs',
    insert_at fuel a nm v s = (Ret (laddr (visited nm 0 es)), s') /\
    links_ok s' bs' /\ nextPropertyIndex s <= nextPropertyIndex s' <= nextPropertyIndex s + 1 /\
    chain bs' a (upsert nm dv (length bs, nm', dv) es) /\
    (forall a' es', chain bs a' es' -> (e_idx <$> es') ## (e_idx <$> es) -> chain bs' a' es').
Proof.
  intros Hok Hroom Hc Hne Hf Hdn Hdv Hnm'.
  destruct (insert_at_blocks fuel s bs a es nm v dn dv nm') as (s' & bs' & R & H1 & H2 & H3 & H4); try done.
  exists s', bs'. split_and!; try done; try lia. intros a' es'. by apply chains_apart.
Qed.

(** *** Reading all properties *)

(** [try_emplace] along the list: the first value of a name wins. *)
Fixpoint props es : gmap string string :=
  match es with
  | [] => ∅
  | e :: es' => <[e_name e := string_of_list_ascii (until_nul (e_value e))]> (props es')
  end.

Definition readable_values es : Prop := Forall (fun e => nul ∈ e_value e) es.

Lemma collect_run fuel d p n bs i b nm es acc :
  block_file BLK d bs -> bs !! i = Some b ->
  chain bs (laddr i) ((i, nm, bvalue b) :: es) ->
  readable_values ((i, nm, bvalue b) :: es) -> (length es < fuel)%nat ->
  exists p', collect fuel (Some (link_of i b nm)) acc (ready d p n) =
    (Ret (acc ∪ props ((i, nm, bvalue b) :: es)), ready d p' n).
Proof.
  intros Hd. revert p i b nm acc fuel.
  induction es as [|e es IH]; intros p i b nm acc fuel Hb Hc Hv Hf;
    (destruct fuel as [|fuel]; [simpl in Hf; lia|]);
    destruct (chain_cons_inv _ _ _ _ Hc) as (b1 & Hb1 & Hi & _ & _ & Hn0 & Hc1);
    unfold e_idx, e_name in Hb1, Hi, Hn0; simpl in Hb1, Hi, Hn0;
    assert (b1 = b) as -> by congruence; apply Forall_cons in Hv as [Hv0 Hv];
    unfold e_value in Hv0; simpl in Hv0;
    cbn [collect]; cbn [link_of value name]; unfold cstring; rewrite decide_True by done;
    cbn [determinate]; (erewrite bind_Ret; [|reflexivity]);
    rewrite emplace_union; set (w := string_of_list_ascii (until_nul (bvalue b))).
  - apply chain_nil_inv in Hc1. unfold next. cbn [link_of nextPropAddress].
    rewrite Hc1. exists p. destruct fuel; reflexivity.
  - destruct (chain_cons_inv _ _ _ _ Hc1) as (b2 & Hb2 & Hj & Ha & He & Hn2 & _).
    destruct (read_link_run d p n bs _ _ _ Hd Hj Hb2 Hn2) as [p1 Hread].
    destruct e as [[j nm2] v2]. unfold e_idx, e_name in *; cbn [fst snd] in *.
    assert (v2 = bvalue b2) as -> by congruence. rewrite Ha in Hc1.
    destruct (IH p1 j b2 nm2 (acc ∪ {[nm := w]}) fuel Hb2 Hc1 Hv ltac:(simpl in Hf; lia))
      as [p' Hrun].
    exists p'. unfold next. cbn [link_of nextPropAddress determinate].
    erewrite bind_Ret; [|erewrite bind_Ret; [|reflexivity]].
    2: { pose proof (laddr_pos _ Hj). rewrite (proj2 (Z.eqb_neq (bnext b) 0)) by lia.
         rewrite Ha. erewrite bind_Ret; [|exact Hread]. reflexivity. }
    cbn beta iota. rewrite Hrun. do 2 f_equal. rewrite <- (assoc_L (∪)). f_equal.
    symmetry. apply insert_union_singleton_l.
Qed.

(** [getAllProperties], with fuel for the whole list. *)
Lemma all_properties_run fuel s bs a es :
  links_ok s bs -> chain bs a es -> es <> [] -> readable_values es -> (length es < fuel)%nat ->
  exists s', all_properties fuel a s = (Ret (props es), s') /\
    links_ok s' bs /\ fs_data (ldb s') = fs_data (ldb s) /\
    nextPropertyIndex s' = nextPropertyIndex s.
Proof.
  intros Hok Hc Hne Hv Hf. rewrite (links_ok_ready s bs Hok).
  destruct s as [[d p f] n lc li]. unfold links_ok in *. simpl in *.
  destruct Hok as (_ & _ & _ & Hd & Hn). destruct es as [|e es]; [done|].
  destruct (chain_cons_inv _ _ _ _ Hc) as (b & Hb & Hi & Ha & He & Hn0 & _).
  destruct (get_run d p n bs _ _ _ Hd Hi Hb Hn0) as [p1 Hget].
  destruct e as [[i nm0] v0]. unfold e_idx, e_name in Hb, Hi, Ha, Hget, Hn0. cbn [fst snd] in *.
  assert (v0 = bvalue b) as -> by congruence. subst a. simpl in Hf.
  destruct (collect_run fuel d p1 n bs i b nm0 es ∅ Hd Hb Hc Hv ltac:(lia)) as [p' Hrun].
  exists (ready d p' n). split_and!; try done.
  unfold all_properties. erewrite bind_Ret; [|exact Hget]. rewrite Hrun.
  by rewrite (left_id_L ∅ (∪)).
Qed.

(** *** Creation *)

Lemma create_fresh s bs nm v dn dv nm' :
  links_ok s bs -> room s -> copy_name nm = Some dn -> cstring dn = Some nm' ->
  memcpy_buf MAX_VALUE_SIZE v = Some dv ->
  exists s' bs' i,
    create nm v s = (Ret (Some (mkLink nm dv (laddr i) (Some 0))), s') /\
    links_ok s' bs' /\ nextPropertyIndex s' = nextPropertyIndex s + 1 /\ is_u32 (laddr i) /\
    chain bs' (laddr i) [(i, nm', dv)] /\
    (forall a es, chain bs a es -> (i ∉ (e_idx <$> es)) /\ chain bs' a es).
Proof.
  intros Hok Hroom Hdn Hnm' Hdv.
  destruct (create_run _ _ _ _ _ _ Hok Hroom Hdn Hdv)
    as (s' & bs' & Hrun & Hok' & Hpos & Hlk & Hnx & Hch).
  pose proof (copy_name_length _ _ Hdn) as Ln. pose proof (length_memcpy _ _ _ Hdv) as Lv.
  exists s', bs', (Z.to_nat (nextPropertyIndex s)). split_and!; try done.
  - unfold is_u32, laddr, room in *. lia.
  - rewrite <- (bvalue_mkblock dn dv 0) at 1 by done.
    constructor; [done..|by rewrite bname_mkblock|].
    rewrite bnext_mkblock by (done || (unfold is_u32; lia)). constructor.
  - intros a es Hc. split; [|by apply Hch]. intros Hin.
    apply list_elem_of_fmap in Hin as (e & He & Hin).
    pose proof (chain_bounded _ _ _ _ Hc Hin) as Hb.
    destruct Hok as (_ & _ & _ & _ & [[-> _]|(_ & Hn & _)]); [simpl in Hb; lia|].
    rewrite Hn in He. lia.
Qed.

(** *** Error paths *)

(** *** The operations as the owners of a list call them *)

Lemma chain_length bs a es : chain bs a es -> (length es <= length bs)%nat.
Proof.
  intros Hc. rewrite <- (length_fmap e_idx es), <- (length_seq (length bs) 0).
  apply submseteq_length, NoDup_submseteq; [by eapply chain_nodup|].
  intros i (e & -> & He)%list_elem_of_fmap. pose proof (chain_bounded _ _ _ _ Hc He).
  apply elem_of_seq. lia.
Qed.

Lemma link_fuel_enough s bs a es : links_ok s bs -> chain bs a es -> (length es < link_fuel s)%nat.
Proof.
  intros (_ & _ & _ & Hd & _) Hc%chain_length. unfold link_fuel.
  rewrite (block_file_length _ _ _ Hd). pose proof BLK_pos. nia.
Qed.

(** [getPropertyHead()->insert(name, value)] on a non-empty
    list always returns; the list from the same head becomes [upsert] of
    the old one - a new name goes to the end, an existing one keeps or
    overwrites its value depending on the class -, the database stays well
    formed, and every list that shares no block with this one is unchanged.
    The address returned is that of the last block looked at. *)
Theorem insert_spec s bs a es nm v dn dv nm' :
  links_ok s bs -> room s -> chain bs a es -> es <> [] ->
  copy_name nm = Some dn -> copy_value v = Some dv -> cstring dn = Some nm' ->
  exists s' bs',
    insert_head C a nm v s = (Ret (laddr (visited nm 0 es)), s') /\
    links_ok s' bs' /\ nextPropertyIndex s <= nextPropertyIndex s' <= nextPropertyIndex s + 1 /\
    chain bs' a (upsert nm dv (length bs, nm', dv) es) /\
    (forall a' es', chain bs a' es' -> (e_idx <$> es') ## (e_idx <$> es) -> chain bs' a' es').
Proof.
  intros Hok Hroom Hc Hne. apply insert_at_run; [done..|].
  pose proof (link_fuel_enough _ _ _ _ Hok Hc). lia.
Qed.

(** [getAllProperties] on a well-formed list returns
    the map of its entries in which the first value stored under a name
    wins, and changes no data. *)
Theorem all_properties_spec s bs a es :
  links_ok s bs -> chain bs a es -> es <> [] -> readable_values es ->
  exists s', get_all C a s = (Ret (props es), s') /\
    links_ok s' bs /\ fs_data (ldb s') = fs_data (ldb s) /\
    nextPropertyIndex s' = nextPropertyIndex s.
Proof. intros Hok Hc Hne Hv. apply all_properties_run; [done..|]. by eapply link_fuel_enough. Qed.

(** [create] always returns a link on a well-formed database
    with room: the list that starts at its address is the single entry with
    the given name and value, its block is in no other list, and every
    existing list is unchanged. *)
Theorem create_spec s bs nm v dn dv nm' :
  links_ok s bs -> room s -> copy_name nm = Some dn -> cstring dn = Some nm' ->
  memcpy_buf MAX_VALUE_SIZE v = Some dv ->
  exists s' bs' i,
    create nm v s = (Ret (Some (mkLink nm dv (laddr i) (Some 0))), s') /\
    links_ok s' bs' /\ nextPropertyIndex s' = nextPropertyIndex s + 1 /\ is_u32 (laddr i) /\
    chain bs' (laddr i) [(i, nm', dv)] /\
    (forall a es, chain bs a es -> (i ∉ (e_idx <$> es)) /\ chain bs' a es).
Proof. apply create_fresh. Qed.

(** Once the stream has failed, [create] returns
    a null link with its mutex still locked, so that the next [create] of
    the class blocks forever. *)
Theorem create_error_keeps_lock s nm v dn dv nm2 v2 :
  fs_fail (ldb s) = true -> lockCreate s = false ->
  copy_name nm = Some dn -> memcpy_buf MAX_VALUE_SIZE v = Some dv ->
  exists s', create nm v s = (Ret None, s') /\ (create nm2 v2 s').1 = Deadlock.
Proof.
  destruct s as [[d p f] n lc li]. simpl. intros -> -> Hdn Hdv.
  exists (LinkDB (FStream d p true) n true li). split; [|done].
  unfold create. erewrite bind_Ret; [|reflexivity]. rewrite Hdn. cbn [determinate].
  do 4 (erewrite bind_Ret; [|reflexivity]). rewrite Hdv. cbn [determinate].
  do 3 (erewrite bind_Ret; [|reflexivity]). reflexivity.
Qed.

(** *** Address 0 in the classes that do not treat it as null *)

Lemma zero_block_fields :
  bname (replicate BLK nul) = replicate MAX_NAME_SIZE nul /\
  bvalue (replicate BLK nul) = replicate MAX_VALUE_SIZE nul /\
  read_data (replicate BLK nul) (MAX_NAME_SIZE + MAX_VALUE_SIZE) 4 = replicate 4 nul.
Proof.
  unfold bname, bvalue, read_data, PROPERTY_BLOCK_SIZE.
  rewrite !drop_replicate, !take_replicate. split_and!; f_equal; lia.
Qed.

Lemma cstring_zeros n : (0 < n)%nat -> cstring (replicate n nul) = Some EmptyString.
Proof. intros Hn. destruct n; [lia|]. reflexivity. Qed.

(** For a class that does not test for address 0, the
    properties of an owner that never had any are read from the hole at the
    start of the file: one property with the empty name and value. *)
Theorem null_list_is_hole s bs fuel :
  zero_is_null = false -> (0 < MAX_VALUE_SIZE)%nat -> links_ok s bs -> bs <> [] ->
  exists s', all_properties (S fuel) 0 s = (Ret {[EmptyString := EmptyString]}, s').
Proof.
  intros Hz HV Hok Hne. rewrite (links_ok_ready s bs Hok).
  destruct Hok as (_ & _ & _ & Hd & [[-> _]|(Hl & Hn & H0)]); [done|].
  destruct zero_block_fields as (F1 & F2 & F3). pose proof name_size_pos.
  unfold all_properties, get, no_link. rewrite Hz. cbn [andb].
  pose proof (block_reads _ _ _ _ Hd H0) as (Hlen & R1 & R2 & R3).
  rewrite F1 in R1. rewrite F2 in R2. rewrite F3 in R3.
  unfold PROPERTY_BLOCK_SIZE in Hlen. change (laddr 0) with 0 in *.
  eexists. erewrite bind_Ret.
  2: { unfold ready. erewrite bind_Ret; [|apply on_file_run, seek_run].
       erewrite bind_Ret; [|apply on_file_run, read_into_run; lia].
       erewrite bind_Ret; [|apply on_file_run, read_into_run; lia].
       erewrite bind_Ret; [|apply on_file_run, read_run; [exact R3|done] ].
       cbn beta iota. rewrite R1, R2, cstring_zeros by done.
       cbn [determinate]. do 2 (erewrite bind_Ret; [|reflexivity]). reflexivity. }
  cbn [collect]. cbn [value name]. rewrite cstring_zeros by done. cbn [determinate].
  erewrite bind_Ret; [|reflexivity]. rewrite lookup_empty.
  unfold next. cbn [nextPropAddress].
  destruct fuel; reflexivity.
Qed.

(** ... and while the file is still empty
    the read fails: the stream is left in its failed state, and the code goes
    on with an indeterminate next address. *)
Theorem null_list_empty_file_undefined n lc li p fuel :
  zero_is_null = false ->
  exists s', all_properties fuel 0 (LinkDB (FStream [] p false) n lc li) = (Undef, s') /\
    fs_fail (ldb s') = true.
Proof.
  intros Hz. pose proof name_size_pos as Hpos.
  unfold all_properties, get, no_link. rewrite Hz. cbn [andb].
  assert (read_into (replicate MAX_NAME_SIZE nul) (FStream [] 0 false) =
          (Ret (replicate MAX_NAME_SIZE nul), FStream [] 0 true)) as R1.
  { unfold read_into, mbind, M_bind, read, read_data. simpl. rewrite length_replicate, take_nil.
    simpl. rewrite decide_False by lia. by rewrite drop_0. }
  assert (read_into (replicate MAX_VALUE_SIZE nul) (FStream [] 0 true) =
          (Ret (replicate MAX_VALUE_SIZE nul), FStream [] 0 true)) as R2.
  { unfold read_into, mbind, M_bind, read. simpl. by rewrite drop_0. }
  eexists. split.
  - erewrite bind_Undef; [reflexivity|].
    erewrite bind_Ret; [|apply on_file_run, seek_run].
    erewrite bind_Ret; [|apply zoom_run, R1]. erewrite bind_Ret; [|apply zoom_run, R2].
    erewrite bind_Ret; [|reflexivity]. cbn beta iota. rewrite cstring_zeros by done.
    cbn [determinate]. erewrite bind_Ret; [|reflexivity]. reflexivity.
  - reflexivity.
Qed.
End theory.
