(* ===== verification/NodeBlock.v ===== *)
(** * NodeBlock: the vertex records of a partition

    [NodeBlock] (src/nativestore/NodeBlock.{h,cpp}) is the in-memory image of
    one 140-byte block of the nodes database: usage flag, vertex id, heads of
    the local and central relation lists, partition id, heads of the property
    and meta property lists, and a NUL-terminated label of at most 117
    characters.  This file has the state of the whole native store and the
    operations that touch the nodes file and the property files; the
    relation lists are in RelationBlock and NodeRelations. *)
From Stdlib Require Import ZArith Ascii String Lia.
From stdpp Require Import base tactics numbers list strings gmap.
From S2P Require Import Prelude FStream PropertyLinks.

(** ** The thread-local databases of the native store *)
Record store := Store {
  nodesDB : fstream;
  propertiesDB : linkdb;
  metaPropertiesDB : linkdb;
  edgePropertiesDB : linkdb;
  metaEdgePropertiesDB : linkdb;
  relationsDB : fstream;
  centralRelationsDB : fstream;
  nextLocalRelationIndex : Z;
  nextCentralRelationIndex : Z
}.

Definition set_nodesDB (f : fstream) (s : store) : store :=
  Store f (propertiesDB s) (metaPropertiesDB s) (edgePropertiesDB s) (metaEdgePropertiesDB s)
    (relationsDB s) (centralRelationsDB s) (nextLocalRelationIndex s) (nextCentralRelationIndex s).
Definition set_propertiesDB (l : linkdb) (s : store) : store :=
  Store (nodesDB s) l (metaPropertiesDB s) (edgePropertiesDB s) (metaEdgePropertiesDB s)
    (relationsDB s) (centralRelationsDB s) (nextLocalRelationIndex s) (nextCentralRelationIndex s).
Definition set_metaPropertiesDB (l : linkdb) (s : store) : store :=
  Store (nodesDB s) (propertiesDB s) l (edgePropertiesDB s) (metaEdgePropertiesDB s)
    (relationsDB s) (centralRelationsDB s) (nextLocalRelationIndex s) (nextCentralRelationIndex s).
Definition set_edgePropertiesDB (l : linkdb) (s : store) : store :=
  Store (nodesDB s) (propertiesDB s) (metaPropertiesDB s) l (metaEdgePropertiesDB s)
    (relationsDB s) (centralRelationsDB s) (nextLocalRelationIndex s) (nextCentralRelationIndex s).
Definition set_metaEdgePropertiesDB (l : linkdb) (s : store) : store :=
  Store (nodesDB s) (propertiesDB s) (metaPropertiesDB s) (edgePropertiesDB s) l
    (relationsDB s) (centralRelationsDB s) (nextLocalRelationIndex s) (nextCentralRelationIndex s).
Definition set_relationsDB (f : fstream) (s : store) : store :=
  Store (nodesDB s) (propertiesDB s) (metaPropertiesDB s) (edgePropertiesDB s)
    (metaEdgePropertiesDB s) f (centralRelationsDB s)
    (nextLocalRelationIndex s) (nextCentralRelationIndex s).
Definition set_centralRelationsDB (f : fstream) (s : store) : store :=
  Store (nodesDB s) (propertiesDB s) (metaPropertiesDB s) (edgePropertiesDB s)
    (metaEdgePropertiesDB s) (relationsDB s) f
    (nextLocalRelationIndex s) (nextCentralRelationIndex s).
Definition set_nextLocal (n : Z) (s : store) : store :=
  Store (nodesDB s) (propertiesDB s) (metaPropertiesDB s) (edgePropertiesDB s)
    (metaEdgePropertiesDB s) (relationsDB s) (centralRelationsDB s) n (nextCentralRelationIndex s).
Definition set_nextCentral (n : Z) (s : store) : store :=
  Store (nodesDB s) (propertiesDB s) (metaPropertiesDB s) (edgePropertiesDB s)
    (metaEdgePropertiesDB s) (relationsDB s) (centralRelationsDB s) (nextLocalRelationIndex s) n.

Definition on_nodes {A} : M fstream A -> M store A := zoom nodesDB set_nodesDB.
Definition on_props {A} : M linkdb A -> M store A := zoom propertiesDB set_propertiesDB.
Definition on_metaProps {A} : M linkdb A -> M store A :=
  zoom metaPropertiesDB set_metaPropertiesDB.
Definition on_edgeProps {A} : M linkdb A -> M store A :=
  zoom edgePropertiesDB set_edgePropertiesDB.
Definition on_metaEdgeProps {A} : M linkdb A -> M store A :=
  zoom metaEdgePropertiesDB set_metaEdgePropertiesDB.

(** ** The record *)

Definition NODE_BLOCK_SIZE : Z := 140.
Definition LABEL_SIZE : nat := 118.

Record NodeBlock := mkNode {
  addr : Z;
  id : string;
  usage : ascii;
  nodeId : Z;
  edgeRef : Z;
  centralEdgeRef : Z;
  edgeRefPID : ascii;
  propRef : Z;
  metaPropRef : Z;
  label : list ascii
}.

(** The member [isDirected] is private and never assigned. *)
Definition isDirected : bool := false.

Definition with_label (n : NodeBlock) (l : list ascii) : NodeBlock :=
  mkNode (addr n) (id n) (usage n) (nodeId n) (edgeRef n) (centralEdgeRef n) (edgeRefPID n)
    (propRef n) (metaPropRef n) l.
Definition with_id (n : NodeBlock) (i : string) : NodeBlock :=
  mkNode (addr n) i (usage n) (nodeId n) (edgeRef n) (centralEdgeRef n) (edgeRefPID n)
    (propRef n) (metaPropRef n) (label n).
Definition with_propRef (n : NodeBlock) (r : Z) : NodeBlock :=
  mkNode (addr n) (id n) (usage n) (nodeId n) (edgeRef n) (centralEdgeRef n) (edgeRefPID n)
    r (metaPropRef n) (label n).
Definition with_metaPropRef (n : NodeBlock) (r : Z) : NodeBlock :=
  mkNode (addr n) (id n) (usage n) (nodeId n) (edgeRef n) (centralEdgeRef n) (edgeRefPID n)
    (propRef n) r (label n).
Definition with_edgeRef (n : NodeBlock) (r : Z) : NodeBlock :=
  mkNode (addr n) (id n) (usage n) (nodeId n) r (centralEdgeRef n) (edgeRefPID n)
    (propRef n) (metaPropRef n) (label n).
Definition with_centralEdgeRef (n : NodeBlock) (r : Z) : NodeBlock :=
  mkNode (addr n) (id n) (usage n) (nodeId n) (edgeRef n) r (edgeRefPID n)
    (propRef n) (metaPropRef n) (label n).

Definition flag (u : bool) : ascii := byte (if u then 1 else 0).

(** The constructor for a vertex that is not stored yet. *)
Definition newNodeBlock (newId : string) (node address : Z) : NodeBlock :=
  mkNode address newId (flag true) node 0 0 nul 0 0 (replicate LABEL_SIZE nul).

(** The constructor from stored fields: [strcpy(this->label, _label)]. *)
Definition makeNodeBlock (nid : string) (node address prop metaProp edge centralEdge : Z)
    (pid : ascii) (_label : list ascii) (u : bool) : NodeBlock :=
  mkNode address nid (flag u) node edge centralEdge pid prop metaProp
    (resize LABEL_SIZE nul (until_nul _label)).

Definition isInUse (n : NodeBlock) : bool := bool_decide (usage n = flag true).

Definition getLabel {S} (n : NodeBlock) : M S string := determinate (cstring (label n)).

Definition setLabel (n : NodeBlock) (_label : list ascii) : NodeBlock :=
  with_label n (strncpy_buf LABEL_SIZE _label).

(** Offsets of the fields in a block. *)
Definition NODE_ID_OFFSET : Z := 1.
Definition EDGE_REF_OFFSET : Z := 5.
Definition CENTRAL_EDGE_REF_OFFSET : Z := 9.
Definition PID_OFFSET : Z := 13.
Definition PROP_REF_OFFSET : Z := 14.
Definition META_PROP_REF_OFFSET : Z := 18.
Definition LABEL_OFFSET : Z := 22.

(** [NodeBlock::addLabel]: only a label that still equals the id is replaced. *)
Definition addLabel (n : NodeBlock) (l : list ascii) : M store NodeBlock :=
  cur ← determinate (cstring (label n));
  new ← determinate (cstring l);
  if bool_decide (cur = id n) && negb (bool_decide (new = EmptyString)) then
    let n := with_label n (strncpy_buf LABEL_SIZE l) in
    on_nodes (seek (addr n + LABEL_OFFSET));;
    on_nodes (write (label n));;
    mret n
  else mret n.

Definition getPropertyHead (n : NodeBlock) : M store (option Link) :=
  on_props (@get PropertyLink (propRef n)).
Definition getMetaPropertyHead (n : NodeBlock) : M store (option Link) :=
  on_metaProps (@get MetaPropertyLink (metaPropRef n)).

(** [NodeBlock::addProperty]. *)
Definition addProperty (n : NodeBlock) (nm : string) (v : list ascii) : M store NodeBlock :=
  if propRef n =? 0 then
    newLink ← on_props (@create PropertyLink nm v);
    match newLink with
    | Some l =>
        let n := with_propRef n (blockAddress l) in
        on_nodes (seek (addr n + PROP_REF_OFFSET));;
        on_nodes (write (enc32 (propRef n)));;
        mret n
    | None => mret n
    end
  else
    r ← on_props (insert_head PropertyLink (propRef n) nm v);
    mret (with_propRef n r).

(** [NodeBlock::addMetaProperty]. *)
Definition addMetaProperty (n : NodeBlock) (nm : string) (v : list ascii) : M store NodeBlock :=
  if metaPropRef n =? 0 then
    newLink ← on_metaProps (@create MetaPropertyLink nm v);
    match newLink with
    | Some l =>
        let n := with_metaPropRef n (blockAddress l) in
        on_nodes (seek (addr n + META_PROP_REF_OFFSET));;
        on_nodes (write (enc32 (metaPropRef n)));;
        mret n
    | None => mret n
    end
  else
    r ← on_metaProps (insert_head MetaPropertyLink (metaPropRef n) nm v);
    mret (with_metaPropRef n r).

(** The fields of a block in the order [save] writes them. *)
Definition node_fields (n : NodeBlock) : list (list ascii) :=
  [[usage n]; enc32 (nodeId n); enc32 (edgeRef n); enc32 (centralEdgeRef n); [edgeRefPID n];
   enc32 (propRef n); enc32 (metaPropRef n); label n].

(** [NodeBlock::save]: a long id is kept as the property label.  The writes
    are not checked; on a failed stream none of them has an effect, whether
    the first failure stops the sequence or not. *)
Definition save (n : NodeBlock) : M store NodeBlock :=
  let _label := strncpy_buf 400 (chars (id n)) in
  let isSmallLabel := bool_decide (length (chars (id n)) < LABEL_SIZE)%nat in
  let n := if isSmallLabel then with_label n (strncpy_buf LABEL_SIZE (chars (id n))) else n in
  on_nodes (seek (addr n));;
  on_nodes (write_seq (node_fields n));;
  if isSmallLabel then mret n else addProperty n "label" _label.

Definition NodeBlock_getAllProperties (n : NodeBlock) : M store (gmap string string) :=
  on_props (get_all PropertyLink (propRef n)).

Definition RELATION_BLOCK_SIZE : Z := 152.

Definition NODE_FIELD_SIZES : list nat := [1; 4; 4; 4; 1; 4; 4; LABEL_SIZE]%nat.

(** [NodeBlock::get]; a short read leaves locals indeterminate. *)
Definition NodeBlock_get (blockAddress : Z) : M store NodeBlock :=
  on_nodes (seek blockAddress);;
  r ← on_nodes (read_seq NODE_FIELD_SIZES);
  match r with
  | Some [u; nid; e; c; pid; pr; mp; l] =>
      lbl ← determinate (cstring l);
      let i := if bool_decide (lbl = EmptyString) then EmptyString else to_string (dec32 nid) in
      let n := makeNodeBlock i (dec32 nid) blockAddress (dec32 pr) (dec32 mp) (dec32 e) (dec32 c)
                 (default nul (head pid)) l (bool_decide (u = [flag true])) in
      n ← (if bool_decide (id n = EmptyString) then
             props ← NodeBlock_getAllProperties n;
             mret (match props !! "label" with
                   | Some v => if bool_decide (v = EmptyString) then n else with_id n v
                   | None => n
                   end)
           else mret n);
      (if edgeRef n mod RELATION_BLOCK_SIZE =? 0 then mret tt
       else literal_offset "Exception: Invalid edge reference address = " (edgeRef n));;
      mret n
  | _ => undef
  end.

(** [NodeBlock::setLocalRelationHead]; [false] when the stream has failed.
    [addr + edgeReferenceOffset] is [unsigned int] arithmetic here. *)
Definition setLocalRelationHead (n : NodeBlock) (relationAddr : Z) : M store (bool * NodeBlock) :=
  on_nodes (seek (u32 (addr n + EDGE_REF_OFFSET)));;
  ok ← on_nodes (write (enc32 relationAddr));
  mret (if ok : bool then (true, with_edgeRef n relationAddr) else (false, n)).

Definition setCentralRelationHead (n : NodeBlock) (relationAddr : Z) : M store (bool * NodeBlock) :=
  on_nodes (seek (u32 (addr n + EDGE_REF_OFFSET) + 4));;
  ok ← on_nodes (write (enc32 relationAddr));
  mret (if ok : bool then (true, with_centralEdgeRef n relationAddr) else (false, n)).
