(* ===== verification/RelationBlock.v ===== *)
(** * RelationBlock: the edge records of a partition

    [RelationBlock] (src/nativestore/RelationBlock.{h,cpp}) is the image of an
    edge block: 13 32-bit records and a 100-byte type for a local relation
    (152 bytes), 14 records and the type for a central one (156 bytes).  The
    local and the central methods are the same code over another file, block
    size and counter; they are written once over [kind]. *)
From Stdlib Require Import ZArith Ascii String Lia.
From stdpp Require Import base tactics numbers list strings gmap.
From S2P Require Import Prelude FStream PropertyLinks NodeBlock.

Inductive kind := Local | Central.

#[export] Instance kind_eq_dec : EqDecision kind.
Proof. solve_decision. Defined.

Definition RECORD_SIZE : Z := 4.
Definition MAX_TYPE_SIZE : nat := 100.
Definition DEFAULT_TYPE : string := "DEFAULT".

Definition NUMBER_OF_RELATION_RECORDS (k : kind) : Z :=
  match k with Local => 13 | Central => 14 end.
Definition RELATIONSHIP_TYPE_OFFSET (k : kind) : Z :=
  match k with Local => 13 | Central => 14 end.
Definition BLOCK_SIZE (k : kind) : Z :=
  RECORD_SIZE * NUMBER_OF_RELATION_RECORDS k + Z.of_nat MAX_TYPE_SIZE.

Definition on_rel {A} (k : kind) : M fstream A -> M store A :=
  match k with
  | Local => zoom relationsDB set_relationsDB
  | Central => zoom centralRelationsDB set_centralRelationsDB
  end.
Definition rel_file (k : kind) (s : store) : fstream :=
  match k with Local => relationsDB s | Central => centralRelationsDB s end.
Definition nextRelationIndex (k : kind) (s : store) : Z :=
  match k with Local => nextLocalRelationIndex s | Central => nextCentralRelationIndex s end.
Definition set_next_relation (k : kind) (n : Z) (s : store) : store :=
  match k with Local => set_nextLocal n s | Central => set_nextCentral n s end.

(** [struct NodeRelation]. *)
Record NodeRelation := mkNR {
  address : Z;
  nextRelationId : Z;
  nextPid : Z;
  preRelationId : Z;
  prePid : Z;
  nr_nodeId : Z
}.

Definition at_address (a : Z) : NodeRelation := mkNR a 0 0 0 0 0.

Inductive RelationOffsets :=
| SOURCE_ID | DESTINATION_ID | SOURCE | DESTINATION
| SOURCE_NEXT | SOURCE_NEXT_PID | SOURCE_PREVIOUS | SOURCE_PREVIOUS_PID
| DESTINATION_NEXT | DESTINATION_NEXT_PID | DESTINATION_PREVIOUS | DESTINATION_PREVIOUS_PID
| RELATION_PROPS | RELATION_PROPS_META.

Definition offset_value (o : RelationOffsets) : Z :=
  match o with
  | SOURCE_ID => 0 | DESTINATION_ID => 1 | SOURCE => 2 | DESTINATION => 3
  | SOURCE_NEXT => 4 | SOURCE_NEXT_PID => 5 | SOURCE_PREVIOUS => 6 | SOURCE_PREVIOUS_PID => 7
  | DESTINATION_NEXT => 8 | DESTINATION_NEXT_PID => 9
  | DESTINATION_PREVIOUS => 10 | DESTINATION_PREVIOUS_PID => 11
  | RELATION_PROPS => 12 | RELATION_PROPS_META => 13
  end.

Record RelationBlock := mkRel {
  raddr : Z;
  source : NodeRelation;
  destination : NodeRelation;
  propertyAddress : Z;
  metaPropertyAddress : Z;
  rtype : string;
  sourceBlock : option NodeBlock;
  destinationBlock : option NodeBlock
}.

Definition with_source (r : RelationBlock) (n : NodeRelation) : RelationBlock :=
  mkRel (raddr r) n (destination r) (propertyAddress r) (metaPropertyAddress r) (rtype r)
    (sourceBlock r) (destinationBlock r).
Definition with_destination (r : RelationBlock) (n : NodeRelation) : RelationBlock :=
  mkRel (raddr r) (source r) n (propertyAddress r) (metaPropertyAddress r) (rtype r)
    (sourceBlock r) (destinationBlock r).
Definition with_propertyAddress (r : RelationBlock) (a : Z) : RelationBlock :=
  mkRel (raddr r) (source r) (destination r) a (metaPropertyAddress r) (rtype r)
    (sourceBlock r) (destinationBlock r).
Definition with_metaPropertyAddress (r : RelationBlock) (a : Z) : RelationBlock :=
  mkRel (raddr r) (source r) (destination r) (propertyAddress r) a (rtype r)
    (sourceBlock r) (destinationBlock r).
Definition setSource (r : RelationBlock) (n : NodeBlock) : RelationBlock :=
  mkRel (raddr r) (source r) (destination r) (propertyAddress r) (metaPropertyAddress r) (rtype r)
    (Some n) (destinationBlock r).
Definition setDestination (r : RelationBlock) (n : NodeBlock) : RelationBlock :=
  mkRel (raddr r) (source r) (destination r) (propertyAddress r) (metaPropertyAddress r) (rtype r)
    (sourceBlock r) (Some n).

Definition nr_with_next (n : NodeRelation) (a : Z) : NodeRelation :=
  mkNR (address n) a (nextPid n) (preRelationId n) (prePid n) (nr_nodeId n).
Definition nr_with_previous (n : NodeRelation) (a : Z) : NodeRelation :=
  mkNR (address n) (nextRelationId n) (nextPid n) a (prePid n) (nr_nodeId n).

(** The constructor from two vertices; its block pointers are the addresses
    of its by-value parameters and dangle as soon as it returns. *)
Definition newRelationBlock : RelationBlock :=
  mkRel 0 (at_address 0) (at_address 0) 0 0 DEFAULT_TYPE None None.

(** The constructors from stored fields load both end vertices. *)
Definition makeRelationBlock (a : Z) (src dst : NodeRelation) (prop metaProp : Z) (ty : string)
  : M store RelationBlock :=
  sb ← NodeBlock_get (address src);
  db ← NodeBlock_get (address dst);
  mret (mkRel (u32 a) src dst prop metaProp ty (Some sb) (Some db)).

(** What the code takes from the memory of the host: the 100 bytes that start
    at a [std::string] object ([write(&(this->type), MAX_TYPE_SIZE)]) and the
    100 bytes that start at its characters ([memcpy(type, data.c_str(),
    MAX_TYPE_SIZE)]).  Only their number, the characters up to the terminator
    and the presence of a zero byte are relied upon. *)
Class HostMemory := {
  object_image : string -> list ascii;
  cstr_image : string -> list ascii;
  object_image_length s : length (object_image s) = MAX_TYPE_SIZE;
  object_image_nul s : nul ∈ object_image s;
  cstr_image_length s : length (cstr_image s) = MAX_TYPE_SIZE;
  cstr_image_prefix s : take MAX_TYPE_SIZE (chars s ++ [nul]) `prefix_of` cstr_image s
}.

Section relations.
Context {HM : HostMemory}.

(** The records of a block in the order [add*Relation] writes them. *)
Definition relation_records (k : kind) (this : RelationBlock) (src dst : NodeBlock)
    (sd dd : NodeRelation) : list (list ascii) :=
  (enc32 <$> [nodeId src; nodeId dst; address sd; address dd;
     nextRelationId sd; nextPid sd; preRelationId sd; prePid sd;
     nextRelationId dd; nextPid dd; preRelationId dd; prePid dd; propertyAddress this]) ++
  (match k with Local => [] | Central => [enc32 (metaPropertyAddress this)] end) ++
  [object_image (rtype this)].

(** [RelationBlock::addLocalRelation] and [addCentralRelation]. *)
Definition addRelation (k : kind) (this : RelationBlock) (src dst : NodeBlock)
  : M store (option RelationBlock) :=
  let sourceData := at_address (addr src) in
  let destinationData := at_address (addr dst) in
  s ← get_state;
  let relationBlockAddress := nextRelationIndex k s * BLOCK_SIZE k in
  on_rel k (seek relationBlockAddress);;
  ok ← on_rel k (write_seq (relation_records k this src dst sourceData destinationData));
  if ok : bool then
    modify (fun s => set_next_relation k (u32 (nextRelationIndex k s + 1)) s);;
    r ← makeRelationBlock relationBlockAddress sourceData destinationData (propertyAddress this)
          (match k with Local => 0 | Central => metaPropertyAddress this end) (rtype this);
    mret (Some r)
  else mret None.

(** [RelationBlock::getLocalRelation] and [getCentralRelation]. *)
Definition relation_field_sizes (k : kind) : list nat :=
  replicate (Z.to_nat (NUMBER_OF_RELATION_RECORDS k)) 4%nat ++ [MAX_TYPE_SIZE].

Definition INVALID_ADDRESS : string :=
  "Exception: Invalid relation block address !!" ++ String "010" " received address = ".

Definition getRelation (k : kind) (a : Z) : M store (option RelationBlock) :=
  if a =? 0 then mret None
  else if negb (a mod BLOCK_SIZE k =? 0) then literal_offset INVALID_ADDRESS a;; mret None
  else
    on_rel k (seek a);;
    r ← on_rel k (read_seq (relation_field_sizes k));
    match r with
    | Some (si :: di :: sa :: da :: sn :: snp :: sp :: spp :: dn :: dnp :: dp :: dpp :: pr :: rest) =>
        let src := mkNR (dec32 sa) (dec32 sn) (dec32 snp) (dec32 sp) (dec32 spp) (dec32 si) in
        let dst := mkNR (dec32 da) (dec32 dn) (dec32 dnp) (dec32 dp) (dec32 dpp) (dec32 di) in
        let mp := match k, rest with Central, m :: _ => dec32 m | _, _ => 0 end in
        ty ← determinate (cstring (default [] (last rest)));
        rel ← makeRelationBlock a src dst (dec32 pr) mp ty;
        mret (Some rel)
    | _ => mret None
    end.

(** *** Walking and updating the relation lists *)

Definition nextSource (k : kind) (r : RelationBlock) := getRelation k (nextRelationId (source r)).
Definition previousSource (k : kind) (r : RelationBlock) := getRelation k (preRelationId (source r)).
Definition nextDestination (k : kind) (r : RelationBlock) :=
  getRelation k (nextRelationId (destination r)).
Definition previousDestination (k : kind) (r : RelationBlock) :=
  getRelation k (preRelationId (destination r)).

(** [updateLocalRelationRecords], [updateCentralRelationRecords]. *)
Definition updateRelationRecords (k : kind) (r : RelationBlock) (o : RelationOffsets) (data : Z)
  : M store bool :=
  on_rel k (seek (u32 (raddr r + RECORD_SIZE * offset_value o)));;
  on_rel k (write (enc32 data)).

Definition setNextSource (k : kind) (r : RelationBlock) (a : Z) : M store (bool * RelationBlock) :=
  ok ← updateRelationRecords k r SOURCE_NEXT a;
  mret (true, if ok : bool then with_source r (nr_with_next (source r) a) else r).
Definition setPreviousSource (k : kind) (r : RelationBlock) (a : Z)
  : M store (bool * RelationBlock) :=
  ok ← updateRelationRecords k r SOURCE_PREVIOUS a;
  mret (true, if ok : bool then with_source r (nr_with_previous (source r) a) else r).
Definition setNextDestination (k : kind) (r : RelationBlock) (a : Z)
  : M store (bool * RelationBlock) :=
  ok ← updateRelationRecords k r DESTINATION_NEXT a;
  mret (true, if ok : bool then with_destination r (nr_with_next (destination r) a) else r).
Definition setPreviousDestination (k : kind) (r : RelationBlock) (a : Z)
  : M store (bool * RelationBlock) :=
  ok ← updateRelationRecords k r DESTINATION_PREVIOUS a;
  mret (true, if ok : bool then with_destination r (nr_with_previous (destination r) a) else r).

(** *** Properties *)

Definition addRelationProperty (k : kind) (r : RelationBlock) (nm : string) (v : list ascii)
  : M store RelationBlock :=
  if propertyAddress r =? 0 then
    newLink ← on_edgeProps (@create PropertyEdgeLink nm v);
    match newLink with
    | Some l =>
        let r := with_propertyAddress r (blockAddress l) in
        updateRelationRecords k r RELATION_PROPS (propertyAddress r);;
        mret r
    | None => mret r
    end
  else
    a ← on_edgeProps (insert_head PropertyEdgeLink (propertyAddress r) nm v);
    mret (with_propertyAddress r a).

Definition addRelationMetaProperty (r : RelationBlock) (nm : string) (v : list ascii)
  : M store RelationBlock :=
  if metaPropertyAddress r =? 0 then
    newLink ← on_metaEdgeProps (@create MetaPropertyEdgeLink nm v);
    match newLink with
    | Some l =>
        let r := with_metaPropertyAddress r (blockAddress l) in
        updateRelationRecords Central r RELATION_PROPS_META (metaPropertyAddress r);;
        mret r
    | None => mret r
    end
  else
    a ← on_metaEdgeProps (insert_head MetaPropertyEdgeLink (metaPropertyAddress r) nm v);
    mret (with_metaPropertyAddress r a).

Definition RelationBlock_getAllProperties (r : RelationBlock) : M store (gmap string string) :=
  on_edgeProps (get_all PropertyEdgeLink (propertyAddress r)).

(** *** Relationship types *)

(** [updateLocalRelationshipType] seeks in the central file and writes to
    the local one. *)
Definition updateLocalRelationshipType (r : RelationBlock) (offset : Z) (data : string)
  : M store bool :=
  on_rel Central (seek (u32 (raddr r + RECORD_SIZE * offset)));;
  on_rel Local (write (cstr_image data)).

Definition updateCentralRelationshipType (r : RelationBlock) (offset : Z) (data : string)
  : M store bool :=
  on_rel Central (seek (u32 (raddr r + RECORD_SIZE * offset)));;
  on_rel Central (write (cstr_image data)).

Definition addLocalRelationshipType (r : RelationBlock) (v : string) : M store unit :=
  if bool_decide (rtype r = DEFAULT_TYPE)
  then updateLocalRelationshipType r (RELATIONSHIP_TYPE_OFFSET Local) v;; mret tt
  else mret tt.

Definition addCentralRelationshipType (r : RelationBlock) (v : string) : M store unit :=
  if bool_decide (rtype r = DEFAULT_TYPE)
  then updateCentralRelationshipType r (RELATIONSHIP_TYPE_OFFSET Central) v;; mret tt
  else mret tt.

(** [seekg] of a negative position fails the stream. *)
Definition seek_int (p : Z) : M fstream unit := fun s =>
  if p <? 0 then (Ret tt, FStream (fs_data s) (fs_pos s) true) else seek p s.

(** [int address = this->addr]: the address is converted to a signed int. *)
Definition getRelationshipType (k : kind) (r : RelationBlock) : M store string :=
  on_rel k (seek_int (s32 (raddr r) + RELATIONSHIP_TYPE_OFFSET k * RECORD_SIZE));;
  '(ok, buf) ← on_rel k (read MAX_TYPE_SIZE);
  if ok : bool then determinate (cstring buf) else mret EmptyString.

(** [getSource], [getDestination]: the loaded end vertices. *)
Definition getSource (r : RelationBlock) : option NodeBlock := sourceBlock r.
Definition getDestination (r : RelationBlock) : option NodeBlock := destinationBlock r.

(** *** The methods by the names of the class *)

Definition addLocalRelation := addRelation Local.
Definition getLocalRelation := getRelation Local.
Definition nextLocalSource := nextSource Local.
Definition previousLocalSource := previousSource Local.
Definition setLocalNextSource := setNextSource Local.
Definition setLocalPreviousSource := setPreviousSource Local.
Definition nextLocalDestination := nextDestination Local.
Definition previousLocalDestination := previousDestination Local.
Definition setLocalNextDestination := setNextDestination Local.
Definition setLocalPreviousDestination := setPreviousDestination Local.
Definition updateLocalRelationRecords := updateRelationRecords Local.
Definition addLocalProperty := addRelationProperty Local.
Definition getLocalRelationshipType := getRelationshipType Local.
Definition addCentralRelation := addRelation Central.
Definition getCentralRelation := getRelation Central.
Definition nextCentralSource := nextSource Central.
Definition previousCentralSource := previousSource Central.
Definition setCentralNextSource := setNextSource Central.
Definition setCentralPreviousSource := setPreviousSource Central.
Definition nextCentralDestination := nextDestination Central.
Definition previousCentralDestination := previousDestination Central.
Definition setCentralNextDestination := setNextDestination Central.
Definition setCentralPreviousDestination := setPreviousDestination Central.
Definition updateCentralRelationRecords := updateRelationRecords Central.
Definition addCentralProperty := addRelationProperty Central.
Definition getCentralRelationshipType := getRelationshipType Central.
End relations.
