(* ===== verification/NodeRelations.v ===== *)
(** * NodeRelations: the relation lists of a vertex

    The methods of [NodeBlock] (src/nativestore/NodeBlock.cpp) that walk and
    extend the doubly linked list of edges of a vertex.  An edge block is in
    two lists at once, that of its source and that of its destination; which
    of its two next pointers continues a walk depends on the end the walking
    vertex is at.  A loop takes the number of bytes of the file as fuel,
    which an acyclic list never exhausts. *)
From Stdlib Require Import ZArith Ascii String Lia.
From stdpp Require Import base tactics numbers list strings gmap.
From S2P Require Import Prelude FStream PropertyLinks NodeBlock RelationBlock.

Section lists.
Context {HM : HostMemory}.

Definition rel_fuel (k : kind) (s : store) : nat := S (length (fs_data (rel_file k s))).

Definition edge_ref (k : kind) (n : NodeBlock) : Z :=
  match k with Local => edgeRef n | Central => centralEdgeRef n end.

(** [getLocalRelationHead], [getCentralRelationHead]. *)
Definition getRelationHead (k : kind) (n : NodeBlock) : M store (option RelationBlock) :=
  if edge_ref k n =? 0 then mret None else getRelation k (edge_ref k n).

Definition setRelationHead (k : kind) (n : NodeBlock) (a : Z) : M store (bool * NodeBlock) :=
  match k with Local => setLocalRelationHead n a | Central => setCentralRelationHead n a end.

(** The loop of [update*Relation] without head relocation: walk to the last
    edge.  An edge block of neither end is not skipped. *)
Fixpoint append_loop (fuel : nat) (k : kind) (n : NodeBlock) (cur : option RelationBlock)
    (edgeReferenceAddress : Z) : M store bool :=
  match cur with
  | None => mret false
  | Some r =>
      match fuel with
      | O => out_of_fuel
      | S fuel' =>
          if address (source r) =? addr n then
            if nextRelationId (source r) =? 0
            then res ← setNextSource k r edgeReferenceAddress; mret res.1
            else nx ← nextSource k r; append_loop fuel' k n nx edgeReferenceAddress
          else if negb isDirected && (address (destination r) =? addr n) then
            if nextRelationId (destination r) =? 0
            then res ← setNextDestination k r edgeReferenceAddress; mret res.1
            else nx ← nextDestination k r; append_loop fuel' k n nx edgeReferenceAddress
          else append_loop fuel' k n (Some r) edgeReferenceAddress
      end
  end.

(** The previous pointer of the old head, on the side of the vertex. *)
Definition link_previous (k : kind) (n : NodeBlock) (head : RelationBlock) (a : Z) : M store unit :=
  if addr n =? address (source head) then setPreviousSource k head a;; mret tt
  else if addr n =? address (destination head) then setPreviousDestination k head a;; mret tt
  else mret tt.

(** The next pointer of the new edge, on the side of the vertex. *)
Definition link_next (k : kind) (n : NodeBlock) (new : RelationBlock) (a : Z)
  : M store RelationBlock :=
  if addr n =? address (source new) then res ← setNextSource k new a; mret res.2
  else if addr n =? address (destination new) then res ← setNextDestination k new a; mret res.2
  else mret new.

(** [updateLocalRelation], [updateCentralRelation]: the result, the vertex
    object and the new edge object. *)
Definition updateRelation (k : kind) (n : NodeBlock) (new : RelationBlock) (relocateHead : bool)
  : M store (bool * NodeBlock * RelationBlock) :=
  currentHead ← getRelationHead k n;
  if relocateHead then
    new ← match currentHead with
          | Some head => link_previous k n head (raddr new);; link_next k n new (raddr head)
          | None => mret new
          end;
    res ← setRelationHead k n (raddr new);
    mret (res, new)
  else
    match currentHead with
    | None => res ← setRelationHead k n (raddr new); mret (res, new)
    | Some head =>
        s ← get_state;
        ok ← append_loop (rel_fuel k s) k n (Some head) (raddr new);
        mret (ok, n, new)
    end.

(** [searchLocalRelation], [searchCentralRelation]. *)
Fixpoint search_loop (fuel : nat) (k : kind) (n : NodeBlock) (cur : option RelationBlock)
    (withAddr : Z) : M store (option RelationBlock) :=
  match cur with
  | None => mret None
  | Some r =>
      match fuel with
      | O => out_of_fuel
      | S fuel' =>
          if address (source r) =? addr n then
            if address (destination r) =? withAddr then mret (Some r)
            else nx ← nextSource k r; search_loop fuel' k n nx withAddr
          else if negb isDirected && (address (destination r) =? addr n) then
            if address (source r) =? withAddr then mret (Some r)
            else nx ← nextDestination k r; search_loop fuel' k n nx withAddr
          else search_loop fuel' k n (Some r) withAddr
      end
  end.

Definition searchKindRelation (k : kind) (n withNode : NodeBlock)
  : M store (option RelationBlock) :=
  head ← getRelationHead k n;
  s ← get_state;
  search_loop (rel_fuel k s) k n head (addr withNode).

(** [NodeBlock::searchRelation]. *)
Definition searchRelation (n withNode : NodeBlock) : M store bool :=
  found_local ← searchKindRelation Local n withNode;
  found_central ← searchKindRelation Central n withNode;
  mret (bool_decide (is_Some found_local) || bool_decide (is_Some found_central)).

(** [getLocalEdgeNodes], [getCentralEdgeNodes]: an edge of neither end stops. *)
Fixpoint edge_nodes_loop (fuel : nat) (k : kind) (n : NodeBlock) (cur : option RelationBlock)
  : M store (list (NodeBlock * RelationBlock)) :=
  match cur with
  | None => mret []
  | Some r =>
      match fuel with
      | O => out_of_fuel
      | S fuel' =>
          if address (source r) =? addr n then
            node ← NodeBlock_get (address (destination r));
            nx ← nextSource k r;
            rest ← edge_nodes_loop fuel' k n nx;
            mret ((node, r) :: rest)
          else if address (destination r) =? addr n then
            node ← NodeBlock_get (address (source r));
            nx ← nextDestination k r;
            rest ← edge_nodes_loop fuel' k n nx;
            mret ((node, r) :: rest)
          else mret []
      end
  end.

Definition getEdgeNodes (k : kind) (n : NodeBlock) : M store (list (NodeBlock * RelationBlock)) :=
  head ← getRelationHead k n;
  s ← get_state;
  edge_nodes_loop (rel_fuel k s) k n head.

(** [NodeBlock::getAllEdgeNodes]. *)
Definition getAllEdgeNodes (n : NodeBlock) : M store (list (NodeBlock * RelationBlock)) :=
  localEdges ← getEdgeNodes Local n;
  centralEdges ← getEdgeNodes Central n;
  mret (localEdges ++ centralEdges).

(** *** The methods by the names of the class *)

Definition getLocalRelationHead := getRelationHead Local.
Definition updateLocalRelation := updateRelation Local.
Definition searchLocalRelation := searchKindRelation Local.
Definition getLocalEdgeNodes := getEdgeNodes Local.
Definition getCentralRelationHead := getRelationHead Central.
Definition updateCentralRelation := updateRelation Central.
Definition searchCentralRelation := searchKindRelation Central.
Definition getCentralEdgeNodes := getEdgeNodes Central.
End lists.
