(* ===== verification/NodeManager.v ===== *)
(** * NodeManager: the vertex and edge store of one partition

    [NodeManager] (src/nativestore/NodeManager.{h,cpp}) owns the database
    files of a partition and the index from vertex ids to node blocks.
    Iterations over its [unordered_map]s visit the entries in an unspecified
    order; the operations that iterate take that order as an argument. *)
From Stdlib Require Import ZArith Ascii String Lia.
From stdpp Require Import base tactics numbers list strings gmap.
From S2P Require Import Prelude FStream PropertyLinks NodeBlock RelationBlock NodeRelations.

(** The index files are opened per operation; the model keeps their bytes.
    [lockEdgeAdd] is one mutex of the process, which all managers of a worker
    share; the model has one manager, and keeps the mutex with it. *)
Record manager := Manager {
  dbs : store;
  graphID : Z;
  partitionID : Z;
  INDEX_KEY_SIZE : nat;
  indexDB : list ascii;
  edgeIndexDB : list ascii;
  nextEdgeIndex : Z;
  nextNodeIndex : Z;
  nodeIndex : gmap string Z;
  edgeIndex : gmap string Z;
  lockEdgeAdd : bool
}.

Definition set_dbs (d : store) (m : manager) : manager :=
  Manager d (graphID m) (partitionID m) (INDEX_KEY_SIZE m) (indexDB m) (edgeIndexDB m)
    (nextEdgeIndex m) (nextNodeIndex m) (nodeIndex m) (edgeIndex m) (lockEdgeAdd m).
Definition set_lock (b : bool) (m : manager) : manager :=
  Manager (dbs m) (graphID m) (partitionID m) (INDEX_KEY_SIZE m) (indexDB m) (edgeIndexDB m)
    (nextEdgeIndex m) (nextNodeIndex m) (nodeIndex m) (edgeIndex m) b.
Definition set_nextNodeIndex (n : Z) (m : manager) : manager :=
  Manager (dbs m) (graphID m) (partitionID m) (INDEX_KEY_SIZE m) (indexDB m) (edgeIndexDB m)
    (nextEdgeIndex m) n (nodeIndex m) (edgeIndex m) (lockEdgeAdd m).
Definition set_nextEdgeIndex (n : Z) (m : manager) : manager :=
  Manager (dbs m) (graphID m) (partitionID m) (INDEX_KEY_SIZE m) (indexDB m) (edgeIndexDB m)
    n (nextNodeIndex m) (nodeIndex m) (edgeIndex m) (lockEdgeAdd m).
Definition set_nodeIndex (i : gmap string Z) (m : manager) : manager :=
  Manager (dbs m) (graphID m) (partitionID m) (INDEX_KEY_SIZE m) (indexDB m) (edgeIndexDB m)
    (nextEdgeIndex m) (nextNodeIndex m) i (edgeIndex m) (lockEdgeAdd m).
Definition set_indexDB (d : list ascii) (m : manager) : manager :=
  Manager (dbs m) (graphID m) (partitionID m) (INDEX_KEY_SIZE m) d (edgeIndexDB m)
    (nextEdgeIndex m) (nextNodeIndex m) (nodeIndex m) (edgeIndex m) (lockEdgeAdd m).
Definition set_edgeIndexDB (d : list ascii) (m : manager) : manager :=
  Manager (dbs m) (graphID m) (partitionID m) (INDEX_KEY_SIZE m) (indexDB m) d
    (nextEdgeIndex m) (nextNodeIndex m) (nodeIndex m) (edgeIndex m) (lockEdgeAdd m).

Definition on_store {A} : M store A -> M manager A := zoom dbs set_dbs.

(** [setIndexKeySize]. *)
Definition setIndexKeySize (n : nat) (m : manager) : manager :=
  Manager (dbs m) (graphID m) (partitionID m) n (indexDB m) (edgeIndexDB m)
    (nextEdgeIndex m) (nextNodeIndex m) (nodeIndex m) (edgeIndex m) (lockEdgeAdd m).

Definition acquireEdgeAdd : M manager unit := fun m =>
  if lockEdgeAdd m then (Deadlock, m) else (Ret tt, set_lock true m).
Definition releaseEdgeAdd : M manager unit := modify (set_lock false).

(** One record of an index file: the key, NUL padded, and the index. *)
Definition index_record (key : list ascii) (v : Z) : list ascii := key ++ enc32 v.

(** [NodeManager::addNodeIndex]. *)
Definition addNodeIndex (nid : string) (index : Z) : M manager unit :=
  modify (fun m => match nodeIndex m !! nid with
                   | Some _ => m
                   | None => set_nodeIndex (<[nid := nextNodeIndex m]> (nodeIndex m)) m
                   end);;
  m ← get_state;
  nodeIDC ← determinate (strcpy_buf (INDEX_KEY_SIZE m) nid);
  modify (fun m => set_indexDB (indexDB m ++ index_record nodeIDC index) m).

(** [NodeManager::get(unsigned int, const std::string&)]. *)
Definition getByIndex (index : Z) (nid : string) : M store NodeBlock :=
  let blockAddress := u32 (index * NODE_BLOCK_SIZE) in
  on_nodes (seek blockAddress);;
  r ← on_nodes (read_seq NODE_FIELD_SIZES);
  match r with
  | Some [u; vid; e; c; pid; pr; mp; l] =>
      determinate (cstring l);;
      mret (makeNodeBlock nid (dec32 vid) blockAddress (dec32 pr) (dec32 mp) (dec32 e) (dec32 c)
              (default nul (head pid)) l (bool_decide (u = [flag true])))
  | _ => undef
  end.

(** [NodeManager::get(std::string)]. *)
Definition getNode (nid : string) : M manager (option NodeBlock) :=
  m ← get_state;
  match nodeIndex m !! nid with
  | None => mret None
  | Some index => n ← on_store (getByIndex index nid); mret (Some n)
  end.

(** [NodeManager::addNode]. *)
Definition addNode (nid : string) : M manager NodeBlock :=
  m ← get_state;
  match nodeIndex m !! nid with
  | None =>
      v ← stoul_exn nid;
      m ← get_state;
      let sourceBlk := newNodeBlock nid (u32 v) (u32 (nextNodeIndex m * NODE_BLOCK_SIZE)) in
      addNodeIndex nid (nextNodeIndex m);;
      modify (fun m => set_nextNodeIndex (u32 (nextNodeIndex m + 1)) m);;
      on_store (save (setLabel sourceBlk (chars nid)))
  | Some _ => o ← getNode nid; determinate o
  end.

Section manager.
Context {HM : HostMemory}.

(** [NodeManager::addLocalRelation], [addCentralRelation]: the vertices are
    passed by value. *)
Definition addKindRelation (k : kind) (src dst : NodeBlock) : M manager (option RelationBlock) :=
  newRelation ← on_store (addRelation k newRelationBlock src dst);
  match newRelation with
  | Some r =>
      '(_, r) ← on_store (updateRelation k src r true);
      '(_, r) ← on_store (updateRelation k dst r true);
      (match k with
       | Local => getNode (to_string (nodeId src));; getNode (to_string (nodeId dst));; mret tt
       | Central => mret tt
       end);;
      mret (Some r)
  | None => mret None
  end.

Definition manager_addLocalRelation := addKindRelation Local.
Definition manager_addCentralRelation := addKindRelation Central.

(** [NodeManager::addLocalEdge]; an exception leaves [lockEdgeAdd] locked. *)
Definition addLocalEdge (edge : string * string) : M manager (option RelationBlock) :=
  acquireEdgeAdd;;
  sourceNode ← addNode edge.1;
  destNode ← addNode edge.2;
  newRelation ← addKindRelation Local sourceNode destNode;
  res ← match newRelation with
        | Some r =>
            modify (fun m => set_nextEdgeIndex (u64 (nextEdgeIndex m + 1)) m);;
            mret (Some (setSource (setDestination r destNode) sourceNode))
        | None => mret None
        end;
  releaseEdgeAdd;;
  mret res.

(** [NodeManager::addCentralEdge]. *)
Definition addCentralEdge (edge : string * string) : M manager (option RelationBlock) :=
  acquireEdgeAdd;;
  sourceNode ← addNode edge.1;
  destNode ← addNode edge.2;
  newRelation ← addKindRelation Central sourceNode destNode;
  releaseEdgeAdd;;
  mret ((fun r => setSource (setDestination r destNode) sourceNode) <$> newRelation).
End manager.

(** ** Index files *)

(** [NodeManager::persistNodeIndex]: too long keys are skipped. *)
Definition node_index_file (keysz : nat) (entries : list (string * Z)) : list ascii :=
  concat ((fun e => if decide (keysz <= length (chars e.1))%nat then []
                    else index_record (resize keysz nul (chars e.1)) e.2) <$> entries).

Definition persistNodeIndex (entries : list (string * Z)) : M manager unit :=
  modify (fun m => set_indexDB (node_index_file (INDEX_KEY_SIZE m) entries) m).

(** [NodeManager::persistEdgeIndex]: [strcpy] into the key buffer. *)
Fixpoint edge_index_file (keysz : nat) (entries : list (string * Z)) : option (list ascii) :=
  match entries with
  | [] => Some []
  | e :: entries' =>
      key ← strcpy_buf keysz e.1;
      rest ← edge_index_file keysz entries';
      Some (index_record key e.2 ++ rest)
  end.

Definition persistEdgeIndex (entries : list (string * Z)) : M manager unit :=
  m ← get_state;
  d ← determinate (edge_index_file (INDEX_KEY_SIZE m) entries);
  modify (set_edgeIndexDB d).

(** [dbSize] returns the size as an [int]. *)
Definition dbSize (d : list ascii) : Z := s32 (Z.of_nat (length d)).

(** [iSize / dataWidth] is computed in [unsigned long]. *)
Definition record_count (keysz : nat) (d : list ascii) : Z :=
  (dbSize d mod 18446744073709551616) / (Z.of_nat keysz + 4).

(** The loop of [readNodeIndex]: a later record of the same key wins. *)
Fixpoint index_loop (n : nat) (keysz : nat) (acc : gmap string Z) : M fstream (gmap string Z) :=
  match n with
  | O => mret acc
  | S n' =>
      r ← read_seq [keysz; 4%nat];
      match r with
      | Some [key; v] =>
          k ← determinate (cstring key);
          index_loop n' keysz (<[k := dec32 v]> acc)
      | _ => undef
      end
  end.

(** [readNodeIndex]: the index and the next node index. *)
Definition readNodeIndex (keysz : nat) (d : list ascii) : outcome (gmap string Z) * Z :=
  ((index_loop (Z.to_nat (record_count keysz d)) keysz ∅ (FStream d 0 false)).1,
   u32 (record_count keysz d)).

(** [readEdgeIndex]: the loop stops at a short read. *)
Fixpoint edge_index_loop (n : nat) (keysz : nat) (acc : gmap string Z)
  : M fstream (gmap string Z) :=
  match n with
  | O => mret acc
  | S n' =>
      r ← read_seq [keysz; 4%nat];
      match r with
      | Some [key; v] =>
          k ← determinate (cstring key);
          edge_index_loop n' keysz (<[k := dec32 v]> acc)
      | _ => mret acc
      end
  end.

Definition readEdgeIndex (keysz : nat) (d : list ascii) : outcome (gmap string Z) * Z :=
  ((edge_index_loop (Z.to_nat (record_count keysz d)) keysz ∅ (FStream d 0 false)).1,
   record_count keysz d).

(** ** Opening and closing a partition *)

Record GraphConfig := mkConfig {
  maxLabelSize : nat;
  cfg_graphID : Z;
  cfg_partitionID : Z;
  openMode : string
}.

Definition FILE_MODE : string := "app".

(** The files of a partition. *)
Record disk := Disk {
  d_nodes : list ascii;
  d_index : list ascii;
  d_edgeIndex : list ascii;
  d_properties : list ascii;
  d_metaProperties : list ascii;
  d_edgeProperties : list ascii;
  d_metaEdgeProperties : list ascii;
  d_relations : list ascii;
  d_centralRelations : list ascii
}.

(** [size / BLOCK == 0 ? 1 : size / BLOCK], stored in an [unsigned int]. *)
Definition next_block_index (d : list ascii) (block : Z) : Z :=
  let n := Z.of_nat (length d) / block in if n =? 0 then 1 else u32 n.

Definition open_links (C : LinkClass) (d : list ascii) : linkdb :=
  LinkDB (FStream d 0 false) (next_block_index d (Z.of_nat (@PROPERTY_BLOCK_SIZE C))) false false.

(** The constructor [NodeManager(GraphConfig)] in a fresh process: in file
    mode the indexes are read and the databases kept, otherwise the databases
    are truncated.  The two index files are never truncated. *)
Definition openNodeManager (c : GraphConfig) (d : disk) : outcome manager :=
  let keysz := if decide (maxLabelSize c = 0%nat) then 6%nat else maxLabelSize c in
  let app := bool_decide (openMode c = FILE_MODE) in
  let kept (f : disk -> list ascii) := if app then f d else [] in
  let st := Store (FStream (kept d_nodes) 0 false)
    (open_links PropertyLink (kept d_properties))
    (open_links MetaPropertyLink (kept d_metaProperties))
    (open_links PropertyEdgeLink (kept d_edgeProperties))
    (open_links MetaPropertyEdgeLink (kept d_metaEdgeProperties))
    (FStream (kept d_relations) 0 false) (FStream (kept d_centralRelations) 0 false)
    (next_block_index (kept d_relations) (BLOCK_SIZE Local))
    (next_block_index (kept d_centralRelations) (BLOCK_SIZE Central)) in
  if app then
    match readNodeIndex keysz (d_index d), readEdgeIndex keysz (d_edgeIndex d) with
    | (Ret ni, nn), (Ret ei, ne) =>
        Ret (Manager st (cfg_graphID c) (cfg_partitionID c) keysz (d_index d) (d_edgeIndex d)
               ne nn ni ei false)
    | _, _ => Undef
    end
  else Ret (Manager st (cfg_graphID c) (cfg_partitionID c) keysz (d_index d) (d_edgeIndex d)
              0 0 ∅ ∅ false).

(** The bytes a manager has written to its files.  The buffers of the streams
    are not modelled: [close] flushes the nodes, the relations and the
    properties of nodes; without it, what an operation wrote after its last
    flush (as [MetaPropertyLink::insert] does) may not be in the file. *)
Definition disk_of (m : manager) : disk :=
  Disk (fs_data (nodesDB (dbs m))) (indexDB m) (edgeIndexDB m)
    (fs_data (ldb (propertiesDB (dbs m)))) (fs_data (ldb (metaPropertiesDB (dbs m))))
    (fs_data (ldb (edgePropertiesDB (dbs m)))) (fs_data (ldb (metaEdgePropertiesDB (dbs m))))
    (fs_data (relationsDB (dbs m))) (fs_data (centralRelationsDB (dbs m))).

(** [NodeManager::close]. *)
Definition closeNodeManager (nodeOrder edgeOrder : list (string * Z)) : M manager unit :=
  persistNodeIndex nodeOrder;; persistEdgeIndex edgeOrder.

(** ** Traversals of the whole partition *)

(** A loop over the ids of the index. *)
Fixpoint for_ids {A} (ids : list string) (f : string -> M manager A) : M manager (list A) :=
  match ids with
  | [] => mret []
  | i :: ids' => a ← f i; rest ← for_ids ids' f; mret (a :: rest)
  end.

Definition load (nid : string) : M manager NodeBlock := o ← getNode nid; determinate o.

(** [getLimitedGraph(limit)] and [getGraph]. *)
Definition getLimitedGraph (limit : Z) (ids : list string) : M manager (list NodeBlock) :=
  for_ids (take (Z.to_nat limit) ids) load.
Definition getGraph (ids : list string) : M manager (list NodeBlock) := for_ids ids load.

Section traversals.
Context {HM : HostMemory}.

Definition getCentralGraph (ids : list string) : M manager (list NodeBlock) :=
  l ← for_ids ids (fun i =>
        n ← load i;
        h ← on_store (getRelationHead Central n);
        mret (n, bool_decide (is_Some h)));
  mret (fst <$> filter (fun p => p.2 = true) l).

(** [getAdjacencyList()]: [emplace] keeps the first entry of a vertex id. *)
Definition getAdjacencyList (ids : list string) : M manager (gmap Z (gset Z)) :=
  l ← for_ids ids (fun i =>
        n ← load i;
        ns ← on_store (getAllEdgeNodes n);
        mret (nodeId n, list_to_set (C := gset Z) ((fun p => nodeId p.1) <$> ns)));
  mret (foldl (fun acc p => match acc !! p.1 with Some _ => acc | None => <[p.1 := p.2]> acc end)
          ∅ l).

Definition getDistributionMap (ids : list string) : M manager (gmap Z Z) :=
  adjacencyList ← getAdjacencyList ids;
  mret ((fun ns : gset Z => Z.of_nat (size ns)) <$> adjacencyList).

(** [getAdjacencyList(bool isLocal)]: the relation blocks in file order. *)
Fixpoint scan_relations (k : kind) (n : nat) (i : Z) (acc : gmap Z (gset Z))
  : M store (gmap Z (gset Z)) :=
  match n with
  | O => mret acc
  | S n' =>
      r ← getRelation k (i * BLOCK_SIZE k);
      r ← determinate r;
      sn ← determinate (getSource r);
      src ← stol_exn (id sn);
      dn ← determinate (getDestination r);
      dest ← stol_exn (id dn);
      scan_relations k n' (i + 1) (<[src := {[dest]} ∪ default ∅ (acc !! src)]> acc)
  end.

Definition getKindAdjacencyList (isLocal : bool) : M manager (gmap Z (gset Z)) :=
  let k := if isLocal then Local else Central in
  m ← get_state;
  let newRelationCount := dbSize (fs_data (rel_file k (dbs m))) / BLOCK_SIZE k - 1 in
  on_store (scan_relations k (Z.to_nat newRelationCount) 1 ∅).
End traversals.

(** The manager of a new partition: no file, truncating mode. *)
Definition empty_disk : disk := Disk [] [] [] [] [] [] [] [] [].
