(* ===== verification/GraphFiles.v ===== *)
(** * GraphFiles: the node and relation files as lists of blocks

    The representation level between bytes and graphs: the nodes file is a
    list of 140-byte blocks, a relation file a list of 152- or 156-byte blocks
    whose block 0 is a hole.  For every operation of NodeBlock, RelationBlock
    and NodeRelations on these files there is a lemma that runs it and says
    what it does to the blocks. *)
From Stdlib Require Import ZArith Ascii String Lia.
From stdpp Require Import base tactics numbers list strings gmap.
From S2P Require Import Prelude FStream PropertyLinks NodeBlock RelationBlock NodeRelations.

Implicit Types (b : list ascii) (k : kind).

(** ** Pieces of a block *)

Lemma pieces_block sz d bs i b off l :
  block_file sz d bs -> bs !! i = Some b -> (off + total l <= sz)%nat ->
  pieces d (i * sz + off) l = pieces b off l.
Proof.
  intros Hd Hi. revert off. induction l as [|n l IH]; intros off Hoff; [done|]. simpl in *.
  rewrite (read_block sz d bs i b) by (done || lia).
  rewrite <- Nat.add_assoc, IH by lia. done.
Qed.

(** ** Fields of a node block *)

Definition nf32 (off : nat) b : Z := dec32 (read_data b off 4).
Definition nf_id b := nf32 1 b.
Definition nf_label b := read_data b 22 118.
Definition head_off k : nat := match k with Local => 5%nat | Central => 9%nat end.
Definition node_head k b : Z := nf32 (head_off k) b.
Definition set_head k b (a : Z) := write_data b (head_off k) (enc32 a).

(** The object [NodeBlock::get] builds from a block with a label. *)
Definition node_with (nid : string) (a : Z) b : NodeBlock :=
  makeNodeBlock nid (nf_id b) a (nf32 14 b) (nf32 18 b) (nf32 5 b) (nf32 9 b)
    (default nul (head (read_data b 13 1))) (nf_label b)
    (bool_decide (read_data b 0 1 = [flag true])).
Definition node_at (a : Z) b : NodeBlock := node_with (to_string (nf_id b)) a b.

Definition node_wf b : Prop :=
  length b = 140%nat /\ nul ∈ nf_label b /\ until_nul (nf_label b) <> [] /\
  nf32 5 b mod RELATION_BLOCK_SIZE = 0.

Lemma addr_node_with nid a b : addr (node_with nid a b) = a.
Proof. done. Qed.

Lemma edge_ref_node_with k nid a b : edge_ref k (node_with nid a b) = node_head k b.
Proof. by destruct k. Qed.

Lemma nf32_set_head k b a off :
  length b = 140%nat -> (off + 4 <= head_off k \/ head_off k + 4 <= off)%nat ->
  nf32 off (set_head k b a) = nf32 off b.
Proof.
  intros Hb [H|H]; unfold nf32, set_head; f_equal.
  - apply read_write_before; [lia|]. destruct k; simpl; lia.
  - apply read_write_after; [simpl; lia|]. destruct k; simpl; lia.
Qed.

Lemma node_head_set_head k b a : is_u32 a -> node_head k (set_head k b a) = a.
Proof.
  intros. unfold node_head, nf32, set_head. change 4%nat with (length (enc32 a)).
  rewrite read_write_same. by apply dec32_enc32.
Qed.

Lemma node_head_set_other k k' b a :
  length b = 140%nat -> k <> k' -> node_head k' (set_head k b a) = node_head k' b.
Proof. intros Hb Hk. apply nf32_set_head; [done|]. destruct k, k'; simpl; (done || lia). Qed.

Lemma length_set_head k b a : length b = 140%nat -> length (set_head k b a) = 140%nat.
Proof. intros Hb. unfold set_head. rewrite length_write_data_le; [done|]. destruct k; simpl; lia. Qed.

Lemma nf_id_set_head k b a : length b = 140%nat -> nf_id (set_head k b a) = nf_id b.
Proof. intros. apply nf32_set_head; [done|]. destruct k; simpl; lia. Qed.

Lemma nf_label_set_head k b a : length b = 140%nat -> nf_label (set_head k b a) = nf_label b.
Proof.
  intros. unfold nf_label, set_head. apply read_write_after; destruct k; simpl; lia.
Qed.

Lemma node_wf_set_head k b a :
  node_wf b -> is_u32 a -> a mod BLOCK_SIZE k = 0 -> node_wf (set_head k b a).
Proof.
  intros (Hb & H1 & H2 & H3) Ha Hm. split_and!.
  - by apply length_set_head.
  - by rewrite nf_label_set_head.
  - by rewrite nf_label_set_head.
  - destruct k.
    + change (nf32 5 (set_head Local b a)) with (node_head Local (set_head Local b a)).
      by rewrite node_head_set_head.
    + rewrite nf32_set_head by (done || (simpl; lia)). done.
Qed.

(** ** Fields of a relation block *)

Definition rf (r : nat) b : Z := dec32 (read_data b (4 * r) 4).
Definition set_rf (r : nat) b (v : Z) := write_data b (4 * r) (enc32 v).
Definition records k : nat := Z.to_nat (NUMBER_OF_RELATION_RECORDS k).
Definition rsize k : nat := Z.to_nat (BLOCK_SIZE k).
Definition rf_type k b := read_data b (4 * records k) MAX_TYPE_SIZE.

Lemma rsize_eq k : rsize k = (4 * records k + 100)%nat.
Proof. by destruct k. Qed.
Lemma BLOCK_SIZE_rsize k : BLOCK_SIZE k = Z.of_nat (rsize k).
Proof. by destruct k. Qed.
Lemma records_bounds k : (13 <= records k <= 14)%nat.
Proof. destruct k; compute; lia. Qed.

Lemma length_set_rf k r b v :
  length b = rsize k -> (r < records k)%nat -> length (set_rf r b v) = rsize k.
Proof.
  intros Hb Hr. unfold set_rf. rewrite length_write_data_le; [done|].
  pose proof (rsize_eq k). rewrite length_enc32. lia.
Qed.

Lemma rf_set_same r b v : is_u32 v -> rf r (set_rf r b v) = v.
Proof.
  intros. unfold rf, set_rf. change 4%nat with (length (enc32 v)) at 2.
  rewrite read_write_same. by apply dec32_enc32.
Qed.

Lemma rf_set_other k r r' b v :
  length b = rsize k -> (r < records k)%nat -> r <> r' -> rf r' (set_rf r b v) = rf r' b.
Proof.
  intros Hb Hr Hne. unfold rf, set_rf. f_equal. pose proof (rsize_eq k).
  destruct (decide (r < r')%nat).
  - apply read_write_after; [rewrite length_enc32; lia|lia].
  - apply read_write_before; lia.
Qed.

Lemma rf_type_set k r b v :
  length b = rsize k -> (r < records k)%nat -> rf_type k (set_rf r b v) = rf_type k b.
Proof.
  intros Hb Hr. unfold rf_type, set_rf. pose proof (rsize_eq k).
  apply read_write_after; [rewrite length_enc32; lia|lia].
Qed.

(** The object [getRelation] builds from block [i], given the node blocks. *)
Definition side_of (b : list ascii) (ida sa sn snp sp spp : nat) : NodeRelation :=
  mkNR (rf sa b) (rf sn b) (rf snp b) (rf sp b) (rf spp b) (rf ida b).
Definition src_of b := side_of b 0 2 4 5 6 7.
Definition dst_of b := side_of b 1 3 8 9 10 11.

Definition raddress k (i : nat) : Z := Z.of_nat i * BLOCK_SIZE k.
Definition naddress (x : nat) : Z := Z.of_nat x * NODE_BLOCK_SIZE.

Definition node_lookup (nbs : list (list ascii)) (x : nat) : NodeBlock :=
  node_at (naddress x) (default [] (nbs !! x)).

Lemma naddress_inj x y : naddress x = naddress y -> x = y.
Proof. unfold naddress, NODE_BLOCK_SIZE. lia. Qed.
Lemma BLOCK_SIZE_pos k : 100 < BLOCK_SIZE k.
Proof. by destruct k. Qed.
Lemma raddress_inj k i j : raddress k i = raddress k j -> i = j.
Proof. unfold raddress. pose proof (BLOCK_SIZE_pos k). nia. Qed.
Lemma raddress_pos k i : (0 < i)%nat -> 0 < raddress k i.
Proof. unfold raddress. pose proof (BLOCK_SIZE_pos k). nia. Qed.
Lemma raddress_mod k i : raddress k i mod BLOCK_SIZE k = 0.
Proof. apply Z_mod_mult. Qed.

(** ** The files *)

Definition set_rel_file k (f : fstream) (s : store) : store :=
  match k with Local => set_relationsDB f s | Central => set_centralRelationsDB f s end.

Definition good (sz : nat) (f : fstream) (bs : list (list ascii)) : Prop :=
  fs_fail f = false /\ block_file sz (fs_data f) bs.

(** The files of [s] hold the node blocks [nbs] and the relation blocks
    [rbs k], and the counters point behind the last relation block. *)
Definition files (s : store) (nbs : list (list ascii)) (rbs : kind -> list (list ascii)) : Prop :=
  good 140 (nodesDB s) nbs /\
  forall k, good (rsize k) (rel_file k s) (rbs k) /\
    ((rbs k = [] /\ nextRelationIndex k s = 1) \/
     ((2 <= length (rbs k))%nat /\ nextRelationIndex k s = Z.of_nat (length (rbs k)))).

(** The property databases are not touched. *)
Definition same_links (s s' : store) : Prop :=
  propertiesDB s' = propertiesDB s /\ metaPropertiesDB s' = metaPropertiesDB s /\
  edgePropertiesDB s' = edgePropertiesDB s /\ metaEdgePropertiesDB s' = metaEdgePropertiesDB s.

#[export] Instance same_links_refl : Reflexive same_links.
Proof. by intros s. Qed.
#[export] Instance same_links_trans : Transitive same_links.
Proof. intros s1 s2 s3 (?&?&?&?) (?&?&?&?). repeat split; congruence. Qed.

Definition upd_rel k (bs : list (list ascii)) (rbs : kind -> list (list ascii)) : kind -> list (list ascii) :=
  fun k' => if decide (k = k') then bs else rbs k'.

Lemma upd_rel_eq k bs rbs : upd_rel k bs rbs k = bs.
Proof. unfold upd_rel. by rewrite decide_True. Qed.
Lemma upd_rel_ne k k' bs rbs : k <> k' -> upd_rel k bs rbs k' = rbs k'.
Proof. intros. unfold upd_rel. by rewrite decide_False. Qed.

(** The relation blocks matter only kind by kind. *)
#[export] Instance files_proper :
  Proper ((=) ==> (=) ==> pointwise_relation kind (=) ==> iff) files.
Proof.
  intros s ? <- nbs ? <- r1 r2 Hr. unfold files.
  assert (forall k, r1 k = r2 k) as E by done. setoid_rewrite E. done.
Qed.

Lemma upd_rel_twice k bs bs' rbs :
  pointwise_relation kind (=) (upd_rel k bs (upd_rel k bs' rbs)) (upd_rel k bs rbs).
Proof. intros k'. unfold upd_rel. by case_decide. Qed.

Lemma upd_rel_id k rbs : pointwise_relation kind (=) (upd_rel k (rbs k) rbs) rbs.
Proof. intros k'. unfold upd_rel. by case_decide; subst. Qed.

Lemma good_run sz f bs : good sz f bs -> f = FStream (fs_data f) (fs_pos f) false.
Proof. destruct f; unfold good; simpl. by intros [-> _]. Qed.

Lemma files_nodes s nbs rbs nbs' d p :
  files s nbs rbs -> block_file 140 d nbs' ->
  files (set_nodesDB (FStream d p false) s) nbs' rbs.
Proof. intros [_ H] Hd. split; [done|]. by intros []; [apply (H Local)|apply (H Central)]. Qed.

Lemma files_rel s nbs rbs k bs d p :
  files s nbs rbs -> block_file (rsize k) d bs -> length bs = length (rbs k) -> rbs k <> [] ->
  files (set_rel_file k (FStream d p false) s) nbs (upd_rel k bs rbs).
Proof.
  intros [Hn H] Hd Hl Hne. split; [by destruct k|]. intros k'.
  destruct (decide (k = k')) as [<-|Hk].
  - rewrite upd_rel_eq. destruct (H k) as [_ [[? ?]|[? ?]]]; [done|].
    split; [by destruct k|]. right. rewrite Hl. by destruct k.
  - rewrite upd_rel_ne by done. specialize (H k'). by destruct k, k'.
Qed.

(** Moving the position of a relation file. *)
Lemma files_rel_pos s nbs rbs k p :
  files s nbs rbs ->
  files (set_rel_file k (FStream (fs_data (rel_file k s)) p false) s) nbs rbs.
Proof.
  intros [Hn H]. split; [by destruct k|]. intros k'. specialize (H k') as [[Hg Hb] Hi].
  destruct k, k'; (split; [split; [done|exact Hb]|exact Hi]) || (split; [split; done|exact Hi]).
Qed.

Lemma same_links_nodes f s : same_links s (set_nodesDB f s).
Proof. done. Qed.
Lemma same_links_rel k f s : same_links s (set_rel_file k f s).
Proof. by destruct k. Qed.

Lemma on_rel_run {A} k (c : M fstream A) s o f :
  c (rel_file k s) = (o, f) -> on_rel k c s = (o, set_rel_file k f s).
Proof. intros H. destruct k; unfold on_rel, zoom; simpl in *; by rewrite H. Qed.

Lemma on_nodes_run {A} (c : M fstream A) s o f :
  c (nodesDB s) = (o, f) -> on_nodes c s = (o, set_nodesDB f s).
Proof. apply zoom_run. Qed.

Lemma set_rel_file_twice k f g s : set_rel_file k f (set_rel_file k g s) = set_rel_file k f s.
Proof. by destruct k. Qed.
Lemma rel_file_set k f s : rel_file k (set_rel_file k f s) = f.
Proof. by destruct k. Qed.

(** ** Loading a vertex *)

Lemma cstring_label b :
  nul ∈ nf_label b -> cstring (nf_label b) = Some (string_of_list_ascii (until_nul (nf_label b))).
Proof. intros. unfold cstring. by rewrite decide_True. Qed.

Lemma node_fields_run s nbs rbs x b :
  files s nbs rbs -> nbs !! x = Some b ->
  exists p,
    (on_nodes (seek (naddress x));; on_nodes (read_seq NODE_FIELD_SIZES)) s =
    (Ret (Some [read_data b 0 1; read_data b 1 4; read_data b 5 4; read_data b 9 4;
                read_data b 13 1; read_data b 14 4; read_data b 18 4; nf_label b]),
     set_nodesDB (FStream (fs_data (nodesDB s)) p false) s).
Proof.
  intros [[Hf Hd] _] Hx. pose proof (lookup_lt_Some _ _ _ Hx).
  pose proof (block_file_length _ _ _ Hd) as Hlen.
  assert (Z.to_nat (naddress x) = (x * 140 + 0)%nat) as Hto
    by (unfold naddress, NODE_BLOCK_SIZE; lia).
  eexists. erewrite bind_Ret;
    [|apply on_nodes_run; rewrite (good_run _ _ _ (conj Hf Hd)); apply seek_run].
  erewrite on_nodes_run; [|apply read_seq_run; [unfold naddress, NODE_BLOCK_SIZE; lia|]].
  - rewrite Hto, (pieces_block 140 _ nbs x b) by (done || (simpl; lia)). reflexivity.
  - simpl. rewrite Hto. lia.
Qed.

Lemma NodeBlock_get_run s nbs rbs x b :
  files s nbs rbs -> nbs !! x = Some b -> node_wf b ->
  exists s', NodeBlock_get (naddress x) s = (Ret (node_at (naddress x) b), s') /\
    files s' nbs rbs /\ same_links s s'.
Proof.
  intros Hs Hx (Hb & Hnul & Hne & Hmod).
  destruct (node_fields_run _ _ _ _ _ Hs Hx) as [p Hrun].
  apply bind_Ret_inv in Hrun as ([] & s1 & Hseek & Hread).
  eexists. split; [|split; [eapply files_nodes; [exact Hs|by destruct Hs as [[_ ?] _]]|done]].
  unfold NodeBlock_get. erewrite bind_Ret; [|exact Hseek]. erewrite bind_Ret; [|exact Hread].
  cbn beta iota. rewrite cstring_label by done. erewrite bind_Ret; [|reflexivity].
  assert (string_of_list_ascii (until_nul (nf_label b)) <> EmptyString) as Hl.
  { intros E. apply Hne. rewrite <- (chars_string (until_nul _)), E. done. }
  rewrite (bool_decide_eq_false_2 _ Hl). cbn zeta. cbn [id makeNodeBlock].
  rewrite (bool_decide_eq_false_2 _ (to_string_nonempty _)).
  erewrite bind_Ret; [|reflexivity]. cbn [edgeRef makeNodeBlock].
  change (dec32 (read_data b 5 4)) with (nf32 5 b). rewrite (proj2 (Z.eqb_eq _ _) Hmod).
  erewrite bind_Ret; [|reflexivity]. reflexivity.
Qed.

(** ** Loading an edge *)

(** A well-formed edge block [b] between the vertices number [x] and [y]. *)
Definition rel_wf k (n : nat) b (x y : nat) : Prop :=
  length b = rsize k /\ nul ∈ rf_type k b /\
  rf 2 b = naddress x /\ rf 3 b = naddress y /\ (x < n)%nat /\ (y < n)%nat.

Definition rel_at k (nbs : list (list ascii)) (i : nat) b (x y : nat) : RelationBlock :=
  mkRel (raddress k i) (src_of b) (dst_of b) (rf 12 b)
    (match k with Local => 0 | Central => rf 13 b end)
    (string_of_list_ascii (until_nul (rf_type k b)))
    (Some (node_lookup nbs x)) (Some (node_lookup nbs y)).

Lemma node_lookup_run s nbs rbs x :
  files s nbs rbs -> Forall node_wf nbs -> (x < length nbs)%nat ->
  exists s', NodeBlock_get (naddress x) s = (Ret (node_lookup nbs x), s') /\
    files s' nbs rbs /\ same_links s s'.
Proof.
  intros Hs Hwf Hx. destruct (lookup_lt_is_Some_2 _ _ Hx) as [b Hb].
  unfold node_lookup. rewrite Hb. eapply NodeBlock_get_run; [done..|].
  by eapply Forall_lookup_1 in Hwf.
Qed.

Lemma makeRelationBlock_run s nbs rbs a src dst pr mp ty x y :
  files s nbs rbs -> Forall node_wf nbs -> is_u32 a ->
  address src = naddress x -> address dst = naddress y ->
  (x < length nbs)%nat -> (y < length nbs)%nat ->
  exists s', makeRelationBlock a src dst pr mp ty s =
    (Ret (mkRel a src dst pr mp ty (Some (node_lookup nbs x)) (Some (node_lookup nbs y))), s') /\
    files s' nbs rbs /\ same_links s s'.
Proof.
  intros Hs Hwf Ha Hx Hy Hlx Hly.
  destruct (node_lookup_run _ _ _ _ Hs Hwf Hlx) as (s1 & R1 & Hs1 & L1).
  destruct (node_lookup_run _ _ _ _ Hs1 Hwf Hly) as (s2 & R2 & Hs2 & L2).
  exists s2. split; [|split; [done|by etransitivity]].
  unfold makeRelationBlock. rewrite Hx, Hy.
  erewrite bind_Ret; [|exact R1]. erewrite bind_Ret; [|exact R2]. by rewrite u32_id.
Qed.

Lemma relation_fields_run s nbs rbs k i b :
  files s nbs rbs -> rbs k !! i = Some b ->
  exists p,
    (on_rel k (seek (raddress k i));; on_rel k (read_seq (relation_field_sizes k))) s =
    (Ret (Some (pieces b 0 (relation_field_sizes k))),
     set_rel_file k (FStream (fs_data (rel_file k s)) p false) s).
Proof.
  intros [_ Hr] Hi. destruct (Hr k) as [[Hf Hd] _]. pose proof (lookup_lt_Some _ _ _ Hi).
  pose proof (block_file_length _ _ _ Hd) as Hlen.
  assert (0 <= raddress k i) by (unfold raddress; pose proof (BLOCK_SIZE_pos k); nia).
  assert (Z.to_nat (raddress k i) = (i * rsize k + 0)%nat) as Hto
    by (unfold raddress; rewrite BLOCK_SIZE_rsize; lia).
  assert (total (relation_field_sizes k) = rsize k) as Htot by by destruct k.
  eexists. erewrite bind_Ret;
    [|apply on_rel_run; rewrite (good_run _ _ _ (conj Hf Hd)); apply seek_run].
  erewrite on_rel_run; [|rewrite rel_file_set; apply read_seq_run; [done|]].
  - rewrite set_rel_file_twice, Hto, (pieces_block (rsize k) _ (rbs k) i b) by (done || lia).
    reflexivity.
  - rewrite Hto, Htot. nia.
Qed.

Lemma relation_pieces k b :
  pieces b 0 (relation_field_sizes k) =
  read_data b 0 4 :: read_data b 4 4 :: read_data b 8 4 :: read_data b 12 4 ::
  read_data b 16 4 :: read_data b 20 4 :: read_data b 24 4 :: read_data b 28 4 ::
  read_data b 32 4 :: read_data b 36 4 :: read_data b 40 4 :: read_data b 44 4 ::
  read_data b 48 4 ::
  match k with Local => [rf_type k b] | Central => [read_data b 52 4; rf_type k b] end.
Proof. by destruct k. Qed.

Lemma getRelation_run s nbs rbs k i b x y :
  files s nbs rbs -> Forall node_wf nbs -> (0 < i)%nat -> rbs k !! i = Some b ->
  rel_wf k (length nbs) b x y -> is_u32 (raddress k i) ->
  exists s', getRelation k (raddress k i) s = (Ret (Some (rel_at k nbs i b x y)), s') /\
    files s' nbs rbs /\ same_links s s'.
Proof.
  intros Hs Hwf Hi Hb (Hlen & Hnul & Hx & Hy & Hlx & Hly) Hu.
  destruct (relation_fields_run _ _ _ _ _ _ Hs Hb) as [p Hrun].
  apply bind_Ret_inv in Hrun as ([] & s1 & Hseek & Hread).
  pose proof (files_rel_pos s nbs rbs k p Hs) as Hs2.
  destruct (makeRelationBlock_run _ _ _ (raddress k i) (src_of b) (dst_of b) (rf 12 b)
    (match k with Local => 0 | Central => rf 13 b end)
    (string_of_list_ascii (until_nul (rf_type k b))) x y Hs2 Hwf Hu Hx Hy Hlx Hly)
    as (s3 & R3 & Hs3 & L3).
  exists s3. split; [|split; [done|etransitivity; [|exact L3]; apply same_links_rel]].
  unfold getRelation. rewrite (proj2 (Z.eqb_neq _ _)) by (pose proof (raddress_pos k i Hi); lia).
  rewrite raddress_mod. cbn [Z.eqb negb].
  erewrite bind_Ret; [|exact Hseek]. erewrite bind_Ret; [|exact Hread].
  assert (cstring (rf_type k b) = Some (string_of_list_ascii (until_nul (rf_type k b)))) as Hty.
  { unfold cstring. by rewrite decide_True. }
  rewrite relation_pieces. cbn beta iota zeta.
  assert (default [] (last (match k with Local => [rf_type k b]
    | Central => [read_data b 52 4; rf_type k b] end)) = rf_type k b) as -> by by destruct k.
  rewrite Hty. erewrite bind_Ret; [|reflexivity].
  erewrite bind_Ret; [|etransitivity; [|exact R3]; by destruct k]. reflexivity.
Qed.

(** ** Updating a record of an edge block *)

Lemma updateRelationRecords_run s nbs rbs k i b r o data :
  files s nbs rbs -> rbs k !! i = Some b -> raddr r = raddress k i ->
  (Z.to_nat (offset_value o) < records k)%nat -> raddress k (S i) <= 4294967296 ->
  exists s', updateRelationRecords k r o data s = (Ret true, s') /\
    files s' nbs (upd_rel k (<[i := set_rf (Z.to_nat (offset_value o)) b data]> (rbs k)) rbs) /\
    same_links s s'.
Proof.
  intros Hs Hi Hr Ho Hu. pose proof Hs as [_ Hrel]. destruct (Hrel k) as [[Hf Hd] _].
  set (f := Z.to_nat (offset_value o)) in *.
  pose proof (rsize_eq k) as Hsz. pose proof (BLOCK_SIZE_rsize k) as HB.
  assert (0 <= offset_value o) by by destruct o.
  assert (u32 (raddr r + RECORD_SIZE * offset_value o) = raddress k i + Z.of_nat (4 * f)) as Ha.
  { rewrite Hr. unfold RECORD_SIZE, raddress in *. rewrite u32_id; [lia|]. unfold is_u32. nia. }
  unfold updateRelationRecords. rewrite Ha.
  assert (Z.to_nat (raddress k i + Z.of_nat (4 * f)) = (i * rsize k + 4 * f)%nat) as Hto
    by (unfold raddress; rewrite HB; lia).
  eexists. split.
  { erewrite bind_Ret; [|apply on_rel_run; rewrite (good_run _ _ _ (conj Hf Hd)); apply seek_run].
    erewrite on_rel_run; [|rewrite rel_file_set; apply write_run].
    rewrite set_rel_file_twice, Hto. reflexivity. }
  split; [|apply same_links_rel]. apply files_rel; [done| | |].
  - apply write_block; [done..|]. rewrite length_enc32. lia.
  - by rewrite length_insert.
  - intros E. by rewrite E in Hi.
Qed.

(** ** Changing the head of a relation list *)

Definition with_head k (n : NodeBlock) (a : Z) : NodeBlock :=
  match k with Local => with_edgeRef n a | Central => with_centralEdgeRef n a end.

Lemma setRelationHead_run s nbs rbs k x b n a :
  files s nbs rbs -> nbs !! x = Some b -> addr n = naddress x -> naddress (S x) <= 4294967296 ->
  exists s', setRelationHead k n a s = (Ret (true, with_head k n a), s') /\
    files s' (<[x := set_head k b a]> nbs) rbs /\ same_links s s'.
Proof.
  intros Hs Hx Hn Hu. pose proof Hs as [[Hf Hd] _].
  assert (forall c : Z, c = Z.of_nat (head_off k) ->
    exists s', (on_nodes (seek (naddress x + c));; ok ← on_nodes (write (enc32 a));
      mret (if ok : bool then (true, with_head k n a) else (false, n))) s =
      (Ret (true, with_head k n a), s') /\
      files s' (<[x := set_head k b a]> nbs) rbs /\ same_links s s') as Hgen.
  { intros c ->. eexists. split.
    - erewrite bind_Ret; [|apply on_nodes_run; rewrite (good_run _ _ _ (conj Hf Hd)); apply seek_run].
      erewrite bind_Ret; [|apply on_nodes_run, write_run]. reflexivity.
    - split; [|done]. apply (files_nodes s nbs); [exact Hs|].
      replace (Z.to_nat (naddress x + Z.of_nat (head_off k))) with (x * 140 + head_off k)%nat
        by (unfold naddress, NODE_BLOCK_SIZE; lia).
      apply write_block; [done..|]. destruct k; simpl; lia. }
  unfold setRelationHead, setLocalRelationHead, setCentralRelationHead. rewrite Hn.
  unfold naddress, NODE_BLOCK_SIZE, EDGE_REF_OFFSET in *.
  rewrite u32_id by (unfold is_u32; lia).
  destruct k; [apply (Hgen 5); done|]. rewrite <- Z.add_assoc. apply (Hgen 9). done.
Qed.

(** ** Appending an edge block *)

Definition enc_records (l : list Z) : list ascii := concat (enc32 <$> l).

Lemma length_enc_records l : length (enc_records l) = (4 * length l)%nat.
Proof.
  induction l as [|a l IH]; [done|]. unfold enc_records in *.
  rewrite fmap_cons. cbn [concat]. rewrite length_app, IH, length_enc32. simpl. lia.
Qed.

Lemma rf_enc_records l rest r v : l !! r = Some v -> rf r (enc_records l ++ rest) = u32 v.
Proof.
  revert r. induction l as [|a l IH]; intros [|r] Hr; simplify_eq/=.
  - unfold rf, read_data, enc_records. simpl. apply dec32_enc32_mod.
  - rewrite <- (IH r Hr). unfold rf, read_data. f_equal.
    replace (4 * S r)%nat with (4 + 4 * r)%nat by lia. rewrite <- drop_drop. reflexivity.
Qed.

Section append.
Context {HM : HostMemory}.

(** The block a new edge from [src] to [dst] is written as. *)
Definition new_records k (src dst : NodeBlock) : list Z :=
  [nodeId src; nodeId dst; addr src; addr dst; 0; 0; 0; 0; 0; 0; 0; 0; 0] ++
  match k with Local => [] | Central => [0] end.
Definition new_block k (src dst : NodeBlock) : list ascii :=
  enc_records (new_records k src dst) ++ object_image DEFAULT_TYPE.

Lemma new_block_records k src dst :
  concat (relation_records k newRelationBlock src dst (at_address (addr src)) (at_address (addr dst)))
  = new_block k src dst.
Proof.
  transitivity (concat ((enc32 <$> new_records k src dst) ++ [object_image DEFAULT_TYPE])).
  - by destruct k.
  - rewrite concat_app. cbn [concat]. by rewrite app_nil_r.
Qed.

Lemma length_new_records k src dst : length (new_records k src dst) = records k.
Proof. by destruct k. Qed.

Lemma length_new_block k src dst : length (new_block k src dst) = rsize k.
Proof.
  unfold new_block. rewrite length_app, length_enc_records, length_new_records, object_image_length.
  by rewrite rsize_eq.
Qed.

Lemma rf_new_block k src dst r v :
  new_records k src dst !! r = Some v -> rf r (new_block k src dst) = u32 v.
Proof. apply rf_enc_records. Qed.

Lemma rf_type_new_block k src dst : rf_type k (new_block k src dst) = object_image DEFAULT_TYPE.
Proof.
  unfold rf_type, new_block, read_data.
  rewrite drop_app_length' by by rewrite length_enc_records, length_new_records.
  apply take_ge. by rewrite object_image_length.
Qed.

Definition hole_and k (bs : list (list ascii)) : list (list ascii) :=
  match bs with [] => [replicate (rsize k) nul] | _ => bs end.

Lemma addRelation_run s nbs rbs k x y src dst :
  files s nbs rbs -> Forall node_wf nbs ->
  addr src = naddress x -> addr dst = naddress y ->
  (x < length nbs)%nat -> (y < length nbs)%nat ->
  raddress k (S (length (hole_and k (rbs k)))) <= 4294967296 ->
  let i := Z.to_nat (nextRelationIndex k s) in
  exists s', addRelation k newRelationBlock src dst s =
    (Ret (Some (mkRel (raddress k i) (at_address (naddress x)) (at_address (naddress y)) 0 0
      DEFAULT_TYPE (Some (node_lookup nbs x)) (Some (node_lookup nbs y)))), s') /\
    files s' nbs (upd_rel k (hole_and k (rbs k) ++ [new_block k src dst]) rbs) /\
    same_links s s' /\ length (hole_and k (rbs k)) = i.
Proof.
  intros Hs Hwf Hsx Hdy Hx Hy Hroom i. pose proof Hs as [Hn Hrel].
  destruct (Hrel k) as [[Hf Hd] Hidx]. pose proof (BLOCK_SIZE_rsize k) as HB.
  pose proof (BLOCK_SIZE_pos k) as Hpos. pose proof (length_new_block k src dst) as Hlb.
  assert (length (hole_and k (rbs k)) = i /\ (0 < i)%nat /\ (i <= S (length (rbs k)))%nat /\
    nextRelationIndex k s = Z.of_nat i /\
    block_file (rsize k) (write_data (fs_data (rel_file k s)) (i * rsize k) (new_block k src dst))
      (hole_and k (rbs k) ++ [new_block k src dst])) as (Hi1 & Hi0 & Hi2 & Hi3 & Hd').
  { unfold i. destruct Hidx as [[E ->]|[Hl ->]].
    - rewrite E in *. destruct Hd as [-> _]. change (Z.to_nat 1) with 1%nat. rewrite Nat.mul_1_l. split_and!; try done.
      + simpl; lia.
      + by apply append_block_hole.
    - rewrite Nat2Z.id. assert (hole_and k (rbs k) = rbs k) as ->
        by (destruct (rbs k); [simpl in Hl; lia|done]).
      split_and!; try done; try lia. by apply append_block. }
  rewrite Hi1 in Hroom.
  assert (is_u32 (raddress k i)) as Hu by (unfold is_u32, raddress in *; nia).
  set (st := FStream (write_data (fs_data (rel_file k s)) (i * rsize k) (new_block k src dst))
     (raddress k i + Z.of_nat (length (new_block k src dst))) false).
  assert (files (set_next_relation k (u32 (nextRelationIndex k s + 1)) (set_rel_file k st s)) nbs
    (upd_rel k (hole_and k (rbs k) ++ [new_block k src dst]) rbs)) as Hs2.
  { rewrite Hi3, u32_id by (unfold is_u32, raddress in *; nia).
    split; [by destruct k|]. intros k'. destruct (decide (k = k')) as [<-|Hk].
    - rewrite upd_rel_eq. split; [by destruct k|]. right. rewrite length_app. simpl.
      split; [lia|]. destruct k; simpl; lia.
    - rewrite upd_rel_ne by done. specialize (Hrel k'). by destruct k, k'. }
  destruct (makeRelationBlock_run _ _ _ (raddress k i) (at_address (naddress x))
    (at_address (naddress y)) 0 0 DEFAULT_TYPE x y Hs2 Hwf Hu) as (s3 & R3 & Hs3 & L3); [done..|].
  exists s3. split; [|split_and!; [done| |done]].
  2: { etransitivity; [|exact L3]. by destruct k. }
  unfold addRelation. erewrite bind_Ret; [|reflexivity].
  cbn zeta. fold (raddress k i) in *. rewrite Hi3. change (Z.of_nat i * BLOCK_SIZE k) with (raddress k i).
  erewrite bind_Ret; [|apply on_rel_run; rewrite (good_run _ _ _ (conj Hf Hd)); apply seek_run].
  erewrite bind_Ret; [|apply on_rel_run; rewrite rel_file_set; apply write_seq_run; [by destruct k|]].
  2: { unfold is_u32 in Hu. lia. }
  rewrite set_rel_file_twice, new_block_records.
  replace (Z.to_nat (raddress k i)) with (i * rsize k)%nat by (unfold raddress; rewrite HB; lia).
  fold st. cbn beta iota. erewrite bind_Ret; [|reflexivity].
  replace (nextRelationIndex k (set_rel_file k st s)) with (nextRelationIndex k s) by by destruct k.
  erewrite bind_Ret; [|rewrite <- Hsx, <- Hdy in R3; destruct k; exact R3].
  by rewrite Hsx, Hdy.
Qed.
End append.
