(* ===== verification/GraphTheory.v ===== *)
(** * GraphTheory: the relation lists store a graph

    Abstract view of a partition: for each kind of edge, the list of the
    edges (source vertex number, destination vertex number), newest first.
    [graph_ok] says that the files represent such a graph: edge number [i] is
    in block [i], and the list of a vertex holds exactly the edges incident to
    it, newest first.  Adding an edge preserves it; walking, searching and
    listing the neighbours of a vertex agree with the abstract graph. *)
From Stdlib Require Import ZArith Ascii String Lia.
From stdpp Require Import base tactics numbers list strings gmap.
From S2P Require Import Prelude FStream PropertyLinks NodeBlock RelationBlock NodeRelations.
From S2P Require Import GraphFiles.

Implicit Types (b : list ascii) (k : kind) (x y z i j : nat).

(** ** The abstract graph *)

Definition edges : Type := list (nat * nat).

Definition touches x (e : nat * nat) : bool := (e.1 =? x)%nat || (e.2 =? x)%nat.

(** The numbers of the edges at vertex [x]; the oldest edge has number 1. *)
Fixpoint incident x (E : edges) : list nat :=
  match E with
  | [] => []
  | e :: E' => if touches x e then S (length E') :: incident x E' else incident x E'
  end.

(** The other ends of the edges at [x], in list order. *)
Fixpoint neighbours x (E : edges) : list nat :=
  match E with
  | [] => []
  | e :: E' =>
      if touches x e then (if (e.1 =? x)%nat then e.2 else e.1) :: neighbours x E'
      else neighbours x E'
  end.

Lemma incident_bounded x E i : i ∈ incident x E -> (0 < i <= length E)%nat.
Proof.
  induction E as [|e E IH]; simpl; [by intros ?%not_elem_of_nil|].
  destruct (touches x e); intros Hi; [|apply IH in Hi; lia].
  apply elem_of_cons in Hi as [->|Hi]; [lia|]. apply IH in Hi. lia.
Qed.

Lemma length_incident x E : (length (incident x E) <= length E)%nat.
Proof. induction E as [|e E IH]; simpl; [done|]. destruct (touches x e); simpl; lia. Qed.

(** ** Lists of edge blocks *)

(** The next pointer that continues the walk of vertex [x]. *)
Definition cont x b : Z := if rf 2 b =? naddress x then rf 4 b else rf 8 b.

Inductive rchain k (bs : list (list ascii)) x : Z -> list nat -> Prop :=
| rchain_nil : rchain k bs x 0 []
| rchain_cons i b l :
    (0 < i)%nat -> bs !! i = Some b -> (rf 2 b = naddress x \/ rf 3 b = naddress x) ->
    rchain k bs x (cont x b) l -> rchain k bs x (raddress k i) (i :: l).

(** Blocks that differ at most in their previous pointers. *)
Definition same_but_prev k b b' : Prop :=
  length b' = length b /\ rf_type k b' = rf_type k b /\
  forall r, r <> 6%nat -> r <> 10%nat -> rf r b' = rf r b.

#[export] Instance same_but_prev_refl k : Reflexive (same_but_prev k).
Proof. by intros b. Qed.
#[export] Instance same_but_prev_trans k : Transitive (same_but_prev k).
Proof.
  intros b1 b2 b3 (L1 & T1 & F1) (L2 & T2 & F2). split; [congruence|]. split; [congruence|].
  intros r H6 H10. by rewrite F2, F1.
Qed.

Lemma same_but_prev_set k b r v :
  length b = rsize k -> r = 6%nat \/ r = 10%nat -> same_but_prev k b (set_rf r b v).
Proof.
  intros Hb Hr. pose proof (records_bounds k).
  assert (r < records k)%nat by (destruct Hr; lia). split_and!.
  - rewrite Hb. by apply length_set_rf.
  - by apply rf_type_set.
  - intros r' H6 H10. apply (rf_set_other k); [done..|]. destruct Hr; lia.
Qed.

Lemma cont_same k b b' x : same_but_prev k b b' -> cont x b' = cont x b.
Proof. intros (_ & _ & F). unfold cont. by rewrite !F by lia. Qed.

Lemma rel_wf_same k n b b' x y : same_but_prev k b b' -> rel_wf k n b x y -> rel_wf k n b' x y.
Proof.
  intros (L & T & F) (H1 & H2 & H3 & H4 & H5 & H6). unfold rel_wf.
  rewrite L, T, !F by lia. done.
Qed.

Lemma rchain_agree k bs bs' x a l :
  rchain k bs x a l ->
  (forall j b, j ∈ l -> bs !! j = Some b -> exists b', bs' !! j = Some b' /\ same_but_prev k b b') ->
  rchain k bs' x a l.
Proof.
  induction 1 as [|i b l Hi Hb Ht Hc IH]; intros Hag; [constructor|].
  destruct (Hag i b ltac:(left) Hb) as (b' & Hb' & Hsame). econstructor; [done..| |].
  - destruct Hsame as (_ & _ & F). rewrite !F by lia. done.
  - rewrite (cont_same k b b') by done. apply IH. intros j bj Hj. apply Hag. by right.
Qed.

(** ** Representation *)

(** Edge number [S (length E2)] is stored in the block of that number. *)
Definition edges_stored k (n : nat) (bs : list (list ascii)) (E : edges) : Prop :=
  forall E1 e E2, E = E1 ++ e :: E2 ->
  exists b, bs !! S (length E2) = Some b /\ rel_wf k n b e.1 e.2.

Definition graph_ok (nbs : list (list ascii)) (rbs : kind -> list (list ascii))
    (G : kind -> edges) : Prop :=
  Forall node_wf nbs /\ naddress (length nbs) <= 4294967296 /\
  forall k,
    length (rbs k) = match G k with [] => 0%nat | _ => S (length (G k)) end /\
    raddress k (length (rbs k)) <= 4294967296 /\
    edges_stored k (length nbs) (rbs k) (G k) /\
    forall x b, nbs !! x = Some b -> rchain k (rbs k) x (node_head k b) (incident x (G k)).

Lemma edges_stored_incident k n bs E x i :
  edges_stored k n bs E -> i ∈ incident x E ->
  exists b u v, bs !! i = Some b /\ rel_wf k n b u v /\ (u = x \/ v = x).
Proof.
  induction E as [|e E IH]; intros Hst Hi; [by apply not_elem_of_nil in Hi|]. simpl in Hi.
  assert (edges_stored k n bs E) as HE.
  { intros E1 e' E2 ->. by apply (Hst (e :: E1)). }
  destruct (touches x e) eqn:Ht; [|by apply IH].
  apply elem_of_cons in Hi as [->|Hi]; [|by apply IH].
  destruct (Hst [] e E eq_refl) as (b & Hb & Hwf). exists b, e.1, e.2. split_and!; try done.
  unfold touches in Ht. apply orb_true_iff in Ht as [Ht|Ht]; apply Nat.eqb_eq in Ht; auto.
Qed.

(** ** Adding an edge *)

(** The head that a vertex object remembers: none, or a stored edge of it. *)
Definition head_ok k (n : nat) (bs : list (list ascii)) x (h : Z) (N : nat) : Prop :=
  h = 0 \/ exists j bj u v, h = raddress k j /\ (0 < j)%nat /\ j <> N /\
    (S j <= length bs)%nat /\
    bs !! j = Some bj /\ rel_wf k n bj u v /\ (u = x \/ v = x).

Definition next_field x (r : RelationBlock) : nat :=
  if naddress x =? address (source r) then 4%nat else 8%nat.

(** What an edge object keeps while it is linked into the lists. *)
Definition handle (r : RelationBlock) : Z * Z * Z * string :=
  (raddr r, propertyAddress r, metaPropertyAddress r, rtype r).

Lemma handle_addr r r' : handle r' = handle r -> raddr r' = raddr r.
Proof. unfold handle. congruence. Qed.

(** What one [updateRelation] with head relocation does to the edge blocks. *)
Definition linked k bs bs' (N : nat) (f : nat) (h : Z) : Prop :=
  length bs' = length bs /\
  (forall j b, j <> N -> bs !! j = Some b -> exists b', bs' !! j = Some b' /\ same_but_prev k b b') /\
  (forall b, bs !! N = Some b -> exists b', bs' !! N = Some b' /\
     length b' = length b /\ rf_type k b' = rf_type k b /\ rf f b' = h /\
     forall r, r <> f -> rf r b' = rf r b).

Lemma naddress_eqb x y : (naddress x =? naddress y) = (x =? y)%nat.
Proof.
  destruct (Nat.eqb_spec x y) as [->|Hne]; [apply Z.eqb_refl|].
  apply Z.eqb_neq. intros H. by apply naddress_inj in H.
Qed.

Lemma link_previous_run s nbs rbs k x n j bj u v a :
  files s nbs rbs -> addr n = naddress x -> rbs k !! j = Some bj ->
  rel_wf k (length nbs) bj u v -> (u = x \/ v = x) -> raddress k (S j) <= 4294967296 ->
  exists s' bj', link_previous k n (rel_at k nbs j bj u v) a s = (Ret tt, s') /\
    files s' nbs (upd_rel k (<[j := bj']> (rbs k)) rbs) /\ same_links s s' /\
    same_but_prev k bj bj'.
Proof.
  intros Hs Hn Hj (Hlen & Hty & Hu & Hv & _) Hx Hroom. unfold link_previous.
  cbn [rel_at source destination src_of dst_of side_of address]. rewrite Hn, Hu, Hv, !naddress_eqb.
  pose proof (records_bounds k).
  destruct (Nat.eqb_spec x u) as [->|Hne].
  - destruct (updateRelationRecords_run s nbs rbs k j bj (rel_at k nbs j bj u v) SOURCE_PREVIOUS a)
      as (s' & R & Hs' & L); [done..|simpl; lia|done|].
    exists s', (set_rf 6 bj a). split_and!; [|done|done|by apply same_but_prev_set; auto].
    unfold setPreviousSource. erewrite bind_Ret; [|erewrite bind_Ret; [|exact R]; reflexivity].
    reflexivity.
  - assert (v = x) as -> by (destruct Hx; congruence). rewrite Nat.eqb_refl.
    destruct (updateRelationRecords_run s nbs rbs k j bj (rel_at k nbs j bj u x) DESTINATION_PREVIOUS a)
      as (s' & R & Hs' & L); [done..|simpl; lia|done|].
    exists s', (set_rf 10 bj a). split_and!; [|done|done|by apply same_but_prev_set; auto].
    unfold setPreviousDestination. erewrite bind_Ret; [|erewrite bind_Ret; [|exact R]; reflexivity].
    reflexivity.
Qed.

Lemma link_next_run s nbs rbs k x n r N bn a :
  files s nbs rbs -> addr n = naddress x -> rbs k !! N = Some bn -> raddr r = raddress k N ->
  (address (source r) = naddress x \/ address (destination r) = naddress x) ->
  raddress k (S N) <= 4294967296 ->
  exists s' r', link_next k n r a s = (Ret r', s') /\
    files s' nbs (upd_rel k (<[N := set_rf (next_field x r) bn a]> (rbs k)) rbs) /\
    same_links s s' /\ handle r' = handle r /\
    address (source r') = address (source r) /\
    address (destination r') = address (destination r).
Proof.
  intros Hs Hn HN Hr Hx Hroom. unfold link_next, next_field. rewrite Hn.
  pose proof (records_bounds k).
  destruct (Z.eqb_spec (naddress x) (address (source r))) as [E|Hne].
  - destruct (updateRelationRecords_run s nbs rbs k N bn r SOURCE_NEXT a)
      as (s' & R & Hs' & L); [done..|simpl; lia|done|].
    exists s', (with_source r (nr_with_next (source r) a)). split_and!; try done.
    unfold setNextSource. erewrite bind_Ret; [|erewrite bind_Ret; [|exact R]; reflexivity].
    reflexivity.
  - assert (address (destination r) = naddress x) as E by (destruct Hx; congruence).
    rewrite E, Z.eqb_refl.
    destruct (updateRelationRecords_run s nbs rbs k N bn r DESTINATION_NEXT a)
      as (s' & R & Hs' & L); [done..|simpl; lia|done|].
    exists s', (with_destination r (nr_with_next (destination r) a)). split_and!; try done.
    unfold setNextDestination. erewrite bind_Ret; [|erewrite bind_Ret; [|exact R]; reflexivity].
    reflexivity.
Qed.

Lemma head_run s nbs rbs k x n h N :
  files s nbs rbs -> Forall node_wf nbs -> edge_ref k n = h ->
  raddress k (length (rbs k)) <= 4294967296 ->
  head_ok k (length nbs) (rbs k) x h N ->
  exists s' o, getRelationHead k n s = (Ret o, s') /\ files s' nbs rbs /\ same_links s s' /\
    ((h = 0 /\ o = None) \/
     exists j bj u v, h = raddress k j /\ (0 < j)%nat /\ j <> N /\ rbs k !! j = Some bj /\
       rel_wf k (length nbs) bj u v /\ (u = x \/ v = x) /\ raddress k (S j) <= 4294967296 /\
       o = Some (rel_at k nbs j bj u v)).
Proof.
  intros Hs Hwf Hh Hroom Hok. unfold getRelationHead. rewrite Hh.
  destruct Hok as [->|(j & bj & u & v & -> & Hj & HjN & Hjl & Hb & Hrel & Hx)].
  - exists s, None. split_and!; try done. auto.
  - pose proof (raddress_pos k j Hj). rewrite (proj2 (Z.eqb_neq _ _)) by lia.
    assert (raddress k (S j) <= 4294967296)
      by (unfold raddress in *; pose proof (BLOCK_SIZE_pos k); nia).
    destruct (getRelation_run s nbs rbs k j bj u v) as (s' & R & Hs' & L); [done..| |].
    { unfold is_u32, raddress in *. pose proof (BLOCK_SIZE_pos k). nia. }
    exists s', (Some (rel_at k nbs j bj u v)). split_and!; try done. right.
    exists j, bj, u, v. done.
Qed.

Lemma updateRelation_run s nbs rbs k x b n h r N bn :
  files s nbs rbs -> Forall node_wf nbs ->
  naddress (length nbs) <= 4294967296 -> raddress k (length (rbs k)) <= 4294967296 ->
  addr n = naddress x -> nbs !! x = Some b -> edge_ref k n = h ->
  head_ok k (length nbs) (rbs k) x h N ->
  rbs k !! N = Some bn -> raddr r = raddress k N -> length bn = rsize k -> is_u32 h ->
  (address (source r) = naddress x \/ address (destination r) = naddress x) ->
  (h = 0 -> rf (next_field x r) bn = 0) ->
  exists s' bs' r' n', updateRelation k n r true s = (Ret (true, n', r'), s') /\
    files s' (<[x := set_head k b (raddress k N)]> nbs) (upd_rel k bs' rbs) /\ same_links s s' /\
    linked k (rbs k) bs' N (next_field x r) h /\ handle r' = handle r /\
    address (source r') = address (source r) /\
    address (destination r') = address (destination r).
Proof.
  intros Hs Hwf Hnroom Hroom Hn Hb Hh Hok HN Hr Hlen Hu32 Hx H0.
  pose proof (lookup_lt_Some _ _ _ HN) as HNl. pose proof (lookup_lt_Some _ _ _ Hb) as Hxl.
  assert (raddress k (S N) <= 4294967296)
    by (unfold raddress in *; pose proof (BLOCK_SIZE_pos k); nia).
  assert (naddress (S x) <= 4294967296) by (unfold naddress, NODE_BLOCK_SIZE in *; lia).
  destruct (head_run s nbs rbs k x n h N Hs Hwf Hh Hroom Hok)
    as (s1 & o & R1 & Hs1 & L1 & Ho).
  assert (exists s2 bs' r', (match o with
     | Some head => link_previous k n head (raddr r);; link_next k n r (raddr head)
     | None => mret r end) s1 = (Ret r', s2) /\ files s2 nbs (upd_rel k bs' rbs) /\
     same_links s1 s2 /\ linked k (rbs k) bs' N (next_field x r) h /\ handle r' = handle r /\
     address (source r') = address (source r) /\ address (destination r') = address (destination r))
    as (s2 & bs' & r' & R2 & Hs2 & L2 & Hlk & Hr1 & Hr2 & Hr3).
  { destruct Ho as [[-> ->]|(j & bj & u & v & -> & Hj & HjN & Hbj & Hrel & Hxj & Hrj & ->)].
    - exists s1, (rbs k), r. split_and!; try done; [by rewrite upd_rel_id|].
      split_and!; [done|intros j bj _ Hbj; by exists bj|]. intros b' Hb'. exists b'. assert (b' = bn) as -> by congruence.
      split_and!; try done. auto.
    - destruct (link_previous_run s1 nbs rbs k x n j bj u v (raddr r) Hs1 Hn Hbj Hrel Hxj Hrj)
        as (s2 & bj' & R2 & Hs2 & L2 & Hsame).
      assert (upd_rel k (<[j:=bj']> (rbs k)) rbs k !! N = Some bn) as HN2.
      { rewrite upd_rel_eq, list_lookup_insert_ne by done. done. }
      destruct (link_next_run s2 nbs _ k x n r N bn (raddress k j) Hs2 Hn HN2 Hr Hx ltac:(done))
        as (s3 & r' & R3 & Hs3 & L3 & Hr1 & Hr2 & Hr3).
      eexists s3, _, r'. split_and!; [| |by etransitivity| |done..].
      + erewrite bind_Ret; [|exact R2]. exact R3.
      + by rewrite <- upd_rel_twice.
      + rewrite upd_rel_eq. pose proof (records_bounds k).
        assert (next_field x r < records k)%nat by (unfold next_field; case_match; lia).
        split_and!.
        * by rewrite !length_insert.
        * intros i bi Hi Hbi. rewrite list_lookup_insert_ne by done.
          destruct (decide (i = j)) as [->|Hij].
          -- exists bj'. rewrite list_lookup_insert_eq by (by eapply lookup_lt_Some).
             assert (bi = bj) as -> by congruence. done.
          -- exists bi. by rewrite list_lookup_insert_ne by done.
        * intros b' Hb'. assert (b' = bn) as -> by congruence. eexists.
          rewrite list_lookup_insert_eq by (by rewrite length_insert).
          split_and!; [done|by rewrite (length_set_rf k)|by apply rf_type_set| |].
          -- by apply rf_set_same.
          -- intros r0 Hr0. apply (rf_set_other k); done. }
  destruct (setRelationHead_run s2 nbs _ k x b n (raddr r') Hs2 Hb Hn ltac:(done))
    as (s3 & R3 & Hs3 & L3).
  exists s3, bs', r', (with_head k n (raddr r')). split_and!; [| | |done..].
  - unfold updateRelation. erewrite bind_Ret; [|exact R1]. cbn beta iota.
    erewrite bind_Ret; [|exact R2]. erewrite bind_Ret; [|exact R3]. reflexivity.
  - by rewrite <- Hr, <- (handle_addr _ _ Hr1).
  - etransitivity; [exact L1|]. by etransitivity.
Qed.

Definition preserved k (N : nat) (bs bs' : list (list ascii)) : Prop :=
  forall j b, j <> N -> bs !! j = Some b -> exists b', bs' !! j = Some b' /\ same_but_prev k b b'.

#[export] Instance preserved_trans k N : Transitive (preserved k N).
Proof.
  intros b1 b2 b3 H12 H23 j b Hj Hb. destruct (H12 j b Hj Hb) as (b' & Hb' & S1).
  destruct (H23 j b' Hj Hb') as (b'' & Hb'' & S2). exists b''. split; [done|]. by etransitivity.
Qed.

Lemma head_ok_mono k n bs bs' x h N :
  preserved k N bs bs' -> (length bs <= length bs')%nat ->
  head_ok k n bs x h N -> head_ok k n bs' x h N.
Proof.
  intros Hp Hl [->|(j & bj & u & v & -> & Hj & HjN & Hjl & Hb & Hrel & Hx)]; [by left|].
  right. destruct (Hp j bj HjN Hb) as (b' & Hb' & Hs). exists j, b', u, v.
  split_and!; try done; [lia|]. by eapply rel_wf_same.
Qed.

Lemma rchain_head_ok k n bs x h E N :
  rchain k bs x h (incident x E) -> edges_stored k n bs E -> (length E < N)%nat ->
  head_ok k n bs x h N.
Proof.
  intros Hc Hst HN. remember (incident x E) as l eqn:El. destruct Hc as [|i b l Hi Hb Ht Hc].
  - by left.
  - right. assert (i ∈ incident x E) as Hin by (rewrite <- El; left).
    pose proof (incident_bounded _ _ _ Hin). pose proof (lookup_lt_Some _ _ _ Hb).
    destruct (edges_stored_incident _ _ _ _ _ _ Hst Hin) as (b' & u & v & Hb' & Hwf & Hx).
    exists i, b', u, v. split_and!; try done; lia.
Qed.

Section add.
Context {HM : HostMemory}.

Lemma hole_preserved k N bs nb : length (hole_and k bs) = N -> preserved k N bs (hole_and k bs ++ [nb]).
Proof.
  intros HN j b Hj Hb. exists b. split; [|reflexivity]. destruct bs; [done|].
  by apply lookup_app_l_Some.
Qed.

Definition upd_G k (E : edges) (G : kind -> edges) : kind -> edges :=
  fun k' => if decide (k = k') then E else G k'.

(** Node blocks that differ at most in the two list heads. *)
Definition same_but_heads b b' : Prop :=
  length b' = length b /\
  forall off m, (off + m <= 5 \/ 13 <= off)%nat -> read_data b' off m = read_data b off m.

Lemma same_but_heads_set k b a : length b = 140%nat -> same_but_heads b (set_head k b a).
Proof.
  intros Hb. split; [rewrite Hb; by apply length_set_head|]. intros off m [H|H]; unfold set_head.
  - apply read_write_before; destruct k; simpl; lia.
  - apply read_write_after; destruct k; simpl; lia.
Qed.

Lemma same_but_heads_trans b1 b2 b3 :
  same_but_heads b1 b2 -> same_but_heads b2 b3 -> same_but_heads b1 b3.
Proof. intros [L1 F1] [L2 F2]. split; [congruence|]. intros. by rewrite F2, F1. Qed.

(** Both heads of the new edge in place: the node blocks after an insertion. *)
Lemma two_heads k nbs x y bx by' a z b :
  nbs !! x = Some bx -> <[x := set_head k bx a]> nbs !! y = Some by' ->
  Forall node_wf nbs -> is_u32 a -> nbs !! z = Some b ->
  exists b', <[y := set_head k by' a]> (<[x := set_head k bx a]> nbs) !! z = Some b' /\
    same_but_heads b b' /\
    node_head k b' = (if (x =? z)%nat || (y =? z)%nat then a else node_head k b) /\
    forall k', k <> k' -> node_head k' b' = node_head k' b.
Proof.
  intros Hx Hy Hwf Ha Hz. pose proof (lookup_lt_Some _ _ _ Hx) as Hxl.
  pose proof (lookup_lt_Some _ _ _ Hy) as Hyl. rewrite length_insert in Hyl.
  assert (forall w c, nbs !! w = Some c -> length c = 140%nat) as Hlen.
  { intros w c Hw. eapply Forall_lookup_1 in Hwf; [|exact Hw]. by destruct Hwf. }
  pose proof (Hlen _ _ Hx) as Lx.
  assert (length by' = 140%nat) as Ly.
  { destruct (decide (x = y)) as [->|Hxy].
    - rewrite list_lookup_insert_eq in Hy by done. simplify_eq. by apply length_set_head.
    - rewrite list_lookup_insert_ne in Hy by done. by eapply Hlen. }
  destruct (Nat.eqb_spec y z) as [->|Hyz].
  - exists (set_head k by' a). rewrite list_lookup_insert_eq by (by rewrite length_insert).
    split; [done|]. rewrite orb_true_r. destruct (decide (x = z)) as [->|Hxz].
    + rewrite list_lookup_insert_eq in Hy by done. simplify_eq. split_and!.
      * eapply same_but_heads_trans; by apply same_but_heads_set.
      * by apply node_head_set_head.
      * intros k' Hk. by rewrite !node_head_set_other.
    + rewrite list_lookup_insert_ne in Hy by done. simplify_eq. split_and!.
      * by apply same_but_heads_set.
      * by apply node_head_set_head.
      * intros k' Hk. by rewrite !node_head_set_other.
  - rewrite orb_false_r, list_lookup_insert_ne by done.
    destruct (Nat.eqb_spec x z) as [->|Hxz].
    + exists (set_head k bx a). rewrite list_lookup_insert_eq by done. simplify_eq. split_and!.
      * done.
      * by apply same_but_heads_set.
      * by apply node_head_set_head.
      * intros k' Hk. by rewrite !node_head_set_other.
    + exists b. rewrite list_lookup_insert_ne by done. done.
Qed.

(** The edge blocks after an insertion represent the extended graph. *)
Lemma chains_extended k bs bs' E x y N (h : nat -> Z) bn z :
  N = S (length E) -> preserved k N bs bs' -> bs' !! N = Some bn ->
  rf 2 bn = naddress x -> rf 3 bn = naddress y -> rf 4 bn = h x -> (x <> y -> rf 8 bn = h y) ->
  rchain k bs z (h z) (incident z E) ->
  rchain k bs' z (if (x =? z)%nat || (y =? z)%nat then raddress k N else h z)
    (incident z ((x, y) :: E)).
Proof.
  intros HN Hp HbN H2 H3 H4 H8 Hc.
  assert (rchain k bs' z (h z) (incident z E)) as Hc'.
  { eapply rchain_agree; [done|]. intros j b Hj Hb. apply Hp; [|done].
    apply incident_bounded in Hj. lia. }
  simpl. unfold touches. simpl. destruct ((x =? z)%nat || (y =? z)%nat) eqn:Ht; [|done].
  rewrite <- HN. econstructor; [lia|done| |].
  - rewrite H2, H3. apply orb_true_iff in Ht as [Ht|Ht]; apply Nat.eqb_eq in Ht; subst; auto.
  - unfold cont. rewrite H2, naddress_eqb. destruct (Nat.eqb_spec x z) as [->|Hne].
    + by rewrite H4.
    + simpl in Ht. apply Nat.eqb_eq in Ht as ->. by rewrite H8.
Qed.

(** The three calls of [addLocalRelation]/[addCentralRelation], in order. *)
Definition relate k (src dst : NodeBlock) : M store (option RelationBlock) :=
  o ← addRelation k newRelationBlock src dst;
  match o with
  | Some r =>
      '(_, r) ← updateRelation k src r true;
      '(_, r) ← updateRelation k dst r true;
      mret (Some r)
  | None => mret None
  end.

Definition vertex_head k (nbs : list (list ascii)) z : Z := node_head k (default [] (nbs !! z)).

Lemma graph_ok_head k nbs rbs G x b :
  graph_ok nbs rbs G -> nbs !! x = Some b ->
  vertex_head k nbs x = node_head k b /\ is_u32 (node_head k b) /\
  head_ok k (length nbs) (rbs k) x (node_head k b) (S (length (G k))).
Proof.
  intros (_ & _ & Hk) Hx. destruct (Hk k) as (_ & _ & Hst & Hch). unfold vertex_head.
  rewrite Hx. split_and!; [done|apply dec32_range|].
  eapply rchain_head_ok; [by apply Hch|done|lia].
Qed.

Lemma graph_ok_new_index k s nbs rbs G :
  files s nbs rbs -> graph_ok nbs rbs G ->
  length (hole_and k (rbs k)) = S (length (G k)).
Proof.
  intros [_ Hf] (_ & _ & Hk). destruct (Hk k) as (Hl & _). destruct (Hf k) as [_ Hi].
  destruct (G k); simpl in *.
  - by apply length_zero_iff_nil in Hl as ->.
  - destruct (rbs k); simpl in *; lia.
Qed.

(** Final step of an insertion: the extended blocks represent the extended graph. *)
Lemma graph_ok_extend k nbs rbs G x y bx by' bs3 bn N :
  graph_ok nbs rbs G -> nbs !! x = Some bx -> (y < length nbs)%nat ->
  N = S (length (G k)) -> <[x := set_head k bx (raddress k N)]> nbs !! y = Some by' ->
  raddress k (S N) <= 4294967296 -> length bs3 = S N ->
  preserved k N (rbs k) bs3 -> bs3 !! N = Some bn -> rel_wf k (length nbs) bn x y ->
  rf 4 bn = vertex_head k nbs x -> (x <> y -> rf 8 bn = vertex_head k nbs y) ->
  graph_ok (<[y := set_head k by' (raddress k N)]> (<[x := set_head k bx (raddress k N)]> nbs))
    (upd_rel k bs3 rbs) (upd_G k ((x, y) :: G k) G).
Proof.
  intros (Hwf & Hnroom & Hk) Hx Hyl HN Hy Hroom Hl3 Hp HbN Hrel H4 H8.
  assert (is_u32 (raddress k N)) as Ha.
  { unfold is_u32, raddress in *. pose proof (BLOCK_SIZE_pos k). nia. }
  pose proof (two_heads k nbs x y bx by' (raddress k N)) as H2h.
  split_and!.
  - apply Forall_lookup_2. intros z b Hz.
    destruct (nbs !! z) as [b0|] eqn:Hz0.
    2: { apply lookup_lt_Some in Hz. rewrite !length_insert in Hz.
         apply lookup_ge_None in Hz0. lia. }
    assert (node_wf b0) as W0 by by eapply Forall_lookup_1 in Hwf.
    assert (node_wf (set_head k bx (raddress k N))) as Wx.
    { apply node_wf_set_head; [by eapply Forall_lookup_1 in Hwf|done|apply raddress_mod]. }
    destruct (decide (y = z)) as [->|Hyz].
    + rewrite list_lookup_insert_eq in Hz by (by rewrite length_insert). simplify_eq.
      apply node_wf_set_head; [|done|apply raddress_mod].
      destruct (decide (x = z)) as [->|Hxz].
      * rewrite list_lookup_insert_eq in Hy by done. by simplify_eq.
      * rewrite list_lookup_insert_ne in Hy by done. by simplify_eq.
    + rewrite list_lookup_insert_ne in Hz by done. destruct (decide (x = z)) as [->|Hxz].
      * rewrite list_lookup_insert_eq in Hz by (by eapply lookup_lt_Some). by simplify_eq.
      * rewrite list_lookup_insert_ne in Hz by done. by simplify_eq.
  - by rewrite !length_insert.
  - intros k'. rewrite !length_insert. destruct (Hk k') as (Hl & Hr & Hst & Hch).
    destruct (decide (k = k')) as [<-|Hkk].
    + rewrite upd_rel_eq. unfold upd_G. rewrite decide_True by done.
      split_and!; [simpl; lia|by rewrite Hl3| |].
      * intros [|e1 E1] e E2 [= Heq1 Heq2].
        -- subst e E2. exists bn. by rewrite <- HN.
        -- destruct (Hst E1 e E2 Heq2) as (b & Hb & Hwb).
           destruct (Hp (S (length E2)) b) as (b' & Hb' & Hs); [|done|].
           { rewrite HN, Heq2, length_app. simpl. lia. }
           exists b'. split; [done|]. by eapply rel_wf_same.
      * intros z b Hz. destruct (nbs !! z) as [b0|] eqn:Hz0.
        2: { apply lookup_lt_Some in Hz. rewrite !length_insert in Hz.
             apply lookup_ge_None in Hz0. lia. }
        destruct (H2h z b0 Hx Hy Hwf Ha Hz0) as (b' & Hb' & _ & Hh & _).
        assert (b = b') as -> by congruence. rewrite Hh.
        assert (vertex_head k nbs z = node_head k b0) as <- by (unfold vertex_head; by rewrite Hz0).
        destruct Hrel as (_ & _ & R2 & R3 & _).
        eapply (chains_extended k (rbs k) bs3 (G k) x y N (vertex_head k nbs)); try done.
        unfold vertex_head. rewrite Hz0. by apply Hch.
    + rewrite upd_rel_ne by done. unfold upd_G. rewrite decide_False by done.
      split_and!; try done. intros z b Hz. destruct (nbs !! z) as [b0|] eqn:Hz0.
      2: { apply lookup_lt_Some in Hz. rewrite !length_insert in Hz.
           apply lookup_ge_None in Hz0. lia. }
      destruct (H2h z b0 Hx Hy Hwf Ha Hz0) as (b' & Hb' & _ & _ & Hh).
      assert (b = b') as -> by congruence. rewrite Hh by done. by apply Hch.
Qed.

Lemma new_block_wf k n src dst x y :
  addr src = naddress x -> addr dst = naddress y -> (x < n)%nat -> (y < n)%nat ->
  naddress n <= 4294967296 ->
  rel_wf k n (new_block k src dst) x y /\
  rf 4 (new_block k src dst) = 0 /\ rf 8 (new_block k src dst) = 0.
Proof.
  intros Hx Hy Hxn Hyn Hr. unfold rel_wf. rewrite rf_type_new_block, length_new_block.
  assert (forall r v, new_records k src dst !! r = Some v -> is_u32 v ->
    rf r (new_block k src dst) = v) as Hrf.
  { intros r v Hv Hu. rewrite (rf_new_block _ _ _ _ _ Hv). by apply u32_id. }
  split_and!; try done; [apply object_image_nul|..]; try lia.
  - apply Hrf; [by rewrite <- Hx; destruct k|unfold is_u32, naddress, NODE_BLOCK_SIZE in *; lia].
  - apply Hrf; [by rewrite <- Hy; destruct k|unfold is_u32, naddress, NODE_BLOCK_SIZE in *; lia].
Qed.

Lemma new_block_links k src dst :
  rf 12 (new_block k src dst) = 0 /\ (k = Central -> rf 13 (new_block k src dst) = 0).
Proof.
  split; [|intros ->]; (erewrite rf_new_block; [|by destruct k || reflexivity]; by rewrite u32_id by (unfold is_u32; lia)).
Qed.

Lemma zero_fields k : rf 12 (replicate (rsize k) nul) = 0 /\ (k = Central -> rf 13 (replicate (rsize k) nul) = 0).
Proof. by destruct k. Qed.

Lemma hole_lookup k bs c j :
  bs !! j = None -> j <> length (hole_and k bs) -> (j < length (hole_and k bs ++ [c]))%nat ->
  (hole_and k bs ++ [c]) !! j = Some (replicate (rsize k) nul).
Proof.
  intros Hj Hne Hlt. rewrite length_app in Hlt. cbn in Hlt. destruct bs as [|b0 bs].
  - cbn in *. by destruct j as [|[|j]]; [|lia|lia].
  - apply lookup_ge_None in Hj. cbn [hole_and] in *. lia.
Qed.

Lemma relate_run s nbs rbs G k x y bx by0 src dst :
  files s nbs rbs -> graph_ok nbs rbs G ->
  nbs !! x = Some bx -> nbs !! y = Some by0 ->
  addr src = naddress x -> addr dst = naddress y ->
  edge_ref k src = node_head k bx -> edge_ref k dst = node_head k by0 ->
  raddress k (S (S (length (G k)))) <= 4294967296 ->
  exists s' r nbs' rbs',
    relate k src dst s = (Ret (Some r), s') /\ raddr r = raddress k (S (length (G k))) /\
    files s' nbs' rbs' /\ same_links s s' /\
    graph_ok nbs' rbs' (upd_G k ((x, y) :: G k) G) /\ length nbs' = length nbs /\
    (forall z b, nbs !! z = Some b -> exists b', nbs' !! z = Some b' /\ same_but_heads b b') /\
    handle r = (raddress k (S (length (G k))), 0, 0, DEFAULT_TYPE) /\
    (forall k', k <> k' -> rbs' k' = rbs k') /\
    preserved k (S (length (G k))) (rbs k) (rbs' k) /\
    forall j b, rbs' k !! j = Some b -> rbs k !! j = None -> rf 12 b = 0 /\ (k = Central -> rf 13 b = 0).
Proof.
  intros Hs Hg Hx Hy Hsx Hdy Hex Hey Hroom. set (N := S (length (G k))) in *.
  pose proof (graph_ok_new_index k _ _ _ _ Hs Hg) as HN. fold N in HN.
  pose proof Hg as (Hwf & Hnroom & Hk). destruct (Hk k) as (Hl & _).
  pose proof (lookup_lt_Some _ _ _ Hx) as Hxl. pose proof (lookup_lt_Some _ _ _ Hy) as Hyl.
  destruct (graph_ok_head k _ _ _ _ _ Hg Hx) as (Vx & Ux & Hox). fold N in Hox.
  destruct (graph_ok_head k _ _ _ _ _ Hg Hy) as (Vy & Uy & Hoy). fold N in Hoy.
  destruct (new_block_wf k (length nbs) src dst x y Hsx Hdy Hxl Hyl Hnroom) as (Wn & Z4 & Z8).
  destruct (addRelation_run s nbs rbs k x y src dst Hs Hwf Hsx Hdy Hxl Hyl)
    as (s1 & R1 & Hs1 & L1 & Hi).
  { by rewrite HN. }
  rewrite <- Hi, HN in R1. set (bs1 := hole_and k (rbs k) ++ [new_block k src dst]) in *.
  assert (bs1 !! N = Some (new_block k src dst)) as HbN by by apply list_lookup_middle.
  assert (length bs1 = S N) as Hl1 by (unfold bs1; rewrite length_app; simpl; lia).
  assert (preserved k N (rbs k) bs1) as P1 by by apply hole_preserved.
  assert (length (rbs k) <= length bs1)%nat as Hle.
  { rewrite Hl1. unfold N. destruct (G k); simpl in *; lia. }
  set (r1 := mkRel _ _ _ _ _ _ _ _) in R1.
  destruct (updateRelation_run s1 nbs (upd_rel k bs1 rbs) k x bx src (node_head k bx) r1 N
    (new_block k src dst) Hs1 Hwf Hnroom) as (s2 & bs2 & r2 & n2 & R2 & Hs2 & L2 & (Hl2 & P2 & N2) & E1 & E2 & E3);
    rewrite ?upd_rel_eq; try done; [by rewrite Hl1|by eapply head_ok_mono|by destruct Wn|by left|..].
  { intros _. unfold next_field, r1. simpl. rewrite Z.eqb_refl. done. }
  rewrite upd_rel_eq in Hl2, P2, N2. destruct (N2 _ HbN) as (bn2 & HbN2 & B1 & B2 & B3 & B4).
  assert (next_field x r1 = 4%nat) as Ef1 by (unfold next_field, r1; simpl; by rewrite Z.eqb_refl).
  rewrite Ef1 in B3, B4. rewrite upd_rel_twice in Hs2.
  assert (exists by', <[x := set_head k bx (raddress k N)]> nbs !! y = Some by') as [by' Hy'].
  { apply lookup_lt_is_Some_2. by rewrite length_insert. }
  assert (is_u32 (raddress k N)) as UN
    by (unfold is_u32, raddress in *; pose proof (BLOCK_SIZE_pos k); nia).
  assert (Forall node_wf (<[x := set_head k bx (raddress k N)]> nbs)) as Hwf2.
  { apply Forall_insert; [done|]. apply node_wf_set_head; [|done|apply raddress_mod].
    by eapply Forall_lookup_1 in Hwf. }
  assert (address (source r2) = naddress x /\ address (destination r2) = naddress y) as [A1 A2].
  { rewrite E2, E3. done. }
  assert (next_field y r2 = if (y =? x)%nat then 4%nat else 8%nat) as Ef2.
  { unfold next_field. rewrite A1, naddress_eqb. done. }
  pose proof (handle_addr _ _ E1) as Er2.
  destruct (updateRelation_run s2 _ (upd_rel k bs2 rbs) k y by' dst (node_head k by0) r2 N bn2
    Hs2 Hwf2)
    as (s3 & bs3 & r3 & n3 & R3 & Hs3 & L3 & (Hl3 & P3 & N3) & F1 & F2 & F3);
    rewrite ?upd_rel_eq, ?length_insert; try done;
    [by rewrite Hl2, Hl1| |by destruct Wn; congruence|by right|..].
  { eapply head_ok_mono; [exact P2|lia|]. by eapply head_ok_mono. }
  { rewrite Ef2. intros H0. destruct (Nat.eqb_spec y x) as [->|Hne].
    - rewrite B3. congruence.
    - by rewrite B4. }
  rewrite upd_rel_eq in Hl3, P3, N3. rewrite Ef2 in N3.
  destruct (N3 _ HbN2) as (bn3 & HbN3 & C1 & C2 & C3 & C4). rewrite upd_rel_twice in Hs3.
  exists s3, r3. do 2 eexists. split_and!; [..|exact Hs3| | | | | | | |].
  - unfold relate. erewrite bind_Ret; [|exact R1]. cbn beta iota.
    erewrite bind_Ret; [|exact R2]. cbn beta iota.
    erewrite bind_Ret; [|exact R3]. reflexivity.
  - by rewrite (handle_addr _ _ F1), (handle_addr _ _ E1).
  - etransitivity; [exact L1|]. by etransitivity.
  - assert (rf 2 bn3 = rf 2 bn2 /\ rf 3 bn3 = rf 3 bn2) as [D2 D3].
    { split; apply C4; by case_match. }
    eapply (graph_ok_extend k nbs rbs G x y bx by' bs3 bn3 N); try done.
    + by rewrite Hl3, Hl2.
    + etransitivity; [exact P1|]. by etransitivity.
    + destruct Wn as (W1 & W2 & W3 & W4 & W5 & W6). unfold rel_wf.
      rewrite C1, C2, D2, D3, B1, B2, !B4 by lia. done.
    + rewrite Vx. destruct (Nat.eqb_spec y x) as [->|Hne]; [congruence|].
      rewrite C4 by done. by rewrite B3.
    + intros Hne. rewrite Vy. revert C3. destruct (Nat.eqb_spec y x); congruence.
  - by rewrite !length_insert.
  - intros z b Hz. destruct (two_heads k nbs x y bx by' (raddress k N) z b) as (b' & Hb' & Hsm & _);
      try done. by exists b'.
  - by rewrite F1, E1.
  - intros k' Hk'. by rewrite upd_rel_ne.
  - rewrite upd_rel_eq. etransitivity; [exact P1|]. by etransitivity.
  - rewrite upd_rel_eq. intros j b Hj Hj0. destruct (decide (j = N)) as [->|Hne].
    + simplify_eq. pose proof (new_block_links k src dst) as [X1 X2].
      split; [|intros ->]; rewrite C4, B4 by (done || by case_match); auto.
    + assert (bs1 !! j = Some (replicate (rsize k) nul)) as H1.
      { pose proof (lookup_lt_Some _ _ _ Hj). apply hole_lookup; [done|congruence|]. fold bs1. lia. }
      destruct (P2 j _ Hne H1) as (b2 & H2 & _ & _ & Q2). destruct (P3 j _ Hne H2) as (b3 & H3 & _ & _ & Q3).
      simplify_eq. rewrite !Q3, !Q2 by done. by apply zero_fields.
Qed.
End add.

(** ** Walking the lists *)

Definition other x (e : nat * nat) : nat := if (e.1 =? x)%nat then e.2 else e.1.

(** The newest edge between [x] and [w]. *)
Fixpoint find_edge x (w : nat) (E : edges) : option nat :=
  match E with
  | [] => None
  | e :: E' => if touches x e && (other x e =? w)%nat then Some (S (length E')) else find_edge x w E'
  end.

Lemma find_edge_neighbours x w E : is_Some (find_edge x w E) <-> w ∈ neighbours x E.
Proof.
  induction E as [|e E IH]; simpl.
  - split; [by intros []|by intros ?%not_elem_of_nil].
  - destruct (touches x e); simpl; [|done]. fold (other x e).
    destruct (Nat.eqb_spec (other x e) w) as [->|Hne].
    + split; intros _; [left|by eauto].
    + rewrite IH, elem_of_cons. split; [by right|by intros [Hw|?]; [congruence|]].
Qed.

Section walks.
Context (s0 : store) (nbs : list (list ascii)) (rbs : kind -> list (list ascii))
        (G : kind -> edges) (k : kind).
Context (Hg : graph_ok nbs rbs G).

Lemma getRelation_null s : getRelation k 0 s = (Ret None, s).
Proof. done. Qed.

(** Loading the first edge of a non-empty list. *)
Lemma load_edge s x a e E :
  files s nbs rbs -> edges_stored k (length nbs) (rbs k) (e :: E) -> touches x e = true ->
  (S (length E) <= length (G k))%nat ->
  rchain k (rbs k) x a (incident x (e :: E)) ->
  exists s' b, getRelation k a s = (Ret (Some (rel_at k nbs (S (length E)) b e.1 e.2)), s') /\
    files s' nbs rbs /\ same_links s s' /\ rel_wf k (length nbs) b e.1 e.2 /\
    rchain k (rbs k) x (cont x b) (incident x E).
Proof.
  intros Hs Hst Ht Hlen Hc. simpl in Hc. rewrite Ht in Hc.
  inversion Hc as [|i b l Hi Hb _ Hc' Ea El]; subst.
  destruct (Hst [] e E eq_refl) as (b' & Hb' & Hwf). assert (b' = b) as -> by congruence.
  destruct Hg as (Hnw & _ & Hk). destruct (Hk k) as (Hl & Hroom & _).
  destruct (getRelation_run s nbs rbs k (S (length E)) b e.1 e.2) as (s' & R & Hs' & L);
    [done..| |].
  { pose proof (BLOCK_SIZE_pos k). unfold is_u32, raddress in *.
    destruct (G k); simpl in *; [lia|]. nia. }
  exists s', b. done.
Qed.

Lemma edges_stored_tail n bs e E : edges_stored k n bs (e :: E) -> edges_stored k n bs E.
Proof. intros Hst E1 e' E2 ->. by apply (Hst (e :: E1)). Qed.

Lemma touches_cases x e :
  touches x e = true -> (e.1 =? x)%nat = true \/ ((e.1 =? x)%nat = false /\ e.2 = x).
Proof.
  unfold touches. intros H. destruct (e.1 =? x)%nat; [by left|]. right.
  split; [done|]. by apply Nat.eqb_eq.
Qed.

Lemma edge_nodes_run x n E fuel s a :
  files s nbs rbs -> addr n = naddress x -> edges_stored k (length nbs) (rbs k) E ->
  (length E <= length (G k))%nat -> rchain k (rbs k) x a (incident x E) ->
  (length (incident x E) <= fuel)%nat ->
  exists s' L, (o ← getRelation k a; edge_nodes_loop fuel k n o) s = (Ret L, s') /\
    files s' nbs rbs /\ same_links s s' /\
    fst <$> L = node_lookup nbs <$> neighbours x E /\
    (raddr ∘ snd) <$> L = raddress k <$> incident x E.
Proof.
  revert fuel s a. induction E as [|e E IH]; intros fuel s a Hs Hn Hst Hlen Hc Hf.
  - inversion Hc; subst. exists s, []. split_and!; try done. by destruct fuel.
  - apply edges_stored_tail in Hst as Hst'. destruct (touches x e) eqn:Ht.
    2: { simpl in *. rewrite Ht in *. apply IH; [done..|lia|done|done]. }
    destruct (load_edge s x a e E Hs Hst Ht Hlen Hc) as (s1 & b & R1 & Hs1 & L1 & Hwf & Hc').
    simpl in Hf. rewrite Ht in Hf. simpl in Hf. destruct fuel as [|fuel]; [lia|].
    pose proof Hwf as (_ & _ & H2 & H3 & Hu & Hv). pose proof Hg as (Hnw & _ & _).
    assert (other x e < length nbs)%nat as Ho by (unfold other; by case_match).
    destruct (node_lookup_run s1 nbs rbs (other x e) Hs1 Hnw Ho) as (s2 & R2 & Hs2 & L2).
    destruct (IH fuel s2 (cont x b) Hs2 Hn Hst' ltac:(simpl in Hlen; lia) Hc' ltac:(lia))
      as (s3 & L & R3 & Hs3 & L3 & Hfst & Hsnd).
    apply bind_Ret_inv in R3 as (o & s2' & R3a & R3b).
    exists s3, ((node_lookup nbs (other x e), rel_at k nbs (S (length E)) b e.1 e.2) :: L).
    split_and!; [|done| | |].
    + erewrite bind_Ret; [|exact R1]. cbn [edge_nodes_loop].
      cbn [rel_at source destination src_of dst_of side_of address].
      rewrite H2, H3, Hn, !naddress_eqb. unfold other in R2. unfold cont in R3a.
      rewrite H2, naddress_eqb in R3a.
      destruct (touches_cases x e Ht) as [E1|[E1 E2]]; rewrite E1 in *.
      * erewrite bind_Ret; [|exact R2]. erewrite bind_Ret; [|exact R3a].
        erewrite bind_Ret; [|exact R3b]. unfold other. by rewrite E1.
      * rewrite E2, Nat.eqb_refl. erewrite bind_Ret; [|exact R2].
        erewrite bind_Ret; [|exact R3a]. erewrite bind_Ret; [|exact R3b].
        unfold other. by rewrite E1.
    + etransitivity; [exact L1|]. by etransitivity.
    + cbn [neighbours]. rewrite Ht. fold (other x e). cbn. f_equal. exact Hfst.
    + cbn [incident]. rewrite Ht. cbn. f_equal. exact Hsnd.
Qed.

Lemma search_run x n w E fuel s a :
  files s nbs rbs -> addr n = naddress x -> edges_stored k (length nbs) (rbs k) E ->
  (length E <= length (G k))%nat -> rchain k (rbs k) x a (incident x E) ->
  (length (incident x E) <= fuel)%nat ->
  exists s' o, (c ← getRelation k a; search_loop fuel k n c (naddress w)) s = (Ret o, s') /\
    files s' nbs rbs /\ same_links s s' /\ raddr <$> o = raddress k <$> find_edge x w E.
Proof.
  revert fuel s a. induction E as [|e E IH]; intros fuel s a Hs Hn Hst Hlen Hc Hf.
  - inversion Hc; subst. exists s, None. split_and!; try done. by destruct fuel.
  - apply edges_stored_tail in Hst as Hst'. destruct (touches x e) eqn:Ht.
    2: { simpl in *. rewrite Ht in *. apply IH; [done..|lia|done|done]. }
    destruct (load_edge s x a e E Hs Hst Ht Hlen Hc) as (s1 & b & R1 & Hs1 & L1 & Hwf & Hc').
    simpl in Hf. rewrite Ht in Hf. simpl in Hf. destruct fuel as [|fuel]; [lia|].
    pose proof Hwf as (_ & _ & H2 & H3 & Hu & Hv). simpl find_edge. rewrite Ht. cbn [andb].
    destruct (Nat.eqb_spec (other x e) w) as [Hw|Hw].
    + exists s1, (Some (rel_at k nbs (S (length E)) b e.1 e.2)). split_and!; try done.
      erewrite bind_Ret; [|exact R1]. cbn [search_loop].
      cbn [rel_at source destination src_of dst_of side_of address].
      rewrite H2, H3, Hn, !naddress_eqb. unfold other in Hw.
      destruct (touches_cases x e Ht) as [E1|[E1 E2]]; rewrite E1 in *; subst w.
      * by rewrite Nat.eqb_refl.
      * rewrite E2. cbn [negb isDirected andb]. by rewrite !Nat.eqb_refl.
    + destruct (IH fuel s1 (cont x b) Hs1 Hn Hst' ltac:(simpl in Hlen; lia) Hc' ltac:(lia))
        as (s3 & o & R3 & Hs3 & L3 & Ho).
      exists s3, o. split_and!; [|done|by etransitivity|done].
      erewrite bind_Ret; [|exact R1]. cbn [search_loop].
      cbn [rel_at source destination src_of dst_of side_of address].
      rewrite H2, H3, Hn, !naddress_eqb. unfold other in Hw. unfold cont in R3.
      rewrite H2, naddress_eqb in R3. apply Nat.eqb_neq in Hw.
      destruct (touches_cases x e Ht) as [E1|[E1 E2]]; rewrite E1 in *.
      * rewrite Hw. exact R3.
      * rewrite E2. cbn [negb isDirected andb]. rewrite Nat.eqb_refl, Hw. exact R3.
Qed.
End walks.
