(* ===== verification/ManagerTheory.v ===== *)
(** * ManagerTheory: the store refines an abstract graph

    The contract of a partition, independent of its files: a list of vertex
    ids, for local and central edges the list of edges, newest first, and the
    labels that vertices were given.
    [repr] relates a [NodeManager] state to such a graph; every operation of
    NodeManager that succeeds is shown to act on the graph as its
    specification says, and the traversals to answer from it. *)
From Stdlib Require Import ZArith Ascii String Lia.
From stdpp Require Import base tactics numbers list strings gmap.
From S2P Require Import Prelude FStream PropertyLinks NodeBlock RelationBlock NodeRelations.
From S2P Require Import NodeManager GraphFiles GraphTheory.

(** ** The abstract graph *)

Record graph := mkGraph {
  vertices : list string;
  gedges : kind -> list (string * string);
  glabels : gmap string string
}.

Definition empty_graph : graph := mkGraph [] (fun _ => []) ∅.

(** A vertex has its id as its label until it gets another one. *)
Definition label_of (g : graph) (s : string) : string := default s (glabels g !! s).

Definition add_vertex (s : string) (g : graph) : graph :=
  if decide (s ∈ vertices g) then g else mkGraph (vertices g ++ [s]) (gedges g) (glabels g).

(** A new edge between known vertices. *)
Definition link_edge (k : kind) (e : string * string) (g : graph) : graph :=
  mkGraph (vertices g) (fun k' => if decide (k = k') then e :: gedges g k' else gedges g k') (glabels g).

Definition add_edge (k : kind) (e : string * string) (g : graph) : graph :=
  link_edge k e (add_vertex e.2 (add_vertex e.1 g)).

(** The ends opposite to [s], newest edge first; a loop counts once. *)
Fixpoint adjacent (s : string) (E : list (string * string)) : list string :=
  match E with
  | [] => []
  | e :: E' =>
      if decide (e.1 = s) then e.2 :: adjacent s E'
      else if decide (e.2 = s) then e.1 :: adjacent s E'
      else adjacent s E'
  end.

(** ** Vertex numbers *)

Fixpoint vnum (vs : list string) (s : string) : nat :=
  match vs with
  | [] => 0
  | v :: vs' => if decide (v = s) then 0 else S (vnum vs' s)
  end.

Definition number (vs : list string) (e : string * string) : nat * nat := (vnum vs e.1, vnum vs e.2).

Lemma vnum_lookup vs s : s ∈ vs -> vs !! vnum vs s = Some s.
Proof.
  induction vs as [|v vs IH]; [by intros ?%not_elem_of_nil|]. simpl. case_decide as Hv; [by subst|].
  intros [->|Hs]%elem_of_cons; [done|]. simpl. by apply IH.
Qed.

Lemma vnum_lt vs s : s ∈ vs -> (vnum vs s < length vs)%nat.
Proof. intros Hs%vnum_lookup. by eapply lookup_lt_Some. Qed.

Lemma vnum_fresh vs s : s ∉ vs -> vnum vs s = length vs.
Proof.
  induction vs as [|v vs IH]; [done|]. rewrite not_elem_of_cons. intros [H1 H2]. simpl.
  rewrite decide_False by done. by rewrite IH.
Qed.

Lemma vnum_app vs ws s : s ∈ vs -> vnum (vs ++ ws) s = vnum vs s.
Proof.
  induction vs as [|v vs IH]; [by intros ?%not_elem_of_nil|]. simpl. case_decide; [done|].
  intros [->|Hs]%elem_of_cons; [done|]. by rewrite IH.
Qed.

Lemma vnum_inj vs s t : s ∈ vs -> t ∈ vs -> vnum vs s = vnum vs t -> s = t.
Proof. intros Hs%vnum_lookup Ht%vnum_lookup E. congruence. Qed.

Lemma vnum_NoDup vs i s : NoDup vs -> vs !! i = Some s -> vnum vs s = i.
Proof.
  intros Hnd Hi. eapply (NoDup_lookup vs); [done| |exact Hi].
  apply vnum_lookup. by eapply list_elem_of_lookup_2.
Qed.

Lemma NoDup_snoc vs (s : string) : NoDup vs -> s ∉ vs -> NoDup (vs ++ [s]).
Proof.
  intros Hnd Hs. apply NoDup_app. split_and!; [done| |apply NoDup_singleton].
  intros t Ht ->%list_elem_of_singleton. done.
Qed.

Lemma elem_of_snoc vs (s t : string) : t ∈ vs ++ [s] <-> t ∈ vs \/ t = s.
Proof. by rewrite elem_of_app, list_elem_of_singleton. Qed.

Definition edges_in (vs : list string) (E : list (string * string)) : Prop :=
  Forall (fun e => e.1 ∈ vs /\ e.2 ∈ vs) E.

Lemma number_app vs ws E : edges_in vs E -> number (vs ++ ws) <$> E = number vs <$> E.
Proof.
  induction 1 as [|e E [H1 H2] _ IH]; [done|]. cbn. f_equal; [|exact IH].
  unfold number. by rewrite !vnum_app.
Qed.

Lemma edges_in_app vs ws E : edges_in vs E -> edges_in (vs ++ ws) E.
Proof.
  intros HE. eapply Forall_impl; [exact HE|]. intros e []. split; by apply elem_of_app; left.
Qed.

Lemma adjacent_in vs s E : edges_in vs E -> Forall (.∈ vs) (adjacent s E).
Proof. induction 1 as [|e E [H1 H2] _ IH]; simpl; [done|]. repeat case_decide; by auto. Qed.

Lemma vnum_eqb vs s t : s ∈ vs -> t ∈ vs -> (vnum vs s =? vnum vs t)%nat = bool_decide (s = t).
Proof.
  intros Hs Ht. case_bool_decide as E; [subst; apply Nat.eqb_refl|].
  apply Nat.eqb_neq. by intros ?%vnum_inj.
Qed.

(** The numbered graph has the neighbours of the abstract one. *)
Lemma neighbours_adjacent vs s E :
  edges_in vs E -> s ∈ vs ->
  neighbours (vnum vs s) (number vs <$> E) = vnum vs <$> adjacent s E.
Proof.
  intros HE Hs. induction HE as [|e E [H1 H2] _ IH]; [done|].
  cbn. unfold touches. cbn. rewrite !vnum_eqb by done.
  case_bool_decide as E1; cbn.
  - rewrite decide_True by done. cbn. f_equal. exact IH.
  - rewrite decide_False by done. case_bool_decide as E2; cbn.
    + rewrite decide_True by done. cbn. f_equal. exact IH.
    + rewrite decide_False by done. exact IH.
Qed.

Lemma gedges_add_vertex s g : gedges (add_vertex s g) = gedges g.
Proof. unfold add_vertex. by case_decide. Qed.

Lemma elem_of_add_vertex s g : s ∈ vertices (add_vertex s g).
Proof. unfold add_vertex. case_decide; [done|]. apply elem_of_snoc. by right. Qed.

Lemma length_add_vertex s g : (length (vertices g) <= length (vertices (add_vertex s g)))%nat.
Proof. unfold add_vertex. case_decide; [done|]. cbn. rewrite length_app. lia. Qed.

Lemma vnum_add_vertex s t g :
  t ∈ vertices g ->
  t ∈ vertices (add_vertex s g) /\ vnum (vertices (add_vertex s g)) t = vnum (vertices g) t.
Proof.
  intros Ht. unfold add_vertex. case_decide; [done|]. cbn. split.
  - apply elem_of_snoc. by left.
  - by apply vnum_app.
Qed.

(** ** Saving a vertex *)

Definition node_block (n : NodeBlock) : list ascii := concat (node_fields n).

Lemma length_strncpy_buf n l : length (strncpy_buf n l) = n.
Proof. apply length_resize. Qed.

Lemma length_node_block n : length (label n) = LABEL_SIZE -> length (node_block n) = 140%nat.
Proof. intros Hl. unfold node_block, node_fields. cbn. by rewrite length_app, Hl. Qed.

Lemma node_block_fields n :
  length (label n) = LABEL_SIZE -> is_u32 (nodeId n) -> is_u32 (edgeRef n) ->
  is_u32 (centralEdgeRef n) -> is_u32 (propRef n) -> is_u32 (metaPropRef n) ->
  nf_id (node_block n) = nodeId n /\ node_head Local (node_block n) = edgeRef n /\
  node_head Central (node_block n) = centralEdgeRef n /\
  nf32 14 (node_block n) = propRef n /\ nf32 18 (node_block n) = metaPropRef n /\
  nf_label (node_block n) = label n /\ read_data (node_block n) 0 1 = [usage n] /\
  read_data (node_block n) 13 1 = [edgeRefPID n].
Proof.
  intros Hl H1 H2 H3 H4 H5.
  unfold node_head, nf_id, nf32, nf_label, read_data, node_block, node_fields.
  cbn -[dec32 take enc32 LABEL_SIZE]. split_and!.
  1-5: by rewrite <- dec32_enc32.
  - cbn -[LABEL_SIZE take]. rewrite app_nil_r. apply take_ge. by rewrite Hl.
  - done.
  - done.
Qed.

(** Writing a block behind the last one. *)
Lemma save_fields_run s nbs rbs n :
  files s nbs rbs -> addr n = naddress (length nbs) -> length (label n) = LABEL_SIZE ->
  exists s', (on_nodes (seek (addr n));; on_nodes (write_seq (node_fields n))) s = (Ret true, s') /\
    files s' (nbs ++ [node_block n]) rbs /\ same_links s s'.
Proof.
  intros Hs Ha Hl. pose proof Hs as [[Hf Hd] _]. pose proof (good_run _ _ _ (conj Hf Hd)) as E.
  eexists. split; [|split].
  - erewrite bind_Ret; [|apply on_nodes_run; rewrite E; apply seek_run].
    apply on_nodes_run. cbn [nodesDB set_nodesDB]. apply write_seq_run; [done|].
    rewrite Ha. unfold naddress, NODE_BLOCK_SIZE. lia.
  - change (set_nodesDB ?f (set_nodesDB _ s)) with (set_nodesDB f s).
    eapply files_nodes; [exact Hs|]. rewrite Ha.
    replace (Z.to_nat (naddress (length nbs))) with (length nbs * 140)%nat
      by (unfold naddress, NODE_BLOCK_SIZE; lia).
    apply append_block; [done|]. by apply length_node_block.
  - done.
Qed.

(** ** A new vertex *)

#[export] Instance graph_ok_proper nbs rbs :
  Proper (pointwise_relation kind (=) ==> iff) (graph_ok nbs rbs).
Proof.
  intros G1 G2 HG. assert (forall k, G1 k = G2 k) as E by done.
  split; intros (H1 & H2 & H3); (split; [done|split; [done|]]); intros k;
    [rewrite <- E|rewrite E]; apply H3.
Qed.

Lemma edges_stored_fresh k n bs E : edges_stored k n bs E -> incident n E = [].
Proof.
  induction E as [|e E IH]; intros Hst; [done|]. apply edges_stored_tail in Hst as Hst'.
  destruct (Hst [] e E eq_refl) as (b & _ & _ & _ & _ & _ & H1 & H2). simpl.
  unfold touches. destruct (Nat.eqb_spec (e.1) n), (Nat.eqb_spec (e.2) n); try lia. by apply IH.
Qed.

Lemma edges_stored_mono k n m bs E :
  (n <= m)%nat -> edges_stored k n bs E -> edges_stored k m bs E.
Proof.
  intros Hn Hst E1 e E2 HE. destruct (Hst E1 e E2 HE) as (b & Hb & H1 & H2 & H3 & H4 & H5 & H6).
  exists b. unfold rel_wf. split_and!; try done; lia.
Qed.

Lemma graph_ok_vertex nbs rbs G b :
  graph_ok nbs rbs G -> node_wf b -> (forall k, node_head k b = 0) ->
  naddress (S (length nbs)) <= 4294967296 -> graph_ok (nbs ++ [b]) rbs G.
Proof.
  intros (Hwf & Hroom & Hk) Hb H0 Hn. split_and!.
  - apply Forall_app. split; [done|]. by constructor.
  - rewrite length_app, Nat.add_comm. exact Hn.
  - intros k. destruct (Hk k) as (Hl & Hr & Hst & Hch). split_and!; try done.
    + eapply edges_stored_mono; [|exact Hst]. rewrite length_app. lia.
    + intros x c Hx. apply lookup_app_Some in Hx as [Hx|[Hge Hx]]; [by apply Hch|].
      destruct (x - length nbs)%nat eqn:Ex; [|by destruct n]. simplify_eq/=.
      assert (x = length nbs) as -> by lia. rewrite H0, (edges_stored_fresh _ _ _ _ Hst). constructor.
Qed.

(** ** Representation *)

(** Ids the store handles: numbers that fit the index key and the label. *)
Definition id_ok (keysz : nat) (s : string) : Prop :=
  no_nul s /\ (length (chars s) < keysz)%nat /\ (length (chars s) < LABEL_SIZE)%nat /\
  exists v, stoul s = inr v.

(** Labels that fit the field of a block. *)
Definition label_ok (l : string) : Prop :=
  no_nul l /\ (0 < length (chars l) < LABEL_SIZE)%nat.

(** The block of vertex [s] with label [l]. *)
Definition vertex_block (s l : string) (b : list ascii) : Prop :=
  (exists v, stoul s = inr v /\ nf_id b = u32 v) /\
  nf_label b = strncpy_buf LABEL_SIZE (chars l) /\ read_data b 0 1 = [flag true].

Definition index_entries (vs : list string) : list (string * Z) :=
  imap (fun i s => (s, Z.of_nat i)) vs.

Definition numbered (g : graph) : kind -> edges := fun k => number (vertices g) <$> gedges g k.

Record stored (m : manager) (g : graph) (nbs : list (list ascii))
    (rbs : kind -> list (list ascii)) : Prop := {
  st_files : files (dbs m) nbs rbs;
  st_graph : graph_ok nbs rbs (numbered g);
  st_blocks : Forall2 (fun s => vertex_block s (label_of g s)) (vertices g) nbs;
  st_next : nextNodeIndex m = Z.of_nat (length (vertices g));
  st_index : forall s, nodeIndex m !! s =
    if decide (s ∈ vertices g) then Some (Z.of_nat (vnum (vertices g) s)) else None;
  st_order : exists order, order ≡ₚ index_entries (vertices g) /\
    indexDB m = node_index_file (INDEX_KEY_SIZE m) order;
  st_nodup : NoDup (vertices g);
  st_ids : Forall (id_ok (INDEX_KEY_SIZE m)) (vertices g);
  st_edges : forall k, edges_in (vertices g) (gedges g k);
  st_labels : forall s l, glabels g !! s = Some l -> s ∈ vertices g /\ label_ok l
}.

(** The state of [m], at rest, is the graph [g]. *)
Definition repr (m : manager) (g : graph) : Prop :=
  lockEdgeAdd m = false /\ exists nbs rbs, stored m g nbs rbs.

(** What no graph operation touches. *)
Definition frame (m m' : manager) : Prop :=
  graphID m' = graphID m /\ partitionID m' = partitionID m /\
  INDEX_KEY_SIZE m' = INDEX_KEY_SIZE m /\ edgeIndexDB m' = edgeIndexDB m /\
  edgeIndex m' = edgeIndex m /\ same_links (dbs m) (dbs m').

#[export] Instance frame_refl : Reflexive frame.
Proof. by intros m. Qed.
#[export] Instance frame_trans : Transitive frame.
Proof.
  intros m1 m2 m3 (?&?&?&?&?&L1) (?&?&?&?&?&L2). unfold frame.
  split_and!; try congruence. by etransitivity.
Qed.

(** The 32-bit block addresses that the graph needs exist. *)
Definition fits (g : graph) : Prop :=
  naddress (length (vertices g)) <= 4294967296 /\
  forall k, raddress k (S (length (gedges g k))) <= 4294967296.

(** Reading only moves file positions. *)
Lemma stored_dbs m g nbs rbs s' :
  stored m g nbs rbs -> files s' nbs rbs -> stored (set_dbs s' m) g nbs rbs.
Proof. intros [] Hs'. by constructor. Qed.

Lemma stored_lock m g nbs rbs b : stored m g nbs rbs -> stored (set_lock b m) g nbs rbs.
Proof. intros []. by constructor. Qed.

Lemma stored_edge_count m g nbs rbs n :
  stored m g nbs rbs -> stored (set_nextEdgeIndex n m) g nbs rbs.
Proof. intros []. by constructor. Qed.

Lemma stored_block m g nbs rbs s :
  stored m g nbs rbs -> s ∈ vertices g ->
  exists b, nbs !! vnum (vertices g) s = Some b /\ vertex_block s (label_of g s) b /\ node_wf b.
Proof.
  intros Hm Hs. destruct Hm. pose proof (vnum_lookup _ _ Hs) as Hi.
  destruct (Forall2_lookup_l _ _ _ _ _ st_blocks0 Hi) as (b & Hb & Hv). exists b. split_and!; try done.
  destruct st_graph0 as (Hwf & _). by eapply Forall_lookup_1 in Hwf.
Qed.

Lemma label_of_add s g t : label_of (add_vertex s g) t = label_of g t.
Proof. unfold add_vertex. by case_decide. Qed.

(** Every label fits. *)
Lemma label_of_ok m g nbs rbs s :
  stored m g nbs rbs -> s ∈ vertices g -> no_nul (label_of g s) /\ (length (chars (label_of g s)) < LABEL_SIZE)%nat.
Proof.
  intros Hm Hs. unfold label_of. destruct (glabels g !! s) as [l|] eqn:E; cbn.
  - by apply (st_labels _ _ _ _ Hm) in E as (_ & ? & _ & ?).
  - by destruct (proj1 (Forall_forall _ _) (st_ids _ _ _ _ Hm) s Hs) as (? & _ & ? & _).
Qed.

(** [NodeManager::get] by block index: the object of the stored block. *)
Lemma getByIndex_run s nbs rbs x b nid :
  files s nbs rbs -> nbs !! x = Some b -> nul ∈ nf_label b -> naddress x < 4294967296 ->
  exists s', getByIndex (Z.of_nat x) nid s = (Ret (node_with nid (naddress x) b), s') /\
    files s' nbs rbs /\ same_links s s'.
Proof.
  intros Hs Hx Hnul Hu. destruct (node_fields_run _ _ _ _ _ Hs Hx) as [p Hrun].
  apply bind_Ret_inv in Hrun as ([] & s1 & Hseek & Hread).
  eexists. split; [|split; [eapply files_nodes; [exact Hs|by destruct Hs as [[_ ?] _]]|done]].
  unfold getByIndex. change (Z.of_nat x * NODE_BLOCK_SIZE) with (naddress x).
  rewrite u32_id by (unfold is_u32, naddress, NODE_BLOCK_SIZE in *; lia).
  erewrite bind_Ret; [|exact Hseek]. erewrite bind_Ret; [|exact Hread].
  cbn beta iota. rewrite cstring_label by done. by erewrite bind_Ret.
Qed.

Lemma stored_bound m g nbs rbs s :
  stored m g nbs rbs -> s ∈ vertices g -> naddress (S (vnum (vertices g) s)) <= 4294967296.
Proof.
  intros Hm Hs%vnum_lt. destruct Hm as [_ (_ & Hr & _) Hb _ _ _ _ _ _ _].
  apply Forall2_length in Hb. unfold naddress, NODE_BLOCK_SIZE in *. lia.
Qed.

Lemma label_short s :
  no_nul s -> (length (chars s) < LABEL_SIZE)%nat ->
  strncpy_buf LABEL_SIZE (chars s) = resize LABEL_SIZE nul (chars s).
Proof.
  intros Hn Hl. unfold strncpy_buf. rewrite until_nul_id by done. rewrite take_ge; [done|].
  unfold LABEL_SIZE in *. lia.
Qed.

Lemma label_until s :
  no_nul s -> (length (chars s) < LABEL_SIZE)%nat ->
  until_nul (strncpy_buf LABEL_SIZE (chars s)) = chars s /\
  nul ∈ strncpy_buf LABEL_SIZE (chars s).
Proof.
  intros Hn Hl. rewrite label_short, resize_pad by done. split; [by apply until_nul_app|set_solver].
Qed.

Lemma stoul_chars_nonempty s v : stoul s = inr v -> chars s <> [].
Proof. intros H E. unfold stoul, c_str in H. by rewrite E in H. Qed.

(** The object a new vertex is saved as. *)
Definition fresh_vertex (s : string) (v : Z) (x : nat) : NodeBlock :=
  with_label (newNodeBlock s (u32 v) (naddress x)) (strncpy_buf LABEL_SIZE (chars s)).

Lemma fresh_vertex_block keysz s v x :
  id_ok keysz s -> stoul s = inr v ->
  let b := node_block (fresh_vertex s v x) in
  vertex_block s s b /\ node_wf b /\ (forall k, node_head k b = 0) /\
  node_with s (naddress x) b = fresh_vertex s v x.
Proof.
  intros (Hnn & _ & Hl & _) Hv b.
  assert (is_u32 0) as H0 by (unfold is_u32; lia).
  destruct (node_block_fields (fresh_vertex s v x)) as (F1 & F2 & F3 & F4 & F5 & F6 & F7 & F8);
    [apply length_strncpy_buf|apply u32_range|done..|]. fold b in F1, F2, F3, F4, F5, F6, F7, F8.
  change (label (fresh_vertex s v x)) with (strncpy_buf LABEL_SIZE (chars s)) in F6.
  destruct (label_until s Hnn Hl) as [U1 U2]. split_and!.
  - split_and!; [by exists v|done|done].
  - split_and!; [apply length_node_block, length_strncpy_buf|by rewrite F6| |].
    2: { change (nf32 5 b) with (node_head Local b). by rewrite F2. }
    rewrite F6, U1. by eapply stoul_chars_nonempty.
  - by intros [].
  - unfold node_with. change (nf32 5 b) with (node_head Local b). change (nf32 9 b) with (node_head Central b).
    rewrite F1, F2, F3, F4, F5, F6, F7, F8, bool_decide_true by done.
    unfold makeNodeBlock. rewrite U1, <- label_short by done. reflexivity.
Qed.

Lemma index_entries_app vs s :
  index_entries (vs ++ [s]) = index_entries vs ++ [(s, Z.of_nat (length vs))].
Proof. unfold index_entries. rewrite imap_app. cbn. by rewrite Nat.add_0_r. Qed.

Lemma node_index_file_app keysz l1 l2 :
  node_index_file keysz (l1 ++ l2) = node_index_file keysz l1 ++ node_index_file keysz l2.
Proof. unfold node_index_file. by rewrite fmap_app, concat_app. Qed.

Lemma addNodeIndex_run m g nbs rbs s :
  stored m g nbs rbs -> id_ok (INDEX_KEY_SIZE m) s -> s ∉ vertices g ->
  let N := length (vertices g) in
  addNodeIndex s (nextNodeIndex m) m =
  (Ret tt, set_indexDB (indexDB m ++ node_index_file (INDEX_KEY_SIZE m) [(s, Z.of_nat N)])
             (set_nodeIndex (<[s := Z.of_nat N]> (nodeIndex m)) m)).
Proof.
  intros [] (Hnn & Hl & _ & _) Hs N. unfold addNodeIndex.
  erewrite bind_Ret; [|reflexivity]. rewrite st_index0, decide_False, st_next0 by done.
  erewrite bind_Ret; [|reflexivity]. cbn [INDEX_KEY_SIZE set_nodeIndex].
  unfold strcpy_buf. rewrite c_str_no_nul by done. rewrite decide_True by done. unfold node_index_file.
  cbn [fmap list_fmap concat fst snd]. rewrite decide_False by lia. by rewrite app_nil_r.
Qed.

Lemma stored_new_vertex m g nbs rbs s v s' :
  stored m g nbs rbs -> id_ok (INDEX_KEY_SIZE m) s -> stoul s = inr v -> s ∉ vertices g ->
  let N := length (vertices g) in
  let b := node_block (fresh_vertex s v N) in
  naddress (S N) <= 4294967296 -> files s' (nbs ++ [b]) rbs ->
  stored (set_dbs s' (set_nextNodeIndex (u32 (Z.of_nat N + 1))
            (set_indexDB (indexDB m ++ node_index_file (INDEX_KEY_SIZE m) [(s, Z.of_nat N)])
             (set_nodeIndex (<[s := Z.of_nat N]> (nodeIndex m)) m))))
    (add_vertex s g) (nbs ++ [b]) rbs.
Proof.
  intros [] Hid Hv Hs N b Hroom Hs'. unfold add_vertex. rewrite decide_False by done.
  destruct (fresh_vertex_block _ s v N Hid Hv) as (B1 & B2 & B3 & _). fold b in B1, B2, B3.
  pose proof (Forall2_length _ _ _ st_blocks0) as HN. constructor; cbn [vertices gedges]; try done.
  - assert (pointwise_relation kind (=) (numbered (mkGraph (vertices g ++ [s]) (gedges g) (glabels g))) (numbered g))
      as -> by (intros k; apply number_app, st_edges0).
    apply graph_ok_vertex; [done..|]. by rewrite <- HN.
  - apply Forall2_app; [done|]. constructor; [|done]. unfold label_of. cbn [glabels].
    destruct (glabels g !! s) eqn:E; [by apply st_labels0 in E as []|done].
  - cbn. rewrite length_app, u32_id; [simpl; fold N; lia|].
    unfold is_u32, naddress, NODE_BLOCK_SIZE in *. lia.
  - intros t. cbn. destruct (decide (t = s)) as [->|Hne].
    + rewrite lookup_insert, decide_True by done.
      rewrite decide_True by (apply elem_of_snoc; by right).
      assert (vnum (vertices g ++ [s]) s = N) as ->; [|done].
      apply vnum_NoDup; [by apply NoDup_snoc|by apply list_lookup_middle].
    + rewrite lookup_insert_ne, st_index0 by done. destruct (decide (t ∈ vertices g)) as [Ht|Ht].
      * rewrite decide_True by (apply elem_of_snoc; by left). by rewrite vnum_app.
      * rewrite decide_False; [done|]. by rewrite elem_of_snoc; intros [].
  - destruct st_order0 as (order & Hp & ->). exists (order ++ [(s, Z.of_nat N)]). cbn. split.
    + rewrite index_entries_app. by apply Permutation_app_tail.
    + by rewrite node_index_file_app.
  - by apply NoDup_snoc.
  - apply Forall_app. split; [done|]. by constructor.
  - intros k. by apply edges_in_app.
  - intros t l Ht. apply st_labels0 in Ht as [? ?]. split; [apply elem_of_snoc; by left|done].
Qed.

Lemma getNode_run m g nbs rbs s :
  stored m g nbs rbs -> s ∈ vertices g ->
  exists m' b, getNode s m = (Ret (Some (node_with s (naddress (vnum (vertices g) s)) b)), m') /\
    nbs !! vnum (vertices g) s = Some b /\ stored m' g nbs rbs /\ frame m m' /\
    nextEdgeIndex m' = nextEdgeIndex m /\ lockEdgeAdd m' = lockEdgeAdd m.
Proof.
  intros Hm Hs. pose proof (stored_bound _ _ _ _ _ Hm Hs) as Hb.
  destruct (stored_block _ _ _ _ _ Hm Hs) as (b & Hx & _ & _ & Hnul & _).
  destruct (getByIndex_run (dbs m) nbs rbs (vnum (vertices g) s) b s) as (s' & R & Hs' & L);
    [by destruct Hm|done..|unfold naddress, NODE_BLOCK_SIZE in *; lia|].
  exists (set_dbs s' m), b. split_and!; try done; [|by apply stored_dbs].
  unfold getNode. erewrite bind_Ret; [|reflexivity]. destruct Hm as [_ _ _ _ Hidx _ _ _ _ _].
  rewrite Hidx, decide_True by done. erewrite bind_Ret; [|apply zoom_run, R]. done.
Qed.

Lemma getNode_absent m g nbs rbs s :
  stored m g nbs rbs -> s ∉ vertices g -> getNode s m = (Ret None, m).
Proof.
  intros [] Hs. unfold getNode. erewrite bind_Ret; [|reflexivity]. by rewrite st_index0, decide_False.
Qed.

(** The blocks behind the old ones have no lists of properties. *)
Definition no_lists_after (nbs nbs' : list (list ascii)) : Prop :=
  forall z b, nbs' !! z = Some b -> nbs !! z = None -> nf32 14 b = 0 /\ nf32 18 b = 0.

Lemma addNode_run m g nbs rbs s :
  stored m g nbs rbs -> id_ok (INDEX_KEY_SIZE m) s ->
  naddress (length (vertices (add_vertex s g))) <= 4294967296 ->
  let x := vnum (vertices (add_vertex s g)) s in
  exists m' nbs' b, addNode s m = (Ret (node_with s (naddress x) b), m') /\
    nbs' !! x = Some b /\ nbs `prefix_of` nbs' /\ no_lists_after nbs nbs' /\
    stored m' (add_vertex s g) nbs' rbs /\ frame m m' /\
    nextEdgeIndex m' = nextEdgeIndex m /\ lockEdgeAdd m' = lockEdgeAdd m.
Proof.
  intros Hm Hid Hroom x. unfold addNode. erewrite bind_Ret; [|reflexivity].
  pose proof (st_index _ _ _ _ Hm s) as Hidx. unfold x, add_vertex in *. clear x.
  destruct (decide (s ∈ vertices g)) as [Hs|Hs]; rewrite Hidx.
  - destruct (getNode_run _ _ _ _ _ Hm Hs) as (m' & b & R & Hb & Hm' & F & E1 & E2).
    exists m', nbs, b. split_and!; try done; [by erewrite bind_Ret; [|exact R]|].
    intros z bz Hz Hz'. congruence.
  - cbn [vertices] in *. set (N := length (vertices g)) in *.
    assert (vnum (vertices g ++ [s]) s = N) as Hx.
    { apply vnum_NoDup; [apply NoDup_snoc; [by destruct Hm|done]|by apply list_lookup_middle]. }
    rewrite Hx. rewrite length_app in Hroom. pose proof Hid as (_ & _ & Hlen & v & Hv).
    destruct (fresh_vertex_block _ s v N Hid Hv) as (_ & _ & _ & Eb).
    pose proof (Forall2_length _ _ _ (st_blocks _ _ _ _ Hm)) as HN.
    destruct (save_fields_run (dbs m) nbs rbs (fresh_vertex s v N)) as (s' & R & Hs' & L);
      [by destruct Hm|by rewrite <- HN|apply length_strncpy_buf|].
    exists (set_dbs s' (set_nextNodeIndex (u32 (Z.of_nat N + 1))
            (set_indexDB (indexDB m ++ node_index_file (INDEX_KEY_SIZE m) [(s, Z.of_nat N)])
             (set_nodeIndex (<[s := Z.of_nat N]> (nodeIndex m)) m)))).
    exists (nbs ++ [node_block (fresh_vertex s v N)]), (node_block (fresh_vertex s v N)).
    split_and!; try done.
    + rewrite Eb. unfold stoul_exn. rewrite Hv. erewrite bind_Ret; [|reflexivity].
      erewrite bind_Ret; [|reflexivity]. cbn beta zeta.
      erewrite bind_Ret; [|by eapply addNodeIndex_run]. erewrite bind_Ret; [|reflexivity].
      change (nextNodeIndex (set_indexDB _ _)) with (nextNodeIndex m).
      rewrite (st_next _ _ _ _ Hm). fold N. cbn beta zeta.
      change (Z.of_nat N * NODE_BLOCK_SIZE) with (naddress N).
      rewrite (u32_id (naddress N)) by (unfold is_u32, naddress, NODE_BLOCK_SIZE in *; lia).
      apply zoom_run. unfold save. cbn [id newNodeBlock setLabel with_label].
      rewrite bool_decide_true by done. cbn zeta.
      apply bind_Ret_inv in R as ([] & s1 & R1 & R2).
      erewrite bind_Ret; [|exact R1]. erewrite bind_Ret; [|exact R2]. done.
    + by apply list_lookup_middle.
    + by apply prefix_app_r.
    + intros z bz Hz Hz'. apply lookup_ge_None in Hz'.
      rewrite lookup_app_r in Hz by done. apply list_lookup_singleton_Some in Hz as [_ <-].
      change (nf32 14 ?b) with (propRef (node_with s (naddress N) b)).
      change (nf32 18 ?b) with (metaPropRef (node_with s (naddress N) b)). by rewrite Eb.
    + pose proof (stored_new_vertex m g nbs rbs s v s' Hm Hid Hv Hs) as Hst.
      unfold add_vertex in Hst. rewrite decide_False in Hst by done. apply Hst; [|done]. fold N.
      rewrite Nat.add_comm in Hroom. exact Hroom.
Qed.

(** Adding a vertex with an admissible id: a known id only loads the stored
    vertex, a new one appends a block; the object carries the id, the number
    parsed from it, the label and the address of its block. *)
Theorem addNode_refines m g s :
  repr m g -> id_ok (INDEX_KEY_SIZE m) s ->
  naddress (length (vertices (add_vertex s g))) <= 4294967296 ->
  exists m' n, addNode s m = (Ret n, m') /\ repr m' (add_vertex s g) /\
    id n = s /\ inr (nodeId n) = sum_map (fun e : exn => e) u32 (stoul s) /\
    cstring (label n) = Some (label_of g s) /\ isInUse n = true /\
    addr n = naddress (vnum (vertices (add_vertex s g)) s) /\ frame m m'.
Proof.
  intros [Hl (nbs & rbs & Hm)] Hid Hroom.
  destruct (addNode_run m g nbs rbs s Hm Hid Hroom) as (m' & nbs' & b & R & B & _ & _ & S & F & _ & L).
  destruct (stored_block _ _ _ _ s S (elem_of_add_vertex s g)) as (b' & B' & ((v & Hv & Hi) & Hlb & Hu) & _).
  simplify_eq. exists m'. eexists. split; [exact R|].
  destruct (label_of_ok _ _ _ _ s S (elem_of_add_vertex s g)) as [Hnn Hls].
  rewrite label_of_add in Hlb, Hnn, Hls. destruct (label_until _ Hnn Hls) as [U1 U2]. split_and!; try done.
  - split; [by rewrite L|by eauto].
  - cbn. by rewrite Hi, Hv.
  - cbn [label node_with makeNodeBlock]. rewrite Hlb, U1, cstring_pad by done. by rewrite string_chars.
  - unfold isInUse. cbn. by rewrite Hu, !bool_decide_true.
Qed.

(** ** A new edge *)

Lemma vertex_block_heads s l b b' : same_but_heads b b' -> vertex_block s l b -> vertex_block s l b'.
Proof.
  intros [_ F] ((v & Hv & Hid) & Hl & Hu). unfold vertex_block, nf_id, nf32, nf_label in *.
  rewrite !F by lia. eauto.
Qed.

Lemma vertex_blocks_heads L vs nbs nbs' :
  Forall2 (fun s => vertex_block s (L s)) vs nbs -> length nbs' = length nbs ->
  (forall z b, nbs !! z = Some b -> exists b', nbs' !! z = Some b' /\ same_but_heads b b') ->
  Forall2 (fun s => vertex_block s (L s)) vs nbs'.
Proof.
  intros Hb Hl Hh. apply Forall2_same_length_lookup_2.
  { rewrite Hl. by eapply Forall2_length. }
  intros z s b' Hs Hz. destruct (Forall2_lookup_l _ _ _ _ _ Hb Hs) as (b & Hbz & Hv).
  destruct (Hh z b Hbz) as (b'' & Hz' & Hsb). simplify_eq. by eapply vertex_block_heads.
Qed.

Section edges.
Context {HM : HostMemory}.

Lemma stored_link m g nbs rbs k u v s' nbs' rbs' :
  stored m g nbs rbs -> u ∈ vertices g -> v ∈ vertices g -> files s' nbs' rbs' ->
  graph_ok nbs' rbs' (upd_G k (number (vertices g) (u, v) :: numbered g k) (numbered g)) ->
  length nbs' = length nbs ->
  (forall z b, nbs !! z = Some b -> exists b', nbs' !! z = Some b' /\ same_but_heads b b') ->
  stored (set_dbs s' m) (link_edge k (u, v) g) nbs' rbs'.
Proof.
  intros [] Hu Hv Hs' Hg Hl Hh. constructor; cbn [vertices gedges link_edge]; try done.
  - assert (pointwise_relation kind (=) (numbered (link_edge k (u, v) g))
      (upd_G k (number (vertices g) (u, v) :: numbered g k) (numbered g))) as ->; [|done].
    intros k'. unfold numbered, upd_G. cbn [link_edge vertices gedges]. case_decide; subst; [by rewrite fmap_cons|done].
  - by eapply vertex_blocks_heads.
  - intros k'. case_decide; [|done]. constructor; [done|apply st_edges0].
Qed.

Lemma getNode_any m g nbs rbs s :
  stored m g nbs rbs ->
  exists m' o, getNode s m = (Ret o, m') /\ stored m' g nbs rbs /\ frame m m' /\
    nextEdgeIndex m' = nextEdgeIndex m /\ lockEdgeAdd m' = lockEdgeAdd m.
Proof.
  intros Hm. destruct (decide (s ∈ vertices g)) as [Hs|Hs].
  - destruct (getNode_run _ _ _ _ _ Hm Hs) as (m' & b & R & _ & ?). eauto.
  - exists m, None. split_and!; try done. by eapply getNode_absent.
Qed.

(** What edge number [N] of kind [k] does to the blocks: the vertices keep
    everything but the heads of their edges, the other edges everything but
    their previous pointers, and what is new has no properties. *)
Record extended (k : kind) (N : nat) (nbs : list (list ascii)) (rbs : kind -> list (list ascii))
    (nbs' : list (list ascii)) (rbs' : kind -> list (list ascii)) : Prop := {
  ex_old : forall z b, nbs !! z = Some b -> exists b', nbs' !! z = Some b' /\ same_but_heads b b';
  ex_new : no_lists_after nbs nbs';
  ex_other : forall k', k <> k' -> rbs' k' = rbs k';
  ex_rel : preserved k N (rbs k) (rbs' k);
  ex_edge : forall j b, rbs' k !! j = Some b -> rbs k !! j = None -> rf 12 b = 0 /\ (k = Central -> rf 13 b = 0)
}.

(** [addLocalRelation], [addCentralRelation] on stored vertices. *)
Lemma addKindRelation_run m g nbs rbs k u v bu bv :
  stored m g nbs rbs -> u ∈ vertices g -> v ∈ vertices g ->
  nbs !! vnum (vertices g) u = Some bu -> nbs !! vnum (vertices g) v = Some bv ->
  raddress k (S (S (length (gedges g k)))) <= 4294967296 ->
  exists m' r nbs' rbs', addKindRelation k (node_with u (naddress (vnum (vertices g) u)) bu)
      (node_with v (naddress (vnum (vertices g) v)) bv) m = (Ret (Some r), m') /\
    handle r = (raddress k (S (length (gedges g k))), 0, 0, DEFAULT_TYPE) /\
    stored m' (link_edge k (u, v) g) nbs' rbs' /\
    extended k (S (length (gedges g k))) nbs rbs nbs' rbs' /\ frame m m' /\
    nextEdgeIndex m' = nextEdgeIndex m /\ lockEdgeAdd m' = lockEdgeAdd m.
Proof.
  intros Hm Hu Hv Hbu Hbv Hroom. set (src := node_with u _ _). set (dst := node_with v _ _).
  assert (length (numbered g k) = length (gedges g k)) as Hlen by apply length_fmap.
  destruct (relate_run (dbs m) nbs rbs (numbered g) k _ _ bu bv src dst
    (st_files _ _ _ _ Hm) (st_graph _ _ _ _ Hm) Hbu Hbv)
    as (s' & r & nbs' & rbs' & R & _ & Hs' & L & Hg & Hln & Hh & Hr & X1 & X2 & X3);
    [done..|apply edge_ref_node_with|apply edge_ref_node_with|by rewrite Hlen|].
  rewrite Hlen in Hr, X2.
  assert (extended k (S (length (gedges g k))) nbs rbs nbs' rbs') as Hex.
  { constructor; try done. intros z b Hz Hz'. apply lookup_lt_Some in Hz. apply lookup_ge_None in Hz'. lia. }
  pose proof (stored_link _ _ _ _ k u v s' _ _ Hm Hu Hv Hs' Hg Hln Hh) as Hm'.
  unfold relate in R. apply bind_Ret_inv in R as (o & s1 & R1 & R).
  destruct o as [r1|]; [|done]. apply bind_Ret_inv in R as ([? r2] & s2 & R2 & R).
  apply bind_Ret_inv in R as ([? r3] & s3 & R3 & R). unfold mret, M_ret in R. simplify_eq.
  unfold addKindRelation. erewrite bind_Ret; [|apply zoom_run, R1]. cbn beta iota.
  erewrite bind_Ret; [|apply zoom_run, R2]. cbn beta iota.
  erewrite bind_Ret; [|apply zoom_run, R3]. cbn beta iota.
  change (set_dbs s' (set_dbs s2 (set_dbs s1 m))) with (set_dbs s' m).
  destruct k.
  - destruct (getNode_any _ _ _ _ (to_string (nodeId src)) Hm') as (m1 & o1 & G1 & Hm1 & F1 & E1 & L1).
    destruct (getNode_any _ _ _ _ (to_string (nodeId dst)) Hm1) as (m2 & o2 & G2 & Hm2 & F2 & E2 & L2).
    exists m2, r, nbs', rbs'. split_and!; try done; [| |by rewrite E2, E1|by rewrite L2, L1].
    + rewrite (bind_Ret _ _ _ tt m2); [done|].
      erewrite bind_Ret; [|exact G1]. by erewrite bind_Ret; [|exact G2].
    + etransitivity; [|exact F2]. by etransitivity; [|exact F1].
  - exists (set_dbs s' m), r, nbs', rbs'. by split_and!.
Qed.

Lemma same_but_heads_refl b : same_but_heads b b.
Proof. done. Qed.

(** The vertices of an edge are stored first, then the edge. *)
Lemma extended_vertices k N nbs nbs1 rbs nbs' rbs' :
  nbs `prefix_of` nbs1 -> no_lists_after nbs nbs1 -> extended k N nbs1 rbs nbs' rbs' ->
  extended k N nbs rbs nbs' rbs'.
Proof.
  intros Hp Hn []. constructor; try done.
  - intros z b Hz. apply ex_old0. by eapply prefix_lookup_Some.
  - intros z b' Hz Hz'. destruct (nbs1 !! z) as [b|] eqn:E; [|by eapply ex_new0].
    destruct (ex_old0 z b E) as (b'' & Hb'' & _ & F). simplify_eq.
    destruct (Hn z b E Hz') as [H1 H2]. unfold nf32 in *. by rewrite !F by lia.
Qed.

(** The object of a vertex whose block has got the heads of its edges since. *)
Definition object_at (nbs : list (list ascii)) (vs : list string) (s : string) (n : NodeBlock) : Prop :=
  exists b b', n = node_with s (naddress (vnum vs s)) b /\ nbs !! vnum vs s = Some b' /\ same_but_heads b b'.

(** The steps the two edge insertions share. *)
Lemma add_edge_runs m g nbs rbs k e :
  stored m g nbs rbs -> id_ok (INDEX_KEY_SIZE m) e.1 -> id_ok (INDEX_KEY_SIZE m) e.2 ->
  fits (add_edge k e g) ->
  exists n1 m1 n2 m2 r m3 nbs' rbs',
    addNode e.1 m = (Ret n1, m1) /\ addNode e.2 m1 = (Ret n2, m2) /\
    addKindRelation k n1 n2 m2 = (Ret (Some r), m3) /\
    object_at nbs' (vertices (add_edge k e g)) e.1 n1 /\ object_at nbs' (vertices (add_edge k e g)) e.2 n2 /\
    handle r = (raddress k (S (length (gedges g k))), 0, 0, DEFAULT_TYPE) /\
    stored m3 (add_edge k e g) nbs' rbs' /\
    extended k (S (length (gedges g k))) nbs rbs nbs' rbs' /\ frame m m3 /\
    nextEdgeIndex m3 = nextEdgeIndex m /\ lockEdgeAdd m3 = lockEdgeAdd m.
Proof.
  destruct e as [u v]. cbn [fst snd]. intros Hm Hu Hv [Hn Hr].
  unfold add_edge in *. cbn [fst snd link_edge vertices] in *.
  set (g1 := add_vertex u g) in *. set (g2 := add_vertex v g1) in *.
  assert (gedges g2 = gedges g) as Hge by by unfold g2, g1; rewrite !gedges_add_vertex.
  pose proof (length_add_vertex v g1) as Hlen. fold g2 in Hlen.
  destruct (addNode_run m g nbs rbs u Hm Hu) as (m1 & nbs1 & bu & R1 & B1 & P1 & N1 & S1 & F1 & E1 & L1).
  { unfold naddress, NODE_BLOCK_SIZE in *. fold g1. lia. }
  fold g1 in R1, B1, S1.
  assert (INDEX_KEY_SIZE m1 = INDEX_KEY_SIZE m) as Hk by by destruct F1 as (_ & _ & ? & _).
  destruct (addNode_run m1 g1 nbs1 rbs v S1) as (m2 & nbs2 & bv & R2 & B2 & P2 & N2 & S2 & F2 & E2 & L2);
    [by rewrite Hk|done|]. fold g2 in R2, B2, S2.
  assert (u ∈ vertices g1) as Hu1 by apply elem_of_add_vertex.
  assert (u ∈ vertices g2 /\ vnum (vertices g2) u = vnum (vertices g1) u) as [Hu2 Hx]
    by by apply vnum_add_vertex.
  assert (nbs2 !! vnum (vertices g2) u = Some bu) as B1'.
  { rewrite Hx. by eapply prefix_lookup_Some. }
  destruct (addKindRelation_run m2 g2 nbs2 rbs k u v bu bv S2 Hu2)
    as (m3 & r & nbs' & rbs' & R3 & Hra & S3 & X3 & F3 & E3 & L3); [apply elem_of_add_vertex|done..| |].
  { specialize (Hr k). unfold link_edge in Hr. cbn in Hr. by rewrite decide_True in Hr. }
  rewrite Hge in Hra, X3. rewrite <- Hx in R1.
  destruct (ex_old _ _ _ _ _ _ X3 _ _ B1') as (bu' & Bu' & Su).
  destruct (ex_old _ _ _ _ _ _ X3 _ _ B2) as (bv' & Bv' & Sv).
  do 8 eexists. split; [exact R1|]. split; [exact R2|]. split; [exact R3|].
  split_and!; try done; [by exists bu, bu'|by exists bv, bv'| | |by rewrite E3, E2, E1|by rewrite L3, L2, L1].
  - eapply extended_vertices; [done..|]. by eapply extended_vertices.
  - etransitivity; [exact F1|]. by etransitivity.
Qed.

Definition add_kind_edge (k : kind) (e : string * string) : M manager (option RelationBlock) :=
  match k with Local => addLocalEdge e | Central => addCentralEdge e end.

(** The number of edges that a manager counts. *)
Definition edges_counted (k : kind) (n : Z) : Z := match k with Local => u64 (n + 1) | Central => n end.

(** [addLocalEdge] and [addCentralEdge], with the blocks. *)
Lemma add_kind_edge_run m g nbs rbs k e :
  lockEdgeAdd m = false -> stored m g nbs rbs ->
  id_ok (INDEX_KEY_SIZE m) e.1 -> id_ok (INDEX_KEY_SIZE m) e.2 -> fits (add_edge k e g) ->
  exists m' r n1 n2 nbs' rbs', add_kind_edge k e m = (Ret (Some r), m') /\
    stored m' (add_edge k e g) nbs' rbs' /\ lockEdgeAdd m' = false /\
    extended k (S (length (gedges g k))) nbs rbs nbs' rbs' /\
    handle r = (raddress k (S (length (gedges g k))), 0, 0, DEFAULT_TYPE) /\
    getSource r = Some n1 /\ object_at nbs' (vertices (add_edge k e g)) e.1 n1 /\
    getDestination r = Some n2 /\ object_at nbs' (vertices (add_edge k e g)) e.2 n2 /\
    nextEdgeIndex m' = edges_counted k (nextEdgeIndex m) /\ frame m m'.
Proof.
  intros Hl Hm H1 H2 Hf.
  destruct (add_edge_runs _ g nbs rbs k e (stored_lock _ _ _ _ true Hm) H1 H2 Hf)
    as (n1 & m1 & n2 & m2 & r & m3 & nbs' & rbs' & R1 & R2 & R3 & I1 & I2 & Hr & S3 & X & F & E & L).
  destruct k.
  - do 2 eexists. exists n1, n2, nbs', rbs'. split.
    { unfold add_kind_edge, addLocalEdge, acquireEdgeAdd. erewrite bind_Ret; [|by rewrite Hl].
      erewrite bind_Ret; [|exact R1]. erewrite bind_Ret; [|exact R2]. erewrite bind_Ret; [|exact R3].
      cbn beta iota. reflexivity. }
    split_and!; try done; cbn; [|by rewrite E]. by apply stored_lock, stored_edge_count.
  - do 2 eexists. exists n1, n2, nbs', rbs'. split.
    { unfold add_kind_edge, addCentralEdge, acquireEdgeAdd. erewrite bind_Ret; [|by rewrite Hl].
      erewrite bind_Ret; [|exact R1]. erewrite bind_Ret; [|exact R2]. erewrite bind_Ret; [|exact R3].
      cbn beta iota. reflexivity. }
    split_and!; try done; cbn. by apply stored_lock.
Qed.

Lemma add_kind_edge_repr m g k e :
  repr m g -> id_ok (INDEX_KEY_SIZE m) e.1 -> id_ok (INDEX_KEY_SIZE m) e.2 ->
  fits (add_edge k e g) ->
  exists m' r, add_kind_edge k e m = (Ret (Some r), m') /\ repr m' (add_edge k e g) /\
    raddr r = raddress k (S (length (gedges g k))) /\
    id <$> getSource r = Some e.1 /\ id <$> getDestination r = Some e.2 /\
    nextEdgeIndex m' = edges_counted k (nextEdgeIndex m) /\ frame m m'.
Proof.
  intros [Hl (nbs & rbs & Hm)] H1 H2 Hf.
  destruct (add_kind_edge_run m g nbs rbs k e Hl Hm H1 H2 Hf) as
    (m' & r & n1 & n2 & nbs' & rbs' & R & S & L & _ & Hr & G1 & (? & ? & -> & _) & G2 & (? & ? & -> & _) & E & F).
  exists m', r. split_and!; try done; [by split; [|eauto]|by injection Hr|by rewrite G1|by rewrite G2].
Qed.

(** C1. Inserting a local edge with two admissible ids into a partition that
    represents [g] and has room in its files (addresses of 32 bits) returns a new edge object, and the partition then
    represents [g] with the edge (and the vertices that were missing)
    added; the edge counter grows by one and the insertion lock is free. *)
Theorem addLocalEdge_refines m g e :
  repr m g -> id_ok (INDEX_KEY_SIZE m) e.1 -> id_ok (INDEX_KEY_SIZE m) e.2 ->
  fits (add_edge Local e g) ->
  exists m' r, addLocalEdge e m = (Ret (Some r), m') /\ repr m' (add_edge Local e g) /\
    raddr r = raddress Local (S (length (gedges g Local))) /\
    id <$> getSource r = Some e.1 /\ id <$> getDestination r = Some e.2 /\
    nextEdgeIndex m' = u64 (nextEdgeIndex m + 1) /\ frame m m'.
Proof. apply (add_kind_edge_repr m g Local). Qed.

(** C6. The same for a central edge; the edge counter of the manager does
    not change. *)
Theorem addCentralEdge_refines m g e :
  repr m g -> id_ok (INDEX_KEY_SIZE m) e.1 -> id_ok (INDEX_KEY_SIZE m) e.2 ->
  fits (add_edge Central e g) ->
  exists m' r, addCentralEdge e m = (Ret (Some r), m') /\ repr m' (add_edge Central e g) /\
    raddr r = raddress Central (S (length (gedges g Central))) /\
    id <$> getSource r = Some e.1 /\ id <$> getDestination r = Some e.2 /\
    nextEdgeIndex m' = nextEdgeIndex m /\ frame m m'.
Proof. apply (add_kind_edge_repr m g Central). Qed.
End edges.

(** ** A new partition *)

Lemma graph_ok_empty : graph_ok [] (fun _ => []) (numbered empty_graph).
Proof.
  split_and!; [constructor|done|]. intros k. split_and!; [done|by destruct k| |].
  - intros E1 e E2 HE. by destruct E1.
  - intros x b Hx. done.
Qed.

Lemma new_partition_run c d :
  openMode c <> FILE_MODE -> d_index d = [] ->
  exists m, openNodeManager c d = Ret m /\ repr m empty_graph /\
    INDEX_KEY_SIZE m = (if decide (maxLabelSize c = 0%nat) then 6%nat else maxLabelSize c).
Proof.
  intros Hc Hd. unfold openNodeManager. rewrite bool_decide_false by done. rewrite Hd.
  eexists. split; [reflexivity|]. split; [|done]. split; [done|]. exists [], (fun _ => []).
  constructor; try done; cbn.
  - split; [done|]. intros k. by destruct k; (split; [done|left]).
  - apply graph_ok_empty.
  - by exists [].
  - constructor.
  - intros k. constructor.
Qed.

(** Opening a partition in truncating mode, with no index file left over, gives
    a manager that represents the empty graph, whatever the other files held. *)
Theorem new_partition_repr c d :
  openMode c <> FILE_MODE -> d_index d = [] ->
  exists m, openNodeManager c d = Ret m /\ repr m empty_graph /\
    INDEX_KEY_SIZE m = (if decide (maxLabelSize c = 0%nat) then 6%nat else maxLabelSize c).
Proof. apply new_partition_run. Qed.
