(* ===== verification/ManagerQueries.v ===== *)
(** * ManagerQueries: the traversals answer from the abstract graph

    For a manager that represents a graph: the edge lists of a vertex, the
    search for an edge, the whole graph, the adjacency list and the degree
    distribution.  Every loop of the code ends within the fuel of the model,
    and the represented graph is unchanged. *)
From Stdlib Require Import ZArith Ascii String Lia.
From stdpp Require Import base tactics numbers list strings gmap.
From S2P Require Import Prelude FStream PropertyLinks NodeBlock RelationBlock NodeRelations.
From S2P Require Import NodeManager GraphFiles GraphTheory ManagerTheory.

(** The number of a vertex id: [std::stoul] cut to 32 bits. *)
Definition vid (s : string) : Z := match stoul s with inr v => u32 v | inl _ => 0 end.

Section store_queries.
Context (nbs : list (list ascii)) (rbs : kind -> list (list ascii)) (G : kind -> edges).
Context (Hg : graph_ok nbs rbs G).
Implicit Types (s : store) (k : kind) (x y : nat).

(** Loading the head of the list of a vertex. *)
Lemma list_head_run s k x b n :
  files s nbs rbs -> nbs !! x = Some b -> edge_ref k n = node_head k b ->
  exists s1 o, getRelationHead k n s = (Ret o, s1) /\
    getRelation k (node_head k b) s = (Ret o, s1) /\ files s1 nbs rbs.
Proof.
  intros Hs Hx Hn. pose proof Hg as (Hwf & _ & Hk). destruct (Hk k) as (Hl & Hroom & Hst & Hch).
  unfold getRelationHead. rewrite Hn. specialize (Hch x b Hx).
  assert (forall i, (i < length (rbs k))%nat -> is_u32 (raddress k i)) as Hu.
  { intros i Hi. pose proof (BLOCK_SIZE_pos k). unfold is_u32, raddress in *. nia. }
  inversion Hch as [E0 E1|i c l Hi Hc _ _ E0 E1]; [by exists s, None|].
  destruct (edges_stored_incident k (length nbs) (rbs k) (G k) x i) as (c' & u & v & Hc' & Hw & _);
    [done|rewrite <- E1; left|]. simplify_eq.
  destruct (getRelation_run s nbs rbs k i c u v) as (s1 & R & Hs1 & _); try done.
  { apply Hu. by eapply lookup_lt_Some. }
  exists s1. eexists. split_and!; [|exact R|done].
  pose proof (raddress_pos k i Hi). by destruct (Z.eqb_spec (raddress k i) 0); [lia|].
Qed.

Lemma rel_fuel_enough s k x :
  files s nbs rbs -> (length (incident x (G k)) <= rel_fuel k s)%nat.
Proof.
  intros [_ Hr]. destruct (Hr k) as [[_ Hd] _]. destruct Hg as (_ & _ & Hk).
  destruct (Hk k) as (Hl & _). pose proof (length_incident x (G k)) as Hi.
  unfold rel_fuel. rewrite (block_file_length _ _ _ Hd), Hl. pose proof (rsize_eq k).
  destruct (G k); simpl in *; nia.
Qed.

Lemma getEdgeNodes_run s k x b n :
  files s nbs rbs -> nbs !! x = Some b -> addr n = naddress x -> edge_ref k n = node_head k b ->
  exists s' L, getEdgeNodes k n s = (Ret L, s') /\ files s' nbs rbs /\ same_links s s' /\
    fst <$> L = node_lookup nbs <$> neighbours x (G k) /\
    (raddr ∘ snd) <$> L = raddress k <$> incident x (G k).
Proof.
  intros Hs Hx Ha Hn. destruct (list_head_run s k x b n Hs Hx Hn) as (s1 & o & R1 & R2 & Hs1).
  pose proof Hg as (_ & _ & Hk). destruct (Hk k) as (_ & _ & Hst & Hch).
  destruct (edge_nodes_run nbs rbs G k Hg x n (G k) (rel_fuel k s1) s (node_head k b))
    as (s' & L & R & H); [done..|by apply Hch|by apply rel_fuel_enough|].
  exists s', L. split; [|done]. unfold getEdgeNodes. erewrite bind_Ret; [|exact R1].
  erewrite bind_Ret; [|reflexivity]. apply bind_Ret_inv in R as (o' & s1' & R3 & R4). congruence.
Qed.

Lemma searchKindRelation_run s k x w b n n' :
  files s nbs rbs -> nbs !! x = Some b -> addr n = naddress x -> edge_ref k n = node_head k b ->
  addr n' = naddress w ->
  exists s' o, searchKindRelation k n n' s = (Ret o, s') /\ files s' nbs rbs /\ same_links s s' /\
    raddr <$> o = raddress k <$> find_edge x w (G k).
Proof.
  intros Hs Hx Ha Hn Hw. destruct (list_head_run s k x b n Hs Hx Hn) as (s1 & o & R1 & R2 & Hs1).
  pose proof Hg as (_ & _ & Hk). destruct (Hk k) as (_ & _ & Hst & Hch).
  destruct (search_run nbs rbs G k Hg x n w (G k) (rel_fuel k s1) s (node_head k b))
    as (s' & r & R & H); [done..|by apply Hch|by apply rel_fuel_enough|].
  exists s', r. split; [|done]. unfold searchKindRelation. erewrite bind_Ret; [|exact R1].
  erewrite bind_Ret; [|reflexivity]. rewrite Hw.
  apply bind_Ret_inv in R as (o' & s1' & R3 & R4). congruence.
Qed.
End store_queries.

Section manager_queries.
Context {HM : HostMemory}.

Lemma load_run m g nbs rbs s :
  stored m g nbs rbs -> s ∈ vertices g ->
  exists m' b, load s m = (Ret (node_with s (naddress (vnum (vertices g) s)) b), m') /\
    nbs !! vnum (vertices g) s = Some b /\ stored m' g nbs rbs /\ frame m m' /\
    lockEdgeAdd m' = lockEdgeAdd m.
Proof.
  intros Hm Hs. destruct (getNode_run _ _ _ _ _ Hm Hs) as (m' & b & R & Hb & Hm' & F & _ & L).
  exists m', b. split_and!; try done. unfold load. by rewrite (bind_Ret _ _ _ _ _ R).
Qed.

Lemma vid_block s l b : vertex_block s l b -> nf_id b = vid s.
Proof. intros ((v & Hv & Hi) & _). unfold vid. by rewrite Hv. Qed.

Lemma label_vertex nid a s l b :
  no_nul l -> (length (chars l) < LABEL_SIZE)%nat -> vertex_block s l b ->
  cstring (label (node_with nid a b)) = Some l.
Proof.
  intros Hnn Hl (_ & Hlb & _). cbn [label node_with makeNodeBlock].
  destruct (label_until l Hnn Hl) as [U _]. rewrite Hlb, U, cstring_pad by done. by rewrite string_chars.
Qed.

(** What is loaded for the block of a neighbour. *)
Lemma node_lookup_vertex m g nbs rbs t :
  stored m g nbs rbs -> t ∈ vertices g ->
  cstring (label (node_lookup nbs (vnum (vertices g) t))) = Some (label_of g t) /\
  nodeId (node_lookup nbs (vnum (vertices g) t)) = vid t.
Proof.
  intros Hm Ht. destruct (stored_block _ _ _ _ _ Hm Ht) as (b & Hb & Hv & _).
  unfold node_lookup. rewrite Hb. cbn [default]. split.
  - destruct (label_of_ok _ _ _ _ t Hm Ht). by eapply label_vertex.
  - by eapply vid_block.
Qed.

Lemma neighbour_objects m g nbs rbs s E :
  stored m g nbs rbs -> s ∈ vertices g -> edges_in (vertices g) E ->
  let L := node_lookup nbs <$> neighbours (vnum (vertices g) s) (number (vertices g) <$> E) in
  (cstring ∘ label) <$> L = (Some ∘ label_of g) <$> adjacent s E /\ nodeId <$> L = vid <$> adjacent s E.
Proof.
  intros Hm Hs HE L. unfold L. rewrite (neighbours_adjacent (vertices g) s E) by done.
  pose proof (adjacent_in _ s _ HE) as Hin. split; rewrite <- !list_fmap_compose;
    apply list_fmap_ext; intros i t Ht; eapply Forall_lookup_1 in Hin; try done;
    by destruct (node_lookup_vertex _ _ _ _ _ Hm Hin).
Qed.

Lemma edge_nodes_objects m g nbs rbs s k b nid :
  stored m g nbs rbs -> s ∈ vertices g -> nbs !! vnum (vertices g) s = Some b ->
  exists m' L, on_store (getEdgeNodes k (node_with nid (naddress (vnum (vertices g) s)) b)) m
      = (Ret L, m') /\ stored m' g nbs rbs /\ frame m m' /\ lockEdgeAdd m' = lockEdgeAdd m /\
    (cstring ∘ label ∘ fst) <$> L = (Some ∘ label_of g) <$> adjacent s (gedges g k) /\
    (nodeId ∘ fst) <$> L = vid <$> adjacent s (gedges g k).
Proof.
  intros Hm Hs Hb. set (n := node_with _ _ _).
  destruct (getEdgeNodes_run nbs rbs (numbered g) (st_graph _ _ _ _ Hm) (dbs m) k _ b n
    (st_files _ _ _ _ Hm) Hb eq_refl) as (s' & L & R & Hs' & Hl & Hf & _);
    [apply edge_ref_node_with|].
  destruct (neighbour_objects _ _ _ _ s (gedges g k) Hm Hs) as [E1 E2]; [by destruct Hm|].
  unfold numbered in Hf. rewrite <- Hf in E1, E2. rewrite <- !list_fmap_compose in E1, E2.
  exists (set_dbs s' m), L. split_and!; try done; [by apply zoom_run|by apply stored_dbs].
Qed.

(** C29. [getLocalEdgeNodes] and [getCentralEdgeNodes] of a stored vertex: the walk
    ends, and it lists exactly the other ends of the edges of that kind,
    newest first, each loaded with its own label and number. *)
Theorem getEdgeNodes_spec m g s k :
  repr m g -> s ∈ vertices g ->
  exists m' L, (n ← load s; on_store (getEdgeNodes k n)) m = (Ret L, m') /\ repr m' g /\
    frame m m' /\ (cstring ∘ label ∘ fst) <$> L = (Some ∘ label_of g) <$> adjacent s (gedges g k) /\
    (nodeId ∘ fst) <$> L = vid <$> adjacent s (gedges g k).
Proof.
  intros [Hl (nbs & rbs & Hm)] Hs.
  destruct (load_run _ _ _ _ _ Hm Hs) as (m1 & b & R1 & Hb & Hm1 & F1 & L1).
  destruct (edge_nodes_objects _ _ _ _ s k b s Hm1 Hs Hb) as (m2 & L & R2 & Hm2 & F2 & L2 & E1 & E2).
  exists m2, L. split_and!; try done; [by rewrite (bind_Ret _ _ _ _ _ R1)|split; [congruence|by eauto]|].
  by etransitivity.
Qed.

Lemma all_edge_nodes_objects m g nbs rbs s b nid :
  stored m g nbs rbs -> s ∈ vertices g -> nbs !! vnum (vertices g) s = Some b ->
  exists m' L, on_store (getAllEdgeNodes (node_with nid (naddress (vnum (vertices g) s)) b)) m
      = (Ret L, m') /\ stored m' g nbs rbs /\ frame m m' /\ lockEdgeAdd m' = lockEdgeAdd m /\
    (nodeId ∘ fst) <$> L = vid <$> (adjacent s (gedges g Local) ++ adjacent s (gedges g Central)).
Proof.
  intros Hm Hs Hb.
  destruct (edge_nodes_objects _ _ _ _ s Local b nid Hm Hs Hb) as (m1 & L1 & R1 & H1 & F1 & K1 & _ & E1).
  destruct (edge_nodes_objects _ _ _ _ s Central b nid H1 Hs Hb) as (m2 & L2 & R2 & H2 & F2 & K2 & _ & E2).
  exists m2, (L1 ++ L2). split_and!; try done; [|by etransitivity|congruence|].
  - unfold on_store, zoom in *. destruct (getEdgeNodes Local _ (dbs m)) as [o1 s1] eqn:Q1.
    destruct (getEdgeNodes Central _ (dbs m1)) as [o2 s2] eqn:Q2. simplify_eq.
    unfold getAllEdgeNodes. erewrite bind_Ret; [|exact Q1].
    by erewrite bind_Ret; [|exact Q2].
  - by rewrite !fmap_app, E1, E2.
Qed.

Lemma find_edge_adjacent vs s t E :
  edges_in vs E -> s ∈ vs -> t ∈ vs ->
  is_Some (find_edge (vnum vs s) (vnum vs t) (number vs <$> E)) <-> t ∈ adjacent s E.
Proof.
  intros HE Hs Ht. rewrite find_edge_neighbours, neighbours_adjacent by done.
  rewrite list_elem_of_fmap. split.
  - intros (t' & E' & Ht'). pose proof (adjacent_in _ s _ HE) as Hin.
    rewrite Forall_forall in Hin. apply vnum_inj in E' as ->; auto.
  - eauto.
Qed.

Lemma search_kind_vertex m g nbs rbs s t k b n n' :
  stored m g nbs rbs -> s ∈ vertices g -> t ∈ vertices g -> nbs !! vnum (vertices g) s = Some b ->
  addr n = naddress (vnum (vertices g) s) -> edge_ref k n = node_head k b ->
  addr n' = naddress (vnum (vertices g) t) ->
  forall s1, files s1 nbs rbs ->
  exists s2 o, searchKindRelation k n n' s1 = (Ret o, s2) /\ files s2 nbs rbs /\
    same_links s1 s2 /\ (is_Some o <-> t ∈ adjacent s (gedges g k)).
Proof.
  intros Hm Hs Ht Hb Ha He Ha' s1 Hs1.
  destruct (searchKindRelation_run nbs rbs (numbered g) (st_graph _ _ _ _ Hm) s1 k _ _ b n n'
    Hs1 Hb Ha He Ha') as (s2 & o & R & Hs2 & L & Ho).
  exists s2, o. split_and!; try done.
  rewrite <- (find_edge_adjacent (vertices g)) by (done || by destruct Hm).
  fold (numbered g k). destruct o, (find_edge _ _ (numbered g k)); naive_solver.
Qed.

(** [NodeBlock::searchRelation] between two stored vertices: the walk ends
    and finds an edge exactly when one, local or central and in either
    direction, is in the graph. *)
Theorem searchRelation_spec m g s t :
  repr m g -> s ∈ vertices g -> t ∈ vertices g ->
  exists m' found,
    (n ← load s; n' ← load t; on_store (searchRelation n n')) m = (Ret found, m') /\ repr m' g /\
    (found = true <-> exists k, t ∈ adjacent s (gedges g k)).
Proof.
  intros [Hl (nbs & rbs & Hm)] Hs Ht.
  destruct (load_run _ _ _ _ _ Hm Hs) as (m1 & b & R1 & Hb & Hm1 & F1 & L1).
  destruct (load_run _ _ _ _ _ Hm1 Ht) as (m2 & b' & R2 & Hb' & Hm2 & F2 & L2).
  set (n := node_with s _ b) in *. set (n' := node_with t _ b') in *.
  destruct (search_kind_vertex _ _ _ _ s t Local b n n' Hm2 Hs Ht Hb eq_refl
    (edge_ref_node_with _ _ _ _) eq_refl (dbs m2) (st_files _ _ _ _ Hm2))
    as (s3 & o1 & R3 & Hs3 & _ & E1).
  destruct (search_kind_vertex _ _ _ _ s t Central b n n' Hm2 Hs Ht Hb eq_refl
    (edge_ref_node_with _ _ _ _) eq_refl s3 Hs3) as (s4 & o2 & R4 & Hs4 & _ & E2).
  exists (set_dbs s4 m2), (bool_decide (is_Some o1) || bool_decide (is_Some o2)). split_and!.
  - erewrite bind_Ret; [|exact R1]. erewrite bind_Ret; [|exact R2]. apply zoom_run.
    unfold searchRelation. erewrite bind_Ret; [|exact R3]. by erewrite bind_Ret; [|exact R4].
  - split; [cbn; congruence|]. exists nbs, rbs. by apply stored_dbs.
  - rewrite orb_true_iff, !bool_decide_eq_true, E1, E2. split; [|intros [[] ?]; auto].
    intros [?|?]; eauto.
Qed.
End manager_queries.

(** ** Iterations over the index *)

Lemma for_ids_run {A} (f : string -> M manager A) (P : string -> A -> Prop) g nbs rbs ids :
  Forall (.∈ vertices g) ids ->
  (forall s m, s ∈ vertices g -> stored m g nbs rbs ->
    exists m' a, f s m = (Ret a, m') /\ P s a /\ stored m' g nbs rbs /\ frame m m' /\
      lockEdgeAdd m' = lockEdgeAdd m) ->
  forall m, stored m g nbs rbs ->
    exists m' L, for_ids ids f m = (Ret L, m') /\ Forall2 P ids L /\ stored m' g nbs rbs /\
      frame m m' /\ lockEdgeAdd m' = lockEdgeAdd m.
Proof.
  intros Hids Hf. induction Hids as [|s ids Hs Hids IH]; intros m Hm.
  - exists m, []. split_and!; try done.
  - destruct (Hf s m Hs Hm) as (m1 & a & R1 & Pa & Hm1 & F1 & L1).
    destruct (IH m1 Hm1) as (m2 & L & R2 & PL & Hm2 & F2 & L2).
    exists m2, (a :: L). split_and!; [|by constructor|done|by etransitivity|congruence].
    cbn [for_ids]. rewrite (bind_Ret _ _ _ _ _ R1). by rewrite (bind_Ret _ _ _ _ _ R2).
Qed.

(** The object [NodeManager::get] builds for the vertex [s]. *)
Definition vertex_object (g : graph) (nbs : list (list ascii)) (s : string) : NodeBlock :=
  node_with s (naddress (vnum (vertices g) s)) (default [] (nbs !! vnum (vertices g) s)).

Lemma Forall2_fmap_eq {A} (f : string -> A) ids L : Forall2 (fun s a => a = f s) ids L -> L = f <$> ids.
Proof. induction 1 as [|s a l L -> _ ->]; done. Qed.

Lemma getGraph_run m g nbs rbs ids :
  stored m g nbs rbs -> Forall (.∈ vertices g) ids ->
  exists m', getGraph ids m = (Ret (vertex_object g nbs <$> ids), m') /\ stored m' g nbs rbs /\
    frame m m' /\ lockEdgeAdd m' = lockEdgeAdd m.
Proof.
  intros Hm Hids.
  destruct (for_ids_run load (fun s a => a = vertex_object g nbs s) g nbs rbs ids Hids) with (m := m)
    as (m1 & L & R & ->%Forall2_fmap_eq & H); [|done|by exists m1].
  intros s m0 Hs Hm0. destruct (load_run _ _ _ _ _ Hm0 Hs) as (m1 & b & R & Hb & H).
  exists m1. eexists. split; [exact R|]. split; [|done]. unfold vertex_object. by rewrite Hb.
Qed.

Lemma label_vertex_object m g nbs rbs s :
  stored m g nbs rbs -> s ∈ vertices g -> cstring (label (vertex_object g nbs s)) = Some (label_of g s).
Proof. apply node_lookup_vertex. Qed.

(** [getLimitedGraph] returns one object for each of the first [limit] ids the
    iteration over the index meets, in that order, with its id and its label,
    and [getGraph] one for every id. *)
Theorem getGraph_spec m g ids limit :
  repr m g -> ids ≡ₚ vertices g ->
  exists m1 m2 L, getGraph ids m = (Ret L, m1) /\ repr m1 g /\
    getLimitedGraph limit ids m = (Ret (take (Z.to_nat limit) L), m2) /\ repr m2 g /\
    id <$> L = ids /\ (cstring ∘ label) <$> L = (Some ∘ label_of g) <$> ids.
Proof.
  intros [Hl (nbs & rbs & Hm)] Hp.
  assert (Forall (.∈ vertices g) ids) as Hids
    by (apply Forall_forall; intros s Hs; by rewrite <- Hp).
  destruct (getGraph_run m g nbs rbs ids Hm Hids) as (m1 & R1 & Hm1 & _ & L1).
  destruct (getGraph_run m g nbs rbs _ Hm (Forall_take _ (Z.to_nat limit) _ Hids))
    as (m2 & R2 & Hm2 & _ & L2).
  exists m1, m2. eexists. split_and!; [exact R1|split; [congruence|by eauto]| | | |].
  - rewrite <- fmap_take. exact R2.
  - split; [congruence|by eauto].
  - rewrite <- list_fmap_compose. by apply list_fmap_id.
  - rewrite <- list_fmap_compose. apply list_fmap_ext. intros i s Hs.
    eapply label_vertex_object; [done|]. by eapply Forall_lookup_1 in Hids.
Qed.

(** [unordered_map::emplace] in a loop keeps the first entry of a key. *)
Lemma emplace_all (l : list (Z * gset Z)) (acc : gmap Z (gset Z)) :
  foldl (fun acc p => match acc !! p.1 with Some _ => acc | None => <[p.1 := p.2]> acc end) acc l
  = acc ∪ list_to_map l.
Proof.
  revert acc. induction l as [|[i x] l IH]; intros acc; cbn [foldl list_to_map foldr].
  - by rewrite right_id_L by apply _.
  - rewrite IH. cbn [fst snd uncurry]. destruct (acc !! i) eqn:E.
    + apply map_eq. intros j. rewrite !lookup_union. destruct (decide (i = j)) as [<-|].
      * rewrite E. by rewrite !union_Some_l.
      * by rewrite lookup_insert_ne.
    + by rewrite <- insert_union_l, insert_union_r.
Qed.

Section adjacency.
Context {HM : HostMemory}.

(** The neighbours of [s], of either kind. *)
Definition all_adjacent (g : graph) (s : string) : list string :=
  adjacent s (gedges g Local) ++ adjacent s (gedges g Central).

(** The adjacency list the graph stands for, by vertex number. *)
Definition adjacency_spec (g : graph) (ids : list string) : gmap Z (gset Z) :=
  list_to_map ((fun s => (vid s, list_to_set (vid <$> all_adjacent g s))) <$> ids).

Lemma getAdjacencyList_run m g ids :
  repr m g -> ids ≡ₚ vertices g ->
  exists m', getAdjacencyList ids m = (Ret (adjacency_spec g ids), m') /\ repr m' g.
Proof.
  intros [Hl (nbs & rbs & Hm)] Hp.
  assert (Forall (.∈ vertices g) ids) as Hids
    by (apply Forall_forall; intros s Hs; by rewrite <- Hp).
  set (f := fun s => (vid s, list_to_set (C := gset Z) (vid <$> all_adjacent g s))).
  destruct (for_ids_run (fun i =>
        n ← load i;
        ns ← on_store (getAllEdgeNodes n);
        mret (nodeId n, list_to_set (C := gset Z) ((fun p => nodeId p.1) <$> ns)))
    (fun s a => a = f s) g nbs rbs ids Hids) with (m := m)
    as (m1 & L & R & HL & Hm1 & F1 & L1); [|done|].
  { intros s m0 Hs Hm0. destruct (load_run _ _ _ _ _ Hm0 Hs) as (m1 & b & R1 & Hb & Hm1 & F1 & L1).
    destruct (all_edge_nodes_objects _ _ _ _ s b s Hm1 Hs Hb) as (m2 & L & R2 & Hm2 & F2 & L2 & E).
    exists m2, (f s). split_and!; [|done|done|by etransitivity|congruence].
    rewrite (bind_Ret _ _ _ _ _ R1), (bind_Ret _ _ _ _ _ R2). unfold f.
    change ((fun p : NodeBlock * RelationBlock => nodeId p.1) <$> L) with ((nodeId ∘ fst) <$> L).
    rewrite E. destruct (stored_block _ _ _ _ _ Hm1 Hs) as (b' & Hb' & Hv & _). simplify_eq.
    by rewrite <- (vid_block s _ _ Hv). }
  exists m1. split; [|split; [congruence|by eauto]].
  unfold getAdjacencyList. rewrite (bind_Ret _ _ _ _ _ R). rewrite emplace_all, left_id_L by apply _.
  by rewrite (Forall2_fmap_eq _ _ _ HL).
Qed.

Lemma adjacency_spec_lookup g ids s :
  NoDup (vid <$> ids) -> s ∈ ids ->
  adjacency_spec g ids !! vid s = Some (list_to_set (vid <$> all_adjacent g s)).
Proof.
  intros Hnd Hs. apply elem_of_list_to_map_1.
  - rewrite <- list_fmap_compose. exact Hnd.
  - apply list_elem_of_fmap. by exists s.
Qed.

Lemma adjacency_spec_dom g ids :
  dom (adjacency_spec g ids) = list_to_set (vid <$> ids).
Proof. unfold adjacency_spec. rewrite dom_list_to_map_L, <- list_fmap_compose. done. Qed.

(** [getAdjacencyList()], for any iteration order of the index of a
    partition whose vertex numbers are distinct: the keys are the vertex
    numbers, and the entry of a vertex is the set of the numbers of its
    neighbours over local and central edges. *)
Theorem getAdjacencyList_spec m g ids :
  repr m g -> ids ≡ₚ vertices g -> NoDup (vid <$> ids) ->
  exists m' adj, getAdjacencyList ids m = (Ret adj, m') /\ repr m' g /\
    dom adj = list_to_set (vid <$> vertices g) /\
    forall s, s ∈ vertices g -> adj !! vid s = Some (list_to_set (vid <$> all_adjacent g s)).
Proof.
  intros Hm Hp Hnd. destruct (getAdjacencyList_run m g ids Hm Hp) as (m' & R & Hm').
  exists m', (adjacency_spec g ids). split_and!; try done.
  - rewrite adjacency_spec_dom. apply set_eq. intros z. by rewrite !elem_of_list_to_set, Hp.
  - intros s Hs. apply adjacency_spec_lookup; [done|]. by rewrite Hp.
Qed.

(** [getDistributionMap] gives every vertex number the number of its
    distinct neighbours. *)
Theorem getDistributionMap_spec m g ids :
  repr m g -> ids ≡ₚ vertices g -> NoDup (vid <$> ids) ->
  exists m' deg, getDistributionMap ids m = (Ret deg, m') /\ repr m' g /\
    forall s, s ∈ vertices g ->
      deg !! vid s = Some (Z.of_nat (size (list_to_set (vid <$> all_adjacent g s) : gset Z))).
Proof.
  intros Hm Hp Hnd. destruct (getAdjacencyList_run m g ids Hm Hp) as (m' & R & Hm').
  exists m'. eexists. split_and!; [|done|].
  - unfold getDistributionMap. rewrite (bind_Ret _ _ _ _ _ R). reflexivity.
  - intros s Hs. rewrite lookup_fmap, adjacency_spec_lookup; [done..|]. by rewrite Hp.
Qed.
End adjacency.

(** ** The scan of a relation file *)

(** The edges by the number of their source vertex. *)
Definition edge_map (E : list (string * string)) : gmap Z (gset Z) :=
  foldr (fun e acc => <[vid e.1 := {[vid e.2]} ∪ default ∅ (acc !! vid e.1)]> acc) ∅ E.

Lemma elem_of_edge_map E z x :
  x ∈ (default ∅ (edge_map E !! z) : gset Z) <-> exists e, e ∈ E /\ vid e.1 = z /\ vid e.2 = x.
Proof.
  induction E as [|e E IH]; cbn [edge_map foldr].
  - rewrite lookup_empty. cbn. split; [by intros ?%elem_of_empty|].
    by intros (e & ?%not_elem_of_nil & _).
  - fold (edge_map E). destruct (decide (vid e.1 = z)) as [<-|Hne].
    + rewrite lookup_insert_eq. cbn [from_option Datatypes.id]. rewrite elem_of_union, elem_of_singleton, IH. split.
      * intros [->|(e' & He' & H)]; [exists e; split; [left|done]|exists e'; split; [by right|done]].
      * intros (e' & [->|He']%elem_of_cons & H1 & H2); [by left|right; eauto].
    + rewrite lookup_insert_ne, IH by done. split.
      * intros (e' & He' & H). exists e'. split; [by right|done].
      * intros (e' & [->|He']%elem_of_cons & H1 & H2); [done|eauto].
Qed.

Section scan.
Context {HM : HostMemory}.

Lemma id_vertex_object m g nbs rbs t :
  stored m g nbs rbs -> t ∈ vertices g ->
  stol_exn (S := store) (id (node_lookup nbs (vnum (vertices g) t))) = mret (vid t).
Proof.
  intros Hm Ht. destruct (stored_block _ _ _ _ _ Hm Ht) as (b & Hb & Hv & _).
  unfold node_lookup. rewrite Hb. cbn [from_option Datatypes.id id node_at node_with makeNodeBlock].
  rewrite (vid_block _ _ _ Hv). assert (is_u32 (vid t)) as [H0 H1].
  { unfold vid. destruct (stoul t); [unfold is_u32; lia|apply u32_range]. }
  unfold stol_exn. destruct (to_string_parse (vid t) H0) as [_ ->].
  destruct (Z.ltb_spec (vid t) 9223372036854775808); [done|lia].
Qed.

(** Loading the block of an edge and parsing the ids of its ends. *)
Lemma stored_relation_run m g nbs rbs k E1 e E0 s :
  stored m g nbs rbs -> gedges g k = E1 ++ e :: E0 -> files s nbs rbs ->
  exists s' r sn dn, getRelation k (raddress k (S (length E0))) s = (Ret (Some r), s') /\
    files s' nbs rbs /\ is_u32 (raddress k (S (length E0))) /\
    getSource r = Some sn /\ stol_exn (S := store) (id sn) = mret (vid e.1) /\
    getDestination r = Some dn /\ stol_exn (S := store) (id dn) = mret (vid e.2).
Proof.
  intros Hm HE Hs.
  pose proof (st_graph _ _ _ _ Hm) as (Hwf & _ & Hk). destruct (Hk k) as (Hl & Hroom & Hst & _).
  pose proof (st_edges _ _ _ _ Hm k) as Hin. rewrite HE in Hin.
  apply Forall_app in Hin as [_ [[Hu Hv] _]%Forall_cons].
  destruct (Hst (number (vertices g) <$> E1) (number (vertices g) e) (number (vertices g) <$> E0))
    as (b & Hb & Hw).
  { unfold numbered. by rewrite HE, fmap_app. }
  rewrite length_fmap in Hb.
  assert (is_u32 (raddress k (S (length E0)))) as Ha.
  { apply lookup_lt_Some in Hb. pose proof (BLOCK_SIZE_pos k). unfold is_u32, raddress in *. nia. }
  destruct (getRelation_run s nbs rbs k (S (length E0)) b _ _ Hs Hwf ltac:(lia) Hb Hw Ha)
    as (s1 & R & Hs1 & _).
  do 4 eexists. split_and!; [exact R|done|done|done|exact (id_vertex_object _ _ _ _ e.1 Hm Hu)|done|].
  exact (id_vertex_object _ _ _ _ e.2 Hm Hv).
Qed.

(** Scanning the blocks [S (length E0)], ..., in file order. *)
Lemma scan_run m g nbs rbs k E1 E0 s :
  stored m g nbs rbs -> gedges g k = E1 ++ E0 -> files s nbs rbs ->
  exists s', scan_relations k (length E1) (Z.of_nat (S (length E0))) (edge_map E0) s =
    (Ret (edge_map (E1 ++ E0)), s') /\ files s' nbs rbs.
Proof.
  intros Hm. revert E0 s. induction E1 as [|e E1 IH] using rev_ind; intros E0 s HE Hs;
    [by exists s|].
  rewrite length_app, Nat.add_comm. cbn [length Nat.add scan_relations].
  rewrite <- app_assoc in HE. cbn [app] in HE.
  destruct (stored_relation_run m g nbs rbs k E1 e E0 s Hm HE Hs)
    as (s1 & r & sn & dn & R & Hs1 & _ & Esn & Psn & Edn & Pdn).
  change (Z.of_nat (S (length E0)) * BLOCK_SIZE k) with (raddress k (S (length E0))).
  rewrite (bind_Ret _ _ _ _ _ R). rewrite (bind_Ret _ _ _ r s1) by done.
  rewrite (bind_Ret _ _ _ sn s1) by by rewrite Esn. rewrite Psn. rewrite (bind_Ret _ _ _ (vid e.1) s1) by done.
  rewrite (bind_Ret _ _ _ dn s1) by by rewrite Edn. rewrite Pdn. rewrite (bind_Ret _ _ _ (vid e.2) s1) by done.
  destruct (IH (e :: E0) s1) as (s2 & R2 & Hs2); [done..|]. exists s2. split; [|done].
  rewrite <- app_assoc. cbn [app]. rewrite <- R2. cbn [edge_map foldr length]. f_equal. lia.
Qed.

Lemma getKindAdjacencyList_run m g (isLocal : bool) :
  let k := if isLocal then Local else Central in
  repr m g -> Z.of_nat (length (fs_data (rel_file k (dbs m)))) < 2147483648 ->
  exists m' adj, getKindAdjacencyList isLocal m = (Ret adj, m') /\ repr m' g /\
    forall z (x : Z), x ∈ (default ∅ (adj !! z) : gset Z) <->
      exists e, e ∈ gedges g k /\ vid e.1 = z /\ vid e.2 = x.
Proof.
  intros k [Hl (nbs & rbs & Hm)] Hsz.
  pose proof (st_files _ _ _ _ Hm) as Hs. pose proof Hs as [_ Hr]. destruct (Hr k) as [[_ Hd] _].
  pose proof (st_graph _ _ _ _ Hm) as (_ & _ & Hk). destruct (Hk k) as (Hlen & _).
  destruct (scan_run m g nbs rbs k (gedges g k) [] (dbs m) Hm) as (s' & R & Hs');
    [by rewrite app_nil_r|done|]. rewrite app_nil_r in R.
  exists (set_dbs s' m), (edge_map (gedges g k)). split_and!.
  - unfold getKindAdjacencyList. fold k. erewrite bind_Ret; [|reflexivity]. apply zoom_run.
    unfold dbSize. rewrite s32_id by lia.
    assert (Z.to_nat (Z.of_nat (length (fs_data (rel_file k (dbs m)))) / BLOCK_SIZE k - 1)
      = length (gedges g k)) as ->; [|exact R].
    rewrite (block_file_length _ _ _ Hd), BLOCK_SIZE_rsize, Nat2Z.inj_mul, Z.div_mul
      by (pose proof (BLOCK_SIZE_pos k); rewrite BLOCK_SIZE_rsize in *; lia).
    rewrite Hlen. unfold numbered. destruct (gedges g k); cbn; [done|]. rewrite length_fmap. lia.
  - split; [done|]. exists nbs, rbs. by apply stored_dbs.
  - apply elem_of_edge_map.
Qed.

(** [getAdjacencyList(bool)], the scan of one relation file: while the file
    is below 2 GiB it returns, and the set of a vertex number holds exactly
    the numbers of the destinations of the edges of that kind that start
    there. *)
Theorem getKindAdjacencyList_spec m g (isLocal : bool) :
  let k := if isLocal then Local else Central in
  repr m g -> Z.of_nat (length (fs_data (rel_file k (dbs m)))) < 2147483648 ->
  exists m' adj, getKindAdjacencyList isLocal m = (Ret adj, m') /\ repr m' g /\
    forall z (x : Z), x ∈ (default ∅ (adj !! z) : gset Z) <->
      exists e, e ∈ gedges g k /\ vid e.1 = z /\ vid e.2 = x.
Proof. apply getKindAdjacencyList_run. Qed.
End scan.
