(* ===== verification/Persistence.v ===== *)
(** * Persistence: closing and reopening a partition

    The index files are written by [persistNodeIndex] and
    [persistEdgeIndex] (and appended to by [addNodeIndex]) and read back by
    [readNodeIndex] and [readEdgeIndex] when a partition is opened in append
    mode.  Reading inverts writing, and a reopened partition represents the
    graph it was closed, or abandoned, with. *)
From Stdlib Require Import ZArith Ascii String Lia.
From stdpp Require Import base tactics numbers list strings gmap.
From S2P Require Import Prelude FStream PropertyLinks NodeBlock RelationBlock NodeRelations.
From S2P Require Import NodeManager GraphFiles GraphTheory ManagerTheory.

(** ** Index records *)

(** A key that a record can hold. *)
Definition key_ok (keysz : nat) (s : string) : Prop := no_nul s /\ (length (chars s) < keysz)%nat.

Definition entry_ok (keysz : nat) (e : string * Z) : Prop := key_ok keysz e.1 /\ is_u32 e.2.

Definition records_of (keysz : nat) (es : list (string * Z)) : list ascii :=
  concat ((fun e => index_record (resize keysz nul (chars e.1)) e.2) <$> es).

Lemma length_records_of keysz es : length (records_of keysz es) = (length es * (keysz + 4))%nat.
Proof.
  induction es as [|e es IH]; [done|]. unfold records_of in *. rewrite fmap_cons. cbn [concat].
  rewrite length_app, IH. unfold index_record. rewrite length_app, length_resize, length_enc32. simpl. lia.
Qed.

Lemma node_index_file_records keysz es :
  Forall (entry_ok keysz) es -> node_index_file keysz es = records_of keysz es.
Proof.
  unfold node_index_file, records_of. intros H. f_equal.
  induction H as [|e es [[_ Hl] _] _ IH]; [done|]. rewrite !fmap_cons, IH. f_equal.
  by rewrite decide_False by lia.
Qed.

Lemma edge_index_file_records keysz es :
  Forall (entry_ok keysz) es -> edge_index_file keysz es = Some (records_of keysz es).
Proof.
  induction 1 as [|e es [[Hn Hl] _] _ IH]; [done|]. cbn [edge_index_file].
  unfold strcpy_buf. rewrite c_str_no_nul, decide_True by done. cbn [mbind option_bind].
  rewrite IH. cbn [mbind option_bind]. unfold records_of. by rewrite fmap_cons.
Qed.

(** Reading one record. *)
Lemma read_record keysz e rest pre p :
  entry_ok keysz e -> p = Z.of_nat (length pre) ->
  let d := pre ++ index_record (resize keysz nul (chars e.1)) e.2 ++ rest in
  read_seq [keysz; 4%nat] (FStream d p false) =
  (Ret (Some [resize keysz nul (chars e.1); enc32 e.2]), FStream d (p + Z.of_nat (keysz + 4)) false).
Proof.
  intros [[Hn Hl] Hu] -> d. unfold d, index_record. rewrite read_seq_run.
  - rewrite Nat2Z.id. cbn [pieces total]. rewrite Nat.add_0_r. do 3 f_equal.
    unfold read_data. f_equal; [|f_equal].
    + rewrite drop_app_length, <- app_assoc. rewrite take_app_length'; [done|]. by rewrite length_resize.
    + rewrite <- drop_drop, drop_app_length, <- app_assoc, drop_app_length' by by rewrite length_resize.
      rewrite take_app_length'; done.
  - lia.
  - rewrite Nat2Z.id, !length_app, length_resize, length_enc32. cbn [total]. lia.
Qed.

Definition insert_all (acc : gmap string Z) (es : list (string * Z)) : gmap string Z :=
  foldl (fun acc e => <[e.1 := e.2]> acc) acc es.

Lemma index_loop_run keysz es pre acc p :
  Forall (entry_ok keysz) es -> p = Z.of_nat (length pre) ->
  exists st, index_loop (length es) keysz acc (FStream (pre ++ records_of keysz es) p false)
    = (Ret (insert_all acc es), st).
Proof.
  intros H. revert pre acc p. induction H as [|e es He _ IH]; intros pre acc p Hp; [by eexists|].
  unfold records_of. rewrite fmap_cons. cbn [concat length index_loop]. fold (records_of keysz es).
  rewrite (bind_Ret _ _ _ _ _ (read_record keysz e (records_of keysz es) pre p He Hp)).
  destruct He as [[Hn Hl] Hu]. cbn beta iota.
  erewrite bind_Ret; [|by rewrite cstring_pad, string_chars].
  rewrite dec32_enc32 by done. rewrite app_assoc. apply IH.
  rewrite length_app. unfold index_record. rewrite length_app, length_resize, length_enc32. lia.
Qed.

Lemma edge_index_loop_run keysz es pre acc p :
  Forall (entry_ok keysz) es -> p = Z.of_nat (length pre) ->
  exists st, edge_index_loop (length es) keysz acc (FStream (pre ++ records_of keysz es) p false)
    = (Ret (insert_all acc es), st).
Proof.
  intros H. revert pre acc p. induction H as [|e es He _ IH]; intros pre acc p Hp; [by eexists|].
  unfold records_of. rewrite fmap_cons. cbn [concat length edge_index_loop]. fold (records_of keysz es).
  rewrite (bind_Ret _ _ _ _ _ (read_record keysz e (records_of keysz es) pre p He Hp)).
  destruct He as [[Hn Hl] Hu]. cbn beta iota.
  erewrite bind_Ret; [|by rewrite cstring_pad, string_chars].
  rewrite dec32_enc32 by done. rewrite app_assoc. apply IH.
  rewrite length_app. unfold index_record. rewrite length_app, length_resize, length_enc32. lia.
Qed.

Lemma record_count_records keysz es :
  Z.of_nat (length (records_of keysz es)) < 2147483648 ->
  record_count keysz (records_of keysz es) = Z.of_nat (length es).
Proof.
  intros H. unfold record_count, dbSize. rewrite s32_id by lia.
  rewrite Z.mod_small by lia. rewrite length_records_of.
  replace (Z.of_nat (length es * (keysz + 4))) with (Z.of_nat (length es) * (Z.of_nat keysz + 4)) by lia.
  apply Z.div_mul. lia.
Qed.

(** [NoDup] keys: insertion order does not matter. *)
Lemma insert_all_lookup es acc s v :
  NoDup (fst <$> es) -> (s, v) ∈ es -> insert_all acc es !! s = Some v.
Proof.
  revert acc. induction es as [|e es IH]; intros acc; [by intros _ ?%not_elem_of_nil|].
  rewrite fmap_cons. intros [Hn Hnd]%NoDup_cons [<-|Hin]%elem_of_cons; [|by apply IH].
  cbn. clear IH. revert Hn. generalize (<[s := v]> acc) (lookup_insert_eq acc s v).
  cbn. clear. induction es as [|e es IH]; intros acc Ha Hn; [done|].
  rewrite fmap_cons, not_elem_of_cons in Hn. destruct Hn as [H1 H2]. cbn. apply IH; [|done].
  by rewrite lookup_insert_ne.
Qed.

Lemma insert_all_list_to_map es : NoDup (fst <$> es) -> insert_all ∅ es = list_to_map es.
Proof.
  intros Hnd. apply map_eq. intros s. destruct (list_to_map es !! s) as [v|] eqn:E.
  - apply insert_all_lookup; [done|]. by apply elem_of_list_to_map_2.
  - apply not_elem_of_list_to_map_2 in E. unfold insert_all. clear Hnd.
    assert ((∅ : gmap string Z) !! s = None) as H0 by apply lookup_empty. revert H0 E.
    generalize (∅ : gmap string Z). induction es as [|e es IH]; intros acc Ha Hn; [done|].
    rewrite fmap_cons, not_elem_of_cons in Hn. destruct Hn as [H1 H2]. cbn. apply IH; [|done].
    by rewrite lookup_insert_ne.
Qed.

Lemma readNodeIndex_records keysz es :
  Forall (entry_ok keysz) es -> NoDup (fst <$> es) ->
  Z.of_nat (length (records_of keysz es)) < 2147483648 ->
  readNodeIndex keysz (records_of keysz es) = (Ret (list_to_map es), u32 (Z.of_nat (length es))).
Proof.
  intros Hok Hnd Hsz. unfold readNodeIndex. rewrite record_count_records, Nat2Z.id by done.
  destruct (index_loop_run keysz es [] ∅ 0 Hok eq_refl) as [st R]. cbn [app] in R. rewrite R.
  by rewrite insert_all_list_to_map.
Qed.

Lemma readEdgeIndex_records keysz es :
  Forall (entry_ok keysz) es -> NoDup (fst <$> es) ->
  Z.of_nat (length (records_of keysz es)) < 2147483648 ->
  readEdgeIndex keysz (records_of keysz es) = (Ret (list_to_map es), Z.of_nat (length es)).
Proof.
  intros Hok Hnd Hsz. unfold readEdgeIndex. rewrite record_count_records, Nat2Z.id by done.
  destruct (edge_index_loop_run keysz es [] ∅ 0 Hok eq_refl) as [st R]. cbn [app] in R. rewrite R.
  by rewrite insert_all_list_to_map.
Qed.

(** The entries of an index map, in any order. *)
Lemma order_entries (mp : gmap string Z) order :
  order ≡ₚ map_to_list mp -> NoDup (fst <$> order) /\ list_to_map order = mp.
Proof.
  intros Hp. assert (NoDup (fst <$> order)) as Hnd by (rewrite Hp; apply NoDup_fst_map_to_list).
  split; [done|]. rewrite (list_to_map_proper order (map_to_list mp)) by done. apply list_to_map_to_list.
Qed.

(** What [persistNodeIndex] writes, [readNodeIndex] reads back: for any
    iteration order of the index, provided the keys are NUL-free and shorter
    than the key size and the file is below 2 GiB, the same map comes back and
    the next node index is its size. *)
Theorem node_index_roundtrip m order :
  order ≡ₚ map_to_list (nodeIndex m) ->
  map_Forall (fun s v => entry_ok (INDEX_KEY_SIZE m) (s, v)) (nodeIndex m) ->
  Z.of_nat (size (nodeIndex m) * (INDEX_KEY_SIZE m + 4)) < 2147483648 ->
  exists m', persistNodeIndex order m = (Ret tt, m') /\
    readNodeIndex (INDEX_KEY_SIZE m) (indexDB m') =
      (Ret (nodeIndex m), Z.of_nat (size (nodeIndex m))).
Proof.
  intros Hp Hok Hsz. eexists. split; [reflexivity|]. cbn [indexDB set_indexDB].
  destruct (order_entries _ _ Hp) as [Hnd Hmap].
  assert (Forall (entry_ok (INDEX_KEY_SIZE m)) order) as Hall.
  { rewrite Hp. apply Forall_forall. intros [s v] Hin%elem_of_map_to_list. by apply Hok. }
  assert (length order = size (nodeIndex m)) as Hlen by (rewrite Hp; apply length_map_to_list).
  rewrite node_index_file_records by done.
  rewrite readNodeIndex_records; [|done|done|by rewrite length_records_of, Hlen].
  rewrite Hmap, Hlen, u32_id; [done|]. unfold is_u32. nia.
Qed.

(** The same for the edge index. *)
Lemma edge_index_roundtrip m order :
  order ≡ₚ map_to_list (edgeIndex m) ->
  map_Forall (fun s v => entry_ok (INDEX_KEY_SIZE m) (s, v)) (edgeIndex m) ->
  Z.of_nat (size (edgeIndex m) * (INDEX_KEY_SIZE m + 4)) < 2147483648 ->
  exists m', persistEdgeIndex order m = (Ret tt, m') /\
    readEdgeIndex (INDEX_KEY_SIZE m) (edgeIndexDB m') =
      (Ret (edgeIndex m), Z.of_nat (size (edgeIndex m))).
Proof.
  intros Hp Hok Hsz. destruct (order_entries _ _ Hp) as [Hnd Hmap].
  assert (Forall (entry_ok (INDEX_KEY_SIZE m)) order) as Hall.
  { rewrite Hp. apply Forall_forall. intros [s v] Hin%elem_of_map_to_list. by apply Hok. }
  assert (length order = size (edgeIndex m)) as Hlen by (rewrite Hp; apply length_map_to_list).
  eexists. split.
  - unfold persistEdgeIndex. erewrite bind_Ret; [|reflexivity].
    rewrite edge_index_file_records by done. reflexivity.
  - cbn [edgeIndexDB set_edgeIndexDB].
    rewrite readEdgeIndex_records; [|done|done|by rewrite length_records_of, Hlen].
    by rewrite Hmap, Hlen.
Qed.

(** ** Reopening *)

Lemma index_entries_fst vs : fst <$> index_entries vs = vs.
Proof.
  unfold index_entries. rewrite fmap_imap. transitivity (imap (const (fun s : string => s)) vs); [done|].
  rewrite imap_const. apply list_fmap_id.
Qed.

Lemma index_entries_ok m g nbs rbs :
  stored m g nbs rbs -> Forall (entry_ok (INDEX_KEY_SIZE m)) (index_entries (vertices g)).
Proof.
  intros Hm. apply Forall_forall. intros [s v] Hin. unfold index_entries in Hin.
  apply elem_of_lookup_imap in Hin as (i & s' & E & Hi). simplify_eq.
  pose proof (st_ids _ _ _ _ Hm) as Hids. eapply Forall_lookup_1 in Hids as (H1 & H2 & _); [|done].
  apply lookup_lt_Some in Hi. destruct Hm as [_ (_ & Hr & _) Hb _ _ _ _ _ _].
  apply Forall2_length in Hb. split; [done|]. unfold is_u32, naddress, NODE_BLOCK_SIZE in *. simpl. lia.
Qed.

Lemma stored_index_map m g nbs rbs :
  stored m g nbs rbs -> nodeIndex m = list_to_map (index_entries (vertices g)).
Proof.
  intros Hm. pose proof (st_nodup _ _ _ _ Hm) as Hnd. apply map_eq. intros s.
  rewrite (st_index _ _ _ _ Hm). symmetry. case_decide as Hs.
  - apply elem_of_list_to_map_1; [by rewrite index_entries_fst|]. unfold index_entries.
    apply elem_of_lookup_imap. exists (vnum (vertices g) s), s. split; [done|]. by apply vnum_lookup.
  - apply not_elem_of_list_to_map_1. by rewrite index_entries_fst.
Qed.

Lemma next_block_index_blocks k d (bs : list (list ascii)) :
  block_file (rsize k) d bs -> length bs <> 1%nat -> raddress k (length bs) <= 4294967296 ->
  (bs = [] /\ next_block_index d (BLOCK_SIZE k) = 1) \/
  ((2 <= length bs)%nat /\ next_block_index d (BLOCK_SIZE k) = Z.of_nat (length bs)).
Proof.
  intros Hd H1 Hr. unfold next_block_index. rewrite (block_file_length _ _ _ Hd), BLOCK_SIZE_rsize.
  pose proof (BLOCK_SIZE_pos k). rewrite BLOCK_SIZE_rsize in *.
  rewrite Nat2Z.inj_mul, Z.div_mul by lia.
  destruct bs as [|b [|b' bs]]; [by left|done|right].
  split; [simpl; lia|]. destruct (Z.eqb_spec (Z.of_nat (length (b :: b' :: bs))) 0); [simpl in *; lia|].
  apply u32_id. unfold is_u32, raddress in *. rewrite BLOCK_SIZE_rsize in Hr. nia.
Qed.

(** The store a partition is opened with. *)
Definition reopened (d : disk) : store :=
  Store (FStream (d_nodes d) 0 false)
    (open_links PropertyLink (d_properties d)) (open_links MetaPropertyLink (d_metaProperties d))
    (open_links PropertyEdgeLink (d_edgeProperties d))
    (open_links MetaPropertyEdgeLink (d_metaEdgeProperties d))
    (FStream (d_relations d) 0 false) (FStream (d_centralRelations d) 0 false)
    (next_block_index (d_relations d) (BLOCK_SIZE Local))
    (next_block_index (d_centralRelations d) (BLOCK_SIZE Central)).

Lemma files_reopened m nbs rbs G :
  files (dbs m) nbs rbs -> graph_ok nbs rbs G -> files (reopened (disk_of m)) nbs rbs.
Proof.
  intros [[_ Hn] Hr] (_ & _ & Hk). split; [done|]. intros k. destruct (Hr k) as [[_ Hd] Hi].
  destruct (Hk k) as (Hl & Hroom & _). split; [by destruct k|].
  pose proof (next_block_index_blocks k _ _ Hd) as H.
  assert (length (rbs k) <> 1%nat) as H1 by (rewrite Hl; destruct (G k); simpl; lia).
  destruct (H H1 Hroom) as [?|?]; [left|right]; by destruct k.
Qed.

Definition append_config (c : GraphConfig) (m : manager) : Prop :=
  openMode c = FILE_MODE /\ maxLabelSize c = INDEX_KEY_SIZE m /\ INDEX_KEY_SIZE m <> 0%nat.

Lemma open_stored m g nbs rbs c ei ne :
  stored m g nbs rbs -> append_config c m ->
  Z.of_nat (length (indexDB m)) < 2147483648 ->
  readEdgeIndex (INDEX_KEY_SIZE m) (edgeIndexDB m) = (Ret ei, ne) ->
  exists m', openNodeManager c (disk_of m) = Ret m' /\ stored m' g nbs rbs /\
    lockEdgeAdd m' = false /\ edgeIndex m' = ei /\ nextEdgeIndex m' = ne /\
    nodeIndex m' = nodeIndex m /\ nextNodeIndex m' = nextNodeIndex m.
Proof.
  intros Hm (Hmode & Hkey & Hk0) Hsz Hei. pose proof (st_order _ _ _ _ Hm) as (order & Hp & Hidx).
  pose proof (index_entries_ok _ _ _ _ Hm) as Hok. rewrite <- Hp in Hok.
  assert (NoDup (fst <$> order)) as Hnd by (rewrite Hp, index_entries_fst; by destruct Hm).
  rewrite Hidx, node_index_file_records in Hsz by done.
  pose proof (readNodeIndex_records _ order Hok Hnd Hsz) as Hread.
  rewrite <- (node_index_file_records _ order Hok), <- Hidx in Hread.
  assert (list_to_map order = nodeIndex m) as Hmap.
  { rewrite (stored_index_map _ _ _ _ Hm). by apply list_to_map_proper. }
  assert (u32 (Z.of_nat (length order)) = nextNodeIndex m) as Hnn.
  { rewrite (st_next _ _ _ _ Hm). rewrite Hp. unfold index_entries. rewrite length_imap.
    apply u32_id. destruct Hm as [_ (_ & Hr & _) Hb _ _ _ _ _ _]. apply Forall2_length in Hb.
    unfold is_u32, naddress, NODE_BLOCK_SIZE in *. lia. }
  rewrite Hmap, Hnn in Hread.
  exists (Manager (reopened (disk_of m)) (cfg_graphID c) (cfg_partitionID c) (INDEX_KEY_SIZE m)
    (indexDB m) (edgeIndexDB m) ne (nextNodeIndex m) (nodeIndex m) ei false).
  split_and!; try done.
  - unfold openNodeManager. rewrite bool_decide_true by done. rewrite Hkey, decide_False by done.
    cbn [d_index d_edgeIndex disk_of]. by rewrite Hread, Hei.
  - destruct Hm. constructor; try done. by eapply files_reopened.
Qed.

Lemma persist_stored m g nbs rbs order :
  stored m g nbs rbs -> order ≡ₚ map_to_list (nodeIndex m) ->
  stored (set_indexDB (node_index_file (INDEX_KEY_SIZE m) order) m) g nbs rbs.
Proof.
  intros Hm Hp. pose proof (stored_index_map _ _ _ _ Hm) as Hmap. destruct Hm. constructor; try done.
  exists order. split; [|done]. rewrite Hp, Hmap. apply map_to_list_to_map.
  by rewrite index_entries_fst.
Qed.

Lemma length_order m g nbs rbs order :
  stored m g nbs rbs -> order ≡ₚ map_to_list (nodeIndex m) -> length order = length (vertices g).
Proof.
  intros Hm Hp. rewrite Hp, (stored_index_map _ _ _ _ Hm), map_to_list_to_map.
  - unfold index_entries. apply length_imap.
  - rewrite index_entries_fst. by destruct Hm.
Qed.

(** C7. [NodeManager::close] followed by opening the files in append mode: for
    any iteration orders of the two indexes the new manager represents the
    same graph and has the same indexes. *)
Theorem close_reopen_refines m g c nodeOrder edgeOrder :
  repr m g -> append_config c m ->
  nodeOrder ≡ₚ map_to_list (nodeIndex m) -> edgeOrder ≡ₚ map_to_list (edgeIndex m) ->
  map_Forall (fun s v => entry_ok (INDEX_KEY_SIZE m) (s, v)) (edgeIndex m) ->
  Z.of_nat (length (vertices g) * (INDEX_KEY_SIZE m + 4)) < 2147483648 ->
  Z.of_nat (size (edgeIndex m) * (INDEX_KEY_SIZE m + 4)) < 2147483648 ->
  exists m1 m2, closeNodeManager nodeOrder edgeOrder m = (Ret tt, m1) /\
    openNodeManager c (disk_of m1) = Ret m2 /\ repr m2 g /\
    nodeIndex m2 = nodeIndex m /\ edgeIndex m2 = edgeIndex m /\
    nextNodeIndex m2 = nextNodeIndex m /\ nextEdgeIndex m2 = Z.of_nat (size (edgeIndex m)).
Proof.
  intros [Hl (nbs & rbs & Hm)] Hc Hn He Heok Hnsz Hesz.
  pose proof (persist_stored _ _ _ _ _ Hm Hn) as Hm1.
  set (m1 := set_indexDB (node_index_file (INDEX_KEY_SIZE m) nodeOrder) m) in *.
  destruct (order_entries _ _ He) as [Hnd Hmap].
  assert (Forall (entry_ok (INDEX_KEY_SIZE m)) edgeOrder) as Hall.
  { rewrite He. apply Forall_forall. intros [s v] Hin%elem_of_map_to_list. by apply Heok. }
  assert (length edgeOrder = size (edgeIndex m)) as Hlen by (rewrite He; apply length_map_to_list).
  set (m2 := set_edgeIndexDB (records_of (INDEX_KEY_SIZE m) edgeOrder) m1).
  assert (closeNodeManager nodeOrder edgeOrder m = (Ret tt, m2)) as R.
  { unfold closeNodeManager. erewrite bind_Ret; [|reflexivity]. fold m1.
    unfold persistEdgeIndex. erewrite bind_Ret; [|reflexivity].
    rewrite edge_index_file_records by done. reflexivity. }
  assert (stored m2 g nbs rbs) as Hm2 by (destruct Hm1; by constructor).
  pose proof (readEdgeIndex_records _ _ Hall Hnd) as Hread.
  rewrite length_records_of, Hlen in Hread. specialize (Hread Hesz). rewrite Hmap in Hread.
  destruct (open_stored m2 g nbs rbs c (edgeIndex m) (Z.of_nat (size (edgeIndex m))) Hm2 Hc)
    as (m3 & R3 & Hm3 & L3 & E1 & E2 & E3 & E4); [|done|].
  { change (indexDB m2) with (node_index_file (INDEX_KEY_SIZE m) nodeOrder).
    pose proof (index_entries_ok _ _ _ _ Hm) as Hok.
    rewrite node_index_file_records, length_records_of, (length_order _ _ _ _ _ Hm Hn); [done|].
    rewrite Hn, (stored_index_map _ _ _ _ Hm), map_to_list_to_map; [done|].
    rewrite index_entries_fst. by destruct Hm. }
  exists m2, m3. split_and!; try done. split; [done|by eauto].
Qed.
