(* ===== verification/PropertyOwners.v ===== *)
(** * PropertyOwners: the properties and types of vertices and edges

    [NodeBlock::addProperty], [RelationBlock::add*Property] and the
    relationship types, over the property lists of PropertyLinkTheory and the
    files of GraphFiles: the first property of an owner is reachable from its
    stored block; a further property is appended to the stored list, but the
    owner object is left pointing into the middle of it. *)
From Stdlib Require Import ZArith Ascii String Lia.
From stdpp Require Import functions base tactics numbers list strings gmap.
From S2P Require Import Prelude FStream PropertyLinks PropertyLinkTheory NodeBlock RelationBlock NodeRelations.
From S2P Require Import NodeManager GraphFiles GraphTheory.

(** The list after the insertion of a new name. *)
Lemma upsert_absent {C : LinkClass} nm dv new es :
  nm ∉ (e_name <$> es) -> upsert nm dv new es = es ++ [new].
Proof.
  induction es as [|e es IH]; [done|]. rewrite fmap_cons, not_elem_of_cons. intros [H1 H2]. cbn.
  rewrite decide_False by done. by rewrite IH.
Qed.

Lemma visited_absent nm i es e :
  nm ∉ (e_name <$> (es ++ [e])) -> visited nm i (es ++ [e]) = e_idx e.
Proof.
  revert i. induction es as [|e' es IH]; intros i; rewrite ?app_nil_l; cbn.
  - rewrite not_elem_of_cons. intros [H1 _]. by rewrite decide_False.
  - rewrite not_elem_of_cons. intros [H1 H2]. rewrite decide_False by done. by apply IH.
Qed.

(** Node blocks that differ at most in the property head. *)
Definition set_prop b (a : Z) : list ascii := write_data b 14 (enc32 a).

Lemma set_prop_fields b a :
  length b = 140%nat -> is_u32 a ->
  nf32 14 (set_prop b a) = a /\ length (set_prop b a) = 140%nat /\
  nf_id (set_prop b a) = nf_id b /\ nf_label (set_prop b a) = nf_label b /\
  (forall k, node_head k (set_prop b a) = node_head k b) /\ nf32 18 (set_prop b a) = nf32 18 b.
Proof.
  intros Hb Ha. unfold set_prop. split_and!.
  - unfold nf32. change 4%nat with (length (enc32 a)) at 2. rewrite read_write_same. by apply dec32_enc32.
  - by rewrite length_write_data_le by (rewrite length_enc32; lia).
  - unfold nf_id, nf32. by rewrite read_write_before by lia.
  - unfold nf_label. by rewrite read_write_after by (rewrite ?length_enc32; lia).
  - intros k. unfold node_head, nf32. rewrite read_write_before; [done|destruct k; simpl; lia|lia].
  - unfold nf32. by rewrite read_write_after by (rewrite ?length_enc32; lia).
Qed.

Lemma write_prop_run s nbs rbs x b n a :
  files s nbs rbs -> nbs !! x = Some b -> addr n = naddress x ->
  exists s', (on_nodes (seek (addr n + PROP_REF_OFFSET));; on_nodes (write (enc32 a))) s = (Ret true, s') /\
    files s' (<[x := set_prop b a]> nbs) rbs /\ same_links s s'.
Proof.
  intros Hs Hx Hn. pose proof Hs as [[Hf Hd] _]. pose proof (good_run _ _ _ (conj Hf Hd)) as E.
  eexists. split; [|split].
  - erewrite bind_Ret; [|apply on_nodes_run; rewrite E; apply seek_run].
    apply on_nodes_run. cbn [nodesDB set_nodesDB]. apply write_run.
  - change (set_nodesDB ?f (set_nodesDB _ s)) with (set_nodesDB f s).
    eapply files_nodes; [exact Hs|]. rewrite Hn.
    replace (Z.to_nat (naddress x + PROP_REF_OFFSET)) with (x * 140 + 14)%nat
      by (unfold naddress, NODE_BLOCK_SIZE, PROP_REF_OFFSET; lia).
    apply write_block; [done..|]. rewrite length_enc32. lia.
  - done.
Qed.

Lemma files_links s nbs rbs l : files s nbs rbs -> files (set_propertiesDB l s) nbs rbs.
Proof. intros [H1 H2]. split; [done|]. intros k. specialize (H2 k). by destruct k. Qed.

Section vertex_properties.
Context (s : store) (nbs : list (list ascii)) (rbs : kind -> list (list ascii)).
Context (bs : list (list ascii)) (n : NodeBlock) (nm : string) (v dn dv : list ascii).
Context (Hs : files s nbs rbs).
Context (Hok : @links_ok PropertyLink (propertiesDB s) bs).
Context (Hroom : @room PropertyLink (propertiesDB s)).
Context (Hnm : strcpy_buf 30 nm = Some dn) (Hval : memcpy_buf 400 v = Some dv).

#[local] Abbreviation key := (string_of_list_ascii (c_str nm)).

Lemma add_next es :
  @chain PropertyLink bs (propRef n) es -> es <> [] ->
  exists s' n' bs', addProperty n nm v s = (Ret n', s') /\
    files s' nbs rbs /\ n' = with_propRef n (@laddr PropertyLink (visited nm 0 es)) /\
    @links_ok PropertyLink (propertiesDB s') bs' /\
    @chain PropertyLink bs' (propRef n) (@upsert PropertyLink nm dv (length bs, key, dv) es).
Proof.
  intros Hc Hne.
  destruct (insert_at_run (C := PropertyLink) (link_fuel (propertiesDB s)) (propertiesDB s) bs
    (propRef n) es nm v dn dv key) as (l & bs' & R & Hok' & _ & Hc' & _); try done.
  { pose proof (link_fuel_enough (C := PropertyLink) _ _ _ _ Hok Hc). lia. }
  { by eapply cstring_strcpy. }
  exists (set_propertiesDB l s). do 2 eexists. split_and!; [|by apply files_links|done|done|exact Hc'].
  unfold addProperty. destruct es as [|e es]; [done|].
  destruct (chain_cons_inv (C := PropertyLink) _ _ _ _ Hc) as (_ & _ & Hi & Ha & _).
  pose proof (laddr_pos (C := PropertyLink) _ Hi).
  destruct (Z.eqb_spec (propRef n) 0); [lia|]. unfold on_props, insert_head.
  erewrite bind_Ret; [|apply zoom_run, R]. done.
Qed.

(** The first property of a stored vertex: its list is created, its address
    goes into the vertex object and into the vertex block - so that a vertex
    loaded later has it -, nothing else in the block changes, the lists of
    other vertices are kept, and reading the properties gives the value. *)
Theorem addProperty_first x b :
  nbs !! x = Some b -> length b = 140%nat -> addr n = naddress x -> propRef n = 0 -> nul ∈ dv ->
  exists s' n' i bs' b', addProperty n nm v s = (Ret n', s') /\
    files s' (<[x := b']> nbs) rbs /\ nf32 14 b' = propRef n' /\
    nf_id b' = nf_id b /\ nf_label b' = nf_label b /\ (forall k, node_head k b' = node_head k b) /\
    @links_ok PropertyLink (propertiesDB s') bs' /\
    @chain PropertyLink bs' (propRef n') [(i, key, dv)] /\
    (forall a es, @chain PropertyLink bs a es -> @chain PropertyLink bs' a es) /\
    exists s'', NodeBlock_getAllProperties n' s' =
      (Ret {[key := string_of_list_ascii (until_nul dv)]}, s'').
Proof.
  intros Hx Hb Hn Hp Hnul.
  destruct (create_fresh (C := PropertyLink) (propertiesDB s) bs nm v dn dv key Hok Hroom Hnm)
    as (l & bs' & i & R1 & Hok' & _ & Hu & Hc & Hfr); [by eapply cstring_strcpy|done|].
  set (a := laddr i) in *. set (n1 := with_propRef n a).
  destruct (write_prop_run _ _ _ x b n1 a (files_links _ _ _ l Hs) Hx Hn) as (s' & R2 & Hs' & L).
  destruct (set_prop_fields b a Hb Hu) as (F1 & F2 & F3 & F4 & F5 & F6).
  assert (propertiesDB s' = l) as El by by destruct L as (-> & _).
  destruct (all_properties_run (C := PropertyLink) (link_fuel l) l bs' a [(i, key, dv)])
    as (l' & R3 & _); [done..|by repeat constructor|by eapply link_fuel_enough|].
  exists s', n1, i, bs', (set_prop b a). split_and!; try done; [|by rewrite El|by intros ? ? []%Hfr|].
  - unfold addProperty. rewrite Hp. cbn [Z.eqb]. erewrite bind_Ret; [|apply zoom_run, R1].
    cbn beta iota. apply bind_Ret_inv in R2 as ([] & s1 & R2 & R2').
    erewrite bind_Ret; [|exact R2]. erewrite bind_Ret; [|exact R2']. done.
  - eexists. unfold NodeBlock_getAllProperties. apply zoom_run. rewrite El.
    cbn [props e_name e_value fst snd] in R3. rewrite insert_empty in R3. exact R3.
Qed.

(** A further property of a vertex whose object points at the head of its list:
    the stored list gets the new pair at its end (an existing name keeps its
    first value), the vertex block is not written, and the object is left
    with the address of the last block the insertion looked at. *)
Theorem addProperty_next es :
  @chain PropertyLink bs (propRef n) es -> es <> [] ->
  exists s' n' bs', addProperty n nm v s = (Ret n', s') /\
    files s' nbs rbs /\ n' = with_propRef n (@laddr PropertyLink (visited nm 0 es)) /\
    @links_ok PropertyLink (propertiesDB s') bs' /\
    @chain PropertyLink bs' (propRef n) (@upsert PropertyLink nm dv (length bs, key, dv) es).
Proof. apply add_next. Qed.

Lemma read_properties l bs' a es :
  @links_ok PropertyLink l bs' -> @chain PropertyLink bs' a es -> es <> [] -> readable_values es ->
  (get_all PropertyLink a l).1 = Ret (props es).
Proof.
  intros Hl Hc Hne Hv.
  destruct (all_properties_run (C := PropertyLink) (link_fuel l) l bs' a es) as (l' & R & _);
    [done..|by eapply link_fuel_enough|]. unfold get_all. by rewrite R.
Qed.

(** After a new name was added to a non-empty list, the stored list has all
    the properties, but the object that [addProperty] updated sees only the
    formerly last one and the new one. *)
Theorem addProperty_drift es e :
  @chain PropertyLink bs (propRef n) (es ++ [e]) -> nm ∉ (e_name <$> (es ++ [e])) ->
  readable_values (es ++ [e]) -> nul ∈ dv ->
  exists s' n', addProperty n nm v s = (Ret n', s') /\
    (NodeBlock_getAllProperties n s').1 = Ret (props (es ++ [e; (length bs, key, dv)])) /\
    (NodeBlock_getAllProperties n' s').1 = Ret (props [e; (length bs, key, dv)]).
Proof.
  intros Hc Hnin Hv Hnul. set (new := (length bs, key, dv)).
  destruct (add_next (es ++ [e]) Hc) as (s' & n' & bs' & R & _ & -> & Hok' & Hc'); [by destruct es|].
  rewrite upsert_absent in Hc' by done. rewrite visited_absent in R by done.
  rewrite <- app_assoc in Hc'.
  apply Forall_app in Hv as [Hv1 Hv2].
  assert (readable_values [e; new]) as Hv3 by (inversion_clear Hv2; by repeat constructor).
  assert (@chain PropertyLink bs' (@laddr PropertyLink (e_idx e)) [e; new]) as Hc2.
  { assert ((es ++ [e] ++ [new]) !! length es = Some e) as Hl by by apply list_lookup_middle.
    pose proof (chain_suffix (C := PropertyLink) _ _ _ _ _ Hc' Hl) as H.
    by rewrite drop_app_length in H. }
  assert (forall a l, (get_all PropertyLink a (propertiesDB s')).1 = Ret l ->
    (on_props (get_all PropertyLink a) s').1 = Ret l) as Hz.
  { intros a l Hl. unfold on_props, zoom. by destruct (get_all _ _ _). }
  exists s'. eexists. split; [exact R|]. split; apply Hz; (eapply read_properties; [done..| |]).
  - by destruct es.
  - by apply Forall_app.
  - done.
  - done.
Qed.
End vertex_properties.

(** ** Properties of an edge *)

Section edge_properties.
Context {HM : HostMemory}.

(** The first property of a stored edge: its list is created and its
    address goes into the edge object and into record 12 of the edge block;
    the two lists the block is in are untouched. *)
Theorem addRelationProperty_first s nbs rbs bs k r i b nm v dv :
  files s nbs rbs -> rbs k !! i = Some b -> length b = rsize k -> raddr r = raddress k i ->
  raddress k (S i) <= 4294967296 -> propertyAddress r = 0 ->
  @links_ok PropertyEdgeLink (edgePropertiesDB s) bs -> @room PropertyEdgeLink (edgePropertiesDB s) ->
  memcpy_buf 400 v = Some dv ->
  exists s' r' j bs' b',
    addRelationProperty k r nm v s = (Ret r', s') /\
    files s' nbs (upd_rel k (<[i := b']> (rbs k)) rbs) /\ rf 12 b' = propertyAddress r' /\
    (forall q, q <> 12%nat -> rf q b' = rf q b) /\ rf_type k b' = rf_type k b /\
    @links_ok PropertyEdgeLink (edgePropertiesDB s') bs' /\
    @chain PropertyEdgeLink bs' (propertyAddress r')
      [(j, string_of_list_ascii (take 29 (c_str nm)), dv)] /\
    (forall a es, @chain PropertyEdgeLink bs a es -> @chain PropertyEdgeLink bs' a es).
Proof.
  intros Hs Hi Hb Hr Hroom Hp Hok Hlr Hv.
  destruct (create_fresh (C := PropertyEdgeLink) (edgePropertiesDB s) bs nm v _ dv
    (string_of_list_ascii (take 29 (c_str nm))) Hok Hlr eq_refl)
    as (l & bs' & j & R1 & Hok' & _ & Hu & Hc & Hfr); [by apply (cstring_strncpy 30); lia|done|].
  assert (files (set_edgePropertiesDB l s) nbs rbs) as Hs1.
  { destruct Hs as [H1 H2]. split; [done|]. intros k'. specialize (H2 k'). by destruct k'. }
  set (r1 := with_propertyAddress r (@laddr PropertyEdgeLink j)).
  pose proof (records_bounds k) as Hrec.
  destruct (updateRelationRecords_run _ nbs rbs k i b r1 RELATION_PROPS (@laddr PropertyEdgeLink j) Hs1 Hi Hr)
    as (s' & R2 & Hs' & L); [simpl; lia|done|].
  assert (edgePropertiesDB s' = l) as El by by destruct L as (_ & _ & -> & _).
  exists s', r1, j, bs', (set_rf 12 b (@laddr PropertyEdgeLink j)). split_and!; try done.
  - unfold addRelationProperty. rewrite Hp. cbn [Z.eqb]. erewrite bind_Ret; [|apply zoom_run, R1].
    cbn beta iota. by erewrite bind_Ret; [|exact R2].
  - by apply rf_set_same.
  - intros q Hq. apply (rf_set_other k); [done|lia|congruence].
  - apply rf_type_set; [done|lia].
  - by rewrite El.
  - by intros ? ? []%Hfr.
Qed.

(** ** Relationship types *)

Lemma rf_type_block k b im :
  length b = rsize k -> length im = MAX_TYPE_SIZE ->
  rf_type k (write_data b (4 * records k) im) = im.
Proof. intros Hb Him. unfold rf_type. rewrite <- Him. apply read_write_same. Qed.

Lemma cstr_image_cstring t :
  no_nul t -> (length (chars t) < MAX_TYPE_SIZE)%nat -> cstring (cstr_image t) = Some t.
Proof.
  intros Hn Hl. pose proof (cstr_image_prefix t) as [rest E].
  rewrite take_ge in E by (rewrite length_app; simpl; lia). rewrite E, <- app_assoc. unfold cstring.
  rewrite decide_True by (apply elem_of_app; right; left). cbn [app].
  by rewrite until_nul_app, string_chars.
Qed.

(** The relationship type of a central edge: a NUL-free type of at most 99
    characters given to an edge that still has the default type is read
    back by [getCentralRelationshipType], and the records of the block are
    kept. *)
Theorem central_type_roundtrip s nbs rbs r i b t :
  files s nbs rbs -> rbs Central !! i = Some b -> length b = rsize Central ->
  raddr r = raddress Central i -> rtype r = DEFAULT_TYPE ->
  raddress Central (S i) <= 2147483648 -> no_nul t -> (length (chars t) < MAX_TYPE_SIZE)%nat ->
  exists s1 s2 b', addCentralRelationshipType r t s = (Ret tt, s1) /\
    files s1 nbs (upd_rel Central (<[i := b']> (rbs Central)) rbs) /\
    (forall q, (q < 14)%nat -> rf q b' = rf q b) /\
    getRelationshipType Central r s1 = (Ret t, s2).
Proof.
  intros Hs Hi Hb Hr Hty Hroom Hn Hl. pose proof Hs as [_ Hrel]. destruct (Hrel Central) as [[Hf Hd] _].
  pose proof (good_run _ _ _ (conj Hf Hd)) as E. cbn [rel_file] in E.
  pose proof (cstr_image_length t) as Him.
  assert (raddress Central i = Z.of_nat (i * rsize Central)) as Ha
    by (unfold raddress; rewrite BLOCK_SIZE_rsize; lia).
  assert (raddress Central i + 156 <= 2147483648) as Hlt
    by (unfold raddress in *; change (BLOCK_SIZE Central) with 156 in *; lia).
  assert (u32 (raddr r + RECORD_SIZE * RELATIONSHIP_TYPE_OFFSET Central)
    = raddress Central i + 56) as Hu by (rewrite Hr; apply u32_id; unfold is_u32, RECORD_SIZE; simpl; lia).
  set (p := raddress Central i + 56) in *.
  assert (Z.to_nat p = (i * rsize Central + 56)%nat) as Hp by (unfold p; lia).
  set (b' := write_data b 56 (cstr_image t)).
  set (d' := write_data (fs_data (centralRelationsDB s)) (Z.to_nat p) (cstr_image t)).
  assert (block_file (rsize Central) d' (<[i := b']> (rbs Central))) as Hd'.
  { unfold d'. rewrite Hp. apply write_block; [done..|]. rewrite Him. compute. lia. }
  pose proof (lookup_lt_Some _ _ _ Hi) as Hil.
  exists (set_centralRelationsDB (FStream d' (p + Z.of_nat (length (cstr_image t))) false) s).
  eexists. exists b'. split_and!.
  - unfold addCentralRelationshipType. rewrite bool_decide_true by done.
    unfold updateCentralRelationshipType. rewrite Hu.
    erewrite bind_Ret; [|erewrite bind_Ret; [|apply zoom_run; rewrite E; apply seek_run];
      apply zoom_run, write_run]. reflexivity.
  - eapply (files_rel s nbs rbs Central); [done..|by rewrite length_insert|].
    intros E0. by rewrite E0 in Hi.
  - intros q Hq. unfold rf, b'. rewrite read_write_before; [done|lia|]. rewrite Hb. compute. lia.
  - unfold getRelationshipType.
    rewrite Hr, s32_id by (unfold raddress in *; change (BLOCK_SIZE Central) with 156 in *; lia).
    change (raddress Central i + RELATIONSHIP_TYPE_OFFSET Central * RECORD_SIZE) with p.
    assert (read_data d' (Z.to_nat p) MAX_TYPE_SIZE = cstr_image t) as Hread.
    { rewrite Hp, (read_block _ _ _ i b' 56 MAX_TYPE_SIZE Hd');
        [|by apply list_lookup_insert_eq|compute; lia].
      exact (rf_type_block Central b _ Hb Him). }
    assert ((p <? 0) = false) as Hneg by (apply Z.ltb_ge; unfold p; lia).
    erewrite bind_Ret; [|apply zoom_run; unfold seek_int; rewrite Hneg; reflexivity].
    erewrite bind_Ret; [|apply zoom_run; apply read_run; [exact Hread|exact Him]].
    cbn beta iota. rewrite cstr_image_cstring by done. reflexivity.
Qed.

(** The relationship type of a local edge is written at the position the
    local file happens to have, whichever edge it is given to: the address
    of the edge only moves the position of the central file. *)
Theorem local_type_misplaced s r t :
  fs_fail (relationsDB s) = false -> rtype r = DEFAULT_TYPE ->
  exists s', addLocalRelationshipType r t s = (Ret tt, s') /\
    fs_data (relationsDB s') =
      write_data (fs_data (relationsDB s)) (Z.to_nat (fs_pos (relationsDB s))) (cstr_image t) /\
    fs_data (centralRelationsDB s') = fs_data (centralRelationsDB s).
Proof.
  intros Hf Hty. unfold addLocalRelationshipType. rewrite bool_decide_true by done.
  unfold updateLocalRelationshipType.
  assert (exists f, seek (u32 (raddr r + RECORD_SIZE * RELATIONSHIP_TYPE_OFFSET Local))
    (centralRelationsDB s) = (Ret tt, f) /\ fs_data f = fs_data (centralRelationsDB s)) as (f & Rf & Ef).
  { unfold seek. destruct (fs_fail (centralRelationsDB s)); by eexists. }
  eexists. split_and!.
  - erewrite bind_Ret; [reflexivity|]. erewrite bind_Ret; [|apply zoom_run, Rf].
    apply zoom_run. cbn. unfold write. rewrite Hf. reflexivity.
  - reflexivity.
  - exact Ef.
Qed.
End edge_properties.

(** ** Property lists of many owners

    The databases of PropertyLinks hold one list for every vertex or edge.
    [owners] says which list each owner has; giving one owner a property
    keeps the lists of the others.  The objects of the program do not always
    know the head of the list they belong to: after a few insertions they
    point at a later link ([points]), which is enough to add to the list. *)

Section lists.
Context {C : LinkClass} {OK : LinkClassOk C}.
Implicit Types (bs : list (list ascii)) (l : list entry) (a : Z).

(** An object that knows the address [a] belongs to the list [l]. *)
Definition points bs a l : Prop :=
  exists l1 l2, l = l1 ++ l2 /\ chain bs a l2 /\ (l2 = [] -> l1 = []).

Lemma points_head bs a l : chain bs a l -> points bs a l.
Proof. by exists [], l. Qed.

Lemma points_null bs l : points bs 0 l -> l = [].
Proof. intros (l1 & l2 & -> & ->%chain_null & H). by rewrite H. Qed.

Lemma points_nil bs a : points bs a [] -> a = 0.
Proof. intros (l1 & l2 & [-> ->]%symmetry%app_nil & H & _). by apply chain_nil_inv in H. Qed.

Lemma points_frame bs bs' a l l0 :
  (forall a' es, chain bs a' es -> (e_idx <$> es) ## (e_idx <$> l0) -> chain bs' a' es) ->
  points bs a l -> (e_idx <$> l) ## (e_idx <$> l0) -> points bs' a l.
Proof.
  intros Hf (l1 & l2 & -> & Hc & H) Hd. exists l1, l2. split_and!; [done| |done].
  apply Hf; [done|]. rewrite fmap_app in Hd. intros j Hj. apply Hd, elem_of_app. by right.
Qed.

(** ** Where an insertion stops *)

Lemma visited_upsert nm dv new i l :
  l <> [] -> exists k e, upsert nm dv new l !! k = Some e /\ e_idx e = visited nm i l.
Proof.
  revert i. induction l as [|e l IH]; intros i Hne; [done|]. cbn. case_decide as E.
  - exists 0%nat. eexists. split; [reflexivity|]. by destruct updates_existing.
  - destruct l as [|e' l].
    + exists 0%nat, e. by cbn.
    + destruct (IH (e_idx e)) as (k & e'' & Hk & He); [done|]. exists (S k), e''. by split.
Qed.

Lemma upsert_indices nm dv new l j :
  j ∈ (e_idx <$> upsert nm dv new l) -> j ∈ (e_idx <$> l) \/ j = e_idx new.
Proof.
  induction l as [|e l IH]; cbn.
  - intros Hj%list_elem_of_singleton. by right.
  - case_decide as E; cbn; rewrite !elem_of_cons.
    + by destruct updates_existing; left.
    + intros [->|Hj]; [by left; left|]. destruct (IH Hj); auto.
Qed.

(** Insertion at a link: the links before it keep their blocks. *)
Lemma chain_prefix bs bs' a a2 l1 l2 l2' :
  chain bs a (l1 ++ l2) -> l2 <> [] -> chain bs a2 l2 -> chain bs' a2 l2' ->
  (forall j, j ∈ (e_idx <$> l1) -> bs' !! j = bs !! j) -> chain bs' a (l1 ++ l2').
Proof.
  intros Hc Hne H2 H2'. revert a Hc. induction l1 as [|e l1 IH]; intros a Hc Hag; cbn in *.
  - assert (a = a2) as ->; [|done]. destruct l2 as [|e l2]; [done|].
    by rewrite (chain_head _ _ _ _ Hc), (chain_head _ _ _ _ H2).
  - destruct (chain_cons_inv _ _ _ _ Hc) as (b & Hb & Hi & -> & He & Hn & Hc').
    destruct e as [[i nm] v]. cbn in *. injection He as ->. constructor; [done| |done|].
    + rewrite Hag; [done|left].
    + apply IH; [done|]. intros j Hj. apply Hag. by right.
Qed.

(** [insert] of the link at [a]. *)
Lemma insert_head_blocks s bs a l nm v dn dv nm' :
  links_ok s bs -> room s -> chain bs a l -> l <> [] ->
  copy_name nm = Some dn -> copy_value v = Some dv -> cstring dn = Some nm' ->
  exists s' bs',
    insert_head C a nm v s = (Ret (laddr (visited nm 0 l)), s') /\
    links_ok s' bs' /\ nextPropertyIndex s <= nextPropertyIndex s' <= nextPropertyIndex s + 1 /\
    chain bs' a (upsert nm dv (length bs, nm', dv) l) /\
    (forall j, (j < length bs)%nat -> j ∉ (e_idx <$> l) -> bs' !! j = bs !! j).
Proof.
  intros Hok Hroom Hc Hne. apply insert_at_blocks; [done..|].
  pose proof (link_fuel_enough _ _ _ _ Hok Hc). lia.
Qed.

(** ** The map of a list *)

Lemma props_app l1 l2 : props (l1 ++ l2) = props l1 ∪ props l2.
Proof.
  induction l1 as [|e l1 IH]; cbn; [by rewrite (left_id_L ∅ (∪))|].
  by rewrite IH, insert_union_l.
Qed.

(** The text of a value. *)
Definition text_of (dv : list ascii) : string := string_of_list_ascii (until_nul dv).

Lemma props_upsert nm dv i l :
  updates_existing = false -> props (upsert nm dv (i, nm, dv) l) = props l ∪ {[nm := text_of dv]}.
Proof.
  intros Hu. induction l as [|e l IH]; cbn.
  - by rewrite (left_id_L ∅ (∪)), insert_empty.
  - case_decide as E; cbn.
    + rewrite Hu, E, <- insert_union_l. apply map_eq. intros k.
      destruct (decide (k = nm)) as [->|Hk]; [by rewrite !lookup_insert_eq|].
      rewrite !lookup_insert_ne, lookup_union, lookup_singleton_ne by done. by destruct (props l !! k).
    + by rewrite IH, insert_union_l.
Qed.

Lemma readable_upsert nm dv new l :
  readable_values l -> nul ∈ dv -> e_value new = dv -> readable_values (upsert nm dv new l).
Proof.
  intros Hl Hd Hn. induction Hl as [|e l He Hl IH]; cbn.
  - repeat constructor. by rewrite Hn.
  - case_decide; constructor; try done. by destruct updates_existing.
Qed.

(** ** Owners *)

Context {O : Type} `{EqDecision O}.
Implicit Types (H : O -> Z) (L : O -> list entry) (o : O).

Definition owners bs H L : Prop :=
  (forall o, chain bs (H o) (L o)) /\
  (forall o o', o <> o' -> (e_idx <$> L o) ## (e_idx <$> L o')).

Lemma owners_ext bs H H' L : (forall o, H' o = H o) -> owners bs H L -> owners bs H' L.
Proof. intros E [H1 H2]. split; [|done]. intros o. by rewrite E. Qed.

(** What happens to the rest of a database when [o] gets a property. *)
Definition kept bs bs' L o : Prop :=
  forall a es, chain bs a es -> (e_idx <$> es) ## (e_idx <$> L o) -> chain bs' a es.

Lemma points_kept bs bs' H L o o' a :
  owners bs H L -> kept bs bs' L o -> o' <> o -> points bs a (L o') -> points bs' a (L o').
Proof. intros [_ Hd] Hk Ho Hp. eapply points_frame; [exact Hk|done|]. by apply Hd. Qed.

(** The first property of an owner. *)
Lemma own_create s bs H L o nm v dn dv nm' :
  links_ok s bs -> room s -> owners bs H L -> L o = [] ->
  copy_name nm = Some dn -> cstring dn = Some nm' -> memcpy_buf MAX_VALUE_SIZE v = Some dv ->
  exists s' bs' i,
    create nm v s = (Ret (Some (mkLink nm dv (laddr i) (Some 0))), s') /\
    links_ok s' bs' /\ nextPropertyIndex s' = nextPropertyIndex s + 1 /\ is_u32 (laddr i) /\
    owners bs' (<[o := laddr i]> H) (<[o := [(i, nm', dv)]]> L) /\ kept bs bs' L o.
Proof.
  intros Hok Hroom [Hc Hd] Ho Hdn Hnm' Hdv.
  destruct (create_fresh s bs nm v dn dv nm') as (s' & bs' & i & R & H1 & H2 & H3 & H4 & H5); try done.
  exists s', bs', i. split_and!; try done.
  - split.
    + intros o'. unfold base.insert, fn_insert. case_decide; [done|]. by apply H5.
    + intros o1 o2 Hne. unfold base.insert, fn_insert.
      destruct (decide (o = o1)) as [<-|H1o], (decide (o = o2)) as [<-|H2o]; try done; [| |by apply Hd].
      * intros j Hj%list_elem_of_singleton Hj2. subst j. by destruct (H5 _ _ (Hc o2)).
      * intros j Hj Hj2%list_elem_of_singleton. subst j. by destruct (H5 _ _ (Hc o1)).
  - intros a es He _. by apply H5.
Qed.

(** A further one, through an object that points into the list. *)
Lemma own_insert s bs H L o a nm v dn dv nm' :
  links_ok s bs -> room s -> owners bs H L -> points bs a (L o) -> L o <> [] ->
  copy_name nm = Some dn -> copy_value v = Some dv -> cstring dn = Some nm' ->
  exists s' bs' a' l1 l2,
    insert_head C a nm v s = (Ret a', s') /\ L o = l1 ++ l2 /\ l2 <> [] /\
    links_ok s' bs' /\ nextPropertyIndex s <= nextPropertyIndex s' <= nextPropertyIndex s + 1 /\
    owners bs' H (<[o := l1 ++ upsert nm dv (length bs, nm', dv) l2]> L) /\
    points bs' a' (l1 ++ upsert nm dv (length bs, nm', dv) l2) /\ kept bs bs' L o.
Proof.
  intros Hok Hroom [Hc Hd] (l1 & l2 & El & Hc2 & Hl) Hne Hdn Hdv Hnm'.
  assert (l2 <> []) as Hne2 by (intros ->; apply Hne; rewrite El, Hl; done).
  destruct (insert_head_blocks s bs a l2 nm v dn dv nm') as (s' & bs' & R & H1 & H2 & H3 & H4); try done.
  set (l2' := upsert nm dv (length bs, nm', dv) l2) in *.
  assert (NoDup (e_idx <$> (l1 ++ l2))) as Hnd by (rewrite <- El; by eapply chain_nodup).
  rewrite fmap_app in Hnd. apply list.NoDup_app in Hnd as (_ & Hnd & _).
  assert (chain bs' (H o) (l1 ++ l2')) as Ho.
  { eapply (chain_prefix bs bs' (H o) a l1 l2); try done; [rewrite <- El; apply Hc|].
    intros j Hj. apply H4; [|by apply Hnd]. apply list_elem_of_fmap in Hj as (e & -> & He).
    destruct (chain_bounded bs (H o) (L o) e) as [_ ?]; [apply Hc| |done]. rewrite El. apply elem_of_app. by left. }
  assert (kept bs bs' L o) as Hk.
  { intros a' es He Hdis. eapply (chains_apart bs bs' l2); [done..|]. intros j Hj Hj2.
    apply (Hdis j Hj). rewrite El, fmap_app. apply elem_of_app. by right. }
  assert (forall o', o' <> o -> (e_idx <$> (l1 ++ l2')) ## (e_idx <$> L o')) as Hdis.
  { intros o' Ho' j Hj Hj'.
    assert (j ∈ (e_idx <$> L o) \/ j = length bs) as [Hj2| ->].
    { rewrite El, fmap_app. rewrite fmap_app in Hj. apply elem_of_app in Hj as [Hj|Hj]; [left; apply elem_of_app; by left|].
      apply upsert_indices in Hj as [Hj|Hj]; [left; apply elem_of_app; by right|by right]. }
    - by apply (Hd o o' (not_eq_sym Ho') j).
    - apply list_elem_of_fmap in Hj' as (e & He & Hin).
      pose proof (chain_bounded _ _ _ _ (Hc o') Hin). lia. }
  exists s', bs', (laddr (visited nm 0 l2)), l1, l2. split_and!; try done; try lia.
  - split.
    + intros o'. unfold base.insert, fn_insert. case_decide as E; [by subst|]. apply Hk; [done|]. apply Hd. congruence.
    + intros o1 o2 Hne'. unfold base.insert, fn_insert.
      destruct (decide (o = o1)) as [<-|], (decide (o = o2)) as [<-|]; try done; [by apply Hdis| |by apply Hd].
      intros j Hj Hj'. by apply (Hdis o1 ltac:(congruence) j).
  - destruct (visited_upsert nm dv (length bs, nm', dv) 0 l2 Hne2) as (k & e & Hk' & He). fold l2' in Hk'.
    rewrite <- He. pose proof (chain_suffix _ _ _ _ _ H3 Hk') as Hs.
    exists (l1 ++ take k l2'), (drop k l2'). split_and!; [by rewrite <- app_assoc, take_drop|done|].
    intros E. by rewrite (drop_S _ _ _ Hk') in E.
Qed.
End lists.
