(* ===== verification/PropertyGraph.v ===== *)
(** * PropertyGraph: a partition as a property graph

    Vertices and edges with their labels, types, properties and partitions, as
    a contract of the native store: [holds] relates the files of a partition
    to a property graph together with the objects that are still in use, and
    every operation on such an object is shown to act on the graph. *)
From Stdlib Require Import ZArith Ascii String Lia.
From stdpp Require Import functions base tactics numbers list strings gmap.
From S2P Require Import Prelude FStream PropertyLinks PropertyLinkTheory NodeBlock RelationBlock NodeRelations.
From S2P Require Import NodeManager GraphFiles GraphTheory ManagerTheory PropertyOwners.

(** ** Adding to a list through an object

    The four operations that add a property create the list of an object
    without one and tell its block, or insert at the link the object knows. *)
Section add_to.
Context (C : LinkClass) {OK : LinkClassOk C}.
Context (links : store -> linkdb) (put : linkdb -> store -> store) (Hput : forall l s, links (put l s) = l).

Definition add_to (ref : Z) (tell : Z -> M store unit) (nm : string) (v : list ascii) : M store Z :=
  if ref =? 0 then
    o ← zoom links put (@create C nm v);
    match o with
    | Some l => tell (blockAddress l);; mret (blockAddress l)
    | None => mret ref
    end
  else zoom links put (insert_head C ref nm v).

(** The list of an owner after a pair was added. *)
Definition added (nm : string) (dv : list ascii) (l l' : list entry) : Prop :=
  exists l1 l2 i, l = l1 ++ l2 /\ (l2 = [] -> l1 = []) /\ l' = l1 ++ upsert nm dv (i, nm, dv) l2.

Context {O : Type} `{EqDecision O}.

Lemma add_to_run (Q : Z -> store -> Prop) s bs (H : O -> Z) L o ref tell nm v dn dv1 dv2 w :
  links_ok (links s) bs -> room (links s) -> owners bs H L -> points bs ref (L o) ->
  copy_name nm = Some dn -> cstring dn = Some nm -> memcpy_buf MAX_VALUE_SIZE v = Some dv1 ->
  copy_value v = Some dv2 -> nul ∈ dv1 -> nul ∈ dv2 -> text_of dv1 = w -> text_of dv2 = w ->
  (forall l a, L o = [] -> is_u32 a ->
    exists s', tell a (put l s) = (Ret tt, s') /\ links s' = l /\ Q a s') ->
  exists s' bs' a lo dv, add_to ref tell nm v s = (Ret a, s') /\
    links_ok (links s') bs' /\
    nextPropertyIndex (links s) <= nextPropertyIndex (links s') <= nextPropertyIndex (links s) + 1 /\
    kept bs bs' L o /\ points bs' a lo /\ added nm dv (L o) lo /\ nul ∈ dv /\ text_of dv = w /\
    ((L o = [] /\ is_u32 a /\ owners bs' (<[o := a]> H) (<[o := lo]> L) /\ Q a s') \/
     (L o <> [] /\ owners bs' H (<[o := lo]> L) /\ exists l, s' = put l s)).
Proof.
  intros Hok Hroom Hown Hp Hdn Hnm H1 H2 N1 N2 T1 T2 Htell. unfold add_to.
  destruct (decide (L o = [])) as [E|E].
  - rewrite E in Hp. apply points_nil in Hp as ->. rewrite Z.eqb_refl.
    destruct (own_create (links s) bs H L o nm v dn dv1 nm) as (l & bs' & i & R & Hl & Hn & Hi & Ho & Hk); try done.
    destruct (Htell l (laddr i) E Hi) as (s' & Rt & Es & HQ).
    exists s', bs', (laddr i), [(i, nm, dv1)], dv1. rewrite Es, E. split_and!; try done; try lia.
    + erewrite bind_Ret; [|apply zoom_run, R]. cbn beta iota. by erewrite bind_Ret; [|exact Rt].
    + apply points_head. destruct Ho as [Ho _]. specialize (Ho o). by rewrite !fn_lookup_insert in Ho.
    + by exists [], [], i.
    + left. by split_and!.
  - assert (ref <> 0) as Hr by (intros ->; by apply points_null in Hp).
    rewrite (proj2 (Z.eqb_neq _ _)) by done.
    destruct (own_insert (links s) bs H L o ref nm v dn dv2 nm) as (l & bs' & a & l1 & l2 & R & El & Hne & Hl & Hn & Ho & Hpt & Hk); try done.
    exists (put l s), bs', a, (l1 ++ upsert nm dv2 (length bs, nm, dv2) l2), dv2. rewrite Hput.
    split_and!; try done; try lia.
    + by apply zoom_run.
    + by exists l1, l2, (length bs).
    + right. split_and!; [done..|]. by exists l.
Qed.

(** What the new list shows. *)
Lemma added_props nm dv l l' :
  updates_existing = false -> added nm dv l l' -> props l' = props l ∪ {[nm := text_of dv]}.
Proof.
  intros Hu (l1 & l2 & i & -> & _ & ->). by rewrite !props_app, props_upsert, (assoc_L (∪)).
Qed.

Lemma added_readable nm dv l l' :
  added nm dv l l' -> readable_values l -> nul ∈ dv -> readable_values l'.
Proof.
  intros (l1 & l2 & i & -> & _ & ->) [H1 H2]%Forall_app Hd. apply Forall_app. split; [done|].
  by apply readable_upsert.
Qed.

(** A list with at most one name, whose value is replaced. *)
Definition only (nm : string) (l : list entry) (o : option string) : Prop :=
  match o with
  | None => l = []
  | Some t => exists i v, l = [(i, nm, v)] /\ cstring v = Some t
  end.

Lemma cstring_text dv : nul ∈ dv -> cstring dv = Some (text_of dv).
Proof. intros H. unfold cstring. by rewrite decide_True. Qed.

Lemma added_only nm dv l l' o :
  updates_existing = true -> added nm dv l l' -> only nm l o -> nul ∈ dv -> only nm l' (Some (text_of dv)).
Proof.
  intros Hu (l1 & l2 & i & El & Hl & ->) Ho Hd. destruct o as [t|]; cbn in Ho.
  - destruct Ho as (j & v & -> & _). destruct l1 as [|e l1].
    + cbn in El. subst l2. cbn. rewrite decide_True by done. rewrite Hu. exists j, dv. split; [done|]. by apply cstring_text.
    + injection El as _ E. symmetry in E. apply app_nil in E as [_ ->]. by specialize (Hl eq_refl).
  - rewrite Ho in El. symmetry in El. apply app_nil in El as [-> ->]. cbn. exists i, dv. split; [done|]. by apply cstring_text.
Qed.
End add_to.

(** ** Blocks *)

(** Vertex blocks that differ in the heads of their property lists only. *)
Definition same_but_lists (b b' : list ascii) : Prop :=
  length b' = length b /\
  forall off m, (off + m <= 14 \/ 22 <= off)%nat -> read_data b' off m = read_data b off m.

Definition head_at (off : nat) (nbs : list (list ascii)) (x : nat) : Z :=
  match nbs !! x with Some b => nf32 off b | None => 0 end.

(** A block with the head of a list replaced, at offset 14 or 18. *)
Definition set_list (off : nat) (b : list ascii) (a : Z) : list ascii := write_data b off (enc32 a).

Lemma set_list_fields off b a :
  length b = 140%nat -> is_u32 a -> off = 14%nat \/ off = 18%nat ->
  same_but_lists b (set_list off b a) /\ nf32 off (set_list off b a) = a /\
  nf32 (32 - off) (set_list off b a) = nf32 (32 - off) b.
Proof.
  intros Hb Ha Hoff. unfold set_list. split_and!.
  - split.
    + by rewrite length_write_data_le by (rewrite length_enc32; lia).
    + intros o m [H|H].
      * by rewrite read_write_before by lia.
      * by rewrite read_write_after by (rewrite ?length_enc32; lia).
  - unfold nf32. change 4%nat with (length (enc32 a)). rewrite read_write_same. by apply dec32_enc32.
  - unfold nf32. f_equal. destruct Hoff as [-> | ->].
    + by rewrite read_write_after by (rewrite ?length_enc32; lia).
    + by rewrite read_write_before by lia.
Qed.

Lemma head_at_insert off nbs x b b' :
  nbs !! x = Some b -> nf32 off b' = nf32 off b -> forall y, head_at off (<[x := b']> nbs) y = head_at off nbs y.
Proof.
  intros Hx E y. unfold head_at. destruct (decide (x = y)) as [<-|Hne].
  - rewrite list_lookup_insert_eq by (by eapply lookup_lt_Some). by rewrite Hx.
  - by rewrite list_lookup_insert_ne.
Qed.

Lemma head_at_set off nbs x b b' a :
  nbs !! x = Some b -> nf32 off b' = a -> forall y, head_at off (<[x := b']> nbs) y = (<[x := a]> (head_at off nbs)) y.
Proof.
  intros Hx E y. unfold head_at. destruct (decide (x = y)) as [<-|Hne].
  - rewrite list_lookup_insert_eq by (by eapply lookup_lt_Some). by rewrite fn_lookup_insert.
  - by rewrite list_lookup_insert_ne, fn_lookup_insert_ne.
Qed.

(** The write of a list head into the block of vertex [x]. *)
Lemma tell_vertex_run s nbs rbs x b ad off a :
  files s nbs rbs -> nbs !! x = Some b -> ad = naddress x -> (off + 4 <= 140)%nat ->
  exists s', (on_nodes (seek (ad + Z.of_nat off));; on_nodes (write (enc32 a));; mret tt) s = (Ret tt, s') /\
    files s' (<[x := set_list off b a]> nbs) rbs /\ exists f, s' = set_nodesDB f s.
Proof.
  intros Hs Hx Hn Hoff. pose proof Hs as [[Hf Hd] _]. pose proof (good_run _ _ _ (conj Hf Hd)) as E.
  eexists. split; [|split].
  - erewrite bind_Ret; [|apply on_nodes_run; rewrite E; apply seek_run].
    erewrite bind_Ret; [|apply on_nodes_run; cbn [nodesDB set_nodesDB]; apply write_run]. reflexivity.
  - change (set_nodesDB ?f (set_nodesDB _ s)) with (set_nodesDB f s).
    eapply files_nodes; [exact Hs|]. rewrite Hn.
    replace (Z.to_nat (naddress x + Z.of_nat off)) with (x * 140 + off)%nat
      by (unfold naddress, NODE_BLOCK_SIZE; lia).
    apply write_block; [done..|]. rewrite length_enc32. lia.
  - eexists. reflexivity.
Qed.

(** A vertex block may change where the graph does not look. *)
Lemma graph_ok_block nbs rbs G x b b' :
  graph_ok nbs rbs G -> nbs !! x = Some b -> node_wf b' -> (forall k, node_head k b' = node_head k b) ->
  graph_ok (<[x := b']> nbs) rbs G.
Proof.
  intros (Hwf & Hr & Hk) Hx Hb' Hh. split_and!; [by apply Forall_insert|by rewrite length_insert|].
  intros k. destruct (Hk k) as (H1 & H2 & H3 & H4). rewrite length_insert. split_and!; try done.
  intros y c Hy. destruct (decide (x = y)) as [<-|Hne].
  - rewrite list_lookup_insert_eq in Hy by (by eapply lookup_lt_Some). injection Hy as <-.
    rewrite Hh. by apply H4.
  - rewrite list_lookup_insert_ne in Hy by done. by apply H4.
Qed.

Lemma stored_lists m g nbs rbs x b b' s' :
  stored m g nbs rbs -> nbs !! x = Some b -> same_but_lists b b' -> files s' (<[x := b']> nbs) rbs ->
  stored (set_dbs s' m) g (<[x := b']> nbs) rbs.
Proof.
  intros Hm Hx [Hl Hb] Hs'. pose proof (st_graph _ _ _ _ Hm) as Hg. pose proof (st_blocks _ _ _ _ Hm) as Hbl.
  assert (node_wf b) as (W1 & W2 & W3 & W4) by (destruct Hg as [Hwf _]; by eapply Forall_lookup_1 in Hwf).
  destruct Hm. constructor; try done; cbn.
  - eapply graph_ok_block; [done..| |].
    + unfold node_wf, nf_label, nf32 in *. rewrite Hl, !Hb by lia. by split_and!.
    + intros k. unfold node_head, nf32. rewrite Hb by (destruct k; cbn; lia). done.
  - apply Forall2_same_length_lookup_2.
    { rewrite length_insert. by eapply Forall2_length. }
    intros z t c Ht Hz. destruct (Forall2_lookup_l _ _ _ _ _ Hbl Ht) as (c0 & Hc0 & (v & Hv & Hi) & Hlb & Hu).
    destruct (decide (x = z)) as [<-|Hne].
    + rewrite list_lookup_insert_eq in Hz by (by eapply lookup_lt_Some). simplify_eq.
      unfold vertex_block, nf_id, nf32, nf_label in *. rewrite !Hb by lia. eauto.
    + rewrite list_lookup_insert_ne in Hz by done. simplify_eq. by split_and!; [exists v|..].
Qed.

(** An edge block may change in its property lists and its type. *)
Definition same_links_of (k : kind) (b b' : list ascii) : Prop :=
  length b' = length b /\ (forall q, (q < 12)%nat -> rf q b' = rf q b) /\ nul ∈ rf_type k b'.

Lemma rchain_block k bs i b b' x a l :
  bs !! i = Some b -> same_links_of k b b' -> rchain k bs x a l -> rchain k (<[i := b']> bs) x a l.
Proof.
  intros Hi (_ & F & _). induction 1 as [|j c l Hj Hc Ht Hr IH]; [constructor|].
  assert (cont x b' = cont x b) as Ec by (unfold cont; by rewrite !F by lia).
  destruct (decide (i = j)) as [<-|Hne].
  - econstructor; [done|by apply list_lookup_insert_eq; eapply lookup_lt_Some| |]; simplify_eq.
    + rewrite !F by lia. done.
    + by rewrite Ec.
  - econstructor; [done|by rewrite list_lookup_insert_ne|done..].
Qed.

Lemma graph_ok_edge_block nbs rbs G k i b b' :
  graph_ok nbs rbs G -> rbs k !! i = Some b -> same_links_of k b b' ->
  graph_ok nbs (upd_rel k (<[i := b']> (rbs k)) rbs) G.
Proof.
  intros (Hwf & Hr & Hk) Hi Hb. split_and!; [done..|]. intros k'.
  destruct (decide (k = k')) as [<-|Hne]; [|rewrite upd_rel_ne by done; apply Hk].
  rewrite upd_rel_eq, length_insert. destruct (Hk k) as (H1 & H2 & H3 & H4). split_and!; try done.
  - intros E1 e E2 HE. destruct (H3 E1 e E2 HE) as (c & Hc & W).
    destruct (decide (i = S (length E2))) as [->|Hi2].
    + exists b'. split; [by apply list_lookup_insert_eq; eapply lookup_lt_Some|]. simplify_eq.
      destruct W as (W1 & W2 & W3 & W4 & W5 & W6), Hb as (L & F & N).
      unfold rel_wf. rewrite L, !F by lia. done.
    + exists c. by rewrite list_lookup_insert_ne.
  - intros x c Hx. eapply rchain_block; [done..|]. by apply H4.
Qed.

Lemma stored_edge_block m g nbs rbs k i b b' s' :
  stored m g nbs rbs -> rbs k !! i = Some b -> same_links_of k b b' ->
  files s' nbs (upd_rel k (<[i := b']> (rbs k)) rbs) ->
  stored (set_dbs s' m) g nbs (upd_rel k (<[i := b']> (rbs k)) rbs).
Proof. intros [] Hi Hb Hs'. constructor; try done. by eapply graph_ok_edge_block. Qed.

Definition rel_field (q : nat) (bs : list (list ascii)) (i : nat) : Z :=
  match bs !! i with Some b => rf q b | None => 0 end.

(** The heads of the lists of all edges. *)
Definition edge_head (rbs : kind -> list (list ascii)) (o : kind * nat) : Z := rel_field 12 (rbs o.1) o.2.

(** ** Property graphs *)

Record edge_data := mkEdgeData {
  ed_type : option string;
  ed_props : gmap string string;
  ed_pid : option string
}.

(** Properties of vertices, the partitions they belong to, and what is known
    of the edges, newest first as in the graph. *)
Record property_graph := mkPG {
  pg : graph;
  vprops : gmap string (gmap string string);
  vpid : gmap string string;
  edata : kind -> list edge_data
}.

Definition props_of (P : property_graph) (s : string) : gmap string string := default ∅ (vprops P !! s).

(** The lists of the four databases. *)
Record lists := Lists {
  pbs : list (list ascii);
  LV : nat -> list entry;
  mbs : list (list ascii);
  LM : nat -> list entry;
  ebs : list (list ascii);
  LE : kind * nat -> list entry;
  xbs : list (list ascii);
  LX : nat -> list entry
}.

Record vertex_lists (s : store) (nbs : list (list ascii)) (D : lists) : Prop := {
  vl_links : @links_ok PropertyLink (propertiesDB s) (pbs D);
  vl_owners : @owners PropertyLink nat (pbs D) (head_at 14 nbs) (LV D);
  vl_read : forall x, readable_values (LV D x);
  vl_mlinks : @links_ok MetaPropertyLink (metaPropertiesDB s) (mbs D);
  vl_mowners : @owners MetaPropertyLink nat (mbs D) (head_at 18 nbs) (LM D)
}.

Record edge_lists (s : store) (rbs : kind -> list (list ascii)) (D : lists) : Prop := {
  el_links : @links_ok PropertyEdgeLink (edgePropertiesDB s) (ebs D);
  el_owners : @owners PropertyEdgeLink (kind * nat) (ebs D) (edge_head rbs) (LE D);
  el_read : forall o, readable_values (LE D o);
  el_mlinks : @links_ok MetaPropertyEdgeLink (metaEdgePropertiesDB s) (xbs D);
  el_mowners : @owners MetaPropertyEdgeLink nat (xbs D) (rel_field 13 (rbs Central)) (LX D)
}.

Definition PARTITION_ID : string := "pid".

(** What the lists say of the vertices and edges of [P]. *)
Record shows_vertices (D : lists) (P : property_graph) : Prop := {
  sv_props : forall x s, vertices (pg P) !! x = Some s -> props (LV D x) = props_of P s;
  sv_pid : forall x s, vertices (pg P) !! x = Some s -> only PARTITION_ID (LM D x) (vpid P !! s);
  sv_dom : forall s, s ∉ vertices (pg P) -> vprops P !! s = None /\ vpid P !! s = None
}.

Definition shows_edge (D : lists) (bs : list (list ascii)) (k : kind) (i : nat) (d : edge_data) : Prop :=
  props (LE D (k, i)) = ed_props d /\
  (forall t, ed_type d = Some t -> exists b, bs !! i = Some b /\ cstring (rf_type k b) = Some t) /\
  (k = Central -> only PARTITION_ID (LX D i) (ed_pid d)).

Record shows_edges (D : lists) (rbs : kind -> list (list ascii)) (P : property_graph) : Prop := {
  se_length : forall k, length (edata P k) = length (gedges (pg P) k);
  se_data : forall k E1 d E2, edata P k = E1 ++ d :: E2 -> shows_edge D (rbs k) k (S (length E2)) d
}.

(** ** Objects in use *)

Definition vertex_in_use (D : lists) (P : property_graph) (o : string * NodeBlock) : Prop :=
  let '(s, n) := o in
  let x := vnum (vertices (pg P)) s in
  s ∈ vertices (pg P) /\ id n = s /\ addr n = naddress x /\ cstring (label n) = Some (label_of (pg P) s) /\
  @points PropertyLink (pbs D) (propRef n) (LV D x) /\ @points MetaPropertyLink (mbs D) (metaPropRef n) (LM D x).

(** The newest edge has no type yet. *)
Definition typeless (P : property_graph) (k : kind) : Prop :=
  match edata P k with d :: _ => ed_type d = None | [] => True end.

(** The object of the newest edge; the local file stands behind the field for
    the list once there is one, until the type is written there. *)
Definition edge_in_use (s : store) (D : lists) (P : property_graph) (o : kind * RelationBlock) : Prop :=
  let '(k, r) := o in
  let i := length (gedges (pg P) k) in
  (0 < i)%nat /\ raddr r = raddress k i /\ rtype r = DEFAULT_TYPE /\
  @points PropertyEdgeLink (ebs D) (propertyAddress r) (LE D (k, i)) /\
  (k = Central -> @points MetaPropertyEdgeLink (xbs D) (metaPropertyAddress r) (LX D i)) /\
  (k = Local -> LE D (k, i) <> [] -> typeless P k -> fs_pos (relationsDB s) = raddress Local i + 52).

(** The partition [m] holds [P]; [objs] and [e] are the objects in use. *)
Definition holds (m : manager) (P : property_graph) (objs : list (string * NodeBlock))
    (e : option (kind * RelationBlock)) : Prop :=
  lockEdgeAdd m = false /\ exists nbs rbs D,
    stored m (pg P) nbs rbs /\ vertex_lists (dbs m) nbs D /\ edge_lists (dbs m) rbs D /\
    shows_vertices D P /\ shows_edges D rbs P /\
    Forall (vertex_in_use D P) objs /\ from_option (edge_in_use (dbs m) D P) True e.

(** Room for [n] more links in every database. *)
Definition space (n : nat) (s : store) : Prop :=
  (nextPropertyIndex (propertiesDB s) + Z.of_nat n) * 434 < 4294967296 /\
  (nextPropertyIndex (metaPropertiesDB s) + Z.of_nat n) * 416 < 4294967296 /\
  (nextPropertyIndex (edgePropertiesDB s) + Z.of_nat n) * 434 < 4294967296 /\
  (nextPropertyIndex (metaEdgePropertiesDB s) + Z.of_nat n) * 416 < 4294967296.

(** ** Properties of vertices *)

(** Names and buffers that the link classes store unchanged. *)
Definition key_ok (nm : string) : Prop := no_nul nm /\ (length (chars nm) < 30)%nat.
Definition value_ok (v : list ascii) : Prop := length v = 400%nat /\ nul ∈ v.

Lemma memcpy_value v : length v = 400%nat -> memcpy_buf 400 v = Some v.
Proof. intros H. unfold memcpy_buf. rewrite decide_True by lia. by rewrite take_ge by lia. Qed.

Lemma strcpy_name n nm :
  no_nul nm -> (length (chars nm) < n)%nat -> exists dn, strcpy_buf n nm = Some dn /\ cstring dn = Some nm.
Proof.
  intros H1 H2. destruct (strcpy_buf n nm) as [dn|] eqn:E.
  - exists dn. split; [done|]. rewrite (cstring_strcpy _ _ _ E), c_str_no_nul by done. by rewrite string_chars.
  - unfold strcpy_buf in E. rewrite c_str_no_nul in E by done. by rewrite decide_True in E.
Qed.

(** The part of the databases that the operations on vertices leave alone. *)
Definition edge_side (s s' : store) : Prop :=
  relationsDB s' = relationsDB s /\ edgePropertiesDB s' = edgePropertiesDB s /\
  metaEdgePropertiesDB s' = metaEdgePropertiesDB s.

Definition set_props (bs : list (list ascii)) (L : nat -> list entry) (D : lists) : lists :=
  Lists bs L (mbs D) (LM D) (ebs D) (LE D) (xbs D) (LX D).
Definition set_metas (bs : list (list ascii)) (L : nat -> list entry) (D : lists) : lists :=
  Lists (pbs D) (LV D) bs L (ebs D) (LE D) (xbs D) (LX D).

Section vertex_steps.
Context (s : store) (nbs : list (list ascii)) (rbs : kind -> list (list ascii)).
Context (x : nat) (b : list ascii) (n : NodeBlock) (v : list ascii) (k : nat).
Context (Hs : files s nbs rbs) (Hx : nbs !! x = Some b) (Hb : length b = 140%nat) (Hn : addr n = naddress x).
Context (Hv : value_ok v) (Hsp : space (S k) s).

(** Telling the block of a vertex about its list. *)
Definition tell_vertex (off : nat) (a : Z) : M store unit :=
  on_nodes (seek (addr n + Z.of_nat off));; on_nodes (write (enc32 a));; mret tt.

Section classes.
Context (C : LinkClass) {OK : LinkClassOk C} (links : store -> linkdb) (put : linkdb -> store -> store) (off : nat).
Context (Hput : forall l s, links (put l s) = l) (Hfiles : forall l, files (put l s) nbs rbs).
Context (Hnodes : forall f s, links (set_nodesDB f s) = links s) (Hoff : off = 14%nat \/ off = 18%nat).

Lemma vertex_add_to bs L ref nm dn :
  links_ok (links s) bs -> room (links s) -> owners bs (head_at off nbs) L -> points bs ref (L x) ->
  copy_name nm = Some dn -> cstring dn = Some nm -> memcpy_buf MAX_VALUE_SIZE v = Some v -> copy_value v = Some v ->
  exists s' a b' bs' lo, add_to C links put ref (tell_vertex off) nm v s = (Ret a, s') /\
    files s' (<[x := b']> nbs) rbs /\ same_but_lists b b' /\ nf32 (32 - off) b' = nf32 (32 - off) b /\
    links_ok (links s') bs' /\ nextPropertyIndex (links s') <= nextPropertyIndex (links s) + 1 /\
    owners bs' (head_at off (<[x := b']> nbs)) (<[x := lo]> L) /\ kept bs bs' L x /\ points bs' a lo /\
    (exists dv, added C nm dv (L x) lo /\ nul ∈ dv /\ text_of dv = text_of v) /\
    exists l f, s' = set_nodesDB f (put l s).
Proof.
  intros Hl Hr Ho Hp Hdn Hnm Hm Hc. destruct Hv as [_ Hv2].
  destruct (add_to_run C links put Hput
    (fun a s' => files s' (<[x := set_list off b a]> nbs) rbs /\ exists l f, s' = set_nodesDB f (put l s))
    s bs (head_at off nbs) L x ref (tell_vertex off) nm v dn v v (text_of v))
    as (s' & bs' & a & lo & dv & R & Hl' & Hn' & Hk & Hpt & Ha & Hd & Ht & Hcase); try done.
  { intros l a _ Hau. destruct (tell_vertex_run (put l s) nbs rbs x b (addr n) off a) as (s' & R & Hf & f & ->);
      [done..|lia|]. eexists. split; [exact R|]. by rewrite Hnodes, Hput; eauto. }
  destruct Hcase as [(E & Hau & Ho' & Hf & l & f & ->)|(E & Ho' & l & ->)].
  - destruct (set_list_fields off b a Hb Hau Hoff) as (F1 & F2 & F3).
    eexists _, a, (set_list off b a), bs', lo. split_and!; try done; try lia; eauto.
    eapply owners_ext; [|exact Ho']. by eapply head_at_set.
  - eexists (put l s), a, b, bs', lo. rewrite list_insert_id by done. split_and!; try done; try lia; eauto.
    exists l, (nodesDB (put l s)). by destruct (put l s).
Qed.
End classes.

Lemma addProperty_add_to nm a s' :
  add_to PropertyLink propertiesDB set_propertiesDB (propRef n) (tell_vertex 14) nm v s = (Ret a, s') ->
  addProperty n nm v s = (Ret (with_propRef n a), s').
Proof.
  unfold add_to, addProperty. destruct (propRef n =? 0); intros R.
  - apply bind_Ret_inv in R as (o & s1 & R1 & R). unfold on_props. erewrite bind_Ret; [|exact R1].
    destruct o as [l|]; [|by injection R as <- <-; destruct n].
    apply bind_Ret_inv in R as ([] & s2 & R2 & R). injection R as <- <-.
    apply bind_Ret_inv in R2 as ([] & s3 & R2 & R3). apply bind_Ret_inv in R3 as (ok & s4 & R3 & R4).
    injection R4 as <-. erewrite bind_Ret; [|exact R2]. by erewrite bind_Ret; [|exact R3].
  - unfold on_props. by erewrite bind_Ret; [|exact R].
Qed.

Lemma addMetaProperty_add_to nm a s' :
  add_to MetaPropertyLink metaPropertiesDB set_metaPropertiesDB (metaPropRef n) (tell_vertex 18) nm v s = (Ret a, s') ->
  addMetaProperty n nm v s = (Ret (with_metaPropRef n a), s').
Proof.
  unfold add_to, addMetaProperty. destruct (metaPropRef n =? 0); intros R.
  - apply bind_Ret_inv in R as (o & s1 & R1 & R). unfold on_metaProps. erewrite bind_Ret; [|exact R1].
    destruct o as [l|]; [|by injection R as <- <-; destruct n].
    apply bind_Ret_inv in R as ([] & s2 & R2 & R). injection R as <- <-.
    apply bind_Ret_inv in R2 as ([] & s3 & R2 & R3). apply bind_Ret_inv in R3 as (ok & s4 & R3 & R4).
    injection R4 as <-. erewrite bind_Ret; [|exact R2]. by erewrite bind_Ret; [|exact R3].
  - unfold on_metaProps. by erewrite bind_Ret; [|exact R].
Qed.

Context (D : lists) (HD : vertex_lists s nbs D).

Lemma add_property_lists nm :
  @points PropertyLink (pbs D) (propRef n) (LV D x) -> key_ok nm ->
  exists s' a b' bs' lo, addProperty n nm v s = (Ret (with_propRef n a), s') /\
    files s' (<[x := b']> nbs) rbs /\ same_but_lists b b' /\
    vertex_lists s' (<[x := b']> nbs) (set_props bs' (<[x := lo]> (LV D)) D) /\
    @kept PropertyLink nat (pbs D) bs' (LV D) x /\ @points PropertyLink bs' a lo /\
    props lo = props (LV D x) ∪ {[nm := text_of v]} /\ space k s' /\ edge_side s s'.
Proof.
  intros Hp [Hk1 Hk2]. destruct Hv as [Hv1 Hv2], HD as [D1 D2 D3 D4 D5], Hsp as (S1 & S2 & S3 & S4).
  destruct (strcpy_name 30 nm Hk1 Hk2) as (dn & Hdn & Hnm). pose proof (memcpy_value v Hv1) as Hm.
  destruct (vertex_add_to PropertyLink propertiesDB set_propertiesDB 14 (fun _ _ => eq_refl)
    (fun l => files_links _ _ _ l Hs) (fun _ _ => eq_refl) (or_introl eq_refl) (pbs D) (LV D) (propRef n) nm dn)
    as (s' & a & b' & bs' & lo & R%addProperty_add_to & Hf & Hbb & H18 & Hl & Hc & Ho & Hk & Hpt & (dv & Ha & Hd & Ht) & l & f & ->); try done.
  { unfold room. change (Z.of_nat (@PROPERTY_BLOCK_SIZE PropertyLink)) with 434. lia. }
  eexists _, a, b', bs', lo. split_and!; try done; [|by rewrite <- Ht; eapply (added_props PropertyLink)|split_and!; cbn in *; lia].
  constructor; try done; [|eapply owners_ext; [|exact D5]; by eapply head_at_insert].
  intros y. cbn. destruct (decide (x = y)) as [<-|Hne]; [rewrite fn_lookup_insert|by rewrite fn_lookup_insert_ne].
  by eapply (added_readable PropertyLink).
Qed.

Lemma add_meta_lists o :
  @points MetaPropertyLink (mbs D) (metaPropRef n) (LM D x) -> only PARTITION_ID (LM D x) o ->
  exists s' a b' bs' lo, addMetaProperty n PARTITION_ID v s = (Ret (with_metaPropRef n a), s') /\
    files s' (<[x := b']> nbs) rbs /\ same_but_lists b b' /\
    vertex_lists s' (<[x := b']> nbs) (set_metas bs' (<[x := lo]> (LM D)) D) /\
    @kept MetaPropertyLink nat (mbs D) bs' (LM D) x /\ @points MetaPropertyLink bs' a lo /\
    only PARTITION_ID lo (Some (text_of v)) /\ space k s' /\ edge_side s s'.
Proof.
  intros Hp Hon. destruct Hv as [Hv1 Hv2], HD as [D1 D2 D3 D4 D5], Hsp as (S1 & S2 & S3 & S4).
  destruct (strcpy_name 12 PARTITION_ID) as (dn & Hdn & Hnm); [by apply (bool_decide_unpack _)|cbn; lia|].
  pose proof (memcpy_value v Hv1) as Hm.
  destruct (vertex_add_to MetaPropertyLink metaPropertiesDB set_metaPropertiesDB 18 (fun _ _ => eq_refl)
    (fun l => Hs) (fun _ _ => eq_refl) (or_intror eq_refl) (mbs D) (LM D) (metaPropRef n) PARTITION_ID dn)
    as (s' & a & b' & bs' & lo & R%addMetaProperty_add_to & Hf & Hbb & H14 & Hl & Hc & Ho & Hk & Hpt & (dv & Ha & Hd & Ht) & l & f & ->); try done.
  { unfold room. change (Z.of_nat (@PROPERTY_BLOCK_SIZE MetaPropertyLink)) with 416. lia. }
  eexists _, a, b', bs', lo. split_and!; try done; [|by rewrite <- Ht; eapply (added_only MetaPropertyLink)|split_and!; cbn in *; lia].
  constructor; try done. eapply owners_ext; [|exact D2]. by eapply head_at_insert.
Qed.
End vertex_steps.

(** ** What the operations do to the property graph *)

(** The first value of a name stays. *)
Definition with_vprop (s nm w : string) (P : property_graph) : property_graph :=
  mkPG (pg P) (<[s := props_of P s ∪ {[nm := w]}]> (vprops P)) (vpid P) (edata P).

(** The last partition counts. *)
Definition with_vpid (s w : string) (P : property_graph) : property_graph :=
  mkPG (pg P) (vprops P) (<[s := w]> (vpid P)) (edata P).

Definition relabel (s l : string) (g : graph) : graph := mkGraph (vertices g) (gedges g) (<[s := l]> (glabels g)).

(** The first label other than the id stays. *)
Definition with_label_of (s l : string) (P : property_graph) : property_graph :=
  if decide (label_of (pg P) s = s /\ l <> EmptyString)
  then mkPG (relabel s l (pg P)) (vprops P) (vpid P) (edata P) else P.

Lemma props_of_with s nm w P t :
  props_of (with_vprop s nm w P) t = if decide (s = t) then props_of P s ∪ {[nm := w]} else props_of P t.
Proof.
  unfold props_of, with_vprop. cbn. case_decide; subst; [by rewrite lookup_insert_eq|by rewrite lookup_insert_ne].
Qed.

Section in_use.
Context (D : lists) (P : property_graph) (s : string) (objs : list (string * NodeBlock)).
Context (Hin : s ∈ vertices (pg P)) (Hout : s ∉ objs.*1).
Context (Hobjs : Forall (vertex_in_use D P) objs).

Lemma other_vertex t : t ∈ objs.*1 -> t ∈ vertices (pg P) -> vnum (vertices (pg P)) t <> vnum (vertices (pg P)) s.
Proof. intros Ht Hv E. apply Hout. by rewrite <- (vnum_inj _ t s Hv Hin E). Qed.

Lemma objects_props bs' lo (P' : property_graph) H :
  pg P' = pg P -> @owners PropertyLink nat (pbs D) H (LV D) ->
  @kept PropertyLink nat (pbs D) bs' (LV D) (vnum (vertices (pg P)) s) ->
  Forall (vertex_in_use (set_props bs' (<[vnum (vertices (pg P)) s := lo]> (LV D)) D) P') objs.
Proof.
  intros E Ho Hk. apply list.Forall_forall. intros [t n] Ht. pose proof (proj1 (list.Forall_forall _ _) Hobjs _ Ht) as (U1 & U2 & U3 & U4 & U5 & U6).
  assert (vnum (vertices (pg P)) t <> vnum (vertices (pg P)) s) as Hne.
  { apply other_vertex; [|done]. apply list_elem_of_fmap. exists (t, n). split; [done|exact Ht]. }
  unfold vertex_in_use. rewrite E. split_and!; try done. cbn. rewrite fn_lookup_insert_ne by done. by eapply points_kept.
Qed.

Lemma objects_metas bs' lo (P' : property_graph) H :
  pg P' = pg P -> @owners MetaPropertyLink nat (mbs D) H (LM D) ->
  @kept MetaPropertyLink nat (mbs D) bs' (LM D) (vnum (vertices (pg P)) s) ->
  Forall (vertex_in_use (set_metas bs' (<[vnum (vertices (pg P)) s := lo]> (LM D)) D) P') objs.
Proof.
  intros E Ho Hk. apply list.Forall_forall. intros [t n] Ht. pose proof (proj1 (list.Forall_forall _ _) Hobjs _ Ht) as (U1 & U2 & U3 & U4 & U5 & U6).
  assert (vnum (vertices (pg P)) t <> vnum (vertices (pg P)) s) as Hne.
  { apply other_vertex; [|done]. apply list_elem_of_fmap. exists (t, n). split; [done|exact Ht]. }
  unfold vertex_in_use. rewrite E. split_and!; try done. cbn. rewrite fn_lookup_insert_ne by done. by eapply points_kept.
Qed.
End in_use.

(** Operations on vertices leave what belongs to edges. *)
Lemma edge_lists_side s s' rbs D bs L bs2 L2 :
  edge_side s s' -> edge_lists s rbs D ->
  edge_lists s' rbs (set_props bs L D) /\ edge_lists s' rbs (set_metas bs2 L2 D).
Proof. intros (E1 & E2 & E3) []. split; constructor; rewrite ?E2, ?E3; done. Qed.

Lemma edge_in_use_side s s' D P P' bs L bs2 L2 o :
  edge_side s s' -> gedges (pg P') = gedges (pg P) -> edata P' = edata P -> from_option (edge_in_use s D P) True o ->
  from_option (edge_in_use s' (set_props bs L D) P') True o /\
  from_option (edge_in_use s' (set_metas bs2 L2 D) P') True o.
Proof. intros (E1 & _) Eg Ed. destruct o as [[k r]|]; [|done]. unfold from_option, edge_in_use, typeless. rewrite Eg, E1, Ed. done. Qed.

Lemma vertex_property m P s n objs e nm v k :
  holds m P ((s, n) :: objs) e -> s ∉ objs.*1 -> key_ok nm -> value_ok v -> space (S k) (dbs m) ->
  exists s' n', on_store (addProperty n nm v) m = (Ret n', set_dbs s' m) /\
    holds (set_dbs s' m) (with_vprop s nm (text_of v) P) ((s, n') :: objs) e /\ space k s'.
Proof.
  intros (Hlk & nbs & rbs & D & Hm & Hv & He & Sv & Se & Hobjs & Hedge) Hout Hk Hval Hsp.
  apply Forall_cons in Hobjs as [(U1 & U2 & U3 & U4 & U5 & U6) Hobjs].
  set (x := vnum (vertices (pg P)) s) in *.
  destruct (stored_block _ _ _ _ _ Hm U1) as (b & Hb & _ & Hwf & _). fold x in Hb.
  destruct (add_property_lists (dbs m) nbs rbs x b n v k (st_files _ _ _ _ Hm) Hb Hwf U3 Hval Hsp D Hv nm U5 Hk)
    as (s' & a & b' & bs' & lo & R & Hf & Hbb & HD & Hkept & Hpt & Hpr & Hsp' & Hside).
  exists s', (with_propRef n a). split_and!; [by apply zoom_run| |done].
  split; [done|]. exists (<[x := b']> nbs), rbs, (set_props bs' (<[x := lo]> (LV D)) D).
  split_and!; [by eapply stored_lists|done|exact (proj1 (edge_lists_side (dbs m) s' rbs D _ _ [] (fun _ => []) Hside He))| | | |].
  - destruct Sv as [V1 V2 V3]. constructor; [|done|].
    + intros y t Hy. rewrite props_of_with. cbn. destruct (decide (s = t)) as [<-|Hne].
      * assert (y = x) as -> by (symmetry; by apply vnum_NoDup; [by destruct Hm|]).
        rewrite fn_lookup_insert, Hpr. f_equal. by apply V1.
      * rewrite fn_lookup_insert_ne; [by apply V1|]. intros <-.
        pose proof (vnum_lookup _ _ U1) as E. fold x in E. cbn in Hy. congruence.
    + intros t Ht. cbn. destruct (V3 t Ht) as [T1 T2]. split; [|done].
      rewrite lookup_insert_ne; [done|]. by intros <-.
  - destruct Se. by constructor.
  - constructor; [|by eapply (objects_props D P s objs U1 Hout Hobjs _ _ _ _ eq_refl (vl_owners _ _ _ Hv))].
    split_and!; try done. cbn. fold x. by rewrite fn_lookup_insert.
  - exact (proj1 (edge_in_use_side (dbs m) s' D P _ _ _ [] (fun _ => []) e Hside eq_refl eq_refl Hedge)).
Qed.

Lemma vertex_partition m P s n objs e v k :
  holds m P ((s, n) :: objs) e -> s ∉ objs.*1 -> value_ok v -> space (S k) (dbs m) ->
  exists s' n', on_store (addMetaProperty n PARTITION_ID v) m = (Ret n', set_dbs s' m) /\
    holds (set_dbs s' m) (with_vpid s (text_of v) P) ((s, n') :: objs) e /\ space k s'.
Proof.
  intros (Hlk & nbs & rbs & D & Hm & Hv & He & Sv & Se & Hobjs & Hedge) Hout Hval Hsp.
  apply Forall_cons in Hobjs as [(U1 & U2 & U3 & U4 & U5 & U6) Hobjs].
  set (x := vnum (vertices (pg P)) s) in *. pose proof (vnum_lookup _ _ U1) as Hxs. fold x in Hxs.
  destruct (stored_block _ _ _ _ _ Hm U1) as (b & Hb & _ & Hwf & _). fold x in Hb.
  destruct (add_meta_lists (dbs m) nbs rbs x b n v k (st_files _ _ _ _ Hm) Hb Hwf U3 Hval Hsp D Hv _ U6 (sv_pid _ _ Sv x s Hxs))
    as (s' & a & b' & bs' & lo & R & Hf & Hbb & HD & Hkept & Hpt & Hpr & Hsp' & Hside).
  exists s', (with_metaPropRef n a). split_and!; [by apply zoom_run| |done].
  split; [done|]. exists (<[x := b']> nbs), rbs, (set_metas bs' (<[x := lo]> (LM D)) D).
  split_and!; [by eapply stored_lists|done|exact (proj2 (edge_lists_side (dbs m) s' rbs D [] (fun _ => []) _ _ Hside He))| | | |].
  - destruct Sv as [V1 V2 V3]. constructor; [done| |].
    + intros y t Hy. cbn. destruct (decide (s = t)) as [<-|Hne].
      * assert (y = x) as -> by (symmetry; by apply vnum_NoDup; [by destruct Hm|]).
        by rewrite fn_lookup_insert, lookup_insert_eq.
      * rewrite fn_lookup_insert_ne, lookup_insert_ne; [by apply V2|done|]. intros <-. cbn in Hy. congruence.
    + intros t Ht. cbn. destruct (V3 t Ht) as [T1 T2]. split; [done|].
      rewrite lookup_insert_ne; [done|]. by intros <-.
  - destruct Se. by constructor.
  - constructor; [|by eapply (objects_metas D P s objs U1 Hout Hobjs _ _ _ _ eq_refl (vl_mowners _ _ _ Hv))].
    split_and!; try done. cbn. fold x. by rewrite fn_lookup_insert.
  - exact (proj2 (edge_in_use_side (dbs m) s' D P _ [] (fun _ => []) _ _ e Hside eq_refl eq_refl Hedge)).
Qed.

(** ** Labels *)

Definition set_label_field (b : list ascii) (w : string) : list ascii :=
  write_data b 22 (strncpy_buf LABEL_SIZE (chars w)).

Lemma set_label_fields b w :
  length b = 140%nat -> length (set_label_field b w) = 140%nat /\
  nf_label (set_label_field b w) = strncpy_buf LABEL_SIZE (chars w) /\
  (forall off m, (off + m <= 22)%nat -> read_data (set_label_field b w) off m = read_data b off m).
Proof.
  intros Hb. assert (length (strncpy_buf LABEL_SIZE (chars w)) = 118%nat) as Hl by apply length_strncpy_buf.
  unfold set_label_field. split_and!.
  - by rewrite length_write_data_le by (rewrite Hl; lia).
  - unfold nf_label. rewrite <- Hl at 1. apply read_write_same.
  - intros off m H. by rewrite read_write_before by lia.
Qed.

Lemma label_of_relabel s w g t : label_of (relabel s w g) t = if decide (s = t) then w else label_of g t.
Proof.
  unfold label_of, relabel. cbn. case_decide; subst; [by rewrite lookup_insert_eq|by rewrite lookup_insert_ne].
Qed.

Lemma stored_relabel m g nbs rbs s b w s' :
  let x := vnum (vertices g) s in
  stored m g nbs rbs -> s ∈ vertices g -> nbs !! x = Some b -> label_ok w ->
  files s' (<[x := set_label_field b w]> nbs) rbs ->
  stored (set_dbs s' m) (relabel s w g) (<[x := set_label_field b w]> nbs) rbs.
Proof.
  intros x Hm Hs Hx Hw Hs'. pose proof (st_graph _ _ _ _ Hm) as Hg. pose proof (st_blocks _ _ _ _ Hm) as Hbl.
  assert (node_wf b) as (W1 & W2 & W3 & W4) by (destruct Hg as [Hwf _]; by eapply Forall_lookup_1 in Hwf).
  destruct (set_label_fields b w W1) as (F1 & F2 & F3). destruct Hw as (Hw1 & Hw2).
  destruct (label_until w Hw1) as [U1 U2]; [lia|]. pose proof (st_nodup _ _ _ _ Hm) as Hnd.
  pose proof (st_labels _ _ _ _ Hm) as Hlab. destruct Hm. constructor; try done; cbn.
  - eapply graph_ok_block; [done..| |].
    + unfold node_wf. rewrite F2, U1. split_and!; try done; [|unfold nf32 in *; by rewrite F3 by lia].
      intros E. rewrite E in Hw2. cbn in Hw2. lia.
    + intros k. unfold node_head, nf32. rewrite F3 by (destruct k; cbn; lia). done.
  - apply Forall2_same_length_lookup_2.
    { rewrite length_insert. by eapply Forall2_length. }
    intros z t c Ht Hz. destruct (Forall2_lookup_l _ _ _ _ _ Hbl Ht) as (c0 & Hc0 & (v & Hv & Hi) & Hlb & Hu).
    rewrite label_of_relabel. destruct (decide (x = z)) as [<-|Hne].
    + rewrite list_lookup_insert_eq in Hz by (by eapply lookup_lt_Some). simplify_eq.
      pose proof (vnum_lookup _ _ Hs) as Hxs. fold x in Hxs. simplify_eq. rewrite decide_True by done.
      unfold vertex_block, nf_id, nf32 in *. rewrite F2, !F3 by lia. eauto.
    + rewrite list_lookup_insert_ne in Hz by done. simplify_eq. rewrite decide_False; [by split_and!; [exists v|..]|].
      intros <-. apply Hne. unfold x. by apply vnum_NoDup.
  - intros t l Ht. destruct (decide (s = t)) as [<-|Hne].
    + rewrite lookup_insert_eq in Ht. by simplify_eq.
    + rewrite lookup_insert_ne in Ht by done. by apply Hlab.
Qed.

Lemma chars_text l : chars (text_of l) = until_nul l.
Proof. apply list_ascii_of_string_of_list_ascii. Qed.

Lemma until_nul_shorter l : nul ∈ l -> (length (until_nul l) < length l)%nat.
Proof.
  induction l as [|c l IH]; [by intros ?%not_elem_of_nil|]. rewrite elem_of_cons. cbn.
  case_decide as E; cbn; [lia|]. intros [H|H]; [by subst|]. apply IH in H. lia.
Qed.

Lemma text_label l :
  nul ∈ l -> length l = LABEL_SIZE -> text_of l <> EmptyString ->
  label_ok (text_of l) /\ strncpy_buf LABEL_SIZE l = strncpy_buf LABEL_SIZE (chars (text_of l)).
Proof.
  intros Hn Hl Hne. pose proof (until_nul_clean l) as Hc. split.
  - unfold label_ok, no_nul. rewrite chars_text. split_and!; [done| |rewrite <- Hl; by apply until_nul_shorter].
    destruct (until_nul l) eqn:E; [|cbn; lia]. exfalso. apply Hne. unfold text_of. by rewrite E.
  - unfold strncpy_buf. rewrite chars_text. by rewrite (until_nul_id (until_nul l)).
Qed.

Lemma write_label_run s nbs rbs x b ad w :
  files s nbs rbs -> nbs !! x = Some b -> ad = naddress x ->
  exists s', (on_nodes (seek (ad + LABEL_OFFSET));; on_nodes (write (strncpy_buf LABEL_SIZE (chars w)));; mret tt) s = (Ret tt, s') /\
    files s' (<[x := set_label_field b w]> nbs) rbs /\ exists f, s' = set_nodesDB f s.
Proof.
  intros Hs Hx Hn. pose proof Hs as [[Hf Hd] _]. pose proof (good_run _ _ _ (conj Hf Hd)) as E.
  eexists. split; [|split].
  - erewrite bind_Ret; [|apply on_nodes_run; rewrite E; apply seek_run].
    erewrite bind_Ret; [|apply on_nodes_run; cbn [nodesDB set_nodesDB]; apply write_run]. reflexivity.
  - change (set_nodesDB ?f (set_nodesDB _ s)) with (set_nodesDB f s).
    eapply files_nodes; [exact Hs|]. rewrite Hn.
    replace (Z.to_nat (naddress x + LABEL_OFFSET)) with (x * 140 + 22)%nat
      by (unfold naddress, NODE_BLOCK_SIZE, LABEL_OFFSET; lia).
    apply write_block; [done..|]. rewrite length_strncpy_buf. unfold LABEL_SIZE. lia.
  - eexists. reflexivity.
Qed.

Lemma vertex_label m P s n objs e l :
  holds m P ((s, n) :: objs) e -> s ∉ objs.*1 -> length l = LABEL_SIZE -> nul ∈ l ->
  exists s' n', on_store (addLabel n l) m = (Ret n', set_dbs s' m) /\
    holds (set_dbs s' m) (with_label_of s (text_of l) P) ((s, n') :: objs) e /\
    (forall k, space k (dbs m) -> space k s').
Proof.
  intros HH Hout Hl Hn. pose proof HH as (Hlk & nbs & rbs & D & Hm & Hv & He & Sv & Se & Hobjs & Hedge).
  apply Forall_cons in Hobjs as [(U1 & U2 & U3 & U4 & U5 & U6) Hobjs].
  set (x := vnum (vertices (pg P)) s) in *. pose proof (vnum_lookup _ _ U1) as Hxs. fold x in Hxs.
  destruct (stored_block _ _ _ _ _ Hm U1) as (b & Hb & _ & Hwf & _). fold x in Hb.
  unfold with_label_of. destruct (decide (label_of (pg P) s = s /\ text_of l <> EmptyString)) as [[E1 E2]|E].
  - destruct (text_label l Hn Hl E2) as [Hw Hbuf].
    destruct (write_label_run (dbs m) nbs rbs x b (addr n) (text_of l) (st_files _ _ _ _ Hm) Hb U3) as (s' & R & Hf & f & ->).
    set (s' := set_nodesDB f (dbs m)) in *. set (n' := with_label n (strncpy_buf LABEL_SIZE l)).
    exists s', n'. split_and!; [| |done].
    + apply zoom_run. unfold addLabel. rewrite U4, (cstring_text l Hn), U2. cbn [determinate]. do 2 (erewrite bind_Ret; [|reflexivity]; cbn beta). rewrite !bool_decide_true by done. cbn [negb andb].
      rewrite bool_decide_false by done. cbn [negb andb]. cbn zeta. apply bind_Ret_inv in R as ([] & s1 & R1 & R).
      apply bind_Ret_inv in R as (ok & s2 & R2 & R). injection R as <-. change (addr (with_label n ?z)) with (addr n).
      cbn [label with_label]. rewrite Hbuf. erewrite bind_Ret; [|exact R1]. erewrite bind_Ret; [|exact R2]. unfold n'. by rewrite Hbuf.
    + split; [done|]. exists (<[x := set_label_field b (text_of l)]> nbs), rbs, D.
      destruct (set_label_fields b (text_of l) Hwf) as (F1 & F2 & F3).
      split_and!; [by apply stored_relabel| |by destruct He| | | |].
      * destruct Hv as [V1 V2 V3 V4 V5]. constructor; try done; (eapply owners_ext; [|done]; eapply head_at_insert; [done|]);
          unfold nf32; by rewrite F3 by lia.
      * by destruct Sv.
      * by destruct Se.
      * constructor.
        -- split_and!; try done. cbn [pg]. rewrite label_of_relabel, decide_True by done. change (label n') with (strncpy_buf LABEL_SIZE l). rewrite Hbuf.
           destruct Hw as [Hw1 Hw2]. destruct (label_until _ Hw1) as [W1 W2]; [lia|].
           rewrite cstring_text by done. f_equal. unfold text_of at 1. by rewrite W1, string_chars.
        -- apply Forall_forall. intros [t n2] Ht. pose proof (proj1 (Forall_forall _ _) Hobjs _ Ht) as (T1 & T2 & T3 & T4 & T5 & T6).
           split_and!; try done. cbn. rewrite label_of_relabel, decide_False; [done|]. intros <-. apply Hout.
           apply list_elem_of_fmap. by exists (s, n2).
      * by destruct e as [[k r]|].
  - exists (dbs m), n. split_and!; [| |done].
    + apply zoom_run. unfold addLabel. rewrite U4, (cstring_text l Hn), U2. cbn [determinate]. do 2 (erewrite bind_Ret; [|reflexivity]; cbn beta). destruct (bool_decide (label_of (pg P) s = s)) eqn:E1; [|done].
      apply bool_decide_eq_true in E1. rewrite bool_decide_true by (destruct (decide (text_of l = EmptyString)); naive_solver). done.
    + by destruct m.
Qed.
