(* ===== verification/EdgeData.v ===== *)
(** * EdgeData: the newest edge of a property graph

    The operations on the object of the newest edge - its properties, its
    partition and its type - and the insertion of a new edge, as steps on the
    property graph that a partition holds. *)
From Stdlib Require Import ZArith Ascii String Lia.
From stdpp Require Import functions base tactics numbers list strings gmap.
From S2P Require Import Prelude FStream PropertyLinks PropertyLinkTheory NodeBlock RelationBlock NodeRelations.
From S2P Require Import NodeManager GraphFiles GraphTheory ManagerTheory PropertyOwners PropertyGraph.

(** ** Steps on the graph *)

Definition on_newest (k : kind) (f : edge_data -> edge_data) (P : property_graph) : property_graph :=
  mkPG (pg P) (vprops P) (vpid P)
    (fun k' => if decide (k = k') then match edata P k' with d :: E => f d :: E | [] => [] end else edata P k').

Definition with_eprop (nm w : string) (d : edge_data) : edge_data :=
  mkEdgeData (ed_type d) (ed_props d ∪ {[nm := w]}) (ed_pid d).
Definition with_epid (w : string) (d : edge_data) : edge_data := mkEdgeData (ed_type d) (ed_props d) (Some w).
Definition with_etype (w : string) (d : edge_data) : edge_data := mkEdgeData (Some w) (ed_props d) (ed_pid d).

Lemma typeless_newest k f P :
  (forall d, ed_type (f d) = ed_type d) -> typeless (on_newest k f P) k -> typeless P k.
Proof.
  intros Hf. unfold typeless, on_newest. cbn. rewrite decide_True by done. destruct (edata P k); [done|]. by rewrite Hf.
Qed.

(** A step that concerns the newest edge of kind [k] only. *)
Lemma shows_newest D rbs P D' rbs' k f :
  let i := length (gedges (pg P) k) in
  shows_edges D rbs P ->
  (forall k' j, (k', j) <> (k, i) -> LE D' (k', j) = LE D (k', j) /\ rbs' k' !! j = rbs k' !! j /\
    (k' = Central -> LX D' j = LX D j)) ->
  (forall d E, edata P k = d :: E -> shows_edge D (rbs k) k i d -> shows_edge D' (rbs' k) k i (f d)) ->
  shows_edges D' rbs' (on_newest k f P).
Proof.
  intros i [H1 H2] Hother Hnew. constructor; cbn.
  - intros k'. rewrite <- H1. case_decide; [|done]. subst. by destruct (edata P k').
  - intros k' E1 d E2. assert (forall E1 d E2, edata P k' = E1 ++ d :: E2 -> (k', S (length E2)) <> (k, i) ->
      shows_edge D' (rbs' k') k' (S (length E2)) d) as Hold.
    { intros F1 d0 F2 HE Hne. destruct (H2 k' F1 d0 F2 HE) as (S1 & S2 & S3).
      destruct (Hother _ _ Hne) as (O1 & O2 & O3). unfold shows_edge. rewrite O1, O2. split_and!; try done.
      intros Hc. rewrite O3 by done. by apply S3. }
    case_decide as Ek; [subst k'|intros HE; eapply Hold; [done|congruence]].
    destruct (edata P k) as [|d0 E] eqn:Ed; [by destruct E1|].
    assert (i = S (length E)) as Hi by (unfold i; rewrite <- H1, Ed; done).
    destruct E1 as [|d1 E1]; intros HE; injection HE as HE1 HE2; subst.
    + rewrite <- Hi. apply (Hnew d0 E2 eq_refl). rewrite Hi. by apply (H2 k []).
    + eapply (Hold (d0 :: E1)); [done|]. rewrite Hi, length_app. cbn. intros [= HH]. lia.
Qed.

(** ** Telling the block of an edge about its list *)

Lemma tell_edge_run s nbs rbs k i b r o a :
  files s nbs rbs -> rbs k !! i = Some b -> raddr r = raddress k i ->
  (Z.to_nat (offset_value o) < records k)%nat -> raddress k (S i) <= 4294967296 ->
  exists s' f, (updateRelationRecords k r o a;; mret tt) s = (Ret tt, s') /\
    files s' nbs (upd_rel k (<[i := set_rf (Z.to_nat (offset_value o)) b a]> (rbs k)) rbs) /\
    s' = set_rel_file k f s /\ fs_pos f = raddress k i + 4 * offset_value o + 4.
Proof.
  intros Hs Hi Hr Ho Hu. destruct (updateRelationRecords_run s nbs rbs k i b r o a Hs Hi Hr Ho Hu) as (s' & R & Hf & _).
  pose proof Hs as [_ Hrel]. destruct (Hrel k) as [[Hfl Hd] _].
  assert (0 <= offset_value o) by by destruct o. pose proof (rsize_eq k). pose proof (BLOCK_SIZE_rsize k).
  assert (u32 (raddr r + RECORD_SIZE * offset_value o) = raddress k i + 4 * offset_value o) as Ha.
  { rewrite Hr. unfold RECORD_SIZE, raddress in *. rewrite u32_id; [lia|]. unfold is_u32. nia. }
  assert (exists f, s' = set_rel_file k f s /\ fs_pos f = raddress k i + 4 * offset_value o + 4) as (f & Es & Ef).
  { unfold updateRelationRecords in R. rewrite Ha in R. erewrite bind_Ret in R;
      [|apply on_rel_run; rewrite (good_run _ _ _ (conj Hfl Hd)); apply seek_run].
    erewrite on_rel_run in R; [|rewrite rel_file_set; apply write_run].
    rewrite set_rel_file_twice in R. injection R as <-. eexists. split; [reflexivity|]. cbn. lia. }
  exists s', f. split_and!; try done. by erewrite bind_Ret; [|exact R].
Qed.

Lemma rel_field_set q bs i b a :
  bs !! i = Some b -> is_u32 a -> forall j, rel_field q (<[i := set_rf q b a]> bs) j = (<[i := a]> (rel_field q bs)) j.
Proof.
  intros Hi Ha j. unfold rel_field. destruct (decide (i = j)) as [<-|Hne].
  - rewrite list_lookup_insert_eq by (by eapply lookup_lt_Some). by rewrite fn_lookup_insert, rf_set_same.
  - by rewrite list_lookup_insert_ne, fn_lookup_insert_ne.
Qed.

Lemma rel_field_insert q bs i b b' :
  bs !! i = Some b -> rf q b' = rf q b -> forall j, rel_field q (<[i := b']> bs) j = rel_field q bs j.
Proof.
  intros Hi Ha j. unfold rel_field. destruct (decide (i = j)) as [<-|Hne].
  - rewrite list_lookup_insert_eq by (by eapply lookup_lt_Some). by rewrite Hi.
  - by rewrite list_lookup_insert_ne.
Qed.

Lemma edge_head_upd rbs k bs o :
  edge_head (upd_rel k bs rbs) o = if decide (k = o.1) then rel_field 12 bs o.2 else edge_head rbs o.
Proof.
  unfold edge_head. destruct o as [k' j]. cbn. case_decide; subst; [by rewrite upd_rel_eq|by rewrite upd_rel_ne].
Qed.

Lemma set_rf_links k q b a :
  length b = rsize k -> nul ∈ rf_type k b -> (12 <= q < records k)%nat -> same_links_of k b (set_rf q b a).
Proof.
  intros Hb Ht Hq. split_and!.
  - by rewrite (length_set_rf k) by (done || lia).
  - intros q' Hq'. apply (rf_set_other k); [done|lia|lia].
  - by rewrite rf_type_set by (done || lia).
Qed.

(** ** Properties and partition of the newest edge *)

Lemma files_edge_links s nbs rbs l : files s nbs rbs -> files (set_edgePropertiesDB l s) nbs rbs.
Proof. intros [H1 H2]. split; [done|]. intros k. specialize (H2 k). by destruct k. Qed.

Lemma files_edge_metas s nbs rbs l : files s nbs rbs -> files (set_metaEdgePropertiesDB l s) nbs rbs.
Proof. intros [H1 H2]. split; [done|]. intros k. specialize (H2 k). by destruct k. Qed.

Definition set_eprops (bs : list (list ascii)) (L : kind * nat -> list entry) (D : lists) : lists :=
  Lists (pbs D) (LV D) (mbs D) (LM D) bs L (xbs D) (LX D).
Definition set_emetas (bs : list (list ascii)) (L : nat -> list entry) (D : lists) : lists :=
  Lists (pbs D) (LV D) (mbs D) (LM D) (ebs D) (LE D) bs L.

(** What the operations on edges leave alone. *)
Definition vertex_side (s s' : store) : Prop :=
  propertiesDB s' = propertiesDB s /\ metaPropertiesDB s' = metaPropertiesDB s.

Lemma vertex_lists_side s s' nbs D bs L bs2 L2 :
  vertex_side s s' -> vertex_lists s nbs D ->
  vertex_lists s' nbs (set_eprops bs L D) /\ vertex_lists s' nbs (set_emetas bs2 L2 D).
Proof. intros [E1 E2] []. split; constructor; rewrite ?E1, ?E2; done. Qed.

Lemma newest_block m P nbs rbs k :
  stored m (pg P) nbs rbs -> (0 < length (gedges (pg P) k))%nat ->
  let i := length (gedges (pg P) k) in
  exists b, rbs k !! i = Some b /\ length b = rsize k /\ nul ∈ rf_type k b /\ raddress k (S i) <= 4294967296.
Proof.
  intros Hm Hi i. destruct (st_graph _ _ _ _ Hm) as (_ & _ & Hk). destruct (Hk k) as (H1 & H2 & H3 & _).
  assert (length (numbered (pg P) k) = i) as Hl by apply length_fmap.
  destruct (numbered (pg P) k) as [|e E] eqn:E0; [cbn in Hl; lia|].
  destruct (H3 [] e E eq_refl) as (b & Hb & W1 & W2 & _). cbn in Hl. rewrite Hl in Hb. exists b. split_and!; try done.
  cbn in H1. rewrite H1, Hl in H2. done.
Qed.

Lemma edge_name nm : key_ok nm -> cstring (strncpy_buf 30 (chars nm)) = Some nm.
Proof.
  intros [H1 H2]. rewrite cstring_strncpy by lia. rewrite until_nul_id by done.
  rewrite take_ge by lia. by rewrite string_chars.
Qed.

Lemma edge_value_text v :
  value_ok v -> copy_edge_value v = Some (strncpy_buf 400 v) /\ nul ∈ strncpy_buf 400 v /\
  text_of (strncpy_buf 400 v) = text_of v.
Proof.
  intros [Hv1 Hv2]. unfold copy_edge_value. rewrite decide_True by done. split; [done|].
  pose proof (until_nul_shorter v Hv2) as Hs1. unfold strncpy_buf. rewrite take_ge by lia.
  rewrite resize_pad by lia. split; [set_solver|]. unfold text_of. by rewrite until_nul_app by apply until_nul_clean.
Qed.

Lemma addRelationProperty_add_to kd r v s nm a s' :
  add_to PropertyEdgeLink edgePropertiesDB set_edgePropertiesDB (propertyAddress r)
    (fun a => updateRelationRecords kd r RELATION_PROPS a;; mret tt) nm v s = (Ret a, s') ->
  addRelationProperty kd r nm v s = (Ret (with_propertyAddress r a), s').
Proof.
  unfold add_to, addRelationProperty. destruct (propertyAddress r =? 0); intros R.
  - apply bind_Ret_inv in R as (ol & s1 & R1 & R). unfold on_edgeProps. erewrite bind_Ret; [|exact R1].
    destruct ol as [l|]; [|by injection R as <- <-; destruct r].
    apply bind_Ret_inv in R as ([] & s2 & R2 & R). injection R as <- <-.
    apply bind_Ret_inv in R2 as (ok & s3 & R2 & R3). injection R3 as <-. by erewrite bind_Ret; [|exact R2].
  - unfold on_edgeProps. by erewrite bind_Ret; [|exact R].
Qed.

Lemma addRelationMetaProperty_add_to r v s nm a s' :
  add_to MetaPropertyEdgeLink metaEdgePropertiesDB set_metaEdgePropertiesDB (metaPropertyAddress r)
    (fun a => updateRelationRecords Central r RELATION_PROPS_META a;; mret tt) nm v s = (Ret a, s') ->
  addRelationMetaProperty r nm v s = (Ret (with_metaPropertyAddress r a), s').
Proof.
  unfold add_to, addRelationMetaProperty. destruct (metaPropertyAddress r =? 0); intros R.
  - apply bind_Ret_inv in R as (ol & s1 & R1 & R). unfold on_metaEdgeProps. erewrite bind_Ret; [|exact R1].
    destruct ol as [l|]; [|by injection R as <- <-; destruct r].
    apply bind_Ret_inv in R as ([] & s2 & R2 & R). injection R as <- <-.
    apply bind_Ret_inv in R2 as (ok & s3 & R2 & R3). injection R3 as <-. by erewrite bind_Ret; [|exact R2].
  - unfold on_metaEdgeProps. by erewrite bind_Ret; [|exact R].
Qed.

Section edge_steps.
Context (s : store) (nbs : list (list ascii)) (rbs : kind -> list (list ascii)) (kd : kind).
Context (i : nat) (b : list ascii) (r : RelationBlock) (v : list ascii).
Context (Hi : rbs kd !! i = Some b) (Hb : length b = rsize kd) (Ht : nul ∈ rf_type kd b).
Context (Hr : raddr r = raddress kd i) (Hroom : raddress kd (S i) <= 4294967296).
Context (Hv : value_ok v).

Section classes.
Context (C : LinkClass) {OK : LinkClassOk C} (links : store -> linkdb) (put : linkdb -> store -> store).
Context (o : RelationOffsets) (q : nat) (Hq : q = Z.to_nat (offset_value o)) (Hq2 : (12 <= q < records kd)%nat).
Context (Hput : forall l s, links (put l s) = l) (Hfiles : forall l, files (put l s) nbs rbs).
Context (Hrel : forall f s, links (set_rel_file kd f s) = links s).
Context {O : Type} `{EqDecision O}.

Lemma edge_add_to bs (H : O -> Z) L ow ref nm dn dv :
  links_ok (links s) bs -> room (links s) -> owners bs H L -> points bs ref (L ow) ->
  copy_name nm = Some dn -> cstring dn = Some nm -> memcpy_buf MAX_VALUE_SIZE v = Some v -> copy_value v = Some dv ->
  nul ∈ dv -> text_of dv = text_of v ->
  exists s' a b' bs' lo, add_to C links put ref (fun a => updateRelationRecords kd r o a;; mret tt) nm v s = (Ret a, s') /\
    files s' nbs (upd_rel kd (<[i := b']> (rbs kd)) rbs) /\ same_links_of kd b b' /\ rf_type kd b' = rf_type kd b /\
    (forall q', (q' < records kd)%nat -> q' <> q -> rf q' b' = rf q' b) /\
    links_ok (links s') bs' /\ nextPropertyIndex (links s') <= nextPropertyIndex (links s) + 1 /\
    ((L ow = [] /\ is_u32 a /\ b' = set_rf q b a /\ owners bs' (<[ow := a]> H) (<[ow := lo]> L) /\
      exists l f, s' = set_rel_file kd f (put l s) /\ fs_pos f = raddress kd i + 4 * Z.of_nat q + 4) \/
     (L ow <> [] /\ b' = b /\ owners bs' H (<[ow := lo]> L) /\ exists l, s' = put l s)) /\
    kept bs bs' L ow /\ points bs' a lo /\
    (exists dv, added C nm dv (L ow) lo /\ nul ∈ dv /\ text_of dv = text_of v).
Proof.
  intros Hl Hrm Ho Hp Hdn Hnm Hm Hc Hd Htx. destruct Hv as [_ Hv2].
  destruct (add_to_run C links put Hput
    (fun a s' => files s' nbs (upd_rel kd (<[i := set_rf q b a]> (rbs kd)) rbs) /\
       exists l f, s' = set_rel_file kd f (put l s) /\ fs_pos f = raddress kd i + 4 * Z.of_nat q + 4)
    s bs H L ow ref (fun a => updateRelationRecords kd r o a;; mret tt) nm v dn v dv (text_of v))
    as (s' & bs' & a & lo & dv' & R & Hl' & Hn' & Hk & Hpt & Ha & Hd' & Ht' & Hcase); try done.
  { intros l a _ Hau. destruct (tell_edge_run (put l s) nbs rbs kd i b r o a) as (s' & f & R & Hf & -> & Ef); [done..|lia|done|].
    eexists. split; [exact R|]. rewrite Hrel, Hput, Hq. split; [done|]. split; [done|]. exists l, f. split; [done|].
    assert (0 <= offset_value o) by by destruct o. lia. }
  destruct Hcase as [(E & Hau & Ho' & Hf & l & f & -> & Ef)|(E & Ho' & l & ->)].
  - eexists _, a, (set_rf q b a), bs', lo. split_and!; try done; [by apply set_rf_links|by apply rf_type_set; lia| |lia| |by eauto].
    + intros q' Hq' Hne. apply (rf_set_other kd); [done|lia|congruence].
    + left. split_and!; eauto.
  - eexists (put l s), a, b, bs', lo. split_and!; try done; try lia; [| |by eauto].
    + rewrite list_insert_id by done. by rewrite upd_rel_id.
    + right. split_and!; eauto.
Qed.
End classes.


End edge_steps.

(** The vertices an edge object brings along. *)
Definition vertices_of (r : RelationBlock) : option NodeBlock * option NodeBlock := (getSource r, getDestination r).

Section edge_operations.
Context {HM : HostMemory}.

Lemma objects_side bs L bs2 L2 D (P P' : property_graph) objs :
  pg P' = pg P -> Forall (vertex_in_use D P) objs ->
  Forall (vertex_in_use (set_eprops bs L D) P') objs /\ Forall (vertex_in_use (set_emetas bs2 L2 D) P') objs.
Proof.
  intros E H. split; (eapply Forall_impl; [exact H|]); intros [t n] Ht; unfold vertex_in_use in *; by rewrite E.
Qed.

Lemma edge_property m P objs kd r nm v k :
  holds m P objs (Some (kd, r)) -> key_ok nm -> value_ok v -> space (S k) (dbs m) ->
  exists s' r', on_store (addRelationProperty kd r nm v) m = (Ret r', set_dbs s' m) /\
    holds (set_dbs s' m) (on_newest kd (with_eprop nm (text_of v)) P) objs (Some (kd, r')) /\ space k s' /\
    vertices_of r' = vertices_of r.
Proof.
  intros (Hlk & nbs & rbs & D & Hm & Hv & He & Sv & Se & Hobjs & U0 & U1 & U2 & U3 & U4 & U5) [Hk1 Hk2] Hval Hsp.
  set (i := length (gedges (pg P) kd)) in *. pose proof (st_files _ _ _ _ Hm) as Hf.
  destruct (newest_block m P nbs rbs kd Hm U0) as (b & Hb & Lb & Tb & Hroom). fold i in Hb, Hroom.
  destruct (edge_value_text v Hval) as (V1 & V2 & V3). pose proof (proj1 Hval) as Lv.
  destruct He as [E1 E2 E3 E4 E5]. pose proof Hsp as (S1 & S2 & S3 & S4). pose proof (records_bounds kd).
  destruct (edge_add_to (dbs m) nbs rbs kd i b r v Hb Lb Tb U1 Hroom Hval PropertyEdgeLink edgePropertiesDB
    set_edgePropertiesDB RELATION_PROPS 12 eq_refl ltac:(lia) (fun _ _ => eq_refl) (fun l => files_edge_links _ _ _ l Hf)
    ltac:(by intros; destruct kd) (ebs D) (edge_head rbs) (LE D) (kd, i) (propertyAddress r) nm
    (strncpy_buf 30 (chars nm)) (strncpy_buf 400 v) E1)
    as (s' & a & b' & bs' & lo & R%addRelationProperty_add_to & Hf' & Hbb & Hty & Hq & Hl & Hn & Hcase & Hk & Hpt & (dv & Ha & Hd & Ht));
    try done; [|by apply edge_name|by apply memcpy_value|].
  { unfold room. change (Z.of_nat (@PROPERTY_BLOCK_SIZE PropertyEdgeLink)) with 434. lia. }
  set (D' := set_eprops bs' (<[(kd, i) := lo]> (LE D)) D). set (rbs' := upd_rel kd (<[i := b']> (rbs kd)) rbs) in *.
  assert (vertex_side (dbs m) s' /\ metaEdgePropertiesDB s' = metaEdgePropertiesDB (dbs m) /\
    @owners PropertyEdgeLink _ bs' (edge_head rbs') (LE D') /\ (kd = Local -> typeless P kd -> fs_pos (relationsDB s') = raddress Local i + 52)) as (W1 & W2 & W3 & W4).
  { destruct Hcase as [(El & Hau & -> & Ho & l & f & -> & Ef)|(El & -> & Ho & l & ->)].
    - split_and!; [by destruct kd..| |intros -> _; cbn in *; lia]. eapply owners_ext; [|exact Ho].
      intros [k' j]. unfold rbs'. rewrite edge_head_upd. cbn [fst snd]. case_decide as Ek; [subst k'|].
      + rewrite rel_field_set by done. destruct (decide (i = j)) as [<-|Hne]; [by rewrite !fn_lookup_insert|].
        by rewrite !fn_lookup_insert_ne by congruence.
      + by rewrite fn_lookup_insert_ne by congruence.
    - split_and!; try done; [|intros ->; by apply U5]. eapply owners_ext; [|exact Ho].
      intros o. unfold rbs'. rewrite list_insert_id by done. unfold edge_head. by rewrite upd_rel_id. }
  exists s', (with_propertyAddress r a). split_and!; [by apply zoom_run| |destruct W1 as [W1 W1']; split_and!; rewrite ?W1, ?W1', ?W2; lia|done].
  split; [done|]. exists nbs, rbs', D'. split_and!.
  - by eapply stored_edge_block.
  - exact (proj1 (vertex_lists_side (dbs m) s' nbs D _ _ [] (fun _ => []) W1 Hv)).
  - constructor; cbn [dbs set_dbs]; [done|done| |by rewrite W2|].
    + intros o. cbn. destruct (decide ((kd, i) = o)) as [<-|Hne]; [rewrite fn_lookup_insert|by rewrite fn_lookup_insert_ne].
      by eapply (added_readable PropertyEdgeLink).
    + eapply owners_ext; [|exact E5]. intros j. unfold rbs'. destruct (decide (kd = Central)) as [->|Hne].
      * rewrite upd_rel_eq. apply (rel_field_insert _ _ _ b); [done|]. apply Hq; [compute; lia|done].
      * by rewrite upd_rel_ne.
  - destruct Sv. by constructor.
  - eapply (shows_newest D rbs P D' rbs' kd); [done| |].
    + intros k' j Hne. cbn. rewrite fn_lookup_insert_ne by (intros E; by apply Hne). split_and!; try done.
      unfold rbs'. destruct (decide (kd = k')) as [<-|Hk']; [|by rewrite upd_rel_ne].
      rewrite upd_rel_eq, list_lookup_insert_ne; [done|]. intros <-. by apply Hne.
    + intros d E HE (X1 & X2 & X3). fold i in X1, X2, X3 |- *. split_and!; try done.
      * cbn. rewrite fn_lookup_insert, <- X1, <- Ht. by eapply (added_props PropertyEdgeLink).
      * intros t Hx. destruct (X2 t Hx) as (b0 & Hb0 & Hc). exists b'. unfold rbs'. rewrite upd_rel_eq, Hty.
        split; [by apply list_lookup_insert_eq; eapply lookup_lt_Some|congruence].
  - exact (proj1 (objects_side _ _ [] (fun _ => []) D P (on_newest kd _ P) objs eq_refl Hobjs)).
  - split_and!; try done; cbn; fold i; [by rewrite fn_lookup_insert|]. intros -> _ Hty'. apply W4; [done|]. by apply typeless_newest in Hty'.
Qed.

Lemma edge_partition m P objs r v k :
  holds m P objs (Some (Central, r)) -> value_ok v -> space (S k) (dbs m) ->
  exists s' r', on_store (addRelationMetaProperty r PARTITION_ID v) m = (Ret r', set_dbs s' m) /\
    holds (set_dbs s' m) (on_newest Central (with_epid (text_of v)) P) objs (Some (Central, r')) /\ space k s' /\
    vertices_of r' = vertices_of r.
Proof.
  intros (Hlk & nbs & rbs & D & Hm & Hv & He & Sv & Se & Hobjs & U0 & U1 & U2 & U3 & U4 & U5) Hval Hsp.
  set (i := length (gedges (pg P) Central)) in *. pose proof (st_files _ _ _ _ Hm) as Hf. specialize (U4 eq_refl).
  destruct (newest_block m P nbs rbs Central Hm U0) as (b & Hb & Lb & Tb & Hroom). fold i in Hb, Hroom.
  pose proof (memcpy_value v (proj1 Hval)) as Hmem. destruct He as [E1 E2 E3 E4 E5]. pose proof Hsp as (S1 & S2 & S3 & S4).
  destruct (strcpy_name 12 PARTITION_ID) as (dn & Hdn & Hnm); [by apply (bool_decide_unpack _)|cbn; lia|].
  destruct (edge_add_to (dbs m) nbs rbs Central i b r v Hb Lb Tb U1 Hroom Hval MetaPropertyEdgeLink metaEdgePropertiesDB
    set_metaEdgePropertiesDB RELATION_PROPS_META 13 eq_refl ltac:(compute; lia) (fun _ _ => eq_refl)
    (fun l => files_edge_metas _ _ _ l Hf) (fun _ _ => eq_refl) (xbs D) (rel_field 13 (rbs Central)) (LX D) i
    (metaPropertyAddress r) PARTITION_ID dn v E4)
    as (s' & a & b' & bs' & lo & R%addRelationMetaProperty_add_to & Hf' & Hbb & Hty & Hq & Hl & Hn & Hcase & Hk & Hpt & (dv & Ha & Hd & Ht));
    try done; [|by destruct Hval|].
  { unfold room. change (Z.of_nat (@PROPERTY_BLOCK_SIZE MetaPropertyEdgeLink)) with 416. lia. }
  set (D' := set_emetas bs' (<[i := lo]> (LX D)) D). set (rbs' := upd_rel Central (<[i := b']> (rbs Central)) rbs) in *.
  assert (vertex_side (dbs m) s' /\ edgePropertiesDB s' = edgePropertiesDB (dbs m) /\
    @owners MetaPropertyEdgeLink _ bs' (rel_field 13 (rbs' Central)) (LX D')) as (W1 & W2 & W3).
  { unfold rbs'. rewrite upd_rel_eq. destruct Hcase as [(El & Hau & -> & Ho & l & f & -> & Ef)|(El & -> & Ho & l & ->)].
    - split_and!; try done. eapply owners_ext; [|exact Ho]. by apply rel_field_set.
    - split_and!; try done. by rewrite list_insert_id. }
  assert (forall o, edge_head rbs' o = edge_head rbs o) as Hhead.
  { intros o. unfold rbs'. rewrite edge_head_upd. case_decide as Eo; [|done]. unfold edge_head. rewrite <- Eo.
    apply (rel_field_insert _ _ _ b); [done|]. apply Hq; [compute; lia|done]. }
  exists s', (with_metaPropertyAddress r a). split_and!; [by apply zoom_run| |destruct W1 as [W1 W1']; split_and!; rewrite ?W1, ?W1', ?W2; lia|done].
  split; [done|]. exists nbs, rbs', D'. split_and!.
  - by eapply stored_edge_block.
  - exact (proj2 (vertex_lists_side (dbs m) s' nbs D [] (fun _ => []) _ _ W1 Hv)).
  - constructor; cbn [dbs set_dbs]; [by rewrite W2|by eapply owners_ext|done..].
  - destruct Sv. by constructor.
  - eapply (shows_newest D rbs P D' rbs' Central); [done| |].
    + intros k' j Hne. unfold rbs'. destruct (decide (Central = k')) as [<-|Hk'].
      * rewrite upd_rel_eq. assert (i <> j) by (intros <-; by apply Hne).
        split_and!; [done|by rewrite list_lookup_insert_ne|]. intros _. cbn. by rewrite fn_lookup_insert_ne.
      * rewrite upd_rel_ne by done. split_and!; try done.
    + intros d E HE (X1 & X2 & X3). fold i in X1, X2, X3 |- *. split_and!; [done| |].
      * intros t Hx. destruct (X2 t Hx) as (b0 & Hb0 & Hc). exists b'. unfold rbs'. rewrite upd_rel_eq, Hty.
        split; [by apply list_lookup_insert_eq; eapply lookup_lt_Some|congruence].
      * intros _. cbn [LX D' set_emetas]. rewrite fn_lookup_insert. cbn [ed_pid with_epid]. rewrite <- Ht.
        eapply (added_only MetaPropertyEdgeLink); [done..|by apply X3|done].
  - exact (proj2 (objects_side [] (fun _ => []) _ _ D P (on_newest Central _ P) objs eq_refl Hobjs)).
  - split_and!; try done. intros _. cbn. fold i. by rewrite fn_lookup_insert.
Qed.

(** ** The type of the newest edge *)

Definition type_ok (t : string) : Prop := no_nul t /\ (length (chars t) < MAX_TYPE_SIZE)%nat.

Lemma set_type_fields k b im :
  length b = rsize k -> length im = MAX_TYPE_SIZE ->
  let b' := write_data b (4 * records k) im in
  length b' = rsize k /\ rf_type k b' = im /\ forall q, (q < records k)%nat -> rf q b' = rf q b.
Proof.
  intros Hb Him b'. pose proof (rsize_eq k) as Hsz. split_and!.
  - unfold b'. rewrite length_write_data_le; [done|]. rewrite Him, Hb. unfold MAX_TYPE_SIZE. lia.
  - by apply rf_type_block.
  - intros q Hq. unfold rf, b'. rewrite read_write_before; [done|lia|lia].
Qed.

(** The write of a type when the file stands right. *)
Lemma write_type_run s nbs rbs k i b p im :
  files s nbs rbs -> rbs k !! i = Some b -> length b = rsize k -> length im = MAX_TYPE_SIZE ->
  p = raddress k i + 4 * Z.of_nat (records k) -> fs_pos (rel_file k s) = p ->
  exists s' f, on_rel k (write im) s = (Ret true, s') /\ s' = set_rel_file k f s /\
    files s' nbs (upd_rel k (<[i := write_data b (4 * records k) im]> (rbs k)) rbs).
Proof.
  intros Hs Hi Hb Him Hp Hpos. pose proof Hs as [_ Hrel]. destruct (Hrel k) as [[Hf Hd] _].
  pose proof (good_run _ _ _ (conj Hf Hd)) as E. pose proof (rsize_eq k) as Hsz. pose proof (BLOCK_SIZE_rsize k) as HB.
  eexists _, _. split_and!; [apply on_rel_run; rewrite E; apply write_run|reflexivity|].
  rewrite Hpos, Hp. eapply files_rel; [done| |by rewrite length_insert|intros E0; by rewrite E0 in Hi].
  replace (Z.to_nat (raddress k i + 4 * Z.of_nat (records k))) with (i * rsize k + 4 * records k)%nat
    by (unfold raddress; rewrite HB; lia).
  apply write_block; [done..|]. rewrite Him. unfold MAX_TYPE_SIZE. lia.
Qed.

Definition add_type (k : kind) (r : RelationBlock) (t : string) : M store unit :=
  match k with Local => addLocalRelationshipType r t | Central => addCentralRelationshipType r t end.

(** The local file stands at the type once the edge has a property; the
    central one is moved there. *)
Lemma type_position s nbs rbs k i r :
  files s nbs rbs -> raddr r = raddress k i -> raddress k (S i) <= 4294967296 ->
  (k = Local -> fs_pos (relationsDB s) = raddress Local i + 52) ->
  exists f, on_rel Central (seek (u32 (raddr r + RECORD_SIZE * RELATIONSHIP_TYPE_OFFSET k))) s =
      (Ret tt, set_rel_file Central f s) /\
    files (set_rel_file Central f s) nbs rbs /\
    fs_pos (rel_file k (set_rel_file Central f s)) = raddress k i + 4 * Z.of_nat (records k).
Proof.
  intros Hs Hr Hroom Hpos. pose proof Hs as [_ Hrel]. destruct (Hrel Central) as [[Hf Hd] _].
  eexists. split; [|split].
  - apply on_rel_run. rewrite (good_run _ _ _ (conj Hf Hd)). apply seek_run.
  - by apply files_rel_pos.
  - destruct k; [exact (Hpos eq_refl)|]. cbn [rel_file set_rel_file set_centralRelationsDB centralRelationsDB fs_pos].
    rewrite Hr, u32_id; [done|]. unfold is_u32, raddress, RECORD_SIZE, RELATIONSHIP_TYPE_OFFSET in *.
    change (BLOCK_SIZE Central) with 156 in *. lia.
Qed.

Lemma edge_type m P objs k r t :
  holds m P objs (Some (k, r)) -> type_ok t ->
  (k = Local -> exists d E, edata P k = d :: E /\ ed_type d = None /\ ed_props d <> ∅) ->
  exists s', on_store (add_type k r t) m = (Ret tt, set_dbs s' m) /\
    holds (set_dbs s' m) (on_newest k (with_etype t) P) objs (Some (k, r)) /\
    (forall n, space n (dbs m) -> space n s').
Proof.
  intros (Hlk & nbs & rbs & D & Hm & Hv & He & Sv & Se & Hobjs & U0 & U1 & U2 & U3 & U4 & U5) [Ht1 Ht2] Hloc.
  set (i := length (gedges (pg P) k)) in *. pose proof (st_files _ _ _ _ Hm) as Hf.
  destruct (newest_block m P nbs rbs k Hm U0) as (b & Hb & Lb & Tb & Hroom). fold i in Hb, Hroom.
  destruct (type_position (dbs m) nbs rbs k i r Hf U1 Hroom) as (f & R1 & Hf1 & Hp).
  { intros ->. destruct (Hloc eq_refl) as (d & E & HE & Hd & Hne). apply U5; [done| |by unfold typeless; rewrite HE].
    intros E0. apply Hne. destruct (se_data _ _ _ Se Local [] d E HE) as (<- & _).
    assert (S (length E) = i) as -> by (unfold i; rewrite <- (se_length _ _ _ Se), HE; done). by rewrite E0. }
  destruct (write_type_run _ nbs rbs k i b _ (cstr_image t) Hf1 Hb Lb (cstr_image_length t) eq_refl Hp) as (s' & g & R2 & Es & Hf2).
  destruct (set_type_fields k b (cstr_image t) Lb (cstr_image_length t)) as (F1 & F2 & F3).
  set (b' := write_data b (4 * records k) (cstr_image t)) in *. set (rbs' := upd_rel k (<[i := b']> (rbs k)) rbs) in *.
  pose proof (cstr_image_cstring t Ht1 Ht2) as Hc. pose proof (records_bounds k) as Hrec.
  assert (nul ∈ cstr_image t) as Hnul by (unfold cstring in Hc; by case_decide).
  assert (same_links_of k b b') as Hbb.
  { split_and!; [congruence| |by rewrite F2]. intros q Hq. apply F3. lia. }
  assert (forall o, edge_head rbs' o = edge_head rbs o) as Hhead.
  { intros o. unfold rbs'. rewrite edge_head_upd. case_decide as Eo; [|done]. unfold edge_head. rewrite <- Eo.
    apply (rel_field_insert _ _ _ b); [done|]. apply F3. lia. }
  assert (forall j, rel_field 13 (rbs' Central) j = rel_field 13 (rbs Central) j) as Hmeta.
  { intros j. unfold rbs'. destruct (decide (k = Central)) as [->|Hne]; [|by rewrite upd_rel_ne].
    rewrite upd_rel_eq. apply (rel_field_insert _ _ _ b); [done|]. apply F3. compute. lia. }
  exists s'. split_and!; [| |by subst s'; destruct k].
  - apply zoom_run. destruct k; unfold add_type, addLocalRelationshipType, addCentralRelationshipType;
      rewrite bool_decide_true by done; unfold updateLocalRelationshipType, updateCentralRelationshipType;
      (erewrite bind_Ret; [|erewrite bind_Ret; [|exact R1]; exact R2]); done.
  - split; [done|]. exists nbs, rbs', D. split_and!.
    + by eapply stored_edge_block.
    + destruct Hv as [V1 V2 V3 V4 V5]. subst s'. by destruct k; constructor.
    + destruct He as [E1 E2 E3 E4 E5]. constructor; [by subst s'; destruct k|by eapply owners_ext|done|by subst s'; destruct k|by eapply owners_ext].
    + destruct Sv. by constructor.
    + eapply (shows_newest D rbs P D rbs' k); [done| |].
      * intros k' j Hne. split_and!; try done. unfold rbs'. destruct (decide (k = k')) as [<-|Hk']; [|by rewrite upd_rel_ne].
        rewrite upd_rel_eq, list_lookup_insert_ne; [done|]. intros <-. by apply Hne.
      * intros d E HE (X1 & X2 & X3). fold i in X1, X2, X3 |- *. split_and!; try done.
        intros t' [= <-]. exists b'. unfold rbs'. rewrite upd_rel_eq, F2. split; [|done].
        by apply list_lookup_insert_eq; eapply lookup_lt_Some.
    + done.
    + split_and!; try done. intros -> _ Hty. exfalso. unfold typeless, on_newest in Hty. cbn in Hty.
      destruct (Hloc eq_refl) as (d & E & HE & _). by rewrite HE in Hty.
Qed.

(** ** A new edge *)

Definition with_edge (k : kind) (e : string * string) (P : property_graph) : property_graph :=
  mkPG (add_edge k e (pg P)) (vprops P) (vpid P)
    (fun k' => if decide (k = k') then mkEdgeData None ∅ None :: edata P k' else edata P k').

Lemma add_edge_prefix k e g : vertices g `prefix_of` vertices (add_edge k e g).
Proof.
  assert (forall s g, vertices g `prefix_of` vertices (add_vertex s g)) as H.
  { intros s g0. unfold add_vertex. case_decide; [done|]. by apply prefix_app_r. }
  unfold add_edge. cbn. etransitivity; apply H.
Qed.

Lemma gedges_add_edge k e g k' :
  gedges (add_edge k e g) k' = if decide (k = k') then e :: gedges g k' else gedges g k'.
Proof. unfold add_edge, link_edge. cbn. by rewrite !gedges_add_vertex. Qed.

Lemma label_of_add_edge k e g s : label_of (add_edge k e g) s = label_of g s.
Proof.
  unfold add_edge. transitivity (label_of (add_vertex e.2 (add_vertex e.1 g)) s); [done|]. by rewrite !label_of_add.
Qed.

Section new_edge.
Context (k : kind) (N : nat) (nbs nbs' : list (list ascii)) (rbs rbs' : kind -> list (list ascii)).
Context (Hex : extended k N nbs rbs nbs' rbs').

Lemma extended_heads off x : off = 14%nat \/ off = 18%nat -> head_at off nbs' x = head_at off nbs x.
Proof.
  intros Hoff. unfold head_at. destruct (nbs !! x) as [b|] eqn:E.
  - destruct (ex_old _ _ _ _ _ _ Hex x b E) as (b' & -> & _ & F). unfold nf32. by rewrite F by lia.
  - destruct (nbs' !! x) as [b'|] eqn:E'; [|done]. destruct (ex_new _ _ _ _ _ _ Hex x b' E' E). by destruct Hoff as [-> | ->].
Qed.

Lemma extended_fields q k' j :
  (q = 12%nat \/ (q = 13%nat /\ k' = Central)) -> rbs k !! N = None ->
  rel_field q (rbs' k') j = rel_field q (rbs k') j.
Proof.
  intros Hq HN. destruct (decide (k = k')) as [<-|Hk]; [|by rewrite (ex_other _ _ _ _ _ _ Hex k' Hk)].
  unfold rel_field. destruct (rbs k !! j) as [b|] eqn:E.
  - destruct (ex_rel _ _ _ _ _ _ Hex j b) as (b' & -> & _ & _ & F); [by intros ->; congruence|done|].
    apply F; destruct Hq as [|[]]; lia.
  - destruct (rbs' k !! j) as [b'|] eqn:E'; [|done]. destruct (ex_edge _ _ _ _ _ _ Hex j b' E' E) as [F1 F2].
    destruct Hq as [->|[-> ->]]; auto.
Qed.

Lemma extended_types D k' i d :
  i <> N -> shows_edge D (rbs k') k' i d -> shows_edge D (rbs' k') k' i d.
Proof.
  intros Hi (X1 & X2 & X3). split_and!; try done. intros t Ht. destruct (X2 t Ht) as (b & Hb & Hc).
  destruct (decide (k = k')) as [<-|Hk]; [|rewrite (ex_other _ _ _ _ _ _ Hex k' Hk); eauto].
  destruct (ex_rel _ _ _ _ _ _ Hex i b Hi Hb) as (b' & Hb' & _ & T & _). exists b'. by rewrite T.
Qed.
End new_edge.

Lemma object_in_use m P nbs rbs D s n :
  stored m (pg P) nbs rbs -> vertex_lists (dbs m) nbs D -> s ∈ vertices (pg P) ->
  object_at nbs (vertices (pg P)) s n -> vertex_in_use D P (s, n).
Proof.
  intros Hm [V1 [V2 _] V3 V4 [V5 _]] Hs (b & b' & -> & Hb' & Lb & F).
  destruct (stored_block _ _ _ _ _ Hm Hs) as (b0 & Hb0 & (_ & Hlb & _) & _). simplify_eq.
  destruct (label_of_ok _ _ _ _ s Hm Hs) as [Hn Hl]. destruct (label_until _ Hn Hl) as [U1 U2].
  set (x := vnum (vertices (pg P)) s) in *.
  assert (forall off, off = 14%nat \/ off = 18%nat -> nf32 off b = head_at off nbs x) as Hh.
  { intros off Hoff. unfold head_at, nf32. rewrite Hb'. by rewrite F by lia. }
  split_and!; try done.
  - cbn [label node_with makeNodeBlock]. assert (nf_label b = nf_label b') as -> by (unfold nf_label; by rewrite F by lia).
    rewrite Hlb, U1, cstring_pad by done. by rewrite string_chars.
  - cbn [propRef node_with makeNodeBlock]. fold x. rewrite Hh by auto. apply points_head, V2.
  - cbn [metaPropRef node_with makeNodeBlock]. fold x. rewrite Hh by auto. apply points_head, V5.
Qed.

Lemma no_list_yet {C : LinkClass} {O} `{EqDecision O} bs (H : O -> Z) L o : owners bs H L -> H o = 0 -> L o = [].
Proof. intros [Hc _] E. specialize (Hc o). rewrite E in Hc. by apply chain_null in Hc. Qed.

Lemma new_edge_shows_vertices D m P k e nbs rbs nbs' rbs' m' :
  stored m (pg P) nbs rbs -> vertex_lists (dbs m) nbs D -> shows_vertices D P ->
  stored m' (add_edge k e (pg P)) nbs' rbs' -> shows_vertices D (with_edge k e P).
Proof.
  intros Hm Hv [V1 V2 V3] Hm'. pose proof (add_edge_prefix k e (pg P)) as Hpre.
  pose proof (Forall2_length _ _ _ (st_blocks _ _ _ _ Hm)) as Hlen.
  assert (forall x s, vertices (add_edge k e (pg P)) !! x = Some s ->
    vertices (pg P) !! x = Some s \/ (s ∉ vertices (pg P) /\ LV D x = [] /\ LM D x = [])) as Hcase.
  { intros x s Hx. destruct (vertices (pg P) !! x) as [t|] eqn:E.
    - left. pose proof (prefix_lookup_Some _ _ _ _ E Hpre). congruence.
    - right. split_and!.
      + intros (y & Hy)%list_elem_of_lookup. pose proof (prefix_lookup_Some _ _ _ _ Hy Hpre) as Hy'.
        pose proof (NoDup_lookup _ _ _ _ (st_nodup _ _ _ _ Hm') Hx Hy') as ->. congruence.
      + eapply no_list_yet; [apply (vl_owners _ _ _ Hv)|]. unfold head_at.
        apply lookup_ge_None in E. by rewrite (proj2 (lookup_ge_None nbs x)) by lia.
      + eapply no_list_yet; [apply (vl_mowners _ _ _ Hv)|]. unfold head_at.
        apply lookup_ge_None in E. by rewrite (proj2 (lookup_ge_None nbs x)) by lia. }
  constructor.
  - intros x s Hx. destruct (Hcase x s Hx) as [H|(H & E & _)]; [by apply V1|]. rewrite E.
    destruct (V3 s H) as [E1 _]. unfold props_of, with_edge. cbn. by rewrite E1.
  - intros x s Hx. destruct (Hcase x s Hx) as [H|(H & _ & E)]; [by apply V2|]. cbn.
    destruct (V3 s H) as [_ ->]. done.
  - intros s Hs. apply V3. intros H. apply Hs. cbn [with_edge pg]. destruct Hpre as [l ->]. apply elem_of_app. by left.
Qed.

Lemma new_edge_shows_edges D P k e N nbs rbs nbs' rbs' s :
  N = S (length (gedges (pg P) k)) -> extended k N nbs rbs nbs' rbs' -> rbs k !! N = None ->
  edge_lists s rbs D -> shows_edges D rbs P -> shows_edges D rbs' (with_edge k e P).
Proof.
  intros HN Hex Hnone He [H1 H2]. constructor.
  - intros k'. cbn [with_edge pg edata]. rewrite gedges_add_edge. case_decide; cbn; by rewrite H1.
  - intros k' E1 d E2. cbn [with_edge edata]. case_decide as Ek.
    + subst k'. destruct E1 as [|d1 E1]; cbn; intros HE; injection HE as HE1 HE2.
      * subst d E2. rewrite H1, <- HN. pose proof (extended_fields _ _ _ _ _ _ Hex) as HF. split_and!; [|done|].
        -- rewrite (no_list_yet _ _ _ (k, N) (el_owners _ _ _ He)); [done|].
           unfold edge_head, rel_field. cbn. by rewrite Hnone.
        -- intros ->. cbn. apply (no_list_yet _ _ _ N (el_mowners _ _ _ He)). unfold rel_field. by rewrite Hnone.
      * eapply extended_types; [done| |by eapply H2].
        rewrite HN, <- H1, HE2, length_app. cbn. lia.
    + intros HE. unfold shows_edge. rewrite (ex_other _ _ _ _ _ _ Hex k' Ek). by eapply H2.
Qed.

(** A new edge between two vertices, with the three objects it gives. *)
Lemma new_edge m P k e :
  holds m P [] None -> id_ok (INDEX_KEY_SIZE m) e.1 -> id_ok (INDEX_KEY_SIZE m) e.2 ->
  fits (add_edge k e (pg P)) ->
  exists m' r n1 n2, add_kind_edge k e m = (Ret (Some r), m') /\
    getSource r = Some n1 /\ getDestination r = Some n2 /\
    holds m' (with_edge k e P) [(e.1, n1); (e.2, n2)] (Some (k, r)) /\ frame m m' /\
    nextEdgeIndex m' = edges_counted k (nextEdgeIndex m).
Proof.
  intros (Hlk & nbs & rbs & D & Hm & Hv & He & Sv & Se & _ & _) H1 H2 Hfit.
  destruct (add_kind_edge_run m (pg P) nbs rbs k e Hlk Hm H1 H2 Hfit) as
    (m' & r & n1 & n2 & nbs' & rbs' & R & Hm' & Hlk' & Hex & Hr & G1 & O1 & G2 & O2 & Hcnt & F).
  set (N := S (length (gedges (pg P) k))) in *. pose proof F as (_ & _ & _ & _ & _ & L1 & L2 & L3 & L4).
  assert (rbs k !! N = None) as Hnone.
  { destruct (st_graph _ _ _ _ Hm) as (_ & _ & Hk). destruct (Hk k) as (Hl & _). unfold numbered in Hl.
    apply lookup_ge_None. rewrite Hl. unfold N. destruct (gedges (pg P) k); cbn; rewrite ?length_fmap; lia. }
  assert (vertex_lists (dbs m') nbs' D) as Hv'.
  { destruct Hv as [V1 V2 V3 V4 V5]. constructor; rewrite ?L1, ?L2; try done; (eapply owners_ext; [|done]); intros x;
      eapply extended_heads; [exact Hex|auto|exact Hex|auto]. }
  exists m', r, n1, n2. split_and!; try done. split; [done|]. exists nbs', rbs', D.
  split_and!; [done|done| |by eapply new_edge_shows_vertices|by eapply new_edge_shows_edges| |].
  - destruct He as [E1 E2 E3 E4 E5]. constructor; rewrite ?L3, ?L4; try done; (eapply owners_ext; [|done]).
    + intros [k' j]. eapply extended_fields; [exact Hex|by left|done].
    + intros j. eapply extended_fields; [exact Hex|by right|done].
  - constructor; [|constructor; [|constructor]]; (eapply (object_in_use m' (with_edge k e P)); [exact Hm'|done| |done]); cbn [with_edge pg]; unfold add_edge; cbn.
    + apply vnum_add_vertex, elem_of_add_vertex.
    + apply elem_of_add_vertex.
  - injection Hr as R1 R2 R3 R4. cbn [from_option edge_in_use with_edge pg]. rewrite gedges_add_edge, decide_True by done.
    cbn [length]. fold N. rewrite R2, R3.
    assert (LE D (k, N) = []) as EL.
    { eapply no_list_yet; [apply (el_owners _ _ _ He)|]. unfold edge_head, rel_field. cbn. by rewrite Hnone. }
    split_and!; try done; [unfold N; lia| |].
    + rewrite EL. apply points_head. constructor.
    + intros ->. assert (LX D N = []) as ->; [|apply points_head; constructor].
      eapply no_list_yet; [apply (el_mowners _ _ _ He)|]. unfold rel_field. by rewrite Hnone.
Qed.
End edge_operations.
