(* ===== verification/ManagerErrors.v ===== *)
(** * ManagerErrors: what goes wrong, and what it leaves behind

    The error paths of NodeManager as values: an exception thrown while the
    insertion lock is held, an id that does not fit the index key, and block
    addresses beyond 32 bits. *)
From Stdlib Require Import ZArith Ascii String Lia.
From stdpp Require Import base tactics numbers list strings gmap.
From S2P Require Import Prelude FStream PropertyLinks NodeBlock RelationBlock NodeRelations.
From S2P Require Import NodeManager GraphFiles GraphTheory ManagerTheory.

Section errors.
Context {HM : HostMemory}.

Lemma addNode_throws m s x :
  nodeIndex m !! s = None -> stoul s = inl x -> addNode s m = (Throw x, m).
Proof.
  intros Hs Hx. unfold addNode. erewrite bind_Ret; [|reflexivity]. rewrite Hs. unfold stoul_exn.
  rewrite Hx. reflexivity.
Qed.

Lemma locked_deadlock m e :
  lockEdgeAdd m = true ->
  addLocalEdge e m = (Deadlock, m) /\ addCentralEdge e m = (Deadlock, m).
Proof. intros H. unfold addLocalEdge, addCentralEdge, acquireEdgeAdd, mbind, M_bind. by rewrite H. Qed.

(** C38. An unknown source id that is not a number makes the insertion of an edge
    throw with the insertion lock held and nothing else changed; after that
    every insertion of an edge, local or central, blocks for ever. *)
Theorem edge_exception_deadlocks m e x :
  lockEdgeAdd m = false -> nodeIndex m !! e.1 = None -> stoul e.1 = inl x ->
  addLocalEdge e m = (Throw x, set_lock true m) /\
  addCentralEdge e m = (Throw x, set_lock true m) /\
  forall e', addLocalEdge e' (set_lock true m) = (Deadlock, set_lock true m) /\
             addCentralEdge e' (set_lock true m) = (Deadlock, set_lock true m).
Proof.
  intros Hl Hn Hx.
  pose proof (addNode_throws (set_lock true m) e.1 x Hn Hx) as R. split_and!.
  - unfold addLocalEdge, acquireEdgeAdd. erewrite bind_Ret; [|by rewrite Hl].
    by rewrite (bind_Throw _ _ _ _ _ R).
  - unfold addCentralEdge, acquireEdgeAdd. erewrite bind_Ret; [|by rewrite Hl].
    by rewrite (bind_Throw _ _ _ _ _ R).
  - intros e'. by apply locked_deadlock.
Qed.

(** A bad destination id throws as well, after the source vertex was
    added: the partition then represents the graph with that vertex, its
    edges unchanged, but the lock is held. *)
Theorem edge_exception_keeps_source m g e x :
  repr m g -> id_ok (INDEX_KEY_SIZE m) e.1 ->
  naddress (length (vertices (add_vertex e.1 g))) <= 4294967296 ->
  e.2 ∉ vertices (add_vertex e.1 g) -> stoul e.2 = inl x ->
  exists m', addLocalEdge e m = (Throw x, m') /\ lockEdgeAdd m' = true /\
    repr (set_lock false m') (add_vertex e.1 g).
Proof.
  intros [Hl (nbs & rbs & Hm)] Hid Hroom Hn Hx.
  destruct (addNode_run _ g nbs rbs e.1 (stored_lock _ _ _ _ true Hm) Hid Hroom)
    as (m1 & nbs1 & b & R1 & _ & _ & _ & S1 & _ & _ & L1).
  exists m1. split_and!; [|by rewrite L1|split; [done|]].
  - unfold addLocalEdge, acquireEdgeAdd. erewrite bind_Ret; [|by rewrite Hl].
    rewrite (bind_Ret _ _ _ _ _ R1). apply bind_Throw, addNode_throws; [|done].
    rewrite (st_index _ _ _ _ S1). by rewrite decide_False.
  - exists nbs1, rbs. by apply stored_lock.
Qed.

(** A new id whose characters do not fit the index key overruns the key buffer:
    [strcpy] copies it into an array of [INDEX_KEY_SIZE] characters. *)
Theorem long_id_overruns m s v :
  nodeIndex m !! s = None -> stoul s = inr v -> (INDEX_KEY_SIZE m <= length (c_str s))%nat ->
  (addNode s m).1 = Undef.
Proof.
  intros Hs Hv Hl. unfold addNode. erewrite bind_Ret; [|reflexivity]. rewrite Hs. unfold stoul_exn.
  rewrite Hv. erewrite bind_Ret; [|reflexivity]. erewrite bind_Ret; [|reflexivity]. cbn beta zeta.
  erewrite bind_Undef; [done|]. unfold addNodeIndex. erewrite bind_Ret; [|reflexivity]. rewrite Hs.
  erewrite bind_Ret; [|reflexivity]. unfold strcpy_buf. cbn [INDEX_KEY_SIZE set_nodeIndex].
  by rewrite decide_False by lia.
Qed.

(** Beyond 30678337 vertices the block address no longer fits 32 bits: the
    object of vertex number 30678338 gets an address inside the first block,
    and saving it overwrites the vertex stored there. *)
Theorem block_address_wraps m s v :
  nodeIndex m !! s = None -> stoul s = inr v -> no_nul s ->
  (length (chars s) < INDEX_KEY_SIZE m)%nat -> (length (chars s) < LABEL_SIZE)%nat ->
  nextNodeIndex m = 30678338 ->
  exists m' n, addNode s m = (Ret n, m') /\ addr n = 24 /\ nextNodeIndex m' = 30678339.
Proof.
  intros Hs Hv Hn Hl Hls Hnx. unfold addNode. erewrite bind_Ret; [|reflexivity]. rewrite Hs.
  unfold stoul_exn. rewrite Hv. erewrite bind_Ret; [|reflexivity]. erewrite bind_Ret; [|reflexivity].
  cbn beta zeta. rewrite Hnx.
  set (n := with_label (newNodeBlock s (u32 v) (u32 (30678338 * NODE_BLOCK_SIZE)))
              (strncpy_buf LABEL_SIZE (chars s))).
  destruct (seek_total (addr n) (nodesDB (dbs m))) as (f1 & R1).
  destruct (write_seq_total (node_fields n) f1) as (ok & f2 & R2).
  eexists _, n. split.
  - erewrite bind_Ret.
    2: { unfold addNodeIndex. erewrite bind_Ret; [|reflexivity]. rewrite Hs.
         erewrite bind_Ret; [|reflexivity]. cbn [INDEX_KEY_SIZE set_nodeIndex].
         unfold strcpy_buf. rewrite c_str_no_nul, decide_True by done. reflexivity. }
    erewrite bind_Ret; [|reflexivity]. apply zoom_run. unfold save. cbn [id newNodeBlock setLabel with_label].
    rewrite bool_decide_true by done. cbn zeta.
    erewrite bind_Ret; [|apply zoom_run, R1]. erewrite bind_Ret; [|apply zoom_run, R2]. reflexivity.
  - split; [reflexivity|]. cbn. by rewrite Hnx.
Qed.
End errors.
