(* ===== verification/Partition.v ===== *)
(** * Partition: what the streaming partitioner keeps of one partition

    [Partition] (src/partitioner/stream/Partition.{h,cpp}): the adjacency
    sets of the vertices whose edges are inside the partition ([edgeList]),
    for every other partition the edges cut towards it ([edgeCuts], by
    resident vertex), and a counter of the vertices.  Every public method
    holds the partition's mutex through a [lock_guard]; the methods it calls
    with the mutex held are the unsafe ones, so that no method blocks. *)
From Stdlib Require Import ZArith Ascii String Lia SpecFloat.
From stdpp Require Import base tactics numbers list strings gmap.
From S2P Require Import Prelude.

Record Partition := mkPartition {
  edgeList : gmap string (gset string);
  edgeCuts : list (gmap string (gset string));
  part_id : Z;
  numberOfPartitions : Z;
  vertexCount : Z
}.

(** The constructor. *)
Definition newPartition (i n : Z) : Partition :=
  mkPartition ∅ (replicate (Z.to_nat n) ∅) i n 0.

Definition with_edges (p : Partition) (el : gmap string (gset string)) (vc : Z) : Partition :=
  mkPartition el (edgeCuts p) (part_id p) (numberOfPartitions p) vc.

(** [find(v) != end()]. *)
Definition has (m : gmap string (gset string)) (v : string) : bool := bool_decide (is_Some (m !! v)).

(** The loop over [edgeCuts[i]] for [i < numberOfPartitions]. *)
Definition isExistInEdgeCutsUnsafe (p : Partition) (v : string) : bool :=
  existsb (fun m => has m v) (take (Z.to_nat (numberOfPartitions p)) (edgeCuts p)).

Definition isExistUnsafe (p : Partition) (v : string) : bool :=
  isExistInEdgeCutsUnsafe p v || has (edgeList p) v.

Definition isExist (p : Partition) (v : string) : bool := isExistUnsafe p v.
Definition isExistInEdgeCuts (p : Partition) (v : string) : bool := isExistInEdgeCutsUnsafe p v.

(** [vertexCount.fetch_add(1)] on an [atomic<int>]. *)
Definition incrementVertexCount (p : Partition) : Partition :=
  with_edges p (edgeList p) (s32 (vertexCount p + 1)).

(** [edgeList[u].insert(v)] for a known [u]; otherwise a new entry, counted
    unless [u] is already known from the edge cuts. *)
Definition insert_neighbour (p : Partition) (u v : string) : Partition :=
  match edgeList p !! u with
  | Some ns => with_edges p (<[u := {[v]} ∪ ns]> (edgeList p)) (vertexCount p)
  | None =>
      let p' := with_edges p (<[u := {[v]}]> (edgeList p)) (vertexCount p) in
      if isExistInEdgeCutsUnsafe p u then p' else incrementVertexCount p'
  end.

(** [Partition::addEdge]. *)
Definition addEdge (p : Partition) (edge : string * string) (isDirected : bool) : Partition :=
  let p := insert_neighbour p edge.1 edge.2 in
  if isDirected then
    if negb (has (edgeList p) edge.2) && negb (isExistInEdgeCutsUnsafe p edge.2) then
      let p := incrementVertexCount p in
      with_edges p (<[edge.2 := ∅]> (edgeList p)) (vertexCount p)
    else p
  else insert_neighbour p edge.2 edge.1.

(** [Partition::getNeighbors]. *)
Definition getNeighbors (p : Partition) (v : string) : gset string := default ∅ (edgeList p !! v).

(** [vertex1 + "," + vertext] for every neighbour of every vertex. *)
Definition composite (e : string * string) : string := e.1 +:+ ("," +:+ e.2).
Definition edge_pairs (m : gmap string (gset string)) : list (string * string) :=
  '(u, ns) ← map_to_list m; (fun v => (u, v)) <$> elements ns.
Definition uniqueEdges (p : Partition) : gset string :=
  list_to_set (composite <$> edge_pairs (edgeList p)).

(** [Partition::getEdgesCount]; [size()/2] is an integer division. *)
Definition getEdgesCount (p : Partition) (isDirected : bool) : Z :=
  let n := Z.of_nat (size (uniqueEdges p)) in if isDirected then n else n / 2.

(** The residents of a cut that have no entry in the edge list. *)
Definition cut_only (p : Partition) (m : gmap string (gset string)) : Z :=
  Z.of_nat (size (filter (fun v => has (edgeList p) v = false) (dom m))).

(** [Partition::getVertextCount]. *)
Definition getVertextCount (p : Partition) : Z :=
  Z.of_nat (size (edgeList p)) +
  foldr (fun m acc => cut_only p m + acc) 0 (take (Z.to_nat (numberOfPartitions p)) (edgeCuts p)).

Definition getVertextCountQuick (p : Partition) : Z := vertexCount p.

(** [Partition::addToEdgeCuts]; a negative index is out of the vector. *)
Definition addToEdgeCuts (p : Partition) (resident foreign : string) (partitionId : Z)
  : option Partition :=
  if partitionId <? numberOfPartitions p then
    let p := if isExistUnsafe p resident then p else incrementVertexCount p in
    if partitionId <? 0 then None
    else
      cuts ← edgeCuts p !! Z.to_nat partitionId;
      let cuts' := <[resident := {[foreign]} ∪ default ∅ (cuts !! resident)]> cuts in
      Some (mkPartition (edgeList p) (<[Z.to_nat partitionId := cuts']> (edgeCuts p))
              (part_id p) (numberOfPartitions p) (vertexCount p))
  else Some p.

(** The number of pairs of a cut. *)
Definition pair_count (m : gmap string (gset string)) : Z :=
  foldr (fun e acc => Z.of_nat (size e.2) + acc) 0 (map_to_list m).

(** [Partition::edgeCutsCount]; a [long] division. *)
Definition edgeCutsCount (p : Partition) (isDirected : bool) : Z :=
  let total := foldr (fun m acc => pair_count m + acc) 0 (edgeCuts p) in
  if isDirected then total else total / 2.

(** [Partition::getCentralVertexCount]; the index is not checked. *)
Definition getCentralVertexCount (p : Partition) (partitionIndex : Z) : option Z :=
  if partitionIndex <? 0 then None else cut_only p <$> edgeCuts p !! Z.to_nat partitionIndex.

(** [Partition::getLocalVertexCount]. *)
Definition getLocalVertexCount (p : Partition) : Z := Z.of_nat (size (edgeList p)).

(** [Partition::addToEdgeList]. *)
Definition addToEdgeList (p : Partition) (vertex : string) : Partition :=
  match edgeList p !! vertex with
  | Some _ => p
  | None => with_edges p (<[vertex := ∅]> (edgeList p)) (vertexCount p)
  end.

(** [Partition::_split]. *)
Definition _split (s : string) (delim : ascii) : list string :=
  string_of_list_ascii <$> split_items delim [] (chars s).

(** ** Doubles

    IEEE 754 binary64, as the standard library's executable specification. *)
Definition double : Type := spec_float.
Definition to_double (z : Z) : double := binary_normalize 53 1024 z 0 false.
Definition d_add : double -> double -> double := SFadd 53 1024.
Definition d_sub : double -> double -> double := SFsub 53 1024.
Definition d_mul : double -> double -> double := SFmul 53 1024.
Definition d_div : double -> double -> double := SFdiv 53 1024.
Definition d_lt : double -> double -> bool := SFltb.

(** The conversion of a [double] to a [float]. *)
Definition to_float (d : double) : spec_float :=
  match d with
  | S754_finite s m e => binary_normalize 24 128 (if s then Zneg m else Zpos m) e s
  | _ => d
  end.

(** [Partition::edgeCutsRatio]. *)
Definition edgeCutsRatio (p : Partition) : spec_float :=
  to_float (d_div (to_double (edgeCutsCount p true))
    (d_add (to_double (getEdgesCount p false)) (to_double (edgeCutsCount p true)))).
