(* ===== verification/Partitioner.v ===== *)
(** * Partitioner: assigning the edges of a stream to partitions

    [Partitioner] (src/partitioner/stream/Partitioner.{h,cpp}) with its three
    algorithms: hash, FENNEL and linear deterministic greedy.  The library
    function [pow], whose rounding the language leaves open, is a parameter. *)
From Stdlib Require Import ZArith QArith Ascii String Lia SpecFloat.
From stdpp Require Import base tactics numbers list strings gmap.
From S2P Require Import Prelude Partition.
#[local] Open Scope Z_scope.

Inductive Algorithms := HASH | FENNEL | LDG.

(** [spt::getPartitioner]. *)
Definition getPartitioner (i : string) : Algorithms :=
  if decide (i = "1") then HASH
  else if decide (i = "2") then FENNEL
  else if decide (i = "3") then LDG
  else HASH.

Record Partitioner := mkPartitioner {
  partitions : list Partition;
  partitionCount : Z;
  totalVertices : Z;
  totalEdges : Z;
  pt_graphID : Z;
  isDirect : bool;
  algorithmInUse : Algorithms
}.

Definition partitionedEdge : Type := list (string * Z).

(** The constructor. *)
Definition newPartitioner (n g : Z) (alg : Algorithms) (direct : bool) : Partitioner :=
  mkPartitioner ((fun i => newPartition (Z.of_nat i) n) <$> seq 0 (Z.to_nat n)) n 0 0 g direct alg.

Definition setGraphID (g : Z) (t : Partitioner) : Partitioner :=
  mkPartitioner (partitions t) (partitionCount t) (totalVertices t) (totalEdges t) g (isDirect t)
    (algorithmInUse t).
Definition set_partitions (ps : list Partition) (t : Partitioner) : Partitioner :=
  mkPartitioner ps (partitionCount t) (totalVertices t) (totalEdges t) (pt_graphID t) (isDirect t)
    (algorithmInUse t).
Definition count (dv de : Z) (t : Partitioner) : Partitioner :=
  mkPartitioner (partitions t) (partitionCount t) (totalVertices t + dv) (totalEdges t + de)
    (pt_graphID t) (isDirect t) (algorithmInUse t).

(** [this->partitions[i].f(..)]: undefined outside the vector. *)
Definition on_partition (i : Z) (f : Partition -> option Partition) : M Partitioner unit := fun t =>
  if i <? 0 then (Undef, t)
  else match partitions t !! Z.to_nat i with
       | Some p => match f p with
                   | Some p' => (Ret tt, set_partitions (<[Z.to_nat i := p']> (partitions t)) t)
                   | None => (Undef, t)
                   end
       | None => (Undef, t)
       end.

(** [a % b] on [int]: truncating, undefined for a zero divisor and on overflow. *)
Definition int_rem {S} (a b : Z) : M S Z :=
  if (b =? 0) || ((a =? -2147483648) && (b =? -1)) then undef else mret (Z.rem a b).

(** [Partitioner::hashPartitioning]. *)
Definition hashPartitioning (edge : string * string) : M Partitioner partitionedEdge :=
  a ← stoi_exn edge.1;
  t ← get_state;
  firstIndex ← int_rem a (partitionCount t);
  b ← stoi_exn edge.2;
  secondIndex ← int_rem b (partitionCount t);
  (if firstIndex =? secondIndex
   then on_partition firstIndex (fun p => Some (addEdge p edge (isDirect t)))
   else on_partition firstIndex (fun p => addToEdgeCuts p edge.1 edge.2 secondIndex);;
        on_partition secondIndex (fun p => addToEdgeCuts p edge.2 edge.1 firstIndex));;
  mret [(edge.1, firstIndex); (edge.2, secondIndex)].

(** ** The greedy algorithms *)

(** [distance(begin, max_element(begin, end))]: the first maximum. *)
Fixpoint max_from (best : double) (besti i : nat) (l : list double) : nat :=
  match l with
  | [] => besti
  | x :: l' => if d_lt best x then max_from x i (S i) l' else max_from best besti (S i) l'
  end.
Definition max_index (l : list double) : nat :=
  match l with [] => 0%nat | x :: l' => max_from x 0 1 l' end.

(** How the loop over the partitions ends: it returns at partition [i],
    where both vertices exist or where the edge is stored, or it has scored
    all of them. *)
Inductive scan :=
| BothExist (i : nat)
| EdgeExists (i : nat)
| Scored (first second : list double).

Definition add_score (f s : double) (r : scan) : scan :=
  match r with Scored fs ss => Scored (f :: fs) (s :: ss) | _ => r end.

Definition one : double := to_double 1.

(** An inter cost of zero becomes one. *)
Definition inter_cost (ns : gset string) : double :=
  if decide (size ns = 0%nat) then one else to_double (Z.of_nat (size ns)).

Fixpoint ldg_loop (t : Partitioner) (edge : string * string) (i : nat) (ps : list Partition) : scan :=
  match ps with
  | [] => Scored [] []
  | p :: ps' =>
      let firstNeighbors := getNeighbors p edge.1 in
      let secondNeighbors := getNeighbors p edge.2 in
      let weightedGreedy :=
        d_sub one (d_div (to_double (getVertextCount p))
                     (d_div (to_double (totalVertices t)) (to_double (partitionCount t)))) in
      if isExist p edge.1 && isExist p edge.2 then BothExist i
      else if bool_decide (edge.2 ∈ firstNeighbors) then EdgeExists i
      else if bool_decide (edge.2 ∈ secondNeighbors) then EdgeExists i
      else add_score (d_mul (inter_cost firstNeighbors) weightedGreedy)
             (d_mul (inter_cost secondNeighbors) weightedGreedy) (ldg_loop t edge (S i) ps')
  end.

(** [Partitioner::ldgPartitioning]: the loop variable is a copy of the
    partition, so that its [addEdge] is lost. *)
Definition ldgPartitioning (edge : string * string) : M Partitioner partitionedEdge :=
  t ← get_state;
  match ldg_loop t edge 0 (partitions t) with
  | BothExist i =>
      modify (count 0 1);;
      mret [(edge.1, Z.of_nat i); (edge.2, Z.of_nat i)]
  | EdgeExists i => mret [(edge.1, Z.of_nat i); (edge.2, Z.of_nat i)]
  | Scored fs ss =>
      modify (count 2 0);;
      let firstIndex := Z.of_nat (max_index fs) in
      let secondIndex := Z.of_nat (max_index ss) in
      (if firstIndex =? secondIndex
       then on_partition firstIndex (fun p => Some (addEdge p edge false))
       else on_partition firstIndex (fun p => addToEdgeCuts p edge.1 edge.2 secondIndex);;
            on_partition secondIndex (fun p => addToEdgeCuts p edge.2 edge.1 firstIndex));;
      modify (count 0 1);;
      mret [(edge.1, firstIndex); (edge.2, secondIndex)]
  end.

Section fennel.
Context (pow : double -> double -> double).

Definition gamma : double := d_div (to_double 3) (to_double 2).

Definition fennel_alpha (t : Partitioner) : double :=
  d_div (d_mul (to_double (totalEdges t)) (pow (to_double (partitionCount t)) (d_sub gamma one)))
    (pow (to_double (totalVertices t)) gamma).

Fixpoint fennel_loop (alpha : double) (edge : string * string) (i : nat) (ps : list Partition)
  : scan :=
  match ps with
  | [] => Scored [] []
  | p :: ps' =>
      let firstNeighbors := getNeighbors p edge.1 in
      let secondNeighbors := getNeighbors p edge.2 in
      let partitionSize := to_double (getVertextCountQuick p) in
      let intraCost :=
        d_mul alpha (d_sub (pow (d_add partitionSize one) gamma) (pow partitionSize gamma)) in
      if isExist p edge.1 && isExist p edge.2 then BothExist i
      else if bool_decide (edge.2 ∈ firstNeighbors) then EdgeExists i
      else if bool_decide (edge.1 ∈ secondNeighbors) then EdgeExists i
      else add_score (d_sub (to_double (Z.of_nat (size firstNeighbors))) intraCost)
             (d_sub (to_double (Z.of_nat (size secondNeighbors))) intraCost)
             (fennel_loop alpha edge (S i) ps')
  end.

(** [Partitioner::fennelPartitioning]: here the loop variable is a reference. *)
Definition fennelPartitioning (edge : string * string) : M Partitioner partitionedEdge :=
  t ← get_state;
  match fennel_loop (fennel_alpha t) edge 0 (partitions t) with
  | BothExist i =>
      on_partition (Z.of_nat i) (fun p => Some (addEdge p edge false));;
      modify (count 0 1);;
      mret [(edge.1, Z.of_nat i); (edge.2, Z.of_nat i)]
  | EdgeExists i => mret [(edge.1, Z.of_nat i); (edge.2, Z.of_nat i)]
  | Scored fs ss =>
      modify (count 2 0);;
      let firstIndex := Z.of_nat (max_index fs) in
      on_partition firstIndex (fun p => Some (addEdge p edge false));;
      modify (count 0 1);;
      mret [(edge.1, firstIndex); (edge.2, firstIndex)]
  end.

(** [Partitioner::addEdge]. *)
Definition partitioner_addEdge (edge : string * string) : M Partitioner partitionedEdge :=
  t ← get_state;
  match algorithmInUse t with
  | HASH => hashPartitioning edge
  | FENNEL => fennelPartitioning edge
  | LDG => ldgPartitioning edge
  end.
End fennel.

(** [Partitioner::updateMetaDB]: the vertex and edge numbers it adds to the
    record of the graph; the sums are [double]s far below 2^53 and exact. *)
Definition updateMetaDB (t : Partitioner) : Z * Q :=
  let vertexCount := foldr (fun p acc => getVertextCountQuick p + acc) 0 (partitions t) in
  let edgesCount := foldr (fun p acc => getEdgesCount p (isDirect t) + acc) 0 (partitions t) in
  let cuts := foldr (fun p acc => edgeCutsCount p true + acc) 0 (partitions t) in
  (vertexCount, (inject_Z edgesCount + inject_Z cuts / inject_Z 2)%Q).

(** [Partitioner::deserialize]: the log messages are the literals plus the
    parsed number, as pointers. *)
Definition deserialize {S} (data : string) : M S (Z * Z) :=
  let v := _split data " "%char in
  v0 ← determinate (v !! 0%nat);
  a ← stoi_exn v0;
  literal_offset "Vertext/Node 1 = " a;;
  v1 ← determinate (v !! 1%nat);
  b ← stoi_exn v1;
  literal_offset "Vertext/Node 2 = " b;;
  mret (a, b).
