(* ===== verification/PartitionTheory.v ===== *)
(** * PartitionTheory: what a partition counts

    The vertex counter is the number of distinct vertices of the partition,
    the undirected adjacency is symmetric, and the edge and cut counts are
    numbers of distinct edges; [getVertextCount], which recounts, counts a
    vertex once per partition it has cut edges to. *)
From Stdlib Require Import ZArith Ascii String Lia.
From stdpp Require Import base tactics numbers list strings gmap.
From S2P Require Import Prelude Partition.

Implicit Types (p : Partition) (u v w : string) (m : gmap string (gset string)).

(** ** Vertices *)

Definition cut_vertices (cs : list (gmap string (gset string))) : gset string := ⋃ (dom <$> cs).
Definition cut_members p : gset string := cut_vertices (edgeCuts p).
Definition members p : gset string := dom (edgeList p) ∪ cut_members p.

Lemma cut_vertices_insert cs j c u X :
  cs !! j = Some c -> cut_vertices (<[j := <[u := X]> c]> cs) = {[u]} ∪ cut_vertices cs.
Proof.
  unfold cut_vertices. revert j. induction cs as [|c0 cs IH]; intros [|j] Hj; simplify_eq/=.
  - by rewrite dom_insert_L, <- union_assoc_L.
  - rewrite (IH j Hj), !union_assoc_L. f_equal. apply union_comm_L.
Qed.

Lemma union_swap (X Y Z : gset string) : X ∪ (Y ∪ Z) = Y ∪ (X ∪ Z).
Proof. rewrite !union_assoc_L. f_equal. apply union_comm_L. Qed.

(** As many cuts as partitions, and a counter that counts the members. *)
Definition counted p : Prop :=
  Z.of_nat (length (edgeCuts p)) = numberOfPartitions p /\
  vertexCount p = s32 (Z.of_nat (size (members p))).

Lemma has_spec m v : has m v = true <-> v ∈ dom m.
Proof. unfold has. by rewrite bool_decide_eq_true, elem_of_dom. Qed.

Lemma has_false m v : has m v = false <-> v ∉ dom m.
Proof. rewrite <- not_true_iff_false. by rewrite has_spec. Qed.

Lemma existsInCuts_spec p v :
  Z.of_nat (length (edgeCuts p)) = numberOfPartitions p ->
  isExistInEdgeCutsUnsafe p v = true <-> v ∈ cut_members p.
Proof.
  intros Hl. unfold isExistInEdgeCutsUnsafe, cut_members, cut_vertices. rewrite <- Hl, Nat2Z.id, firstn_all.
  rewrite existsb_exists, elem_of_union_list. split.
  - intros (m & Hin & Hm%has_spec). exists (dom m). split; [|done].
    apply list_elem_of_fmap. exists m. split; [done|]. by apply list_elem_of_In.
  - intros (X & (m & -> & Hin)%list_elem_of_fmap & Hv). exists m.
    split; [by apply list_elem_of_In|by apply has_spec].
Qed.

Lemma isExist_spec p v :
  Z.of_nat (length (edgeCuts p)) = numberOfPartitions p -> isExist p v = true <-> v ∈ members p.
Proof.
  intros Hl. unfold isExist, isExistUnsafe, members.
  rewrite orb_true_iff, existsInCuts_spec, has_spec, elem_of_union by done. tauto.
Qed.

(** The counter of a partition after one vertex more. *)
Lemma count_fresh (X : gset string) v c :
  c = s32 (Z.of_nat (size X)) -> v ∉ X -> s32 (c + 1) = s32 (Z.of_nat (size ({[v]} ∪ X))).
Proof.
  intros -> Hv. rewrite s32_succ, size_union by set_solver. rewrite size_singleton. f_equal. lia.
Qed.

Lemma count_known (X : gset string) v : v ∈ X -> {[v]} ∪ X = X.
Proof. intros Hv. apply subseteq_union_1_L. by apply singleton_subseteq_l. Qed.

Lemma member_local p u : u ∈ dom (edgeList p) -> {[u]} ∪ members p = members p.
Proof. intros Hu. apply count_known. by apply elem_of_union_l. Qed.

Lemma member_cut p u : u ∈ cut_members p -> {[u]} ∪ members p = members p.
Proof. intros Hu. apply count_known. by apply elem_of_union_r. Qed.

Lemma not_member p u : u ∉ dom (edgeList p) -> u ∉ cut_members p -> u ∉ members p.
Proof. intros H1 H2. unfold members. by rewrite elem_of_union; intros []. Qed.

Lemma not_exists_in_cuts p v :
  Z.of_nat (length (edgeCuts p)) = numberOfPartitions p ->
  isExistInEdgeCutsUnsafe p v = false -> v ∉ cut_members p.
Proof. intros Hl E. rewrite <- existsInCuts_spec by done. by rewrite E. Qed.

(** The entry of [u] changes; the counter becomes [c]. *)
Lemma members_with_edges p u X c :
  members (with_edges p (<[u := X]> (edgeList p)) c) = {[u]} ∪ members p.
Proof. unfold members, with_edges. cbn. by rewrite dom_insert_L, <- union_assoc_L. Qed.

Lemma insert_neighbour_counted p u v :
  counted p ->
  counted (insert_neighbour p u v) /\ members (insert_neighbour p u v) = {[u]} ∪ members p /\
  edgeCuts (insert_neighbour p u v) = edgeCuts p /\
  numberOfPartitions (insert_neighbour p u v) = numberOfPartitions p.
Proof.
  intros [Hl Hc]. unfold insert_neighbour. destruct (edgeList p !! u) as [ns|] eqn:Hu.
  - assert (u ∈ dom (edgeList p)) as Hd by (apply elem_of_dom; eauto).
    split_and!; [split; [done|]|apply members_with_edges|done|done].
    by rewrite members_with_edges, member_local.
  - assert (u ∉ dom (edgeList p)) as Hd by (by apply not_elem_of_dom).
    destruct (isExistInEdgeCutsUnsafe p u) eqn:E.
    + apply existsInCuts_spec in E; [|done].
      split_and!; [split; [done|]|apply members_with_edges|done|done].
      by rewrite members_with_edges, member_cut.
    + apply not_exists_in_cuts in E; [|done].
      split_and!; [split; [done|]|exact (members_with_edges p u {[v]} _)|done|done].
      change (members _) with (members (with_edges p (<[u := {[v]}]> (edgeList p)) 0)).
      rewrite members_with_edges. apply count_fresh; [done|]. by apply not_member.
Qed.

Lemma addEdge_counted p u v d :
  counted p ->
  counted (addEdge p (u, v) d) /\ members (addEdge p (u, v) d) = {[u]} ∪ ({[v]} ∪ members p) /\
  edgeCuts (addEdge p (u, v) d) = edgeCuts p /\
  numberOfPartitions (addEdge p (u, v) d) = numberOfPartitions p.
Proof.
  intros Hp. destruct (insert_neighbour_counted p u v Hp) as (H1 & M1 & C1 & N1).
  unfold addEdge. cbn [fst snd]. set (q := insert_neighbour p u v) in *. rewrite union_swap, <- M1.
  destruct d.
  2: { destruct (insert_neighbour_counted q v u H1) as (H2 & M2 & C2 & N2).
       split_and!; [done|done|congruence|congruence]. }
  destruct (has (edgeList q) v) eqn:E1; cbn [negb andb].
  { apply has_spec in E1. split_and!; try done. by rewrite member_local. }
  apply has_false in E1. destruct (isExistInEdgeCutsUnsafe q v) eqn:E2; cbn [negb].
  { apply existsInCuts_spec in E2; [|by destruct H1]. split_and!; try done. by rewrite member_cut. }
  destruct H1 as [Hl Hc]. apply not_exists_in_cuts in E2; [|done].
  split_and!; [split; [done|]|exact (members_with_edges q v ∅ _)|done|done].
  change (members _) with (members (with_edges q (<[v := ∅]> (edgeList q)) 0)).
  rewrite members_with_edges. apply count_fresh; [done|]. by apply not_member.
Qed.

Lemma addToEdgeCuts_counted p u v i :
  counted p -> 0 <= i < numberOfPartitions p ->
  exists p' c, addToEdgeCuts p u v i = Some p' /\ edgeCuts p !! Z.to_nat i = Some c /\
    counted p' /\ members p' = {[u]} ∪ members p /\
    edgeList p' = edgeList p /\ numberOfPartitions p' = numberOfPartitions p /\
    edgeCuts p' = <[Z.to_nat i := <[u := {[v]} ∪ default ∅ (c !! u)]> c]> (edgeCuts p).
Proof.
  intros [Hl Hc] Hi. destruct (lookup_lt_is_Some_2 (edgeCuts p) (Z.to_nat i) ltac:(lia)) as [c Hci].
  unfold addToEdgeCuts. destruct (Z.ltb_spec i (numberOfPartitions p)); [|lia].
  set (cs := <[Z.to_nat i := <[u := {[v]} ∪ default ∅ (c !! u)]> c]> (edgeCuts p)).
  assert (dom (edgeList p) ∪ cut_vertices cs = {[u]} ∪ members p) as Hm.
  { unfold cs. rewrite cut_vertices_insert by done. apply union_swap. }
  destruct (isExistUnsafe p u) eqn:E; (destruct (Z.ltb_spec i 0); [lia|]);
    cbn [edgeCuts incrementVertexCount with_edges]; rewrite Hci; cbn [mbind option_bind].
  - apply isExist_spec in E; [|done].
    do 2 eexists. split; [reflexivity|]. split; [reflexivity|]. fold cs.
    split; [|split; [exact Hm|done]]. split; [cbn; unfold cs; by rewrite length_insert|].
    change (members _) with (dom (edgeList p) ∪ cut_vertices cs). by rewrite Hm, count_known.
  - assert (u ∉ members p) as Hn by (rewrite <- isExist_spec by done; unfold isExist; by rewrite E).
    do 2 eexists. split; [reflexivity|]. split; [reflexivity|]. fold cs.
    split; [|split; [exact Hm|done]]. split; [cbn; unfold cs; by rewrite length_insert|].
    change (members _) with (dom (edgeList p) ∪ cut_vertices cs). rewrite Hm. by apply count_fresh.
Qed.

Lemma newPartition_counted j n :
  0 <= n -> counted (newPartition j n) /\ members (newPartition j n) = ∅.
Proof.
  intros Hn. assert (members (newPartition j n) = ∅) as Hm.
  { unfold members, cut_members, cut_vertices, newPartition. cbn [edgeList edgeCuts].
    rewrite dom_empty_L, left_id_L by apply _. induction (Z.to_nat n) as [|k IH]; [done|].
    cbn. by rewrite dom_empty_L, IH, left_id_L by apply _. }
  split; [|done]. split; [cbn; rewrite length_replicate; lia|]. by rewrite Hm.
Qed.

(** [addEdge] and [addToEdgeCuts] keep the vertex counter right: it is the
    number of distinct vertices seen in local or cut edges, cut to an [int],
    and the edge just added adds its own vertices. *)
Theorem partition_vertex_count p u v d i :
  counted p -> 0 <= i < numberOfPartitions p ->
  counted (addEdge p (u, v) d) /\ members (addEdge p (u, v) d) = {[u]} ∪ ({[v]} ∪ members p) /\
  exists p', addToEdgeCuts p u v i = Some p' /\ counted p' /\
    members p' = {[u]} ∪ members p /\ getVertextCountQuick p' = s32 (Z.of_nat (size (members p'))).
Proof.
  intros Hp Hi. destruct (addEdge_counted p u v d Hp) as (H1 & H2 & _). split_and!; [done..|].
  destruct (addToEdgeCuts_counted p u v i Hp Hi) as (p' & c & R & _ & H3 & H4 & _).
  exists p'. split_and!; try done. by destruct H3.
Qed.

(** [getVertextCount] counts a vertex once per partition it has cut edges to:
    a single resident with edges to two other partitions counts as two. *)
Theorem getVertextCount_overcounts j u a b :
  exists p p', addToEdgeCuts (newPartition j 3) u a 1 = Some p /\
    addToEdgeCuts p u b 2 = Some p' /\
    members p' = {[u]} /\ getVertextCountQuick p' = 1 /\ getVertextCount p' = 2.
Proof.
  destruct (newPartition_counted j 3) as [H0 M0]; [lia|].
  destruct (addToEdgeCuts_counted _ u a 1 H0) as (p & c & R1 & Hc & H1 & M1 & E1 & N1 & C1); [done|].
  change (edgeCuts (newPartition j 3)) with [∅; ∅; ∅ : gmap string (gset string)] in Hc, C1.
  change (Z.to_nat 1) with 1%nat in Hc, C1. cbn in Hc. simplify_eq. cbn in C1, N1, E1.
  destruct (addToEdgeCuts_counted p u b 2 H1) as (p' & c' & R2 & Hc' & H2 & M2 & E2 & N2 & C2);
    [rewrite N1; lia|].
  change (Z.to_nat 2) with 2%nat in Hc', C2. rewrite C1 in C2, Hc'. cbn in C2, Hc'. simplify_eq.
  rewrite !lookup_empty, !insert_empty in C2.
  exists p, p'. assert (members p' = {[u]}) as Hm.
  { rewrite M2, M1, M0, union_empty_r_L. by rewrite union_idemp_L. }
  split_and!; try done.
  - destruct H2 as [_ Hv]. unfold getVertextCountQuick. rewrite Hv, Hm, size_singleton. done.
  - assert (forall X : gset string,
      cut_only p' ({[u := X]} : gmap string (gset string)) = 1) as F.
    { intros X. unfold cut_only. rewrite dom_singleton_L, filter_singleton_L by apply _.
      rewrite decide_True; [by rewrite size_singleton|].
      apply has_false. rewrite E2, E1, dom_empty_L. apply not_elem_of_empty. }
    unfold getVertextCount. rewrite N2, N1, E2, E1, C2. change (Z.to_nat 3) with 3%nat.
    cbn -[cut_only]. rewrite !F.
    unfold cut_only. rewrite dom_empty_L, filter_empty_L by apply _. done.
Qed.

(** ** Adjacency *)

Lemma neighbours_insert p u v w :
  getNeighbors (insert_neighbour p u v) w =
  if decide (w = u) then {[v]} ∪ getNeighbors p u else getNeighbors p w.
Proof.
  unfold insert_neighbour, getNeighbors. destruct (edgeList p !! u) as [ns|] eqn:Hu.
  - cbn. case_decide as E; [subst; by rewrite lookup_insert_eq|by rewrite lookup_insert_ne].
  - assert (edgeList (if isExistInEdgeCutsUnsafe p u
      then with_edges p (<[u:={[v]}]> (edgeList p)) (vertexCount p)
      else incrementVertexCount (with_edges p (<[u:={[v]}]> (edgeList p)) (vertexCount p)))
      = <[u:={[v]}]> (edgeList p)) as -> by by destruct (isExistInEdgeCutsUnsafe p u).
    case_decide as E; [subst; rewrite lookup_insert_eq; cbn; by rewrite right_id_L by apply _|].
    by rewrite lookup_insert_ne.
Qed.

(** The neighbours after an undirected edge. *)
Lemma elem_of_neighbours_addEdge p u v x y :
  y ∈ getNeighbors (addEdge p (u, v) false) x <->
  y ∈ getNeighbors p x \/ (x = u /\ y = v) \/ (x = v /\ y = u).
Proof.
  unfold addEdge. cbn [fst snd]. rewrite !neighbours_insert.
  repeat case_decide; subst; rewrite ?elem_of_union, ?elem_of_singleton; intuition congruence.
Qed.

(** An undirected partition. *)
Definition symmetric p : Prop := forall x y, y ∈ getNeighbors p x -> x ∈ getNeighbors p y.

Lemma addEdge_symmetric p u v : symmetric p -> symmetric (addEdge p (u, v) false).
Proof.
  intros Hs x y. rewrite !elem_of_neighbours_addEdge. intros [H|[H|H]]; [left; auto|tauto|tauto].
Qed.

(** An undirected [addEdge] adds exactly the two ordered pairs of the edge to the
    neighbour sets, which stay symmetric; the cut edges do not change. *)
Theorem partition_adjacency p u v :
  counted p -> symmetric p ->
  symmetric (addEdge p (u, v) false) /\ edgeCuts (addEdge p (u, v) false) = edgeCuts p /\
  (forall x y, y ∈ getNeighbors (addEdge p (u, v) false) x <->
    y ∈ getNeighbors p x \/ (x = u /\ y = v) \/ (x = v /\ y = u)).
Proof.
  intros Hp Hs. split_and!; [by apply addEdge_symmetric| |apply elem_of_neighbours_addEdge].
  by destruct (addEdge_counted p u v false Hp) as (_ & _ & ? & _).
Qed.

(** ** Numbers of edges *)

Definition pairs m : gset (string * string) := list_to_set (edge_pairs m).

Lemma elem_of_edge_pairs m x y : (x, y) ∈ edge_pairs m <-> y ∈ default ∅ (m !! x).
Proof.
  unfold edge_pairs. rewrite list_elem_of_bind. split.
  - intros ([u ns] & (v & E & Hv)%list_elem_of_fmap & Hu%elem_of_map_to_list). simplify_eq.
    rewrite Hu. by apply elem_of_elements.
  - intros Hy. destruct (m !! x) as [ns|] eqn:E; [|by apply elem_of_empty in Hy].
    exists (x, ns). split; [|by apply elem_of_map_to_list].
    apply list_elem_of_fmap. exists y. split; [done|]. by apply elem_of_elements.
Qed.

Lemma elem_of_pairs m x y : (x, y) ∈ pairs m <-> y ∈ default ∅ (m !! x).
Proof. unfold pairs. by rewrite elem_of_list_to_set, elem_of_edge_pairs. Qed.

Definition comma_free u : Prop := ","%char ∉ chars u.

Lemma composite_inj u v u' v' :
  comma_free u -> comma_free u' -> composite (u, v) = composite (u', v') -> (u, v) = (u', v').
Proof.
  unfold composite, comma_free. cbn [fst snd]. intros Hu Hu' E.
  apply (f_equal chars) in E. rewrite !chars_app in E. cbn [chars list_ascii_of_string] in E.
  assert (forall (l l' r r' : list ascii) a, a ∉ l -> a ∉ l' -> l ++ a :: r = l' ++ a :: r' ->
    l = l' /\ r = r') as Hsplit.
  { intros l. induction l as [|b l IH]; intros [|b' l'] r r' a Hl Hl' H; simplify_eq/=; try done.
    - exfalso. apply Hl'. left.
    - exfalso. apply Hl. left.
    - rewrite not_elem_of_cons in Hl, Hl'. destruct (IH l' r r' a) as [-> ->]; tauto. }
  destruct (Hsplit _ _ _ _ _ Hu Hu' E) as [E1 E2]. f_equal.
  - by rewrite <- (string_chars u), E1, string_chars.
  - by rewrite <- (string_chars v), E2, string_chars.
Qed.

(** The composite strings are as many as the ordered pairs. *)
Lemma size_uniqueEdges p :
  (forall u, u ∈ dom (edgeList p) -> comma_free u) ->
  size (uniqueEdges p) = size (pairs (edgeList p)).
Proof.
  intros Hcf. set (X := pairs (edgeList p)).
  assert (uniqueEdges p = list_to_set (composite <$> elements X)) as ->.
  { apply set_eq. intros s. unfold uniqueEdges, X, pairs. rewrite !elem_of_list_to_set, !list_elem_of_fmap.
    split; intros (e & -> & He); exists e; (split; [done|]).
    - apply elem_of_elements. by apply elem_of_list_to_set.
    - by rewrite elem_of_elements, elem_of_list_to_set in He. }
  rewrite size_list_to_set; [by rewrite length_fmap|].
  apply NoDup_fmap_2_strong; [|apply NoDup_elements].
  intros [x y] [x' y'] Hx Hx' E.
  assert (forall a b, (a, b) ∈ elements X -> comma_free a) as Hkey.
  { intros a b Hab. apply Hcf. rewrite elem_of_elements in Hab. apply elem_of_pairs in Hab.
    apply elem_of_dom. destruct (edgeList p !! a); [done|]. by apply elem_of_empty in Hab. }
  apply composite_inj; [by eapply Hkey..|done].
Qed.

(** One ordered pair more in a map of sets. *)
Lemma pairs_insert m u v :
  pairs (<[u := {[v]} ∪ default ∅ (m !! u)]> m) = {[(u, v)]} ∪ pairs m.
Proof.
  apply set_eq. intros [x y]. rewrite elem_of_union, elem_of_singleton, !elem_of_pairs.
  destruct (decide (u = x)) as [<-|Hne].
  - rewrite lookup_insert_eq. cbn. rewrite elem_of_union, elem_of_singleton.
    split; (intros [H|H]; [left; congruence|by right]).
  - rewrite lookup_insert_ne by done. split; [by right|by intros [[=]|?]].
Qed.

Lemma size_pairs_insert m u v :
  Z.of_nat (size (pairs (<[u := {[v]} ∪ default ∅ (m !! u)]> m))) =
  Z.of_nat (size (pairs m)) + (if decide (v ∈ default ∅ (m !! u)) then 0 else 1).
Proof.
  rewrite pairs_insert. case_decide as H; rewrite <- elem_of_pairs in H.
  - replace ({[(u, v)]} ∪ pairs m) with (pairs m); [lia|]. symmetry.
    apply subseteq_union_1_L. by apply singleton_subseteq_l.
  - rewrite size_union by (apply disjoint_singleton_l; done). rewrite size_singleton. lia.
Qed.

Lemma edgeList_insert_neighbour p u v :
  edgeList (insert_neighbour p u v) = <[u := {[v]} ∪ default ∅ (edgeList p !! u)]> (edgeList p).
Proof.
  unfold insert_neighbour. destruct (edgeList p !! u) as [ns|] eqn:Hu; [done|]. cbn.
  rewrite union_empty_r_L. by destruct (isExistInEdgeCutsUnsafe p u).
Qed.

Definition comma_free_keys p : Prop := forall u, u ∈ dom (edgeList p) -> comma_free u.

Lemma comma_free_insert p u v : comma_free u -> comma_free_keys p -> comma_free_keys (insert_neighbour p u v).
Proof.
  intros Hu Hp w. rewrite edgeList_insert_neighbour, dom_insert_L, elem_of_union, elem_of_singleton.
  by intros [->|?]; [|apply Hp].
Qed.

Lemma comma_free_addEdge p u v :
  comma_free u -> comma_free v -> comma_free_keys p -> comma_free_keys (addEdge p (u, v) false).
Proof. intros Hu Hv Hp. by apply comma_free_insert, comma_free_insert. Qed.

(** An undirected edge adds both of its ordered pairs or none. *)
Lemma getEdgesCount_addEdge p u v :
  symmetric p -> u <> v -> comma_free_keys p -> comma_free u -> comma_free v ->
  getEdgesCount (addEdge p (u, v) false) false =
  getEdgesCount p false + (if decide (v ∈ getNeighbors p u) then 0 else 1).
Proof.
  intros Hs Hne Hp Hu Hv. unfold getEdgesCount.
  rewrite !size_uniqueEdges by (done || by apply comma_free_addEdge).
  unfold addEdge. cbn [fst snd]. rewrite (edgeList_insert_neighbour (insert_neighbour p u v)).
  rewrite size_pairs_insert, (edgeList_insert_neighbour p), size_pairs_insert.
  rewrite lookup_insert_ne by done. fold (getNeighbors p u) (getNeighbors p v).
  set (n := Z.of_nat (size (pairs (edgeList p)))).
  destruct (decide (v ∈ getNeighbors p u)) as [H|H], (decide (u ∈ getNeighbors p v)) as [H'|H'].
  - by rewrite !Z.add_0_r.
  - by apply Hs in H.
  - by apply Hs in H'.
  - replace (n + 1 + 1) with (n + 1 * 2) by lia. apply Z.div_add. lia.
Qed.

Lemma NoDup_edge_pairs m : NoDup (edge_pairs m).
Proof.
  unfold edge_pairs. pose proof (NoDup_fst_map_to_list m) as Hnd.
  induction (map_to_list m) as [|[u ns] l IH]; [constructor|]. cbn in Hnd |- *.
  apply NoDup_cons in Hnd as [Hu Hnd]. apply NoDup_app. split_and!; [| |by apply IH].
  - apply (NoDup_fmap_2 (pair u)). apply NoDup_elements.
  - intros [x y] (y' & E & _)%list_elem_of_fmap Hin. simplify_eq.
    apply list_elem_of_bind in Hin as ([u' ns'] & (y'' & E & _)%list_elem_of_fmap & Hin). simplify_eq.
    apply Hu. apply list_elem_of_fmap. by exists (u', ns').
Qed.

Lemma pair_count_size m : pair_count m = Z.of_nat (size (pairs m)).
Proof.
  unfold pairs. rewrite size_list_to_set by apply NoDup_edge_pairs. unfold edge_pairs, pair_count.
  induction (map_to_list m) as [|[u ns] l IH]; [done|]. cbn [foldr snd]. rewrite IH. cbn.
  rewrite length_app, length_fmap. unfold size, set_size. cbn. lia.
Qed.

(** One more foreign vertex in a cut. *)
Lemma pair_count_insert m u v :
  pair_count (<[u := {[v]} ∪ default ∅ (m !! u)]> m) =
  pair_count m + (if decide (v ∈ default ∅ (m !! u)) then 0 else 1).
Proof. by rewrite !pair_count_size, size_pairs_insert. Qed.

Lemma edgeCutsCount_insert p p' j c c' :
  edgeCuts p !! j = Some c -> edgeCuts p' = <[j := c']> (edgeCuts p) ->
  edgeCutsCount p' true = edgeCutsCount p true + (pair_count c' - pair_count c).
Proof.
  unfold edgeCutsCount. intros Hj ->. revert j Hj.
  induction (edgeCuts p) as [|d cs IH]; intros [|j] Hj; simplify_eq/=; [lia|]. rewrite (IH j Hj). lia.
Qed.

(** [getEdgesCount] of an undirected partition: inserting an edge between two
    different vertices raises it by one if the edge is new and leaves it
    otherwise.  Ids with a comma are excluded: the count goes through the
    strings [u,v]. *)
Theorem partition_edge_count p u v :
  symmetric p -> u <> v -> comma_free_keys p -> comma_free u -> comma_free v ->
  getEdgesCount (addEdge p (u, v) false) false =
  getEdgesCount p false + (if decide (v ∈ getNeighbors p u) then 0 else 1).
Proof. apply getEdgesCount_addEdge. Qed.
