(* ===== verification/PartitionerTheory.v ===== *)
(** * PartitionerTheory: where the edges of a stream go

    Hash partitioning places every edge by the numbers of its ends and the
    totals it reports are the numbers of distinct edges and vertices; FENNEL
    stores every edge in one partition of the cluster; linear deterministic
    greedy loses an edge whose ends are already together.  The greedy
    algorithms are treated for any outcome of the floating-point scores. *)
From Stdlib Require Import ZArith QArith Ascii String Lia.
From stdpp Require Import base tactics numbers list strings gmap.
From S2P Require Import Prelude Partition Partitioner PartitionTheory.
#[local] Open Scope Z_scope.

Implicit Types (t : Partitioner) (p : Partition) (u v x y : string).

(** ** The state of the partitioner *)

(** Partition objects as the constructor and the operations leave them. *)
Definition partition_ok (n : Z) p : Prop :=
  counted p /\ symmetric p /\ comma_free_keys p /\ numberOfPartitions p = n.

Definition partitioner_ok t : Prop :=
  0 < partitionCount t < 2147483648 /\ isDirect t = false /\
  Z.of_nat (length (partitions t)) = partitionCount t /\
  Forall (partition_ok (partitionCount t)) (partitions t).

Lemma newPartitioner_ok n g alg :
  0 < n < 2147483648 -> partitioner_ok (newPartitioner n g alg false).
Proof.
  intros Hn. split; [exact Hn|]. split; [done|]. split.
  - cbn. rewrite length_fmap, length_seq. lia.
  - cbn. apply Forall_fmap, Forall_forall. intros i _.
    destruct (newPartition_counted (Z.of_nat i) n) as [Hc _]; [lia|].
    split_and!; [done| | |done].
    + intros x y. unfold getNeighbors. cbn. by rewrite lookup_empty.
    + intros u. cbn. by rewrite dom_empty_L; intros ?%elem_of_empty.
Qed.

Lemma addEdge_ok n p u v :
  partition_ok n p -> comma_free u -> comma_free v -> partition_ok n (addEdge p (u, v) false).
Proof.
  intros (Hc & Hs & Hk & Hn) Hu Hv. destruct (addEdge_counted p u v false Hc) as (H1 & _ & _ & H2).
  split_and!; [done|by apply addEdge_symmetric|by apply comma_free_addEdge|congruence].
Qed.

Lemma set_partitions_ok t i p' :
  partitioner_ok t -> partition_ok (partitionCount t) p' ->
  partitioner_ok (set_partitions (<[i := p']> (partitions t)) t).
Proof.
  intros (H1 & H2 & H3 & H4) Hp. split; [exact H1|]. split; [done|]. split; cbn.
  - by rewrite length_insert.
  - by apply Forall_insert.
Qed.

Lemma count_ok t a b : partitioner_ok t -> partitioner_ok (count a b t).
Proof. done. Qed.

Lemma on_partition_run t i p f p' :
  0 <= i -> partitions t !! Z.to_nat i = Some p -> f p = Some p' ->
  on_partition i f t = (Ret tt, set_partitions (<[Z.to_nat i := p']> (partitions t)) t).
Proof.
  intros Hi Hp Hf. unfold on_partition. destruct (Z.ltb_spec i 0); [lia|]. by rewrite Hp, Hf.
Qed.

Lemma partition_lookup t i :
  partitioner_ok t -> 0 <= i < partitionCount t ->
  exists p, partitions t !! Z.to_nat i = Some p /\ partition_ok (partitionCount t) p.
Proof.
  intros (_ & _ & Hl & Hf) Hi.
  destruct (lookup_lt_is_Some_2 (partitions t) (Z.to_nat i)) as [p Hp]; [lia|].
  exists p. split; [done|]. by eapply Forall_lookup_1 in Hf.
Qed.

(** Sums over the partitions. *)
Definition total (f : Partition -> Z) (l : list Partition) : Z := foldr (fun p acc => f p + acc) 0 l.

Lemma total_insert f l i p p' :
  l !! i = Some p -> total f (<[i := p']> l) = total f l + (f p' - f p).
Proof.
  revert i. induction l as [|q l IH]; intros [|i] Hi; simplify_eq/=; [lia|]. rewrite (IH i Hi). lia.
Qed.

(** ** Hash partitioning *)

(** A vertex id that is a non-negative [int], without a comma. *)
Definition hash_id u : Prop := comma_free u /\ exists a, stoi u = inr a /\ 0 <= a.

Definition hash (n : Z) u : Z := match stoi u with inr a => a mod n | inl _ => 0 end.

Lemma hash_range n u : 0 < n -> 0 <= hash n u < n.
Proof. intros Hn. unfold hash. destruct (stoi u); [lia|]. by apply Z.mod_pos_bound. Qed.

Lemma hash_index {S} n u (s : S) :
  0 < n -> hash_id u -> exists a, stoi_exn u s = (Ret a, s) /\ int_rem a n s = (Ret (hash n u), s).
Proof.
  intros Hn (_ & a & Ha & H0). exists a. unfold stoi_exn, hash. rewrite Ha. split; [done|].
  unfold int_rem. destruct (Z.eqb_spec n 0); [lia|]. destruct (Z.eqb_spec n (-1)); [lia|].
  rewrite andb_false_r. cbn. unfold mret, M_ret. do 2 f_equal. apply Z.rem_mod_nonneg; lia.
Qed.

(** [y] is recorded next to [x]: in the neighbour set of [x] when both ends
    are in one partition ([same]), in the cut towards partition [k] otherwise. *)
Definition row p (same : bool) (k : nat) x y : Prop :=
  if same then y ∈ getNeighbors p x
  else exists c, edgeCuts p !! k = Some c /\ y ∈ (default ∅ (c !! x) : gset string).

Definition spot t x : nat := Z.to_nat (hash (partitionCount t) x).

(** The edge from [x] to [y] is where the hash says. *)
Definition placed t x y : Prop :=
  exists p, partitions t !! spot t x = Some p /\ row p (spot t x =? spot t y)%nat (spot t y) x y.

(** [x] is a vertex of its partition. *)
Definition resident t x : Prop := exists p, partitions t !! spot t x = Some p /\ x ∈ members p.

Definition is_edge u v x y : Prop := (x = u /\ y = v) \/ (x = v /\ y = u).

Lemma row_addEdge p u v same k x y :
  counted p ->
  row (addEdge p (u, v) false) same k x y <-> row p same k x y \/ (same = true /\ is_edge u v x y).
Proof.
  intros Hc. destruct (addEdge_counted p u v false Hc) as (_ & _ & E & _). unfold row, is_edge.
  destruct same; [rewrite elem_of_neighbours_addEdge; tauto|]. rewrite E. split; [by left|].
  by intros [?|[? _]].
Qed.

Lemma row_cut p p' u v j c same k x y :
  edgeList p' = edgeList p -> edgeCuts p !! j = Some c ->
  edgeCuts p' = <[j := <[u := {[v]} ∪ default ∅ (c !! u)]> c]> (edgeCuts p) ->
  row p' same k x y <-> row p same k x y \/ (same = false /\ k = j /\ x = u /\ y = v).
Proof.
  intros E Hj E'. unfold row. destruct same.
  { unfold getNeighbors. rewrite E. split; [by left|]. by intros [?|[? _]]. }
  rewrite E'. pose proof (lookup_lt_Some _ _ _ Hj) as Hlt. destruct (decide (j = k)) as [<-|Hne].
  2: { rewrite list_lookup_insert_ne by done. split; [by left|].
       intros [?|(_ & -> & _)]; done. }
  rewrite list_lookup_insert_eq by done. rewrite Hj. destruct (decide (u = x)) as [<-|Hux].
  - split.
    + intros (c' & [= <-] & Hy). rewrite lookup_insert_eq in Hy. cbn in Hy.
      apply elem_of_union in Hy as [->%elem_of_singleton|Hy]; [by right|left; eauto].
    + intros H. eexists. split; [done|]. rewrite lookup_insert_eq. cbn. apply elem_of_union.
      destruct H as [(c' & [= <-] & Hy)|(_ & _ & _ & ->)]; [by right|left; by apply elem_of_singleton].
  - split.
    + intros (c' & [= <-] & Hy). rewrite lookup_insert_ne in Hy by done. left. eauto.
    + intros [(c' & [= <-] & Hy)|(_ & _ & -> & _)]; [|done]. eexists. split; [done|].
      by rewrite lookup_insert_ne.
Qed.

(** One partition changes. *)
Lemma placed_update t i p p' (R : bool -> nat -> string -> string -> Prop) x y :
  partitions t !! i = Some p ->
  (forall same k, row p' same k x y <-> row p same k x y \/ R same k x y) ->
  placed (set_partitions (<[i := p']> (partitions t)) t) x y <->
  placed t x y \/ (spot t x = i /\ R (spot t x =? spot t y)%nat (spot t y) x y).
Proof.
  intros Hi HR. unfold placed, spot. cbn [partitions partitionCount set_partitions].
  fold (spot t x) (spot t y). pose proof (lookup_lt_Some _ _ _ Hi) as Hlt.
  destruct (decide (i = spot t x)) as [->|Hne].
  - rewrite list_lookup_insert_eq, Hi by done. split.
    + intros (q & [= <-] & [Hq|Hq]%HR); [left; eauto|by right].
    + intros [(q & [= <-] & Hq)|[_ Hq]]; exists p'; (split; [done|]); apply HR; auto.
  - rewrite list_lookup_insert_ne by done. split; [by left|]. by intros [?|[? _]]; [|congruence].
Qed.

Lemma resident_update t i p p' x (X : gset string) :
  partitions t !! i = Some p -> members p' = X ∪ members p ->
  resident (set_partitions (<[i := p']> (partitions t)) t) x <->
  resident t x \/ (spot t x = i /\ x ∈ X).
Proof.
  intros Hi HX. unfold resident, spot. cbn [partitions partitionCount set_partitions].
  fold (spot t x). pose proof (lookup_lt_Some _ _ _ Hi) as Hlt.
  destruct (decide (i = spot t x)) as [->|Hne].
  - rewrite list_lookup_insert_eq, Hi by done. split.
    + intros (q & [= <-] & Hq). rewrite HX in Hq. apply elem_of_union in Hq as [?|?]; [by right|left; eauto].
    + intros H. exists p'. split; [done|]. rewrite HX. apply elem_of_union.
      destruct H as [(q & [= <-] & Hq)|[_ Hq]]; auto.
  - rewrite list_lookup_insert_ne by done. split; [by left|]. by intros [?|[? _]]; [|congruence].
Qed.

(** ** The reported numbers *)

(** Twice the number of edges. *)
Definition edge_halves t : Z :=
  2 * total (fun p => getEdgesCount p false) (partitions t) +
  total (fun p => edgeCutsCount p true) (partitions t).

Definition vertex_total t : Z := total (fun p => Z.of_nat (size (members p))) (partitions t).

Lemma updateMetaDB_edges t :
  isDirect t = false -> ((updateMetaDB t).2 == (edge_halves t # 2))%Q.
Proof.
  intros Hd. unfold updateMetaDB, edge_halves. rewrite Hd. cbn [snd].
  fold (total (fun p => getEdgesCount p false) (partitions t)).
  fold (total (fun p => edgeCutsCount p true) (partitions t)).
  unfold Qeq, Qplus, Qdiv, Qmult, Qinv, inject_Z. cbn. lia.
Qed.

Lemma total_nonneg f l : (forall p, 0 <= f p) -> 0 <= total f l.
Proof.
  intros Hf. induction l as [|p l IH]; [done|]. change (0 <= f p + total f l). specialize (Hf p). lia.
Qed.

Lemma updateMetaDB_vertices t :
  partitioner_ok t -> vertex_total t < 2147483648 -> (updateMetaDB t).1 = vertex_total t.
Proof.
  intros (_ & _ & _ & Hf) Ht. unfold vertex_total in *. cbn [updateMetaDB fst].
  induction Hf as [|p l [[_ Hc] _] _ IH]; [done|].
  change (Z.of_nat (size (members p)) + total (fun p => Z.of_nat (size (members p))) l < 2147483648) in Ht.
  change (getVertextCountQuick p + foldr (fun p acc => getVertextCountQuick p + acc) 0 l =
    Z.of_nat (size (members p)) + total (fun p => Z.of_nat (size (members p))) l).
  assert (0 <= total (fun p => Z.of_nat (size (members p))) l) by (apply total_nonneg; intros; lia).
  unfold getVertextCountQuick in *. rewrite Hc, s32_id, IH by lia. done.
Qed.

(** ** One edge *)

(** What one hashed edge does to the partitioner. *)
Record edge_added t t' u v : Prop := {
  ea_ok : partitioner_ok t';
  ea_count : partitionCount t' = partitionCount t;
  ea_alg : algorithmInUse t' = algorithmInUse t;
  ea_placed x y : placed t' x y <-> placed t x y \/ is_edge u v x y;
  ea_resident x : resident t' x <-> resident t x \/ x = u \/ x = v;
  ea_old : placed t u v -> placed t v u -> edge_halves t' = edge_halves t;
  ea_new : ~ placed t u v -> ~ placed t v u -> edge_halves t' = edge_halves t + 2;
  ea_vertices (X : gset string) : (forall x, x ∈ X <-> resident t x) ->
    vertex_total t' = vertex_total t + Z.of_nat (size ({[u; v]} ∪ X)) - Z.of_nat (size X)
}.

(** How the vertices of one partition grow. *)
Lemma size_members_grow (A X Y : gset string) :
  (forall x, x ∈ A -> (x ∈ X <-> x ∈ Y)) ->
  Z.of_nat (size (A ∪ X)) - Z.of_nat (size X) = Z.of_nat (size (A ∪ Y)) - Z.of_nat (size Y).
Proof.
  intros H. assert (forall Z0 : gset string, Z.of_nat (size (A ∪ Z0)) - Z.of_nat (size Z0)
    = Z.of_nat (size (A ∖ Z0))) as E.
  { intros Z0. rewrite union_comm_L, (union_difference_L Z0 (Z0 ∪ A)) by apply union_subseteq_l.
    rewrite size_union by (apply disjoint_difference_r1; done).
    replace ((Z0 ∪ A) ∖ Z0) with (A ∖ Z0); [lia|].
    rewrite difference_union_distr_l_L, difference_diag_L, union_empty_l_L. done. }
  rewrite !E. do 2 f_equal. apply set_eq. intros x. rewrite !elem_of_difference. split; intros [H1 H2];
    (split; [done|]); by rewrite (H x H1) in *.
Qed.

Lemma spot_eq t x y :
  partitioner_ok t -> (spot t x =? spot t y)%nat = (hash (partitionCount t) x =? hash (partitionCount t) y).
Proof.
  intros (Hn & _). unfold spot. pose proof (hash_range (partitionCount t) x ltac:(lia)).
  pose proof (hash_range (partitionCount t) y ltac:(lia)).
  destruct (Z.eqb_spec (hash (partitionCount t) x) (hash (partitionCount t) y)) as [E|E].
  - rewrite E. apply Nat.eqb_refl.
  - apply Nat.eqb_neq. lia.
Qed.

(** Both ends in one partition. *)
Lemma local_edge_added t u v p :
  partitioner_ok t -> u <> v -> comma_free u -> comma_free v ->
  partitions t !! spot t u = Some p -> partition_ok (partitionCount t) p -> spot t v = spot t u ->
  edge_added t (set_partitions (<[spot t u := addEdge p (u, v) false]> (partitions t)) t) u v.
Proof.
  intros Ht Hne Hu Hv Hp Hok Hs. pose proof Hok as (Hc & Hsym & Hk & Hn).
  pose proof (row_addEdge p u v) as Hrow.
  destruct (addEdge_counted p u v false Hc) as (Hc' & Hm & Ecut & _).
  assert (placed t u v <-> v ∈ getNeighbors p u) as Hpl.
  { unfold placed. rewrite Hp, Hs, Nat.eqb_refl. cbn. split; [by intros (q & [= <-] & ?)|eauto]. }
  assert (edgeCutsCount (addEdge p (u, v) false) true = edgeCutsCount p true) as Ecc
    by (unfold edgeCutsCount; by rewrite Ecut).
  pose proof (getEdgesCount_addEdge p u v Hsym Hne Hk Hu Hv) as Ecount.
  assert (edge_halves (set_partitions (<[spot t u := addEdge p (u, v) false]> (partitions t)) t) =
    edge_halves t + 2 * (if decide (v ∈ getNeighbors p u) then 0 else 1)) as Eh.
  { unfold edge_halves. cbn [partitions set_partitions]. rewrite !(total_insert _ _ _ _ _ Hp).
    rewrite Ecc, Ecount. lia. }
  constructor; [by apply set_partitions_ok, addEdge_ok|done|done|..].
  - intros x y. rewrite (placed_update t (spot t u) p (addEdge p (u, v) false)
      (fun same _ x y => same = true /\ is_edge u v x y)) by (done || (intros; by apply Hrow)).
    split; [intros [?|(_ & _ & ?)]; auto|]. intros [?|He]; [by left|right].
    destruct He as [[-> ->]|[-> ->]]; rewrite ?Hs, Nat.eqb_refl; (split; [done|split; [done|]]);
      [by left|by right].
  - intros x. rewrite (resident_update t (spot t u) p _ x {[u; v]}) by (done || by rewrite Hm, union_assoc_L).
    rewrite elem_of_union, !elem_of_singleton. split; [tauto|].
    intros [?|[->| ->]]; [by left|right; auto..].
  - intros H1 _. rewrite Eh, decide_True by by apply Hpl. lia.
  - intros H1 _. rewrite Eh, decide_False by by rewrite <- Hpl. lia.
  - intros X HX. unfold vertex_total. cbn [partitions set_partitions].
    rewrite (total_insert _ _ _ _ _ Hp), Hm, union_assoc_L.
    rewrite (size_members_grow {[u; v]} (members p) X); [lia|]. intros x Hx. rewrite HX.
    assert (spot t x = spot t u) as Ex
      by (apply elem_of_union in Hx as [->%elem_of_singleton| ->%elem_of_singleton]; done).
    unfold resident. rewrite Ex, Hp. split; [eauto|by intros (q & [= <-] & ?)].
Qed.

(** A cut keeps the local part of a partition. *)
Lemma cut_ok n p p' :
  partition_ok n p -> counted p' -> edgeList p' = edgeList p ->
  numberOfPartitions p' = numberOfPartitions p ->
  partition_ok n p' /\ getEdgesCount p' false = getEdgesCount p false.
Proof.
  intros (Hc & Hs & Hk & Hn) Hc' E En. split.
  - split_and!; [done| | |congruence].
    + intros x y. unfold getNeighbors. rewrite E. apply Hs.
    + intros u. rewrite E. apply Hk.
  - unfold getEdgesCount, uniqueEdges. by rewrite E.
Qed.

(** One side of a cut edge. *)
Lemma half_cut t i j u v p :
  partitioner_ok t -> partitions t !! i = Some p -> partition_ok (partitionCount t) p ->
  0 <= j < partitionCount t ->
  exists p', addToEdgeCuts p u v j = Some p' /\
    let t' := set_partitions (<[i := p']> (partitions t)) t in
    partitioner_ok t' /\ partition_ok (partitionCount t) p' /\ members p' = {[u]} ∪ members p /\
    (forall x y, placed t' x y <-> placed t x y \/
      (spot t x = i /\ spot t x <> spot t y /\ spot t y = Z.to_nat j /\ x = u /\ y = v)) /\
    (row p false (Z.to_nat j) u v -> edge_halves t' = edge_halves t) /\
    (~ row p false (Z.to_nat j) u v -> edge_halves t' = edge_halves t + 1).
Proof.
  intros Ht Hp Hok Hj. pose proof Hok as (Hc & _ & _ & Hn).
  destruct (addToEdgeCuts_counted p u v j Hc) as (p' & c & R & Hcj & Hc' & Hm & E & En & Ecut);
    [by rewrite Hn|].
  exists p'. split; [done|]. cbn zeta. destruct (cut_ok _ _ _ Hok Hc' E En) as [Hok' Eg].
  pose proof (edgeCutsCount_insert _ _ _ _ _ Hcj Ecut) as Ecc. rewrite pair_count_insert in Ecc.
  assert (row p false (Z.to_nat j) u v <-> v ∈ (default ∅ (c !! u) : gset string)) as Hr.
  { cbn. rewrite Hcj. split; [by intros (c' & [= <-] & ?)|eauto]. }
  assert (edge_halves (set_partitions (<[i := p']> (partitions t)) t) =
    edge_halves t + (if decide (v ∈ (default ∅ (c !! u) : gset string)) then 0 else 1)) as Eh.
  { unfold edge_halves. cbn [partitions set_partitions]. rewrite !(total_insert _ _ _ _ _ Hp).
    rewrite Eg, Ecc. lia. }
  split_and!; [by apply set_partitions_ok|done|done| | |].
  - intros x y. rewrite (placed_update t i p p'
      (fun same k x y => same = false /\ k = Z.to_nat j /\ x = u /\ y = v))
      by (done || (intros; by eapply row_cut)).
    rewrite Nat.eqb_neq. tauto.
  - intros H. rewrite Eh, decide_True by by apply Hr. lia.
  - intros H. rewrite Eh, decide_False by by rewrite <- Hr. lia.
Qed.

(** The ends in different partitions. *)
Lemma cut_edge_added t u v p q :
  partitioner_ok t -> u <> v -> spot t u <> spot t v ->
  partitions t !! spot t u = Some p -> partition_ok (partitionCount t) p ->
  partitions t !! spot t v = Some q -> partition_ok (partitionCount t) q ->
  exists p' q', addToEdgeCuts p u v (hash (partitionCount t) v) = Some p' /\
    addToEdgeCuts q v u (hash (partitionCount t) u) = Some q' /\
    edge_added t (set_partitions (<[spot t v := q']> (<[spot t u := p']> (partitions t))) t) u v.
Proof.
  intros Ht Hne Hsp Hp Hpok Hq Hqok.
  assert (0 < partitionCount t) as Hn by (destruct Ht; lia).
  destruct (half_cut t (spot t u) (hash (partitionCount t) v) u v p Ht Hp Hpok)
    as (p' & R1 & Ht1 & Hok1 & Hm1 & Hp1 & Ho1 & Hn1); [by apply hash_range|].
  set (t1 := set_partitions (<[spot t u := p']> (partitions t)) t) in *.
  assert (partitions t1 !! spot t v = Some q) as Hq1 by (cbn; by rewrite list_lookup_insert_ne).
  destruct (half_cut t1 (spot t v) (hash (partitionCount t) u) v u q Ht1 Hq1 Hqok)
    as (q' & R2 & Ht2 & Hok2 & Hm2 & Hp2 & Ho2 & Hn2); [by apply hash_range|].
  exists p', q'. split_and!; [done..|].
  change (set_partitions (<[spot t v := q']> (<[spot t u := p']> (partitions t))) t)
    with (set_partitions (<[spot t v := q']> (partitions t1)) t1).
  assert (placed t u v <-> row p false (spot t v) u v) as Hpl.
  { unfold placed. rewrite Hp. apply Nat.eqb_neq in Hsp. rewrite Hsp.
    split; [by intros (? & [= <-] & ?)|eauto]. }
  assert (placed t v u <-> row q false (spot t u) v u) as Hpl'.
  { unfold placed. rewrite Hq. apply Nat.eqb_neq in Hsp. rewrite Nat.eqb_sym, Hsp.
    split; [by intros (? & [= <-] & ?)|eauto]. }
  constructor; [done|done|done|..].
  - intros x y. rewrite Hp2, Hp1. change (spot t1) with (spot t).
    change (Z.to_nat (hash (partitionCount t) ?z)) with (spot t z). unfold is_edge. split.
    + intros [[?|?]|?]; tauto.
    + intros [?|[[-> ->]|[-> ->]]]; [by do 2 left|left; right; done|by right].
  - intros x. rewrite (resident_update t1 (spot t v) q q' x {[v]}) by done.
    pose proof (resident_update t (spot t u) p p' x {[u]} Hp Hm1) as Hr1. fold t1 in Hr1.
    rewrite Hr1. change (spot t1) with (spot t).
    rewrite !elem_of_singleton. split; [tauto|]. intros [?|[->| ->]]; [by do 2 left|by left; right|by right].
  - intros H1 H2. rewrite Ho2 by by apply Hpl'. by apply Ho1, Hpl.
  - intros H1 H2. rewrite Hn2 by by rewrite <- Hpl'. rewrite Hn1 by by rewrite <- Hpl. lia.
  - intros X HX. unfold vertex_total. cbn [partitions set_partitions].
    rewrite (total_insert _ _ _ _ _ Hq1), Hm2. cbn [t1 partitions set_partitions].
    rewrite (total_insert _ _ _ _ _ Hp), Hm1.
    assert (u ∈ members p <-> u ∈ X) as Hu.
    { rewrite HX. unfold resident. rewrite Hp. split; [eauto|by intros (? & [= <-] & ?)]. }
    assert (v ∈ members q <-> v ∈ X) as Hv.
    { rewrite HX. unfold resident. rewrite Hq. split; [eauto|by intros (? & [= <-] & ?)]. }
    pose proof (size_members_grow {[u]} (members p) X) as E1.
    pose proof (size_members_grow {[v]} (members q) ({[u]} ∪ X)) as E2.
    replace ({[u; v]} ∪ X) with ({[v]} ∪ ({[u]} ∪ X)) by (by rewrite union_assoc_L, (union_comm_L {[v]})).
    rewrite E1, E2; [lia| |].
    + intros x ->%elem_of_singleton. rewrite Hv, elem_of_union, elem_of_singleton. intuition congruence.
    + by intros x ->%elem_of_singleton.
Qed.

(** [hashPartitioning] on two different admissible ids. *)
Lemma hash_step t u v :
  partitioner_ok t -> hash_id u -> hash_id v -> u <> v ->
  exists t', hashPartitioning (u, v) t =
      (Ret [(u, hash (partitionCount t) u); (v, hash (partitionCount t) v)], t') /\
    edge_added t t' u v.
Proof.
  intros Ht Hu Hv Hne. pose proof Ht as (Hn & Hd & _). set (n := partitionCount t) in *.
  destruct (hash_index n u t ltac:(lia) Hu) as (a & Ra & Ra').
  destruct (hash_index n v t ltac:(lia) Hv) as (b & Rb & Rb').
  pose proof (hash_range n u ltac:(lia)) as Hru. pose proof (hash_range n v ltac:(lia)) as Hrv.
  destruct (partition_lookup t (hash n u) Ht Hru) as (p & Hp & Hpok).
  destruct (partition_lookup t (hash n v) Ht Hrv) as (q & Hq & Hqok).
  assert (forall t',
    (if hash n u =? hash n v
     then on_partition (hash n u) (fun p => Some (addEdge p (u, v) (isDirect t)))
     else on_partition (hash n u) (fun p => addToEdgeCuts p u v (hash n v));;
          on_partition (hash n v) (fun p => addToEdgeCuts p v u (hash n u))) t = (Ret tt, t') ->
    hashPartitioning (u, v) t = (Ret [(u, hash n u); (v, hash n v)], t')) as Hrun.
  { intros t' R. unfold hashPartitioning. cbn [fst snd].
    rewrite (bind_Ret _ _ _ _ _ Ra). erewrite bind_Ret; [|reflexivity]. fold n.
    rewrite (bind_Ret _ _ _ _ _ Ra'), (bind_Ret _ _ _ _ _ Rb), (bind_Ret _ _ _ _ _ Rb').
    by rewrite (bind_Ret _ _ _ _ _ R). }
  pose proof (spot_eq t u v Ht) as Hsp. fold n in Hsp.
  destruct (Z.eqb_spec (hash n u) (hash n v)) as [E|E].
  - eexists. split.
    + apply Hrun. apply on_partition_run with p; [lia|exact Hp|reflexivity].
    + rewrite Hd. apply local_edge_added; [done|done|by destruct Hu|by destruct Hv|done|done|].
      unfold spot. fold n. by rewrite E.
  - apply Nat.eqb_neq in Hsp.
    destruct (cut_edge_added t u v p q Ht Hne Hsp Hp Hpok Hq Hqok) as (p' & q' & R1 & R2 & Ha).
    fold n in R1, R2. eexists. split; [|exact Ha]. apply Hrun.
    erewrite bind_Ret; [|apply on_partition_run with p; [lia|exact Hp|exact R1]].
    rewrite (on_partition_run _ (hash n v) q _ q'); [|lia| |exact R2].
    + reflexivity.
    + cbn. rewrite list_lookup_insert_ne; [exact Hq|exact Hsp].
Qed.

(** ** A stream of edges *)

Fixpoint add_all (pow : double -> double -> double) (es : list (string * string)) : M Partitioner unit :=
  match es with
  | [] => mret tt
  | e :: es' => partitioner_addEdge pow e;; add_all pow es'
  end.

(** The distinct undirected edges and the distinct vertices of a stream. *)
Definition ends (e : string * string) : gset string := {[e.1; e.2]}.
Definition edge_set (es : list (string * string)) : gset (gset string) := list_to_set (ends <$> es).
Definition vertex_set (es : list (string * string)) : gset string := ⋃ (ends <$> es).

Lemma ends_eq u v x y : ends (u, v) = ends (x, y) <-> is_edge u v x y.
Proof.
  unfold ends, is_edge. cbn [fst snd]. split; [|by intros [[-> ->]|[-> ->]]; [|apply union_comm_L]].
  intros E. assert (forall z, z = u \/ z = v <-> z = x \/ z = y) as H.
  { intros z. rewrite <- !(elem_of_singleton (C := gset string)), <- !elem_of_union. by rewrite E. }
  destruct (proj1 (H u)), (proj1 (H v)), (proj2 (H x)), (proj2 (H y)); auto; subst; auto.
Qed.

(** The partitioner has seen exactly the edges [es]. *)
Record accounts t (es : list (string * string)) : Prop := {
  ac_ok : partitioner_ok t;
  ac_alg : algorithmInUse t = HASH;
  ac_placed x y : placed t x y <-> ends (x, y) ∈ edge_set es;
  ac_resident x : resident t x <-> x ∈ vertex_set es;
  ac_edges : edge_halves t = 2 * Z.of_nat (size (edge_set es));
  ac_vertices : vertex_total t = Z.of_nat (size (vertex_set es))
}.

Lemma accounts_start n g :
  0 < n < 2147483648 -> accounts (newPartitioner n g HASH false) [].
Proof.
  intros Hn. pose proof (newPartitioner_ok n g HASH Hn) as Hok.
  assert (forall i p, partitions (newPartitioner n g HASH false) !! i = Some p ->
    edgeList p = ∅ /\ Forall (eq ∅) (edgeCuts p) /\ members p = ∅) as Hnew.
  { intros i p (j & -> & _)%list_lookup_fmap_Some. split_and!; [done| |].
    - cbn. apply Forall_replicate. done.
    - apply newPartition_counted. lia. }
  constructor; [done|done|..].
  - intros x y. split; [|by intros ?%elem_of_empty]. intros (p & (E1 & E2 & _)%Hnew & Hr). exfalso.
    unfold row, getNeighbors in Hr. destruct (_ =? _)%nat.
    + rewrite E1, lookup_empty in Hr. by apply elem_of_empty in Hr.
    + destruct Hr as (c & Hc & Hr). eapply Forall_lookup_1 in E2; [|done]. subst c.
      rewrite lookup_empty in Hr. by apply elem_of_empty in Hr.
  - intros x. split; [|cbn; by intros ?%elem_of_empty]. intros (p & (_ & _ & E)%Hnew & Hr).
    rewrite E in Hr. done.
  - assert (forall l, (forall i p, l !! i = Some p -> edgeList p = ∅ /\ Forall (eq ∅) (edgeCuts p) /\ members p = ∅) ->
      total (fun p => getEdgesCount p false) l = 0 /\ total (fun p => edgeCutsCount p true) l = 0) as H.
    { intros l. induction l as [|p l IH]; intros Hl; [done|].
      destruct IH as [I1 I2]; [intros i; apply (Hl (S i))|]. destruct (Hl 0%nat p eq_refl) as (E1 & E2 & _).
      change (getEdgesCount p false + total (fun p => getEdgesCount p false) l = 0 /\
        edgeCutsCount p true + total (fun p => edgeCutsCount p true) l = 0). rewrite I1, I2.
      split; [unfold getEdgesCount, uniqueEdges; by rewrite E1|]. unfold edgeCutsCount.
      assert (foldr (fun m acc => pair_count m + acc) 0 (edgeCuts p) = 0) as ->; [|done].
      clear -E2. induction E2 as [|c cs <- _ IHc]; [done|]. cbn [foldr]. by rewrite IHc. }
    destruct (H _ Hnew) as [H1 H2]. unfold edge_halves. by rewrite H1, H2.
  - assert (forall l, (forall i p, l !! i = Some p -> edgeList p = ∅ /\ Forall (eq ∅) (edgeCuts p) /\ members p = ∅) ->
      total (fun p => Z.of_nat (size (members p))) l = 0) as H; [|exact (H _ Hnew)].
    intros l. induction l as [|p l IH]; intros Hl; [done|].
    destruct (Hl 0%nat p eq_refl) as (_ & _ & E).
    change (Z.of_nat (size (members p)) + total (fun p => Z.of_nat (size (members p))) l = 0).
    rewrite E, IH by (intros i; apply (Hl (S i))). done.
Qed.

Lemma accounts_step t t' u v es :
  accounts t es -> edge_added t t' u v -> accounts t' ((u, v) :: es).
Proof.
  intros [] []. constructor; [done|congruence|..].
  - intros x y. rewrite ea_placed0, ac_placed0. unfold edge_set.
    rewrite fmap_cons, list_to_set_cons, elem_of_union, elem_of_singleton.
    rewrite (eq_comm (ends (x, y))), ends_eq. tauto.
  - intros x. rewrite ea_resident0, ac_resident0.
    change (vertex_set ((u, v) :: es)) with ({[u; v]} ∪ vertex_set es).
    rewrite !elem_of_union, !elem_of_singleton. tauto.
  - unfold edge_set. rewrite fmap_cons, list_to_set_cons.
    assert (placed t u v <-> placed t v u) as Hsym.
    { rewrite !ac_placed0. assert (ends (u, v) = ends (v, u)) as -> by (apply ends_eq; by right). done. }
    fold (edge_set es). destruct (decide (ends (u, v) ∈ edge_set es)) as [Hin|Hin].
    + assert (placed t u v) as H1 by by apply ac_placed0.
      rewrite (ea_old0 H1 (proj1 Hsym H1)), ac_edges0.
      do 3 f_equal. symmetry. apply subseteq_union_1_L. by apply singleton_subseteq_l.
    + assert (~ placed t u v) as H1 by by rewrite ac_placed0.
      rewrite (ea_new0 H1), ac_edges0 by by rewrite <- Hsym.
      rewrite size_union by (by apply disjoint_singleton_l). rewrite size_singleton. lia.
  - rewrite (ea_vertices0 (vertex_set es)) by (intros x; by rewrite ac_resident0). rewrite ac_vertices0.
    change (vertex_set ((u, v) :: es)) with ({[u; v]} ∪ vertex_set es). lia.
Qed.

Definition stream_ok (es : list (string * string)) : Prop :=
  Forall (fun e => hash_id e.1 /\ hash_id e.2 /\ e.1 <> e.2) es.

Lemma accounts_stream pow es es0 t :
  stream_ok es -> accounts t es0 ->
  exists t', add_all pow es t = (Ret tt, t') /\ accounts t' (rev es ++ es0) /\
    partitionCount t' = partitionCount t.
Proof.
  intros He. revert es0 t. induction He as [|[u v] es (Hu & Hv & Hne) _ IH]; intros es0 t Ht.
  - by exists t.
  - destruct (hash_step t u v (ac_ok _ _ Ht) Hu Hv Hne) as (t1 & R & Ha).
    destruct (IH _ _ (accounts_step _ _ _ _ _ Ht Ha)) as (t2 & R2 & Ht2 & Hc2).
    exists t2. split_and!.
    + cbn [add_all]. rewrite (bind_Ret _ _ _ [(u, hash (partitionCount t) u); (v, hash (partitionCount t) v)] t1);
        [done|]. unfold partitioner_addEdge. erewrite bind_Ret; [|reflexivity]. by rewrite (ac_alg _ _ Ht).
    + cbn [rev]. by rewrite <- app_assoc.
    + rewrite Hc2. by destruct Ha.
Qed.

Lemma edge_set_rev es : edge_set (rev es ++ []) = edge_set es.
Proof.
  rewrite app_nil_r. unfold edge_set. apply set_eq. intros s.
  rewrite !elem_of_list_to_set, !list_elem_of_fmap. setoid_rewrite list_elem_of_In.
  setoid_rewrite <- in_rev. done.
Qed.

Lemma vertex_set_rev es : vertex_set (rev es ++ []) = vertex_set es.
Proof.
  rewrite app_nil_r. unfold vertex_set. apply set_eq. intros s. rewrite !elem_of_union_list.
  setoid_rewrite list_elem_of_fmap. setoid_rewrite list_elem_of_In. setoid_rewrite <- in_rev. done.
Qed.

(** C32. Hash partitioning of a whole stream of undirected edges, repetitions and
    both orientations included: no edge fails, an edge is recorded where the
    numbers of its ends say and nothing else is, and [updateMetaDB] reports
    the number of distinct vertices and the number of distinct edges. *)
Theorem hash_accounting pow es n g :
  0 < n < 2147483648 -> stream_ok es -> Z.of_nat (size (vertex_set es)) < 2147483648 ->
  exists t, add_all pow es (newPartitioner n g HASH false) = (Ret tt, t) /\
    (forall x y, placed t x y <-> ends (x, y) ∈ edge_set es) /\
    (updateMetaDB t).1 = Z.of_nat (size (vertex_set es)) /\
    ((updateMetaDB t).2 == inject_Z (Z.of_nat (size (edge_set es))))%Q.
Proof.
  intros Hn He Hsz.
  destruct (accounts_stream pow es [] _ He (accounts_start n g Hn)) as (t & R & Ht & _).
  exists t. destruct Ht. rewrite edge_set_rev in *. rewrite vertex_set_rev in *.
  split_and!; [done|done| |].
  - rewrite updateMetaDB_vertices; [done|done|by rewrite ac_vertices0].
  - rewrite updateMetaDB_edges by by destruct ac_ok0 as (_ & ? & _).
    rewrite ac_edges0. unfold Qeq, inject_Z. cbn. lia.
Qed.

(** The inputs hash partitioning does not handle: an end that is not a number
    throws before anything is stored, and a negative number makes a negative
    index into the vector of partitions. *)
Theorem hash_errors t u v (e : exn) (a : Z) :
  partitioner_ok t -> (stoi u = inl e -> hashPartitioning (u, v) t = (Throw e, t)) /\
  (stoi u = inr a -> -2147483648 < a < 0 -> Z.rem a (partitionCount t) <> 0 -> hash_id v ->
    hashPartitioning (u, v) t = (Undef, t)).
Proof.
  intros Ht. split.
  - intros Hx. unfold hashPartitioning, stoi_exn. cbn [fst]. by rewrite Hx.
  - intros Ha Hneg Hrem Hv. pose proof Ht as ((Hn & Hn') & _).
    destruct (hash_index (partitionCount t) v t Hn Hv) as (b & Rb & Rb').
    assert (stoi_exn (S := Partitioner) u t = (Ret a, t)) as R0 by (unfold stoi_exn; by rewrite Ha).
    unfold hashPartitioning. cbn [fst snd]. rewrite (bind_Ret _ _ _ _ _ R0).
    erewrite bind_Ret; [|reflexivity].
    set (n := partitionCount t) in *.
    assert (int_rem (S := Partitioner) a n t = (Ret (Z.rem a n), t)) as Ra.
    { unfold int_rem. destruct (Z.eqb_spec n 0); [lia|]. destruct (Z.eqb_spec n (-1)); [lia|].
      by rewrite andb_false_r. }
    rewrite (bind_Ret _ _ _ _ _ Ra), (bind_Ret _ _ _ _ _ Rb), (bind_Ret _ _ _ _ _ Rb').
    assert (Z.rem a n < 0) as Hr.
    { pose proof (Z.rem_nonpos a n ltac:(lia) ltac:(lia)). lia. }
    pose proof (hash_range n v Hn). destruct (Z.eqb_spec (Z.rem a n) (hash n v)); [lia|].
    apply bind_Undef. apply bind_Undef. unfold on_partition. by destruct (Z.ltb_spec (Z.rem a n) 0); [|lia].
Qed.

(** ** FENNEL *)

(** How a scan of the partitions ends. *)
Definition scan_ok (n : nat) (r : scan) : Prop :=
  match r with
  | BothExist i | EdgeExists i => (i < n)%nat
  | Scored fs ss => length fs = n /\ length ss = n
  end.

Lemma max_from_range best besti i l :
  (besti < i)%nat -> (max_from best besti i l < i + length l)%nat.
Proof.
  revert best besti i. induction l as [|x l IH]; intros best besti i Hb; cbn; [lia|].
  destruct (d_lt best x).
  - pose proof (IH x i (S i) ltac:(lia)). lia.
  - pose proof (IH best besti (S i) ltac:(lia)). lia.
Qed.

Lemma max_index_range l : l <> [] -> (max_index l < length l)%nat.
Proof.
  destruct l as [|x l]; [done|]. intros _. cbn. pose proof (max_from_range x 0 1 l ltac:(lia)). lia.
Qed.

Lemma fennel_loop_spec pow alpha u v i ps :
  match fennel_loop pow alpha (u, v) i ps with
  | BothExist j => (i <= j < i + length ps)%nat
  | EdgeExists j => (i <= j < i + length ps)%nat /\
      exists p, ps !! (j - i)%nat = Some p /\ (v ∈ getNeighbors p u \/ u ∈ getNeighbors p v)
  | Scored fs ss => length fs = length ps /\ length ss = length ps
  end.
Proof.
  revert i. induction ps as [|p ps IH]; intros i; [done|]. cbn [fennel_loop fst snd length].
  destruct (isExist p u && isExist p v); [lia|].
  destruct (bool_decide_reflect (v ∈ getNeighbors p u)).
  { split; [lia|]. exists p. rewrite Nat.sub_diag. auto. }
  destruct (bool_decide_reflect (u ∈ getNeighbors p v)).
  { split; [lia|]. exists p. rewrite Nat.sub_diag. auto. }
  specialize (IH (S i)). destruct (fennel_loop pow alpha (u, v) (S i) ps) as [j|j|fs ss]; cbn.
  - lia.
  - destruct IH as [Hj (q & Hq & Hn)]. split; [lia|]. exists q. split; [|done].
    replace (j - i)%nat with (S (j - S i)) by lia. done.
  - destruct IH. lia.
Qed.

(** The edge is in the neighbour sets of the partition it was assigned to. *)
Lemma fennel_store t u v i p :
  partitioner_ok t -> comma_free u -> comma_free v -> partitions t !! i = Some p ->
  partition_ok (partitionCount t) p ->
  exists t', on_partition (Z.of_nat i) (fun p => Some (addEdge p (u, v) false)) t = (Ret tt, t') /\
    partitioner_ok t' /\ partitionCount t' = partitionCount t /\
    exists p', partitions t' !! i = Some p' /\ v ∈ getNeighbors p' u /\ u ∈ getNeighbors p' v.
Proof.
  intros Ht Hu Hv Hi Hp. eexists. split.
  { apply on_partition_run with p; [lia|by rewrite Nat2Z.id|reflexivity]. }
  rewrite Nat2Z.id. split; [by apply set_partitions_ok, addEdge_ok|]. split; [done|].
  exists (addEdge p (u, v) false). split.
  - cbn. apply list_lookup_insert_eq. by eapply lookup_lt_Some.
  - rewrite !elem_of_neighbours_addEdge. auto.
Qed.

(** FENNEL, whatever the scores and the library's [pow] are: the call returns
    one partition of the cluster for both ends, and that partition then holds
    the edge in both directions. *)
Theorem fennel_places pow t u v :
  partitioner_ok t -> comma_free u -> comma_free v ->
  exists t' i, fennelPartitioning pow (u, v) t = (Ret [(u, Z.of_nat i); (v, Z.of_nat i)], t') /\
    Z.of_nat i < partitionCount t /\ partitioner_ok t' /\
    exists p, partitions t' !! i = Some p /\ v ∈ getNeighbors p u /\ u ∈ getNeighbors p v.
Proof.
  intros Ht Hu Hv. pose proof Ht as ((Hn & _) & _ & Hl & Hall).
  pose proof (fennel_loop_spec pow (fennel_alpha pow t) u v 0 (partitions t)) as Hloop.
  assert (forall i, (i < length (partitions t))%nat ->
    exists p, partitions t !! i = Some p /\ partition_ok (partitionCount t) p) as Hget.
  { intros i Hi. destruct (lookup_lt_is_Some_2 _ _ Hi) as [p Hp]. exists p. split; [done|].
    by eapply Forall_lookup_1 in Hall. }
  unfold fennelPartitioning. erewrite bind_Ret; [|reflexivity].
  destruct (fennel_loop pow (fennel_alpha pow t) (u, v) 0 (partitions t)) as [i|i|fs ss]; cbn [fst snd].
  - destruct (Hget i) as (p & Hp & Hok); [lia|].
    destruct (fennel_store t u v i p Ht Hu Hv Hp Hok) as (t' & R & Ht' & Hc & H).
    exists (count 0 1 t'), i. split_and!; [|lia|done|done].
    by rewrite (bind_Ret _ _ _ _ _ R).
  - destruct Hloop as [Hi (p & Hp & Hor)]. rewrite Nat.sub_0_r in Hp.
    exists t, i. split_and!; [done|lia|done|]. exists p. split; [done|].
    assert (partition_ok (partitionCount t) p) as (_ & Hs & _) by by eapply Forall_lookup_1 in Hall.
    destruct Hor as [H|H]; [split; [done|]|split; [|done]]; by apply Hs.
  - destruct Hloop as [Hlf Hls].
    assert (max_index fs < length (partitions t))%nat as Hmax.
    { rewrite <- Hlf. apply max_index_range. intros ->. cbn in Hlf. lia. }
    destruct (Hget _ Hmax) as (p & Hp & Hok).
    destruct (fennel_store (count 2 0 t) u v (max_index fs) p) as (t' & R & Ht' & Hc & H);
      [done|done|done|done|done|].
    exists (count 0 1 t'), (max_index fs). split_and!; [|lia|done|done].
    erewrite bind_Ret; [|reflexivity]. by rewrite (bind_Ret _ _ _ _ _ R).
Qed.

(** ** Linear deterministic greedy *)

(** An edge between two vertices that the first partition already has is
    reported as assigned and counted, but no partition stores it: the loop
    works on a copy. *)
Theorem ldg_drops_edge t u v p ps :
  partitions t = p :: ps -> counted p -> u ∈ members p -> v ∈ members p ->
  ldgPartitioning (u, v) t = (Ret [(u, 0); (v, 0)], count 0 1 t) /\
  partitions (count 0 1 t) = partitions t.
Proof.
  intros Hps [Hl _] Hu%isExist_spec Hv%isExist_spec; [|done..].
  unfold ldgPartitioning. erewrite bind_Ret; [|reflexivity]. rewrite Hps. cbn [ldg_loop fst snd].
  by rewrite Hu, Hv.
Qed.

(** ** Parsing an edge *)

Lemma digits_no_space l : all_digits l -> " "%char ∉ l.
Proof.
  intros Hl Hin. eapply Forall_forall in Hl as [d Hd]; [|done]. by destruct (digit_char _ _ Hd).
Qed.

Lemma stoi_to_string a : 0 <= a < 2147483648 -> stoi (to_string a) = inr a.
Proof.
  intros Ha. unfold stoi. destruct (to_string_parse a) as [_ ->]; [lia|].
  destruct (Z.ltb_spec a 9223372036854775808); [|lia].
  destruct (Z.leb_spec (-2147483648) a), (Z.ltb_spec a 2147483648); (done || lia).
Qed.

Lemma split_pair a b :
  0 <= a -> 0 <= b ->
  _split (to_string a +:+ String " " (to_string b)) " " = [to_string a; to_string b].
Proof.
  intros Ha Hb. unfold _split. rewrite chars_app.
  destruct (to_string_digits a Ha) as [Da _]. destruct (to_string_digits b Hb) as [Db _].
  change (chars (String " " (to_string b))) with (" "%char :: chars (to_string b)).
  rewrite split_items_word, split_items_last; cbn [rev app fmap list_fmap].
  - by rewrite !string_chars.
  - by apply digits_no_space.
  - intros E. apply (to_string_nonempty b). by rewrite <- (string_chars (to_string b)), E.
  - by apply digits_no_space.
Qed.

(** [deserialize] of two non-negative numbers: the pair is returned when both are
    at most 17, the length of the literal they are added to for the log;
    otherwise the pointer leaves the literal. *)
Theorem deserialize_spec {S} (s : S) a b :
  0 <= a < 2147483648 -> 0 <= b < 2147483648 ->
  deserialize (to_string a +:+ String " " (to_string b)) s =
  (if (a <=? 17) && (b <=? 17) then Ret (a, b) else Undef, s).
Proof.
  intros Ha Hb. unfold deserialize. rewrite split_pair by lia. cbn beta zeta.
  assert (forall c, 0 <= c < 2147483648 -> stoi_exn (to_string c) s = (Ret c, s)) as R
    by (intros c Hc; unfold stoi_exn; by rewrite stoi_to_string).
  assert (forall lit c, Z.of_nat (String.length lit) = 17 -> 0 <= c ->
    literal_offset lit c s = (if c <=? 17 then Ret tt else Undef, s)) as L.
  { intros lit c Hl Hc. unfold literal_offset. rewrite Hl. destruct (Z.leb_spec 0 c); [|lia].
    by destruct (c <=? 17). }
  erewrite bind_Ret; [|reflexivity]. rewrite (bind_Ret _ _ _ _ _ (R a Ha)).
  pose proof (L "Vertext/Node 1 = " a eq_refl ltac:(lia)) as La.
  pose proof (L "Vertext/Node 2 = " b eq_refl ltac:(lia)) as Lb.
  destruct (a <=? 17); cbn [andb]; [|by apply bind_Undef].
  rewrite (bind_Ret _ _ _ _ _ La). erewrite bind_Ret; [|reflexivity].
  rewrite (bind_Ret _ _ _ _ _ (R b Hb)).
  destruct (b <=? 17); [by rewrite (bind_Ret _ _ _ _ _ Lb)|by apply bind_Undef].
Qed.
