(* ===== verification/Triangles.v ===== *)
(** * Triangles: counting the triangles of a partition

    [Triangles::countTriangles] (src/query/algorithms/triangles/
    Triangles.cpp) and its use on a native store
    ([StreamingTriangles::countTriangles]).  The order in which an
    [unordered_set] is iterated is unspecified; it is a parameter of the
    model. *)
From Stdlib Require Import ZArith Ascii String Lia.
From stdpp Require Import base tactics numbers list sorting strings gmap.
From S2P Require Import Prelude NodeBlock RelationBlock NodeRelations NodeManager.

Abbreviation adjacency := (gmap Z (gset Z)).

(** [centralStore[v]]: a missing vertex reads as the empty set. *)
Definition nbrs (centralStore : adjacency) (v : Z) : gset Z := default ∅ (centralStore !! v).

(** [a ^= b; b ^= a; a ^= b]. *)
Definition xor_swap (a b : Z) : Z * Z :=
  let a := Z.lxor a b in
  let b := Z.lxor b a in
  let a := Z.lxor a b in (a, b).

(** The three conditional swaps. *)
Definition sort3 (varOne varTwo varThree : Z) : Z * Z * Z :=
  let '(varOne, varTwo) := if varTwo <? varOne then xor_swap varOne varTwo else (varOne, varTwo) in
  let '(varOne, varThree) :=
    if varThree <? varOne then xor_swap varOne varThree else (varOne, varThree) in
  let '(varTwo, varThree) :=
    if varThree <? varTwo then xor_swap varTwo varThree else (varTwo, varThree) in
  (varOne, varTwo, varThree).

(** [triangleTree] and what has been written to [triangleStream]. *)
Abbreviation tree := (gmap Z (gmap Z (gset Z))).

Record found := mkFound {
  triangleTree : tree;
  triangleCount : Z;
  triangleStream : list (Z * Z * Z)
}.

(** [unordered_map::operator[]] on the two levels of the tree. *)
Definition tree_insert (t : tree) (a b c : Z) : tree :=
  let row := default ∅ (t !! a) in
  <[a := <[b := {[c]} ∪ default ∅ (row !! b)]> row]> t.

(** A triangle is counted when the tree does not have it yet. *)
Definition record_triangle (f : found) (a b c : Z) : found :=
  let itemRes := default ∅ (triangleTree f !! a) in
  match itemRes !! b with
  | Some set2 =>
      if decide (c ∈ set2) then f
      else mkFound (tree_insert (triangleTree f) a b c) (triangleCount f + 1)
             (triangleStream f ++ [(a, b, c)])
  | None => mkFound (tree_insert (triangleTree f) a b c) (triangleCount f + 1)
              (triangleStream f ++ [(a, b, c)])
  end.

(** [degreeMap]: the vertices by degree, those of degree one left out. *)
Definition degree_map (distributionMap : gmap Z Z) : gmap Z (gset Z) :=
  foldr (fun e acc =>
    if e.2 =? 1 then acc
    else <[e.2 := {[e.1]} ∪ default ∅ (acc !! e.2)]> acc) ∅ (map_to_list distributionMap).

(** A [std::map] and a [std::set] are iterated in ascending order. *)
Definition ascending (X : gset Z) : list Z := merge_sort (Z.le) (elements X).
Definition scan_order (degreeMap : gmap Z (gset Z)) : list Z :=
  d ← ascending (dom degreeMap); ascending (default ∅ (degreeMap !! d)).

Record TriangleResult := mkResult { triangles : string; count : option Z }.

(** [triangleStream << one << "," << two << "," << three << ":"]. *)
Fixpoint render (l : list (Z * Z * Z)) : string :=
  match l with
  | [] => ""
  | (a, b, c) :: l' =>
      show_long a +:+ ("," +:+ (show_long b +:+ ("," +:+ (show_long c +:+ (":" +:+ render l')))))
  end.

Section count.
Context (iter : gset Z -> list Z).

(** The innermost loop body. *)
Definition visit (A : adjacency) (temp u : Z) (f : found) (nu : Z) : found :=
  if temp =? nu then f
  else if u =? nu then f
  else if bool_decide (nu ∈ nbrs A temp) || bool_decide (temp ∈ nbrs A nu) then
    let '(a, b, c) := sort3 temp u nu in record_triangle f a b c
  else f.

Definition visit_neighbour (A : adjacency) (temp : Z) (f : found) (u : Z) : found :=
  if temp =? u then f else foldl (visit A temp u) f (iter (nbrs A u)).

Definition visit_vertex (A : adjacency) (f : found) (temp : Z) : found :=
  foldl (visit_neighbour A temp) f (iter (nbrs A temp)).

Definition search_triangles (A : adjacency) (distributionMap : gmap Z Z) : found :=
  foldl (visit_vertex A) (mkFound ∅ 0 []) (scan_order (degree_map distributionMap)).

(** [Triangles::countTriangles]; with [returnTriangles] the count stays
    uninitialised. *)
Definition countTriangles (A : adjacency) (distributionMap : gmap Z Z) (returnTriangles : bool)
  : TriangleResult :=
  let f := search_triangles A distributionMap in
  if returnTriangles then
    let triangle := render (triangleStream f) in
    if decide (triangle = "") then mkResult "NILL" None
    else mkResult (String.substring 0 (String.length triangle - 1) triangle) None
  else mkResult "" (Some (triangleCount f)).

(** [StreamingTriangles::countTriangles]; [ids1] and [ids2] are the orders
    in which the two calls iterate over the index. *)
Definition streaming_countTriangles {HM : HostMemory} (returnTriangles : bool)
    (ids1 ids2 : list string) : M manager TriangleResult :=
  adjacencyList ← getAdjacencyList ids1;
  distributionMap ← getDistributionMap ids2;
  mret (countTriangles adjacencyList distributionMap returnTriangles).
End count.
