(* ===== verification/StreamingTriangles.v ===== *)
(** * StreamingTriangles: triangle counts of a growing graph

    [StreamingTriangles] (src/query/algorithms/triangles/
    StreamingTriangles.{h,cpp}) counts the triangles of a partition, of the
    central edges of several partitions, and - the dynamic variants - those
    that the edges stored since the last call have closed.  The two static
    adjacency lists of the class are the state of the dynamic variants.  The
    threads only read shared data, or write an element of their own, and are
    joined at once: they are run in turn. *)
From Stdlib Require Import ZArith Ascii String Lia SpecFloat.
From stdpp Require Import base tactics numbers list strings gmap.
From S2P Require Import Prelude FStream PropertyLinks NodeBlock RelationBlock NodeRelations NodeManager.
From S2P Require Import Partition Triangles.

Record NativeStoreTriangleResult := mkNative {
  localRelationCount : Z;
  centralRelationCount : Z;
  result : Z
}.

(** [adjacencyList[u].insert(v)]. *)
Definition adj_insert (u v : Z) (A : adjacency) : adjacency :=
  <[u := {[v]} ∪ default ∅ (A !! u)]> A.

(** ** Counting common neighbours *)

(** [std::map::at]. *)
Definition map_at {S} (g : adjacency) (v : Z) : M S (gset Z) :=
  match g !! v with Some ns => mret ns | None => throw out_of_range end.

(** [StreamingTriangles::count]; [g2.at(v)] is evaluated once per neighbour. *)
Fixpoint count_edges {S} (g1 g2 : adjacency) (edges : list (Z * Z)) (total_count : Z) : M S Z :=
  match edges with
  | [] => mret total_count
  | (u, v) :: edges' =>
      ws ← map_at g1 u;
      count ← (if decide (ws = ∅) then mret 0
               else ns ← map_at g2 v; mret (Z.of_nat (size (filter (fun w => w ∈ ns) ws))));
      count_edges g1 g2 edges' (total_count + count)
  end.
Definition streaming_count {S} (g1 g2 : adjacency) (edges : list (Z * Z)) : M S Z :=
  count_edges g1 g2 edges 0.

(** The conversion of a [double] to a [long] truncates; undefined outside of
    the range. *)
Definition to_long {S} (d : double) : M S Z :=
  match d with
  | S754_zero _ => mret 0
  | S754_finite s m e =>
      let v := if 0 <=? e then Zpos m * 2 ^ e else Zpos m / 2 ^ (- e) in
      let v := if s then - v else v in
      if (-9223372036854775808 <=? v) && (v <=? 9223372036854775807) then mret v else undef
  | _ => undef
  end.

(** [return 0.5 * x] in a function that returns [long]: exact for the
    integers that a [double] represents. *)
Definition half_to_long {S} (x : Z) : M S Z :=
  if Z.abs x <=? 9007199254740992 then mret (Z.quot x 2)
  else to_long (d_mul (d_div (to_double 1) (to_double 2)) (to_double x)).

(** [StreamingTriangles::totalCount]. *)
Definition totalCount {S} (g1 g2 : adjacency) (edges : list (Z * Z)) : M S Z :=
  s1 ← in_thread (streaming_count g1 g1 edges);
  s2 ← in_thread (streaming_count g1 g2 edges);
  s3 ← in_thread (streaming_count g2 g2 edges);
  half_to_long ((s1 - s2) + Z.quot s3 3).

(** ** The edges of the relation files *)

(** [dbSize(..) / blockSize - 1] with [int] operands. *)
Definition int_relation_count (k : kind) (m : manager) : Z :=
  Z.quot (dbSize (fs_data (rel_file k (dbs m)))) (BLOCK_SIZE k) - 1.

(** The same with an [unsigned long] block size, stored in a [long]. *)
Definition long_relation_count (k : kind) (m : manager) : Z :=
  s64 (u64 (dbSize (fs_data (rel_file k (dbs m)))) / BLOCK_SIZE k - 1).

Section streaming.
Context {HM : HostMemory}.

(** One edge of a file: [std::stol(relationBlock->getSource()->id)] and the
    destination; a null block is dereferenced. *)
Definition edge_at (k : kind) (i : Z) : M store (Z * Z) :=
  r ← getRelation k (u32 (i * BLOCK_SIZE k));
  r ← determinate r;
  sn ← determinate (getSource r);
  sourceNode ← stol_exn (id sn);
  dn ← determinate (getDestination r);
  targetNode ← stol_exn (id dn);
  mret (sourceNode, targetNode).

(** The insertions of one edge into an adjacency list. *)
Definition adj_link (e : Z * Z) (A : adjacency) : adjacency :=
  adj_insert e.2 e.1 (adj_insert e.1 e.2 A).

(** Both orientations, as they are pushed onto [edges]. *)
Definition both_ways (es : list (Z * Z)) : list (Z * Z) := e ← es; [e; (e.2, e.1)].

(** The bounds of [for (int i = old + 1; i <= new; i++)]. *)
Definition first_block (oldCount : Z) : Z := s32 (oldCount + 1).
Definition blocks_left (oldCount newCount : Z) : nat := Z.to_nat (newCount - first_block oldCount + 1).

(** ** One partition *)

(** [StreamingTriangles::countLocalStreamingTriangles]. *)
Definition countLocalStreamingTriangles (iter : gset Z -> list Z) (ids1 ids2 : list string)
  : M manager NativeStoreTriangleResult :=
  r ← streaming_countTriangles iter false ids1 ids2;
  triangleCount ← determinate (count r);
  m ← get_state;
  mret (mkNative (long_relation_count Local m) (long_relation_count Central m) triangleCount).

(** The partition and the static list its dynamic counts extend. *)
Record local_state := mkLocal { nm : manager; localAdjacencyList : adjacency }.

Definition on_nm {A} : M store A -> M local_state A :=
  zoom (fun s => dbs (nm s)) (fun d s => mkLocal (set_dbs d (nm s)) (localAdjacencyList s)).

(** The loop over the new blocks of one file: [edges] and [newAdjacencyList]
    are extended, and the static list with them. *)
Fixpoint scan_new (k : kind) (n : nat) (i : Z) (edges : list (Z * Z)) (newAdjacencyList : adjacency)
  : M local_state (list (Z * Z) * adjacency) :=
  match n with
  | O => mret (edges, newAdjacencyList)
  | S n' =>
      e ← on_nm (edge_at k i);
      modify (fun s => mkLocal (nm s) (adj_link e (localAdjacencyList s)));;
      scan_new k n' (i + 1) (edges ++ [e; (e.2, e.1)]) (adj_link e newAdjacencyList)
  end.

(** [StreamingTriangles::countDynamicLocalTriangles]. *)
Definition countDynamicLocalTriangles (oldLocalRelationCount oldCentralRelationCount : Z)
  : M local_state NativeStoreTriangleResult :=
  s ← get_state;
  let newLocalRelationCount := int_relation_count Local (nm s) in
  let newCentralRelationCount := int_relation_count Central (nm s) in
  if (oldLocalRelationCount =? newLocalRelationCount)
     && (oldCentralRelationCount =? newCentralRelationCount)
  then mret (mkNative newLocalRelationCount newCentralRelationCount 0)
  else
    '(edges, newAdjacencyList) ←
      scan_new Local (blocks_left oldLocalRelationCount newLocalRelationCount)
        (first_block oldLocalRelationCount) [] ∅;
    '(edges, newAdjacencyList) ←
      scan_new Central (blocks_left oldCentralRelationCount newCentralRelationCount)
        (first_block oldCentralRelationCount) edges newAdjacencyList;
    s ← get_state;
    trianglesValue ← totalCount (localAdjacencyList s) newAdjacencyList edges;
    mret (mkNative newLocalRelationCount newCentralRelationCount trianglesValue).

(** ** The central edges of several partitions *)

Section central.
(** The files of the partitions by graph and partition, the configured label
    size, and the iteration order of the hash sets. *)
Context (disks : Z -> Z -> disk) (maxLabel : nat) (iter : gset Z -> list Z).

(** A manager of its own, opened in append mode and dropped afterwards. *)
Definition with_manager {S A} (graphID partitionID : Z) (c : M manager A) : M S A := fun s =>
  (match openNodeManager (mkConfig maxLabel graphID partitionID "app") (disks graphID partitionID) with
   | Ret m => (c m).1
   | Throw e => Throw e
   | Undef => Undef
   | Deadlock => Deadlock
   | Terminated => Terminated
   | OutOfFuel => OutOfFuel
   end, s).

(** [StreamingTriangles::getCentralAdjacencyList]. *)
Definition getCentralAdjacencyList {S} (graphID partitionID : Z) : M S adjacency :=
  with_manager graphID partitionID (getKindAdjacencyList false).

(** The worker threads of the static count. *)
Fixpoint central_lists {S} (graphId : string) (partitionIdList : list string) : M S (list adjacency) :=
  match partitionIdList with
  | [] => mret []
  | p :: ps =>
      A ← in_thread (g ← stoi_exn graphId; i ← stoi_exn p; getCentralAdjacencyList (u32 g) (u32 i));
      rest ← central_lists graphId ps;
      mret (A :: rest)
  end.

(** [adjacencyList[nodeId].insert(neighbors.begin(), neighbors.end())]. *)
Definition merge_lists (A B : adjacency) : adjacency := union_with (fun x y => Some (x ∪ y)) A B.

Definition degree_list (A : adjacency) : gmap Z Z := (fun ns : gset Z => Z.of_nat (size ns)) <$> A.

(** [StreamingTriangles::countCentralStoreStreamingTriangles]. *)
Definition countCentralStoreStreamingTriangles {S} (graphId : string) (partitionIdList : list string)
  : M S string :=
  adjacencyLists ← central_lists graphId partitionIdList;
  let adjacencyList := foldl merge_lists ∅ adjacencyLists in
  mret (triangles (countTriangles iter adjacencyList (degree_list adjacencyList) true)).

(** The loop of [StreamingTriangles::getEdges]. *)
Fixpoint edges_loop (n : nat) (i : Z) : M store (list (Z * Z)) :=
  match n with
  | O => mret []
  | S n' => e ← edge_at Central i; rest ← edges_loop n' (i + 1); mret (e :: (e.2, e.1) :: rest)
  end.

(** [StreamingTriangles::getEdges]. *)
Definition getEdges {S} (graphID partitionID previousCentralRelationCount : Z) : M S (list (Z * Z)) :=
  with_manager graphID partitionID
    (m ← get_state;
     let newCentralRelationCount := int_relation_count Central m in
     on_store (edges_loop (blocks_left previousCentralRelationCount newCentralRelationCount)
                 (first_block previousCentralRelationCount))).

(** The static member: an adjacency list per joined partition ids. *)
Abbreviation central_state := (gmap string adjacency).

(** [std::stol(oldCentralRelationCount[position])]; an exception while
    earlier workers are still joinable ends the process. *)
Definition old_count {S} (oldCentralRelationCount : list string) (position : nat) : M S Z :=
  c ← determinate (oldCentralRelationCount !! position);
  if decide (position = 0%nat) then stol_exn c else in_thread (stol_exn c).

(** The worker threads of the dynamic count. *)
Fixpoint central_edges {S} (graphId : string) (partitionIdList oldCentralRelationCount : list string)
    (position : nat) : M S (list (Z * Z)) :=
  match partitionIdList with
  | [] => mret []
  | p :: ps =>
      previous ← old_count oldCentralRelationCount position;
      es ← in_thread (g ← stoi_exn graphId; i ← stoi_exn p; getEdges (u32 g) (u32 i) previous);
      rest ← central_edges graphId ps oldCentralRelationCount (position + 1)%nat;
      mret (es ++ rest)
  end.

(** The triangles over an edge, one per common neighbour. *)
Definition over_edge (A : adjacency) (e : Z * Z) : list (Z * Z * Z) :=
  sort3 e.1 e.2 <$> filter (fun w => w ∈ nbrs A e.2) (iter (nbrs A e.1)).

Definition joined_ids (partitionIdList : list string) : string :=
  foldr (fun p acc => p +:+ acc) "" partitionIdList.

(** [StreamingTriangles::countDynamicCentralTriangles]. *)
Definition countDynamicCentralTriangles (graphId : string)
    (partitionIdList oldCentralRelationCount : list string) : M central_state string :=
  let joinedString := joined_ids partitionIdList in
  edges ← central_edges graphId partitionIdList oldCentralRelationCount 0;
  modify (fun c => <[joinedString := foldl (fun A e => adj_link e A) (default ∅ (c !! joinedString)) edges]> c);;
  c ← get_state;
  let adjacencyList := default ∅ (c !! joinedString) in
  let triangle := render (e ← edges; over_edge adjacencyList e) in
  mret (String.substring 0 (String.length triangle - 1) triangle).
End central.
End streaming.
