(* ===== verification/TrianglesTheory.v ===== *)
(** * TrianglesTheory: the count is the number of triangles

    The search records every triangle once, whatever the iteration order of
    the hash sets; on the adjacency list of a native store the count is the
    number of triangles of the represented graph. *)
From Stdlib Require Import ZArith Ascii String Lia.
From stdpp Require Import base tactics numbers list sorting strings gmap.
From S2P Require Import Prelude NodeBlock RelationBlock NodeRelations NodeManager.
From S2P Require Import ManagerTheory ManagerQueries Triangles.

Abbreviation triple := (Z * Z * Z)%type.

(** ** Sorting by exclusive or *)

Lemma xor_swap_swaps a b : xor_swap a b = (b, a).
Proof.
  unfold xor_swap. assert (Z.lxor b (Z.lxor a b) = a) as ->.
  { by rewrite (Z.lxor_comm a b), <- Z.lxor_assoc, Z.lxor_nilpotent, Z.lxor_0_l. }
  f_equal. by rewrite (Z.lxor_comm a b), Z.lxor_assoc, Z.lxor_nilpotent, Z.lxor_0_r.
Qed.

(** The outcome is one of the six arrangements, and it is sorted. *)
Lemma sort3_cases x y z (P : triple -> Prop) :
  (x <= y <= z -> P (x, y, z)) -> (x <= z <= y -> P (x, z, y)) ->
  (y <= x <= z -> P (y, x, z)) -> (y <= z <= x -> P (y, z, x)) ->
  (z <= x <= y -> P (z, x, y)) -> (z <= y <= x -> P (z, y, x)) -> P (sort3 x y z).
Proof.
  intros H1 H2 H3 H4 H5 H6. unfold sort3.
  destruct (Z.ltb_spec y x); rewrite ?xor_swap_swaps;
    match goal with |- context [?a <? ?b] => destruct (Z.ltb_spec a b) end; rewrite ?xor_swap_swaps;
    match goal with |- context [?a <? ?b] => destruct (Z.ltb_spec a b) end; rewrite ?xor_swap_swaps;
    first [apply H1; lia|apply H2; lia|apply H3; lia|apply H4; lia|apply H5; lia|apply H6; lia|exfalso; lia].
Qed.

Lemma sort3_sorted a b c : a < b < c -> sort3 a b c = (a, b, c).
Proof.
  intros H. unfold sort3. destruct (Z.ltb_spec b a); [lia|].
  destruct (Z.ltb_spec c a); [lia|]. by destruct (Z.ltb_spec c b); [lia|].
Qed.

(** ** What has been found *)

Definition in_tree (t : tree) (x : triple) : Prop :=
  x.2 ∈ (default ∅ (default ∅ (t !! x.1.1) !! x.1.2) : gset Z).

(** The triangles found so far, each counted and written once. *)
Definition finds (f : found) (T : gset triple) : Prop :=
  (forall x, in_tree (triangleTree f) x <-> x ∈ T) /\
  triangleCount f = Z.of_nat (size T) /\
  NoDup (triangleStream f) /\ forall x, x ∈ triangleStream f <-> x ∈ T.

Lemma in_tree_insert t a b c x : in_tree (tree_insert t a b c) x <-> in_tree t x \/ x = (a, b, c).
Proof.
  destruct x as [[i j] k]. unfold in_tree, tree_insert. cbn [fst snd].
  destruct (decide (a = i)) as [<-|Ha].
  2: { rewrite lookup_insert_ne by done. split; [by left|]. by intros [?|[=]]. }
  rewrite lookup_insert_eq. cbn [default from_option Datatypes.id].
  destruct (decide (b = j)) as [<-|Hb].
  2: { rewrite lookup_insert_ne by done. split; [by left|]. by intros [?|[=]]. }
  rewrite lookup_insert_eq. cbn [default from_option Datatypes.id].
  rewrite elem_of_union, elem_of_singleton. split; intros [H|H]; auto; [right|left]; congruence.
Qed.

Lemma record_finds f T a b c : finds f T -> finds (record_triangle f a b c) ({[(a, b, c)]} ∪ T).
Proof.
  intros (Ht & Hc & Hnd & Hs).
  assert (in_tree (triangleTree f) (a, b, c) \/ ~ in_tree (triangleTree f) (a, b, c) /\
    record_triangle f a b c = mkFound (tree_insert (triangleTree f) a b c) (triangleCount f + 1)
      (triangleStream f ++ [(a, b, c)])) as [Hin|[Hnin ->]].
  { unfold in_tree, record_triangle. cbn [fst snd].
    destruct (default ∅ (triangleTree f !! a) !! b) as [s|] eqn:E; cbn.
    - case_decide; [by left|by right].
    - right. split; [by apply not_elem_of_empty|done]. }
  - assert (record_triangle f a b c = f) as ->.
    { unfold in_tree in Hin. cbn [fst snd] in Hin. unfold record_triangle.
      destruct (default ∅ (triangleTree f !! a) !! b) as [s|]; cbn in Hin.
      - by rewrite decide_True.
      - by apply elem_of_empty in Hin. }
    assert ({[(a, b, c)]} ∪ T = T) as -> by (apply subseteq_union_1_L, singleton_subseteq_l; by apply Ht).
    done.
  - assert ((a, b, c) ∉ T) as Hn by by rewrite <- Ht.
    split_and!; cbn.
    + intros x. rewrite in_tree_insert, Ht, elem_of_union, elem_of_singleton. tauto.
    + rewrite size_union by by apply disjoint_singleton_l. rewrite size_singleton, Hc. lia.
    + apply NoDup_app. split_and!; [done| |apply NoDup_singleton].
      intros x Hx ->%list_elem_of_singleton. by apply Hn, Hs.
    + intros x. rewrite elem_of_app, list_elem_of_singleton, Hs, elem_of_union, elem_of_singleton. tauto.
Qed.

(** A step that adds the triangles in [P]. *)
Definition adds (g : found -> found) (P : triple -> Prop) : Prop :=
  forall f T, finds f T -> exists T', finds (g f) T' /\ forall x, x ∈ T' <-> x ∈ T \/ P x.

Lemma adds_none (P : triple -> Prop) : (forall x, ~ P x) -> adds (fun f => f) P.
Proof. intros HP f T Hf. exists T. split; [done|]. intros x. specialize (HP x). tauto. Qed.

Lemma adds_foldl {B} (g : found -> B -> found) (P : B -> triple -> Prop) l :
  (forall y, y ∈ l -> adds (fun f => g f y) (P y)) ->
  adds (fun f => foldl g f l) (fun x => exists y, y ∈ l /\ P y x).
Proof.
  induction l as [|y l IH]; intros Hg f T Hf.
  - exists T. split; [done|]. intros x. split; [by left|].
    by intros [?|(y & ?%not_elem_of_nil & _)].
  - destruct (Hg y ltac:(left) f T Hf) as (T1 & Hf1 & H1). cbn [foldl].
    destruct (IH ltac:(intros z Hz; apply Hg; by right) (g f y) T1 Hf1) as (T2 & Hf2 & H2).
    exists T2. split; [done|]. intros x. rewrite H2, H1. split.
    + intros [[?|?]|(z & Hz & ?)]; [by left|right; exists y|right; exists z]; split; try done.
      * left.
      * by right.
    + intros [?|(z & [->|Hz]%elem_of_cons & ?)]; [by do 2 left|by left; right|right; eauto].
Qed.

Section search.
Context (iter : gset Z -> list Z) (Hiter : forall X, iter X ≡ₚ elements X).
Context (A : adjacency).

Lemma elem_of_iter X v : v ∈ iter X <-> v ∈ X.
Proof. by rewrite Hiter, elem_of_elements. Qed.

(** The triples the loops arrive at from the vertex [temp]. *)
Definition closes temp u nu : Prop :=
  temp <> u /\ temp <> nu /\ u <> nu /\ u ∈ nbrs A temp /\ nu ∈ nbrs A u /\
  (nu ∈ nbrs A temp \/ temp ∈ nbrs A nu).

Lemma visit_adds temp u nu :
  adds (fun f => visit A temp u f nu)
    (fun x => temp <> nu /\ u <> nu /\ (nu ∈ nbrs A temp \/ temp ∈ nbrs A nu) /\ x = sort3 temp u nu).
Proof.
  unfold visit. destruct (Z.eqb_spec temp nu); [apply adds_none; tauto|].
  destruct (Z.eqb_spec u nu); [apply adds_none; tauto|].
  destruct (bool_decide (nu ∈ nbrs A temp) || bool_decide (temp ∈ nbrs A nu)) eqn:E.
  - rewrite orb_true_iff, !bool_decide_eq_true in E. destruct (sort3 temp u nu) as [[a b] c].
    intros f T Hf. eexists. split; [by apply record_finds|]. intros x.
    rewrite elem_of_union, elem_of_singleton. tauto.
  - rewrite orb_false_iff, !bool_decide_eq_false in E. apply adds_none. tauto.
Qed.

Lemma visit_vertex_adds temp :
  adds (fun f => visit_vertex iter A f temp)
    (fun x => exists u nu, closes temp u nu /\ x = sort3 temp u nu).
Proof.
  intros f T Hf. unfold visit_vertex.
  destruct (adds_foldl (visit_neighbour iter A temp)
    (fun u x => temp <> u /\ exists nu, nu ∈ iter (nbrs A u) /\ temp <> nu /\ u <> nu /\
      (nu ∈ nbrs A temp \/ temp ∈ nbrs A nu) /\ x = sort3 temp u nu)
    (iter (nbrs A temp))) with (f := f) (T := T) as (T' & Hf' & HT'); [|done|].
  { intros u _. unfold visit_neighbour. destruct (Z.eqb_spec temp u); [apply adds_none; tauto|].
    intros f0 T0 Hf0. destruct (adds_foldl (visit A temp u) _ (iter (nbrs A u))
      (fun nu _ => visit_adds temp u nu) f0 T0 Hf0) as (T1 & Hf1 & H1).
    exists T1. split; [done|]. intros x. rewrite H1. split; [intros [?|?]; auto|intros [?|[_ ?]]; auto]. }
  exists T'. split; [done|]. intros x. rewrite HT'. unfold closes. setoid_rewrite elem_of_iter. split.
  - intros [?|(u & Hu & Hne & nu & Hnu & H1 & H2 & H3 & ->)]; [by left|]. right. exists u, nu. tauto.
  - intros [?|(u & nu & (H1 & H2 & H3 & H4 & H5 & H6) & ->)]; [by left|right].
    exists u. split; [done|]. split; [done|]. exists nu. tauto.
Qed.

(** The vertices the scan starts from. *)
Lemma elem_of_degree_map dist d v :
  v ∈ (default ∅ (degree_map dist !! d) : gset Z) <-> dist !! v = Some d /\ d <> 1.
Proof.
  rewrite <- elem_of_map_to_list. unfold degree_map.
  induction (map_to_list dist) as [|[w e] l IH]; cbn [foldr].
  - rewrite lookup_empty. cbn. rewrite elem_of_empty, elem_of_nil. tauto.
  - cbn [fst snd]. rewrite elem_of_cons. destruct (Z.eqb_spec e 1) as [->|He].
    + rewrite IH. split; [tauto|]. intros [[[= -> ->]|?] ?]; [done|tauto].
    + destruct (decide (e = d)) as [->|Hne].
      * rewrite lookup_insert_eq. cbn [default from_option Datatypes.id].
        rewrite elem_of_union, elem_of_singleton, IH. split.
        -- intros [->|?]; tauto.
        -- intros [[[= ->]|?] ?]; tauto.
      * rewrite lookup_insert_ne, IH by done. split; [tauto|]. intros [[[=]|?] ?]; [congruence|tauto].
Qed.

Lemma elem_of_ascending X v : v ∈ ascending X <-> v ∈ X.
Proof. unfold ascending. by rewrite merge_sort_Permutation, elem_of_elements. Qed.

Lemma elem_of_scan_order dist v :
  v ∈ scan_order (degree_map dist) <-> exists d, dist !! v = Some d /\ d <> 1.
Proof.
  unfold scan_order. rewrite list_elem_of_bind. split.
  - intros (d & Hv & _). exists d. by rewrite elem_of_ascending, elem_of_degree_map in Hv.
  - intros (d & Hd). exists d. rewrite !elem_of_ascending, elem_of_degree_map. split; [done|].
    apply elem_of_dom. apply elem_of_degree_map in Hd. destruct (degree_map dist !! d); [done|].
    by apply elem_of_empty in Hd.
Qed.

Lemma search_finds dist :
  exists T, finds (search_triangles iter A dist) T /\
    forall x, x ∈ T <-> exists temp u nu d,
      dist !! temp = Some d /\ d <> 1 /\ closes temp u nu /\ x = sort3 temp u nu.
Proof.
  destruct (adds_foldl (visit_vertex iter A) _ (scan_order (degree_map dist))
    (fun temp _ => visit_vertex_adds temp) (mkFound ∅ 0 []) ∅) as (T & Hf & HT).
  { split_and!; [|done|constructor|].
    - intros x. unfold in_tree. cbn. by rewrite lookup_empty.
    - intros x. by rewrite elem_of_nil, elem_of_empty. }
  exists T. split; [done|]. intros x. rewrite HT. setoid_rewrite elem_of_scan_order. split.
  - intros [?%elem_of_empty|(temp & (d & Hd & H1) & u & nu & Hc & ->)]; [done|]. exists temp, u, nu, d. auto.
  - intros (temp & u & nu & d & Hd & H1 & Hc & ->). right. exists temp. split; [by exists d|]. eauto.
Qed.

(** Undirected adjacency, and its degrees. *)
Definition undirected : Prop := forall x y, y ∈ nbrs A x -> x ∈ nbrs A y.
Definition degrees (dist : gmap Z Z) : Prop :=
  forall x, dist !! x = (fun ns : gset Z => Z.of_nat (size ns)) <$> A !! x.

Definition is_triangle (x : triple) : Prop :=
  x.1.1 < x.1.2 < x.2 /\ x.1.2 ∈ nbrs A x.1.1 /\ x.2 ∈ nbrs A x.1.2 /\ x.2 ∈ nbrs A x.1.1.

Lemma closes_triangle temp u nu : undirected -> closes temp u nu -> is_triangle (sort3 temp u nu).
Proof.
  intros Hu (H1 & H2 & H3 & H4 & H5 & H6).
  assert (nu ∈ nbrs A temp) as H7 by (destruct H6; [done|by apply Hu]).
  pose proof (Hu _ _ H4). pose proof (Hu _ _ H5). pose proof (Hu _ _ H7).
  apply sort3_cases; intros Hle; unfold is_triangle; cbn [fst snd]; split_and!; (done || lia).
Qed.

Lemma triangle_closes dist x :
  degrees dist -> is_triangle x ->
  exists d, dist !! x.1.1 = Some d /\ d <> 1 /\ closes x.1.1 x.1.2 x.2 /\ sort3 x.1.1 x.1.2 x.2 = x.
Proof.
  destruct x as [[a b] c]. unfold is_triangle. cbn [fst snd]. intros Hd (Hlt & Hab & Hbc & Hac).
  pose proof (Hd a) as Hda. unfold nbrs in Hab, Hac.
  destruct (A !! a) as [ns|] eqn:Ea; [|by apply elem_of_empty in Hab].
  cbn [default from_option Datatypes.id] in Hab, Hac. cbn in Hda.
  exists (Z.of_nat (size ns)). split_and!; [done| | |by apply sort3_sorted].
  - intros H1. assert (size ns = 1%nat) as Hs by lia. apply size_1_elem_of in Hs as [z Hz].
    assert (b = z /\ c = z) as [-> ->]; [|lia].
    rewrite Hz, !elem_of_singleton in *. done.
  - unfold closes, nbrs. rewrite Ea. cbn [default from_option Datatypes.id].
    split_and!; try lia; auto.
Qed.

Lemma count_triangles_run dist :
  undirected -> degrees dist ->
  exists T : gset triple, (forall x, x ∈ T <-> is_triangle x) /\
    countTriangles iter A dist false = mkResult "" (Some (Z.of_nat (size T))) /\
    exists l, NoDup l /\ (forall x, x ∈ l <-> x ∈ T) /\
      triangleStream (search_triangles iter A dist) = l.
Proof.
  intros Hu Hd. destruct (search_finds dist) as (T & (_ & Hc & Hnd & Hs) & HT). exists T. split_and!.
  - intros x. rewrite HT. split.
    + intros (temp & u & nu & d & _ & _ & Hcl & ->). by apply closes_triangle.
    + intros Hx. destruct (triangle_closes dist x Hd Hx) as (d & H1 & H2 & H3 & H4).
      exists x.1.1, x.1.2, x.2, d. done.
  - unfold countTriangles. by rewrite Hc.
  - eauto.
Qed.
End search.

(** ** The written triangles *)

Lemma render_last l : l <> [] -> exists s, render l = s +:+ ":".
Proof.
  induction l as [|[[a b] c] l IH]; [done|]. intros _. cbn [render]. destruct l as [|e l].
  - exists (show_long a +:+ ("," +:+ (show_long b +:+ ("," +:+ show_long c)))). cbn [render].
    by rewrite !string_app_assoc.
  - destruct (IH ltac:(done)) as [s ->].
    exists (show_long a +:+ ("," +:+ (show_long b +:+ ("," +:+ (show_long c +:+ (":" +:+ s)))))).
    by rewrite !string_app_assoc.
Qed.

(** The output of the other mode: [NILL], or the triangles without the last
    separator. *)
Lemma countTriangles_string iter A dist :
  let l := triangleStream (search_triangles iter A dist) in
  let out := triangles (countTriangles iter A dist true) in
  (l = [] -> out = "NILL") /\ (l <> [] -> out +:+ ":" = render l).
Proof.
  intros l out. unfold out, countTriangles. fold l. split.
  - intros ->. done.
  - intros Hl. destruct (render_last l Hl) as [s E]. rewrite E.
    rewrite decide_False by (by destruct s). cbn [triangles].
    rewrite length_string_app. cbn [String.length]. rewrite Nat.add_sub. by rewrite substring_app.
Qed.

(** [Triangles::countTriangles] on an undirected adjacency list with its degree
    distribution: whatever order the hash sets are iterated in, the count is
    the number of triples [a < b < c] of pairwise adjacent vertices; in the
    other mode exactly these triangles are written, each once, separated by
    colons, or [NILL] when there is none. *)
Theorem countTriangles_spec iter A dist :
  (forall X, iter X ≡ₚ elements X) -> undirected A -> degrees A dist ->
  exists T : gset triple, (forall x, x ∈ T <-> is_triangle A x) /\
    countTriangles iter A dist false = mkResult "" (Some (Z.of_nat (size T))) /\
    exists l, NoDup l /\ (forall x, x ∈ l <-> x ∈ T) /\
      (l = [] -> triangles (countTriangles iter A dist true) = "NILL") /\
      (l <> [] -> triangles (countTriangles iter A dist true) +:+ ":" = render l).
Proof.
  intros Hi Hu Hd. destruct (count_triangles_run iter Hi A dist Hu Hd) as (T & HT & Hc & l & Hnd & Hl & <-).
  exists T. split_and!; [done..|]. eexists. split_and!; [done..| |];
    by apply countTriangles_string.
Qed.

(** ** On a native store *)

Lemma elem_of_adjacent s t E : t ∈ adjacent s E <-> (s, t) ∈ E \/ (t, s) ∈ E.
Proof.
  induction E as [|[u v] E IH]; cbn [adjacent fst snd].
  - rewrite !elem_of_nil. tauto.
  - rewrite !elem_of_cons. case_decide as H1; [|case_decide as H2]; rewrite ?elem_of_cons, IH; subst;
      split; intros H; intuition congruence.
Qed.

Lemma all_adjacent_sym g s t : t ∈ all_adjacent g s -> s ∈ all_adjacent g t.
Proof. unfold all_adjacent. rewrite !elem_of_app, !elem_of_adjacent. tauto. Qed.

Lemma all_adjacent_vertices g s t :
  (forall k, edges_in (vertices g) (gedges g k)) -> t ∈ all_adjacent g s ->
  s ∈ vertices g /\ t ∈ vertices g.
Proof.
  intros HE. unfold all_adjacent. rewrite elem_of_app, !elem_of_adjacent.
  assert (forall k e, e ∈ gedges g k -> e.1 ∈ vertices g /\ e.2 ∈ vertices g) as H
    by (intros k e He; exact (proj1 (Forall_forall _ _) (HE k) e He)).
  intros [[?%H|?%H]|[?%H|?%H]]; tauto.
Qed.

(** Two vertex numbers joined by an edge of the graph. *)
Definition joined (g : graph) (x y : Z) : Prop :=
  exists s t, vid s = x /\ vid t = y /\ t ∈ all_adjacent g s.

Lemma NoDup_fmap_inj {X Y} (f : X -> Y) l x y :
  NoDup (f <$> l) -> x ∈ l -> y ∈ l -> f x = f y -> x = y.
Proof.
  induction l as [|z l IH]; [by intros _ ?%not_elem_of_nil|]. rewrite fmap_cons, NoDup_cons.
  intros [Hz Hnd] [->|Hx]%elem_of_cons [->|Hy]%elem_of_cons E; [done| | |by apply IH].
  - exfalso. apply Hz. rewrite E. by apply list_elem_of_fmap_2.
  - exfalso. apply Hz. rewrite <- E. by apply list_elem_of_fmap_2.
Qed.

Section native.
Context (g : graph) (ids : list string).
Context (Hedges : forall k, edges_in (vertices g) (gedges g k)).
Context (Hids : ids ≡ₚ vertices g) (Hnd : NoDup (vid <$> ids)).

Lemma nbrs_joined x y : y ∈ nbrs (adjacency_spec g ids) x <-> joined g x y.
Proof.
  split.
  - intros Hy. unfold nbrs in Hy. destruct (adjacency_spec g ids !! x) as [ns|] eqn:E;
      [|by apply elem_of_empty in Hy].
    unfold adjacency_spec in E. apply elem_of_list_to_map_2, list_elem_of_fmap in E as (s & [= -> ->] & Hs).
    cbn in Hy. apply elem_of_list_to_set, list_elem_of_fmap in Hy as (t & -> & Ht). by exists s, t.
  - intros (s & t & <- & <- & Ht). unfold nbrs.
    destruct (all_adjacent_vertices g s t Hedges Ht) as [Hs _].
    rewrite adjacency_spec_lookup by (done || by rewrite Hids).
    apply elem_of_list_to_set, list_elem_of_fmap. eauto.
Qed.

Lemma joined_sym x y : joined g x y -> joined g y x.
Proof. intros (s & t & H1 & H2 & H3). exists t, s. split_and!; [done..|]. by apply all_adjacent_sym. Qed.

Lemma adjacency_undirected : undirected (adjacency_spec g ids).
Proof. intros x y. rewrite !nbrs_joined. apply joined_sym. Qed.
End native.

Lemma streaming_triangles_run {HM : HostMemory} iter m g ids1 ids2 :
  (forall X, iter X ≡ₚ elements X) -> repr m g ->
  ids1 ≡ₚ vertices g -> ids2 ≡ₚ vertices g -> NoDup (vid <$> ids1) ->
  exists m' (T : gset triple),
    streaming_countTriangles iter false ids1 ids2 m = (Ret (mkResult "" (Some (Z.of_nat (size T)))), m') /\
    repr m' g /\
    forall a b c, (a, b, c) ∈ T <-> a < b < c /\ joined g a b /\ joined g b c /\ joined g a c.
Proof.
  intros Hi Hm H1 H2 Hnd. destruct Hm as [Hl (nbs & rbs & Hst)].
  pose proof (st_edges _ _ _ _ Hst) as Hed. assert (repr m g) as Hm by (split; eauto).
  destruct (getAdjacencyList_run m g ids1 Hm H1) as (m1 & R1 & Hm1).
  destruct (getAdjacencyList_run m1 g ids2 Hm1 H2) as (m2 & R2 & Hm2).
  assert (adjacency_spec g ids2 = adjacency_spec g ids1) as Eadj.
  { unfold adjacency_spec. apply list_to_map_proper; [|by rewrite H1, H2].
    rewrite <- list_fmap_compose. change (NoDup (vid <$> ids2)). by rewrite H2, <- H1. }
  set (A := adjacency_spec g ids1) in *.
  destruct (count_triangles_run iter Hi A ((fun ns : gset Z => Z.of_nat (size ns)) <$> A))
    as (T & HT & Hc & _).
  { by apply adjacency_undirected. }
  { intros x. by rewrite lookup_fmap. }
  exists m2, T. split_and!; [|done|].
  - unfold streaming_countTriangles. rewrite (bind_Ret _ _ _ _ _ R1).
    unfold getDistributionMap. erewrite bind_Ret; [|rewrite (bind_Ret _ _ _ _ _ R2); reflexivity].
    by rewrite Eadj, Hc.
  - intros a b c. rewrite HT. unfold is_triangle. cbn [fst snd].
    unfold A. by rewrite !nbrs_joined.
Qed.

(** C25. [StreamingTriangles::countTriangles] on a partition that represents a
    graph with distinct vertex numbers: it returns the number of triangles of
    the graph, over local and central edges together. *)
Theorem streaming_triangles {HM : HostMemory} iter m g ids1 ids2 :
  (forall X, iter X ≡ₚ elements X) -> repr m g ->
  ids1 ≡ₚ vertices g -> ids2 ≡ₚ vertices g -> NoDup (vid <$> ids1) ->
  exists m' (T : gset triple),
    streaming_countTriangles iter false ids1 ids2 m = (Ret (mkResult "" (Some (Z.of_nat (size T)))), m') /\
    repr m' g /\
    forall a b c, (a, b, c) ∈ T <-> a < b < c /\ joined g a b /\ joined g b c /\ joined g a c.
Proof. apply streaming_triangles_run. Qed.
