(* ===== verification/StreamingTheory.v ===== *)
(** * StreamingTheory: the dynamic triangle counts

    The three sums of [totalCount] over the new edges give the number of
    triangles that the new edges close: counted over the six arrangements of
    a triangle, one or two new edges contribute two to the difference of the
    first two sums, three new edges contribute six to the third. *)
From Stdlib Require Import ZArith Ascii String Lia.
From stdpp Require Import base tactics numbers list sorting strings gmap.
From S2P Require Import Prelude FStream PropertyLinks NodeBlock RelationBlock NodeRelations NodeManager.
From S2P Require Import GraphFiles GraphTheory ManagerTheory ManagerQueries.
From S2P Require Import Triangles StreamingTriangles TrianglesTheory.
#[local] Open Scope Z_scope.

(** ** Adding edges to an adjacency list *)

Definition adj_link_all (es : list (Z * Z)) (A : adjacency) : adjacency :=
  foldl (fun A e => adj_link e A) A es.

(** An edge of the list, in either orientation. *)
Definition edge_in (es : list (Z * Z)) (x y : Z) : Prop := (x, y) ∈ es \/ (y, x) ∈ es.

#[export] Instance edge_in_dec es x y : Decision (edge_in es x y).
Proof. unfold edge_in. apply _. Defined.

Lemma nbrs_adj_insert u v A x y :
  y ∈ nbrs (adj_insert u v A) x <-> y ∈ nbrs A x \/ (x = u /\ y = v).
Proof.
  unfold nbrs, adj_insert. destruct (decide (u = x)) as [<-|Hne].
  - rewrite lookup_insert_eq. cbn [from_option Datatypes.id]. rewrite elem_of_union, elem_of_singleton. tauto.
  - rewrite lookup_insert_ne by done. split; [by left|]. by intros [?|[? _]].
Qed.

Lemma nbrs_adj_link_all es A x y :
  y ∈ nbrs (adj_link_all es A) x <-> y ∈ nbrs A x \/ edge_in es x y.
Proof.
  revert A. unfold edge_in. induction es as [|[u v] es IH]; intros A; cbn [adj_link_all foldl].
  - rewrite !elem_of_nil. tauto.
  - fold (adj_link_all es (adj_link (u, v) A)). rewrite IH. unfold adj_link. cbn [fst snd].
    rewrite !nbrs_adj_insert, !elem_of_cons. split.
    + intros [[[?|[-> ->]]|[-> ->]]|[?|?]]; tauto.
    + intros [?|[[[= -> ->]|?]|[[= -> ->]|?]]]; tauto.
Qed.

Lemma adj_insert_some u v A x : is_Some (A !! x) \/ x = u -> is_Some (adj_insert u v A !! x).
Proof.
  unfold adj_insert. destruct (decide (u = x)) as [<-|Hne]; [by rewrite lookup_insert_eq|].
  rewrite lookup_insert_ne by done. by intros [?| ->].
Qed.

Lemma adj_link_all_some es A x :
  is_Some (A !! x) \/ (exists e, e ∈ es /\ (x = e.1 \/ x = e.2)) -> is_Some (adj_link_all es A !! x).
Proof.
  revert A. induction es as [|f es IH]; intros A; cbn [adj_link_all foldl].
  - by intros [?|(e & ?%not_elem_of_nil & _)].
  - fold (adj_link_all es (adj_link f A)). intros H. apply IH.
    destruct H as [H|(e & [->|He]%elem_of_cons & Hx)]; [left|left|right; eauto]; unfold adj_link.
    + apply adj_insert_some. left. apply adj_insert_some. by left.
    + apply adj_insert_some. destruct Hx as [->| ->]; [left; apply adj_insert_some|]; by right.
Qed.

(** ** The sums as lists of triples *)

(** The triples a sum counts: an ordered edge and a common neighbour. *)
Definition wedges (g1 g2 : adjacency) (edges : list (Z * Z)) : list triple :=
  e ← edges; (fun w => (e.1, e.2, w)) <$> elements (filter (fun w => w ∈ nbrs g2 e.2) (nbrs g1 e.1)).

Lemma elem_of_wedges g1 g2 edges u v w :
  (u, v, w) ∈ wedges g1 g2 edges <-> (u, v) ∈ edges /\ w ∈ nbrs g1 u /\ w ∈ nbrs g2 v.
Proof.
  unfold wedges. rewrite list_elem_of_bind. split.
  - intros ([u' v'] & (w' & [= -> -> ->] & Hw)%list_elem_of_fmap & He). cbn [fst snd] in Hw.
    rewrite elem_of_elements, elem_of_filter in Hw. tauto.
  - intros (He & H1 & H2). exists (u, v). split; [|done]. apply list_elem_of_fmap. exists w.
    split; [done|]. rewrite elem_of_elements, elem_of_filter. done.
Qed.

Lemma NoDup_wedges g1 g2 edges : NoDup edges -> NoDup (wedges g1 g2 edges).
Proof.
  intros Hnd. unfold wedges. apply NoDup_bind; [| |done].
  - intros e1 e2 x _ _ (w1 & -> & _)%list_elem_of_fmap (w2 & [= H1 H2] & _)%list_elem_of_fmap.
    by apply injective_projections.
  - intros e _. apply NoDup_fmap_2; [by intros ?? [= ->]|]. apply NoDup_elements.
Qed.

Lemma map_at_run {S} (g : adjacency) v ns (s : S) : g !! v = Some ns -> map_at g v s = (Ret ns, s).
Proof. intros H. unfold map_at. by rewrite H. Qed.

Lemma count_edges_run {S} (g1 g2 : adjacency) edges total (s : S) :
  (forall e, e ∈ edges -> is_Some (g1 !! e.1) /\ is_Some (g2 !! e.2)) ->
  count_edges g1 g2 edges total s = (Ret (total + Z.of_nat (length (wedges g1 g2 edges))), s).
Proof.
  revert total. induction edges as [|[u v] edges IH]; intros total H; cbn [count_edges].
  - by rewrite Z.add_0_r.
  - destruct (H (u, v)) as [[ws H1] [ns H2]]; [left|]. cbn [fst snd] in H1, H2.
    assert (length (wedges g1 g2 ((u, v) :: edges)) =
      (size (filter (fun w => w ∈ ns) ws) + length (wedges g1 g2 edges))%nat) as ->.
    { unfold wedges. cbn [mbind list_bind]. rewrite length_app, length_fmap. cbn [fst snd].
      assert (nbrs g1 u = ws /\ nbrs g2 v = ns) as [-> ->]; [|done]. unfold nbrs. by rewrite H1, H2. }
    rewrite (bind_Ret _ _ _ _ _ (map_at_run g1 u ws s H1)).
    rewrite (bind_Ret _ _ s (Z.of_nat (size (filter (fun w => w ∈ ns) ws))) s).
    + rewrite IH; [rewrite Nat2Z.inj_add; do 2 f_equal; lia|].
      intros e He. apply H. by apply elem_of_cons; right.
    + case_decide as Hws; [subst ws; by rewrite filter_empty_L, size_empty by apply _|].
      by rewrite (bind_Ret _ _ _ _ _ (map_at_run g2 v ns s H2)).
Qed.

(** ** Counting over the six arrangements of a triangle *)

Definition arrangements (t : triple) : list triple :=
  let '(a, b, c) := t in [(a, b, c); (a, c, b); (b, a, c); (b, c, a); (c, a, b); (c, b, a)].

Definition ascending3 (t : triple) : Prop := t.1.1 < t.1.2 < t.2.

Lemma arrangement_sort u v w : (u, v, w) ∈ arrangements (sort3 u v w).
Proof. apply sort3_cases; intros _; unfold arrangements; rewrite !elem_of_cons; tauto. Qed.

Lemma sort_arrangement t u v w : ascending3 t -> (u, v, w) ∈ arrangements t -> sort3 u v w = t.
Proof.
  destruct t as [[a b] c]. unfold ascending3, arrangements. cbn [fst snd].
  rewrite !elem_of_cons, elem_of_nil. intros Hlt H.
  destruct H as [[= -> -> ->]|[[= -> -> ->]|[[= -> -> ->]|[[= -> -> ->]|[[= -> -> ->]|[[= -> -> ->]|[]]]]]]];
    apply sort3_cases; intros Hle; first [done|exfalso; lia].
Qed.

Lemma NoDup_arrangements t : ascending3 t -> NoDup (arrangements t).
Proof.
  destruct t as [[a b] c]. unfold ascending3, arrangements. cbn [fst snd]. intros Hlt.
  repeat (apply NoDup_cons; split;
    [rewrite ?elem_of_cons, ?elem_of_nil; intros H; decompose [or] H; simplify_eq; lia|]).
  apply NoDup_nil_2.
Qed.

Definition sum_over (f : triple -> Z) (ts : list triple) : Z := foldr (fun t acc => f t + acc) 0 ts.

Lemma sum_over_ext f g ts : (forall t, t ∈ ts -> f t = g t) -> sum_over f ts = sum_over g ts.
Proof.
  unfold sum_over. induction ts as [|t ts IH]; intros H; [done|]. cbn [foldr]. rewrite (H t) by left.
  f_equal. apply IH. intros t' Ht'. apply H. by right.
Qed.

Lemma sum_over_linear a b f g ts :
  sum_over (fun t => a * f t + b * g t) ts = a * sum_over f ts + b * sum_over g ts.
Proof.
  unfold sum_over. induction ts as [|t ts IH]; cbn [foldr]; [lia|]. rewrite IH. lia.
Qed.

(** How many arrangements of [t] are in the list. *)
Definition arranged (Z : list triple) (t : triple) : BinNums.Z :=
  Z.of_nat (length (filter (fun x => x ∈ Z) (arrangements t))).

Lemma count_by_triangle (L ts : list triple) :
  NoDup L -> NoDup ts -> (forall t, t ∈ ts -> ascending3 t) ->
  (forall u v w, (u, v, w) ∈ L -> sort3 u v w ∈ ts) ->
  Z.of_nat (length L) = sum_over (arranged L) ts.
Proof.
  intros HL Hts Hasc Hin.
  assert (L ≡ₚ (t ← ts; filter (fun x => x ∈ L) (arrangements t))) as HP.
  { apply NoDup_Permutation; [done| |].
    - apply NoDup_bind; [|intros t Ht; by apply NoDup_filter, NoDup_arrangements, Hasc|done].
      intros t1 t2 [[u v] w] H1 H2 [_ E1]%list_elem_of_filter [_ E2]%list_elem_of_filter.
      rewrite <- (sort_arrangement t1 u v w) by auto. by apply sort_arrangement; auto.
    - intros [[u v] w]. rewrite list_elem_of_bind. split.
      + intros H. exists (sort3 u v w). split; [|by apply Hin].
        apply list_elem_of_filter. split; [done|apply arrangement_sort].
      + by intros (t & [H _]%list_elem_of_filter & _). }
  rewrite HP at 1. clear. induction ts as [|t ts IH]; [done|]. cbn [mbind list_bind sum_over foldr].
  rewrite length_app, Nat2Z.inj_add. f_equal. exact IH.
Qed.

(** ** New edges *)

Lemma elem_of_both_ways es u v : (u, v) ∈ both_ways es <-> edge_in es u v.
Proof.
  unfold both_ways, edge_in. rewrite list_elem_of_bind. split.
  - intros ([x y] & H & He). rewrite !elem_of_cons, elem_of_nil in H. cbn [fst snd] in H.
    destruct H as [[= -> ->]|[[= -> ->]|[]]]; tauto.
  - intros [H|H]; (eexists; split; [|exact H]); rewrite !elem_of_cons; tauto.
Qed.

(** The edges are distinct, as undirected edges without loops, and none is
    in the adjacency list yet. *)
Definition new_to (A : adjacency) (es : list (Z * Z)) : Prop :=
  NoDup (both_ways es) /\ forall x y, edge_in es x y -> y ∉ nbrs A x.

Definition irreflexive (A : adjacency) : Prop := forall x, x ∉ nbrs A x.

Lemma edge_in_sym es x y : edge_in es x y <-> edge_in es y x.
Proof. unfold edge_in. tauto. Qed.

Lemma both_ways_loopless es x : NoDup (both_ways es) -> ~ edge_in es x x.
Proof.
  intros Hnd H. assert ((x, x) ∈ es) as He by (unfold edge_in in H; tauto). clear H.
  induction es as [|e es IH]; [by apply not_elem_of_nil in He|].
  change (both_ways (e :: es)) with (e :: (e.2, e.1) :: both_ways es) in Hnd.
  apply NoDup_cons in Hnd as [H1 [H2 H3]%NoDup_cons].
  apply elem_of_cons in He as [<-|He]; [apply H1; by left|by apply IH].
Qed.

Section growth.
Context (L : adjacency) (es : list (Z * Z)).
Context (HLu : undirected L) (HLi : irreflexive L) (Hes : new_to L es).

#[local] Abbreviation A := (adj_link_all es L).
#[local] Abbreviation D := (adj_link_all es ∅).
#[local] Abbreviation P := (both_ways es).

Lemma nbrs_new x y : y ∈ nbrs D x <-> edge_in es x y.
Proof.
  rewrite nbrs_adj_link_all. unfold nbrs at 1. rewrite lookup_empty. cbn. split; [|by right].
  by intros [?%elem_of_empty|].
Qed.

Lemma grown_undirected : undirected A.
Proof.
  intros x y. rewrite !nbrs_adj_link_all, (edge_in_sym es y x). intros [H|H]; [left; by apply HLu|by right].
Qed.

Lemma grown_irreflexive : irreflexive A.
Proof. intros x. rewrite nbrs_adj_link_all. intros [H|H]; [by apply HLi in H|]. by apply both_ways_loopless in H; [|apply Hes]. Qed.

Definition is_new (x y : Z) : bool := bool_decide (edge_in es x y).

Lemma is_new_sym x y : is_new y x = is_new x y.
Proof. unfold is_new. by apply bool_decide_ext, edge_in_sym. Qed.

(** Three vertices adjacent to each other: which arrangements the sums count. *)
Lemma wedge_tests u v w : w ∈ nbrs A u -> w ∈ nbrs A v ->
  bool_decide ((u, v, w) ∈ wedges A A P) = is_new u v /\
  bool_decide ((u, v, w) ∈ wedges A D P) = is_new u v && is_new v w /\
  bool_decide ((u, v, w) ∈ wedges D D P) = is_new u v && is_new u w && is_new v w.
Proof.
  intros H1 H2. unfold is_new. rewrite <- !bool_decide_and.
  split_and!; apply bool_decide_ext; rewrite elem_of_wedges, elem_of_both_ways, ?nbrs_new; tauto.
Qed.

Lemma arranged_tests (Z : list triple) a b c :
  arranged Z (a, b, c) =
    Z.b2z (bool_decide ((a, b, c) ∈ Z)) + Z.b2z (bool_decide ((a, c, b) ∈ Z)) +
    Z.b2z (bool_decide ((b, a, c) ∈ Z)) + Z.b2z (bool_decide ((b, c, a) ∈ Z)) +
    Z.b2z (bool_decide ((c, a, b) ∈ Z)) + Z.b2z (bool_decide ((c, b, a) ∈ Z)).
Proof.
  assert (forall x l, Z.of_nat (length (filter (fun x => x ∈ Z) (x :: l))) =
    Z.b2z (bool_decide (x ∈ Z)) + Z.of_nat (length (filter (fun x => x ∈ Z) l))) as H.
  { intros x l. rewrite filter_cons. case_decide as E.
    - rewrite bool_decide_true by done. cbn [length Z.b2z]. lia.
    - by rewrite bool_decide_false by done. }
  unfold arranged, arrangements. rewrite !H. cbn. lia.
Qed.

(** One or two new edges, and three. *)
Definition some_new (t : triple) : Z :=
  let '(a, b, c) := t in
  Z.b2z ((is_new a b || is_new b c || is_new a c) && negb (is_new a b && is_new b c && is_new a c)).
Definition all_new (t : triple) : Z :=
  let '(a, b, c) := t in Z.b2z (is_new a b && is_new b c && is_new a c).

Lemma arranged_sums t : is_triangle A t ->
  arranged (wedges A A P) t - arranged (wedges A D P) t = 2 * some_new t /\
  arranged (wedges D D P) t = 6 * all_new t.
Proof.
  destruct t as [[a b] c]. unfold is_triangle. cbn [fst snd]. intros (_ & Hab & Hbc & Hac).
  pose proof (grown_undirected _ _ Hab) as Hba. pose proof (grown_undirected _ _ Hbc) as Hcb.
  pose proof (grown_undirected _ _ Hac) as Hca.
  destruct (wedge_tests a b c) as (E1 & E2 & E3); [done..|].
  destruct (wedge_tests a c b) as (E4 & E5 & E6); [done..|].
  destruct (wedge_tests b a c) as (E7 & E8 & E9); [done..|].
  destruct (wedge_tests b c a) as (F1 & F2 & F3); [done..|].
  destruct (wedge_tests c a b) as (F4 & F5 & F6); [done..|].
  destruct (wedge_tests c b a) as (F7 & F8 & F9); [done..|].
  rewrite !arranged_tests, E1, E2, E3, E4, E5, E6, E7, E8, E9, F1, F2, F3, F4, F5, F6, F7, F8, F9.
  rewrite !(is_new_sym a b), !(is_new_sym b c), !(is_new_sym a c). unfold some_new, all_new.
  by destruct (is_new a b), (is_new b c), (is_new a c).
Qed.

Definition any_new (t : triple) : Prop :=
  edge_in es t.1.1 t.1.2 \/ edge_in es t.1.2 t.2 \/ edge_in es t.1.1 t.2.

#[local] Instance any_new_dec t : Decision (any_new t).
Proof. unfold any_new. apply _. Defined.

(** A triangle of the grown list is old, or has a new edge. *)
Lemma triangle_old t : is_triangle A t -> is_triangle L t <-> ~ any_new t.
Proof.
  destruct t as [[a b] c]. unfold is_triangle, any_new. cbn [fst snd]. rewrite !nbrs_adj_link_all.
  destruct Hes as [_ Hd]. intros (Hlt & H). split.
  - intros (_ & H1 & H2 & H3) [E|[E|E]]; by apply Hd in E.
  - intros Hn. tauto.
Qed.

Lemma triangle_grown t : is_triangle L t -> is_triangle A t.
Proof. unfold is_triangle. rewrite !nbrs_adj_link_all. tauto. Qed.

Context (T T' : gset triple).
Context (HT : forall x, x ∈ T <-> is_triangle L x) (HT' : forall x, x ∈ T' <-> is_triangle A x).

Lemma wedges_by_triangle X Y :
  (forall x y, y ∈ nbrs X x -> y ∈ nbrs A x) -> (forall x y, y ∈ nbrs Y x -> y ∈ nbrs A x) ->
  Z.of_nat (length (wedges X Y P)) = sum_over (arranged (wedges X Y P)) (elements T').
Proof.
  intros HX HY. apply count_by_triangle.
  - apply NoDup_wedges, Hes.
  - apply NoDup_elements.
  - intros t Ht. rewrite elem_of_elements, HT' in Ht. apply Ht.
  - intros u v w. rewrite elem_of_wedges, elem_of_both_ways, elem_of_elements, HT'. intros (Huv & Hu%HX & Hv%HY).
    apply closes_triangle; [apply grown_undirected|].
    assert (v ∈ nbrs A u) as Huv' by (rewrite nbrs_adj_link_all; by right).
    pose proof grown_irreflexive as Hi.
    split_and!; try done; try (by left); intros E; rewrite E in *; by eapply Hi.
Qed.

Lemma new_triangles :
  sum_over some_new (elements T') + sum_over all_new (elements T') = Z.of_nat (size T') - Z.of_nat (size T).
Proof.
  assert (elements T' ≡ₚ elements T ++ filter any_new (elements T')) as HP.
  { apply NoDup_Permutation; [apply NoDup_elements| |].
    - apply NoDup_app. split_and!; [apply NoDup_elements| |apply NoDup_filter, NoDup_elements].
      intros t Ht [Hn _]%list_elem_of_filter. rewrite elem_of_elements, HT in Ht.
      by apply (triangle_old t (triangle_grown t Ht)) in Ht.
    - intros t. rewrite elem_of_app, list_elem_of_filter, !elem_of_elements, HT, HT'. split.
      + intros Ht. destruct (decide (any_new t)); [by right|left]. by apply triangle_old.
      + intros [Ht|[_ Ht]]; [by apply triangle_grown|done]. }
  apply Permutation_length in HP. rewrite length_app in HP. unfold size, set_size. cbn.
  rewrite HP at 1. rewrite Nat2Z.inj_add.
  enough (sum_over some_new (elements T') + sum_over all_new (elements T') =
    Z.of_nat (length (filter any_new (elements T')))) by lia. clear HP.
  induction (elements T') as [|[[a b] c] ts IH]; [done|]. rewrite filter_cons.
  cbn [sum_over foldr some_new all_new]. unfold sum_over in IH.
  assert (Z.b2z ((is_new a b || is_new b c || is_new a c) && negb (is_new a b && is_new b c && is_new a c)) +
    Z.b2z (is_new a b && is_new b c && is_new a c) = if decide (any_new (a, b, c)) then 1 else 0) as E.
  { unfold is_new. case_decide as H; unfold any_new in H; cbn [fst snd] in H; repeat case_bool_decide; tauto || done. }
  case_decide; cbn [length]; lia.
Qed.

Lemma in_thread_run {S B} (c : M S B) s b s' : c s = (Ret b, s') -> in_thread c s = (Ret b, s').
Proof. intros H. unfold in_thread. by rewrite H. Qed.

Lemma new_edge_entries e B : e ∈ P -> is_Some (adj_link_all es B !! e.1) /\ is_Some (adj_link_all es B !! e.2).
Proof.
  destruct e as [u v]. rewrite elem_of_both_ways. intros [H|H];
    (split; apply adj_link_all_some; right; (eexists; split; [exact H|]); cbn [fst snd]; tauto).
Qed.

Lemma totalCount_run {S} (s : S) : Z.of_nat (size T') <= 4503599627370496 ->
  totalCount A D P s = (Ret (Z.of_nat (size T') - Z.of_nat (size T)), s).
Proof.
  intros Hb. unfold totalCount, streaming_count.
  assert (forall X Y : adjacency, (forall e, e ∈ P -> is_Some (X !! e.1) /\ is_Some (Y !! e.2)) ->
    in_thread (count_edges X Y P 0) s = (Ret (Z.of_nat (length (wedges X Y P))), s)) as R.
  { intros X Y H. apply in_thread_run. by rewrite count_edges_run. }
  rewrite (bind_Ret _ _ _ _ _ (R A A ltac:(by intros e ?%(new_edge_entries e L)))).
  rewrite (bind_Ret _ _ _ _ _ (R A D ltac:(intros e He; split;
    [apply (new_edge_entries e L He)|apply (new_edge_entries e ∅ He)]))).
  rewrite (bind_Ret _ _ _ _ _ (R D D ltac:(by intros e ?%(new_edge_entries e ∅)))).
  assert (forall x y, y ∈ nbrs D x -> y ∈ nbrs A x) as HDA
    by (intros x y; rewrite nbrs_new, nbrs_adj_link_all; by right).
  rewrite !wedges_by_triangle by auto.
  assert (sum_over (arranged (wedges A A P)) (elements T') - sum_over (arranged (wedges A D P)) (elements T') =
    2 * sum_over some_new (elements T')) as ->.
  { rewrite <- Z.add_opp_r, <- (Z.mul_1_l (sum_over (arranged (wedges A A P)) _)).
    rewrite Z.opp_eq_mul_m1, (Z.mul_comm _ (-1)), <- sum_over_linear.
    rewrite <- (Z.add_0_r (2 * _)), <- (Z.mul_0_l (sum_over all_new (elements T'))), <- sum_over_linear.
    apply sum_over_ext. intros t Ht. rewrite elem_of_elements, HT' in Ht.
    destruct (arranged_sums t Ht). lia. }
  assert (sum_over (arranged (wedges D D P)) (elements T') = (2 * sum_over all_new (elements T')) * 3) as ->.
  { replace (_ * 3) with (6 * sum_over all_new (elements T') + 0 * sum_over some_new (elements T')) by lia.
    rewrite <- sum_over_linear. apply sum_over_ext. intros t Ht. rewrite elem_of_elements, HT' in Ht.
    destruct (arranged_sums t Ht). lia. }
  rewrite Z.quot_mul by lia. rewrite <- Z.mul_add_distr_l, new_triangles.
  assert (size T <= size T')%nat as Hle.
  { apply subseteq_size. intros t. rewrite HT, HT'. apply triangle_grown. }
  unfold half_to_long. destruct (Z.leb_spec (Z.abs (2 * (Z.of_nat (size T') - Z.of_nat (size T)))) 9007199254740992); [|lia].
  rewrite Z.mul_comm, Z.quot_mul by lia. done.
Qed.
End growth.

(** C26. [StreamingTriangles::totalCount] over the edges that were added to an
    undirected adjacency list without loops: when the edges are distinct and
    new, the three sums give the number of triangles of the grown list minus
    that of the old one. *)
Theorem totalCount_spec {S : Type} (L : adjacency) (es : list (Z * Z)) (T T' : gset triple) (s : S) :
  undirected L -> irreflexive L -> new_to L es ->
  (forall x, x ∈ T <-> is_triangle L x) -> (forall x, x ∈ T' <-> is_triangle (adj_link_all es L) x) ->
  Z.of_nat (size T') <= 4503599627370496 ->
  totalCount (adj_link_all es L) (adj_link_all es ∅) (both_ways es) s =
    (Ret (Z.of_nat (size T') - Z.of_nat (size T)), s).
Proof. intros Hu Hi Hes HT HT' Hb. by apply totalCount_run. Qed.
