(* ===== verification/StreamingStore.v ===== *)
(** * StreamingStore: the streaming counts on stored partitions

    The scans of the relation files read the edges stored since the last
    count, so that the dynamic local count of a partition is the number of
    triangles the new edges closed; the central counts over several
    partitions list triangles of the union of their central edges. *)
From Stdlib Require Import ZArith Ascii String Lia.
From stdpp Require Import base tactics numbers list sorting strings gmap.
From S2P Require Import Prelude FStream PropertyLinks NodeBlock RelationBlock NodeRelations NodeManager.
From S2P Require Import GraphFiles GraphTheory ManagerTheory ManagerQueries.
From S2P Require Import Triangles StreamingTriangles TrianglesTheory StreamingTheory.
#[local] Open Scope Z_scope.

(** The edges of a list by vertex numbers, in the order of the file. *)
Definition by_number (E : list (string * string)) : list (Z * Z) :=
  (fun e => (vid e.1, vid e.2)) <$> rev E.

Lemma by_number_app E1 E0 : by_number (E1 ++ E0) = by_number E0 ++ by_number E1.
Proof. unfold by_number. by rewrite rev_app_distr, fmap_app. Qed.

Lemma both_ways_app es1 es2 : both_ways (es1 ++ es2) = both_ways es1 ++ both_ways es2.
Proof. unfold both_ways. apply bind_app. Qed.

Lemma adj_link_all_app es1 es2 A : adj_link_all (es1 ++ es2) A = adj_link_all es2 (adj_link_all es1 A).
Proof. unfold adj_link_all. apply foldl_app. Qed.

(** What the size of a relation file says: an empty file counts as minus one. *)
Definition relation_count (E : list (string * string)) : Z :=
  match E with [] => -1 | _ => Z.of_nat (length E) end.

(** The sizes fit an [int]. *)
Definition small_files (m : manager) : Prop :=
  forall k, Z.of_nat (length (fs_data (rel_file k (dbs m)))) < 2147483648.

Lemma stored_file_length m g nbs rbs k :
  stored m g nbs rbs -> length (fs_data (rel_file k (dbs m))) =
    (match gedges g k with [] => 0 | _ => S (length (gedges g k)) end * rsize k)%nat.
Proof.
  intros Hm. pose proof (st_files _ _ _ _ Hm) as [_ Hr]. destruct (Hr k) as [[_ Hd] _].
  pose proof (st_graph _ _ _ _ Hm) as (_ & _ & Hk). destruct (Hk k) as (Hlen & _).
  rewrite (block_file_length _ _ _ Hd), Hlen. unfold numbered.
  destruct (gedges g k); [done|]. cbn [fmap list_fmap length]. by rewrite length_fmap.
Qed.

(** The graph determines the sizes of the files. *)
Lemma small_files_same m m' g : repr m g -> repr m' g -> small_files m -> small_files m'.
Proof.
  intros [_ (nbs & rbs & Hm)] [_ (nbs' & rbs' & Hm')] H k. specialize (H k).
  by rewrite (stored_file_length m g nbs rbs), <- (stored_file_length m' g nbs' rbs') in H.
Qed.

Section store.
Context {HM : HostMemory}.

Lemma relation_counts m g nbs rbs k :
  stored m g nbs rbs -> small_files m ->
  int_relation_count k m = relation_count (gedges g k) /\
  long_relation_count k m = relation_count (gedges g k) /\
  Z.of_nat (length (gedges g k)) < 2147483647.
Proof.
  intros Hm Hsz. specialize (Hsz k). unfold int_relation_count, long_relation_count, dbSize. rewrite s32_id by lia.
  rewrite (stored_file_length m g nbs rbs) in * by done.
  pose proof (BLOCK_SIZE_pos k) as Hpos. rewrite BLOCK_SIZE_rsize in *.
  set (n := match gedges g k with [] => 0%nat | _ => S (length (gedges g k)) end) in *.
  assert (u64 (Z.of_nat (n * rsize k)) = Z.of_nat (n * rsize k)) as -> by (apply Z.mod_small; lia).
  rewrite Nat2Z.inj_mul, Z.quot_mul, Z.div_mul by lia.
  assert (Z.of_nat n - 1 = relation_count (gedges g k)) as ->
    by (unfold n, relation_count; destruct (gedges g k); lia).
  assert (Z.of_nat (length (gedges g k)) < 2147483647) as Hb.
  { assert (Z.of_nat n < 2147483648) by nia. unfold n in *. destruct (gedges g k); cbn [length] in *; lia. }
  split_and!; [done| |done]. unfold s64, u64, relation_count. destruct (gedges g k) as [|e E]; [done|].
  rewrite Z.mod_small by lia. by destruct (Z.ltb_spec (Z.of_nat (length (e :: E))) 9223372036854775808); [|lia].
Qed.

Lemma edge_at_run m g nbs rbs k E1 e E0 s :
  stored m g nbs rbs -> gedges g k = E1 ++ e :: E0 -> files s nbs rbs ->
  exists s', edge_at k (Z.of_nat (S (length E0))) s = (Ret (vid e.1, vid e.2), s') /\ files s' nbs rbs.
Proof.
  intros Hm HE Hs. destruct (stored_relation_run m g nbs rbs k E1 e E0 s Hm HE Hs)
    as (s1 & r & sn & dn & R & Hs1 & Ha & Esn & Psn & Edn & Pdn).
  exists s1. split; [|done]. unfold edge_at.
  change (Z.of_nat (S (length E0)) * BLOCK_SIZE k) with (raddress k (S (length E0))). rewrite (u32_id _ Ha).
  rewrite (bind_Ret _ _ _ _ _ R). rewrite (bind_Ret _ _ _ r s1) by done.
  rewrite (bind_Ret _ _ _ sn s1) by by rewrite Esn. rewrite Psn. rewrite (bind_Ret _ _ _ (vid e.1) s1) by done.
  rewrite (bind_Ret _ _ _ dn s1) by by rewrite Edn. rewrite Pdn. by rewrite (bind_Ret _ _ _ (vid e.2) s1) by done.
Qed.

(** The loop over the new blocks of one file. *)
Lemma scan_new_run m g nbs rbs k E1 E0 es B L :
  stored m g nbs rbs -> gedges g k = E1 ++ E0 ->
  exists d, scan_new k (length E1) (Z.of_nat (S (length E0))) es B (mkLocal m L) =
    (Ret (es ++ both_ways (by_number E1), adj_link_all (by_number E1) B),
     mkLocal (set_dbs d m) (adj_link_all (by_number E1) L)) /\ files d nbs rbs.
Proof.
  revert m E0 es B L. induction E1 as [|e E1 IH] using rev_ind; intros m E0 es B L Hm HE.
  { exists (dbs m). split; [|apply (st_files _ _ _ _ Hm)]. cbn. rewrite app_nil_r. by destruct m. }
  rewrite length_app, Nat.add_comm. cbn [length Nat.add scan_new].
  rewrite <- app_assoc in HE. cbn [app] in HE.
  destruct (edge_at_run m g nbs rbs k E1 e E0 (dbs m) Hm HE (st_files _ _ _ _ Hm)) as (d & R & Hd).
  rewrite (bind_Ret _ _ (mkLocal m L) (vid e.1, vid e.2) (mkLocal (set_dbs d m) L)) by (unfold on_nm, zoom; cbn [nm]; by rewrite R).
  erewrite bind_Ret; [|reflexivity]. cbn [nm localAdjacencyList].
  destruct (IH (set_dbs d m) (e :: E0) (es ++ [(vid e.1, vid e.2); (vid e.2, vid e.1)])
    (adj_link (vid e.1, vid e.2) B) (adj_link (vid e.1, vid e.2) L)) as (d' & R' & Hd');
    [by apply stored_dbs|done|].
  exists d'. split; [|done]. cbn [length] in R'. replace (Z.of_nat (S (length E0)) + 1)
    with (Z.of_nat (S (S (length E0)))) by lia. etransitivity; [exact R'|].
  rewrite by_number_app, both_ways_app, !adj_link_all_app. rewrite <- app_assoc. done.
Qed.

(** The count of the last call: [E1] has been stored since. *)
Definition seen (E : list (string * string)) (old : Z) (E1 : list (string * string)) : Prop :=
  exists E0, E = E1 ++ E0 /\ (old = Z.of_nat (length E0) \/ E = [] /\ old = -1).

Lemma seen_all E old E1 : seen E old E1 -> old = relation_count E -> E1 = [].
Proof.
  intros (E0 & -> & [->|[HE ->]]) Hc; [|by apply app_eq_nil in HE as [-> ->]].
  unfold relation_count in Hc. destruct (E1 ++ E0) as [|e E] eqn:Eq; [lia|].
  apply (f_equal length) in Eq. rewrite length_app in Eq. cbn [length] in *.
  apply length_zero_iff_nil. lia.
Qed.

(** The blocks a scan visits, whatever it does with them. *)
Lemma seen_bounds E old E1 : Z.of_nat (length E) < 2147483647 -> seen E old E1 ->
  blocks_left old (relation_count E) = length E1 /\
  (E1 <> [] -> first_block old = Z.of_nat (S (length E) - length E1)).
Proof.
  intros Hb (E0 & -> & Hold). rewrite length_app in *. destruct Hold as [->|[HE ->]].
  - unfold blocks_left, first_block. rewrite s32_id by lia. split; [|lia]. unfold relation_count.
    destruct (E1 ++ E0) as [|e E] eqn:Eq; [apply app_eq_nil in Eq as [-> ->]; done|].
    rewrite <- Eq, length_app. lia.
  - by apply app_eq_nil in HE as [-> ->].
Qed.

Lemma edges_loop_run m g nbs rbs E1 E0 s :
  stored m g nbs rbs -> gedges g Central = E1 ++ E0 -> files s nbs rbs ->
  exists s', edges_loop (length E1) (Z.of_nat (S (length E0))) s = (Ret (both_ways (by_number E1)), s').
Proof.
  intros Hm. revert E0 s. induction E1 as [|e E1 IH] using rev_ind; intros E0 s HE Hs; [by exists s|].
  rewrite length_app, Nat.add_comm. cbn [length Nat.add edges_loop].
  rewrite <- app_assoc in HE. cbn [app] in HE.
  destruct (edge_at_run m g nbs rbs Central E1 e E0 s Hm HE Hs) as (s1 & R & Hs1).
  rewrite (bind_Ret _ _ _ _ _ R).
  destruct (IH (e :: E0) s1) as (s2 & R2); [done..|]. exists s2. cbn [length] in R2.
  replace (Z.of_nat (S (length E0)) + 1) with (Z.of_nat (S (S (length E0)))) by lia.
  rewrite (bind_Ret _ _ _ _ _ R2). by rewrite by_number_app, both_ways_app.
Qed.

Lemma scan_seen m g nbs rbs k old E1 es B L :
  stored m g nbs rbs -> Z.of_nat (length (gedges g k)) < 2147483647 -> seen (gedges g k) old E1 ->
  exists d, scan_new k (blocks_left old (relation_count (gedges g k))) (first_block old) es B (mkLocal m L) =
    (Ret (es ++ both_ways (by_number E1), adj_link_all (by_number E1) B),
     mkLocal (set_dbs d m) (adj_link_all (by_number E1) L)) /\ files d nbs rbs.
Proof.
  intros Hm Hb Hseen. destruct (seen_bounds _ _ _ Hb Hseen) as [-> Hf]. destruct Hseen as (E0 & HE & _).
  destruct E1 as [|e E1].
  - exists (dbs m). split; [|apply (st_files _ _ _ _ Hm)]. cbn. rewrite app_nil_r. by destruct m.
  - rewrite Hf by done. rewrite HE, length_app.
    replace (S (length (e :: E1) + length E0) - length (e :: E1))%nat with (S (length E0)) by lia.
    by apply (scan_new_run m g nbs rbs k (e :: E1) E0).
Qed.

Lemma edges_seen m g nbs rbs old E1 :
  stored m g nbs rbs -> Z.of_nat (length (gedges g Central)) < 2147483647 ->
  seen (gedges g Central) old E1 ->
  exists d, edges_loop (blocks_left old (relation_count (gedges g Central))) (first_block old) (dbs m) =
    (Ret (both_ways (by_number E1)), d).
Proof.
  intros Hm Hb Hseen. destruct (seen_bounds _ _ _ Hb Hseen) as [-> Hf]. destruct Hseen as (E0 & HE & _).
  destruct E1 as [|e E1]; [by exists (dbs m)|]. rewrite Hf by done. rewrite HE, length_app.
  replace (S (length (e :: E1) + length E0) - length (e :: E1))%nat with (S (length E0)) by lia.
  exact (edges_loop_run m g nbs rbs (e :: E1) E0 (dbs m) Hm HE (st_files _ _ _ _ Hm)).
Qed.

(** C8. [StreamingTriangles::countDynamicLocalTriangles] on a partition of less
    than 2 GiB per file: given the relation counts of the last call, it reads
    exactly the edges stored since, adds them to the static adjacency list
    and returns the number of triangles of the extended list minus that of
    the list before, when the list has every edge in both directions and no
    loops, and the new edges are not loops, distinct, also up to their
    direction, and not in the list.  (An edge that is stored again is counted
    again.) *)
Theorem dynamic_local_spec (m : manager) (g : graph) (L : adjacency) (oldLocal oldCentral : Z)
    (E1 C1 : list (string * string)) (T T' : gset triple) :
  repr m g -> small_files m ->
  seen (gedges g Local) oldLocal E1 -> seen (gedges g Central) oldCentral C1 ->
  let es := by_number E1 ++ by_number C1 in
  undirected L -> irreflexive L -> new_to L es ->
  (forall x, x ∈ T <-> is_triangle L x) -> (forall x, x ∈ T' <-> is_triangle (adj_link_all es L) x) ->
  Z.of_nat (size T') <= 4503599627370496 ->
  exists m', countDynamicLocalTriangles oldLocal oldCentral (mkLocal m L) =
      (Ret (mkNative (relation_count (gedges g Local)) (relation_count (gedges g Central))
              (Z.of_nat (size T') - Z.of_nat (size T))),
       mkLocal m' (adj_link_all es L)) /\ repr m' g.
Proof.
  intros [Hl (nbs & rbs & Hm)] Hsz HE HC es Hu Hi Hes HT HT' Hb.
  unfold countDynamicLocalTriangles. erewrite bind_Ret; [|reflexivity]. cbn [nm].
  destruct (relation_counts m g nbs rbs Local Hm Hsz) as (-> & _ & Hbl).
  destruct (relation_counts m g nbs rbs Central Hm Hsz) as (-> & _ & Hbc).
  destruct (_ && _) eqn:Eq.
  { apply andb_true_iff in Eq as [E%Z.eqb_eq E'%Z.eqb_eq].
    apply (seen_all _ _ _ HE) in E as ->. apply (seen_all _ _ _ HC) in E' as ->.
    assert (T' = T) as -> by (apply set_eq; intros x; by rewrite HT, HT').
    exists m. rewrite Z.sub_diag. split; [done|]. split; [done|]. eauto. }
  destruct (scan_seen m g nbs rbs Local oldLocal E1 [] ∅ L Hm Hbl HE) as (d & R & Hd).
  rewrite (bind_Ret _ _ _ _ _ R). cbn beta iota.
  destruct (scan_seen (set_dbs d m) g nbs rbs Central oldCentral C1 (both_ways (by_number E1))
    (adj_link_all (by_number E1) ∅) (adj_link_all (by_number E1) L) (stored_dbs _ _ _ _ d Hm Hd) Hbc HC)
    as (d' & R' & Hd').
  cbn [app]. rewrite (bind_Ret _ _ _ _ _ R'). cbn beta iota. erewrite bind_Ret; [|reflexivity].
  cbn [localAdjacencyList]. rewrite <- both_ways_app, <- !adj_link_all_app. fold es.
  rewrite (bind_Ret _ _ _ _ _ (totalCount_run L es Hu Hi Hes T T' HT HT' _ Hb)).
  eexists. split; [done|]. split; [done|]. exists nbs, rbs.
  exact (stored_dbs _ _ _ _ d' (stored_dbs _ _ _ _ d Hm Hd) Hd').
Qed.

(** A count of minus one makes the scan start at block 0, which is no relation. *)
Lemma scan_from_hole k n es B s :
  (scan_new k (S n) 0 es B s).1 = Undef.
Proof. by destruct k. Qed.

(** The static count of a partition without local edges reports minus one
    local relations; once a local edge was stored, a dynamic count that is
    given this number dereferences a null relation block. *)
Theorem static_then_dynamic (iter : gset Z -> list Z) (m : manager) (g : graph) (ids1 ids2 : list string)
    (m2 : manager) (g2 : graph) (L : adjacency) (oldCentral : Z) :
  (forall X, iter X ≡ₚ elements X) -> repr m g -> small_files m ->
  ids1 ≡ₚ vertices g -> ids2 ≡ₚ vertices g -> NoDup (vid <$> ids1) -> gedges g Local = [] ->
  repr m2 g2 -> small_files m2 -> gedges g2 Local <> [] ->
  exists r m1, countLocalStreamingTriangles iter ids1 ids2 m = (Ret r, m1) /\
    localRelationCount r = -1 /\ centralRelationCount r = relation_count (gedges g Central) /\
    (countDynamicLocalTriangles (localRelationCount r) oldCentral (mkLocal m2 L)).1 = Undef.
Proof.
  intros Hi Hm Hsz H1 H2 Hnd Hno [Hl2 (nbs2 & rbs2 & Hm2)] Hsz2 Hne.
  destruct (streaming_triangles_run iter m g ids1 ids2 Hi Hm H1 H2 Hnd) as (m1 & T & R & Hm1 & _).
  pose proof (small_files_same m m1 g Hm Hm1 Hsz) as Hsz1. destruct Hm1 as [_ (nbs1 & rbs1 & Hst1)].
  destruct (relation_counts m1 g nbs1 rbs1 Local Hst1 Hsz1) as (_ & El & _).
  destruct (relation_counts m1 g nbs1 rbs1 Central Hst1 Hsz1) as (_ & Ec & _).
  exists (mkNative (-1) (relation_count (gedges g Central)) (Z.of_nat (size T))), m1. split_and!; [|done|done|].
  - unfold countLocalStreamingTriangles. rewrite (bind_Ret _ _ _ _ _ R). cbn [count].
    erewrite bind_Ret; [|reflexivity]. erewrite bind_Ret; [|reflexivity]. by rewrite El, Ec, Hno.
  - cbn [localRelationCount]. unfold countDynamicLocalTriangles. erewrite bind_Ret; [|reflexivity].
    cbn [nm]. destruct (relation_counts m2 g2 nbs2 rbs2 Local Hm2 Hsz2) as (-> & _ & Hb).
    assert (0 < relation_count (gedges g2 Local)) as Hpos
      by (unfold relation_count; destruct (gedges g2 Local); cbn [length]; [done|lia]).
    destruct (Z.eqb_spec (-1) (relation_count (gedges g2 Local))); [lia|]. cbn [andb].
    assert (exists n, blocks_left (-1) (relation_count (gedges g2 Local)) = S n) as [n0 ->].
    { unfold blocks_left. change (first_block (-1)) with 0.
      exists (Z.to_nat (relation_count (gedges g2 Local))). lia. }
    pose proof (scan_from_hole Local n0 [] ∅ (mkLocal m2 L)) as Hu.
    destruct (scan_new Local (S n0) (first_block (-1)) [] ∅ (mkLocal m2 L)) as [o s'] eqn:E.
    change (first_block (-1)) with 0 in E. rewrite E in Hu. cbn in Hu. subst o.
    by erewrite bind_Undef.
Qed.
End store.

(** ** Several partitions *)

(** [y] is the destination of a central edge from [x] in one of the graphs. *)
Definition arc (gs : list graph) (x y : Z) : Prop :=
  exists g e, g ∈ gs /\ e ∈ gedges g Central /\ vid e.1 = x /\ vid e.2 = y.

Lemma nbrs_merge_lists A B x y :
  y ∈ nbrs (merge_lists A B) x <-> y ∈ nbrs A x \/ y ∈ nbrs B x.
Proof.
  unfold nbrs, merge_lists. rewrite lookup_union_with.
  destruct (A !! x), (B !! x); cbn; rewrite ?elem_of_union, ?elem_of_empty; tauto.
Qed.

Lemma nbrs_merge_all As A x y :
  y ∈ nbrs (foldl merge_lists A As) x <-> y ∈ nbrs A x \/ exists B, B ∈ As /\ y ∈ nbrs B x.
Proof.
  revert A. induction As as [|B As IH]; intros A; cbn [foldl].
  - split; [by left|]. intros [?|(B & ?%not_elem_of_nil & _)]; done.
  - rewrite IH, nbrs_merge_lists. split.
    + intros [[?|?]|(B' & ? & ?)]; [by left|right; exists B; split; [left|done]|].
      right. exists B'. split; [by right|done].
    + intros [?|(B' & [->|?]%elem_of_cons & ?)]; [by left; left|by left; right|right; eauto].
Qed.

Section partitions.
Context {HM : HostMemory} (disks : Z -> Z -> disk) (maxLabel : nat) (iter : gset Z -> list Z).

(** The files of partition [p] of graph [graphId] hold a partition that
    represents [g]. *)
Definition holds (graphId p : string) (g : graph) : Prop :=
  exists gi i m, stoi graphId = inr gi /\ stoi p = inr i /\
    openNodeManager (mkConfig maxLabel (u32 gi) (u32 i) "app") (disks (u32 gi) (u32 i)) = Ret m /\
    repr m g /\ small_files m.

Lemma with_manager_run {S B} gi i m (c : M manager B) o m' (s : S) :
  openNodeManager (mkConfig maxLabel gi i "app") (disks gi i) = Ret m -> c m = (o, m') ->
  with_manager disks maxLabel gi i c s = (o, s).
Proof. intros Ho Hc. unfold with_manager. by rewrite Ho, Hc. Qed.

(** A worker thread: the two numbers are parsed, then the files are read. *)
Lemma worker_run {S B} graphId p gi i (f : Z -> Z -> M S B) b (s : S) :
  stoi graphId = inr gi -> stoi p = inr i -> f gi i s = (Ret b, s) ->
  in_thread (g ← stoi_exn graphId; j ← stoi_exn p; f g j) s = (Ret b, s).
Proof.
  intros H1 H2 H3. apply in_thread_run. unfold stoi_exn. rewrite H1, H2.
  erewrite bind_Ret; [|reflexivity]. erewrite bind_Ret; [|reflexivity]. done.
Qed.

Lemma central_lists_run {S} graphId ps gs (s : S) :
  Forall2 (holds graphId) ps gs ->
  exists As, central_lists disks maxLabel graphId ps s = (Ret As, s) /\
    Forall2 (fun A g => forall x y, y ∈ nbrs A x <-> arc [g] x y) As gs.
Proof.
  induction 1 as [|p g ps gs (gi & i & m & Hg & Hp & Ho & Hr & Hsz) _ (As & R & HAs)];
    [by exists []|].
  destruct (getKindAdjacencyList_run m g false Hr (Hsz Central)) as (m' & A & RA & _ & HA).
  exists (A :: As). split.
  - cbn [central_lists].
    rewrite (bind_Ret _ _ s A s); [by rewrite (bind_Ret _ _ _ _ _ R)|].
    apply (worker_run graphId p gi i (fun g i => getCentralAdjacencyList disks maxLabel (u32 g) (u32 i)));
      [done..|]. by apply (with_manager_run _ _ m _ _ m').
  - constructor; [|done]. intros x y. unfold nbrs. rewrite HA. split.
    + intros (e & He & H1 & H2). exists g, e. split; [left|done].
    + intros (g' & e & ->%list_elem_of_singleton & He). by exists e.
Qed.

Lemma merged_arcs As gs x y :
  Forall2 (fun A g => forall x y, y ∈ nbrs A x <-> arc [g] x y) As gs ->
  y ∈ nbrs (foldl merge_lists ∅ As) x <-> arc gs x y.
Proof.
  intros H. rewrite nbrs_merge_all. unfold nbrs at 1. rewrite lookup_empty. cbn.
  assert (arc gs x y <-> exists B, B ∈ As /\ y ∈ nbrs B x) as ->; [|split; [by intros [?%elem_of_empty|]|by right]].
  induction H as [|A g As gs HA _ IH].
  - split; [by intros (? & ? & ?%not_elem_of_nil & _)|by intros (? & ?%not_elem_of_nil & _)].
  - split.
    + intros (g' & e & [->|Hg]%elem_of_cons & He).
      * exists A. split; [left|]. apply HA. exists g, e. split; [left|done].
      * destruct (proj1 IH) as (B & HB & Hy); [by exists g', e|]. exists B. split; [by right|done].
    + intros (B & [->|HB]%elem_of_cons & Hy).
      * apply HA in Hy as (g' & e & ->%list_elem_of_singleton & He). exists g, e. split; [left|done].
      * destruct (proj2 IH) as (g' & e & Hg & He); [by exists B|]. exists g', e. split; [by right|done].
Qed.

(** A set with the element [u] has another element unless its size is one. *)
Lemma size_not_one (X : gset Z) u : u ∈ X -> Z.of_nat (size X) <> 1 <-> exists u', u' <> u /\ u' ∈ X.
Proof.
  intros Hu. split.
  - intros Hs. destruct (set_choose_or_empty (X ∖ {[u]})) as [[u' Hu']|Hn].
    + exists u'. set_solver.
    + exfalso. apply Hs. assert (X = {[u]}) as ->; [|by rewrite size_singleton].
      apply set_eq. intros z. specialize (Hn z). destruct (decide (z = u)); set_solver.
  - intros (u' & Hne & Hu') Hs. assert (size X = 1%nat) as [z Hz]%size_1_elem_of by lia. set_solver.
Qed.

Lemma nbrs_some (A : adjacency) x y : y ∈ nbrs A x -> A !! x = Some (nbrs A x).
Proof. unfold nbrs. destruct (A !! x); [done|by intros ?%elem_of_empty]. Qed.

(** Three distinct vertices with arcs [x -> y -> z], closed by [x -> z], or by
    [z -> x] when [x] has a further outgoing arc. *)
Definition oriented (gs : list graph) (x y z : Z) : Prop :=
  x <> y /\ x <> z /\ y <> z /\ arc gs x y /\ arc gs y z /\
  (arc gs x z \/ arc gs z x /\ exists u, u <> y /\ arc gs x u).

(** The triangles the search finds in an adjacency list of arcs. *)
Lemma search_arcs gs (A : adjacency) :
  (forall X, iter X ≡ₚ elements X) -> (forall x y, y ∈ nbrs A x <-> arc gs x y) ->
  exists l, triangleStream (search_triangles iter A (degree_list A)) = l /\ NoDup l /\
    forall t, t ∈ l <-> exists x y z, t = sort3 x y z /\ oriented gs x y z.
Proof.
  intros Hi HA. destruct (search_finds iter Hi A (degree_list A)) as (T & (_ & _ & Hnd & Hs) & HT).
  eexists. split_and!; [done|done|]. intros t. rewrite Hs, HT. split.
  - intros (x & y & z & d & Hd & Hd1 & (N1 & N2 & N3 & Hxy & Hyz & Hc) & ->). exists x, y, z. split; [done|].
    unfold degree_list in Hd. rewrite lookup_fmap, (nbrs_some _ _ _ Hxy) in Hd. cbn in Hd. injection Hd as <-.
    destruct (proj1 (size_not_one _ _ Hxy) Hd1) as (u & Hu & Hxu).
    rewrite HA in Hxy, Hyz, Hxu. rewrite !HA in Hc. split_and!; [done..|].
    destruct Hc as [?|?]; [by left|right; eauto].
  - intros (x & y & z & -> & N1 & N2 & N3 & Hxy & Hyz & Hc). rewrite <- !HA in Hxy, Hyz.
    exists x, y, z, (Z.of_nat (size (nbrs A x))). split_and!; [| | |done].
    + unfold degree_list. by rewrite lookup_fmap, (nbrs_some _ _ _ Hxy).
    + apply (size_not_one _ y Hxy). destruct Hc as [Hxz|(_ & u & Hu & Hxu)]; [exists z|exists u]; by rewrite HA.
    + split_and!; [done..|]. rewrite !HA. tauto.
Qed.

Lemma central_triangles_run {S : Type} (graphId : string) (ps : list string) (gs : list graph) (s : S) :
  (forall X, iter X ≡ₚ elements X) -> Forall2 (holds graphId) ps gs ->
  exists out l, countCentralStoreStreamingTriangles disks maxLabel iter graphId ps s = (Ret out, s) /\
    (l = [] -> out = "NILL") /\ (l <> [] -> out +:+ ":" = render l) /\ NoDup l /\
    forall t, t ∈ l <-> exists x y z, t = sort3 x y z /\ oriented gs x y z.
Proof.
  intros Hi Hh. destruct (central_lists_run graphId ps gs s Hh) as (As & R & HAs).
  destruct (search_arcs gs (foldl merge_lists ∅ As) Hi (fun x y => merged_arcs As gs x y HAs)) as (l & <- & Hnd & Hl).
  eexists _, _. split_and!.
  - unfold countCentralStoreStreamingTriangles. rewrite (bind_Ret _ _ _ _ _ R). done.
  - apply countTriangles_string.
  - apply countTriangles_string.
  - exact Hnd.
  - exact Hl.
Qed.

(** [StreamingTriangles::countCentralStoreStreamingTriangles] over the
    stored partitions of a graph lists, each once, exactly the triangles of
    their central edges that have a transitive orientation, or a cyclic one
    with a vertex of further outgoing edges; it prints [NILL] for none. *)
Theorem central_triangles_spec {S : Type} (graphId : string) (ps : list string) (gs : list graph) (s : S) :
  (forall X, iter X ≡ₚ elements X) -> Forall2 (holds graphId) ps gs ->
  exists out l, countCentralStoreStreamingTriangles disks maxLabel iter graphId ps s = (Ret out, s) /\
    (l = [] -> out = "NILL") /\ (l <> [] -> out +:+ ":" = render l) /\ NoDup l /\
    forall t, t ∈ l <-> exists x y z, t = sort3 x y z /\ oriented gs x y z.
Proof. apply central_triangles_run. Qed.

(** When every vertex has at most one outgoing central edge - a triangle
    stored as [a -> b], [b -> c], [c -> a], for one - the count finds nothing. *)
Theorem central_cycles_missed {S : Type} (graphId : string) (ps : list string) (gs : list graph) (s : S) :
  (forall X, iter X ≡ₚ elements X) -> Forall2 (holds graphId) ps gs ->
  (forall x y z, arc gs x y -> arc gs x z -> y = z) ->
  countCentralStoreStreamingTriangles disks maxLabel iter graphId ps s = (Ret "NILL", s).
Proof.
  intros Hi Hh Hone. destruct (central_triangles_run graphId ps gs s Hi Hh) as (out & l & R & Hn & _ & _ & Hl).
  rewrite R, Hn; [done|]. destruct l as [|t l]; [done|]. exfalso.
  destruct (proj1 (Hl t)) as (x & y & z & _ & N1 & N2 & N3 & Hxy & _ & Hc); [left|].
  destruct Hc as [Hxz|(_ & u & Hu & Hxu)]; [by apply N3, (Hone x)|by apply Hu, (Hone x)].
Qed.

(** Partition [p] holds a graph whose central edges [C1] were stored after
    the count [c]. *)
Definition grown (graphId p c : string) (C1 : list (string * string)) : Prop :=
  exists g old, holds graphId p g /\ stol c = inr old /\ seen (gedges g Central) old C1.

Lemma old_count_run {S : Type} (pre : list string) c cs old (s : S) :
  stol c = inr old -> old_count (pre ++ c :: cs) (length pre) s = (Ret old, s).
Proof.
  intros H. unfold old_count. rewrite list_lookup_middle by done. erewrite bind_Ret; [|reflexivity].
  unfold stol_exn. rewrite H. by case_decide.
Qed.

Lemma central_edges_run {S : Type} graphId ps cs Cs pre (s : S) :
  Forall3 (grown graphId) ps cs Cs ->
  central_edges disks maxLabel graphId ps (pre ++ cs) (length pre) s =
    (Ret (both_ways (concat (by_number <$> Cs))), s).
Proof.
  intros H. revert pre. induction H as [|p c C1 ps cs Cs Hg _ IH]; intros pre; [done|].
  destruct Hg as (g & old & (gi & i & m & Hgi & Hp & Ho & Hr & Hsz) & Hc & Hseen).
  destruct Hr as [_ (nbs & rbs & Hm)]. destruct (relation_counts m g nbs rbs Central Hm Hsz) as (Ec & _ & Hb).
  destruct (edges_seen m g nbs rbs old C1 Hm Hb Hseen) as (d & R). cbn [central_edges].
  rewrite (bind_Ret _ _ _ _ _ (old_count_run pre c cs old s Hc)).
  rewrite (bind_Ret _ _ s (both_ways (by_number C1)) s).
  - specialize (IH (pre ++ [c])). rewrite <- app_assoc, length_app in IH. cbn [app length] in IH.
    rewrite (bind_Ret _ _ _ _ _ IH). cbn [fmap list_fmap concat]. by rewrite both_ways_app.
  - apply (worker_run graphId p gi i (fun g i => getEdges disks maxLabel (u32 g) (u32 i) old)); [done..|].
    apply (with_manager_run _ _ m _ _ (set_dbs d m)); [done|]. erewrite bind_Ret; [|reflexivity].
    rewrite Ec. by apply zoom_run.
Qed.

Lemma edge_in_both_ways es x y : edge_in (both_ways es) x y <-> edge_in es x y.
Proof. unfold edge_in at 1. rewrite !elem_of_both_ways, (edge_in_sym es y x). tauto. Qed.

Lemma any_new_sort es u v w : edge_in es u v -> any_new es (sort3 u v w).
Proof.
  intros H. pose proof (proj1 (edge_in_sym _ _ _) H).
  apply sort3_cases; intros _; unfold any_new; cbn [fst snd]; tauto.
Qed.

(** The triples written for the new edges. *)
Lemma elem_of_over es (A : adjacency) t :
  (forall X, iter X ≡ₚ elements X) -> undirected A -> irreflexive A ->
  (forall x y, edge_in es x y -> y ∈ nbrs A x) ->
  t ∈ (e ← both_ways es; over_edge iter A e) <-> is_triangle A t /\ any_new es t.
Proof.
  intros Hi Hu Hir Hsub. rewrite list_elem_of_bind. split.
  - intros ([u v] & (w & -> & [Hv Hw]%list_elem_of_filter)%list_elem_of_fmap & Huv). cbn [fst snd] in *.
    rewrite elem_of_both_ways in Huv. rewrite Hi, elem_of_elements in Hw.
    pose proof (Hsub _ _ Huv). split; [|by apply any_new_sort].
    apply closes_triangle; [done|]. split_and!; try done; try (by left); intros E; rewrite E in *; by eapply Hir.
  - destruct t as [[a b] c]. intros [(Hlt & Hab & Hbc & Hac) Hn]. cbn [fst snd] in *.
    assert (forall u v w, edge_in es u v -> w ∈ nbrs A u -> w ∈ nbrs A v -> (u, v, w) ∈ arrangements (a, b, c) ->
      exists e, (a, b, c) ∈ over_edge iter A e /\ e ∈ both_ways es) as Hw.
    { intros u v w Huv Hwu Hwv Harr. exists (u, v). rewrite elem_of_both_ways. split; [|done].
      apply list_elem_of_fmap. exists w. split; [symmetry; by apply sort_arrangement|].
      apply list_elem_of_filter. split; [done|]. by rewrite Hi, elem_of_elements. }
    destruct Hn as [H|[H|H]]; cbn [fst snd] in H;
      [apply (Hw a b c)|apply (Hw b c a)|apply (Hw a c b)]; auto; unfold arrangements;
      rewrite !elem_of_cons; tauto.
Qed.

Lemma render_cut l :
  let out := String.substring 0 (String.length (render l) - 1) (render l) in
  (l = [] -> out = "") /\ (l <> [] -> out +:+ ":" = render l).
Proof.
  intros out. split; [by intros ->|]. intros Hl. unfold out. destruct (render_last l Hl) as [r ->].
  rewrite length_string_app. cbn [String.length]. by rewrite Nat.add_sub, substring_app.
Qed.

(** [StreamingTriangles::countDynamicCentralTriangles]: given the relation
    counts of the last call, it adds the central edges stored since, in all
    partitions, to the adjacency list kept under the joined partition ids,
    and prints exactly the triangles of that list that have a new edge. *)
Theorem dynamic_central_spec (graphId : string) (ps cs : list string) (Cs : list (list (string * string)))
    (c : gmap string adjacency) :
  let L := default ∅ (c !! joined_ids ps) in
  let es := concat (by_number <$> Cs) in
  (forall X, iter X ≡ₚ elements X) -> Forall3 (grown graphId) ps cs Cs ->
  undirected L -> irreflexive L -> (forall x, ~ edge_in es x x) ->
  exists A out l, countDynamicCentralTriangles disks maxLabel iter graphId ps cs c =
      (Ret out, <[joined_ids ps := A]> c) /\
    (forall x y, y ∈ nbrs A x <-> y ∈ nbrs L x \/ edge_in es x y) /\
    (l = [] -> out = "") /\ (l <> [] -> out +:+ ":" = render l) /\
    forall t, t ∈ l <-> is_triangle A t /\ any_new es t.
Proof.
  intros L es Hi Hg Hu Hir Hloop.
  assert (forall x y, y ∈ nbrs (adj_link_all (both_ways es) L) x <-> y ∈ nbrs L x \/ edge_in es x y) as HA
    by (intros x y; by rewrite nbrs_adj_link_all, edge_in_both_ways).
  exists (adj_link_all (both_ways es) L). do 2 eexists. split_and!; [|exact HA| | |].
  - unfold countDynamicCentralTriangles.
    rewrite (bind_Ret _ _ _ _ _ (central_edges_run graphId ps cs Cs [] c Hg)).
    erewrite bind_Ret; [|reflexivity]. erewrite bind_Ret; [|reflexivity].
    rewrite lookup_insert_eq. cbn [from_option Datatypes.id]. reflexivity.
  - apply render_cut.
  - apply render_cut.
  - intros t. apply elem_of_over; [done| | |].
    + intros x y. rewrite !HA, (edge_in_sym es y x). intros [H|H]; [left; by apply Hu|by right].
    + intros x. rewrite HA. intros [H|H]; [by apply Hir in H|by apply Hloop in H].
    + intros x y H. rewrite HA. by right.
Qed.
End partitions.
