(* ===== verification/HashMapStores.v ===== *)
(** * HashMapStores: the in-memory stores of a static partition

    [JasmineGraphHashMapLocalStore] (src/localstore/),
    [JasmineGraphHashMapCentralStore] and
    [JasmineGraphHashMapDuplicateCentralStore] (src/centralstore/).  The three
    classes keep a [map<long, unordered_set<long>>] with a vertex and an edge
    counter and load it from a FlatBuffers file; what they share is written
    once over [hstore].  FlatBuffers is a library with generated accessors:
    its writers and readers are the class [FlatBuffers], with the round trip
    of a well-formed table as its law. *)
From Stdlib Require Import ZArith Ascii String Lia Sorting.Sorted.
From stdpp Require Import base tactics numbers list sorting strings gmap.
From S2P Require Import Prelude Triangles.

Definition is_i32 (z : Z) : Prop := -2147483648 <= z < 2147483648.
Definition is_i64 (z : Z) : Prop := -9223372036854775808 <= z < 9223372036854775808.

(** The buffers of the three schemas.  A reader applied to other bytes
    follows offsets out of the buffer: [None]. *)
Class FlatBuffers := {
  part_write : list (Z * list Z) -> list ascii;
  part_read : list ascii -> option (list (Z * list Z));
  part_read_write es :
    StronglySorted Z.lt (fst <$> es) -> Forall (fun e => is_i32 e.1 /\ Forall is_i32 e.2) es ->
    part_read (part_write es) = Some es;
  edge_write : list (Z * list Z) -> list ascii;
  attr_write : list (Z * list string) -> list ascii;
  attr_read : list ascii -> option (list (Z * list string));
  attr_read_write es :
    StronglySorted Z.lt (fst <$> es) -> Forall (fun e => is_i64 e.1) es ->
    attr_read (attr_write es) = Some es
}.

(** The files of a host, by path. *)
Abbreviation files := (gmap string (list ascii)).

(** The entries of a [std::map] in the order of its keys. *)
Definition entries {A} (m : gmap Z A) : list (Z * A) :=
  omap (fun k => pair k <$> m !! k) (ascending (dom m)).

Record hstore := mkHstore {
  hs_graphId : Z;
  hs_partitionId : Z;
  instanceDataFolderLocation : string;
  subGraphMap : adjacency;
  hs_vertexCount : Z;
  hs_edgeCount : Z
}.

Definition set_subGraphMap (g : adjacency) (s : hstore) : hstore :=
  mkHstore (hs_graphId s) (hs_partitionId s) (instanceDataFolderLocation s) g
    (hs_vertexCount s) (hs_edgeCount s).
Definition set_vertexCount (n : Z) (s : hstore) : hstore :=
  mkHstore (hs_graphId s) (hs_partitionId s) (instanceDataFolderLocation s) (subGraphMap s)
    n (hs_edgeCount s).
Definition set_edgeCount (n : Z) (s : hstore) : hstore :=
  mkHstore (hs_graphId s) (hs_partitionId s) (instanceDataFolderLocation s) (subGraphMap s)
    (hs_vertexCount s) n.

Definition getFileSeparator : string := "/".

(** ** Counters, degrees and edges *)

Definition sum_sizes (g : adjacency) : Z :=
  foldl (fun acc e => acc + Z.of_nat (size (e.2 : gset Z))) 0 (entries g).

(** [getEdgeCount]: a count that is not 0 is not computed again. *)
Definition getEdgeCount : M hstore Z :=
  s ← get_state;
  (if hs_edgeCount s =? 0 then modify (set_edgeCount (0 + sum_sizes (subGraphMap s))) else mret tt);;
  s ← get_state;
  mret (hs_edgeCount s).

Definition getVertexCount : M hstore Z :=
  s ← get_state;
  (if hs_vertexCount s =? 0 then modify (set_vertexCount (Z.of_nat (size (subGraphMap s))))
   else mret tt);;
  s ← get_state;
  mret (hs_vertexCount s).

Definition getVertexSet (s : hstore) : gset Z :=
  foldl (fun acc e => {[e.1]} ∪ acc) (∅ : gset Z) (entries (subGraphMap s)).

Definition getUnderlyingHashMap (s : hstore) : adjacency := subGraphMap s.

(** [getOutDegreeDistributionHashMap], also a function of the service. *)
Definition out_degrees (g : adjacency) : gmap Z Z :=
  foldl (fun acc e => <[e.1 := Z.of_nat (size (e.2 : gset Z))]> acc) ∅ (entries g).
Definition getOutDegreeDistributionHashMap (s : hstore) : gmap Z Z := out_degrees (subGraphMap s).

Section degrees.
(** The order in which an [unordered_set] is iterated. *)
Context (iter : gset Z -> list Z).

Definition bump (acc : gmap Z Z) (v : Z) : gmap Z Z :=
  match acc !! v with Some previousValue => <[v := previousValue + 1]> acc | None => <[v := 1]> acc end.

Definition getInDegreeDistributionHashMap (s : hstore) : gmap Z Z :=
  foldl (fun acc e => foldl bump acc (iter e.2)) ∅ (entries (subGraphMap s)).
End degrees.

(** [addEdge]: nothing happens when the start vertex is not in the map. *)
Definition hs_addEdge (startVid endVid : Z) : M hstore unit :=
  s ← get_state;
  match subGraphMap s !! startVid with
  | Some neighbours => modify (set_subGraphMap (<[startVid := {[endVid]} ∪ neighbours]> (subGraphMap s)))
  | None => mret tt
  end.

(** ** Files *)

Section files.
Context {FB : FlatBuffers}.

(** [seekg(0, end); int length = tellg(); new char[length]; read]. *)
Definition read_buffer {S} (data : list ascii) : M S (list ascii) :=
  let length := s32 (Z.of_nat (length data)) in
  if length <? 0 then throw bad_alloc else mret (take (Z.to_nat length) data).

(** [toLocalSubGraphMap]. *)
Definition toLocalSubGraphMap (es : list (Z * list Z)) (g : adjacency) : adjacency :=
  foldl (fun g e => <[e.1 := list_to_set e.2]> g) g es.

(** [loadGraph] of a path. *)
Definition loadGraph_path (fs : files) (edgeStorePath : string) : M hstore bool :=
  match fs !! edgeStorePath with
  | None => mret false
  | Some dbFile =>
      data ← read_buffer dbFile;
      edgeStoreData ← determinate (part_read data);
      modify (fun s => set_subGraphMap (toLocalSubGraphMap edgeStoreData (subGraphMap s)) s);;
      modify (fun s => set_vertexCount (Z.of_nat (size (subGraphMap s))) s);;
      n ← getEdgeCount;
      modify (set_edgeCount n);;
      mret true
  end.

(** [flatbuffers::SaveFile] into a file that can be created and written; one
    that cannot is not modelled. *)
Definition SaveFile (path : string) (data : list ascii) (fs : files) : bool * files := (true, <[path := data]> fs).

(** [storePartEdgeMap]: the loop over the map, the buffer, and [SaveFile], whose
    result is ignored. *)
Definition storePartEdgeMap (edgeMap : gmap Z (list Z)) (savePath : string) (fs : files) : bool * files :=
  let edgeStoreEntriesVector := foldl (fun v e => v ++ [(e.1, e.2)]) [] (entries edgeMap) in
  let '(_, fs) := SaveFile savePath (part_write edgeStoreEntriesVector) fs in
  (true, fs).

(** The bytes [storeGraph] writes: an edge store of [long]s. *)
Definition storeGraph_path (iter : gset Z -> list Z) (path : string) (s : hstore) (fs : files)
  : bool * files :=
  (true, <[path := edge_write ((fun e => (e.1, iter e.2)) <$> entries (subGraphMap s))]> fs).

(** *** [JasmineGraphHashMapLocalStore] *)

Record LocalStore := mkLocalStore {
  base : hstore;
  localAttributeMap : gmap Z (list string);
  edgeMap : gmap Z (list Z)
}.

Definition on_base {A} : M hstore A -> M LocalStore A :=
  zoom base (fun b s => mkLocalStore b (localAttributeMap s) (edgeMap s)).

(** The constructor; it leaves the counters as they are in memory. *)
Definition newLocalStore (graphid partitionid : Z) (folderLocation : string)
    (vertexCount edgeCount : Z) : LocalStore :=
  mkLocalStore (mkHstore graphid partitionid folderLocation ∅ vertexCount edgeCount) ∅ ∅.

Definition EDGE_STORE_NAME : string := "jasminegraph.edgestore.db".
Definition ATTRIBUTE_STORE_NAME : string := "jasminegraph.attributestore".

Definition local_path (s : hstore) : string :=
  instanceDataFolderLocation s +:+ getFileSeparator +:+ show_long (hs_graphId s) +:+ "_" +:+
    show_long (hs_partitionId s).

Definition local_loadGraph (fs : files) : M LocalStore bool :=
  on_base (s ← get_state; loadGraph_path fs (local_path s)).

Definition local_storeGraph (iter : gset Z -> list Z) (s : LocalStore) (fs : files) : bool * files :=
  storeGraph_path iter (instanceDataFolderLocation (base s) +:+ getFileSeparator +:+ EDGE_STORE_NAME)
    (base s) fs.

(** [storeAttributes], [toLocalAttributeMap], [loadAttributes]. *)
Definition storeAttributes (attributeMap : gmap Z (list string)) (storePath : string) (fs : files)
  : bool * files :=
  (true, <[storePath := attr_write (entries attributeMap)]> fs).

Definition toLocalAttributeMap (es : list (Z * list string)) (m : gmap Z (list string))
  : gmap Z (list string) :=
  foldl (fun m e => <[e.1 := (fun s => string_of_list_ascii (c_str s)) <$> e.2]> m) m es.

Definition loadAttributes (fs : files) : M LocalStore bool :=
  s ← get_state;
  match fs !! (instanceDataFolderLocation (base s) +:+ getFileSeparator +:+ ATTRIBUTE_STORE_NAME) with
  | None => mret false
  | Some dbFile =>
      data ← read_buffer dbFile;
      attributeStoreData ← determinate (attr_read data);
      modify (fun s => mkLocalStore (base s)
        (toLocalAttributeMap attributeStoreData (localAttributeMap s)) (edgeMap s));;
      mret true
  end.

Definition getAttributeHashMap (fs : files) : M LocalStore (gmap Z (list string)) :=
  loadAttributes fs;; s ← get_state; mret (localAttributeMap s).

(** [toLocalEdgeMap], [loadPartEdgeMap], [getEdgeHashMap]. *)
Definition toLocalEdgeMap (es : list (Z * list Z)) (m : gmap Z (list Z)) : gmap Z (list Z) :=
  foldl (fun m e => <[e.1 := e.2]> m) m es.

Definition loadPartEdgeMap (fs : files) (filePath : string) : M LocalStore bool :=
  match fs !! filePath with
  | None => mret false
  | Some dbFile =>
      data ← read_buffer dbFile;
      edgeMapStoreData ← determinate (part_read data);
      modify (fun s => mkLocalStore (base s) (localAttributeMap s)
        (toLocalEdgeMap edgeMapStoreData (edgeMap s)));;
      mret true
  end.

Definition getEdgeHashMap (fs : files) (filePath : string) : M LocalStore (gmap Z (list Z)) :=
  loadPartEdgeMap fs filePath;; s ← get_state; mret (edgeMap s).

(** *** The two central stores *)

(** The constructor with the ids; the folder is a configuration property. *)
Definition newCentralStore (graphId partitionId : Z) (folder : string) : hstore :=
  mkHstore graphId partitionId folder ∅ 0 0.

Definition central_file (name : string) (s : hstore) : string :=
  show_long (hs_graphId s) +:+ name +:+ show_long (hs_partitionId s).
Definition CENTRAL : string := "_centralstore_".
Definition DUPLICATE : string := "_centralstore_dp_".

Definition loadGraph_named (name : string) (fs : files) : M hstore bool :=
  s ← get_state;
  loadGraph_path fs (instanceDataFolderLocation s +:+ getFileSeparator +:+ central_file name s).

(** [storeGraph]; the path has two separators, which name the same file. *)
Definition storeGraph_named (name : string) (iter : gset Z -> list Z) (s : hstore) (fs : files)
  : bool * files :=
  storeGraph_path iter (instanceDataFolderLocation s +:+ getFileSeparator +:+ central_file name s) s fs.

Definition central_loadGraph := loadGraph_named CENTRAL.
Definition central_storeGraph := storeGraph_named CENTRAL.
Definition duplicate_loadGraph := loadGraph_named DUPLICATE.
Definition duplicate_storeGraph := storeGraph_named DUPLICATE.
End files.
