(* ===== verification/HashMapTheory.v ===== *)
(** * HashMapTheory: what the in-memory stores hold

    The order of [std::map] entries, the round trips of the partition files,
    what the degree maps count. *)
From Stdlib Require Import ZArith Ascii String Lia Sorting.Sorted.
From stdpp Require Import base tactics numbers list sorting strings gmap fin_maps.
From S2P Require Import Prelude Triangles TrianglesTheory HashMapStores.

(** ** The entries of a map *)

Lemma ascending_perm X : ascending X ≡ₚ elements X.
Proof. apply merge_sort_Permutation. Qed.

Lemma ascending_sorted X : StronglySorted Z.lt (ascending X).
Proof.
  assert (StronglySorted Z.le (ascending X)) as Hs by (apply StronglySorted_merge_sort; [apply _..]).
  assert (NoDup (ascending X)) as Hnd by (rewrite ascending_perm; apply NoDup_elements).
  induction Hs as [|x l Hs IH Hx]; constructor; rewrite NoDup_cons in Hnd; destruct Hnd as [Hn Hnd].
  - by apply IH.
  - rewrite Forall_forall in Hx |- *. intros y Hy. specialize (Hx y Hy).
    assert (x <> y) by (by intros ->). lia.
Qed.

Lemma elem_of_entries {A} (m : gmap Z A) k a : (k, a) ∈ entries m <-> m !! k = Some a.
Proof.
  unfold entries. rewrite list_elem_of_omap. split.
  - intros (i & _ & Hi). apply fmap_Some in Hi as (x & Hx & [= -> ->]). done.
  - intros H. exists k. rewrite H, elem_of_ascending, elem_of_dom. by split; [exists a|].
Qed.

Lemma entries_keys {A} (m : gmap Z A) : fst <$> entries m = ascending (dom m).
Proof.
  unfold entries. assert (forall k, k ∈ ascending (dom m) -> is_Some (m !! k)) as H.
  { intros k. by rewrite elem_of_ascending, elem_of_dom. }
  induction (ascending (dom m)) as [|k l IH]; [done|]. cbn [omap list_omap].
  destruct (H k ltac:(left)) as [a ->]. cbn. f_equal. apply IH. intros i Hi. apply H. by right.
Qed.

Lemma entries_nodup {A} (m : gmap Z A) : NoDup (fst <$> entries m).
Proof. rewrite entries_keys, ascending_perm. apply NoDup_elements. Qed.

Lemma entries_perm {A} (m : gmap Z A) : entries m ≡ₚ map_to_list m.
Proof.
  apply NoDup_Permutation.
  - eapply NoDup_fmap_1, entries_nodup.
  - apply NoDup_map_to_list.
  - intros [k a]. by rewrite elem_of_entries, elem_of_map_to_list.
Qed.

Lemma entries_to_map {A} (m : gmap Z A) : list_to_map (entries m) = m.
Proof.
  rewrite (list_to_map_proper (entries m) (map_to_list m)); [apply list_to_map_to_list| |apply entries_perm].
  apply entries_nodup.
Qed.

(** Entering the entries of a list one after the other. *)
Lemma foldl_insert {A B} (f : A -> B) (l : list (Z * A)) (g : gmap Z B) :
  NoDup (fst <$> l) ->
  foldl (fun g e => <[e.1 := f e.2]> g) g l = (f <$> (list_to_map l : gmap Z A)) ∪ g.
Proof.
  revert g. induction l as [|[k a] l IH]; intros g Hnd; cbn [foldl fst snd].
  - cbn. by rewrite fmap_empty, (left_id_L ∅ (∪)).
  - rewrite fmap_cons, NoDup_cons in Hnd. destruct Hnd as [Hk Hnd]. rewrite IH by done. cbn [list_to_map foldr].
    rewrite fmap_insert, <- insert_union_l, insert_union_r; [done|].
    rewrite lookup_fmap, not_elem_of_list_to_map_1 by done. done.
Qed.

Lemma foldl_entries {A B} (f : A -> B) (m : gmap Z A) g :
  foldl (fun g e => <[e.1 := f e.2]> g) g (entries m) = (f <$> m) ∪ g.
Proof. by rewrite foldl_insert, entries_to_map by apply entries_nodup. Qed.

Lemma sum_perm {A} (f : A -> Z) (l1 l2 : list A) (z : Z) :
  l1 ≡ₚ l2 -> foldl (fun acc x => acc + f x) z l1 = foldl (fun acc x => acc + f x) z l2.
Proof.
  intros H. revert z. induction H as [|x l l' _ IH|x y l|l1 l2 l3 _ IH1 _ IH2]; intros z; cbn; [done|done| |].
  - f_equal. lia.
  - by rewrite IH1, IH2.
Qed.

(** ** Round trips *)

Definition i32_map (m : gmap Z (list Z)) : Prop :=
  map_Forall (fun k l => is_i32 k /\ Forall is_i32 l) m.

Lemma part_entries {FB : FlatBuffers} m : i32_map m -> part_read (part_write (entries m)) = Some (entries m).
Proof.
  intros H. apply part_read_write.
  - rewrite entries_keys. apply ascending_sorted.
  - apply Forall_forall. intros [k l] Hl%elem_of_entries. exact (H k l Hl).
Qed.

(** The loop collects the entries. *)
Lemma stored_part {FB : FlatBuffers} m path fs : storePartEdgeMap m path fs = (true, <[path := part_write (entries m)]> fs).
Proof.
  assert (forall (es acc : list (Z * list Z)), foldl (fun v e => v ++ [(e.1, e.2)]) acc es = acc ++ es) as H.
  { induction es as [|[k l] es IH]; intros acc; cbn; [by rewrite app_nil_r|]. by rewrite IH, <- app_assoc. }
  unfold storePartEdgeMap, SaveFile. by rewrite H.
Qed.

Lemma read_buffer_small {S} (data : list ascii) (s : S) :
  Z.of_nat (length data) < 2147483648 -> read_buffer data s = (Ret data, s).
Proof.
  intros H. unfold read_buffer. rewrite s32_id by lia.
  destruct (Z.ltb_spec (Z.of_nat (length data)) 0); [lia|]. by rewrite Nat2Z.id, firstn_all.
Qed.

(** The graph of an edge map. *)
Definition graph_of (m : gmap Z (list Z)) : adjacency := (list_to_set : list Z -> gset Z) <$> m.

Lemma sum_sizes_spec g :
  sum_sizes g = foldl (fun acc (e : Z * gset Z) => acc + Z.of_nat (size e.2)) 0 (map_to_list g).
Proof. unfold sum_sizes. apply (sum_perm (fun e => Z.of_nat (size e.2))), entries_perm. Qed.

Section roundtrip.
Context {FB : FlatBuffers} (fs : files) (m : gmap Z (list Z)) (path : string).
Hypothesis Hm : i32_map m.
Hypothesis Hlen : Z.of_nat (length (part_write (entries m))) < 2147483648.

(** A partition file that was stored is read back as the same map. *)
Theorem part_edge_map_roundtrip (s : LocalStore) :
  edgeMap s = ∅ ->
  getEdgeHashMap (storePartEdgeMap m path fs).2 path s =
    (Ret m, mkLocalStore (base s) (localAttributeMap s) m).
Proof.
  intros Hs. unfold getEdgeHashMap.
  rewrite (bind_Ret _ _ _ true (mkLocalStore (base s) (localAttributeMap s) m)); [done|].
  rewrite stored_part. unfold loadPartEdgeMap. cbn [snd].
  rewrite lookup_insert_eq. rewrite (bind_Ret _ _ _ _ _ (read_buffer_small _ _ Hlen)).
  rewrite part_entries by done.
  assert (toLocalEdgeMap (entries m) (edgeMap s) = m) as E.
  { unfold toLocalEdgeMap. pose proof (foldl_entries (fun x => x) m (edgeMap s)) as F. cbn beta in F.
    by rewrite F, map_fmap_id, Hs, (right_id_L ∅ (∪)). }
  transitivity (Ret true, mkLocalStore (base s) (localAttributeMap s) (toLocalEdgeMap (entries m) (edgeMap s)));
    [reflexivity|]. by rewrite E.
Qed.

End roundtrip.

(** A file with the bytes of an edge map. *)
Definition holds {FB : FlatBuffers} (fs : files) (path : string) (m : gmap Z (list Z)) : Prop :=
  fs !! path = Some (part_write (entries m)) /\ i32_map m /\
  Z.of_nat (length (part_write (entries m))) < 2147483648.

Lemma load_file {FB : FlatBuffers} fs path m (s : hstore) :
  holds fs path m -> subGraphMap s = ∅ ->
  loadGraph_path fs path s =
    (Ret true, mkHstore (hs_graphId s) (hs_partitionId s) (instanceDataFolderLocation s) (graph_of m)
       (Z.of_nat (size m)) (if hs_edgeCount s =? 0 then sum_sizes (graph_of m) else hs_edgeCount s)).
Proof.
  intros (Hf & Hm & Hlen) Hs. unfold loadGraph_path. rewrite Hf.
  rewrite (bind_Ret _ _ _ _ _ (read_buffer_small _ _ Hlen)), part_entries by done.
  assert (toLocalSubGraphMap (entries m) (subGraphMap s) = graph_of m) as E.
  { unfold toLocalSubGraphMap. by rewrite (foldl_entries list_to_set), Hs, (right_id_L ∅ (∪)). }
  set (g := toLocalSubGraphMap (entries m) (subGraphMap s)) in *.
  transitivity (Ret true, mkHstore (hs_graphId s) (hs_partitionId s) (instanceDataFolderLocation s) g
    (Z.of_nat (size g)) (if hs_edgeCount s =? 0 then sum_sizes g else hs_edgeCount s)).
  - destruct s as [gi pi fo g0 vc ec]. cbn -[sum_sizes]. unfold getEdgeCount, mbind, M_bind, modify, get_state, mret, M_ret.
    cbn -[sum_sizes g]. by destruct (ec =? 0).
  - rewrite E. unfold graph_of. by rewrite map_size_fmap.
Qed.

(** ** Degrees *)

Lemma out_degrees_spec g : out_degrees g = (fun ns : gset Z => Z.of_nat (size ns)) <$> g.
Proof.
  unfold out_degrees. rewrite (foldl_entries (fun ns : gset Z => Z.of_nat (size ns))).
  by rewrite (right_id_L ∅ (∪)).
Qed.

(** How often a value occurs, as a map entry: absent for 0. *)
Definition entry_of (n : nat) : option Z := if decide (n = 0%nat) then None else Some (Z.of_nat n).

Lemma bump_spec acc v w n :
  acc !! w = entry_of n -> bump acc v !! w = entry_of (n + (if decide (v = w) then 1 else 0)).
Proof.
  intros H. unfold bump. destruct (decide (v = w)) as [->|Hne].
  - rewrite H. unfold entry_of at 1. case_decide; subst; rewrite lookup_insert_eq; unfold entry_of;
      rewrite decide_False by lia; f_equal; lia.
  - rewrite Nat.add_0_r, <- H. destruct (acc !! v); by rewrite lookup_insert_ne.
Qed.

Definition occurrences (w : Z) (l : list Z) : nat := length (filter (fun v => v = w) l).

Lemma foldl_bump l acc w n :
  acc !! w = entry_of n -> foldl bump acc l !! w = entry_of (n + occurrences w l).
Proof.
  revert acc n. induction l as [|v l IH]; intros acc n H; cbn [foldl].
  - unfold occurrences. cbn. by rewrite Nat.add_0_r.
  - rewrite (IH _ _ (bump_spec _ v _ _ H)). unfold occurrences. f_equal.
    rewrite filter_cons. case_decide; cbn [length]; lia.
Qed.

Lemma occurrences_nodup w l : NoDup l -> occurrences w l = (if decide (w ∈ l) then 1%nat else 0%nat).
Proof.
  unfold occurrences. induction l as [|v l IH]; intros Hnd; [done|].
  rewrite NoDup_cons in Hnd. destruct Hnd as [Hv Hnd]. specialize (IH Hnd). rewrite filter_cons.
  destruct (decide (v = w)) as [->|Hne]; cbn [length].
  - rewrite (decide_True (P := w ∈ w :: l)) by left. rewrite decide_False in IH by done. lia.
  - rewrite IH. apply decide_ext. rewrite elem_of_cons. naive_solver.
Qed.

Lemma NoDup_fst_filter {A} (P : Z * A -> Prop) `{forall e, Decision (P e)} (l : list (Z * A)) :
  NoDup (fst <$> l) -> NoDup (fst <$> filter P l).
Proof.
  induction l as [|e l IH]; [done|]. rewrite fmap_cons, NoDup_cons, filter_cons. intros [He Hl].
  case_decide; [|by apply IH]. rewrite fmap_cons, NoDup_cons. split; [|by apply IH].
  rewrite list_elem_of_fmap in He |- *. intros (e' & E & [_ H']%list_elem_of_filter). apply He. by exists e'.
Qed.

(** The vertices with an edge to [w]. *)
Definition sources (g : adjacency) (w : Z) : gset Z := dom (filter (fun e => w ∈ (e.2 : gset Z)) g).

Lemma length_sources (g : adjacency) w :
  length (filter (fun e : Z * gset Z => w ∈ e.2) (entries g)) = size (sources g w).
Proof.
  change (size (sources g w)) with (length (elements (sources g w))). rewrite <- (length_fmap fst).
  apply Permutation_length, NoDup_Permutation; [|apply NoDup_elements|].
  - apply NoDup_fst_filter, entries_nodup.
  - intros v. rewrite elem_of_elements. unfold sources. rewrite elem_of_dom, list_elem_of_fmap. split.
    + intros ([k ns] & -> & H). apply list_elem_of_filter in H as [Hw H%elem_of_entries]. exists ns.
      by apply map_lookup_filter_Some.
    + intros [ns [H Hw]%map_lookup_filter_Some]. exists (v, ns). split; [done|].
      apply list_elem_of_filter. by rewrite elem_of_entries.
Qed.

(** The in-degree map has an entry for the vertices an edge arrives at, with
    the number of vertices it comes from, whatever order the sets are
    iterated in. *)
Theorem in_degree_spec iter (s : hstore) w :
  (forall X, iter X ≡ₚ elements X) ->
  getInDegreeDistributionHashMap iter s !! w = entry_of (size (sources (subGraphMap s) w)).
Proof.
  intros Hi. unfold getInDegreeDistributionHashMap. rewrite <- length_sources.
  assert (forall l acc n, acc !! w = entry_of n ->
    foldl (fun acc (e : Z * gset Z) => foldl bump acc (iter e.2)) acc l !! w =
      entry_of (n + length (filter (fun e : Z * gset Z => w ∈ e.2) l))) as H.
  { induction l as [|e l IH]; intros acc n Hn; cbn [foldl].
    - cbn. by rewrite Nat.add_0_r.
    - rewrite (IH _ _ (foldl_bump (iter e.2) _ _ _ Hn)). f_equal. rewrite occurrences_nodup.
      2: { rewrite Hi. apply NoDup_elements. }
      rewrite filter_cons. rewrite (decide_ext (w ∈ iter e.2) (w ∈ e.2)).
      2: { by rewrite Hi, elem_of_elements. }
      case_decide; cbn [length]; lia. }
  apply (H _ _ 0%nat). apply lookup_empty.
Qed.
