(* ===== verification/Shell.v ===== *)
(** * Shell: files, names and the commands run on them

    The files of a host as far as src/util/Utils.cpp looks at them: names and
    folders, sizes, [gzip] and [gzip -d], and [cp] into a folder.  The
    compressor is not part of the program; of it only the round trip is
    used. *)
From Stdlib Require Import ZArith Ascii String Lia.
From stdpp Require Import base tactics numbers list strings gmap.
From S2P Require Import Prelude HashMapStores.

(** What [gzip -d] does with the bytes of a file. *)
Class Gzip := {
  gzip : list ascii -> list ascii;
  gunzip : list ascii -> option (list ascii);
  gunzip_gzip d : gunzip (gzip d) = Some d
}.

(** ** Names *)

(** [name.find_last_of(c)]: what is before and after it. *)
Fixpoint at_last (c : ascii) (l : list ascii) : option (list ascii * list ascii) :=
  match l with
  | [] => None
  | a :: l' =>
      match at_last c l' with
      | Some (b, e) => Some (a :: b, e)
      | None => if decide (a = c) then Some ([], l') else None
      end
  end.

(** [fileName.substr(0, fileName.find_last_of("."))]. *)
Definition rawFileName (name : string) : string :=
  match at_last "." (chars name) with Some (b, _) => string_of_list_ascii b | None => name end.

(** [s.substr(s.find_last_of(c) + 1)]; [getFileName]. *)
Definition after_last (c : ascii) (s : string) : string :=
  match at_last c (chars s) with Some (_, e) => string_of_list_ascii e | None => s end.
Definition getFileName (filePath : string) : string := after_last "/" filePath.

(** A name that ends in [.gz], without it. *)
Definition strip_gz (path : string) : option string :=
  let n := (String.length path - 3)%nat in
  if decide (String.substring n 3 path = ".gz") then Some (String.substring 0 n path) else None.

(** ** Files *)

(** [fileExists] and [getFileSize]. *)
Definition file_exists (fs : files) (path : string) : bool := bool_decide (is_Some (fs !! path)).
Definition getFileSize (fs : files) (path : string) : Z :=
  match fs !! path with Some d => s32 (Z.of_nat (length d)) | None => -1 end.

(** [compressFile] and [unzipFile]: the new file replaces the old one.  When
    the command fails the code only logs it. *)
Definition compressFile {GZ : Gzip} (path : string) (fs : files) : files :=
  match fs !! path with
  | Some d => <[path +:+ ".gz" := gzip d]> (delete path fs)
  | None => fs
  end.
Definition unzipFile {GZ : Gzip} (path : string) (fs : files) : files :=
  match strip_gz path, fs !! path with
  | Some raw, Some d =>
      match gunzip d with Some x => <[raw := x]> (delete path fs) | None => fs end
  | _, _ => fs
  end.

(** [copyToDirectory]: [cp] into a folder. *)
Definition copyToDirectory (currentPath destinationDir : string) (fs : files) : files :=
  match fs !! currentPath with
  | Some d => <[destinationDir +:+ "/" +:+ getFileName currentPath := d]> fs
  | None => fs
  end.

(** ** Lemmas *)

Lemma at_last_none c l : c ∉ l -> at_last c l = None.
Proof.
  induction l as [|a l IH]; [done|]. rewrite not_elem_of_cons. intros [H1 H2]. cbn. rewrite IH by done.
  by rewrite decide_False by congruence.
Qed.

Lemma at_last_app c b e : c ∉ e -> at_last c (b ++ c :: e) = Some (b, e).
Proof.
  intros H. induction b as [|a b IH]; cbn; [rewrite at_last_none by done; by rewrite decide_True|].
  by rewrite IH.
Qed.

Lemma after_last_app c d n : c ∉ chars n -> after_last c (d +:+ (String c "" +:+ n)) = n.
Proof.
  intros H. unfold after_last. rewrite !chars_app. change (chars (String c "") ++ chars n) with (c :: chars n).
  rewrite at_last_app by done. apply string_chars.
Qed.

Lemma getFileName_app d n : "/"%char ∉ chars n -> getFileName (d +:+ "/" +:+ n) = n.
Proof. apply after_last_app. Qed.

Lemma rawFileName_gz n : rawFileName (n +:+ ".gz") = n.
Proof.
  unfold rawFileName. rewrite chars_app. change (chars ".gz") with ("."%char :: chars "gz").
  rewrite at_last_app; [apply string_chars|]. by apply (bool_decide_unpack _); vm_compute.
Qed.

Lemma substring_tail s t : String.substring (String.length s) (String.length t) (s +:+ t) = t.
Proof.
  induction s as [|a s IH]; [|exact IH]. change ("" +:+ t) with t. cbn [String.length].
  induction t as [|b t IH]; [done|]. cbn. by rewrite IH.
Qed.

Lemma strip_gz_app p : strip_gz (p +:+ ".gz") = Some p.
Proof.
  unfold strip_gz. rewrite length_string_app. change (String.length ".gz") with 3%nat. rewrite Nat.add_sub.
  rewrite decide_True by exact (substring_tail p ".gz"). by rewrite substring_app.
Qed.

Lemma string_app_inj_l (s t u : string) : s +:+ t = s +:+ u -> t = u.
Proof. intros H%(f_equal chars). rewrite !chars_app in H. by apply app_inv_head, chars_inj in H. Qed.

Lemma gz_ne p : p +:+ ".gz" <> p.
Proof.
  intros H%(f_equal (fun s => length (chars s))). rewrite chars_app, length_app in H. cbn in H. lia.
Qed.

Section laws.
Context {GZ : Gzip}.

Lemma compress_lookup path fs d :
  fs !! path = Some d -> compressFile path fs !! (path +:+ ".gz") = Some (gzip d).
Proof. intros H. unfold compressFile. by rewrite H, lookup_insert_eq. Qed.

Lemma compress_other path fs p : p <> path -> p <> path +:+ ".gz" -> compressFile path fs !! p = fs !! p.
Proof.
  intros H1 H2. unfold compressFile. destruct (fs !! path); [|done].
  by rewrite lookup_insert_ne, lookup_delete_ne by congruence.
Qed.

(** What was compressed comes back. *)
Lemma unzip_run path d fs :
  fs !! (path +:+ ".gz") = Some (gzip d) -> unzipFile (path +:+ ".gz") fs = <[path := d]> (delete (path +:+ ".gz") fs).
Proof. intros H. unfold unzipFile. by rewrite strip_gz_app, H, gunzip_gzip. Qed.

Lemma unzip_other path fs p : Some p <> strip_gz path -> p <> path -> unzipFile path fs !! p = fs !! p.
Proof.
  intros H1 H2. unfold unzipFile. destruct (strip_gz path) as [raw|]; [|done]. destruct (fs !! path) as [d|]; [|done].
  destruct (gunzip d); [|done]. by rewrite lookup_insert_ne, lookup_delete_ne by congruence.
Qed.
End laws.

(** ** Names of stores *)

Lemma path_inj d d' n n' : "/"%char ∉ chars n -> "/"%char ∉ chars n' ->
  d +:+ "/" +:+ n = d' +:+ "/" +:+ n' -> d = d' /\ n = n'.
Proof.
  intros Hn Hn' E. assert (n = n') as <-.
  { rewrite <- (getFileName_app d n Hn), E. by apply getFileName_app. }
  split; [|done]. apply (f_equal chars) in E. rewrite !chars_app in E. by apply app_inv_tail, chars_inj in E.
Qed.

Definition kinds : list string := ["_"; "_centralstore_"; "_centralstore_dp_"].
Definition store_name (g : Z) (kind : string) (q : Z) : string := show_long g +:+ kind +:+ show_long q.

(** A character that is in no name of a store. *)
Definition foreign (a : ascii) : Prop := digit_of a = None /\ a ∉ chars "-" /\ Forall (fun k => a ∉ chars k) kinds.

Lemma store_name_avoids a g kind q : foreign a -> kind ∈ kinds -> a ∉ chars (store_name g kind q).
Proof.
  intros (H1 & H2 & H3) Hk. assert (a <> "-"%char) by (intros ->; apply H2; left).
  unfold store_name. rewrite !chars_app, !not_elem_of_app. split_and!; [by apply show_long_avoids| |by apply show_long_avoids].
  by apply (proj1 (Forall_forall _ _) H3).
Qed.

Lemma foreign_slash : foreign "/".
Proof. by apply (bool_decide_unpack (_ /\ _ /\ _)); vm_compute. Qed.
Lemma foreign_dot : foreign ".".
Proof. by apply (bool_decide_unpack (_ /\ _ /\ _)); vm_compute. Qed.
Lemma foreign_x : foreign "x".
Proof. by apply (bool_decide_unpack (_ /\ _ /\ _)); vm_compute. Qed.

Lemma show_not_word z s : is_Some (head (filter (fun a => digit_of a = None /\ a <> "-"%char) (chars s))) ->
  forall t, show_long z <> s +:+ t.
Proof.
  intros Hs t E. destruct (filter _ _) as [|a l] eqn:Ef in Hs; [by destruct Hs|].
  assert (a ∈ chars s /\ digit_of a = None /\ a <> "-"%char) as (Ha & H1 & H2).
  { assert (a ∈ filter (fun a => digit_of a = None /\ a <> "-"%char) (chars s)) as H by (rewrite Ef; left).
    by apply list_elem_of_filter in H as [? ?]. }
  apply (show_long_avoids z a H2 H1). rewrite E, chars_app, elem_of_app. by left.
Qed.

Lemma store_name_inj g kind q kind' q' : kind ∈ kinds -> kind' ∈ kinds ->
  store_name g kind q = store_name g kind' q' -> kind = kind' /\ q = q'.
Proof.
  unfold store_name. intros Hk Hk' E%string_app_inj_l.
  assert (forall k z k' z', k ∈ kinds -> k' ∈ kinds -> k +:+ show_long z = k' +:+ show_long z' -> k = k' -> z = z') as Hz.
  { intros k z k' z' _ _ E' <-. by apply string_app_inj_l, show_long_inj in E'. }
  assert (kind = kind') as Hkk; [|split; [done|by apply (Hz kind q kind' q')]].
  unfold kinds in *. repeat (apply elem_of_cons in Hk as [->|Hk]); try (by apply not_elem_of_nil in Hk);
    repeat (apply elem_of_cons in Hk' as [->|Hk']); try (by apply not_elem_of_nil in Hk'); try done; exfalso.
  - apply (show_not_word q "centralstore_" ltac:(by eexists) (show_long q')).
    exact (string_app_inj_l "_" _ _ E).
  - apply (show_not_word q "centralstore_dp_" ltac:(by eexists) (show_long q')).
    exact (string_app_inj_l "_" _ _ E).
  - apply (show_not_word q' "centralstore_" ltac:(by eexists) (show_long q)).
    symmetry. exact (string_app_inj_l "_" _ _ E).
  - apply (show_not_word q "dp_" ltac:(by eexists) (show_long q')).
    exact (string_app_inj_l "_centralstore_" _ _ E).
  - apply (show_not_word q' "centralstore_dp_" ltac:(by eexists) (show_long q)).
    symmetry. exact (string_app_inj_l "_" _ _ E).
  - apply (show_not_word q' "dp_" ltac:(by eexists) (show_long q)).
    symmetry. exact (string_app_inj_l "_centralstore_" _ _ E).
Qed.
