(* ===== verification/StaticTriangles.v ===== *)
(** * StaticTriangles: counting the triangles of static partitions

    [Triangles::run] (src/query/algorithms/triangles/Triangles.cpp) over the
    three stores of a partition, and what a worker does with it
    (src/server/JasmineGraphInstanceService.cpp): the maps of loaded stores,
    the local count, and the triangles of the central stores of several
    partitions, which it sends in chunks. *)
From Stdlib Require Import ZArith Ascii String Lia.
From stdpp Require Import base tactics numbers list strings gmap.
From S2P Require Import Prelude Triangles HashMapStores Shell.

Section run.
Context (iter : gset Z -> list Z).

(** [std::set_difference]: the merge of the two ranges; the code gives it
    ranges that are not sorted. *)
Fixpoint set_difference (l1 : list Z) : list Z -> list Z :=
  fix go (l2 : list Z) : list Z :=
    match l1, l2 with
    | [], _ => []
    | _, [] => l1
    | x :: l1', y :: l2' =>
        if x <? y then x :: set_difference l1' l2
        else if y <? x then go l2'
        else set_difference l1' l2'
    end.

(** One vertex of the duplicate central store: what the central store does
    not have of its neighbours is added, and counted in the degree. *)
Definition merge_duplicate (duplicate : adjacency) (st : adjacency * gmap Z Z) (v : Z)
  : adjacency * gmap Z Z :=
  let '(central, degrees) := st in
  let result : gset Z :=
    list_to_set (set_difference (iter (nbrs duplicate v)) (iter (nbrs central v))) in
  if decide (0 < size result)%nat
  then (<[v := nbrs central v ∪ result]> central,
        <[v := default 0 (degrees !! v) + Z.of_nat (size result)]> degrees)
  else (<[v := nbrs central v]> central, degrees).

(** One vertex of the central store is merged into the local store. *)
Definition merge_store (central : adjacency) (st : adjacency * gmap Z Z) (e : Z * Z)
  : adjacency * gmap Z Z :=
  let '(localSubGraphMap, degreeDistribution) := st in
  (<[e.1 := nbrs localSubGraphMap e.1 ∪ nbrs central e.1]> localSubGraphMap,
   <[e.1 := default 0 (degreeDistribution !! e.1) + e.2]> degreeDistribution).

Definition merged (graphDB centralStore duplicateCentralStore : hstore) : adjacency * gmap Z Z :=
  let '(centralDB, centralDegrees) :=
    foldl (merge_duplicate (getUnderlyingHashMap duplicateCentralStore))
      (getUnderlyingHashMap centralStore, getOutDegreeDistributionHashMap centralStore)
      (entries (getOutDegreeDistributionHashMap duplicateCentralStore)).*1 in
  foldl (merge_store centralDB)
    (getUnderlyingHashMap graphDB, getOutDegreeDistributionHashMap graphDB) (entries centralDegrees).

(** [Triangles::run]. *)
Definition run (graphDB centralStore duplicateCentralStore : hstore) : option Z :=
  let '(localSubGraphMap, degreeDistribution) := merged graphDB centralStore duplicateCentralStore in
  count (countTriangles iter localSubGraphMap degreeDistribution false).
End run.

(** ** The worker *)

Record worker := mkWorker {
  disk_files : files;
  dataFolder : string;
  aggregatorDirPath : string;
  graphDBMapLocalStores : gmap string LocalStore;
  graphDBMapCentralStores : gmap string hstore;
  graphDBMapDuplicateCentralStores : gmap string hstore
}.

Definition set_locals (m : gmap string LocalStore) (w : worker) : worker :=
  mkWorker (disk_files w) (dataFolder w) (aggregatorDirPath w) m
    (graphDBMapCentralStores w) (graphDBMapDuplicateCentralStores w).
Definition set_centrals (m : gmap string hstore) (w : worker) : worker :=
  mkWorker (disk_files w) (dataFolder w) (aggregatorDirPath w)
    (graphDBMapLocalStores w) m (graphDBMapDuplicateCentralStores w).
Definition set_duplicates (m : gmap string hstore) (w : worker) : worker :=
  mkWorker (disk_files w) (dataFolder w) (aggregatorDirPath w)
    (graphDBMapLocalStores w) (graphDBMapCentralStores w) m.

(** A call on a new object. *)
Definition with_new {S T A} (t : T) (c : M T A) : M S (A * T) :=
  fun s => match c t with
           | (Ret a, t') => (Ret (a, t'), s)
           | (Throw e, _) => (Throw e, s)
           | (Undef, _) => (Undef, s)
           | (Deadlock, _) => (Deadlock, s)
           | (Terminated, _) => (Terminated, s)
           | (OutOfFuel, _) => (OutOfFuel, s)
           end.

Section worker.
Context {FB : FlatBuffers} (iter : gset Z -> list Z).
(** The contents of memory a constructor leaves as they are. *)
Context (garbage : Z).

(** [isGraphDBExists], [isInstanceCentralStoreExists],
    [isInstanceDuplicateCentralStoreExists]. *)
Definition isGraphDBExists (w : worker) (graphId partitionId : string) : bool :=
  file_exists (disk_files w) (dataFolder w +:+ "/" +:+ graphId +:+ "_" +:+ partitionId).
Definition isInstanceCentralStoreExists (w : worker) (graphId partitionId : string) : bool :=
  file_exists (disk_files w) (dataFolder w +:+ "/" +:+ graphId +:+ "_centralstore_" +:+ partitionId).
Definition isInstanceDuplicateCentralStoreExists (w : worker) (graphId partitionId : string) : bool :=
  file_exists (disk_files w) (dataFolder w +:+ "/" +:+ graphId +:+ "_centralstore_dp_" +:+ partitionId).

(** [loadLocalStore], [loadInstanceCentralStore],
    [loadInstanceDuplicateCentralStore]. *)
Definition loadLocalStore (graphId partitionId : string) : M worker unit :=
  g ← stoi_exn graphId;
  p ← stoi_exn partitionId;
  w ← get_state;
  '(_, st) ← with_new (newLocalStore g p (dataFolder w) garbage garbage) (local_loadGraph (disk_files w));
  modify (fun w => set_locals (<[graphId +:+ "_" +:+ partitionId := st]> (graphDBMapLocalStores w)) w).

Definition loadInstanceCentralStore (graphId partitionId : string) : M worker unit :=
  g ← stoi_exn graphId;
  p ← stoi_exn partitionId;
  w ← get_state;
  '(_, st) ← with_new (newCentralStore g p (dataFolder w)) (central_loadGraph (disk_files w));
  modify (fun w => set_centrals
    (<[graphId +:+ "_centralstore_" +:+ partitionId := st]> (graphDBMapCentralStores w)) w).

Definition loadInstanceDuplicateCentralStore (graphId partitionId : string) : M worker unit :=
  g ← stoi_exn graphId;
  p ← stoi_exn partitionId;
  w ← get_state;
  '(_, st) ← with_new (newCentralStore g p (dataFolder w)) (duplicate_loadGraph (disk_files w));
  modify (fun w => set_duplicates
    (<[graphId +:+ "_centralstore_dp_" +:+ partitionId := st]> (graphDBMapDuplicateCentralStores w)) w).

(** [map::operator[]] of the three maps: a missing store is a new one. *)
Definition index_local (k : string) : M worker LocalStore :=
  w ← get_state;
  match graphDBMapLocalStores w !! k with
  | Some st => mret st
  | None =>
      let st := newLocalStore garbage garbage "" garbage garbage in
      modify (fun w => set_locals (<[k := st]> (graphDBMapLocalStores w)) w);; mret st
  end.
Definition index_central (k : string) : M worker hstore :=
  w ← get_state;
  match graphDBMapCentralStores w !! k with
  | Some st => mret st
  | None =>
      let st := newCentralStore 0 0 "" in
      modify (fun w => set_centrals (<[k := st]> (graphDBMapCentralStores w)) w);; mret st
  end.
Definition index_duplicate (k : string) : M worker hstore :=
  w ← get_state;
  match graphDBMapDuplicateCentralStores w !! k with
  | Some st => mret st
  | None =>
      let st := newCentralStore 0 0 "" in
      modify (fun w => set_duplicates (<[k := st]> (graphDBMapDuplicateCentralStores w)) w);; mret st
  end.

(** [countLocalTriangles]; the two central maps are searched for the key of
    the local map. *)
Definition countLocalTriangles (graphId partitionId : string) : M worker Z :=
  let graphIdentifier := graphId +:+ "_" +:+ partitionId in
  let centralGraphIdentifier := graphId +:+ "_centralstore_" +:+ partitionId in
  let duplicateCentralGraphIdentifier := graphId +:+ "_centralstore_dp_" +:+ partitionId in
  w ← get_state;
  (if bool_decide (graphDBMapLocalStores w !! graphIdentifier = None)
      && isGraphDBExists w graphId partitionId
   then loadLocalStore graphId partitionId else mret tt);;
  graphDB ← index_local graphIdentifier;
  (if bool_decide (graphDBMapCentralStores w !! graphIdentifier = None)
      && isInstanceCentralStoreExists w graphId partitionId
   then loadInstanceCentralStore graphId partitionId else mret tt);;
  centralGraphDB ← index_central centralGraphIdentifier;
  (if bool_decide (graphDBMapDuplicateCentralStores w !! graphIdentifier = None)
      && isInstanceDuplicateCentralStoreExists w graphId partitionId
   then loadInstanceDuplicateCentralStore graphId partitionId else mret tt);;
  duplicateCentralGraphDB ← index_duplicate duplicateCentralGraphIdentifier;
  determinate (run iter (base graphDB) centralGraphDB duplicateCentralGraphDB).

(** *** Central stores of several partitions *)

(** [loadCentralStore]: a file that cannot be opened gives an empty store. *)
Definition loadCentralStore (centralStoreFileName : string) : M worker hstore :=
  w ← get_state;
  '(_, st) ← with_new (newCentralStore 0 0 "") (loadGraph_path (disk_files w) centralStoreFileName);
  mret st.

(** The loop over a loaded map. *)
Definition aggregate (aggregated : adjacency) (g : adjacency) : adjacency :=
  foldl (fun acc e => <[e.1 := nbrs acc e.1 ∪ e.2]> acc) aggregated (entries g).

(** [Utils::split]. *)
Definition split (s : string) (delimiter : ascii) : list string :=
  string_of_list_ascii <$> split_items delimiter [] (chars s).

(** The files of a list that can be read, one after the other. *)
Fixpoint aggregate_files (paths : list string) (aggregated : adjacency) : M worker adjacency :=
  match paths with
  | [] => mret aggregated
  | path :: paths' =>
      w ← get_state;
      if file_exists (disk_files w) path then
        st ← loadCentralStore path;
        aggregate_files paths' (aggregate aggregated (getUnderlyingHashMap st))
      else aggregate_files paths' aggregated
  end.

(** The triangles of the aggregated store, as a string. *)
Definition aggregated_triangles (aggregated : adjacency) : string :=
  triangles (countTriangles iter aggregated (out_degrees aggregated) true).

(** [aggregateCentralStoreTriangles]. *)
Definition aggregateCentralStoreTriangles (graphId partitionId partitionIdList : string)
  : M worker string :=
  w ← get_state;
  workerCentralStore ←
    loadCentralStore (dataFolder w +:+ "/" +:+ graphId +:+ "_centralstore_" +:+ partitionId);
  let aggregated := aggregate ∅ (getUnderlyingHashMap workerCentralStore) in
  aggregated ← aggregate_files
    ((fun p => aggregatorDirPath w +:+ "/" +:+ graphId +:+ "_centralstore_" +:+ p) <$>
       split partitionIdList ",") aggregated;
  mret (aggregated_triangles aggregated).

(** [aggregateCompositeCentralStoreTriangles]. *)
Definition aggregateCompositeCentralStoreTriangles (compositeFileList availableFileList : string)
  : M worker string :=
  w ← get_state;
  aggregated ← aggregate_files
    ((fun f => dataFolder w +:+ "/" +:+ rawFileName f) <$> split availableFileList ":") ∅;
  aggregated ← aggregate_files
    ((fun f => aggregatorDirPath w +:+ "/" +:+ rawFileName f) <$> split compositeFileList ":") aggregated;
  mret (aggregated_triangles aggregated).

(** [createPartitionFiles]: the edges of a partition file as lines of text;
    [None] is a name that is not written. *)
Definition edge_lines (m : gmap Z (list Z)) : list ascii :=
  concat ((fun e => concat ((fun d => chars (show_long e.1 +:+ " " +:+ show_long d) ++ ["010"%char]) <$> e.2))
            <$> entries m).
Definition createPartitionFiles (trainedmodelfolder graphID partitionID fileType : string)
  : M worker unit :=
  w ← get_state;
  let name := if decide (fileType = "centralstore") then graphID +:+ "_centralstore_" +:+ partitionID
              else graphID +:+ "_" +:+ partitionID in
  '(partEdgeMap, _) ← with_new (newLocalStore garbage garbage "" garbage garbage)
    (getEdgeHashMap (disk_files w) (dataFolder w +:+ "/" +:+ name));
  if decide (partEdgeMap = ∅) then mret tt
  else modify (fun w => mkWorker
         (<[trainedmodelfolder +:+ "/" +:+ name := edge_lines partEdgeMap]> (disk_files w))
         (dataFolder w) (aggregatorDirPath w) (graphDBMapLocalStores w)
         (graphDBMapCentralStores w) (graphDBMapDuplicateCentralStores w)).
End worker.
