(* ===== verification/StaticTheory.v ===== *)
(** * StaticTheory: what the static triangle counts count

    Triangles of a relation given by directed edges; the merge of the three
    stores of a partition for every iteration order, although
    [std::set_difference] is given unsorted ranges; the aggregated central
    stores. *)
From Stdlib Require Import ZArith Ascii String Lia.
From stdpp Require Import base tactics numbers list strings gmap fin_maps.
From S2P Require Import Prelude Triangles TrianglesTheory HashMapStores HashMapTheory StaticTriangles.

(** ** Triangles of a relation *)

Definition linked (E : Z -> Z -> Prop) (x y : Z) : Prop := E x y \/ E y x.

(** Three vertices in ascending order, joined in one direction or the other. *)
Definition tri (E : Z -> Z -> Prop) (x : triple) : Prop :=
  x.1.1 < x.1.2 < x.2 /\ linked E x.1.1 x.1.2 /\ linked E x.1.2 x.2 /\ linked E x.1.1 x.2.

(** A triangle with a vertex that has an edge to both of the others. *)
Definition apex (E : Z -> Z -> Prop) (x : triple) : Prop :=
  exists u v w, x = sort3 u v w /\ u <> v /\ u <> w /\ v <> w /\ E u v /\ E u w /\ E v w.

Definition apexed (E : Z -> Z -> Prop) : Prop := forall x, tri E x -> apex E x.

Lemma linked_sym E x y : linked E x y -> linked E y x.
Proof. unfold linked. tauto. Qed.

(** A property of pairs that holds between the three vertices in any order. *)
Lemma sort3_linked E u v w :
  u <> v -> u <> w -> v <> w -> linked E u v -> linked E v w -> linked E u w -> tri E (sort3 u v w).
Proof.
  intros Huv Huw Hvw H1 H2 H3. apply sort3_cases; intros Hle; unfold tri; cbn [fst snd];
    (split; [lia|]); split_and!; auto using linked_sym.
Qed.

Lemma apex_tri E x : apex E x -> tri E x.
Proof.
  intros (u & v & w & -> & H1 & H2 & H3 & H4 & H5 & H6). apply sort3_linked; unfold linked; tauto.
Qed.

Lemma tri_mono (E E' : Z -> Z -> Prop) x : (forall a b, E a b -> E' a b) -> tri E x -> tri E' x.
Proof. intros H. unfold tri, linked. naive_solver. Qed.

(** The edges of an adjacency map. *)
Definition arcs (A : adjacency) (x y : Z) : Prop := y ∈ nbrs A x.

(** Degrees that are at least the number of neighbours. *)
Definition degrees_above (A : adjacency) (dist : gmap Z Z) : Prop :=
  forall v, nbrs A v <> ∅ -> exists d, dist !! v = Some d /\ Z.of_nat (size (nbrs A v)) <= d.

Lemma two_neighbours (X : gset Z) u v : u ∈ X -> v ∈ X -> u <> v -> (2 <= size X)%nat.
Proof.
  intros Hu Hv Hne. assert (({[u; v]} : gset Z) ⊆ X) as Hs by set_solver.
  apply subseteq_size in Hs. rewrite size_union, !size_singleton in Hs by set_solver. lia.
Qed.

(** What the search finds when the degrees may be too large. *)
Lemma search_above iter A dist :
  (forall X, iter X ≡ₚ elements X) -> degrees_above A dist -> apexed (arcs A) ->
  exists T : gset triple, finds (search_triangles iter A dist) T /\ forall x, x ∈ T <-> tri (arcs A) x.
Proof.
  intros Hi Hd Ha. destruct (search_finds iter Hi A dist) as (T & HT & Hx). exists T. split; [done|].
  intros x. rewrite Hx. split.
  - intros (temp & u & nu & d & _ & _ & (H1 & H2 & H3 & H4 & H5 & H6) & ->).
    apply sort3_linked; unfold linked, arcs; tauto.
  - intros Ht. destruct (Ha x Ht) as (u & v & w & -> & H1 & H2 & H3 & H4 & H5 & H6).
    destruct (Hd u) as (d & Hl & Hle); [unfold arcs in H4; set_solver|].
    exists u, v, w, d. pose proof (two_neighbours _ _ _ H4 H5 H3).
    split_and!; [done|lia| |done]. unfold closes, arcs in *. tauto.
Qed.

(** ** The merge of the three stores *)

Lemma set_difference_spec l1 l2 x :
  (x ∈ set_difference l1 l2 -> x ∈ l1) /\ (x ∈ l1 -> x ∈ set_difference l1 l2 \/ x ∈ l2).
Proof.
  revert l2. induction l1 as [|a l1 IH1]; intros l2.
  - destruct l2; cbn; split; (done || by intros ?%not_elem_of_nil).
  - induction l2 as [|b l2 IH2]; [cbn; tauto|]. cbn [set_difference].
    destruct (Z.ltb_spec a b); [|destruct (Z.ltb_spec b a)].
    + destruct (IH1 (b :: l2)). rewrite !elem_of_cons in *. naive_solver.
    + destruct IH2 as [I1 I2]. cbn [set_difference] in I1, I2. rewrite !elem_of_cons in *. naive_solver.
    + assert (a = b) as <- by lia. destruct (IH1 l2). rewrite !elem_of_cons. naive_solver.
Qed.

Section merge.
Context (iter : gset Z -> list Z) (Hiter : forall X, iter X ≡ₚ elements X).

(** Whatever the order, the difference joins the two sets. *)
Lemma difference_joins (D C : gset Z) :
  C ∪ list_to_set (set_difference (iter D) (iter C)) = C ∪ D.
Proof.
  apply set_eq. intros x. rewrite !elem_of_union, elem_of_list_to_set.
  pose proof (set_difference_spec (iter D) (iter C) x) as [H1 H2].
  rewrite !(elem_of_iter iter Hiter) in *. tauto.
Qed.

Lemma nbrs_insert A v X w : nbrs (<[v := X]> A) w = if decide (v = w) then X else nbrs A w.
Proof.
  unfold nbrs. case_decide as H; [subst; by rewrite lookup_insert_eq|by rewrite lookup_insert_ne].
Qed.

(** The degrees are at least the number of neighbours, with 0 for a vertex
    without an entry. *)
Definition covers (st : adjacency * gmap Z Z) : Prop :=
  forall v, Z.of_nat (size (nbrs st.1 v)) <= default 0 (st.2 !! v) /\
    (nbrs st.1 v <> ∅ -> is_Some (st.2 !! v)).

Lemma covers_above A dist : covers (A, dist) -> degrees_above A dist.
Proof.
  intros H v Hv. destruct (H v) as [H1 H2]. cbn [fst snd] in H1, H2. destruct (H2 Hv) as [d Hd].
  exists d. by rewrite Hd in H1.
Qed.

Lemma covers_out_degrees g : covers (g, out_degrees g).
Proof.
  intros v. cbn [fst snd]. rewrite out_degrees_spec, lookup_fmap. unfold nbrs.
  destruct (g !! v); cbn; [split; [lia|eauto]|]. by rewrite size_empty.
Qed.

Lemma merge_duplicate_spec D st v :
  covers st ->
  covers (merge_duplicate iter D st v) /\
  forall w, nbrs (merge_duplicate iter D st v).1 w =
    if decide (v = w) then nbrs st.1 w ∪ nbrs D w else nbrs st.1 w.
Proof.
  destruct st as [C deg]. intros Hc. unfold merge_duplicate.
  set (R := list_to_set (set_difference (iter (nbrs D v)) (iter (nbrs C v))) : gset Z).
  assert (nbrs C v ∪ R = nbrs C v ∪ nbrs D v) as HR by apply difference_joins.
  case_decide as Hsz; split.
  - intros w. cbn [fst snd]. rewrite nbrs_insert. destruct (Hc w) as [H1 H2]. cbn [fst snd] in H1, H2.
    case_decide as Hw; [|by rewrite lookup_insert_ne]. subst w. rewrite lookup_insert_eq. cbn.
    split; [|eauto]. pose proof (size_union_alt (nbrs C v) R) as ->.
    pose proof (subseteq_size (R ∖ nbrs C v) R ltac:(set_solver)). lia.
  - intros w. cbn [fst]. rewrite nbrs_insert. case_decide; [by subst|done].
  - assert (R = ∅) as HRe by (apply leibniz_equiv, size_empty_inv; lia).
    intros w. cbn [fst snd]. rewrite nbrs_insert. case_decide; [subst w|]; apply Hc.
  - assert (R = ∅) as HRe by (apply leibniz_equiv, size_empty_inv; lia).
    intros w. cbn [fst]. rewrite nbrs_insert. case_decide; [subst w|done]. rewrite <- HR, HRe. set_solver.
Qed.

Lemma merge_duplicates_spec D l st :
  covers st ->
  covers (foldl (merge_duplicate iter D) st l) /\
  forall w, nbrs (foldl (merge_duplicate iter D) st l).1 w =
    if decide (w ∈ l) then nbrs st.1 w ∪ nbrs D w else nbrs st.1 w.
Proof.
  revert st. induction l as [|v l IH]; intros st Hc; cbn [foldl].
  { split; [done|]. intros w. by rewrite decide_False by apply not_elem_of_nil. }
  destruct (merge_duplicate_spec D st v Hc) as [H1 H2]. destruct (IH _ H1) as [H3 H4].
  split; [done|]. intros w. rewrite H4, H2.
  destruct (decide (v = w)) as [->|Hne]; [rewrite (decide_True (P := w ∈ w :: l)) by left|].
  - case_decide; set_solver.
  - apply decide_ext. rewrite elem_of_cons. naive_solver.
Qed.
End merge.

Lemma merge_store_spec C st e :
  covers st -> Z.of_nat (size (nbrs C e.1)) <= e.2 ->
  covers (merge_store C st e) /\
  forall w, nbrs (merge_store C st e).1 w =
    if decide (e.1 = w) then nbrs st.1 w ∪ nbrs C w else nbrs st.1 w.
Proof.
  destruct st as [L deg]. intros Hc He. unfold merge_store. split; intros w; cbn [fst snd].
  - rewrite nbrs_insert. destruct (Hc w) as [H1 H2]. cbn [fst snd] in H1, H2.
    case_decide as Hw; [|by rewrite lookup_insert_ne]. subst w. rewrite lookup_insert_eq. cbn.
    split; [|eauto]. pose proof (size_union_alt (nbrs L e.1) (nbrs C e.1)) as ->.
    pose proof (subseteq_size (nbrs C e.1 ∖ nbrs L e.1) (nbrs C e.1) ltac:(set_solver)). lia.
  - rewrite nbrs_insert. case_decide; [by subst|done].
Qed.

Lemma merge_stores_spec C l st :
  covers st -> Forall (fun e : Z * Z => Z.of_nat (size (nbrs C e.1)) <= e.2) l ->
  covers (foldl (merge_store C) st l) /\
  forall w, nbrs (foldl (merge_store C) st l).1 w =
    if decide (w ∈ l.*1) then nbrs st.1 w ∪ nbrs C w else nbrs st.1 w.
Proof.
  revert st. induction l as [|e l IH]; intros st Hc Hl; cbn [foldl].
  { split; [done|]. intros w. by rewrite decide_False by apply not_elem_of_nil. }
  apply Forall_cons in Hl as [He Hl].
  destruct (merge_store_spec C st e Hc He) as [H1 H2]. destruct (IH _ H1 Hl) as [H3 H4].
  split; [done|]. intros w. rewrite H4, H2, fmap_cons.
  destruct (decide (e.1 = w)) as [<-|Hne]; [rewrite (decide_True (P := e.1 ∈ e.1 :: l.*1)) by left|].
  - case_decide; set_solver.
  - apply decide_ext. rewrite elem_of_cons. naive_solver.
Qed.

(** The edges of the three stores together. *)
Definition store_arcs (graphDB centralStore duplicateCentralStore : hstore) (x y : Z) : Prop :=
  arcs (subGraphMap graphDB) x y \/ arcs (subGraphMap centralStore) x y \/
  arcs (subGraphMap duplicateCentralStore) x y.

Section run.
Context (iter : gset Z -> list Z) (Hiter : forall X, iter X ≡ₚ elements X).

Lemma merged_spec L C D :
  covers (merged iter L C D) /\
  forall x y, arcs (merged iter L C D).1 x y <-> store_arcs L C D x y.
Proof.
  unfold merged, getUnderlyingHashMap, getOutDegreeDistributionHashMap.
  destruct (merge_duplicates_spec iter Hiter (subGraphMap D) (entries (out_degrees (subGraphMap D))).*1 _
    (covers_out_degrees (subGraphMap C))) as [Hc Hn].
  destruct (foldl _ _ _) as [C' deg]. cbn [fst] in Hn.
  assert (forall w, nbrs C' w = nbrs (subGraphMap C) w ∪ nbrs (subGraphMap D) w) as Hn'.
  { intros w. rewrite Hn, entries_keys. case_decide as Hw; [done|].
    rewrite elem_of_ascending, out_degrees_spec, dom_fmap, not_elem_of_dom in Hw.
    unfold nbrs at 3. rewrite Hw. cbn. set_solver. }
  clear Hn. destruct (merge_stores_spec C' (entries deg) _ (covers_out_degrees (subGraphMap L))) as [Hc2 Hn2].
  { apply Forall_forall. intros [v d] Hv%elem_of_entries. destruct (Hc v) as [H _]. cbn [fst snd] in *.
    by rewrite Hv in H. }
  split; [done|]. intros x y. unfold arcs at 1. rewrite Hn2. cbn [fst]. unfold store_arcs, arcs.
  rewrite entries_keys. case_decide as Hw; [rewrite Hn'; set_solver|].
  assert (nbrs C' x = ∅) as He.
  { destruct (decide (nbrs C' x = ∅)) as [|Hne]; [done|]. destruct (Hc x) as [_ H].
    exfalso. apply Hw. rewrite elem_of_ascending, elem_of_dom. by apply H. }
  rewrite Hn' in He. set_solver.
Qed.

Lemma apexed_ext (E E' : Z -> Z -> Prop) : (forall x y, E x y <-> E' x y) -> apexed E -> apexed E'.
Proof.
  intros H Ha x Ht. destruct (Ha x) as (u & v & w & ?); [by eapply tri_mono; [|done]; intros; apply H|].
  exists u, v, w. rewrite <- !H. done.
Qed.

Lemma tri_ext (E E' : Z -> Z -> Prop) x : (forall x y, E x y <-> E' x y) -> tri E x <-> tri E' x.
Proof. intros H. split; apply tri_mono; intros; by apply H. Qed.

Lemma run_counts L C D :
  apexed (store_arcs L C D) ->
  exists T : gset triple, run iter L C D = Some (Z.of_nat (size T)) /\
    forall x, x ∈ T <-> tri (store_arcs L C D) x.
Proof.
  intros Ha. destruct (merged_spec L C D) as [Hc He]. unfold run.
  destruct (merged iter L C D) as [A dist]. cbn [fst] in He.
  destruct (search_above iter A dist Hiter (covers_above _ _ Hc)) as (T & (_ & Hn & _) & HT).
  { eapply apexed_ext; [|done]. intros x y. by rewrite He. }
  exists T. split; [cbn; by rewrite Hn|]. intros x. rewrite HT. by apply tri_ext.
Qed.
End run.

(** C10. [Triangles::run] returns the number of triangles of the union of the
    three stores, whatever order the sets are iterated in - although
    [set_difference] is given unsorted ranges and the degrees it computes may
    be too large - as long as every triangle has a vertex with an edge to
    both of the others. *)
Theorem run_spec iter (graphDB centralStore duplicateCentralStore : hstore) :
  (forall X, iter X ≡ₚ elements X) ->
  apexed (store_arcs graphDB centralStore duplicateCentralStore) ->
  exists T : gset triple,
    run iter graphDB centralStore duplicateCentralStore = Some (Z.of_nat (size T)) /\
    forall x, x ∈ T <-> tri (store_arcs graphDB centralStore duplicateCentralStore) x.
Proof. intros Hi. by apply run_counts. Qed.

(** Edges in both directions, and edges that lead to larger vertices only,
    have such a vertex in every triangle. *)
Lemma apexed_symmetric (E : Z -> Z -> Prop) : (forall x y, E x y -> E y x) -> apexed E.
Proof.
  intros Hs [[a b] c] (Hlt & H1 & H2 & H3). cbn in *. exists a, b, c.
  assert (forall x y, linked E x y -> E x y) as HE by (intros x y [?|?]; auto).
  split_and!; [symmetry; by apply sort3_sorted|lia..| | |]; auto.
Qed.

Lemma apexed_increasing (E : Z -> Z -> Prop) : (forall x y, E x y -> x < y) -> apexed E.
Proof.
  intros Hs [[a b] c] (Hlt & H1 & H2 & H3). cbn in *. exists a, b, c.
  assert (forall x y, x < y -> linked E x y -> E x y) as HE by (intros x y ? [?|?%Hs]; [done|lia]).
  split_and!; [symmetry; by apply sort3_sorted|lia..| | |]; apply HE; auto; lia.
Qed.
