(* ===== verification/Metis.v ===== *)
(** * Metis: the static partitioner

    [MetisPartitioner] (src/partitioner/local/MetisPartitioner.cpp): reading
    an edge list, the input of [gpmetis], and from the partition index
    [gpmetis] returns the local, central and duplicate central stores of
    every partition and the composite central stores.  [gpmetis] is a program
    of its own: the partition index is an argument.  Writing the attribute
    files and the SQL statements is left out. *)
From Stdlib Require Import ZArith Ascii String Lia.
From stdpp Require Import base tactics numbers list sorting strings gmap.
From S2P Require Import Prelude Triangles HashMapStores Shell.

Definition GRAPH_TYPE_NORMAL_REFORMATTED : string := "REFORMATTED_GRAPH".
Definition NUMBER_OF_COMPOSITE_CENTRAL_STORES : nat := 4.
Definition INT_MAX : Z := 2147483647.

Abbreviation edge_map := (gmap Z (list Z)).

Record MetisPartitioner := mkMetis {
  mp_edgeCount : Z;
  edgeCountForMetis : Z;
  largestVertex : Z;
  mp_vertexCount : Z;
  nParts : Z;
  outputFilePath : string;
  zeroflag : bool;
  mp_graphID : Z;
  graphType : string;
  smallestVertex : Z;
  graphStorageMap : edge_map;
  graphEdgeMap : edge_map;
  vertexToIDMap : gmap Z Z;
  idToVertexMap : gmap Z Z
}.

(** The constructor; the graph id is set before it is used. *)
Definition newMetisPartitioner (npartitions : Z) : MetisPartitioner :=
  mkMetis 0 0 0 0 npartitions "" false 0 "" INT_MAX ∅ ∅ ∅ ∅.

(** [graphStorageMap[v]]. *)
Definition at_key (m : edge_map) (v : Z) : list Z := default [] (m !! v).

(** ** Reading the edge list *)

(** The [char splitter] of the first line; it has no value when the line has
    none of the three characters. *)
Definition find_splitter (line : list ascii) : option ascii :=
  if decide (" "%char ∈ line) then Some " "%char
  else if decide ("009"%char ∈ line) then Some "009"%char
  else if decide (","%char ∈ line) then Some ","%char
  else None.

(** [getline(stream, vertexOne, splitter)] and what is left of the stream. *)
Fixpoint until_char (d : ascii) (l : list ascii) : list ascii * list ascii :=
  match l with
  | [] => ([], [])
  | a :: l' => if decide (a = d) then ([], l')
               else let '(w, r) := until_char d l' in (a :: w, r)
  end.

(** [stream >> vertexTwo]. *)
Fixpoint take_word (l : list ascii) : list ascii :=
  match l with
  | [] => []
  | a :: l' => if is_space a then [] else a :: take_word l'
  end.

Definition parse_edge {S} (splitter : ascii) (line : list ascii) : M S (Z * Z) :=
  let '(vertexOne, rest) := until_char splitter line in
  let vertexTwo := take_word (drop_spaces rest) in
  firstVertex ← stoi_exn (string_of_list_ascii vertexOne);
  secondVertex ← stoi_exn (string_of_list_ascii vertexTwo);
  mret (firstVertex, secondVertex).

(** The body of the loop: one edge is entered. *)
Definition load_edge (e : Z * Z) (p : MetisPartitioner) : MetisPartitioner :=
  let '(firstVertex, secondVertex) := e in
  let zero := zeroflag p || ((firstVertex =? 0) || (secondVertex =? 0)) in
  let firstEdgeSet := at_key (graphStorageMap p) firstVertex in
  let vertexEdgeSet := at_key (graphEdgeMap p) firstVertex in
  let new_first := decide (firstEdgeSet = []) in
  let known := decide (secondVertex ∈ firstEdgeSet) in
  let vc := mp_vertexCount p + (if new_first then 1 else 0) in
  let ecm := edgeCountForMetis p + (if new_first then 1 else if known then 0 else 1) in
  let firstEdgeSet' := if new_first then [secondVertex]
                       else if known then firstEdgeSet else firstEdgeSet ++ [secondVertex] in
  let gsm := <[firstVertex := firstEdgeSet']> (graphStorageMap p) in
  let gem := <[firstVertex := vertexEdgeSet ++ [secondVertex]]> (graphEdgeMap p) in
  let secondEdgeSet := at_key gsm secondVertex in
  let new_second := decide (secondEdgeSet = []) in
  let secondEdgeSet' := if new_second then [firstVertex]
                        else if decide (firstVertex ∈ secondEdgeSet) then secondEdgeSet
                        else secondEdgeSet ++ [firstVertex] in
  mkMetis (mp_edgeCount p + 1) ecm (Z.max (Z.max (largestVertex p) firstVertex) secondVertex)
    (vc + (if new_second then 1 else 0)) (nParts p) (outputFilePath p) zero (mp_graphID p) (graphType p)
    (Z.min (Z.min (smallestVertex p) firstVertex) secondVertex)
    (<[secondVertex := secondEdgeSet']> gsm) gem (vertexToIDMap p) (idToVertexMap p).

(** [std::getline] of the file: an empty line at its end and after it. *)
Definition next_line (lines : list (list ascii)) : list ascii * list (list ascii) :=
  match lines with [] => ([], []) | l :: ls => (l, ls) end.

(** Lines of splitters are skipped. *)
Fixpoint skip_blank (splitter : ascii) (lines : list (list ascii)) : list (list ascii) :=
  match lines with
  | [] => []
  | l :: ls => if decide (l <> [] /\ Forall (fun a => a = splitter) l) then skip_blank splitter ls
               else lines
  end.

(** The loop over the lines; an empty line ends it.  A line whose splitter
    was not found is a read of the uninitialised variable. *)
Fixpoint load_lines {S} (fuel : nat) (splitter : option ascii) (body : Z * Z -> S -> S)
    (lines : list (list ascii)) : M S unit :=
  match fuel with
  | O => out_of_fuel
  | Datatypes.S fuel' =>
      let '(line, rest) := next_line lines in
      if decide (line = []) then mret tt
      else
        d ← determinate splitter;
        e ← parse_edge d line;
        modify (body e);;
        load_lines fuel' splitter body (skip_blank d rest)
  end.

Definition over_lines {S} (body : Z * Z -> S -> S) (lines : list (list ascii)) : M S unit :=
  load_lines (Datatypes.S (length lines)) (find_splitter (next_line lines).1) body lines.

Definition set_output (graphID : Z) (path : string) (p : MetisPartitioner) : MetisPartitioner :=
  mkMetis (mp_edgeCount p) (edgeCountForMetis p) (largestVertex p) (mp_vertexCount p) (nParts p)
    path (zeroflag p) graphID (graphType p) (smallestVertex p)
    (graphStorageMap p) (graphEdgeMap p) (vertexToIDMap p) (idToVertexMap p).

(** [MetisPartitioner::loadDataSet]; [lines] are the lines of the file. *)
Definition loadDataSet (homeDir : string) (lines : list (list ascii)) (graphID : Z)
  : M MetisPartitioner unit :=
  modify (set_output graphID (homeDir +:+ "/.jasminegraph/tmp/" +:+ show_long graphID));;
  over_lines load_edge lines.

(** *** Renumbering *)

Definition assign_id (v : Z) (st : gmap Z Z * gmap Z Z * Z) : gmap Z Z * gmap Z Z * Z :=
  let '(toID, toVertex, idCounter) := st in
  match toID !! v with
  | Some _ => st
  | None => (<[v := idCounter]> toID, <[idCounter := v]> toVertex, idCounter + 1)
  end.

Record reformat_state := mkReformat {
  rs_toID : gmap Z Z;
  rs_toVertex : gmap Z Z;
  idCounter : Z;
  outFile : list (Z * Z)
}.

(** The body of [reformatDataSet]. *)
Definition reformat_edge (e : Z * Z) (r : reformat_state) : reformat_state :=
  let st := (rs_toID r, rs_toVertex r, idCounter r) in
  let '(toID, toVertex, n) := assign_id e.2 (assign_id e.1 st) in
  mkReformat toID toVertex n (outFile r ++ [(default 0 (toID !! e.1), default 0 (toID !! e.2))]).

(** [MetisPartitioner::reformatDataSet]: the edges it writes. *)
Definition reformatDataSet (graphID : Z) (lines : list (list ascii)) : M MetisPartitioner (list (Z * Z)) :=
  modify (fun p => set_output graphID (outputFilePath p) p);;
  zoom (fun p => mkReformat (vertexToIDMap p) (idToVertexMap p) 1 [])
    (fun r p =>
       mkMetis (mp_edgeCount p) (edgeCountForMetis p) (largestVertex p) (mp_vertexCount p) (nParts p)
         (outputFilePath p) (zeroflag p) (mp_graphID p) (graphType p) (smallestVertex p)
         (graphStorageMap p) (graphEdgeMap p) (rs_toID r) (rs_toVertex r))
    (over_lines reformat_edge lines;; r ← get_state; mret (outFile r)).

(** ** The input of [gpmetis] *)

Definition sort_ints (l : list Z) : list Z := merge_sort Z.le l.

(** The line of a vertex: its neighbours, a self loop twice, counted from 1
    when there is a vertex 0. *)
Definition metis_line (zero : bool) (vertexNum : Z) (vertexSet : list Z) : string :=
  foldr (fun i acc =>
    let n := show_long (if zero then i + 1 else i) in
    (if vertexNum =? i then n +:+ " " +:+ n +:+ " " else n +:+ " ") +:+ acc) "" (sort_ints vertexSet).

Definition set_type (t : string) (p : MetisPartitioner) : MetisPartitioner :=
  mkMetis (mp_edgeCount p) (edgeCountForMetis p) (largestVertex p) (mp_vertexCount p) (nParts p)
    (outputFilePath p) (zeroflag p) (mp_graphID p) t (smallestVertex p)
    (graphStorageMap p) (graphEdgeMap p) (vertexToIDMap p) (idToVertexMap p).

Definition clear_graph (p : MetisPartitioner) : MetisPartitioner :=
  mkMetis 0 0 0 0 (nParts p) (outputFilePath p) false (mp_graphID p) (graphType p) INT_MAX ∅ ∅
    (vertexToIDMap p) (idToVertexMap p).

(** The loop over the vertices: the lines, or nothing when a vertex above
    the smallest one has no neighbour. *)
Fixpoint metis_lines (p : MetisPartitioner) (vs : list Z) : option (list string) :=
  match vs with
  | [] => Some []
  | vertexNum :: vs' =>
      let vertexSet := at_key (graphStorageMap p) vertexNum in
      if decide (smallestVertex p < vertexNum /\ vertexSet = []) then None
      else if negb (zeroflag p) && (vertexNum =? 0) then metis_lines p vs'
      else cons (metis_line (zeroflag p) vertexNum vertexSet) <$> metis_lines p vs'
  end.

(** [MetisPartitioner::constructMetisFormat]: the result, the header and
    lines of the file when it is complete, and the partitioner. *)
Definition constructMetisFormat (graph_type : string) (p : MetisPartitioner)
  : Z * option (list string) * MetisPartitioner :=
  let p := set_type graph_type p in
  match metis_lines p (seqZ 0 (largestVertex p + 1)) with
  | Some ls =>
      (1, Some ((show_long (mp_vertexCount p) +:+ " " +:+ show_long (edgeCountForMetis p)) :: ls), p)
  | None => (0, None, clear_graph p)
  end.

(** The partition index read from the output of [gpmetis]. *)
Fixpoint read_part_index (counter : Z) (parts : list Z) : gmap Z Z :=
  match parts with
  | [] => ∅
  | a :: parts' => <[counter := a]> (read_part_index (counter + 1) parts')
  end.

(** ** The stores of the partitions *)

(** [partMap[v]], [idToVertexMap[v]]: a missing key reads as 0. *)
Definition part_of (partMap : gmap Z Z) (v : Z) : Z := default 0 (partMap !! v).
Definition actual (p : MetisPartitioner) (v : Z) : Z :=
  if decide (graphType p = GRAPH_TYPE_NORMAL_REFORMATTED) then default 0 (idToVertexMap p !! v) else v.

Record part_maps := mkPartMaps {
  partEdgesSet : edge_map;
  partMasterEdgesSet : edge_map;
  commonMasterEdgeSet : gmap Z edge_map;
  partitionEdgeCount : Z;
  masterEdges : Z;
  centralPartVertices : gset Z
}.

(** [m[i][j].push_back(x)]. *)
Definition push_common (m : gmap Z edge_map) (i j x : Z) : gmap Z edge_map :=
  let row := default ∅ (m !! i) in <[i := <[j := at_key row j ++ [x]]> row]> m.

(** One edge that starts in the partition. *)
Definition place_edge (p : MetisPartitioner) (partMap : gmap Z Z) (part start : Z)
    (st : list Z * list Z * part_maps) (endVertex : Z) : list Z * list Z * part_maps :=
  let '(localVector, centralVector, r) := st in
  let e := actual p endVertex in
  if part_of partMap endVertex =? part
  then (localVector ++ [e], centralVector,
        mkPartMaps (partEdgesSet r) (partMasterEdgesSet r) (commonMasterEdgeSet r)
          (partitionEdgeCount r + 1) (masterEdges r) (centralPartVertices r))
  else (localVector, centralVector ++ [e],
        mkPartMaps (partEdgesSet r) (partMasterEdgesSet r)
          (push_common (commonMasterEdgeSet r) (part_of partMap endVertex) start e)
          (partitionEdgeCount r) (masterEdges r + 1) ({[e]} ∪ centralPartVertices r)).

(** A vector that is not empty becomes the entry of the vertex. *)
Definition set_vector (m : edge_map) (v : Z) (l : list Z) : edge_map :=
  match l with [] => m | _ => <[v := l]> m end.

(** One vertex of the edge map. *)
Definition place_vertex (p : MetisPartitioner) (partMap : gmap Z Z) (part : Z) (r : part_maps)
    (e : Z * list Z) : part_maps :=
  if part_of partMap e.1 =? part then
    let start := actual p e.1 in
    let '(localVector, centralVector, r) := foldl (place_edge p partMap part start) ([], [], r) e.2 in
    mkPartMaps (set_vector (partEdgesSet r) start localVector)
      (set_vector (partMasterEdgesSet r) start centralVector) (commonMasterEdgeSet r)
      (partitionEdgeCount r) (masterEdges r) (centralPartVertices r)
  else r.

(** [MetisPartitioner::populatePartMaps]. *)
Definition populatePartMaps (p : MetisPartitioner) (partMap : gmap Z Z) (part : Z) : part_maps :=
  foldl (place_vertex p partMap part) (mkPartMaps ∅ ∅ ∅ 0 0 ∅) (entries (graphEdgeMap p)).

(** The parts [0 .. nParts - 1]. *)
Definition parts (p : MetisPartitioner) : list Z := seqZ 0 (nParts p).

(** The edges of [common] are appended to a duplicate store. *)
Definition append_edges (dup : edge_map) (common : edge_map) : edge_map :=
  foldl (fun m e => <[e.1 := at_key m e.1 ++ e.2]> m) dup (entries common).

(** The duplicate central store of [subPart]. *)
Definition duplicate_store (p : MetisPartitioner) (partMap : gmap Z Z) (subPart : Z) : edge_map :=
  foldl (fun dup part =>
    if part =? subPart then dup
    else append_edges dup (default ∅ (commonMasterEdgeSet (populatePartMaps p partMap part) !! subPart)))
    ∅ (parts p).

(** The size of a partition, as recorded in the database. *)
Definition partVertexCounts (p : MetisPartitioner) (partMap : gmap Z Z) (part : Z) : Z :=
  Z.of_nat (length (filter (fun i => part_of partMap i = part)
    (seqZ (smallestVertex p) (largestVertex p - smallestVertex p + 1)))).
Definition masterEdgeCountsWithDups (p : MetisPartitioner) (partMap : gmap Z Z) (subPart : Z) : Z :=
  foldl (fun acc part =>
    if part =? subPart then acc
    else foldl (fun acc (e : Z * list Z) => acc + Z.of_nat (length e.2)) acc
           (entries (default ∅ (commonMasterEdgeSet (populatePartMaps p partMap part) !! subPart))))
    (masterEdges (populatePartMaps p partMap subPart)) (parts p).

Section files.
Context {FB : FlatBuffers} {GZ : Gzip}.

(** A store is written and compressed. *)
Definition store_path (p : MetisPartitioner) (name part : string) : string :=
  outputFilePath p +:+ "/" +:+ show_long (mp_graphID p) +:+ name +:+ part.
Definition write_store (m : edge_map) (path : string) (fs : files) : files :=
  compressFile path (storePartEdgeMap m path fs).2.

(** [writeSerializedPartitionFiles], [writeSerializedMasterFiles] and
    [writeSerializedDuplicateMasterFiles], and the names they put into
    [fullFileList]. *)
Definition writeSerializedPartitionFiles (p : MetisPartitioner) (partMap : gmap Z Z) (part : Z)
    (fs : files) : files :=
  write_store (partEdgesSet (populatePartMaps p partMap part)) (store_path p "_" (show_long part)) fs.
Definition writeSerializedMasterFiles (p : MetisPartitioner) (partMap : gmap Z Z) (part : Z)
    (fs : files) : files :=
  write_store (partMasterEdgesSet (populatePartMaps p partMap part))
    (store_path p "_centralstore_" (show_long part)) fs.
Definition writeSerializedDuplicateMasterFiles (p : MetisPartitioner) (partMap : gmap Z Z) (part : Z)
    (fs : files) : files :=
  write_store (duplicate_store p partMap part) (store_path p "_centralstore_dp_" (show_long part)) fs.
Definition partition_file (p : MetisPartitioner) (part : Z) : string :=
  store_path p "_" (show_long part) +:+ ".gz".
Definition centralstore_file (p : MetisPartitioner) (part : Z) : string :=
  store_path p "_centralstore_" (show_long part) +:+ ".gz".
Definition duplicate_file (p : MetisPartitioner) (part : Z) : string :=
  store_path p "_centralstore_dp_" (show_long part) +:+ ".gz".
End files.

(** *** Composite central stores *)

(** One pass of the bubble sort over the first [n] pairs, and whether
    something was exchanged. *)
Fixpoint bubble (n : nat) (l : list Z) : list Z * bool :=
  match n, l with
  | S n', x :: y :: l' =>
      if x <? y then let '(r, _) := bubble n' (x :: l') in (y :: r, true)
      else let '(r, b) := bubble n' (y :: l') in (x :: r, b)
  | _, _ => (l, false)
  end.
Fixpoint bubble_sort (fuel j : nat) (l : list Z) : list Z :=
  match fuel with
  | O => l
  | S fuel' =>
      let '(l', haveSwapped) := bubble (length l - j) l in
      if haveSwapped then bubble_sort fuel' (S j) l' else l'
  end.

(** The groups: the sizes and the partitions of each. *)
Abbreviation groups := (gmap nat (list Z * list Z)).
Definition group_at (gs : groups) (i : nat) : list Z * list Z := default ([], []) (gs !! i).
Definition total (l : list Z) : Z := foldl Z.add 0 l.

(** The first group with the smallest total. *)
Definition min_group (gs : groups) : nat :=
  foldl (fun best i => if total (group_at gs i).1 <? total (group_at gs best).1 then i else best) 0%nat
    (seq 0 NUMBER_OF_COMPOSITE_CENTRAL_STORES).

(** The partitions are numbered in the order of the sorted sizes. *)
Fixpoint assign_groups (gs : groups) (partitionLoop : Z) (sizes : list Z) : groups :=
  match sizes with
  | [] => gs
  | centralStoreSize :: sizes' =>
      let i := min_group gs in
      let '(ss, ps) := group_at gs i in
      assign_groups (<[i := (ss ++ [centralStoreSize], ps ++ [partitionLoop])]> gs)
        (partitionLoop + 1) sizes'
  end.

(** A vector extended by the values it does not have. *)
Definition add_missing (l : list Z) (x : Z) : list Z := if decide (x ∈ l) then l else l ++ [x].
Definition merge_composite (m : edge_map) (store : edge_map) : edge_map :=
  foldl (fun m e => <[e.1 := foldl add_missing (at_key m e.1) e.2]> m) m (entries store).

(** The name and the store of a group of partitions. *)
Definition composite_name (ps : list Z) : string :=
  let s := foldl (fun acc q => show_long q +:+ "_" +:+ acc) "" ps in
  String.substring 0 (String.length s - 1) s.
Definition composite_store (p : MetisPartitioner) (partMap : gmap Z Z) (ps : list Z) : edge_map :=
  foldl (fun m q => merge_composite m (partMasterEdgesSet (populatePartMaps p partMap q))) ∅ ps.

(** The composite stores [createPartitionFiles] writes, by name. *)
Definition composite_stores (p : MetisPartitioner) (partMap : gmap Z Z) : list (string * edge_map) :=
  if COMPOSITE_CENTRAL_STORE_WORKER_THRESHOLD <? nParts p then
    let sizes := (fun q => masterEdges (populatePartMaps p partMap q)) <$> parts p in
    let gs := assign_groups ∅ 0 (bubble_sort (length sizes - 1) 1 sizes) in
    omap (fun i => match (group_at gs i).2 with
                   | [] => None
                   | ps => Some (composite_name ps, composite_store p partMap ps)
                   end) (seq 0 NUMBER_OF_COMPOSITE_CENTRAL_STORES)
  else [].

(** [MetisPartitioner::createPartitionFiles]: the files of all partitions. *)
Definition metis_createPartitionFiles {FB : FlatBuffers} {GZ : Gzip} (p : MetisPartitioner) (partMap : gmap Z Z)
    (fs : files) : files :=
  let fs := foldl (fun fs part =>
    writeSerializedDuplicateMasterFiles p partMap part
      (writeSerializedMasterFiles p partMap part
         (writeSerializedPartitionFiles p partMap part fs))) fs (parts p) in
  foldl (fun fs e => write_store e.2 (store_path p "_compositecentralstore_" e.1) fs) fs
    (composite_stores p partMap).
