(* ===== verification/MetisTheory.v ===== *)
(** * MetisTheory: what the static partitioner stores where

    Every edge of the graph is in exactly one local store or in one central
    store and one duplicate central store; what reading the edge list counts. *)
From Stdlib Require Import ZArith Ascii String Lia.
From stdpp Require Import base tactics numbers list sorting strings gmap.
From S2P Require Import Prelude Triangles TrianglesTheory HashMapStores Shell HashMapTheory Metis.

(** ** Vectors in maps *)

Lemma at_key_insert m v l w : at_key (<[v := l]> m) w = if decide (v = w) then l else at_key m w.
Proof.
  unfold at_key. case_decide as H; [subst; by rewrite lookup_insert_eq|by rewrite lookup_insert_ne].
Qed.

Lemma at_key_none m v : m !! v = None -> at_key m v = [].
Proof. unfold at_key. by intros ->. Qed.

Lemma at_key_set_vector m v l w :
  m !! v = None -> at_key (set_vector m v l) w = if decide (v = w) then l else at_key m w.
Proof.
  intros Hv. unfold set_vector. destruct l as [|a l]; [|apply at_key_insert].
  case_decide as H; [subst; by apply at_key_none|done].
Qed.

Lemma lookup_set_vector_ne m v l w : v <> w -> set_vector m v l !! w = m !! w.
Proof. intros H. unfold set_vector. destruct l; [done|]. by rewrite lookup_insert_ne. Qed.

(** The vector of a two-level map. *)
Definition at_keys (m : gmap Z edge_map) (i j : Z) : list Z := at_key (default ∅ (m !! i)) j.

Lemma at_keys_push m i j x i' j' :
  at_keys (push_common m i j x) i' j' =
    if decide (i = i' /\ j = j') then at_keys m i' j' ++ [x] else at_keys m i' j'.
Proof.
  unfold at_keys, push_common. destruct (decide (i = i')) as [<-|Hi].
  - rewrite lookup_insert_eq. cbn [default from_option Datatypes.id]. rewrite at_key_insert.
    destruct (decide (j = j')) as [<-|Hj].
    + by rewrite (decide_True (P := i = i /\ j = j)).
    + rewrite (decide_False (P := i = i /\ j = j')); [done|]. tauto.
  - rewrite lookup_insert_ne by done. rewrite decide_False; [done|]. tauto.
Qed.

Lemma elem_of_push m i j x i' j' y :
  y ∈ at_keys (push_common m i j x) i' j' <-> y ∈ at_keys m i' j' \/ (i = i' /\ j = j' /\ y = x).
Proof.
  rewrite at_keys_push. case_decide as H; rewrite ?elem_of_app, ?list_elem_of_singleton; naive_solver.
Qed.

(** ** One partition *)

Section populate.
Context (p : MetisPartitioner) (partMap : gmap Z Z) (part : Z).
Abbreviation home := (part_of partMap).
Abbreviation name := (actual p).

Lemma place_edges_spec start es l c r :
  let '(l', c', r') := foldl (place_edge p partMap part start) (l, c, r) es in
  l' = l ++ (name <$> filter (fun v => home v = part) es) /\
  c' = c ++ (name <$> filter (fun v => home v <> part) es) /\
  partEdgesSet r' = partEdgesSet r /\ partMasterEdgesSet r' = partMasterEdgesSet r /\
  partitionEdgeCount r' = partitionEdgeCount r + Z.of_nat (length (filter (fun v => home v = part) es)) /\
  masterEdges r' = masterEdges r + Z.of_nat (length (filter (fun v => home v <> part) es)) /\
  forall i j y, y ∈ at_keys (commonMasterEdgeSet r') i j <->
    y ∈ at_keys (commonMasterEdgeSet r) i j \/
    (j = start /\ exists v, v ∈ es /\ home v = i /\ i <> part /\ y = name v).
Proof.
  revert l c r. induction es as [|v es IH]; intros l c r; cbn [foldl].
  { rewrite !app_nil_r. cbn. split_and!; try (done || lia). intros i j y.
    split; [by left|]. intros [?|(_ & v & ?%not_elem_of_nil & _)]; done. }
  unfold place_edge at 2. destruct (Z.eqb_spec (home v) part) as [Hv|Hv].
  - specialize (IH (l ++ [name v]) c
      (mkPartMaps (partEdgesSet r) (partMasterEdgesSet r) (commonMasterEdgeSet r)
         (partitionEdgeCount r + 1) (masterEdges r) (centralPartVertices r))).
    destruct (foldl _ _ es) as [[l' c'] r']. destruct IH as (-> & -> & -> & -> & -> & -> & HC).
    rewrite !filter_cons, (decide_True (P := home v = part)), (decide_False (P := home v <> part)) by tauto.
    rewrite fmap_cons, <- app_assoc. cbn [length commonMasterEdgeSet partEdgesSet partMasterEdgesSet
      partitionEdgeCount masterEdges] in *. split_and!; try (done || lia).
    intros i j y. rewrite HC. setoid_rewrite elem_of_cons. naive_solver.
  - specialize (IH l (c ++ [name v])
      (mkPartMaps (partEdgesSet r) (partMasterEdgesSet r)
         (push_common (commonMasterEdgeSet r) (home v) start (name v))
         (partitionEdgeCount r) (masterEdges r + 1) ({[name v]} ∪ centralPartVertices r))).
    destruct (foldl _ _ es) as [[l' c'] r']. destruct IH as (-> & -> & -> & -> & -> & -> & HC).
    rewrite !filter_cons, (decide_False (P := home v = part)), (decide_True (P := home v <> part)) by tauto.
    rewrite fmap_cons, <- app_assoc. cbn [length commonMasterEdgeSet partEdgesSet partMasterEdgesSet
      partitionEdgeCount masterEdges] in *. split_and!; try (done || lia).
    intros i j y. rewrite HC, elem_of_push. setoid_rewrite elem_of_cons. naive_solver.
Qed.

(** One vertex of the partition, whose entries are new. *)
Lemma place_vertex_spec e r :
  home e.1 = part -> partEdgesSet r !! name e.1 = None -> partMasterEdgesSet r !! name e.1 = None ->
  let r1 := place_vertex p partMap part r e in
  (forall x y, y ∈ at_key (partEdgesSet r1) x <-> y ∈ at_key (partEdgesSet r) x \/
     (x = name e.1 /\ exists v, v ∈ e.2 /\ home v = part /\ y = name v)) /\
  (forall x y, y ∈ at_key (partMasterEdgesSet r1) x <-> y ∈ at_key (partMasterEdgesSet r) x \/
     (x = name e.1 /\ exists v, v ∈ e.2 /\ home v <> part /\ y = name v)) /\
  (forall i x y, y ∈ at_keys (commonMasterEdgeSet r1) i x <-> y ∈ at_keys (commonMasterEdgeSet r) i x \/
     (x = name e.1 /\ exists v, v ∈ e.2 /\ home v = i /\ i <> part /\ y = name v)) /\
  forall w, name e.1 <> w -> partEdgesSet r !! w = None /\ partMasterEdgesSet r !! w = None ->
    partEdgesSet r1 !! w = None /\ partMasterEdgesSet r1 !! w = None.
Proof.
  intros Hh He1 He2. unfold place_vertex. rewrite (proj2 (Z.eqb_eq _ _) Hh).
  pose proof (place_edges_spec (name e.1) e.2 [] [] r) as S.
  destruct (foldl _ _ e.2) as [[l' c'] r']. destruct S as (-> & -> & E1 & E2 & _ & _ & HC).
  cbn [partEdgesSet partMasterEdgesSet commonMasterEdgeSet app].
  rewrite E1, E2. split_and!; [| |done|].
  - intros x y. rewrite at_key_set_vector by done. case_decide as Hx; [subst x|naive_solver].
    rewrite (at_key_none _ _ He1). rewrite list_elem_of_fmap. setoid_rewrite list_elem_of_filter.
    split; [naive_solver|]. intros [?%not_elem_of_nil|?]; naive_solver.
  - intros x y. rewrite at_key_set_vector by done. case_decide as Hx; [subst x|naive_solver].
    rewrite (at_key_none _ _ He2). rewrite list_elem_of_fmap. setoid_rewrite list_elem_of_filter.
    split; [naive_solver|]. intros [?%not_elem_of_nil|?]; naive_solver.
  - intros w Hw H. by rewrite !lookup_set_vector_ne.
Qed.

(** The part of the edges of [l] that a store takes. *)
Definition taken (l : list (Z * list Z)) (q : Z -> Prop) (x y : Z) : Prop :=
  exists u vs v, (u, vs) ∈ l /\ v ∈ vs /\ home u = part /\ q (home v) /\ x = name u /\ y = name v.

Lemma taken_cons e l q x y :
  taken (e :: l) q x y <->
  (exists v, v ∈ e.2 /\ home e.1 = part /\ q (home v) /\ x = name e.1 /\ y = name v) \/ taken l q x y.
Proof.
  unfold taken. setoid_rewrite elem_of_cons. destruct e as [u vs]. cbn [fst snd]. split.
  - intros (u' & vs' & v & [[= -> ->]|H] & ?); [left; by exists v|right; by exists u', vs', v].
  - intros [(v & ?)|(u' & vs' & v & ? & ?)]; [exists u, vs, v; tauto|exists u', vs', v; tauto].
Qed.

Lemma place_vertices_spec l r :
  NoDup ((fun e => name e.1) <$> l) ->
  (forall e, e ∈ l -> partEdgesSet r !! name e.1 = None /\ partMasterEdgesSet r !! name e.1 = None) ->
  let r' := foldl (place_vertex p partMap part) r l in
  (forall x y, y ∈ at_key (partEdgesSet r') x <->
     y ∈ at_key (partEdgesSet r) x \/ taken l (fun h => h = part) x y) /\
  (forall x y, y ∈ at_key (partMasterEdgesSet r') x <->
     y ∈ at_key (partMasterEdgesSet r) x \/ taken l (fun h => h <> part) x y) /\
  (forall i x y, y ∈ at_keys (commonMasterEdgeSet r') i x <->
     y ∈ at_keys (commonMasterEdgeSet r) i x \/ (i <> part /\ taken l (fun h => h = i) x y)).
Proof.
  revert r. induction l as [|e l IH]; intros r Hnd Hr; cbn [foldl].
  { cbn. assert (forall q x y, ~ taken [] q x y) as Hn
      by (intros q x y (u & vs & v & ?%not_elem_of_nil & _); done).
    split_and!; intros; naive_solver. }
  rewrite fmap_cons, NoDup_cons in Hnd. destruct Hnd as [He Hnd].
  destruct (Hr e ltac:(left)) as [He1 He2].
  assert (forall e', e' ∈ l -> name e.1 <> name e'.1) as Hne.
  { intros e' H' E. apply He. rewrite E. exact (list_elem_of_fmap_2 (fun e => name e.1) l e' H'). }
  destruct (decide (home e.1 = part)) as [Hh|Hh].
  - destruct (place_vertex_spec e r Hh He1 He2) as (H1 & H2 & H3 & H4).
    set (r1 := place_vertex p partMap part r e) in *.
    destruct (IH r1 Hnd) as (I1 & I2 & I3).
    { intros e' H'. apply H4; [by apply Hne|]. apply Hr. by right. }
    split_and!.
    + intros x y. rewrite I1, H1, taken_cons. naive_solver.
    + intros x y. rewrite I2, H2, taken_cons. naive_solver.
    + intros i x y. rewrite I3, H3, taken_cons. naive_solver.
  - assert (place_vertex p partMap part r e = r) as ->.
    { unfold place_vertex. by rewrite (proj2 (Z.eqb_neq _ _) Hh). }
    destruct (IH r Hnd) as (I1 & I2 & I3); [intros e' H'; apply Hr; by right|]. split_and!.
    + intros x y. rewrite I1, taken_cons. naive_solver.
    + intros x y. rewrite I2, taken_cons. naive_solver.
    + intros i x y. rewrite I3, taken_cons. naive_solver.
Qed.
End populate.

(** ** All partitions *)

(** The edges of the graph, by the names of the input file. *)
Definition edges_of (p : MetisPartitioner) (x y : Z) : Prop :=
  exists u v, v ∈ at_key (graphEdgeMap p) u /\ x = actual p u /\ y = actual p v.

Section stores.
Context (p : MetisPartitioner) (partMap : gmap Z Z) (home : Z -> Z).
(** Different vertices have different names, and the partition of a vertex
    is a function of its name. *)
Hypothesis Hinj : NoDup (actual p <$> (entries (graphEdgeMap p)).*1).
Hypothesis Hhome : forall u v, v ∈ at_key (graphEdgeMap p) u ->
  home (actual p u) = part_of partMap u /\ home (actual p v) = part_of partMap v.

Lemma taken_edges part q x y :
  taken p partMap part (entries (graphEdgeMap p)) q x y <-> edges_of p x y /\ home x = part /\ q (home y).
Proof.
  unfold taken, edges_of. split.
  - intros (u & vs & v & Hu%elem_of_entries & Hv & H1 & H2 & -> & ->).
    assert (v ∈ at_key (graphEdgeMap p) u) as Hin by (unfold at_key; by rewrite Hu).
    destruct (Hhome u v Hin) as [-> ->]. split; [|done]. by exists u, v.
  - intros ((u & v & Hin & -> & ->) & H1 & H2). destruct (Hhome u v Hin) as [E1 E2].
    rewrite E1 in H1. rewrite E2 in H2. pose proof Hin as Hin'. unfold at_key in Hin'.
    destruct (graphEdgeMap p !! u) as [vs|] eqn:Hu; [|by apply not_elem_of_nil in Hin'].
    exists u, vs, v. by rewrite elem_of_entries.
Qed.

Lemma populate_spec part :
  let r := populatePartMaps p partMap part in
  (forall x y, y ∈ at_key (partEdgesSet r) x <-> edges_of p x y /\ home x = part /\ home y = part) /\
  (forall x y, y ∈ at_key (partMasterEdgesSet r) x <-> edges_of p x y /\ home x = part /\ home y <> part) /\
  (forall i x y, y ∈ at_keys (commonMasterEdgeSet r) i x <->
     i <> part /\ edges_of p x y /\ home x = part /\ home y = i).
Proof.
  destruct (place_vertices_spec p partMap part (entries (graphEdgeMap p)) (mkPartMaps ∅ ∅ ∅ 0 0 ∅))
    as (H1 & H2 & H3).
  { rewrite <- list_fmap_compose in Hinj. exact Hinj. }
  { intros e _. cbn. by rewrite !lookup_empty. }
  unfold populatePartMaps. cbn [partEdgesSet partMasterEdgesSet commonMasterEdgeSet] in *.
  assert (forall x y, ~ y ∈ at_key ∅ x) as Hn by (intros x y; unfold at_key; rewrite lookup_empty; apply not_elem_of_nil).
  split_and!.
  - intros x y. rewrite H1, taken_edges. specialize (Hn x y). tauto.
  - intros x y. rewrite H2, taken_edges. specialize (Hn x y). tauto.
  - intros i x y. rewrite H3, taken_edges. unfold at_keys at 1. rewrite lookup_empty. specialize (Hn x y).
    cbn [default from_option Datatypes.id]. tauto.
Qed.

Lemma append_edges_spec dup common x y :
  y ∈ at_key (append_edges dup common) x <-> y ∈ at_key dup x \/ y ∈ at_key common x.
Proof.
  unfold append_edges.
  assert (forall l m, NoDup (l.*1) -> y ∈ at_key (foldl (fun m e => <[e.1 := at_key m e.1 ++ e.2]> m) m l) x <->
    y ∈ at_key m x \/ exists vs, (x, vs) ∈ l /\ y ∈ vs) as H.
  { induction l as [|[v vs] l IH]; intros m Hnd; cbn [foldl].
    { split; [by left|]. intros [?|(vs & ?%not_elem_of_nil & _)]; done. }
    rewrite fmap_cons, NoDup_cons in Hnd. destruct Hnd as [Hv Hnd]. rewrite IH by done. cbn [fst snd].
    rewrite at_key_insert. setoid_rewrite elem_of_cons. case_decide as Hx; [subst v|].
    - rewrite elem_of_app. naive_solver.
    - naive_solver. }
  rewrite H by apply entries_nodup. unfold at_key at 3. setoid_rewrite elem_of_entries. split.
  - intros [?|(vs & -> & ?)]; [by left|by right].
  - intros [?|Hy]; [by left|right]. destruct (common !! x) as [vs|]; [by exists vs|by apply not_elem_of_nil in Hy].
Qed.

Lemma duplicate_spec subPart x y :
  (forall v, 0 <= home v < nParts p) ->
  y ∈ at_key (duplicate_store p partMap subPart) x <->
    edges_of p x y /\ home x <> subPart /\ home y = subPart.
Proof.
  intros Hrange. unfold duplicate_store.
  assert (forall l m, y ∈ at_key (foldl (fun dup part => if part =? subPart then dup
      else append_edges dup (default ∅ (commonMasterEdgeSet (populatePartMaps p partMap part) !! subPart))) m l) x <->
    y ∈ at_key m x \/ exists part, part ∈ l /\ part <> subPart /\ edges_of p x y /\ home x = part /\ home y = subPart) as H.
  { induction l as [|part l IH]; intros m; cbn [foldl].
    { split; [by left|]. intros [?|(? & ?%not_elem_of_nil & _)]; done. }
    rewrite IH. setoid_rewrite elem_of_cons. destruct (Z.eqb_spec part subPart) as [->|Hne]; [naive_solver|].
    rewrite append_edges_spec. change (at_key (default ∅ ?m) x) with (at_keys (commonMasterEdgeSet (populatePartMaps p partMap part)) subPart x).
    destruct (populate_spec part) as (_ & _ & ->). naive_solver. }
  rewrite H. unfold at_key at 1. rewrite lookup_empty, elem_of_nil. split.
  - intros [[]|(part & _ & Hne & He & <- & Hy)]. done.
  - intros (He & Hne & Hy). right. exists (home x). split; [|done]. apply elem_of_seqZ. specialize (Hrange x). lia.
Qed.
End stores.

(** C16. Where the edges of a graph go: the local store of a partition has the
    edges inside of it, its central store the edges that leave it and its
    duplicate central store the edges that arrive in it from other
    partitions. *)
Theorem metis_stores (p : MetisPartitioner) (partMap : gmap Z Z) (home : Z -> Z) (part : Z) :
  NoDup (actual p <$> (entries (graphEdgeMap p)).*1) ->
  (forall u v, v ∈ at_key (graphEdgeMap p) u ->
     home (actual p u) = part_of partMap u /\ home (actual p v) = part_of partMap v) ->
  (forall v, 0 <= home v < nParts p) ->
  forall x y,
    (y ∈ at_key (partEdgesSet (populatePartMaps p partMap part)) x <->
       edges_of p x y /\ home x = part /\ home y = part) /\
    (y ∈ at_key (partMasterEdgesSet (populatePartMaps p partMap part)) x <->
       edges_of p x y /\ home x = part /\ home y <> part) /\
    (y ∈ at_key (duplicate_store p partMap part) x <->
       edges_of p x y /\ home x <> part /\ home y = part).
Proof.
  intros Hi Hh Hr x y. destruct (populate_spec p partMap home Hi Hh part) as (H1 & H2 & _).
  split_and!; [apply H1|apply H2|by apply duplicate_spec].
Qed.

(** ** Reading the edge list *)

Definition vertices_of (es : list (Z * Z)) : gset Z := list_to_set (es.*1 ++ es.*2).
Definition ordered (e : Z * Z) : Z * Z := (Z.min e.1 e.2, Z.max e.1 e.2).
(** The edges without their direction. *)
Definition undirected_of (es : list (Z * Z)) : gset (Z * Z) := list_to_set (ordered <$> es).

(** What the partitioner knows after the edges [es]. *)
Record loaded (es : list (Z * Z)) (p : MetisPartitioner) : Prop := {
  ld_edges : forall u, at_key (graphEdgeMap p) u = (filter (fun e => e.1 = u) es).*2;
  ld_neighbours : forall u v, v ∈ at_key (graphStorageMap p) u <-> (u, v) ∈ es \/ (v, u) ∈ es;
  ld_nodup : forall u, NoDup (at_key (graphStorageMap p) u);
  ld_edgeCount : mp_edgeCount p = Z.of_nat (length es);
  ld_vertexCount : mp_vertexCount p = Z.of_nat (size (vertices_of es));
  ld_metisCount : edgeCountForMetis p = Z.of_nat (size (undirected_of es));
  ld_zero : zeroflag p = bool_decide (0 ∈ vertices_of es);
  ld_bounds : Forall (fun e => smallestVertex p <= Z.min e.1 e.2 /\ Z.max e.1 e.2 <= largestVertex p) es;
  ld_ends : (smallestVertex p = INT_MAX \/ smallestVertex p ∈ vertices_of es) /\
    (largestVertex p = 0 \/ largestVertex p ∈ vertices_of es)
}.

Lemma elem_of_vertices es v : v ∈ vertices_of es <-> exists w, (v, w) ∈ es \/ (w, v) ∈ es.
Proof.
  unfold vertices_of. rewrite elem_of_list_to_set, elem_of_app, !list_elem_of_fmap. split.
  - intros [([a b] & -> & H)|([a b] & -> & H)]; cbn; eauto.
  - intros (w & [H|H]); [left|right]; eexists; (split; [|exact H]); done.
Qed.

Lemma vertices_snoc es e : vertices_of (es ++ [e]) = {[e.1]} ∪ ({[e.2]} ∪ vertices_of es).
Proof.
  unfold vertices_of. apply set_eq. intros x. rewrite !fmap_app. cbn [fmap list_fmap].
  rewrite !elem_of_union, !elem_of_list_to_set, !elem_of_app, !list_elem_of_singleton, !elem_of_singleton. tauto.
Qed.

Lemma elem_of_undirected es u v :
  (u, v) ∈ es \/ (v, u) ∈ es <-> ordered (u, v) ∈ undirected_of es.
Proof.
  unfold undirected_of. rewrite elem_of_list_to_set, list_elem_of_fmap. unfold ordered. cbn [fst snd]. split.
  - intros [H|H]; [exists (u, v)|exists (v, u)]; cbn; (split; [|done]); f_equal; lia.
  - intros ([a b] & [= H1 H2] & H). cbn in H1, H2. destruct (Z.le_gt_cases u v), (Z.le_gt_cases a b).
    + left. replace u with a by lia. by replace v with b by lia.
    + right. replace v with a by lia. by replace u with b by lia.
    + right. replace v with a by lia. by replace u with b by lia.
    + left. replace u with a by lia. by replace v with b by lia.
Qed.

Lemma add_missing_cases l x :
  (if decide (l = []) then [x] else if decide (x ∈ l) then l else l ++ [x]) = add_missing l x.
Proof.
  unfold add_missing. destruct (decide (l = [])) as [->|]; [|done].
  by rewrite decide_False by apply not_elem_of_nil.
Qed.

Lemma elem_of_add_missing l x y : y ∈ add_missing l x <-> y ∈ l \/ y = x.
Proof.
  unfold add_missing. case_decide; rewrite ?elem_of_app, ?list_elem_of_singleton; naive_solver.
Qed.

Lemma NoDup_add_missing l x : NoDup l -> NoDup (add_missing l x).
Proof.
  intros H. unfold add_missing. case_decide; [done|]. apply NoDup_app. split_and!; [done| |apply NoDup_singleton].
  intros y Hy ?%list_elem_of_singleton. congruence.
Qed.

(** Both neighbour lists of an edge are extended. *)
Lemma load_edge_storage f s p :
  graphStorageMap (load_edge (f, s) p) =
    let m := <[f := add_missing (at_key (graphStorageMap p) f) s]> (graphStorageMap p) in
    <[s := add_missing (at_key m s) f]> m.
Proof. cbn [load_edge graphStorageMap]. rewrite !add_missing_cases. done. Qed.

Lemma storage_at f s p u :
  at_key (graphStorageMap (load_edge (f, s) p)) u =
    let l := at_key (graphStorageMap p) u in
    let l := if decide (f = u) then add_missing l s else l in
    if decide (s = u) then add_missing l f else l.
Proof.
  rewrite load_edge_storage. cbn zeta. rewrite at_key_insert. destruct (decide (s = u)) as [<-|Hs].
  - rewrite at_key_insert. destruct (decide (f = s)) as [<-|]; done.
  - rewrite at_key_insert. destruct (decide (f = u)) as [<-|]; done.
Qed.

Section step.
Context (es : list (Z * Z)) (p : MetisPartitioner) (L : loaded es p) (f s : Z).

Lemma isolated v : at_key (graphStorageMap p) v = [] <-> v ∉ vertices_of es.
Proof.
  rewrite elem_of_vertices. setoid_rewrite <- (ld_neighbours _ _ L). split.
  - intros -> (w & H). by apply not_elem_of_nil in H.
  - intros H. destruct (at_key (graphStorageMap p) v) as [|w l]; [done|]. exfalso. apply H. exists w. left.
Qed.

Lemma load_vertexCount :
  mp_vertexCount (load_edge (f, s) p) = Z.of_nat (size (vertices_of (es ++ [(f, s)]))).
Proof.
  assert (forall (X : gset Z) v, Z.of_nat (size ({[v]} ∪ X)) = Z.of_nat (size X) + if decide (v ∈ X) then 0 else 1) as Hsz.
  { intros X v. case_decide.
    - replace ({[v]} ∪ X) with X by set_solver. lia.
    - rewrite size_union, size_singleton by set_solver. lia. }
  rewrite vertices_snoc, !Hsz. cbn [fst snd]. cbn [load_edge mp_vertexCount]. rewrite add_missing_cases, at_key_insert.
  rewrite (ld_vertexCount _ _ L). pose proof (isolated f) as Hf. pose proof (isolated s) as Hs.
  destruct (decide (at_key (graphStorageMap p) f = [])) as [Ef|Ef].
  - apply Hf in Ef. destruct (decide (f = s)) as [<-|Hne].
    + rewrite (decide_False (P := add_missing _ _ = [])).
      2: { intros E. assert (f ∈ add_missing (at_key (graphStorageMap p) f) f) as H by (apply elem_of_add_missing; by right).
           rewrite E in H. by apply not_elem_of_nil in H. }
      rewrite (decide_False (P := f ∈ vertices_of es)) by done.
      rewrite (decide_True (P := f ∈ {[f]} ∪ vertices_of es)) by set_solver. lia.
    + rewrite (decide_False (P := f ∈ {[s]} ∪ vertices_of es)) by set_solver.
      destruct (decide (at_key (graphStorageMap p) s = [])) as [Es|Es].
      * rewrite decide_False by (by apply Hs). lia.
      * rewrite decide_True by (destruct (decide (s ∈ vertices_of es)); tauto). lia.
  - assert (f ∈ vertices_of es) as Hfin by (destruct (decide (f ∈ vertices_of es)); tauto).
    rewrite (decide_True (P := f ∈ {[s]} ∪ vertices_of es)) by set_solver.
    destruct (decide (f = s)) as [<-|Hne].
    + rewrite (decide_True (P := f ∈ vertices_of es)) by done. rewrite decide_False; [lia|].
      intros E. assert (f ∈ add_missing (at_key (graphStorageMap p) f) f) as H by (apply elem_of_add_missing; by right).
      rewrite E in H. by apply not_elem_of_nil in H.
    + destruct (decide (at_key (graphStorageMap p) s = [])) as [Es|Es].
      * rewrite decide_False by (by apply Hs). lia.
      * rewrite decide_True by (destruct (decide (s ∈ vertices_of es)); tauto). lia.
Qed.

Lemma load_metisCount :
  edgeCountForMetis (load_edge (f, s) p) = Z.of_nat (size (undirected_of (es ++ [(f, s)]))).
Proof.
  cbn [load_edge edgeCountForMetis]. rewrite (ld_metisCount _ _ L).
  assert (undirected_of (es ++ [(f, s)]) = {[ordered (f, s)]} ∪ undirected_of es) as ->.
  { unfold undirected_of. apply set_eq. intros x. rewrite fmap_app. cbn [fmap list_fmap].
    rewrite !elem_of_union, !elem_of_list_to_set, elem_of_app, list_elem_of_singleton, elem_of_singleton. tauto. }
  pose proof (ld_neighbours _ _ L f s) as Hn. rewrite elem_of_undirected in Hn.
  destruct (decide (ordered (f, s) ∈ undirected_of es)) as [Hin|Hin].
  - rewrite subseteq_union_1_L by (by apply singleton_subseteq_l).
    apply Hn in Hin. rewrite (decide_False (P := at_key _ _ = [])), (decide_True (P := s ∈ _)); [lia|done|].
    intros E. rewrite E in Hin. by apply not_elem_of_nil in Hin.
  - rewrite size_union, size_singleton by (by apply disjoint_singleton_l).
    rewrite (decide_False (P := s ∈ _)) by tauto. destruct (decide _); lia.
Qed.
End step.

Lemma loaded_step es p e : loaded es p -> loaded (es ++ [e]) (load_edge e p).
Proof.
  intros L. destruct e as [f s]. split.
  - intros u. cbn [load_edge graphEdgeMap]. rewrite at_key_insert, filter_app, fmap_app, filter_cons. cbn [fst].
    destruct (decide (f = u)) as [<-|Hne]; rewrite ?filter_nil; cbn [fmap list_fmap];
      rewrite (ld_edges _ _ L); [done|by rewrite app_nil_r].
  - intros u v. rewrite storage_at. cbn zeta. pose proof (ld_neighbours _ _ L u v) as Hn.
    rewrite !elem_of_app, !list_elem_of_singleton.
    destruct (decide (s = u)), (decide (f = u)); rewrite ?elem_of_add_missing, Hn; naive_solver.
  - intros u. rewrite storage_at. cbn zeta. pose proof (ld_nodup _ _ L u).
    destruct (decide (s = u)), (decide (f = u)); auto using NoDup_add_missing.
  - cbn [load_edge mp_edgeCount]. rewrite (ld_edgeCount _ _ L), length_app. cbn. lia.
  - by apply load_vertexCount.
  - by apply load_metisCount.
  - cbn [load_edge zeroflag]. rewrite (ld_zero _ _ L), vertices_snoc. cbn [fst snd].
    rewrite (bool_decide_ext (0 ∈ {[f]} ∪ ({[s]} ∪ vertices_of es)) (0 ∈ vertices_of es \/ (f = 0 \/ s = 0)))
      by set_solver.
    rewrite !bool_decide_or. f_equal. f_equal; (destruct (Z.eqb_spec f 0) || idtac); case_bool_decide; try done; by destruct (Z.eqb_spec s 0).
  - apply Forall_app. split; [|constructor; [cbn; lia|constructor]].
    eapply Forall_impl; [exact (ld_bounds _ _ L)|]. intros e. cbn [load_edge smallestVertex largestVertex]. lia.
  - rewrite vertices_snoc. cbn [load_edge smallestVertex largestVertex fst snd]. destruct (ld_ends _ _ L) as [H1 H2].
    split; [destruct (Z.min_spec (smallestVertex p) f) as [[_ ->]|[_ ->]], (Z.min_spec f s) as [[_ E]|[_ E]],
      (Z.min_spec (smallestVertex p) s) as [[_ E']|[_ E']]
    |destruct (Z.max_spec (largestVertex p) f) as [[_ ->]|[_ ->]], (Z.max_spec f s) as [[_ E]|[_ E]],
      (Z.max_spec (largestVertex p) s) as [[_ E']|[_ E']]]; rewrite ?E, ?E'; set_solver.
Qed.

Lemma loaded_new n : loaded [] (newMetisPartitioner n).
Proof.
  split; try done.
  - intros u v. cbn. unfold at_key. rewrite lookup_empty. cbn. rewrite !elem_of_nil. tauto.
  - intros u. unfold at_key. cbn. rewrite lookup_empty. constructor.
  - split; by left.
Qed.

Lemma load_all n es : loaded es (foldl (fun p e => load_edge e p) (newMetisPartitioner n) es).
Proof.
  induction es as [|e es IH] using rev_ind; [apply loaded_new|]. rewrite foldl_snoc. by apply loaded_step.
Qed.

(** *** From the text *)

Definition is_splitter (d : ascii) : Prop := d = " "%char \/ d = "009"%char \/ d = ","%char.
Definition edge_line (d : ascii) (e : Z * Z) : list ascii := chars (show_long e.1) ++ d :: chars (show_long e.2).

Lemma splitter_avoids d z : is_splitter d -> d ∉ chars (show_long z).
Proof. intros [->|[->| ->]]; by apply show_long_avoids. Qed.

Lemma find_splitter_line d e : is_splitter d -> find_splitter (edge_line d e) = Some d.
Proof.
  intros Hd. unfold find_splitter, edge_line.
  assert (forall a, is_splitter a -> a <> d -> a ∉ chars (show_long e.1) ++ d :: chars (show_long e.2)) as Hne.
  { intros a Ha Hn. rewrite not_elem_of_app, not_elem_of_cons. split_and!; [|done|]; by apply splitter_avoids. }
  assert (d ∈ chars (show_long e.1) ++ d :: chars (show_long e.2)) as Hin by (rewrite elem_of_app; right; left).
  destruct Hd as [->|[->| ->]].
  - by rewrite decide_True.
  - rewrite decide_False by (apply Hne; unfold is_splitter; auto). by rewrite decide_True.
  - rewrite decide_False by (apply Hne; unfold is_splitter; auto).
    rewrite decide_False by (apply Hne; unfold is_splitter; auto). by rewrite decide_True.
Qed.

Lemma until_char_word d l r : d ∉ l -> until_char d (l ++ d :: r) = (l, r).
Proof.
  induction l as [|a l IH]; cbn; intros H; [by rewrite decide_True|].
  rewrite not_elem_of_cons in H. destruct H as [H1 H2]. rewrite decide_False by done. by rewrite IH.
Qed.

Lemma word_no_space l : (forall a, a ∈ l -> is_space a = false) -> take_word (drop_spaces l) = l.
Proof.
  intros H. destruct l as [|a l]; [done|]. cbn [drop_spaces]. rewrite (H a) by left.
  assert (forall k, (forall b, b ∈ k -> is_space b = false) -> take_word k = k) as Hk; [|by apply Hk].
  clear. induction k as [|b k IH]; intros H; [done|]. cbn. rewrite (H b) by left. f_equal. apply IH.
  intros c Hc. apply H. by right.
Qed.

Lemma parse_edge_line {S} d e (s : S) :
  is_splitter d -> is_i32 e.1 -> is_i32 e.2 -> parse_edge d (edge_line d e) s = (Ret e, s).
Proof.
  intros Hd H1 H2. unfold parse_edge, edge_line. rewrite until_char_word by (by apply splitter_avoids).
  rewrite word_no_space, !string_chars.
  2: { intros a [->|[x Hx]]%show_long_chars; [done|]. by destruct (digit_char a x Hx). }
  rewrite (bind_Ret _ _ _ e.1 s), (bind_Ret _ _ _ e.2 s); [by destruct e|..]; unfold stoi_exn; by rewrite stoi_show.
Qed.

Lemma edge_line_not_blank d e : is_splitter d -> ~ (edge_line d e <> [] /\ Forall (fun a => a = d) (edge_line d e)).
Proof.
  intros Hd [_ H]. unfold edge_line in H. apply Forall_app in H as [H _].
  destruct (chars (show_long e.1)) as [|a l] eqn:E.
  - apply (show_long_nonempty e.1). by apply chars_inj.
  - apply Forall_cons in H as [-> _]. apply (splitter_avoids d e.1 Hd). rewrite E. left.
Qed.

Lemma load_lines_run {S} d (body : Z * Z -> S -> S) es fuel (s : S) :
  is_splitter d -> Forall (fun e => is_i32 e.1 /\ is_i32 e.2) es -> (length es < fuel)%nat ->
  load_lines fuel (Some d) body (edge_line d <$> es) s = (Ret tt, foldl (fun s e => body e s) s es).
Proof.
  intros Hd Hes. revert fuel s. induction Hes as [|e es [H1 H2] Hes IH]; intros fuel s Hf;
    (destruct fuel as [|fuel]; [cbn in Hf; lia|]); cbn [load_lines fmap list_fmap next_line foldl].
  - by rewrite decide_True.
  - rewrite decide_False by (unfold edge_line; by destruct (chars _)).
    rewrite (bind_Ret _ _ _ d s) by done. rewrite (bind_Ret _ _ _ _ _ (parse_edge_line d e s Hd H1 H2)).
    rewrite (bind_Ret _ _ _ tt (body e s)) by done.
    assert (skip_blank d (edge_line d <$> es) = edge_line d <$> es) as ->.
    { destruct es as [|e' es]; [done|]. cbn [skip_blank fmap list_fmap].
      by rewrite decide_False by (by apply edge_line_not_blank). }
    apply IH. cbn in Hf. lia.
Qed.

Lemma over_lines_run {S} d (body : Z * Z -> S -> S) es (s : S) :
  is_splitter d -> Forall (fun e => is_i32 e.1 /\ is_i32 e.2) es ->
  over_lines body (edge_line d <$> es) s = (Ret tt, foldl (fun s e => body e s) s es).
Proof.
  intros Hd Hes. unfold over_lines. destruct es as [|e es]; [done|].
  cbn [next_line fmap list_fmap fst]. rewrite find_splitter_line by done.
  apply (load_lines_run d body (e :: es)); [done|done|]. cbn. rewrite length_fmap. lia.
Qed.

Lemma loadDataSet_run homeDir d es graphID n :
  is_splitter d -> Forall (fun e => is_i32 e.1 /\ is_i32 e.2) es ->
  exists p, loadDataSet homeDir (edge_line d <$> es) graphID (newMetisPartitioner n) = (Ret tt, p) /\
    loaded es p /\ nParts p = n /\ mp_graphID p = graphID.
Proof.
  intros Hd Hes. unfold loadDataSet. erewrite bind_Ret; [|reflexivity]. rewrite over_lines_run by done.
  eexists. split; [reflexivity|].
  induction es as [|e es IH] using rev_ind.
  - split_and!; [|done|done]. destruct (loaded_new n). by split.
  - apply Forall_app in Hes as [Hes _]. destruct (IH Hes) as (L & H1 & H2). rewrite foldl_snoc. split_and!.
    + by apply loaded_step.
    + by destruct e.
    + by destruct e.
Qed.

(** Reading an edge list of [int] ids in any of the three formats: the edge map
    has the end vertices of every vertex in the order of the file, the
    storage map its neighbours in both directions without repetition, and the
    counters are the number of edges, of vertices and of undirected edges. *)
Theorem loadDataSet_spec homeDir d es graphID n :
  is_splitter d -> Forall (fun e => is_i32 e.1 /\ is_i32 e.2) es ->
  exists p, loadDataSet homeDir (edge_line d <$> es) graphID (newMetisPartitioner n) = (Ret tt, p) /\
    loaded es p /\ nParts p = n /\ mp_graphID p = graphID.
Proof. apply loadDataSet_run. Qed.

(** ** The input of [gpmetis] *)

(** Every number between the smallest and the largest vertex is a vertex. *)
Definition contiguous (es : list (Z * Z)) (p : MetisPartitioner) : Prop :=
  forall v, smallestVertex p <= v <= largestVertex p -> v ∈ vertices_of es.

Lemma metis_lines_some p vs :
  (forall v, v ∈ vs -> smallestVertex p < v -> at_key (graphStorageMap p) v <> []) ->
  metis_lines p vs = Some ((fun v => metis_line (zeroflag p) v (at_key (graphStorageMap p) v)) <$>
    filter (fun v => zeroflag p = true \/ v <> 0) vs).
Proof.
  induction vs as [|v vs IH]; intros H; [done|]. cbn [metis_lines].
  rewrite decide_False by (intros [H1 H2]; revert H2; apply H; [left|done]).
  rewrite filter_cons. specialize (IH (fun u Hu => H u (list_elem_of_further _ _ _ Hu))).
  destruct (zeroflag p) eqn:Ez, (Z.eqb_spec v 0) as [Hv|Hv]; cbn [negb andb].
  - rewrite decide_True by auto. by rewrite IH.
  - rewrite decide_True by auto. by rewrite IH.
  - rewrite decide_False by (intros [?|?]; done). done.
  - rewrite decide_True by auto. by rewrite IH.
Qed.

Lemma metis_lines_none p vs v :
  v ∈ vs -> smallestVertex p < v -> at_key (graphStorageMap p) v = [] -> metis_lines p vs = None.
Proof.
  induction vs as [|u vs IH]; [by intros ?%not_elem_of_nil|]. intros [->|Hin]%elem_of_cons H1 H2; cbn [metis_lines].
  - by rewrite decide_True.
  - case_decide; [done|]. rewrite IH by done. by destruct (negb (zeroflag p) && (u =? 0)).
Qed.

Lemma filter_keeps {A} (P : A -> Prop) `{forall x, Decision (P x)} (l : list A) :
  (forall x, x ∈ l -> P x) -> filter P l = l.
Proof.
  induction l as [|x l IH]; intros Hl; [done|]. rewrite filter_cons, decide_True by (apply Hl; left).
  f_equal. apply IH. intros y Hy. apply Hl. by right.
Qed.

Section format.
Context (es : list (Z * Z)) (p : MetisPartitioner) (L : loaded es p).
Hypothesis Hne : es <> [].
Hypothesis Hes : Forall (fun e => 0 <= Z.min e.1 e.2 /\ Z.max e.1 e.2 <= INT_MAX) es.

Lemma vertex_bounds v : v ∈ vertices_of es -> 0 <= v <= INT_MAX /\ smallestVertex p <= v <= largestVertex p.
Proof.
  rewrite elem_of_vertices. pose proof (ld_bounds _ _ L) as Hb. rewrite Forall_forall in Hb, Hes.
  intros (w & [H|H]); pose proof (Hb _ H); pose proof (Hes _ H); cbn in *; lia.
Qed.

Lemma some_vertex : exists v, v ∈ vertices_of es.
Proof.
  destruct es as [|[a b] es']; [done|]. exists a. rewrite elem_of_vertices. exists b. left. left.
Qed.

Lemma ends_vertices : smallestVertex p ∈ vertices_of es /\ largestVertex p ∈ vertices_of es.
Proof.
  destruct some_vertex as [v Hv]. pose proof (vertex_bounds v Hv). destruct (ld_ends _ _ L) as [H1 H2]. split.
  - destruct H1 as [E|]; [|done]. by replace (smallestVertex p) with v by lia.
  - destruct H2 as [E|]; [|done]. by replace (largestVertex p) with v by lia.
Qed.

Lemma contiguous_count : contiguous es p -> mp_vertexCount p = largestVertex p - smallestVertex p + 1.
Proof.
  intros Hc. rewrite (ld_vertexCount _ _ L). destruct ends_vertices as [Hs _]. pose proof (vertex_bounds _ Hs) as Hb.
  assert (vertices_of es = list_to_set (seqZ (smallestVertex p) (largestVertex p - smallestVertex p + 1))) as ->.
  { apply set_eq. intros v. rewrite elem_of_list_to_set, elem_of_seqZ. split.
    - intros Hv%vertex_bounds. lia.
    - intros Hv. apply Hc. lia. }
  rewrite size_list_to_set by apply NoDup_seqZ. rewrite length_seqZ. lia.
Qed.

Lemma smallest_zero : contiguous es p -> smallestVertex p <= 1 ->
  filter (fun v => zeroflag p = true \/ v <> 0) (seqZ 0 (largestVertex p + 1)) =
    seqZ (smallestVertex p) (mp_vertexCount p).
Proof.
  intros Hc H1. rewrite contiguous_count by done. destruct ends_vertices as [Hs Hl].
  pose proof (vertex_bounds _ Hs) as [Hb _]. pose proof (vertex_bounds _ Hl) as [_ Hlb].
  rewrite (ld_zero _ _ L). destruct (decide (smallestVertex p = 0)) as [E|E].
  - rewrite bool_decide_true by (by rewrite <- E). rewrite E, Z.sub_0_r.
    apply filter_keeps. by left.
  - rewrite bool_decide_false by (intros H%vertex_bounds; lia). replace (smallestVertex p) with 1 by lia.
    rewrite seqZ_cons by lia. rewrite filter_cons, decide_False by (intros [?|?]; done).
    replace (Z.pred (largestVertex p + 1)) with (largestVertex p - 1 + 1) by lia.
    change (Z.succ 0) with 1. apply filter_keeps. intros v Hv%elem_of_seqZ. right. lia.
Qed.
End format.

(** C39. [constructMetisFormat] on vertices numbered without a gap from 0 or 1
    writes a header with the number of vertices and undirected edges and one
    line for every vertex, as many as the header says; when a number is
    missing it returns 0 and forgets the graph, so that the caller renumbers
    the vertices. *)
Theorem constructMetisFormat_spec es p t :
  loaded es p -> es <> [] ->
  Forall (fun e => 0 <= Z.min e.1 e.2 /\ Z.max e.1 e.2 <= INT_MAX) es ->
  (contiguous es p -> smallestVertex p <= 1 ->
     constructMetisFormat t p =
       (1, Some ((show_long (mp_vertexCount p) +:+ " " +:+ show_long (edgeCountForMetis p)) ::
          ((fun v => metis_line (zeroflag p) v (at_key (graphStorageMap p) v)) <$>
             seqZ (smallestVertex p) (mp_vertexCount p))), set_type t p)) /\
  (forall v, smallestVertex p < v < largestVertex p -> v ∉ vertices_of es ->
     constructMetisFormat t p = (0, None, clear_graph (set_type t p))).
Proof.
  intros L Hne Hes. unfold constructMetisFormat. split.
  - intros Hc H1. rewrite metis_lines_some.
    + cbn [zeroflag graphStorageMap set_type largestVertex mp_vertexCount edgeCountForMetis].
      by rewrite (smallest_zero es p L Hne Hes Hc H1).
    + intros v Hv Hlt. cbn [graphStorageMap set_type smallestVertex largestVertex] in *.
      apply elem_of_seqZ in Hv. rewrite (isolated es p L). intros Hn. apply Hn, Hc. lia.
  - intros v Hv Hn. rewrite (metis_lines_none (set_type t p) _ v); [done| |cbn; lia|].
    + cbn. apply elem_of_seqZ. 
      pose proof (ends_vertices es p L Hne Hes) as [Hs _]. pose proof (vertex_bounds es p L Hes _ Hs). lia.
    + cbn. by apply (isolated es p L).
Qed.

(** ** Renumbering *)

(** The two maps are inverse to each other and the ids are [1 .. n - 1]. *)
Record numbering (V : gset Z) (st : gmap Z Z * gmap Z Z * Z) : Prop := {
  nb_inverse : forall v i, st.1.1 !! v = Some i <-> st.1.2 !! i = Some v;
  nb_vertices : dom st.1.1 = V;
  nb_ids : forall i, is_Some (st.1.2 !! i) <-> 1 <= i < st.2
}.

Lemma assign_id_spec V st v :
  numbering V st -> 1 <= st.2 ->
  numbering ({[v]} ∪ V) (assign_id v st) /\ 1 <= (assign_id v st).2 /\
  forall w i, st.1.1 !! w = Some i -> (assign_id v st).1.1 !! w = Some i.
Proof.
  destruct st as [[toID toVertex] n]. intros [H1 H2 H3] Hn. cbn [fst snd] in *. unfold assign_id.
  destruct (toID !! v) as [i|] eqn:Ev; cbn [fst snd].
  - split_and!; [|done|done]. assert ({[v]} ∪ V = V) as -> by (apply elem_of_dom_2 in Ev; set_solver). by split.
  - assert (toVertex !! n = None) as En.
    { destruct (toVertex !! n) eqn:E; [|done]. assert (is_Some (toVertex !! n)) as Hs by eauto. apply H3 in Hs. lia. }
    split_and!; [split; cbn [fst snd]|lia|].
    + intros w i. destruct (decide (v = w)) as [<-|Hw].
      * rewrite lookup_insert_eq. destruct (decide (n = i)) as [<-|Hi].
        -- by rewrite lookup_insert_eq.
        -- rewrite lookup_insert_ne by done. rewrite <- H1, Ev. split; intros E; congruence.
      * rewrite lookup_insert_ne by done. destruct (decide (n = i)) as [<-|Hi].
        -- rewrite lookup_insert_eq, H1, En. split; intros E; congruence.
        -- rewrite lookup_insert_ne by done. apply H1.
    + rewrite dom_insert_L, H2. done.
    + intros i. destruct (decide (n = i)) as [<-|Hi].
      * rewrite lookup_insert_eq. split; [lia|eauto].
      * rewrite lookup_insert_ne, H3 by done. lia.
    + intros w i Hw. rewrite lookup_insert_ne; [done|]. intros ->. congruence.
Qed.

(** Inverse maps have the same number of entries. *)
Lemma same_size_inverse (m k : gmap Z Z) :
  (forall v i, k !! v = Some i <-> m !! i = Some v) -> size (dom m) = size (dom k).
Proof.
  intros H. change (length (elements (dom m)) = length (elements (dom k))).
  rewrite <- (length_fmap (fun v => default 0 (k !! v)) (elements (dom k))).
  apply Permutation_length, NoDup_Permutation; [apply NoDup_elements| |].
  - apply NoDup_fmap_2_strong; [|apply NoDup_elements]. intros v w Hv Hw E.
    apply elem_of_elements, elem_of_dom in Hv as [i Hi], Hw as [j Hj]. rewrite Hi, Hj in E. cbn in E. subst j.
    apply H in Hi, Hj. congruence.
  - intros i. rewrite elem_of_elements, elem_of_dom, list_elem_of_fmap. split.
    + intros [v Hv]. exists v. apply H in Hv. rewrite elem_of_elements, elem_of_dom, Hv. eauto.
    + intros (v & -> & Hv). apply elem_of_elements, elem_of_dom in Hv as [j Hj]. rewrite Hj. cbn. exists v. by apply H.
Qed.

Definition id_of (toID : gmap Z Z) (v : Z) : Z := default 0 (toID !! v).

Lemma reformat_run es :
  let r := foldl (fun r e => reformat_edge e r) (mkReformat ∅ ∅ 1 []) es in
  numbering (vertices_of es) (rs_toID r, rs_toVertex r, idCounter r) /\ 1 <= idCounter r /\
  outFile r = (fun e => (id_of (rs_toID r) e.1, id_of (rs_toID r) e.2)) <$> es.
Proof.
  induction es as [|e es IH] using rev_ind.
  { cbn. split_and!; [|lia|done]. split; cbn.
    - intros v i. rewrite !lookup_empty. done.
    - by rewrite dom_empty_L.
    - intros i. rewrite lookup_empty. split; [by intros [? ?]|lia]. }
  rewrite foldl_snoc. cbn zeta in *. set (r := foldl _ _ es) in *. destruct IH as (N & Hn & Ho).
  unfold reformat_edge.
  destruct (assign_id_spec _ _ e.1 N Hn) as (N1 & Hn1 & K1).
  set (st1 := assign_id e.1 _) in *. destruct (assign_id_spec _ _ e.2 N1 Hn1) as (N2 & Hn2 & K2).
  destruct (assign_id e.2 st1) as [[toID toVertex] n]. cbn [rs_toID rs_toVertex idCounter outFile fst snd] in *.
  split_and!; [|done|].
  - rewrite vertices_snoc. assert ({[e.1]} ∪ ({[e.2]} ∪ vertices_of es) = {[e.2]} ∪ ({[e.1]} ∪ vertices_of es)) as ->
      by set_solver. done.
  - rewrite fmap_app, Ho. f_equal. apply list_fmap_ext. intros i [a b] Hi%list_elem_of_lookup_2. cbn [fst snd].
    assert (forall v, v ∈ vertices_of es -> id_of (rs_toID r) v = id_of toID v) as Hk.
    { intros v Hv. rewrite <- (nb_vertices _ _ N) in Hv. apply elem_of_dom in Hv as [j Hj]. cbn [fst snd] in Hj.
      unfold id_of. rewrite Hj. by rewrite (K2 _ _ (K1 _ _ Hj)). }
    rewrite !Hk; [done|rewrite elem_of_vertices; eauto..].
Qed.

(** [reformatDataSet] renumbers: the edges it writes are those of the file under
    ids that are consecutive from 1, and the map of ids leads back to the
    vertices of the file. *)
Theorem reformatDataSet_spec d es graphID p :
  is_splitter d -> Forall (fun e => is_i32 e.1 /\ is_i32 e.2) es ->
  vertexToIDMap p = ∅ -> idToVertexMap p = ∅ ->
  exists p' f, reformatDataSet graphID (edge_line d <$> es) p = (Ret ((fun e => (f e.1, f e.2)) <$> es), p') /\
    (forall v, v ∈ vertices_of es -> idToVertexMap p' !! f v = Some v) /\
    (forall i, is_Some (idToVertexMap p' !! i) <-> 1 <= i <= Z.of_nat (size (vertices_of es))).
Proof.
  intros Hd Hes H1 H2. destruct (reformat_run es) as (N & Hn & Ho).
  set (r := foldl _ _ es) in *. unfold reformatDataSet. erewrite bind_Ret; [|reflexivity].
  erewrite zoom_run.
  2: { cbn [vertexToIDMap idToVertexMap set_output]. rewrite H1, H2.
       rewrite (bind_Ret _ _ _ _ _ (over_lines_run d reformat_edge es _ Hd Hes)). reflexivity. }
  fold r. eexists _, (id_of (rs_toID r)). split; [by rewrite Ho|]. cbn [idToVertexMap]. split.
  - intros v Hv. rewrite <- (nb_vertices _ _ N) in Hv. apply elem_of_dom in Hv as [i Hi]. cbn [fst] in Hi.
    apply (nb_inverse _ _ N). cbn. unfold id_of. by rewrite Hi.
  - intros i. rewrite (nb_ids _ _ N i). cbn [fst snd].
    enough (idCounter r = Z.of_nat (size (vertices_of es)) + 1) by lia.
    assert (dom (rs_toVertex r) = list_to_set (seqZ 1 (idCounter r - 1))) as HD.
    { apply set_eq. intros i'. rewrite elem_of_dom, (nb_ids _ _ N i'), elem_of_list_to_set, elem_of_seqZ. cbn. lia. }
    assert (size (dom (rs_toVertex r)) = size (dom (rs_toID r))) as HS.
    { apply same_size_inverse. intros v i'. apply (nb_inverse _ _ N). }
    pose proof (nb_vertices _ _ N) as HV. cbn in HV. rewrite HV, HD in HS.
    rewrite size_list_to_set, length_seqZ in HS by apply NoDup_seqZ. lia.
Qed.
