(* ===== verification/TriangleExecutor.v ===== *)
(** * TriangleExecutor: the triangle count of the master

    [TriangleCountExecutor] (src/frontend/core/executor/impl/
    TriangleCountExecutor.cpp) and [AbstractExecutor::getCombinations]: the
    combinations of three partitions, the choice of an aggregator for each of
    them, the union of the triangles the aggregators report, and the sum with
    the local counts of the partitions.  The calls of the workers are the
    record [calls].  The threads of the calls run one after the other. *)
From Stdlib Require Import ZArith Ascii String Lia.
From stdpp Require Import base tactics numbers list sorting strings gmap.
From S2P Require Import Prelude HashMapStores StaticTriangles.

(** ** Combinations *)

(** [std::prev_permutation] of a string of 0 and 1: the tail is moved back if
    it can be; if it is the first of its arrangements, a leading 1 is
    exchanged with a 0 of the tail and the rest starts from its last
    arrangement. *)
Definition ones (l : list bool) : nat := length (filter (fun b => b = true) l).
Definition zeros (l : list bool) : nat := length (filter (fun b => b = false) l).

Fixpoint prev_permutation (l : list bool) : option (list bool) :=
  match l with
  | [] => None
  | b :: l' =>
      match prev_permutation l' with
      | Some r => Some (b :: r)
      | None =>
          if b && negb (bool_decide (zeros l' = 0%nat))
          then Some (false :: replicate (S (ones l')) true ++ replicate (zeros l' - 1) false)
          else None
      end
  end.

(** [bitmask(3, 1); bitmask.resize(n, 0)]. *)
Definition first_mask (n : nat) : list bool := resize n false (replicate 3 true).

(** The inputs at the set positions. *)
Fixpoint select {A} (mask : list bool) (l : list A) : list A :=
  match mask, l with
  | b :: mask', x :: l' => if b then x :: select mask' l' else select mask' l'
  | _, _ => []
  end.

(** The [do .. while] loop; every arrangement is met at most once, so that
    there are at most [2^n] rounds. *)
Fixpoint combination_loop {A} (fuel : nat) (mask : list bool) (l : list A) : option (list (list A)) :=
  match fuel with
  | O => None
  | S fuel' =>
      match prev_permutation mask with
      | Some mask' => cons (select mask l) <$> combination_loop fuel' mask' l
      | None => Some [select mask l]
      end
  end.

(** [AbstractExecutor::getCombinations]. *)
Definition getCombinations {A} (inputVector : list A) : option (list (list A)) :=
  combination_loop (2 ^ length inputVector) (first_mask (length inputVector)) inputVector.

(** ** The aggregators *)

(** The entries of a [map] with string keys, in the order of the keys. *)
Definition string_le (s t : string) : Prop := String.leb s t = true.
#[export] Instance string_le_dec : RelDecision string_le.
Proof. intros s t. unfold string_le. apply _. Defined.
Definition sentries {A} (m : gmap string A) : list (string * A) :=
  omap (fun k => pair k <$> m !! k) (merge_sort string_le (elements (dom m))).

(** The partitions in order, and the worker of each. *)
Definition partitionsVector (partitionMap : gmap string (list string)) : list string :=
  mjoin (snd <$> sentries partitionMap).
Definition partitionWorkerMap (partitionMap : gmap string (list string)) : gmap string string :=
  foldl (fun m e => foldl (fun m part => <[part := e.1]> m) m e.2) ∅ (sentries partitionMap).

(** The choice in the loop over a combination: weight, worker, partition. *)
Definition choose (workerOf : string -> string) (weights : gmap string Z) (best : Z * string * string)
    (part : string) : Z * string * string :=
  let workerId := workerOf part in
  match weights !! workerId with
  | Some weight =>
      if (best.1.1 =? 0) || (weight <? best.1.1) then (weight + 1, workerId, part) else best
  | None => (1, workerId, part)
  end.

(** [s.substr(0, s.size() - 1)]; for the empty string the length wraps. *)
Definition chop (s : string) : string := String.substring 0 (String.length s - 1) s.

(** What is asked of a worker: the aggregator, its partition, the others, and
    of these the ones that are on other workers. *)
Record request := mkRequest {
  minWeightWorker : string;
  minWeightWorkerPartition : string;
  adjustedPartitionIdList : string;
  to_copy : list string
}.

Definition plan (workerOf : string -> string) (weights : gmap string Z) (combination : list string)
  : gmap string Z * request :=
  let '(w, worker, part) := foldl (choose workerOf weights) (0, "", "") combination in
  let partitionIdList :=
    foldl (fun acc q => if decide (q = part) then acc else acc +:+ q +:+ ",") "" combination in
  (<[worker := w]> weights,
   mkRequest worker part (chop partitionIdList) (filter (fun q => workerOf q <> worker) combination)).

Fixpoint plan_all (workerOf : string -> string) (weights : gmap string Z) (combinations : list (list string))
  : list request :=
  match combinations with
  | [] => []
  | c :: cs => let '(weights, r) := plan workerOf weights c in r :: plan_all workerOf weights cs
  end.

(** The triangles in the answers, each once. *)
Definition unique_triangles (answers : list string) : gset string :=
  let result := foldl (fun acc res => acc +:+ ":" +:+ res) "" answers in
  list_to_set (filter (fun t => t <> "" /\ t <> "NILL") (split result ":")).

(** What the master asks of the workers: the local count of a partition, to
    have the central store of a partition in the aggregation folder, and the
    triangles of the central stores of a request.  [composite_count] is the
    call of [getTriangleCount] with composite aggregation, which is not
    modelled. *)
Record calls (S : Type) := mkCalls {
  local_count : string -> string -> M S Z;
  composite_count : string -> string -> M S Z;
  copy_store : string -> string -> M S unit;
  central_triangles : request -> M S string
}.
Arguments mkCalls {S}.
Arguments local_count {S}.
Arguments composite_count {S}.
Arguments copy_store {S}.
Arguments central_triangles {S}.

Section execute.
Context {S : Type} (cs : calls S).
(** The workers in the database. *)
Context (workerDataMap : gset string).

Fixpoint copy_all (worker : string) (parts : list string) : M S unit :=
  match parts with
  | [] => mret tt
  | part :: parts' => copy_store cs worker part;; copy_all worker parts'
  end.

Fixpoint ask_all (rs : list request) : M S (list string) :=
  match rs with
  | [] => mret []
  | r :: rs' =>
      (** [workerData[0]] of a worker that is not in the map *)
      (if decide (minWeightWorker r ∈ workerDataMap) then mret tt else undef);;
      copy_all (minWeightWorker r) (to_copy r);;
      a ← central_triangles cs r;
      answers ← ask_all rs';
      mret (a :: answers)
  end.

(** [aggregateCentralStoreTriangles]. *)
Definition executor_aggregate (partitionMap : gmap string (list string)) : M S Z :=
  let pwm := partitionWorkerMap partitionMap in
  match getCombinations (partitionsVector partitionMap) with
  | None => out_of_fuel
  | Some combinations =>
      answers ← ask_all (plan_all (fun part => default "" (pwm !! part)) ∅ combinations);
      mret (Z.of_nat (size (unique_triangles answers)))
  end.

(** The counts of the partitions, in the order of the worker list. *)
Fixpoint sum_counts (isCompositeAggregation : bool) (tasks : list (string * string)) : M S Z :=
  match tasks with
  | [] => mret 0
  | (worker, part) :: tasks' =>
      n ← (if isCompositeAggregation then composite_count cs worker part else local_count cs worker part);
      rest ← sum_counts isCompositeAggregation tasks';
      mret (n + rest)
  end.

Definition tasks (workerList : list string) (partitionMap : gmap string (list string))
  : list (string * string) :=
  w ← workerList; (fun part => (w, part)) <$> default [] (partitionMap !! w).

(** [partitionMap] of the rows of the database. *)
Definition add_row (m : gmap string (list string)) (row : string * string) : gmap string (list string) :=
  match m !! row.1 with
  | None => <[row.1 := [row.2]]> m
  | Some partitionVec => <[row.1 := partitionVec ++ [row.2]]> m
  end.

(** [TriangleCountExecutor::execute], not on Kubernetes, whose scaling may
    move partitions: the number it answers with. *)
Definition execute (workerList : list string) (rows : list (string * string)) : M S Z :=
  let partitionMap := foldl add_row ∅ rows in
  let isCompositeAggregation := COMPOSITE_CENTRAL_STORE_WORKER_THRESHOLD <? Z.of_nat (length rows) in
  result ← sum_counts isCompositeAggregation (tasks workerList partitionMap);
  if negb isCompositeAggregation then
    aggregatedTriangleCount ← executor_aggregate partitionMap;
    mret (result + aggregatedTriangleCount)
  else mret result.
End execute.
