(* ===== verification/ExecutorTheory.v ===== *)
(** * ExecutorTheory: the master counts every triangle once *)
From Stdlib Require Import ZArith Ascii String Lia.
From stdpp Require Import base tactics numbers list sorting strings gmap.
From S2P Require Import Prelude Triangles TrianglesTheory HashMapStores HashMapTheory StaticTriangles.
From S2P Require Import StaticTheory TriangleExecutor.

(** ** Combinations *)

(** The masks with [k] ones, the largest first. *)
Fixpoint masks (n k : nat) : list (list bool) :=
  match n with
  | O => match k with O => [[]] | S _ => [] end
  | S n' => match k with O => [] | S k' => cons true <$> masks n' k' end ++ (cons false <$> masks n' k)
  end.

Lemma elem_of_masks n k m : m ∈ masks n k <-> length m = n /\ ones m = k.
Proof.
  revert k m. induction n as [|n IH]; intros k m; cbn [masks].
  - destruct k; rewrite ?list_elem_of_singleton, ?elem_of_nil; split.
    + by intros ->.
    + intros [?%nil_length_inv ?]. done.
    + done.
    + intros [->%nil_length_inv ?]. done.
  - rewrite elem_of_app, list_elem_of_fmap. setoid_rewrite IH. destruct m as [|b m].
    { split; [|by intros [? _]]. intros [H|(? & ? & _)]; [|done]. destruct k; [by apply not_elem_of_nil in H|].
      by apply list_elem_of_fmap in H as (? & ? & _). }
    unfold ones. rewrite filter_cons. cbn [length]. destruct b.
    + rewrite decide_True by done. cbn [length]. split.
      * intros [H|(? & [=] & _)]. destruct k; [by apply not_elem_of_nil in H|].
        apply list_elem_of_fmap in H as (m' & [= <-] & H%IH). unfold ones in H. lia.
      * intros [H1 H2]. left. destruct k; [lia|]. apply list_elem_of_fmap. exists m. rewrite IH. unfold ones.
        split; [done|lia].
    + rewrite decide_False by done. split.
      * intros [H|(m' & [= <-] & H)]; [|unfold ones in H; lia]. destruct k; [by apply not_elem_of_nil in H|].
        by apply list_elem_of_fmap in H as (? & ? & _).
      * intros [H1 H2]. right. exists m. unfold ones. split; [done|lia].
Qed.

Lemma ones_zeros m : (ones m + zeros m = length m)%nat.
Proof.
  unfold ones, zeros. induction m as [|b m IH]; [done|]. rewrite !filter_cons.
  destruct (decide (b = true)), (decide (b = false)); cbn [length]; try lia; destruct b; congruence.
Qed.

Lemma masks_head n k : (k <= n)%nat -> exists ms, masks n k = (replicate k true ++ replicate (n - k) false) :: ms.
Proof.
  revert k. induction n as [|n IH]; intros k Hk.
  - replace k with 0%nat by lia. by exists [].
  - cbn [masks]. destruct k as [|k].
    + destruct (IH 0%nat ltac:(lia)) as [ms ->]. rewrite Nat.sub_0_r. eexists. reflexivity.
    + destruct (IH k ltac:(lia)) as [ms ->]. cbn. eexists. reflexivity.
Qed.

Lemma masks_none n k : (n < k)%nat -> masks n k = [].
Proof.
  intros H. destruct (masks n k) as [|m ms] eqn:E; [done|]. assert (m ∈ masks n k) as Hm by (rewrite E; left).
  apply elem_of_masks in Hm as [H1 H2]. pose proof (ones_zeros m). lia.
Qed.

(** A list in which each mask is the one before the next, and [nxt] the one
    before the last. *)
Fixpoint chained (nxt : option (list bool)) (ms : list (list bool)) : Prop :=
  match ms with
  | [] => True
  | m :: ms' => prev_permutation m = match ms' with m' :: _ => Some m' | [] => nxt end /\ chained nxt ms'
  end.

Lemma chained_cons b nxt ms :
  chained None ms -> (forall m, m ∈ ms -> prev_permutation m = None -> prev_permutation (b :: m) = nxt) ->
  chained nxt (cons b <$> ms).
Proof.
  induction ms as [|m ms IH]; [done|]. intros [H1 H2] Hb. rewrite fmap_cons. split.
  - destruct ms as [|m' ms]; cbn [fmap list_fmap]; [apply Hb; [left|done]|]. cbn [prev_permutation]. by rewrite H1.
  - apply IH; [done|]. intros m' Hm'. apply Hb. by right.
Qed.

Lemma chained_app nxt ms ms' :
  chained (match ms' with m' :: _ => Some m' | [] => nxt end) ms -> chained nxt ms' -> chained nxt (ms ++ ms').
Proof.
  induction ms as [|m ms IH]; [done|]. intros [H1 H2] H3. cbn [app chained]. split; [|by apply IH].
  rewrite H1. by destruct ms.
Qed.

Lemma masks_chained n k : chained None (masks n k).
Proof.
  revert k. induction n as [|n IH]; intros k; cbn [masks]; [by destruct k|].
  apply chained_app.
  - destruct k as [|k]; [done|]. apply chained_cons; [apply IH|]. intros m [Hl Ho]%elem_of_masks Hp.
    cbn [prev_permutation]. rewrite Hp. pose proof (ones_zeros m) as Hz.
    destruct (decide (S k <= n)%nat) as [Hk|Hk].
    + rewrite (bool_decide_false (zeros m = 0%nat)) by lia. cbn.
      destruct (masks_head n (S k) Hk) as [ms ->]. cbn [fmap list_fmap]. rewrite Ho.
      replace (zeros m - 1)%nat with (n - S k)%nat by lia. done.
    + rewrite (masks_none n (S k)) by lia. rewrite (bool_decide_true (zeros m = 0%nat)) by lia. done.
  - apply chained_cons; [apply IH|]. intros m _ Hp. cbn [prev_permutation]. by rewrite Hp.
Qed.

Lemma masks_length n k : (length (masks n k) <= 2 ^ n)%nat.
Proof.
  revert k. induction n as [|n IH]; intros k; cbn [masks]; [by destruct k; cbn; lia|].
  rewrite length_app, length_fmap. cbn [Nat.pow]. pose proof (IH k).
  destruct k as [|k]; [cbn; lia|]. rewrite length_fmap. pose proof (IH k). lia.
Qed.

Lemma loop_chained {A} (l : list A) m ms fuel :
  chained None (m :: ms) -> (length (m :: ms) <= fuel)%nat ->
  combination_loop fuel m l = Some ((fun m => select m l) <$> m :: ms).
Proof.
  revert m fuel. induction ms as [|m' ms IH]; intros m fuel [H1 H2] Hf; destruct fuel as [|fuel]; cbn in Hf; try lia;
    cbn [combination_loop]; rewrite H1; [done|].
  rewrite (IH m' fuel H2) by (cbn; lia). done.
Qed.

(** What a mask selects. *)
Lemma select_masks {A} (l : list A) k c :
  c ∈ (fun m => select m l) <$> masks (length l) k <-> c `sublist_of` l /\ length c = k.
Proof.
  revert k c. induction l as [|x l IH]; intros k c; cbn [masks length].
  - rewrite list_elem_of_fmap. destruct k; setoid_rewrite list_elem_of_singleton || setoid_rewrite elem_of_nil.
    + split; [intros (m & -> & ->); cbn; split; [constructor|done]|].
      intros [H%sublist_nil_r Hl]. subst. by exists [].
    + split; [by intros (? & _ & ?)|]. intros [->%sublist_nil_r Hl]. done.
  - rewrite fmap_app, elem_of_app. rewrite <- (list_fmap_compose (cons false)). unfold compose. cbn [select].
    setoid_rewrite IH. destruct k as [|k].
    + rewrite fmap_nil, elem_of_nil. split.
      * intros [[]|[H Hl]]. split; [by apply sublist_cons|done].
      * intros [H Hl]. right. apply nil_length_inv in Hl as ->. split; [apply sublist_nil_l|done].
    + rewrite <- (list_fmap_compose (cons true)). unfold compose. cbn [select].
      rewrite (list_fmap_compose (fun m => select m l) (cons x)), list_elem_of_fmap. setoid_rewrite IH. split.
      * intros [(c' & -> & H & Hl)|[H Hl]]; [|split; [by apply sublist_cons|done]].
        split; [by apply sublist_skip|cbn; lia].
      * intros [H Hl]. destruct c as [|y c]; [done|]. apply sublist_cons_l in H as (k1 & k2 & E & Hs).
        destruct k1 as [|z k1]; cbn in E; injection E as -> ->.
        -- left. exists c. split; [done|]. split; [done|cbn in Hl; lia].
        -- right. split; [|done]. apply sublist_inserts_l. by apply sublist_skip.
Qed.

Lemma first_mask_long n : (3 <= n)%nat -> first_mask n = replicate 3 true ++ replicate (n - 3) false.
Proof. intros H. unfold first_mask. by rewrite resize_ge. Qed.

Lemma combinations_run {A} (l : list A) :
  exists cs, getCombinations l = Some cs /\
    if decide (3 <= length l)%nat then forall c, c ∈ cs <-> c `sublist_of` l /\ length c = 3%nat
    else cs = [l].
Proof.
  unfold getCombinations. case_decide as Hl.
  - destruct (masks_head (length l) 3 Hl) as [ms Hms]. rewrite first_mask_long by done.
    pose proof (masks_chained (length l) 3) as Hc. pose proof (masks_length (length l) 3) as Hn.
    rewrite Hms in Hc, Hn. eexists. split; [by apply loop_chained|].
    intros c. rewrite <- Hms. apply select_masks.
  - destruct l as [|x [|y [|z l]]]; [by eexists..|]. cbn in Hl. lia.
Qed.

(** C33. [getCombinations] ends and returns the selections of three inputs in
    order, and all of them (how often, for inputs that repeat, is not said);
    for fewer than three inputs, the inputs. *)
Theorem getCombinations_spec {A} (l : list A) :
  exists cs, getCombinations l = Some cs /\
    if decide (3 <= length l)%nat then forall c, c ∈ cs <-> c `sublist_of` l /\ length c = 3%nat
    else cs = [l].
Proof. apply combinations_run. Qed.

(** ** The answers of the workers *)

Definition show_triple (x : triple) : string :=
  show_long x.1.1 +:+ "," +:+ show_long x.1.2 +:+ "," +:+ show_long x.2.

Lemma chars_show_triple x :
  chars (show_triple x) =
    chars (show_long x.1.1) ++ ","%char :: chars (show_long x.1.2) ++ ","%char :: chars (show_long x.2).
Proof. unfold show_triple. rewrite !chars_app. done. Qed.

Lemma show_triple_inj x y : show_triple x = show_triple y -> x = y.
Proof.
  intros E%(f_equal chars). rewrite !chars_show_triple in E.
  assert (forall z, ","%char ∉ chars (show_long z)) as Hc by (intros z; by apply show_long_avoids).
  apply app_sep_inj in E as [E1%chars_inj E]; [|apply Hc..].
  apply app_sep_inj in E as [E2%chars_inj E3%chars_inj]; [|apply Hc..].
  apply show_long_inj in E1, E2, E3. destruct x as [[a b] c], y as [[a' b'] c']. cbn in *. congruence.
Qed.

Lemma show_triple_word x :
  ":"%char ∉ chars (show_triple x) /\ chars (show_triple x) <> [] /\ show_triple x <> "NILL".
Proof.
  assert (","%char ∈ chars (show_triple x)) as Hc.
  { rewrite chars_show_triple, elem_of_app. right. left. }
  split_and!.
  - rewrite chars_show_triple. rewrite !not_elem_of_app, !not_elem_of_cons, !not_elem_of_app, !not_elem_of_cons.
    split_and!; (by apply show_long_avoids) || done.
  - intros E. rewrite E in Hc. by apply not_elem_of_nil in Hc.
  - intros E. rewrite E in Hc. cbn in Hc. repeat (apply elem_of_cons in Hc as [Hc|Hc]; [done|]).
    by apply not_elem_of_nil in Hc.
Qed.

Lemma render_cons x l : render (x :: l) = show_triple x +:+ (":" +:+ render l).
Proof. destruct x as [[a b] c]. unfold show_triple. cbn [render fst snd]. by rewrite !string_app_assoc. Qed.

Lemma pieces_render l : pieces ":" (chars (render l)) = (fun x => chars (show_triple x)) <$> l.
Proof.
  induction l as [|x l IH]; [done|]. rewrite render_cons, !chars_app. cbn [app].
  change (chars ":" ++ chars (render l)) with (":"%char :: chars (render l)).
  destruct (show_triple_word x) as (H1 & H2 & _). by rewrite pieces_app, IH, pieces_word.
Qed.

(** The triangles named in an answer. *)
Definition named (answer : string) : list string :=
  filter (fun t => t <> "NILL") (string_of_list_ascii <$> pieces ":" (chars answer)).

Lemma named_triangles iter A dist :
  let l := triangleStream (search_triangles iter A dist) in
  named (triangles (countTriangles iter A dist true)) = show_triple <$> l.
Proof.
  intros l. destruct (countTriangles_string iter A dist) as [Hn Hl]. fold l in Hn, Hl.
  destruct (decide (l = [])) as [E|Hne]; [rewrite Hn, E by done; reflexivity|].
  specialize (Hl Hne). unfold named.
  assert (pieces ":" (chars (triangles (countTriangles iter A dist true))) =
    (fun x => chars (show_triple x)) <$> l) as ->.
  { rewrite <- pieces_render, <- Hl, chars_app. change (chars ":") with (":"%char :: []).
    rewrite pieces_app. unfold pieces at 3. cbn. by rewrite app_nil_r. }
  rewrite <- list_fmap_compose. unfold compose. clear. induction l as [|x l IH]; [done|].
  rewrite !fmap_cons, filter_cons, string_chars, decide_True by apply show_triple_word. by rewrite IH.
Qed.

Lemma named_answer iter A :
  (forall X, iter X ≡ₚ elements X) -> apexed (arcs A) ->
  forall t, t ∈ named (aggregated_triangles iter A) <-> exists x, tri (arcs A) x /\ t = show_triple x.
Proof.
  intros Hi Ha t. unfold aggregated_triangles. rewrite named_triangles, list_elem_of_fmap.
  destruct (search_above iter A (out_degrees A) Hi) as (T & (_ & _ & _ & Hs) & HT);
    [apply covers_above, covers_out_degrees|done|].
  split; intros (x & H1 & H2); exists x.
  - split; [|done]. by apply HT, Hs.
  - split; [done|]. by apply Hs, HT.
Qed.

Lemma elem_of_unique answers t :
  t ∈ unique_triangles answers <-> exists a, a ∈ answers /\ t ∈ named a.
Proof.
  unfold unique_triangles. rewrite elem_of_list_to_set, list_elem_of_filter. unfold split, named.
  assert (forall l acc, pieces ":" (chars (foldl (fun acc res => acc +:+ ":" +:+ res) acc l)) =
    pieces ":" (chars acc) ++ mjoin ((fun a => pieces ":" (chars a)) <$> l)) as H.
  { induction l as [|a l IH]; intros acc; cbn [foldl]; [by rewrite app_nil_r|].
    rewrite IH, !chars_app. change (chars ":" ++ chars a) with (":"%char :: chars a).
    rewrite pieces_app. cbn. by rewrite app_assoc. }
  specialize (H answers ""). unfold pieces at 2 in H. cbn [chars list_ascii_of_string split_items filter] in H.
  rewrite filter_nil in H. cbn [app] in H.
  assert (forall s, t <> "" -> t ∈ string_of_list_ascii <$> split_items ":" [] (chars s) <->
    t ∈ string_of_list_ascii <$> pieces ":" (chars s)) as Hp.
  { intros s Ht. unfold pieces. rewrite !list_elem_of_fmap. setoid_rewrite list_elem_of_filter.
    split; [|naive_solver]. intros (l & -> & Hl). exists l. split_and!; [done| |done]. by intros ->. }
  setoid_rewrite list_elem_of_filter. split.
  - intros [[Ht1 Ht2] Ht]. apply Hp in Ht; [|done]. rewrite H in Ht.
    apply list_elem_of_fmap in Ht as (l & -> & (ls & Hls & Hl)%list_elem_of_join).
    apply list_elem_of_fmap in Hl as (a & -> & Ha). exists a. split_and!; [done..|]. by apply list_elem_of_fmap_2.
  - intros (a & Ha & Ht & Hin). apply list_elem_of_fmap in Hin as (l & -> & Hl).
    assert (string_of_list_ascii l <> "") as Hne.
    { unfold pieces in Hl. apply list_elem_of_filter in Hl as [Hl _]. by destruct l. }
    split; [done|]. apply Hp; [done|]. rewrite H. apply list_elem_of_fmap_2, list_elem_of_join.
    exists (pieces ":" (chars a)). split; [done|]. exact (list_elem_of_fmap_2 (fun a => pieces ":" (chars a)) _ a Ha).
Qed.

(** ** The requests *)

(** Names joined by commas. *)
Fixpoint comma_list (qs : list string) : string :=
  match qs with [] => "" | [q] => q | q :: qs' => q +:+ ("," +:+ comma_list qs') end.

Lemma foldl_commas part c acc :
  foldl (fun acc q => if decide (q = part) then acc else acc +:+ q +:+ ",") acc c =
    acc +:+ match filter (fun q => q <> part) c with [] => "" | qs => comma_list qs +:+ "," end.
Proof.
  revert acc. induction c as [|q c IH]; intros acc; cbn [foldl]; [by rewrite string_app_nil|].
  rewrite IH, filter_cons. destruct (decide (q = part)) as [->|Hne].
  - by rewrite (decide_False (P := part <> part)) by tauto.
  - rewrite (decide_True (P := q <> part)) by done. destruct (filter _ c) as [|q' qs].
    + cbn [comma_list]. by rewrite string_app_nil.
    + change (comma_list (q :: q' :: qs)) with (q +:+ ("," +:+ comma_list (q' :: qs))).
      by rewrite !string_app_assoc.
Qed.

Lemma chop_snoc s : chop (s +:+ ",") = s.
Proof.
  unfold chop. rewrite length_string_app. change (String.length ",") with 1%nat.
  rewrite Nat.add_sub. apply substring_app.
Qed.

(** The names of partitions: without a comma, not empty. *)
Definition plain (q : string) : Prop := ","%char ∉ chars q /\ q <> "".

Lemma split_comma_list qs : Forall plain qs -> split (comma_list qs) "," = qs.
Proof.
  intros H. unfold split. induction H as [|q qs [Hq1 Hq2] H IH]; [done|].
  assert (chars q <> []) as Hq by (intros E; apply Hq2; by apply chars_inj).
  destruct qs as [|q' qs].
  - cbn [comma_list]. rewrite split_items_last by done. cbn. by rewrite string_chars.
  - change (comma_list (q :: q' :: qs)) with (q +:+ ("," +:+ comma_list (q' :: qs))).
    rewrite !chars_app. change (chars ",") with [","%char]. cbn [app].
    rewrite split_items_word by done. cbn [rev app fmap list_fmap]. rewrite string_chars. f_equal. exact IH.
Qed.

(** The partitions of a request. *)
Definition request_parts (r : request) : list string :=
  minWeightWorkerPartition r :: split (adjustedPartitionIdList r) ",".

Lemma choose_spec workerOf weights c best :
  let b := foldl (choose workerOf weights) best c in
  (exists q, q ∈ c /\ b.1.2 = workerOf q /\ b.2 = q) \/ b = best /\ (c = [] \/ best.1.1 <> 0).
Proof.
  revert best. induction c as [|q c IH]; intros best; cbn [foldl]; [by right; split; [|left]|].
  destruct (IH (choose workerOf weights best q)) as [(q' & H1 & H2)|[-> Hc]].
  - left. exists q'. split; [by right|done].
  - unfold choose. destruct (weights !! workerOf q); [|by left; exists q; split; [left|]].
    destruct (Z.eqb_spec best.1.1 0); cbn [orb]; [by left; exists q; split; [left|]|].
    destruct (_ <? _); [by left; exists q; split; [left|]|]. right. split; [done|by right].
Qed.

Lemma plan_spec workerOf weights c :
  c <> [] -> Forall plain c ->
  let r := (plan workerOf weights c).2 in
  minWeightWorkerPartition r ∈ c /\ minWeightWorker r = workerOf (minWeightWorkerPartition r) /\
  (minWeightWorkerPartition r ∉ split (adjustedPartitionIdList r) ",") /\
  (forall q, q ∈ to_copy r <-> q ∈ c /\ workerOf q <> minWeightWorker r) /\
  forall q, q ∈ request_parts r <-> q ∈ c.
Proof.
  intros Hc Hp. unfold plan. pose proof (choose_spec workerOf weights c (0, "", "")) as H.
  destruct (foldl (choose workerOf weights) _ c) as [[w worker] part].
  destruct H as [(q & Hq & H1 & H2)|[_ [?|?]]]; [|done|done]. cbn in H1, H2. subst.
  cbn [snd minWeightWorkerPartition minWeightWorker]. split; [done|]. split; [done|].
  unfold request_parts. cbn [minWeightWorkerPartition adjustedPartitionIdList].
  assert (split (chop (foldl (fun acc q0 => if decide (q0 = q) then acc else acc +:+ q0 +:+ ",") "" c)) "," =
    filter (fun x => x <> q) c) as ->.
  { rewrite foldl_commas. change ("" +:+ ?s) with s.
    assert (Forall plain (filter (fun x => x <> q) c)) as Hf.
    { rewrite Forall_forall in Hp |- *. intros x [_ Hx]%list_elem_of_filter. by apply Hp. }
    destruct (filter _ c) as [|q' qs]; [done|]. rewrite chop_snoc. by apply split_comma_list. }
  split; [rewrite list_elem_of_filter; naive_solver|]. cbn [to_copy].
  split; [intros q'; rewrite list_elem_of_filter; tauto|].
  intros q'. rewrite elem_of_cons, list_elem_of_filter. destruct (decide (q' = q)); naive_solver.
Qed.

Lemma plan_all_spec workerOf cs weights :
  Forall (fun c => c <> [] /\ Forall plain c) cs ->
  Forall2 (fun c r => minWeightWorkerPartition r ∈ c /\
    minWeightWorker r = workerOf (minWeightWorkerPartition r) /\
    (minWeightWorkerPartition r ∉ split (adjustedPartitionIdList r) ",") /\
    (forall q, q ∈ to_copy r <-> q ∈ c /\ workerOf q <> minWeightWorker r) /\
    forall q, q ∈ request_parts r <-> q ∈ c) cs (plan_all workerOf weights cs).
Proof.
  intros H. revert weights. induction H as [|c cs [H1 H2] H IH]; intros weights; cbn [plan_all]; [constructor|].
  pose proof (plan_spec workerOf weights c H1 H2) as Hs. destruct (plan workerOf weights c) as [weights' r].
  constructor; [exact Hs|]. apply IH.
Qed.
