(* ===== verification/DistributedCount.v ===== *)
(** * DistributedCount: local and central counts add up

    The triangles of a partitioned graph: those with two vertices in a
    partition are counted by that partition, those with vertices in three
    partitions by the aggregation of central stores, and the master's sum is
    the number of triangles of the graph. *)
From Stdlib Require Import ZArith Ascii String Lia.
From stdpp Require Import base tactics numbers list sorting strings gmap.
From S2P Require Import Prelude Triangles TrianglesTheory HashMapStores HashMapTheory StaticTriangles.
From S2P Require Import StaticTheory TriangleExecutor ExecutorTheory.

(** The order of the three vertices does not matter. *)
Lemma sort3_swap23 u v w : u <> v -> u <> w -> v <> w -> sort3 u v w = sort3 u w v.
Proof.
  intros H1 H2 H3. apply (sort3_cases u v w (fun t => t = sort3 u w v)); intros Hle;
    apply (sort3_cases u w v (fun t => _ = t)); intros Hle'; done || (exfalso; lia).
Qed.
Lemma sort3_swap12 u v w : u <> v -> u <> w -> v <> w -> sort3 u v w = sort3 v u w.
Proof.
  intros H1 H2 H3. apply (sort3_cases u v w (fun t => t = sort3 v u w)); intros Hle;
    apply (sort3_cases v u w (fun t => _ = t)); intros Hle'; done || (exfalso; lia).
Qed.

(** Three vertices, one with edges to both others. *)
Lemma apex_intro (F : Z -> Z -> Prop) u v w :
  u <> v -> u <> w -> v <> w -> F u v -> F u w -> linked F v w -> apex F (sort3 u v w).
Proof.
  intros H1 H2 H3 Huv Huw [Hvw|Hwv]; [by exists u, v, w|].
  exists u, w, v. split_and!; try done. by apply sort3_swap23.
Qed.

Section graph.
(** The edges and the partition of every vertex. *)
Context (E : Z -> Z -> Prop) (home : Z -> string).

(** The edges partition [q] knows, and the edges between partitions that the
    central stores of [Q] have. *)
Definition local_arcs (q : string) (x y : Z) : Prop := E x y /\ (home x = q \/ home y = q).
Definition central_arcs (Q : list string) (x y : Z) : Prop := E x y /\ home x <> home y /\ home x ∈ Q.

Definition homes (x : triple) : string * string * string := (home x.1.1, home x.1.2, home x.2).
(** Two of the three vertices are in [q]. *)
Definition two_in (q : string) (x : triple) : Prop :=
  (home x.1.1 = q /\ home x.1.2 = q) \/ (home x.1.2 = q /\ home x.2 = q) \/
  (home x.1.1 = q /\ home x.2 = q).
Definition apart (x : triple) : Prop :=
  home x.1.1 <> home x.1.2 /\ home x.1.2 <> home x.2 /\ home x.1.1 <> home x.2.

Lemma tri_local q x : tri (local_arcs q) x <-> tri E x /\ two_in q x.
Proof.
  unfold tri, linked, local_arcs, two_in. split.
  - intros (H & H1 & H2 & H3). split; [split; [done|]|]; naive_solver.
  - intros ((H & H1 & H2 & H3) & Hq). split; [done|]. naive_solver.
Qed.

Lemma tri_central_1 Q x : tri (central_arcs Q) x -> tri E x /\ apart x.
Proof.
  unfold tri, linked, central_arcs, apart. intros (H & H1 & H2 & H3).
  split_and!; naive_solver.
Qed.

Lemma tri_central_2 Q x :
  tri E x -> apart x -> home x.1.1 ∈ Q -> home x.1.2 ∈ Q -> home x.2 ∈ Q -> tri (central_arcs Q) x.
Proof.
  unfold tri, linked, central_arcs, apart. intros (H & H1 & H2 & H3) (A1 & A2 & A3) Q1 Q2 Q3.
  split; [done|]. naive_solver.
Qed.

Hypothesis HE : apexed E.

Lemma apexed_local q : apexed (local_arcs q).
Proof.
  intros x Hx. pose proof Hx as [HT Hq]%tri_local. destruct (HE x HT) as (u & v & w & -> & H1 & H2 & H3 & H4 & H5 & H6).
  exists u, v, w. split_and!; try done; unfold local_arcs; (split; [done|]).
  all: revert Hq; unfold two_in; apply (sort3_cases u v w); cbn [fst snd]; naive_solver.
Qed.

Lemma apexed_central Q : apexed (central_arcs Q).
Proof.
  intros x Hx. destruct (tri_central_1 Q x Hx) as [HT Ha].
  destruct (HE x HT) as (u & v & w & Ex & H1 & H2 & H3 & H4 & H5 & H6).
  assert (linked (central_arcs Q) u v /\ linked (central_arcs Q) v w /\ linked (central_arcs Q) u w)
    as (L1 & L2 & L3).
  { subst x. revert Hx. unfold tri. apply (sort3_cases u v w); cbn [fst snd]; intros _ (_ & ? & ? & ?);
      split_and!; auto using linked_sym. }
  destruct (decide (home u ∈ Q)) as [Hu|Hu].
  - subst x. apply apex_intro; try done; unfold linked, central_arcs in *; naive_solver.
  - assert (central_arcs Q v u /\ central_arcs Q w u) as [Hv Hw] by (unfold linked, central_arcs in *; naive_solver).
    destruct L2 as [L|L].
    + assert (x = sort3 v u w) as -> by (rewrite Ex; by apply sort3_swap12). apply apex_intro; unfold linked; (done || tauto || congruence).
    + assert (x = sort3 w u v) as ->.
      { rewrite Ex, (sort3_swap23 u v w) by done. by apply sort3_swap12. }
      apply apex_intro; unfold linked; (done || tauto || congruence).
Qed.
End graph.

(** ** The sum of the local counts *)

Lemma two_in_unique home q q' x : two_in home q x -> two_in home q' x -> q = q'.
Proof. unfold two_in. intros [[]|[[]|[]]] [[]|[[]|[]]]; congruence. Qed.

Lemma two_in_or_apart home x : apart home x \/ exists q, two_in home q x.
Proof.
  unfold apart, two_in. destruct (decide (home x.1.1 = home x.1.2)); [right; eexists; left; eauto|].
  destruct (decide (home x.1.2 = home x.2)); [right; eexists; right; left; eauto|].
  destruct (decide (home x.1.1 = home x.2)); [right; eexists; right; right; eauto|]. left. done.
Qed.

Lemma two_in_not_apart home q x : two_in home q x -> ~ apart home x.
Proof. unfold two_in, apart. intros [[]|[[]|[]]] (? & ? & ?); congruence. Qed.

(** What the calls of the master keep: [Inv] of the hosts, and [has w q], that
    the aggregation folder of [w] has the central store of [q]. *)
Section calls_spec.
Context {S : Type} (Inv : S -> Prop) (has : S -> string -> string -> Prop).

Definition grows (s s' : S) : Prop := Inv s' /\ forall w q, has s w q -> has s' w q.

Lemma grows_trans s1 s2 s3 : grows s1 s2 -> grows s2 s3 -> grows s1 s3.
Proof. unfold grows. naive_solver. Qed.

Definition counts_local (E : Z -> Z -> Prop) (home : Z -> string) (cs : calls S) (worker part : string) : Prop :=
  forall s, Inv s -> exists (T : gset triple) s',
    local_count cs worker part s = (Ret (Z.of_nat (size T)), s') /\ grows s s' /\
    forall x, x ∈ T <-> tri (local_arcs E home part) x.

Lemma sum_counts_spec E home cs (l : list (string * string)) :
  NoDup (l.*2) -> (forall w q, (w, q) ∈ l -> counts_local E home cs w q) ->
  forall s, Inv s -> exists (T : gset triple) s',
    sum_counts cs false l s = (Ret (Z.of_nat (size T)), s') /\ grows s s' /\
    forall x, x ∈ T <-> tri E x /\ exists q, q ∈ l.*2 /\ two_in home q x.
Proof.
  induction l as [|[w q] l IH]; intros Hnd Hl s Hs; cbn [sum_counts].
  { exists ∅, s. split; [done|]. split; [done|]. intros x. split; [by intros ?%elem_of_empty|].
    by intros (_ & q & ?%not_elem_of_nil & _). }
  rewrite fmap_cons, NoDup_cons in Hnd. destruct Hnd as [Hq Hnd].
  destruct (Hl w q ltac:(left) s Hs) as (T1 & s1 & R1 & G1 & H1).
  destruct (IH Hnd ltac:(intros w' q' H'; apply Hl; by right) s1 (proj1 G1)) as (T2 & s2 & R2 & G2 & H2).
  assert (forall x, x ∈ T1 -> x ∈ T2 -> False) as Hd.
  { intros x [_ Hx1]%H1%tri_local (_ & q' & Hq' & Hx2)%H2. apply Hq.
    by rewrite (two_in_unique _ _ _ _ Hx1 Hx2). }
  exists (T1 ∪ T2), s2. split; [|split; [by eapply grows_trans|]].
  - rewrite (bind_Ret _ _ _ _ _ R1), (bind_Ret _ _ _ _ _ R2).
    rewrite size_union by (intros x; apply Hd). by rewrite Nat2Z.inj_add.
  - intros x. rewrite elem_of_union, H1, H2, tri_local, fmap_cons. setoid_rewrite elem_of_cons. naive_solver.
Qed.

(** ** The aggregated triangles *)

Definition copies (cs : calls S) (worker part : string) : Prop :=
  forall s, Inv s -> exists s', copy_store cs worker part s = (Ret tt, s') /\ grows s s' /\ has s' worker part.

Lemma copy_all_spec cs worker parts :
  (forall q, q ∈ parts -> copies cs worker q) ->
  forall s, Inv s -> exists s', copy_all cs worker parts s = (Ret tt, s') /\ grows s s' /\
    forall q, q ∈ parts -> has s' worker q.
Proof.
  induction parts as [|q parts IH]; intros Hc s Hs; cbn [copy_all].
  { exists s. split_and!; [done..|]. intros q ?%not_elem_of_nil. done. }
  destruct (Hc q ltac:(left) s Hs) as (s1 & R1 & G1 & H1).
  destruct (IH ltac:(intros q' H'; apply Hc; by right) s1 (proj1 G1)) as (s2 & R2 & G2 & H2).
  exists s2. split; [by rewrite (bind_Ret _ _ _ _ _ R1)|]. split; [by eapply grows_trans|].
  intros q' [->|Hq']%elem_of_cons; [by apply G2|by apply H2].
Qed.

Definition counts_central (iter : gset Z -> list Z) (E : Z -> Z -> Prop) (home : Z -> string) (cs : calls S)
    (r : request) : Prop :=
  forall s, Inv s -> (forall q, q ∈ to_copy r -> has s (minWeightWorker r) q) ->
  exists (A : adjacency) s', central_triangles cs r s = (Ret (aggregated_triangles iter A), s') /\ grows s s' /\
    forall x y, arcs A x y <-> central_arcs E home (request_parts r) x y.
End calls_spec.

Lemma size_named (U : gset string) (T : gset triple) :
  (forall t, t ∈ U <-> exists x, x ∈ T /\ t = show_triple x) -> size U = size T.
Proof.
  intros H. change (length (elements U) = length (elements T)). rewrite <- (length_fmap show_triple (elements T)).
  apply Permutation_length, NoDup_Permutation.
  - apply NoDup_elements.
  - apply NoDup_fmap_2_strong; [|apply NoDup_elements]. intros x y _ _. apply show_triple_inj.
  - intros t. rewrite elem_of_elements, H, list_elem_of_fmap. setoid_rewrite elem_of_elements. naive_solver.
Qed.

(** The three partitions of a triangle are together in a combination. *)
Lemma combination_of (ps : list string) a b c :
  NoDup ps -> a ∈ ps -> b ∈ ps -> c ∈ ps -> a <> b -> b <> c -> a <> c ->
  exists d, d `sublist_of` ps /\ length d = 3%nat /\ a ∈ d /\ b ∈ d /\ c ∈ d.
Proof.
  intros Hnd Ha Hb Hc H1 H2 H3. exists (filter (fun q => q ∈ [a; b; c]) ps). split_and!.
  - apply sublist_filter.
  - assert (filter (fun q => q ∈ [a; b; c]) ps ≡ₚ [a; b; c]) as ->; [|done]. apply NoDup_Permutation.
    + by apply NoDup_filter.
    + apply NoDup_cons. split; [set_solver|]. apply NoDup_cons. split; [set_solver|]. apply NoDup_singleton.
    + intros q. rewrite list_elem_of_filter. set_solver.
  - apply list_elem_of_filter. set_solver.
  - apply list_elem_of_filter. set_solver.
  - apply list_elem_of_filter. set_solver.
Qed.
Section aggregate.
Context (iter : gset Z -> list Z) (Hiter : forall X, iter X ≡ₚ elements X).
Context (E : Z -> Z -> Prop) (home : Z -> string) (HE : apexed E).
Context {S : Type} (Inv : S -> Prop) (has : S -> string -> string -> Prop) (cs : calls S) (workers : gset string).

Lemma ask_all_spec rs :
  Forall (fun r => minWeightWorker r ∈ workers /\
    (forall q, q ∈ to_copy r -> copies Inv has cs (minWeightWorker r) q) /\
    counts_central Inv has iter E home cs r) rs ->
  forall s, Inv s -> exists (answers : list string) (T : gset triple) s',
    ask_all cs workers rs s = (Ret answers, s') /\ grows Inv has s s' /\
    (forall t, t ∈ unique_triangles answers <-> exists x, x ∈ T /\ t = show_triple x) /\
    forall x, x ∈ T <-> exists r, r ∈ rs /\ tri (central_arcs E home (request_parts r)) x.
Proof.
  induction 1 as [|r rs (Hw & Hcp & Hct) _ IH]; intros s Hs; cbn [ask_all].
  { exists [], ∅, s. split; [done|]. split; [done|]. split.
    - intros t. rewrite elem_of_unique. setoid_rewrite elem_of_nil. setoid_rewrite elem_of_empty. naive_solver.
    - intros x. rewrite elem_of_empty. setoid_rewrite elem_of_nil. naive_solver. }
  destruct (copy_all_spec Inv has cs _ _ Hcp s Hs) as (s1 & R1 & G1 & Hh).
  destruct (Hct s1 (proj1 G1) Hh) as (A & s2 & R2 & G2 & HA).
  destruct (IH s2 (proj1 G2)) as (answers & T & s3 & R3 & G3 & Hu & HT).
  assert (apexed (arcs A)) as Hap by (eapply apexed_ext; [|exact (apexed_central E home HE (request_parts r))]; intros; by rewrite HA).
  destruct (search_above iter A (out_degrees A) Hiter) as (T1 & _ & HT1);
    [apply covers_above, covers_out_degrees|done|].
  exists (aggregated_triangles iter A :: answers), (T1 ∪ T), s3. split_and!.
  - rewrite decide_True by done. rewrite (bind_Ret _ _ _ tt s) by done.
    by rewrite (bind_Ret _ _ _ _ _ R1), (bind_Ret _ _ _ _ _ R2), (bind_Ret _ _ _ _ _ R3).
  - eapply grows_trans; [exact G1|]. by eapply grows_trans.
  - intros t. rewrite elem_of_unique. setoid_rewrite elem_of_cons. setoid_rewrite elem_of_union.
    pose proof (named_answer iter A Hiter Hap t) as Hn. pose proof (Hu t) as Hu'. rewrite elem_of_unique in Hu'.
    setoid_rewrite <- HT1 in Hn. naive_solver.
  - intros x. rewrite elem_of_union, HT, HT1. rewrite (tri_ext _ _ x HA). setoid_rewrite elem_of_cons. naive_solver.
Qed.
End aggregate.

(** ** The map of partitions *)

Lemma elem_of_sentries {A} (m : gmap string A) k a : (k, a) ∈ sentries m <-> m !! k = Some a.
Proof.
  unfold sentries. rewrite list_elem_of_omap. setoid_rewrite merge_sort_Permutation. split.
  - intros (i & _ & Hi). apply fmap_Some in Hi as (x & Hx & [= -> ->]). done.
  - intros H. exists k. rewrite H, elem_of_elements, elem_of_dom. by split; [exists a|].
Qed.

Lemma sentries_keys {A} (m : gmap string A) : (sentries m).*1 ≡ₚ elements (dom m).
Proof.
  unfold sentries. rewrite <- (merge_sort_Permutation string_le (elements (dom m))) at 2.
  assert (forall k, k ∈ merge_sort string_le (elements (dom m)) -> is_Some (m !! k)) as H.
  { intros k. by rewrite merge_sort_Permutation, elem_of_elements, elem_of_dom. }
  induction (merge_sort _ _) as [|k l IH]; [done|]. cbn [omap list_omap].
  destruct (H k ltac:(left)) as [a ->]. cbn. f_equiv. apply IH. intros i Hi. apply H. by right.
Qed.

Section partition_map.
Context (pm : gmap string (list string)).

Lemma elem_of_partitions q : q ∈ partitionsVector pm <-> exists w qs, pm !! w = Some qs /\ q ∈ qs.
Proof.
  unfold partitionsVector. rewrite list_elem_of_join. split.
  - intros (qs & Hq & Hqs). apply list_elem_of_fmap in Hqs as ([w qs'] & -> & H%elem_of_sentries). by exists w, qs'.
  - intros (w & qs & H & Hq). exists qs. split; [done|]. apply list_elem_of_fmap. exists (w, qs).
    by rewrite elem_of_sentries.
Qed.

Lemma partition_worker q : q ∈ partitionsVector pm ->
  exists w qs, partitionWorkerMap pm !! q = Some w /\ pm !! w = Some qs /\ q ∈ qs.
Proof.
  rewrite elem_of_partitions. unfold partitionWorkerMap.
  assert (forall (w : string) (qs : list string) (m : gmap string string) (q' : string),
    foldl (fun m part => <[part := w]> m) m qs !! q' = if decide (q' ∈ qs) then Some w else m !! q') as Hin.
  { intros w qs. induction qs as [|a qs IH]; intros m q'; cbn [foldl]; [by rewrite decide_False by apply not_elem_of_nil|].
    rewrite IH. destruct (decide (q' ∈ qs)); [rewrite decide_True; [done|by right]|].
    destruct (decide (q' = a)) as [->|Hne]; [rewrite lookup_insert_eq, decide_True; [done|left]|].
    rewrite lookup_insert_ne by done. rewrite decide_False; [done|]. rewrite elem_of_cons. tauto. }
  assert (forall (l : list (string * list string)) (m : gmap string string),
    (forall e, e ∈ l -> e ∈ sentries pm) ->
    (exists w qs, (w, qs) ∈ l /\ q ∈ qs) \/ (exists w qs, m !! q = Some w /\ (w, qs) ∈ sentries pm /\ q ∈ qs) ->
    exists w qs, foldl (fun m e => foldl (fun m part => <[part := e.1]> m) m e.2) m l !! q = Some w /\
      (w, qs) ∈ sentries pm /\ q ∈ qs) as H.
  { induction l as [|[w qs] l IH]; intros m Hl Hc; cbn [foldl].
    { destruct Hc as [(w & qs & ?%not_elem_of_nil & _)|]; done. }
    apply IH; [intros e He; apply Hl; by right|]. cbn [fst snd]. rewrite Hin. case_decide as Hq.
    { right. exists w, qs. split_and!; [done| |done]. apply Hl. left. }
    destruct Hc as [(w' & qs' & [[= -> ->]|H]%elem_of_cons & Hq')|H]; [done| |by right].
    left. by exists w', qs'. }
  intros (w & qs & H1%elem_of_sentries & H2).
  destruct (H (sentries pm) ∅) as (w' & qs' & H3 & H4 & H5); [done|left; by exists w, qs|].
  exists w', qs'. by rewrite <- (elem_of_sentries pm).
Qed.

Definition parts_at (w : string) : list string := default [] (pm !! w).

Lemma tasks_join l : (tasks l pm).*2 = mjoin (parts_at <$> l).
Proof.
  unfold tasks. induction l as [|w l IH]; [done|].
  rewrite bind_cons, fmap_app, IH, <- list_fmap_compose. unfold compose. cbn [snd]. by rewrite list_fmap_id.
Qed.

Lemma join_filter l : mjoin (parts_at <$> l) = mjoin (parts_at <$> filter (fun w => w ∈ dom pm) l).
Proof.
  induction l as [|w l IH]; [done|]. rewrite fmap_cons, filter_cons. change (mjoin (parts_at w :: ?k)) with (parts_at w ++ mjoin k).
  rewrite IH. case_decide as H; [done|]. apply not_elem_of_dom in H. unfold parts_at at 1. by rewrite H.
Qed.

Lemma partitions_join : partitionsVector pm = mjoin (parts_at <$> (sentries pm).*1).
Proof.
  unfold partitionsVector. f_equal. rewrite <- list_fmap_compose.
  apply list_fmap_ext. intros i [w qs] H%list_elem_of_lookup_2%elem_of_sentries. unfold compose, parts_at. cbn.
  by rewrite H.
Qed.

Lemma tasks_partitions workerList :
  NoDup workerList -> (forall w, w ∈ dom pm -> w ∈ workerList) ->
  (tasks workerList pm).*2 ≡ₚ partitionsVector pm.
Proof.
  intros Hnd Hd. rewrite tasks_join, join_filter, partitions_join.
  assert (filter (fun w => w ∈ dom pm) workerList ≡ₚ (sentries pm).*1) as ->; [|done].
  rewrite sentries_keys. apply NoDup_Permutation; [by apply NoDup_filter|apply NoDup_elements|].
  intros w. rewrite list_elem_of_filter, elem_of_elements. naive_solver.
Qed.
End partition_map.

(** *** The rows of the database *)

Lemma sentries_list {A} (m : gmap string A) : sentries m ≡ₚ map_to_list m.
Proof.
  apply NoDup_Permutation.
  - apply (NoDup_fmap_1 fst). rewrite sentries_keys. apply NoDup_elements.
  - apply NoDup_map_to_list.
  - intros [k a]. by rewrite elem_of_sentries, elem_of_map_to_list.
Qed.

Lemma length_partitions pm : length (partitionsVector pm) = length (mjoin (map_to_list pm).*2).
Proof. unfold partitionsVector. by rewrite sentries_list. Qed.

(** Every row is one partition of the map. *)
Lemma length_add_row m row : length (partitionsVector (add_row m row)) = S (length (partitionsVector m)).
Proof.
  rewrite !length_partitions. unfold add_row. destruct (m !! row.1) as [qs|] eqn:Em.
  - rewrite <- (insert_id m row.1 qs Em) at 2. rewrite <- !(insert_delete_eq m).
    rewrite !map_to_list_insert by apply lookup_delete_eq. rewrite !fmap_cons. cbn. rewrite !length_app. cbn. lia.
  - rewrite map_to_list_insert by done. by rewrite fmap_cons.
Qed.

Lemma length_rows rows : length (partitionsVector (foldl add_row ∅ rows)) = length rows.
Proof.
  induction rows as [|row rows IH] using rev_ind; [done|]. rewrite foldl_app. cbn [foldl].
  rewrite length_add_row, IH, length_app. cbn. lia.
Qed.

(** ** The master *)

(** A cluster whose answers are right: every partition is on one worker of
    the database, the edges are between vertices of the partitions, a local
    count is the number of triangles with two vertices in the partition, a
    central store can be copied to a worker of another partition, and an
    aggregation sees the edges that leave the partitions it is asked about,
    once the stores of other workers are there. *)
Record cluster_ok {S} (Inv : S -> Prop) (has : S -> string -> string -> Prop) (iter : gset Z -> list Z)
    (E : Z -> Z -> Prop) (home : Z -> string) (cs : calls S)
    (workers : gset string) (workerList : list string) (pm : gmap string (list string)) : Prop := {
  ok_iter : forall X, iter X ≡ₚ elements X;
  ok_apexed : apexed E;
  ok_workers : NoDup workerList /\ forall w, w ∈ dom pm -> w ∈ workerList /\ w ∈ workers;
  ok_parts : NoDup (partitionsVector pm) /\ (2 <= length (partitionsVector pm))%nat /\
    Forall plain (partitionsVector pm);
  ok_homes : forall x y, E x y -> home x ∈ partitionsVector pm /\ home y ∈ partitionsVector pm;
  ok_local : forall w q, w ∈ workerList -> q ∈ default [] (pm !! w) -> counts_local Inv has E home cs w q;
  ok_copy : forall w q, w ∈ dom pm -> q ∈ partitionsVector pm -> copies Inv has cs w q;
  ok_central : forall r, (forall q, q ∈ request_parts r -> q ∈ partitionsVector pm) ->
    partitionWorkerMap pm !! minWeightWorkerPartition r = Some (minWeightWorker r) ->
    minWeightWorkerPartition r ∉ split (adjustedPartitionIdList r) "," ->
    adjustedPartitionIdList r <> "" ->
    (forall q, q ∈ to_copy r <-> q ∈ request_parts r /\ partitionWorkerMap pm !! q <> Some (minWeightWorker r)) ->
    counts_central Inv has iter E home cs r
}.

Section cluster.
Context {S} (Inv : S -> Prop) (has : S -> string -> string -> Prop).
Context iter E home (cs : calls S) workers workerList pm
  (OK : cluster_ok Inv has iter E home cs workers workerList pm).

Lemma tri_homes x : tri E x ->
  home x.1.1 ∈ partitionsVector pm /\ home x.1.2 ∈ partitionsVector pm /\ home x.2 ∈ partitionsVector pm.
Proof.
  intros (_ & [H1|H1] & [H2|H2] & _); apply (ok_homes _ _ _ _ _ _ _ _ _ OK) in H1, H2; tauto.
Qed.

Lemma local_sum s : Inv s ->
  exists (T : gset triple) s',
    sum_counts cs false (tasks workerList pm) s = (Ret (Z.of_nat (size T)), s') /\ grows Inv has s s' /\
    forall x, x ∈ T <-> tri E x /\ exists q, two_in home q x.
Proof.
  intros Hs. destruct (ok_workers _ _ _ _ _ _ _ _ _ OK) as [Hnd Hw].
  destruct (ok_parts _ _ _ _ _ _ _ _ _ OK) as (Hp & _ & _).
  pose proof (tasks_partitions pm workerList Hnd (fun w H => proj1 (Hw w H))) as HP.
  destruct (sum_counts_spec Inv has E home cs (tasks workerList pm)) with (s := s) as (T & s' & R & G & HT).
  - by rewrite HP.
  - intros w q Hin. unfold tasks in Hin. apply list_elem_of_bind in Hin as (w' & Hq & Hw').
    apply list_elem_of_fmap in Hq as (q' & [= -> ->] & Hq). by apply (ok_local _ _ _ _ _ _ _ _ _ OK).
  - done.
  - exists T, s'. split; [done|]. split; [done|]. intros x. rewrite HT. split; [naive_solver|]. intros [Ht (q & Hq)].
    split; [done|]. exists q. split; [|done]. rewrite HP. destruct (tri_homes x Ht) as (H1 & H2 & H3).
    destruct Hq as [[<- _]|[[<- _]|[<- _]]]; done.
Qed.

(** The combinations of the partitions. *)
Lemma combinations_parts cs' :
  (if decide (3 <= length (partitionsVector pm))%nat
   then forall c, c ∈ cs' <-> c `sublist_of` partitionsVector pm /\ length c = 3%nat
   else cs' = [partitionsVector pm]) ->
  forall c, c ∈ cs' -> (2 <= length c)%nat /\ NoDup c /\ forall q, q ∈ c -> q ∈ partitionsVector pm.
Proof.
  destruct (ok_parts _ _ _ _ _ _ _ _ _ OK) as (Hp & Hlen & _). intros Hcs c Hc. case_decide as Hl.
  - apply Hcs in Hc as [Hs Hl3]. split; [lia|]. split.
    + eapply sublist_NoDup; eassumption.
    + intros q Hq. eapply elem_of_submseteq; [exact Hq|]. by apply sublist_submseteq.
  - subst cs'. apply list_elem_of_singleton in Hc as ->. done.
Qed.

(** Every request of the plan can be answered. *)
Lemma requests_ok cs' :
  Forall (fun c => (2 <= length c)%nat /\ NoDup c /\ forall q, q ∈ c -> q ∈ partitionsVector pm) cs' ->
  let workerOf := fun part => default "" (partitionWorkerMap pm !! part) in
  Forall2 (fun c r => forall q, q ∈ request_parts r <-> q ∈ c) cs' (plan_all workerOf ∅ cs') /\
  Forall (fun r => minWeightWorker r ∈ workers /\
    (forall q, q ∈ to_copy r -> copies Inv has cs (minWeightWorker r) q) /\
    counts_central Inv has iter E home cs r) (plan_all workerOf ∅ cs').
Proof.
  intros Hc workerOf. destruct (ok_workers _ _ _ _ _ _ _ _ _ OK) as [_ Hw].
  destruct (ok_parts _ _ _ _ _ _ _ _ _ OK) as (Hp & _ & Hpl).
  assert (Forall (fun c => c <> [] /\ Forall plain c) cs') as Hf.
  { eapply Forall_impl; [exact Hc|]. cbv beta. intros c (H1 & _ & H2). split; [intros ->; cbn in H1; lia|].
    apply Forall_forall. intros q Hq. rewrite Forall_forall in Hpl. by apply Hpl, H2. }
  pose proof (plan_all_spec workerOf cs' ∅ Hf) as Hpa. split.
  { eapply Forall2_impl; [exact Hpa|]. naive_solver. }
  apply Forall_forall. intros r Hr. apply list_elem_of_lookup in Hr as [i Hr].
  destruct (Forall2_lookup_r _ _ _ _ _ Hpa Hr) as (c & Hci & H1 & H2 & H4 & H5 & H3).
  apply list_elem_of_lookup_2 in Hci. rewrite Forall_forall in Hc. destruct (Hc c Hci) as (Hl2 & Hnd & Hcp).
  destruct (partition_worker pm _ (Hcp _ H1)) as (w & qs & Hpw & Hpm & _).
  assert (minWeightWorker r = w) as Hmw by (rewrite H2; unfold workerOf; by rewrite Hpw).
  assert (w ∈ dom pm) as Hwd by (by apply elem_of_dom_2 in Hpm).
  split_and!.
  - rewrite Hmw. by apply Hw.
  - intros q Hq. apply H5 in Hq as [Hq _]. rewrite Hmw. apply (ok_copy _ _ _ _ _ _ _ _ _ OK); [done|by apply Hcp].
  - apply (ok_central _ _ _ _ _ _ _ _ _ OK); [|by rewrite Hmw|done| |].
    + intros q Hq. by apply Hcp, H3.
    + intros E0. assert (forall q, q ∈ c -> q = minWeightWorkerPartition r) as Hone.
      { intros q Hq. apply H3 in Hq. unfold request_parts in Hq. rewrite E0 in Hq.
        by apply list_elem_of_singleton in Hq. }
      destruct c as [|a [|b c]]; cbn in Hl2; [lia..|]. apply NoDup_cons in Hnd as [Hnd _]. apply Hnd.
      rewrite (Hone a) by left. rewrite <- (Hone b) by (right; left). left.
    + intros q. rewrite H5, H3. split; intros [Hq Hne]; (split; [done|]);
        destruct (partition_worker pm q (Hcp q Hq)) as (w' & _ & Hq' & _); unfold workerOf in *; rewrite Hq' in *;
        cbn in *; congruence.
Qed.

Lemma aggregated_sum s : Inv s ->
  exists (T : gset triple) s',
    executor_aggregate cs workers pm s = (Ret (Z.of_nat (size T)), s') /\ grows Inv has s s' /\
    forall x, x ∈ T <-> tri E x /\ apart home x.
Proof.
  intros Hs. destruct (ok_parts _ _ _ _ _ _ _ _ _ OK) as (Hp & _ & _).
  unfold executor_aggregate. destruct (combinations_run (partitionsVector pm)) as (cs' & -> & Hcs).
  destruct (requests_ok cs') as [Hpa Hok].
  { apply Forall_forall. by apply combinations_parts. }
  set (rs := plan_all _ ∅ cs') in *.
  destruct (ask_all_spec iter (ok_iter _ _ _ _ _ _ _ _ _ OK) E home (ok_apexed _ _ _ _ _ _ _ _ _ OK)
    Inv has cs workers rs Hok s Hs) as (answers & T & s' & R & G & HU & HT).
  exists T, s'. split; [|split; [done|]].
  { rewrite (bind_Ret _ _ _ _ _ R). by rewrite (size_named _ T HU). }
  intros x. rewrite HT. split; [by intros (r & _ & ?%tri_central_1)|]. intros [Ht Ha].
  destruct (tri_homes x Ht) as (H1 & H2 & H3). pose proof Ha as (A1 & A2 & A3).
  destruct (combination_of _ _ _ _ Hp H1 H2 H3 A1 A2 A3) as (c & Hsub & Hl3 & C1 & C2 & C3).
  assert (c ∈ cs') as Hcin.
  { assert (length c <= length (partitionsVector pm))%nat by (by apply sublist_length).
    rewrite decide_True in Hcs by lia. by apply Hcs. }
  apply list_elem_of_lookup in Hcin as [i Hi].
  destruct (Forall2_lookup_l _ _ _ _ _ Hpa Hi) as (r & Hri & Hq).
  exists r. split; [by apply list_elem_of_lookup_2 in Hri|]. apply tri_central_2; try done; by apply Hq.
Qed.
End cluster.

Lemma master_counts {S} (Inv : S -> Prop) has iter E home (cs : calls S) workers workerList rows s :
  Z.of_nat (length rows) <= COMPOSITE_CENTRAL_STORE_WORKER_THRESHOLD ->
  cluster_ok Inv has iter E home cs workers workerList (foldl add_row ∅ rows) -> Inv s ->
  exists (T : gset triple) s',
    execute cs workers workerList rows s = (Ret (Z.of_nat (size T)), s') /\ Inv s' /\
    forall x, x ∈ T <-> tri E x.
Proof.
  intros Hrows OK Hs. destruct (local_sum _ _ _ _ _ _ _ _ _ OK s Hs) as (T1 & s1 & R1 & G1 & H1).
  destruct (aggregated_sum _ _ _ _ _ _ _ _ _ OK s1 (proj1 G1)) as (T2 & s2 & R2 & G2 & H2).
  exists (T1 ∪ T2), s2. split; [|split; [apply G2|]].
  - unfold execute. rewrite (proj2 (Z.ltb_ge _ _) Hrows). rewrite (bind_Ret _ _ _ _ _ R1). cbn [negb]. rewrite (bind_Ret _ _ _ _ _ R2). rewrite size_union.
    { by rewrite Nat2Z.inj_add. }
    intros x [_ (q & Hq)]%H1 [_ Ha]%H2. by apply (two_in_not_apart home q x).
  - intros x. rewrite elem_of_union, H1, H2. destruct (two_in_or_apart home x) as [|[q Hq]]; naive_solver.
Qed.

(** C9. The number [execute] answers with is the number of triangles of the graph,
    when the graph has two to four partitions, which is where the central
    stores are aggregated one by one, and every triangle has a vertex with
    edges to both others: the local counts and the aggregation of central
    stores count every triangle exactly once, for every choice of aggregators
    and every order of the workers, when the calls keep the promises of
    [cluster_ok]. *)
Theorem execute_counts {S} (Inv : S -> Prop) has iter E home (cs : calls S) workers workerList rows s :
  Z.of_nat (length rows) <= COMPOSITE_CENTRAL_STORE_WORKER_THRESHOLD ->
  cluster_ok Inv has iter E home cs workers workerList (foldl add_row ∅ rows) -> Inv s ->
  exists (T : gset triple) s',
    execute cs workers workerList rows s = (Ret (Z.of_nat (size T)), s') /\ Inv s' /\
    forall x, x ∈ T <-> tri E x.
Proof. apply master_counts. Qed.
