(* ===== verification/Sessions.v ===== *)
(** * Sessions: two programs and the connection between them

    Master and workers talk over TCP: each side sends strings and receives
    what has arrived, up to the length of its buffer.  A program is a [proc]
    that sends, receives and acts on the state of its host; a connection has
    what is under way in either direction.  Sending never waits, receiving
    waits until something has arrived or the other side has closed the
    connection; the steps of the two sides interleave freely.  A message that
    fits a segment of TCP arrives in one piece, a longer one may be cut
    anywhere, and several messages may arrive together.  What a session does
    in the end, whatever the interleaving and the cuts, is stated with
    [must]. *)
From Stdlib Require Import ZArith Ascii String Lia.
From stdpp Require Import base tactics numbers list strings gmap.
From S2P Require Import Prelude.

(** ** Programs *)

(** [Fin] closes the connection.  A send has a result: false when it fails. *)
Inductive proc (S A : Type) : Type :=
| Fin (o : outcome A)
| Say (m : list ascii) (k : bool -> proc S A)
| Hear (len : nat) (k : list ascii -> proc S A)
| Act (B : Type) (c : M S B) (k : B -> proc S A).
Arguments Fin {S A} o.
Arguments Say {S A} m k.
Arguments Hear {S A} len k.
Arguments Act {S A B} c k.

Definition recast {A B} (o : outcome A) : outcome B :=
  match o with
  | Ret _ | Undef => Undef
  | Throw e => Throw e
  | Deadlock => Deadlock
  | Terminated => Terminated
  | OutOfFuel => OutOfFuel
  end.

Fixpoint proc_then {S A B} (f : A -> proc S B) (p : proc S A) : proc S B :=
  match p with
  | Fin (Ret a) => f a
  | Fin o => Fin (recast o)
  | Say m k => Say m (fun b => proc_then f (k b))
  | Hear len k => Hear len (fun l => proc_then f (k l))
  | Act c k => Act c (fun b => proc_then f (k b))
  end.

#[export] Instance proc_ret S : MRet (proc S) := fun A a => Fin (Ret a).
#[export] Instance proc_bind S : MBind (proc S) := fun A B f p => proc_then f p.

Definition act {S A} (c : M S A) : proc S A := Act c (fun a => Fin (Ret a)).

(** ** Connections *)

(** The least size of a segment that every host takes (RFC 1122): what is sent
    at once and fits into it arrives in one piece. *)
Definition SEGMENT : nat := 536.

(** The pieces a message may arrive in, the smallest ones. *)
Definition pieces (m : list ascii) : list (list ascii) :=
  match m with
  | [] => []
  | _ => if (length m <=? SEGMENT)%nat then [m] else (fun a => [a]) <$> m
  end.

(** [recv]: the first [j] pieces have arrived, one at least; what the buffer
    has no room for is there for the next one. *)
Definition residue (l : list ascii) : list (list ascii) := match l with [] => [] | _ => [l] end.
Definition receive (len : nat) (inp : list (list ascii)) : list (list ascii * list (list ascii)) :=
  (fun j => let l := mjoin (take j inp) in (take len l, residue (drop len l) ++ drop j inp)) <$> seq 1 (length inp).

(** A side that closed the connection answers what reaches it, or what it left
    unread, with a reset. *)
Definition is_reset (closed : bool) (unread : list (list ascii)) : bool :=
  closed && match unread with [] => false | _ => true end.

(** What one side can do next: its program, its state, what is still to be
    received and what it sent; [unread] is what it has sent and the other side
    has not received.  Sending to a side that has closed loses the message;
    after a reset it may fail, and then the signal SIGPIPE, which nothing in
    the program ignores, ends the process; a receive may fail and is empty.  An
    act that cannot go on is tried again when the state has changed. *)
Definition advance {S A} (p : proc S A) (closed : bool) (unread inp : list (list ascii)) (s : S)
  : list (proc S A * S * list (list ascii) * list (list ascii)) :=
  match p with
  | Fin _ => []
  | Say m k =>
      (k true, s, inp, pieces m) ::
        if is_reset closed unread then [(k false, s, inp, []); (Fin Terminated, s, inp, [])] else []
  | Hear len k =>
      match inp with
      | [] => if closed then [(k [], s, [], [])] else []
      | _ => ((fun '(l, rest) => (k l, s, rest, [])) <$> receive len inp) ++
               if is_reset closed unread then [(k [], s, [], [])] else []
      end
  | Act c k =>
      match c s with
      | (Ret b, s') => [(k b, s', inp, [])]
      | (Deadlock, _) => []
      | (o, s') => [(Fin (recast o), s', inp, [])]
      end
  end.

Definition closed {S A} (p : proc S A) : bool := match p with Fin _ => true | _ => false end.

(** The two sides, the state of the hosts, and the pieces under way to the
    server and to the client. *)
Record conn (S A B : Type) := mkConn {
  client : proc S A;
  server : proc S B;
  world : S;
  up : list (list ascii);
  down : list (list ascii)
}.
Arguments mkConn {S A B}.
Arguments client {S A B}.
Arguments server {S A B}.
Arguments world {S A B}.
Arguments up {S A B}.
Arguments down {S A B}.

Section steps.
Context {S A B : Type}.
Implicit Types x y : conn S A B.

Definition client_steps x : list (conn S A B) :=
  (fun '(p, s, inp, out) => mkConn p (server x) s (up x ++ out) inp) <$>
    advance (client x) (closed (server x)) (up x) (down x) (world x).
Definition server_steps x : list (conn S A B) :=
  (fun '(p, s, inp, out) => mkConn (client x) p s inp (down x ++ out)) <$>
    advance (server x) (closed (client x)) (down x) (up x) (world x).
Definition steps x : list (conn S A B) := client_steps x ++ server_steps x.

(** Neither side can go on: both are done, or they wait for each other. *)
Definition halted x : Prop := steps x = [].
Definition finished x : bool := closed (client x) && closed (server x).

(** Every execution from [x] reaches [P]. *)
Inductive must (P : conn S A B -> Prop) : conn S A B -> Prop :=
| must_now x : P x -> must P x
| must_step x : steps x <> [] -> (forall y, y ∈ steps x -> must P y) -> must P x.

(** Some execution from [x] reaches [y]. *)
Inductive may : conn S A B -> conn S A B -> Prop :=
| may_now x : may x x
| may_step x y z : y ∈ steps x -> may y z -> may x z.
End steps.

(** ** The wrappers of Utils *)

Section wrappers.
Context {S : Type}.

Definition INSTANCE_DATA_LENGTH : nat := 300.

(** [send_str_wrapper] and [write]. *)
Definition send_str (s : string) : proc S bool := Say (chars s) (fun b => Fin (Ret b)).

(** [trim_copy]. *)
Definition trim_list (l : list ascii) : list ascii := drop_spaces (reverse (drop_spaces (reverse l))).
Definition trim_copy (s : string) : string := string_of_list_ascii (trim_list (chars s)).

(** [read_str_wrapper]: the buffer up to its first NUL; a failed or empty
    receive is the empty string. *)
Definition text (l : list ascii) : string := string_of_list_ascii (until_nul l).
Definition read_str : proc S string := Hear INSTANCE_DATA_LENGTH (fun l => Fin (Ret (text l))).

(** [read_str_trim_wrapper]. *)
Definition heard (l : list ascii) : string :=
  let str := text l in if decide (str = "") then str else trim_copy str.
Definition read_str_trim : proc S string := Hear INSTANCE_DATA_LENGTH (fun l => Fin (Ret (heard l))).

(** [sendExpectResponse]. *)
Definition sendExpectResponse (sendMsg expectMsg : string) : proc S bool :=
  sent ← send_str sendMsg;
  if (sent : bool) then
    response ← read_str_trim;
    mret (bool_decide (response = expectMsg))
  else mret false.

(** [performHandshake]. *)
Definition HANDSHAKE : string := "hske".
Definition HANDSHAKE_OK : string := "hske-ok".
Definition HOST_OK : string := "hst-ok".
Definition performHandshake (masterIP : string) : proc S bool :=
  ok ← sendExpectResponse HANDSHAKE HANDSHAKE_OK;
  if (ok : bool) then sendExpectResponse masterIP HOST_OK else mret false.

(** [atol]: 0 when there is no number; not defined out of range. *)
Definition atol (s : string) : option Z :=
  match stol s with inr z => Some z | inl invalid_argument => Some 0 | inl _ => None end.
End wrappers.

(** A handler returns whether the session ends; a reply that cannot be sent
    ends it. *)
Definition reply {S} (m : string) (k : proc S bool) : proc S bool :=
  Say (chars m) (fun b => if b then k else Fin (Ret true)).

(** ** Reasoning about sessions

    The rules for [must]: one message at a time while the other side waits,
    acts of one side, and what a clean string is received as. *)

(** The strings that are received as they were sent. *)
Create HintDb sessions.

(** ** Strings that arrive as they were sent *)

Definition plain_char (a : ascii) : Prop := is_space a = false /\ a <> nul.
Definition plain_chars (l : list ascii) : Prop := Forall plain_char l.

(** A message that one receive takes whole and that has nothing to trim. *)
Definition clean (s : string) : Prop :=
  s <> "" /\ (length (chars s) <= INSTANCE_DATA_LENGTH)%nat /\ plain_chars (chars s).

#[export] Instance plain_char_dec a : Decision (plain_char a).
Proof. unfold plain_char. apply _. Defined.
#[export] Instance plain_chars_dec l : Decision (plain_chars l).
Proof. unfold plain_chars. apply _. Defined.
#[export] Instance clean_dec s : Decision (clean s).
Proof. unfold clean. apply _. Defined.

Lemma until_nul_plain l : plain_chars l -> until_nul l = l.
Proof. intros H. apply until_nul_id. intros Hn. by apply (proj1 (Forall_forall _ _) H) in Hn as [_ []]. Qed.

Lemma drop_spaces_plain l : plain_chars l -> drop_spaces l = l.
Proof. intros [|a l' [Ha _] _]; [done|]. cbn. by rewrite Ha. Qed.

Lemma trim_plain l : plain_chars l -> trim_list l = l.
Proof.
  intros H. unfold trim_list. rewrite (drop_spaces_plain (reverse l)) by (by apply Forall_reverse).
  rewrite reverse_involutive. by apply drop_spaces_plain.
Qed.

Lemma text_plain s : plain_chars (chars s) -> text (chars s) = s.
Proof. intros H. unfold text. rewrite until_nul_plain by done. apply string_chars. Qed.

Lemma trim_copy_plain s : plain_chars (chars s) -> trim_copy s = s.
Proof. intros H. unfold trim_copy. rewrite trim_plain by done. apply string_chars. Qed.

Lemma heard_plain s : plain_chars (chars s) -> heard (chars s) = s.
Proof. intros H. unfold heard. rewrite text_plain by done. case_decide; [done|]. by apply trim_copy_plain. Qed.

Lemma heard_clean s : clean s -> heard (chars s) = s.
Proof. intros (_ & _ & H). by apply heard_plain. Qed.

Lemma text_clean s : clean s -> text (chars s) = s.
Proof. intros (_ & _ & H). by apply text_plain. Qed.

Lemma chars_clean s : clean s -> chars s <> [].
Proof. intros (H & _). by destruct s. Qed.

(** ** Pieces *)

(** A message that one receive into a buffer of [n] bytes takes whole. *)
Definition fits (m : list ascii) (n : nat) : Prop := (length m <= Nat.min n SEGMENT)%nat.

(** Pieces are never empty. *)
Definition solid (ps : list (list ascii)) : Prop := Forall (fun m => m <> []) ps.

Lemma clean_fits s : clean s -> fits (chars s) INSTANCE_DATA_LENGTH.
Proof. intros (_ & H & _). unfold fits. etransitivity; [exact H|]. unfold INSTANCE_DATA_LENGTH, SEGMENT. lia. Qed.

Lemma pieces_one m n : m <> [] -> fits m n -> pieces m = [m].
Proof.
  unfold fits. intros Hm Hn. unfold pieces. destruct m as [|a m]; [done|].
  by rewrite (proj2 (Nat.leb_le _ _)) by lia.
Qed.

Lemma join_pieces m : mjoin (pieces m) = m.
Proof.
  unfold pieces. destruct m as [|a m]; [done|]. destruct (_ <=? _)%nat; [apply app_nil_r|].
  induction (a :: m) as [|b l IH]; [done|]. cbn. f_equal. exact IH.
Qed.

Lemma solid_pieces m : solid (pieces m).
Proof.
  unfold pieces. destruct m as [|a m]; [constructor|]. destruct (_ <=? _)%nat; [by repeat constructor|].
  apply Forall_fmap, Forall_true. done.
Qed.

Lemma solid_join ps : solid ps -> mjoin ps = [] -> ps = [].
Proof. intros [|[|a m] ps' Hm _]; done. Qed.

Lemma join_residue l : mjoin (residue l) = l.
Proof. destruct l; [done|apply app_nil_r]. Qed.

Lemma solid_residue l : solid (residue l).
Proof. destruct l; by repeat constructor. Qed.

Lemma receive_one n m : m <> [] -> fits m n -> receive n [m] = [(m, [])].
Proof.
  unfold fits. intros Hm Hn. unfold receive. cbn. rewrite app_nil_r, take_ge, drop_ge by lia. done.
Qed.

(** What a receive takes and leaves is what was under way; it is something
    when the buffer has room. *)
Lemma receive_elem n ps l rest : (l, rest) ∈ receive n ps ->
  l ++ mjoin rest = mjoin ps /\ (length l <= n)%nat /\
  (solid ps -> solid rest /\ ((0 < n)%nat -> l <> [])).
Proof.
  unfold receive. intros (j & [= -> ->] & Hj)%list_elem_of_fmap. apply elem_of_seq in Hj. split_and!.
  - rewrite join_app, join_residue, app_assoc, take_drop, <- join_app. by rewrite take_drop.
  - rewrite length_take. lia.
  - intros Hs. split; [apply Forall_app; split; [apply solid_residue|by apply Forall_drop]|].
    intros Hn E. destruct j as [|j]; [lia|]. destruct Hs as [|m ps' Hm _]; [cbn in Hj; lia|].
    destruct m as [|a m]; [done|]. destruct n as [|n]; [lia|done].
Qed.

Lemma receive_nonempty n ps : ps <> [] -> receive n ps <> [].
Proof. by destruct ps. Qed.

(** ** Rules *)

Section rules.
Context {S A B : Type}.
Implicit Types (P Q : conn S A B -> Prop) (x y : conn S A B).

Lemma must_trans P Q x : must P x -> (forall y, P y -> must Q y) -> must Q x.
Proof. intros H HQ. induction H as [x H|x H1 H2 IH]; [by apply HQ|by apply must_step]. Qed.

Lemma must_mono P Q x : must P x -> (forall y, P y -> Q y) -> must Q x.
Proof. intros H HQ. apply (must_trans P); [done|]. intros y Hy. by apply must_now, HQ. Qed.

(** What must happen does happen in some execution. *)
Lemma must_may P x : must P x -> exists y, P y /\ may x y.
Proof.
  induction 1 as [x H|x H1 _ IH]; [exists x; split; [done|constructor]|].
  destruct (steps x) as [|y ys] eqn:E; [done|].
  destruct (IH y) as (z & Hz & Hm); [left|]. exists z. split; [done|]. apply (may_step _ y); [|done].
  rewrite E. left.
Qed.

Lemma may_trans x y z : may x y -> may y z -> may x z.
Proof. intros H Hz. induction H as [x|x y y' Hy _ IH]; [done|]. by eapply may_step; [exact Hy|apply IH]. Qed.

(** A halted connection reaches only itself. *)
Lemma must_halted P x : must P x -> halted x -> P x.
Proof. intros [y H|y H _] Hh; done. Qed.

(** The only step. *)
Lemma must_one P x y : steps x = [y] -> must P y -> must P x.
Proof. intros E H. apply must_step; [by rewrite E|]. intros z. rewrite E, list_elem_of_singleton. by intros ->. Qed.

Definition waits {T D} (p : proc T D) : bool := match p with Hear _ _ => true | _ => false end.
Definition idle {T D} (p : proc T D) : bool := match p with Hear _ _ | Fin _ => true | _ => false end.

(** A waiting side takes the one message that is there. *)
Lemma hear_whole {T D} n (h : list ascii -> proc T D) m c u (s : T) : m <> [] -> fits m n -> is_reset c u = false ->
  advance (Hear n h) c u [m] s = [(h m, s, [], [])].
Proof. intros Hm Hn Hr. cbn -[receive]. by rewrite receive_one, Hr. Qed.

Lemma not_reset c : is_reset c [] = false.
Proof. by destruct c. Qed.

(** The client says something, the server waits for it. *)
Lemma ask P m k n h s :
  m <> [] -> fits m n -> idle (k true) = true ->
  must P (mkConn (k true) (h m) s [] []) -> must P (mkConn (Say m k) (Hear n h) s [] []).
Proof.
  intros Hm Hn Hk H. eapply must_one; [unfold steps, client_steps, server_steps; reflexivity|].
  cbn [client server world up down app]. rewrite (pieces_one m n) by done. eapply must_one; [|exact H].
  unfold steps, client_steps, server_steps. cbn [client server world up down].
  destruct (k true); try done; by rewrite hear_whole by (done || apply not_reset).
Qed.

(** The server says something, the client waits for it. *)
Lemma answer P m k n h s :
  m <> [] -> fits m n -> idle (k true) = true ->
  must P (mkConn (h m) (k true) s [] []) -> must P (mkConn (Hear n h) (Say m k) s [] []).
Proof.
  intros Hm Hn Hk H. eapply must_one; [unfold steps, client_steps, server_steps; reflexivity|].
  cbn [client server world up down app]. rewrite (pieces_one m n) by done. eapply must_one; [|exact H].
  unfold steps, client_steps, server_steps. cbn [client server world up down].
  destruct (k true); try done; by rewrite hear_whole by (done || apply not_reset).
Qed.

(** The server acts while the client waits or is done. *)
Lemma server_acts P p {D} (f : M S D) k s d s' :
  idle p = true -> f s = (Ret d, s') ->
  must P (mkConn p (k d) s' [] []) -> must P (mkConn p (Act f k) s [] []).
Proof.
  intros Hp Hf H. eapply must_one; [|exact H].
  unfold steps, client_steps, server_steps. cbn. rewrite Hf. destruct p; done.
Qed.

Lemma client_acts P {D} (f : M S D) k q s d s' :
  idle q = true -> f s = (Ret d, s') ->
  must P (mkConn (k d) q s' [] []) -> must P (mkConn (Act f k) q s [] []).
Proof.
  intros Hq Hf H. eapply must_one; [|exact H].
  unfold steps, client_steps, server_steps. cbn. rewrite Hf. destruct q; done.
Qed.

(** The client is done and the server reads the end of the stream. *)
Lemma hang_up P o n h s :
  must P (mkConn (Fin o) (h []) s [] []) -> must P (mkConn (Fin o) (Hear n h) s [] []).
Proof. intros H. by eapply must_one. Qed.

(** Both wait: nothing happens any more. *)
Lemma both_wait n h n' h' s : halted (mkConn (S:=S) (A:=A) (B:=B) (Hear n h) (Hear n' h') s [] []).
Proof. done. Qed.

(** The server is done and has read everything: what the client still says is
    lost. *)
Lemma farewell P m k o s inp :
  must P (mkConn (k true) (Fin o) s (pieces m) inp) -> must P (mkConn (Say m k) (Fin o) s [] inp).
Proof. intros H. by eapply must_one. Qed.

(** The server is done: whatever it has left unread, the client goes on, its
    send has failed, or its process has been ended. *)
Lemma say_closed P m k o s u inp :
  (forall b u', must P (mkConn (k b) (Fin o) s u' inp)) ->
  (forall u', must P (mkConn (Fin Terminated) (Fin o) s u' inp)) -> must P (mkConn (Say m k) (Fin o) s u inp).
Proof.
  intros H Ht. apply must_step; [done|]. intros y. unfold steps, client_steps, server_steps. cbn [client server world up down].
  rewrite elem_of_app. intros [(z & -> & Hz)%list_elem_of_fmap|Hy]; [|by apply not_elem_of_nil in Hy].
  cbn [advance closed] in Hz. apply elem_of_cons in Hz as [->|Hz]; [apply H|].
  destruct (is_reset true u); [|by apply not_elem_of_nil in Hz].
  apply elem_of_cons in Hz as [->|Hz]; [apply H|]. apply list_elem_of_singleton in Hz as ->. apply Ht.
Qed.

(** The server is done and nothing is left to be received. *)
Lemma hear_closed P n h o s u :
  must P (mkConn (h []) (Fin o) s u []) -> must P (mkConn (Hear n h) (Fin o) s u []).
Proof. intros H. eapply must_one; [reflexivity|]. cbn. by rewrite app_nil_r. Qed.

(** *** A server that works while the client goes on *)

(** [q] cannot go on in [s] without a message. *)
Definition held {T D} (q : proc T D) (s : T) : Prop := closed q = false /\ forall u, advance q false u [] s = [].

Lemma answer_held P m k n h s :
  m <> [] -> fits m n -> held (k true) s ->
  must P (mkConn (h m) (k true) s [] []) -> must P (mkConn (Hear n h) (Say m k) s [] []).
Proof.
  intros Hm Hn [Hc Hk] H. eapply must_one; [unfold steps, client_steps, server_steps; reflexivity|].
  cbn [client server world up down app]. rewrite (pieces_one m n) by done. eapply must_one; [|exact H].
  unfold steps, client_steps, server_steps. cbn [client server world up down closed].
  by rewrite Hk, hear_whole by (done || apply not_reset).
Qed.

Lemma client_acts_held P {D} (f : M S D) k q s d s' :
  held q s -> f s = (Ret d, s') ->
  must P (mkConn (k d) q s' [] []) -> must P (mkConn (Act f k) q s [] []).
Proof.
  intros [Hc Hq] Hf H. eapply must_one; [|exact H].
  unfold steps, client_steps, server_steps. cbn [client server world up down closed]. rewrite Hq. cbn. by rewrite Hf.
Qed.

(** The acts of the server up to the next message it waits for. *)
Inductive runs : proc S B -> S -> nat -> (list ascii -> proc S B) -> S -> Prop :=
| runs_now n h s : runs (Hear n h) s n h s
| runs_act D (c : M S D) k s d s1 n h s' :
    c s = (Ret d, s1) -> runs (k d) s1 n h s' -> runs (Act c k) s n h s'.

Lemma runs_open q s n h s' : runs q s n h s' -> closed q = false.
Proof. by intros []. Qed.

(** The message of the client is under way while the server works. *)
Lemma runs_receives P p q s n h s' m :
  runs q s n h s' -> waits p = true -> m <> [] -> fits m n ->
  must P (mkConn p (h m) s' [] []) -> must P (mkConn p q s [m] []).
Proof.
  intros Hr Hp Hm Hn H. destruct p as [| |n1 h1|]; try done. induction Hr as [n h s|D c k s d s1 n h s' Hc _ IH].
  - eapply must_one; [|exact H]. unfold steps, client_steps, server_steps. cbn [client server world up down closed].
    by rewrite (hear_whole n) by done.
  - eapply must_one; [|by apply IH]. unfold steps, client_steps, server_steps. cbn. by rewrite Hc.
Qed.

(** The client has something to say while the server works. *)
Lemma runs_told P k q s n h s' m :
  runs q s n h s' -> waits (k true) = true -> m <> [] -> fits m n ->
  must P (mkConn (k true) (h m) s' [] []) -> must P (mkConn (Say m k) q s [] []).
Proof.
  intros Hr Hp Hm Hn H. induction Hr as [n h s|D c k' s d s1 n h s' Hc Hr IH].
  - eapply must_one; [reflexivity|]. cbn [client server world up down app]. rewrite (pieces_one m n) by done.
    by eapply runs_receives; [constructor|..].
  - apply must_step; [done|]. intros y. unfold steps, client_steps, server_steps. cbn. rewrite Hc. cbn.
    intros [-> | ->%list_elem_of_singleton]%elem_of_cons; [|by apply IH].
    rewrite (pieces_one m n) by done. by eapply runs_receives; [eapply runs_act|..].
Qed.

(** The client hears the last word of the server and answers it while the
    server works. *)
Lemma runs_exchange P n0 h0 m0 k q s n h s' m :
  runs q s n h s' -> m0 <> [] -> fits m0 n0 -> h0 m0 = Say m k ->
  waits (k true) = true -> m <> [] -> fits m n ->
  must P (mkConn (k true) (h m) s' [] []) -> must P (mkConn (Hear n0 h0) q s [] [m0]).
Proof.
  intros Hr Hm0 Hn0 Hh Hp Hm Hn H. induction Hr as [n h s|D c k' s d s1 n h s' Hc Hr IH].
  - eapply must_one; [unfold steps, client_steps, server_steps; cbn [client server world up down closed];
      rewrite (hear_whole n0), Hh by done; reflexivity|].
    cbn [client server world up down app]. by eapply runs_told; [constructor|..].
  - apply must_step.
    { unfold steps, client_steps, server_steps. cbn [client server world up down closed]. by rewrite (hear_whole n0) by done. }
    intros y. unfold steps, client_steps, server_steps.
    cbn [client server world up down closed]. rewrite (hear_whole n0), Hh by done. cbn. rewrite Hc. cbn.
    intros [-> | ->%list_elem_of_singleton]%elem_of_cons; [|rewrite ?app_nil_r; by apply IH].
    by eapply runs_told; [eapply runs_act|..].
Qed.

(** The server answers and then works until it waits again. *)
Lemma answer_runs P n0 h0 m0 k0 m k s n h s' :
  runs (k0 true) s n h s' -> m0 <> [] -> fits m0 n0 -> h0 m0 = Say m k ->
  waits (k true) = true -> m <> [] -> fits m n ->
  must P (mkConn (k true) (h m) s' [] []) -> must P (mkConn (Hear n0 h0) (Say m0 k0) s [] []).
Proof.
  intros Hr Hm0 Hn0 Hh Hp Hm Hn H. eapply must_one; [reflexivity|].
  cbn [client server world up down app]. rewrite (pieces_one m0 n0) by done. by eapply runs_exchange.
Qed.

(** An empty message is no message: the server waits on. *)
Lemma ask_nothing P k n h s :
  must P (mkConn (k true) (Hear n h) s [] []) -> must P (mkConn (Say [] k) (Hear n h) s [] []).
Proof. intros H. by eapply must_one. Qed.
End rules.
