(* ===== verification/WorkerSessions.v ===== *)
(** * WorkerSessions: the commands of a worker and their callers

    [instanceservicesession] (src/server/JasmineGraphInstanceService.cpp)
    reads a command, runs its handler and goes on until the session ends; the
    handlers of the commands that the triangle count of the master uses are
    here, and the functions of src/frontend/core/executor/impl/
    TriangleCountExecutor.cpp that call them.  Every session runs in a process
    of its own: what it changes in memory ends with it. *)
From Stdlib Require Import ZArith Ascii String Lia.
From stdpp Require Import base tactics numbers list strings gmap pretty.
From S2P Require Import Prelude HashMapStores Shell StaticTriangles Sessions.

(** ** The protocol (JasmineGraphInstanceProtocol.cpp) *)

Definition CLOSE : string := "close".
Definition SHUTDOWN : string := "shdn".
Definition READY : string := "ready".
Definition OK : string := "ok".
Definition TRIANGLES : string := "tria".
Definition AGGREGATE_CENTRALSTORE_TRIANGLES : string := "aggregate".
Definition AGGREGATE_COMPOSITE_CENTRALSTORE_TRIANGLES : string := "aggregate-composite".
Definition CHECK_FILE_ACCESSIBLE : string := "check-file-accessible".
Definition SEND_FILE_TYPE : string := "send-file-type".
Definition FILE_TYPE_CENTRALSTORE_AGGREGATE : string := "file-type-centralstore-aggregate".
Definition FILE_TYPE_CENTRALSTORE_COMPOSITE : string := "file-type-centralstore-composite".
Definition FILE_TYPE_DATA : string := "file-type-data".

Definition DEFAULT_THREAD_PRIORITY : Z := 1.
Definition CHUNK_OFFSET : nat := 290.

(** ** The state of a session *)

(** A file on its way: the file transfer service has written [ar_got] of it
    and has still to write [ar_rest]; [ar_rounds] says how many bytes it writes
    between two looks at the file, after them it writes the rest.  Before it
    opens the file, [ar_got] is [None]. *)
Record arriving := mkArriving {
  ar_path : string;
  ar_got : option (list ascii);
  ar_rest : list ascii;
  ar_rounds : list nat
}.

Record service := mkService {
  sv_worker : worker;
  sv_masterIP : string;
  highestPriority : Z;
  workerHighPriorityTaskCount : Z;
  incoming : option arriving
}.

Definition set_worker (w : worker) (s : service) : service :=
  mkService w (sv_masterIP s) (highestPriority s) (workerHighPriorityTaskCount s) (incoming s).
Definition set_masterIP (ip : string) (s : service) : service :=
  mkService (sv_worker s) ip (highestPriority s) (workerHighPriorityTaskCount s) (incoming s).
Definition set_priority (p n : Z) (s : service) : service :=
  mkService (sv_worker s) (sv_masterIP s) p n (incoming s).
Definition set_incoming (a : option arriving) (s : service) : service :=
  mkService (sv_worker s) (sv_masterIP s) (highestPriority s) (workerHighPriorityTaskCount s) a.

Definition on_worker {A} : M worker A -> M service A := zoom sv_worker set_worker.

(** The count of tasks above the default priority, before and after one. *)
Definition raise_priority (threadPriority : Z) : M service unit :=
  if DEFAULT_THREAD_PRIORITY <? threadPriority then
    modify (fun s => set_priority threadPriority (workerHighPriorityTaskCount s + 1) s)
  else mret tt.
Definition lower_priority (threadPriority : Z) : M service unit :=
  if DEFAULT_THREAD_PRIORITY <? threadPriority then
    modify (fun s =>
      let n := workerHighPriorityTaskCount s - 1 in
      set_priority (if n =? 0 then DEFAULT_THREAD_PRIORITY else highestPriority s) n s)
  else mret tt.

(** ** Long answers in chunks *)

Definition SEND : list ascii := chars "/SEND".
Definition CMPT : list ascii := chars "/CMPT".

(** The chunks of an answer; each takes at least one character. *)
Fixpoint chunks (fuel : nat) (l : list ascii) : list (list ascii) :=
  match fuel, l with
  | _, [] => []
  | O, _ => []
  | S fuel', _ =>
      (take CHUNK_OFFSET l ++ (if decide (CHUNK_OFFSET < length l)%nat then SEND else CMPT)) ::
        chunks fuel' (drop CHUNK_OFFSET l)
  end.

(** The chunks after the first wait for a word of the caller. *)
Fixpoint send_more {S} (loop_exit : bool) (cs : list (list ascii)) : proc S bool :=
  match cs with
  | [] => mret loop_exit
  | c :: cs' => _ ← read_str; Say c (fun b => send_more (if b then loop_exit else true) cs')
  end.
Definition send_chunks {S} (cs : list (list ascii)) : proc S bool :=
  match cs with
  | [] => mret false
  | c :: cs' => Say c (fun b => if b then send_more false cs' else mret true)
  end.

(** The loop of the caller; [response.substr(response.size() - 5)] throws
    when the response is shorter. *)
Definition last5 (s : string) : string := String.substring (String.length s - 5) 5 s.
Definition but_last5 (s : string) : string := String.substring 0 (String.length s - 5) s.
Fixpoint receive_chunks {S} (fuel : nat) (result : string) : proc S string :=
  match fuel with
  | O => Fin OutOfFuel
  | Datatypes.S fuel' =>
      response ← read_str_trim;
      if decide (String.length response < 5)%nat then Fin (Throw out_of_range)
      else
        let result := result +:+ but_last5 response in
        if decide (last5 response = "/SEND") then _ ← send_str "/SEND"; receive_chunks fuel' result
        else mret result
  end.

(** ** The handlers *)

Section handlers.
Context {FB : FlatBuffers} (iter : gset Z -> list Z) (garbage : Z).

(** [handshake_command], [close_command], [shutdown_command],
    [ready_command]. *)
Definition handshake_command : proc service bool :=
  reply HANDSHAKE_OK (
    masterIP ← read_str_trim;
    _ ← act (modify (set_masterIP masterIP));
    reply HOST_OK (mret false)).
Definition close_command : proc service bool := mret true.
Definition shutdown_command : proc service bool := Fin Terminated.
Definition ready_command : proc service bool := reply OK (mret false).

(** [triangles_command]. *)
Definition triangles_command : proc service bool :=
  reply OK (
    graphID ← read_str_trim;
    reply OK (
      partitionId ← read_str_trim;
      reply OK (
        priority ← read_str_trim;
        reply OK (
          _ ← read_str_trim;
          threadPriority ← act (stoi_exn priority);
          _ ← act (raise_priority threadPriority);
          localCount ← act (on_worker (countLocalTriangles iter garbage graphID partitionId));
          _ ← act (lower_priority threadPriority);
          reply (show_long localCount) (mret false))))).

(** [aggregate_centralstore_triangles_command]. *)
Definition aggregate_centralstore_triangles_command : proc service bool :=
  reply OK (
    graphId ← read_str_trim;
    reply OK (
      partitionId ← read_str_trim;
      reply OK (
        partitionIdList ← read_str_trim;
        reply OK (
          priority ← read_str_trim;
          threadPriority ← act (stoi_exn priority);
          _ ← act (raise_priority threadPriority);
          reply OK (
            _ ← read_str_trim;
            aggregatedTriangles ←
              act (on_worker (aggregateCentralStoreTriangles iter graphId partitionId partitionIdList));
            _ ← act (lower_priority threadPriority);
            let l := chars aggregatedTriangles in
            send_chunks (chunks (length l) l)))))).

(** [check_file_accessible_command]. *)
Definition file_accessible (path : worker -> string) : proc service bool :=
  s ← act get_state;
  reply (if file_exists (disk_files (sv_worker s)) (path (sv_worker s)) then "true" else "false") (mret false).
Definition check_file_accessible_command : proc service bool :=
  reply SEND_FILE_TYPE (
    fileType ← read_str_trim;
    if decide (fileType = FILE_TYPE_CENTRALSTORE_AGGREGATE) then
      reply OK (
        graphId ← read_str_trim;
        reply OK (
          partitionId ← read_str_trim;
          file_accessible (fun w => aggregatorDirPath w +:+ "/" +:+ graphId +:+ "_centralstore_" +:+ partitionId)))
    else if decide (fileType = FILE_TYPE_CENTRALSTORE_COMPOSITE) then
      reply OK (
        fileName ← read_str_trim;
        file_accessible (fun w => aggregatorDirPath w +:+ "/" +:+ fileName))
    else if decide (fileType = FILE_TYPE_DATA) then
      reply OK (
        fileName ← read_str_trim;
        file_accessible (fun w => dataFolder w +:+ "/" +:+ fileName))
    else file_accessible (fun _ => "")).

(** The handlers of the commands that are not modelled. *)
Context (other_command : string -> option (proc service bool)).

Definition dispatch (cmd : string) : proc service bool :=
  if decide (cmd = HANDSHAKE) then handshake_command
  else if decide (cmd = CLOSE) then close_command
  else if decide (cmd = SHUTDOWN) then shutdown_command
  else if decide (cmd = READY) then ready_command
  else if decide (cmd = TRIANGLES) then triangles_command
  else if decide (cmd = AGGREGATE_CENTRALSTORE_TRIANGLES) then aggregate_centralstore_triangles_command
  else if decide (cmd = CHECK_FILE_ACCESSIBLE) then check_file_accessible_command
  else match other_command cmd with
       | Some handler => handler
       | None => mret true (** Invalid command *)
       end.

(** [instanceservicesession]; an empty command is read again as an invalid
    one. *)
Fixpoint instanceservicesession (fuel : nat) (cmd : string) : proc service unit :=
  match fuel with
  | O => Fin OutOfFuel
  | S fuel' =>
      loop_exit ← dispatch cmd;
      if (loop_exit : bool) then mret tt
      else
        cmd ← read_str;
        instanceservicesession fuel' (if decide (cmd = "") then cmd else trim_copy cmd)
  end.

(** The accept loop of [JasmineGraphInstanceService::run] for one connection:
    the session starts with the first line. *)
Definition serve (fuel : nat) : proc service unit :=
  line ← read_str;
  if decide (line = "") then mret tt else instanceservicesession fuel (trim_copy line).
End handlers.

(** ** The callers *)

Section callers.
Context {C : Type}.

(** [getTriangleCount] without composite aggregation, once it is connected.
    A count that was never set is returned as it is. *)
Definition if_ok (response : string) (p : proc C string) : proc C string :=
  if decide (response = OK) then p else mret response.
Definition ask_for (m : string) : proc C string := _ ← send_str m; read_str_trim.

Definition getTriangleCount (graphId partitionId : Z) (masterIP : string) (threadPriority : Z)
    (masterTraceContext : string) : proc C Z :=
  response ← ask_for HANDSHAKE;
  if decide (response = HANDSHAKE_OK) then
    _ ← ask_for masterIP;
    response ← ask_for TRIANGLES;
    response ← if_ok response (ask_for (show_long graphId));
    response ← if_ok response (ask_for (show_long partitionId));
    triangleCount ←
      (if decide (response = OK) then
         response ← ask_for (show_long threadPriority);
         response ← if_ok response
           (ask_for (if decide (masterTraceContext = "") then "NO_TRACE_CONTEXT" else masterTraceContext));
         mret (atol response)
       else mret None);
    _ ← send_str CLOSE;
    match triangleCount with Some n => mret n | None => Fin Undef end
  else
    _ ← send_str CLOSE;
    mret 0.

(** [countCentralStoreTriangles]; [fuel] bounds the number of chunks. *)
Definition countCentralStoreTriangles (fuel : nat) (partitionId partitionIdList graphId masterIP : string)
    (threadPriority : Z) (traceContext : string) : proc C string :=
  response ← ask_for HANDSHAKE;
  response ←
    (if decide (response = HANDSHAKE_OK) then
       _ ← send_str masterIP;
       _ ← read_str;
       response ← ask_for AGGREGATE_CENTRALSTORE_TRIANGLES;
       response ← if_ok response (ask_for graphId);
       response ← if_ok response (ask_for partitionId);
       response ← if_ok response (ask_for partitionIdList);
       response ← if_ok response (ask_for (show_long threadPriority));
       if_ok response (_ ← send_str traceContext; receive_chunks fuel "")
     else mret response);
  _ ← send_str CLOSE;
  mret response.

(** [isFileAccessibleToWorker]. *)
Definition isFileAccessibleToWorker (graphId partitionId masterIP fileType fileName : string) : proc C string :=
  response ← ask_for HANDSHAKE;
  isFileAccessible ←
    (if decide (response = HANDSHAKE_OK) then
       _ ← ask_for masterIP;
       response ← ask_for CHECK_FILE_ACCESSIBLE;
       if decide (response = SEND_FILE_TYPE) then
         response ← ask_for fileType;
         if decide (fileType = FILE_TYPE_CENTRALSTORE_AGGREGATE) then
           if decide (response = OK) then
             response ← ask_for graphId;
             if decide (response = OK) then ask_for partitionId else mret "false"
           else mret "false"
         else if decide (fileType = FILE_TYPE_CENTRALSTORE_COMPOSITE) then
           if decide (response = OK) then ask_for (rawFileName fileName) else mret "false"
         else mret "false"
       else mret "false"
     else mret "false");
  _ ← send_str CLOSE;
  mret isFileAccessible.
End callers.

(** ** A call over a connection is the call *)

(** ** Numbers are clean messages *)

Lemma length_list_ascii s : length (chars s) = String.length s.
Proof. induction s as [|a s IH]; cbn; [done|]. f_equal. exact IH. Qed.

Lemma length_pretty_N_go n x s :
  (x < 10 ^ N.of_nat n)%N -> (String.length (pretty_N_go x s) <= n + String.length s)%nat.
Proof.
  revert x s. induction n as [|n IH]; intros x s Hx.
  - replace x with 0%N by (cbn in Hx; lia). by rewrite pretty_N_go_0.
  - destruct (decide (x = 0%N)) as [->|Hne]; [rewrite pretty_N_go_0; lia|].
    rewrite pretty_N_go_step by lia. etransitivity; [apply IH|cbn; lia].
    apply N.Div0.div_lt_upper_bound. by rewrite <- N.pow_succ_r', <- Nat2N.inj_succ.
Qed.

Lemma length_to_string z : 0 <= z < 100000000000000000000 -> (String.length (to_string z) <= 20)%nat.
Proof.
  intros Hz. unfold to_string, pretty, pretty_N. case_decide; [cbn; lia|].
  etransitivity; [apply (length_pretty_N_go 20); change (10 ^ N.of_nat 20)%N with 100000000000000000000%N; lia|done].
Qed.

Lemma show_long_clean z : is_i64 z -> clean (show_long z).
Proof.
  unfold is_i64. intros Hz. split_and!.
  - apply show_long_nonempty.
  - rewrite length_list_ascii. unfold show_long, INSTANCE_DATA_LENGTH. destruct (Z.ltb_spec z 0).
    + pose proof (length_to_string (- z) ltac:(lia)). rewrite length_string_app. cbn [String.length]. lia.
    + pose proof (length_to_string z ltac:(lia)). lia.
  - apply Forall_forall. intros a [->|[d Hd]]%show_long_chars; [by split|].
    apply digit_char in Hd as (H1 & H2 & _). by split.
Qed.

Lemma i32_clean z : is_i32 z -> clean (show_long z).
Proof. unfold is_i32. intros H. apply show_long_clean. unfold is_i64. lia. Qed.
#[export] Hint Resolve i32_clean show_long_clean : sessions.

Ltac a_word := apply (bool_decide_unpack (clean _)); vm_compute; reflexivity.
Ltac is_clean := first [eassumption | solve [eauto with sessions] | a_word].
Ltac got := rewrite ?heard_clean, ?text_clean by is_clean.
Ltac says :=
  eapply ask; [apply chars_clean; is_clean|apply clean_fits; is_clean|reflexivity|]; got.
Ltac replies :=
  eapply answer; [apply chars_clean; is_clean|apply clean_fits; is_clean|reflexivity|]; got.
Ltac server_act := eapply server_acts; [reflexivity|reflexivity|].

(** Both sides are done: the result of the caller and the state of the
    worker. *)
Definition ends {A} (a : A) (s : service) (x : conn service A unit) : Prop :=
  client x = Fin (Ret a) /\ server x = Fin (Ret tt) /\ world x = s.

(** The state a session with a task of priority [pr] leaves: the count of
    tasks is back where it was. *)
Definition after_task (w : worker) (masterIP : string) (pr : Z) (s : service) : service :=
  mkService w masterIP
    (if DEFAULT_THREAD_PRIORITY <? pr
     then if workerHighPriorityTaskCount s =? 0 then DEFAULT_THREAD_PRIORITY else pr
     else highestPriority s)
    (workerHighPriorityTaskCount s) (incoming s).

Definition raised (pr : Z) (s : service) : service :=
  if DEFAULT_THREAD_PRIORITY <? pr
  then set_priority pr (workerHighPriorityTaskCount s + 1) s else s.

Lemma raise_run pr s : raise_priority pr s = (Ret tt, raised pr s).
Proof. unfold raise_priority, raised. by destruct (_ <? _). Qed.

Lemma raised_worker pr s : sv_worker (raised pr s) = sv_worker s.
Proof. unfold raised. by destruct (_ <? _). Qed.

Lemma lower_run pr w' s :
  lower_priority pr (set_worker w' (raised pr s)) = (Ret tt, after_task w' (sv_masterIP s) pr s).
Proof.
  unfold lower_priority, after_task, raised. destruct (_ <? _); [|done]. unfold modify. cbn.
  by rewrite Z.add_simpl_r.
Qed.

(** A task of a worker between the two changes of the priority. *)
Lemma on_worker_run {A} (f : M worker A) a w' s :
  f (sv_worker s) = (Ret a, w') ->
  on_worker f s = (Ret a, set_worker w' s).
Proof. intros H. unfold on_worker. by rewrite (zoom_run _ _ _ _ _ _ H). Qed.

Lemma atol_show n : is_i64 n -> atol (show_long n) = Some n.
Proof. intros H. unfold atol. by rewrite stol_show. Qed.

(** ** Long answers *)

Lemma heard_list l : plain_chars l -> heard l = string_of_list_ascii l.
Proof. intros H. rewrite <- (chars_string l) at 1. apply heard_plain. by rewrite chars_string. Qed.

Lemma string_of_app l m : string_of_list_ascii (l ++ m) = string_of_list_ascii l +:+ string_of_list_ascii m.
Proof. apply chars_inj. by rewrite chars_app, !chars_string. Qed.

Lemma length_string_of l : String.length (string_of_list_ascii l) = length l.
Proof. by rewrite <- length_list_ascii, chars_string. Qed.

Lemma but_last5_app l m : length m = 5%nat -> but_last5 (string_of_list_ascii (l ++ m)) = string_of_list_ascii l.
Proof.
  intros H. unfold but_last5. rewrite length_string_of, length_app, H, Nat.add_sub, string_of_app.
  rewrite <- (length_string_of l). apply substring_app.
Qed.

Lemma last5_app l m : length m = 5%nat -> last5 (string_of_list_ascii (l ++ m)) = string_of_list_ascii m.
Proof.
  intros H. unfold last5. rewrite length_string_of, length_app, H, Nat.add_sub. revert H.
  induction l as [|a l IH]; intros H; [|by apply IH].
  cbn [app length]. rewrite <- H, <- (length_string_of m). clear.
  induction (string_of_list_ascii m) as [|a s IH]; [done|]. cbn. by rewrite IH.
Qed.

Definition marker (l : list ascii) : list ascii := if decide (CHUNK_OFFSET < length l)%nat then SEND else CMPT.

Lemma chunks_step fuel l : l <> [] ->
  chunks (S fuel) l = (take CHUNK_OFFSET l ++ marker l) :: chunks fuel (drop CHUNK_OFFSET l).
Proof. by destruct l. Qed.

Lemma chunks_nil fuel : chunks fuel [] = [].
Proof. by destruct fuel. Qed.

Lemma marker_plain l : length (marker l) = 5%nat /\ plain_chars (marker l).
Proof. unfold marker. case_decide; split; (done || by apply (bool_decide_unpack _); vm_compute). Qed.

Lemma chunk_plain l : plain_chars l -> plain_chars (take CHUNK_OFFSET l ++ marker l).
Proof. intros H. apply Forall_app. split; [by apply Forall_take|apply marker_plain]. Qed.

Lemma receive_chunks_step {T A} fuel result (f : string -> proc T A) l :
  plain_chars l ->
  exists h, proc_then f (receive_chunks (S fuel) result) = Hear INSTANCE_DATA_LENGTH h /\
    h (take CHUNK_OFFSET l ++ marker l) =
      if decide (CHUNK_OFFSET < length l)%nat
      then proc_then f (_ ← send_str "/SEND"; receive_chunks fuel (result +:+ string_of_list_ascii (take CHUNK_OFFSET l)))
      else f (result +:+ string_of_list_ascii l).
Proof.
  intros H. destruct (marker_plain l) as [Hm _]. eexists. split; [reflexivity|]. cbv beta.
  rewrite heard_list by (by apply chunk_plain). cbn [proc_then mbind proc_bind].
  rewrite decide_False by (rewrite length_string_of, length_app; lia).
  rewrite but_last5_app, last5_app by done. unfold marker. destruct (decide (CHUNK_OFFSET < length l)%nat).
  - by rewrite decide_True.
  - rewrite decide_False by done. by rewrite take_ge by lia.
Qed.

Lemma transfer_run {A B} (s : service) (P : conn service A B -> Prop) f g n :
  idle (g false) = true -> forall l result fuel k,
  (length l <= n + CHUNK_OFFSET)%nat -> (length l <= S fuel)%nat -> plain_chars l ->
  k true = proc_then g (send_more false (chunks n (drop CHUNK_OFFSET l))) ->
  must P (mkConn (f (result +:+ string_of_list_ascii l)) (g false) s [] []) ->
  must P (mkConn (proc_then f (receive_chunks (S fuel) result)) (Say (take CHUNK_OFFSET l ++ marker l) k) s [] []).
Proof.
  intros Hg. induction n as [|n IH]; intros l result fuel k Hn Hf Hp Hk H;
    destruct (receive_chunks_step fuel result f l Hp) as (h & -> & Hh);
    destruct (marker_plain l) as [Hm _];
    (apply answer;
     [ intros E; apply (f_equal length) in E; rewrite length_app, Hm in E; cbn [length] in E; lia
     | unfold fits; rewrite length_app, Hm; etransitivity;
         [apply Nat.add_le_mono_r; rewrite length_take; apply Nat.le_min_l|vm_compute; lia]
     | rewrite Hk; destruct (drop CHUNK_OFFSET l) as [|a l'] eqn:E; [by rewrite chunks_nil|]
     | rewrite Hh, Hk ]).
  - apply (f_equal length) in E. rewrite length_drop in E. cbn [length] in E. lia.
  - rewrite decide_False, drop_ge by lia. exact H.
  - by rewrite chunks_step.
  - case_decide as Hl; [|rewrite drop_ge by lia; rewrite chunks_nil; exact H].
    pose proof (length_drop l CHUNK_OFFSET) as Hd.
    assert (drop CHUNK_OFFSET l <> []) as Hne by (intros E; rewrite E in Hd; cbn [length] in Hd; lia).
    rewrite chunks_step by done. destruct fuel as [|fuel]; [unfold CHUNK_OFFSET in Hl; lia|].
    eapply ask; [done|vm_compute; lia|reflexivity|].
    apply (IH (drop CHUNK_OFFSET l)); [unfold CHUNK_OFFSET in *; lia..|by apply Forall_drop|done|].
    by rewrite string_app_assoc, <- string_of_app, take_drop.
Qed.

Section triangles.
Context {FB : FlatBuffers} (iter : gset Z -> list Z) (garbage : Z) (other : string -> option (proc service bool)).
Context (masterIP : string) (pr : Z) (s : service).
Hypothesis Hip : clean masterIP.
Hypothesis Hpr : is_i32 pr.

Lemma triangle_session graphId partitionId tr fuel n w' :
  is_i32 graphId -> is_i32 partitionId -> tr = "" \/ clean tr -> is_i64 n ->
  countLocalTriangles iter garbage (show_long graphId) (show_long partitionId) (sv_worker s) = (Ret n, w') ->
  must (ends n (after_task w' masterIP pr s))
    (mkConn (getTriangleCount graphId partitionId masterIP pr tr) (serve iter garbage other (3 + fuel)) s [] []).
Proof.
  intros Hg Hp Htr Hn Hw.
  says. replies. says. server_act. replies. says. replies. says. replies. says. replies. says. replies.
  assert (clean (if decide (tr = "") then "NO_TRACE_CONTEXT" else tr)) by (case_decide; [a_word|naive_solver]).
  says.
  eapply server_acts; [reflexivity|unfold stoi_exn; rewrite stoi_show by done; reflexivity|].
  eapply server_acts; [reflexivity|apply raise_run|].
  eapply server_acts; [reflexivity|apply on_worker_run; rewrite raised_worker; exact Hw|].
  eapply server_acts; [reflexivity|apply lower_run|].
  replies. rewrite atol_show by done. says.
  by apply must_now.
Qed.

Lemma aggregate_session graphId partitionId partitionIdList tr fuel chunk_fuel ans w' :
  clean graphId -> clean partitionId -> clean partitionIdList -> clean tr ->
  aggregateCentralStoreTriangles iter graphId partitionId partitionIdList (sv_worker s) = (Ret ans, w') ->
  ans <> "" -> plain_chars (chars ans) -> (String.length ans <= chunk_fuel)%nat ->
  must (ends ans (after_task w' masterIP pr s))
    (mkConn (countCentralStoreTriangles (S chunk_fuel) partitionId partitionIdList graphId masterIP pr tr)
       (serve iter garbage other (3 + fuel)) s [] []).
Proof.
  intros Hg Hp Hl Htr Hw Hne Hans Hf.
  says. replies. says. server_act. replies. says. replies. says. replies. says. replies. says. replies. says.
  eapply server_acts; [reflexivity|unfold stoi_exn; rewrite stoi_show by done; reflexivity|].
  eapply server_acts; [reflexivity|apply raise_run|].
  replies. says.
  eapply server_acts; [reflexivity|apply on_worker_run; rewrite raised_worker; exact Hw|].
  eapply server_acts; [reflexivity|apply lower_run|].
  cbv zeta. assert (chars ans <> []) as Hl0 by (by destruct ans).
  destruct (length (chars ans)) as [|m] eqn:Hm; [by apply nil_length_inv in Hm|]. rewrite chunks_step by done.
  eapply (transfer_run _ _ (fun response => _ ← send_str CLOSE; mret response) _ m);
    [|unfold CHUNK_OFFSET; lia|rewrite length_list_ascii in *; lia|done|reflexivity|]; [reflexivity|].
  rewrite string_chars. says.
  by apply must_now.
Qed.

(** A call with an empty list of partitions, or with an empty trace context,
    leaves the two sides waiting for each other. *)
Lemma aggregate_hangs graphId partitionId partitionIdList tr fuel chunk_fuel :
  clean graphId -> clean partitionId -> partitionIdList = "" \/ clean partitionIdList /\ tr = "" ->
  must (fun x => halted x /\ finished x = false)
    (mkConn (countCentralStoreTriangles (S chunk_fuel) partitionId partitionIdList graphId masterIP pr tr)
       (serve iter garbage other (3 + fuel)) s [] []).
Proof.
  intros Hg Hp [->|[Hl ->]].
  - says. replies. says. server_act. replies. says. replies. says. replies. says. replies.
    eapply ask_nothing. by apply must_now.
  - says. replies. says. server_act. replies. says. replies. says. replies. says. replies. says. replies. says.
    eapply server_acts; [reflexivity|unfold stoi_exn; rewrite stoi_show by done; reflexivity|].
    eapply server_acts; [reflexivity|apply raise_run|].
    replies. eapply ask_nothing. by apply must_now.
Qed.

(** [isFileAccessibleToWorker] asks whether the worker has the central store
    of a partition in its aggregation folder. *)
Lemma accessible_session graphId partitionId fileName fuel :
  clean graphId -> clean partitionId ->
  must (ends (if file_exists (disk_files (sv_worker s))
                   (aggregatorDirPath (sv_worker s) +:+ "/" +:+ graphId +:+ "_centralstore_" +:+ partitionId)
              then "true" else "false") (set_masterIP masterIP s))
    (mkConn (isFileAccessibleToWorker graphId partitionId masterIP FILE_TYPE_CENTRALSTORE_AGGREGATE fileName)
       (serve iter garbage other (3 + fuel)) s [] []).
Proof.
  intros Hg Hp. says. replies. says. server_act. replies. says. replies. says. replies. says. replies. says.
  server_act. cbn [sv_worker set_masterIP]. destruct (file_exists _ _).
  - replies. says. by apply must_now.
  - replies. says. by apply must_now.
Qed.
End triangles.
