(* ===== verification/FileTransfer.v ===== *)
(** * FileTransfer: a file goes from one host to another

    [Utils::sendFileThroughService] (src/util/Utils.cpp) and
    [filetransferservicesession]
    (src/server/JasmineGraphInstanceFileTransferService.cpp): name and length
    are agreed on message by message, then the sender writes blocks while the
    receiver reads what has arrived.  Every interleaving delivers the file. *)
From Stdlib Require Import ZArith Ascii String Lia.
From stdpp Require Import base tactics numbers list strings gmap.
From S2P Require Import Prelude HashMapStores StaticTriangles Sessions WorkerSessions.


Definition SEND_FILE_LEN : string := "file-len".
Definition SEND_FILE : string := "file".

(** ** The sender *)

Definition BLOCK : nat := 1024.

(** The loop of [fread] and [write]; a block takes at least one byte. *)
Fixpoint send_blocks {C} (fuel : nat) (data : list ascii) : proc C bool :=
  match data, fuel with
  | [], _ => mret true
  | _, O => Fin OutOfFuel
  | _, S fuel' => Say (take BLOCK data) (fun _ => send_blocks fuel' (drop BLOCK data))
  end.

(** [sendFileThroughService] of a file with these bytes, once connected. *)
Definition sendFileThroughService {C} (fileName : string) (data : list ascii) : proc C bool :=
  ok ← sendExpectResponse fileName SEND_FILE_LEN;
  if (ok : bool) then
    ok ← sendExpectResponse (show_long (Z.of_nat (length data))) SEND_FILE;
    if (ok : bool) then send_blocks (length data) data else mret false
  else mret false.

(** ** The receiver *)

Definition RECEIVE_BUFFER : nat := 4096.

Definition write_file (path : string) (data : list ascii) (w : worker) : worker :=
  mkWorker (<[path := data]> (disk_files w)) (dataFolder w) (aggregatorDirPath w)
    (graphDBMapLocalStores w) (graphDBMapCentralStores w) (graphDBMapDuplicateCentralStores w).
Definition append_file (path : string) (data : list ascii) (w : worker) : worker :=
  write_file path (default [] (disk_files w !! path) ++ data) w.

(** The loop; every round but the last takes at least one byte. *)
Fixpoint receive_blocks (fuel : nat) (path : string) (fsize : Z) : proc worker unit :=
  if 0 <? fsize then
    match fuel with
    | O => Fin OutOfFuel
    | S fuel' =>
        Hear RECEIVE_BUFFER (fun buffer =>
          match buffer with
          | [] => mret tt
          | _ => Act (modify (append_file path buffer))
                   (fun _ => receive_blocks fuel' path (fsize - Z.of_nat (length buffer)))
          end)
    end
  else mret tt.

(** [filetransferservicesession]. *)
Definition filetransferservicesession : proc worker unit :=
  fileName ← read_str;
  w ← act get_state;
  let filePathWithName := dataFolder w +:+ "/" +:+ fileName in
  _ ← send_str SEND_FILE_LEN;
  fsizeStr ← read_str;
  fsize ← act (stoi_exn fsizeStr);
  _ ← send_str SEND_FILE;
  _ ← act (modify (write_file filePathWithName []));
  receive_blocks (Z.to_nat fsize) filePathWithName fsize.

(** ** Every interleaving delivers the file *)

(** A worker with one more file. *)
Lemma write_twice path a b w : write_file path b (write_file path a w) = write_file path b w.
Proof. unfold write_file. cbn. by rewrite insert_insert_eq. Qed.

Lemma append_write path a b w : append_file path b (write_file path a w) = write_file path (a ++ b) w.
Proof.
  unfold append_file. change (disk_files (write_file path a w)) with (<[path := a]> (disk_files w)).
  rewrite lookup_insert_eq. apply write_twice.
Qed.

Section delivery.
Context (path : string) (data : list ascii) (w : worker).
Abbreviation config := (conn worker bool unit).

Definition delivered (x : config) : Prop :=
  client x = Fin (Ret true) /\ server x = Fin (Ret tt) /\ world x = write_file path data w.

(** While the blocks are under way: the file has what was received, and what
    is missing is in the connection or still to be sent. *)
Inductive streaming : nat -> config -> Prop :=
| stream_open n rest flow fuel w0 :
    data = mjoin flow ++ rest -> solid flow -> (length rest <= n)%nat -> (length data <= fuel)%nat ->
    write_file path [] w0 = write_file path [] w ->
    streaming (3 * length rest + 2 * length (mjoin flow) + 1)
      (mkConn (send_blocks n rest)
         (Act (modify (write_file path [])) (fun _ => receive_blocks fuel path (Z.of_nat (length data)))) w0 flow [])
| stream_loop n rest flow got fuel :
    data = got ++ mjoin flow ++ rest -> solid flow -> (length rest <= n)%nat ->
    (length (mjoin flow) + length rest <= fuel)%nat ->
    streaming (3 * length rest + 2 * length (mjoin flow))
      (mkConn (send_blocks n rest)
         (receive_blocks fuel path (Z.of_nat (length (mjoin flow) + length rest))) (write_file path got w) flow [])
| stream_write n rest flow got buffer fuel :
    data = got ++ buffer ++ mjoin flow ++ rest -> solid flow -> (length rest <= n)%nat ->
    (length (mjoin flow) + length rest <= fuel)%nat ->
    streaming (3 * length rest + 2 * length (mjoin flow) + 1)
      (mkConn (send_blocks n rest)
         (Act (modify (append_file path buffer))
            (fun _ => receive_blocks fuel path (Z.of_nat (length (mjoin flow) + length rest)))) (write_file path got w) flow []).

(** The pieces under way once the next block is sent. *)
Definition sent (flow : list (list ascii)) (rest : list ascii) : list (list ascii) := flow ++ pieces (take BLOCK rest).

Lemma join_sent flow rest : mjoin (sent flow rest) = mjoin flow ++ take BLOCK rest.
Proof. unfold sent. by rewrite join_app, join_pieces. Qed.

Lemma solid_sent flow rest : solid flow -> solid (sent flow rest).
Proof. intros H. apply Forall_app. split; [done|apply solid_pieces]. Qed.

Lemma send_blocks_nil n : send_blocks (C:=worker) n [] = Fin (Ret true).
Proof. by destruct n. Qed.

Lemma send_blocks_cons n rest : (length rest <= n)%nat -> rest <> [] ->
  exists n', send_blocks (C:=worker) n rest = Say (take BLOCK rest) (fun _ => send_blocks n' (drop BLOCK rest)) /\
    (length (drop BLOCK rest) <= n')%nat.
Proof.
  intros Hn Hr. destruct rest as [|a rest]; [done|]. destruct n as [|n]; [cbn in Hn; lia|].
  exists n. split; [done|]. rewrite length_drop. cbn [length] in *. unfold BLOCK. lia.
Qed.

(** The sender moves a block into the connection, or is done. *)
Lemma sender_steps n rest q s flow : closed q = false -> (length rest <= n)%nat -> rest <> [] ->
  exists n', client_steps (mkConn (send_blocks n rest) q s flow [] : config) =
      [mkConn (send_blocks n' (drop BLOCK rest)) q s (sent flow rest) []] /\
    (length (drop BLOCK rest) <= n')%nat.
Proof.
  intros Hq Hn Hr. destruct (send_blocks_cons n rest Hn Hr) as (n' & -> & Hn'). exists n'. split; [|done].
  unfold client_steps. cbn [client server world up down advance]. by rewrite Hq.
Qed.

Lemma block_moves (rest : list ascii) flow : rest <> [] ->
  (3 * length (drop BLOCK rest) + 2 * length (mjoin (sent flow rest)) < 3 * length rest + 2 * length (mjoin flow))%nat.
Proof.
  intros Hr. rewrite join_sent, length_app, length_take, length_drop. destruct rest as [|a rest]; [done|].
  cbn [length]. unfold BLOCK. lia.
Qed.

Lemma sent_block_length (rest : list ascii) flow :
  (length (mjoin flow) + length rest = length (mjoin (sent flow rest)) + length (drop BLOCK rest))%nat.
Proof. rewrite join_sent, length_app, length_take, length_drop. lia. Qed.

Lemma sent_block_data (got rest : list ascii) flow :
  data = got ++ mjoin flow ++ rest -> data = got ++ mjoin (sent flow rest) ++ drop BLOCK rest.
Proof. intros ->. by rewrite join_sent, <- app_assoc, take_drop. Qed.

(** When the receiver acts: it goes on, or the sender does. *)
Lemma receiver_acts m n rest flow f k s :
  (length rest <= n)%nat ->
  streaming m (mkConn (send_blocks n rest) (k tt) (f s) flow []) -> (m < 3 * length rest + 2 * length (mjoin flow) + 1)%nat ->
  (forall n', (length (drop BLOCK rest) <= n')%nat ->
     streaming (3 * length (drop BLOCK rest) + 2 * length (mjoin (sent flow rest)) + 1)
       (mkConn (send_blocks n' (drop BLOCK rest)) (Act (modify f) k) s (sent flow rest) [])) ->
  let x : config := mkConn (send_blocks n rest) (Act (modify f) k) s flow [] in
  steps x <> [] /\ forall y, y ∈ steps x ->
    exists m', (m' < 3 * length rest + 2 * length (mjoin flow) + 1)%nat /\ streaming m' y.
Proof.
  intros Hn Hs Hm Hc x.
  assert (server_steps x = [mkConn (send_blocks n rest) (k tt) (f s) flow []]) as Hsv by done.
  unfold steps. rewrite Hsv. split; [by destruct (client_steps x)|]. intros y.
  rewrite elem_of_app, list_elem_of_singleton. intros [Hy| ->]; [|by exists m].
  destruct (decide (rest = [])) as [->|Hr].
  { unfold x, client_steps in Hy. rewrite send_blocks_nil in Hy. by apply not_elem_of_nil in Hy. }
  destruct (sender_steps n rest (Act (modify f) k) s flow eq_refl Hn Hr) as (n' & E & Hn').
  unfold x in Hy. rewrite E, list_elem_of_singleton in Hy. subst y. eexists. split; [|by apply Hc].
  pose proof (block_moves rest flow Hr). lia.
Qed.

(** A round of the receiver, with whatever has arrived of what is under way. *)
Lemma receiver_takes n rest flow got fuel y :
  data = got ++ mjoin flow ++ rest -> solid flow -> (length rest <= n)%nat ->
  (length (mjoin flow) + length rest <= fuel)%nat -> flow <> [] ->
  y ∈ server_steps (mkConn (send_blocks n rest)
      (receive_blocks fuel path (Z.of_nat (length (mjoin flow) + length rest))) (write_file path got w) flow [] : config) ->
  exists m, (m < 3 * length rest + 2 * length (mjoin flow))%nat /\ streaming m y.
Proof.
  intros Hd Hs Hn Hf Hfl. assert (0 < length (mjoin flow))%nat as Hpos.
  { destruct (mjoin flow) eqn:E; [by apply solid_join in E|cbn; lia]. }
  destruct fuel as [|fuel]; [lia|]. unfold server_steps. cbn [server client up down world receive_blocks].
  destruct (Z.ltb_spec 0 (Z.of_nat (length (mjoin flow) + length rest))); [|lia].
  intros (z & -> & Hz)%list_elem_of_fmap. cbn [advance] in Hz. destruct flow as [|f0 flow']; [done|].
  set (flow := f0 :: flow') in *. rewrite not_reset, app_nil_r in Hz.
  apply list_elem_of_fmap in Hz as ([buffer flow2] & -> & Hr). apply receive_elem in Hr as (Hj & _ & Hb).
  destruct (Hb Hs) as [Hs2 Hne]. pose proof (f_equal length Hj) as Hlen. rewrite length_app in Hlen.
  destruct buffer as [|b buffer']; [exfalso; apply Hne; [unfold RECEIVE_BUFFER; lia|done]|].
  set (buffer := b :: buffer') in *. assert (1 <= length buffer)%nat by (cbn; lia).
  replace (Z.of_nat (length (mjoin flow) + length rest) - Z.of_nat (length buffer))
    with (Z.of_nat (length (mjoin flow2) + length rest)) by lia.
  eexists. split; [|apply (stream_write n rest flow2 got buffer fuel); [|done|done|lia]]; [lia|].
  by rewrite (app_assoc buffer), Hj.
Qed.

Lemma receiver_can n rest flow got fuel :
  (length (mjoin flow) + length rest <= fuel)%nat -> solid flow -> flow <> [] ->
  server_steps (mkConn (send_blocks n rest)
      (receive_blocks fuel path (Z.of_nat (length (mjoin flow) + length rest))) (write_file path got w) flow [] : config) <> [].
Proof.
  intros Hf Hs Hfl. assert (0 < length (mjoin flow))%nat as Hpos.
  { destruct (mjoin flow) eqn:E; [by apply solid_join in E|cbn; lia]. }
  destruct fuel as [|fuel]; [lia|]. unfold server_steps. cbn [server client up down world receive_blocks].
  destruct (Z.ltb_spec 0 (Z.of_nat (length (mjoin flow) + length rest))); [|lia]. by destruct flow.
Qed.

Lemma receiver_open fuel n : (0 < n)%nat -> (n <= fuel)%nat -> closed (receive_blocks fuel path (Z.of_nat n)) = false.
Proof. intros H0 Hn. destruct fuel as [|fuel]; [lia|]. cbn. by destruct (Z.ltb_spec 0 (Z.of_nat n)); [|lia]. Qed.

(** While the receiver is in its loop, the sender goes on. *)
Lemma sender_in_loop n rest flow got fuel y :
  data = got ++ mjoin flow ++ rest -> solid flow -> (length rest <= n)%nat ->
  (length (mjoin flow) + length rest <= fuel)%nat -> rest <> [] ->
  let x : config := mkConn (send_blocks n rest)
      (receive_blocks fuel path (Z.of_nat (length (mjoin flow) + length rest))) (write_file path got w) flow [] in
  client_steps x <> [] /\ (y ∈ client_steps x ->
  exists m, (m < 3 * length rest + 2 * length (mjoin flow))%nat /\ streaming m y).
Proof.
  intros Hd Hs Hn Hf Hr x.
  destruct (sender_steps n rest (receive_blocks fuel path (Z.of_nat (length (mjoin flow) + length rest)))
    (write_file path got w) flow) as (n' & E & Hn'); [|done|done|].
  { apply receiver_open; [destruct rest; [done|cbn; lia]|done]. }
  unfold x. rewrite E. split; [done|]. rewrite list_elem_of_singleton. intros ->.
  eexists. split; [by apply block_moves|]. rewrite (sent_block_length rest flow) in *.
  apply stream_loop; [by apply sent_block_data|by apply solid_sent|done|done].
Qed.

Lemma streaming_step m x : streaming m x ->
  delivered x \/ steps x <> [] /\ forall y, y ∈ steps x -> exists m', (m' < m)%nat /\ streaming m' y.
Proof.
  intros [n rest flow fuel w0 Hd Hs Hn Hf Hw|n rest flow got fuel Hd Hs Hn Hf|n rest flow got buffer fuel Hd Hs Hn Hf].
  - right. apply (receiver_acts (3 * length rest + 2 * length (mjoin flow))); [done| |lia|].
    + rewrite Hw, Hd, length_app. apply (stream_loop n rest flow [] fuel); [done|done|done|].
      rewrite Hd, length_app in Hf. done.
    + intros n' Hn'. apply stream_open; [by apply (sent_block_data [])|by apply solid_sent|done..].
  - destruct (decide (length (mjoin flow) + length rest = 0)%nat) as [H0|H0].
    { left. assert (mjoin flow = [] /\ rest = []) as [Hfl ->] by (split; apply length_zero_iff_nil; lia).
      apply solid_join in Hfl as ->; [|done].
      rewrite !app_nil_r in Hd. subst got. split_and!; [apply send_blocks_nil|by destruct fuel|done]. }
    right. unfold steps. split.
    + intros E. apply app_nil in E as [E1 E2]. destruct (decide (flow = [])) as [->|Hfl]; [|by apply (receiver_can _ _ _ _ _ Hf Hs Hfl) in E2].
      destruct (sender_in_loop n rest [] got fuel (mkConn (Fin Undef) (Fin Undef) w [] [])) as [Hc _]; try done. by intros ->.
    + intros y [Hy|Hy]%elem_of_app.
      * destruct (decide (rest = [])) as [->|Hr]; [|by apply (sender_in_loop n rest flow got fuel)].
        unfold client_steps in Hy. rewrite send_blocks_nil in Hy. by apply not_elem_of_nil in Hy.
      * destruct (decide (flow = [])) as [->|Hfl]; [|by eapply receiver_takes].
        exfalso. cbn [mjoin list_join length Nat.add] in *. assert (rest <> []) as Hr by (by intros ->).
        revert Hy. unfold server_steps. cbn [server client up down world].
        destruct (send_blocks_cons n rest Hn Hr) as (n2 & -> & _). destruct fuel; [lia|].
        cbn [receive_blocks]. destruct (_ <? _); by intros ?%not_elem_of_nil.
  - right. apply (receiver_acts (3 * length rest + 2 * length (mjoin flow))); [done| |lia|].
    + rewrite append_write. apply stream_loop; [by rewrite <- app_assoc|done|done|done].
    + intros n' Hn'. rewrite (sent_block_length rest flow) in *. apply stream_write; [|by apply solid_sent|done|done].
      rewrite app_assoc in Hd |- *. by apply sent_block_data.
Qed.

Lemma streaming_delivers m x : streaming m x -> must delivered x.
Proof.
  revert x. induction (lt_wf m) as [m _ IH]. intros x Hx.
  destruct (streaming_step m x Hx) as [H|[H1 H2]]; [by apply must_now|].
  apply must_step; [done|]. intros y Hy. destruct (H2 y Hy) as (m' & Hm & Hs). by apply (IH m').
Qed.

(** The last word of the receiver is under way while it opens the file. *)
Lemma last_word_delivers (h : list ascii -> proc worker bool) n m w0 :
  h (chars SEND_FILE) = send_blocks n data -> (length data <= n)%nat -> fits (chars SEND_FILE) m ->
  write_file path [] w0 = write_file path [] w ->
  must delivered (mkConn (Hear m h)
    (Act (modify (write_file path []))
       (fun _ => receive_blocks (length data) path (Z.of_nat (length data)))) w0 [] [chars SEND_FILE]).
Proof.
  intros Hh Hn Hm Hw.
  assert (forall c u s, is_reset c u = false ->
    advance (Hear m h) c u [chars SEND_FILE] s = [(send_blocks n data, s, [], [])]) as Hear_it.
  { intros c u s Hr. by rewrite hear_whole, Hh by done. }
  assert (forall q s, must delivered (mkConn (send_blocks n data) q s [] []) -> idle q = true ->
    must delivered (mkConn (Hear m h) q s [] [chars SEND_FILE])) as Hc.
  { intros q s H Hq. eapply must_one; [|exact H]. unfold steps, client_steps, server_steps. cbn [client server up down world].
    rewrite Hear_it by apply not_reset. by destruct q. }
  apply must_step; [unfold steps, client_steps; cbn [client server up down world closed]; by rewrite Hear_it|].
  intros y. unfold steps. rewrite elem_of_app. intros [Hy|Hy].
  - unfold client_steps in Hy. cbn [client server up down world closed] in Hy. rewrite Hear_it in Hy by done.
    apply list_elem_of_singleton in Hy as ->.
    eapply streaming_delivers, (stream_open n data [] (length data)); (done || constructor).
  - apply list_elem_of_singleton in Hy as ->. cbn [client server up down world app].
    change (receive_blocks (length data) path (Z.of_nat (length data))) with
      (receive_blocks (length data) path (Z.of_nat (length (@nil ascii) + length data))).
    apply Hc; [|by destruct (length data)]. rewrite Hw.
    eapply streaming_delivers, (stream_loop n data [] [] (length data)); (done || constructor).
Qed.
End delivery.

Lemma transfer_delivers fileName data w :
  clean fileName -> Z.of_nat (length data) < 2147483648 ->
  must (delivered (dataFolder w +:+ "/" +:+ fileName) data w)
    (mkConn (sendFileThroughService fileName data) filetransferservicesession w [] []).
Proof.
  intros Hn Hd. assert (is_i32 (Z.of_nat (length data))) as Hi by (unfold is_i32; lia).
  pose proof (i32_clean _ Hi) as Hc.
  eapply ask; [by apply chars_clean|by apply clean_fits|reflexivity|]. rewrite text_clean by done.
  eapply server_acts; [reflexivity|reflexivity|].
  eapply answer; [done|vm_compute; lia|reflexivity|].
  eapply ask; [by apply chars_clean|by apply clean_fits|reflexivity|]. rewrite text_clean by done.
  eapply server_acts; [reflexivity|unfold stoi_exn; rewrite stoi_show by done; reflexivity|].
  eapply must_one; [reflexivity|]. cbn [client server up down world app].
  rewrite Nat2Z.id. eapply last_word_delivers; [reflexivity|done|vm_compute; lia|done].
Qed.
