(* ===== verification/Uploads.v ===== *)
(** * Uploads: files are put on a worker

    The commands that bring a file to a worker ([batch_upload_common] and
    [send_centralstore_to_aggregator_command] of
    src/server/JasmineGraphInstanceService.cpp) and their callers
    ([Utils::uploadFileToWorker], [copyCentralStoreToAggregator]).  The two
    sides agree on name and length, the bytes go through the file transfer
    service, and the caller asks until they are there.  The transfer itself is
    FileTransfer; here it goes on behind the session, in any number of steps
    ([arriving]). *)
From Stdlib Require Import ZArith Ascii String Lia.
From stdpp Require Import base tactics numbers list strings gmap.
From S2P Require Import Prelude HashMapStores Shell StaticTriangles Sessions WorkerSessions FileTransfer.

Definition SEND_FILE_NAME : string := "file-name".
Definition SEND_FILE_CONT : string := "file-cont".
Definition FILE_RECV_CHK : string := "file-rcpt?".
Definition FILE_RECV_WAIT : string := "file-wait".
Definition FILE_ACK : string := "file-ok".
Definition BATCH_UPLOAD : string := "upload-g".
Definition BATCH_UPLOAD_CENTRAL : string := "upload-g-c".
Definition BATCH_UPLOAD_COMPOSITE_CENTRAL : string := "upload-g-c-c".
Definition UPLOAD_RDF_ATTRIBUTES : string := "upload-attrib".
Definition UPLOAD_RDF_ATTRIBUTES_CENTRAL : string := "upload-attrib-c".
Definition BATCH_UPLOAD_CHK : string := "upload-g-chk".
Definition BATCH_UPLOAD_WAIT : string := "upload-g-wait".
Definition BATCH_UPLOAD_ACK : string := "upload-g-ack".
Definition SEND_CENTRALSTORE_TO_AGGREGATOR : string := "aggre-copy".

(** ** The transfer behind the session *)

Definition on_files (f : files -> files) (w : worker) : worker :=
  mkWorker (f (disk_files w)) (dataFolder w) (aggregatorDirPath w)
    (graphDBMapLocalStores w) (graphDBMapCentralStores w) (graphDBMapDuplicateCentralStores w).

(** The file transfer service opens the file or goes on with it. *)
Definition arrive (s : service) : service :=
  match incoming s with
  | None => s
  | Some a =>
      let n := match ar_rounds a with [] => length (ar_rest a) | n :: _ => n end in
      let got := default [] (ar_got a) ++ take n (ar_rest a) in
      let rest := drop n (ar_rest a) in
      set_incoming
        (if decide (rest = []) then None else Some (mkArriving (ar_path a) (Some got) rest (tail (ar_rounds a))))
        (set_worker (write_file (ar_path a) got (sv_worker s)) s)
  end.

(** [sendFileThroughService] from the caller's side: nothing when there is no
    file to send. *)
Definition send_file (fileName : string) (file : option (list ascii)) (rounds : list nat) : M service unit :=
  match file with
  | None => mret tt
  | Some data => modify (fun s =>
      set_incoming (Some (mkArriving (dataFolder (sv_worker s) +:+ "/" +:+ fileName) None data rounds)) s)
  end.

(** ** The worker *)

Section handlers.
Context {GZ : Gzip}.

Definition change_files (f : files -> files) : M service unit :=
  modify (fun s => set_worker (on_files f (sv_worker s)) s).

(** [while (!fileExists(path)) sleep(1)], after the size has been parsed. *)
Definition await_file (path size : string) : M service Z :=
  fileSize ← stoi_exn size;
  _ ← modify arrive;
  s ← get_state;
  if file_exists (disk_files (sv_worker s)) path then mret fileSize else deadlock.

(** The loop until the file has its size. *)
Definition still_short (path : string) (fileSize : Z) : M service bool :=
  _ ← modify arrive;
  s ← get_state;
  mret (getFileSize (disk_files (sv_worker s)) path <? fileSize).
Fixpoint await_bytes (fuel : nat) (path : string) (fileSize : Z) (k : proc service bool) : proc service bool :=
  match fuel with
  | O => Fin OutOfFuel
  | S fuel' =>
      b ← act (still_short path fileSize);
      if (b : bool) then
        line ← read_str;
        if decide (line = FILE_RECV_CHK) then reply FILE_RECV_WAIT (await_bytes fuel' path fileSize k)
        else mret true
      else k
  end.

(** The loop until the file has been unpacked. *)
Fixpoint await_unpacked (fuel : nat) (path : string) (k : proc service bool) : proc service bool :=
  match fuel with
  | O => Fin OutOfFuel
  | S fuel' =>
      s ← act get_state;
      if file_exists (disk_files (sv_worker s)) path then k
      else
        line ← read_str_trim;
        if decide (line = BATCH_UPLOAD_CHK) then reply BATCH_UPLOAD_WAIT (await_unpacked fuel' path k)
        else mret true
  end.

(** The end of a path, [path.compare(path.size() - 3, 3, ".gz") == 0]. *)
Definition is_gz (path : string) : M service bool :=
  if decide (String.length path < 3)%nat then throw out_of_range
  else mret (bool_decide (is_Some (strip_gz path))).

(** [writeCatalogRecord]. *)
Definition writeCatalogRecord (record : string) : M service unit :=
  modify (fun s => set_worker
    (append_file (dataFolder (sv_worker s) +:+ "/catalog.txt") (chars record ++ ["010"%char]) (sv_worker s)) s).

(** What is done with a file that has arrived; the path it has then. *)
Definition unpack (fullFilePath fileName graphID : string) (batch_upload : bool) : M service string :=
  gz ← is_gz fullFilePath;
  _ ← (if (gz : bool) then change_files (unzipFile fullFilePath) else mret tt);
  let rawname := if (gz : bool) then rawFileName fileName else fileName in
  s ← get_state;
  _ ← (if batch_upload then writeCatalogRecord (graphID +:+ ":" +:+ after_last "_" rawname) else mret tt);
  mret (dataFolder (sv_worker s) +:+ "/" +:+ rawname).

(** [batch_upload_common].  Where the code closes the connection the session
    ends. *)
Definition batch_upload_common (fuel : nat) (batch_upload : bool) : proc service bool :=
  reply OK (
    graphID ← read_str_trim;
    reply SEND_FILE_NAME (
      fileName ← read_str;
      reply SEND_FILE_LEN (
        size ← read_str;
        s ← act get_state;
        let fullFilePath := dataFolder (sv_worker s) +:+ "/" +:+ fileName in
        reply SEND_FILE_CONT (
          fileSize ← act (await_file fullFilePath size);
          await_bytes fuel fullFilePath fileSize (
            line ← read_str;
            if decide (line = FILE_RECV_CHK) then
              reply FILE_ACK (
                path ← act (unpack fullFilePath fileName graphID batch_upload);
                await_unpacked fuel path (
                  line ← read_str;
                  if decide (line = BATCH_UPLOAD_CHK) then reply BATCH_UPLOAD_ACK (mret true) else mret true))
            else mret true))))).

(** [send_centralstore_to_aggregator_command]. *)
Definition send_centralstore_to_aggregator_command (fuel : nat) : proc service bool :=
  reply SEND_FILE_NAME (
    fileName ← read_str;
    reply SEND_FILE_LEN (
      size ← read_str;
      s ← act get_state;
      let w := sv_worker s in
      let fullFilePath := dataFolder w +:+ "/" +:+ fileName in
      reply SEND_FILE_CONT (
        fileSize ← act (await_file fullFilePath size);
        await_bytes fuel fullFilePath fileSize (
          _ ← read_str;
          reply FILE_ACK (
            _ ← act (change_files (unzipFile fullFilePath));
            _ ← act (change_files
                  (copyToDirectory (dataFolder w +:+ "/" +:+ rawFileName fileName) (aggregatorDirPath w)));
            line ← read_str;
            if decide (line = BATCH_UPLOAD_CHK) then reply BATCH_UPLOAD_ACK (mret true) else mret true))))).

(** The commands of this file, before those that are not modelled. *)
Definition upload_commands (fuel : nat) (other : string -> option (proc service bool)) (cmd : string)
  : option (proc service bool) :=
  if decide (cmd = BATCH_UPLOAD) then Some (batch_upload_common fuel true)
  else if decide (cmd = BATCH_UPLOAD_CENTRAL) then Some (batch_upload_common fuel false)
  else if decide (cmd = BATCH_UPLOAD_COMPOSITE_CENTRAL) then Some (batch_upload_common fuel false)
  else if decide (cmd = UPLOAD_RDF_ATTRIBUTES) then Some (batch_upload_common fuel false)
  else if decide (cmd = UPLOAD_RDF_ATTRIBUTES_CENTRAL) then Some (batch_upload_common fuel false)
  else if decide (cmd = SEND_CENTRALSTORE_TO_AGGREGATOR) then Some (send_centralstore_to_aggregator_command fuel)
  else other cmd.
End handlers.

(** ** The callers *)

(** The size of the file to send. *)
Definition size_of (file : option (list ascii)) : Z :=
  match file with Some d => s32 (Z.of_nat (length d)) | None => -1 end.

(** The caller asks [question] until the answer is [ack]; when it cannot be
    sent, [None]. *)
Fixpoint poll (fuel : nat) (question ack : string) : proc service (option string) :=
  match fuel with
  | O => Fin OutOfFuel
  | S fuel' =>
      sent ← send_str question;
      if (sent : bool) then
        response ← read_str_trim;
        if decide (response = ack) then mret (Some response) else poll fuel' question ack
      else mret None
  end.

(** [uploadFileToWorker], once it is connected. *)
Definition give_up_upload : proc service bool := _ ← send_str CLOSE; mret false.
Definition uploadFileToWorker (fuel : nat) (rounds : list nat) (graphID : Z) (fileName : string)
    (file : option (list ascii)) (masterIP uploadType : string) : proc service bool :=
  ok ← performHandshake masterIP;
  if (ok : bool) then
    ok ← sendExpectResponse uploadType OK;
    if (ok : bool) then
      ok ← sendExpectResponse (show_long graphID) SEND_FILE_NAME;
      if (ok : bool) then
        ok ← sendExpectResponse fileName SEND_FILE_LEN;
        if (ok : bool) then
          ok ← sendExpectResponse (show_long (size_of file)) SEND_FILE_CONT;
          if (ok : bool) then
            _ ← act (send_file fileName file rounds);
            r ← poll fuel FILE_RECV_CHK FILE_ACK;
            match r with
            | None => give_up_upload
            | Some _ =>
                r ← poll fuel BATCH_UPLOAD_CHK BATCH_UPLOAD_ACK;
                match r with
                | None => give_up_upload
                | Some _ => _ ← send_str CLOSE; mret true
                end
            end
          else give_up_upload
        else give_up_upload
      else give_up_upload
    else give_up_upload
  else give_up_upload.

(** The loops of [copyCentralStoreToAggregator] do not look at the result of
    [write]; the second one does not trim the answer. *)
Fixpoint poll_blindly (fuel : nat) (trim : bool) (question ack : string) : proc service string :=
  match fuel with
  | O => Fin OutOfFuel
  | S fuel' =>
      _ ← send_str question;
      response ← (if trim then read_str_trim else read_str);
      if decide (response = ack) then mret response else poll_blindly fuel' trim question ack
  end.

(** [copyCentralStoreToAggregator], once it is connected. *)
Definition copyCentralStoreToAggregator (fuel : nat) (rounds : list nat) (graphId partitionId : Z)
    (centralStoreFile : option (list ascii)) (masterIP : string) : proc service string :=
  let fileName := show_long graphId +:+ "_centralstore_" +:+ show_long partitionId +:+ ".gz" in
  response ← ask_for HANDSHAKE;
  response ←
    (if decide (response = HANDSHAKE_OK) then
       _ ← send_str masterIP;
       _ ← read_str;
       response ← ask_for SEND_CENTRALSTORE_TO_AGGREGATOR;
       _ ← (if decide (response = SEND_FILE_NAME) then
              response ← ask_for fileName;
              if decide (response = SEND_FILE_LEN) then
                response ← ask_for (show_long (size_of centralStoreFile));
                if decide (response = SEND_FILE_CONT) then act (send_file fileName centralStoreFile rounds)
                else mret tt
              else mret tt
            else mret tt);
       _ ← poll_blindly fuel true FILE_RECV_CHK FILE_ACK;
       poll_blindly fuel false BATCH_UPLOAD_CHK BATCH_UPLOAD_ACK
     else mret response);
  _ ← send_str CLOSE;
  mret response.

(** ** An uploaded file is where it belongs

    Whatever the interleaving of the two sides, and however slowly the bytes
    arrive, an upload ends with the file unpacked in the data folder of the
    worker, and the copy of a central store with the store in its aggregation
    folder. *)

(** ** The bytes arrive *)

Section arrival.
Context (s0 : service) (path : string).

(** [got] has arrived, [rest] is under way. *)
Definition stage (got rest : list ascii) (rounds : list nat) : service :=
  set_incoming (if decide (rest = []) then None else Some (mkArriving path (Some got) rest rounds))
    (set_worker (write_file path got (sv_worker s0)) s0).

(** How much comes next. *)
Definition portion (rest : list ascii) (rounds : list nat) : nat :=
  match rounds with [] => length rest | n :: _ => n end.

Lemma arrive_first data rounds :
  arrive (set_incoming (Some (mkArriving path None data rounds)) s0) =
    stage (take (portion data rounds) data) (drop (portion data rounds) data) (tail rounds).
Proof. done. Qed.

Lemma arrive_next got rest rounds : rest <> [] ->
  arrive (stage got rest rounds) =
    stage (got ++ take (portion rest rounds) rest) (drop (portion rest rounds) rest) (tail rounds).
Proof.
  intros H. unfold stage at 1. rewrite decide_False by done. unfold arrive, stage. cbn -[write_file].
  by rewrite write_twice.
Qed.

Lemma arrive_done got rounds : arrive (stage got [] rounds) = stage got [] [].
Proof. done. Qed.

Lemma stage_file got rest rounds : disk_files (sv_worker (stage got rest rounds)) !! path = Some got.
Proof. cbn. apply lookup_insert_eq. Qed.

Lemma stage_size got rest rounds : Z.of_nat (length (got ++ rest)) < 2147483648 ->
  (getFileSize (disk_files (sv_worker (stage got rest rounds))) path <?
    Z.of_nat (length (got ++ rest))) = negb (bool_decide (rest = [])).
Proof.
  intros H. unfold getFileSize. rewrite stage_file. rewrite length_app in *. rewrite s32_id by lia.
  destruct rest as [|a rest]; cbn [length] in *; [destruct (Z.ltb_spec (Z.of_nat (length got)) (Z.of_nat (length got + 0)))|
    destruct (Z.ltb_spec (Z.of_nat (length got)) (Z.of_nat (length got + S (length rest))))]; (done || lia).
Qed.

Lemma still_short_run got rest rounds data :
  got ++ rest = data -> Z.of_nat (length data) < 2147483648 ->
  exists got' rest', got' ++ rest' = data /\ (rounds = [] -> rest' = []) /\
    still_short path (Z.of_nat (length data)) (stage got rest rounds) =
      (Ret (negb (bool_decide (rest' = []))), stage got' rest' (tail rounds)).
Proof.
  intros <- Hd. unfold still_short. destruct (decide (rest = [])) as [->|Hr].
  - exists got, []. split; [done|]. split; [done|]. erewrite bind_Ret; [|reflexivity]. rewrite arrive_done.
    erewrite bind_Ret; [|reflexivity]. by rewrite stage_size.
  - exists (got ++ take (portion rest rounds) rest), (drop (portion rest rounds) rest).
    assert ((got ++ take (portion rest rounds) rest) ++ drop (portion rest rounds) rest = got ++ rest) as E
      by (by rewrite <- app_assoc, take_drop).
    split; [done|]. split; [intros ->; by apply drop_ge|].
    erewrite bind_Ret; [|reflexivity]. rewrite arrive_next by done. erewrite bind_Ret; [|reflexivity].
    rewrite <- E in Hd |- *. by rewrite stage_size.
Qed.
End arrival.

(** ** The loops *)

(** A caller that asks [question]; on [wait] it asks again, [n] times at
    least, on [ack] it goes on with [cont]. *)
Fixpoint asks {A} (question wait ack : string) (cont : proc service A) (n : nat) (p : proc service A) : Prop :=
  exists k h, p = Say (chars question) k /\ k true = Hear INSTANCE_DATA_LENGTH h /\ h (chars ack) = cont /\
    match n with O => True | S n' => asks question wait ack cont n' (h (chars wait)) end.

Section loops.
Context {A : Type}.
Abbreviation N := INSTANCE_DATA_LENGTH.

Lemma poll_asks question wait ack (f : option string -> proc service A) n m :
  clean ack -> clean wait -> wait <> ack -> (n < m)%nat ->
  asks question wait ack (f (Some ack)) n (proc_then f (poll m question ack)).
Proof.
  intros Ha Hw Hne. revert m. induction n as [|n IH]; intros m Hm; (destruct m as [|m]; [lia|]);
    eexists _, _; (split; [reflexivity|]); (split; [reflexivity|]); cbn;
    rewrite !heard_clean by done; rewrite decide_True by done; (split; [done|]).
  - done.
  - rewrite decide_False by done. apply IH. lia.
Qed.

Lemma poll_blindly_asks trim question wait ack (f : string -> proc service A) n m :
  clean ack -> clean wait -> wait <> ack -> (n < m)%nat ->
  asks question wait ack (f ack) n (proc_then f (poll_blindly m trim question ack)).
Proof.
  intros Ha Hw Hne. revert m. induction n as [|n IH]; intros m Hm; (destruct m as [|m]; [lia|]); destruct trim;
    eexists _, _; (split; [reflexivity|]); (split; [reflexivity|]); cbn;
    rewrite ?heard_clean, ?text_clean by done; rewrite decide_True by done; (split; [done|]).
  - done.
  - done.
  - rewrite decide_False by done. apply IH. lia.
  - rewrite decide_False by done. apply IH. lia.
Qed.

Lemma asks_then {B} question wait ack (cont : proc service B) (F : B -> proc service A) n p :
  asks question wait ack cont n p -> asks question wait ack (proc_then F cont) n (proc_then F p).
Proof.
  revert p. induction n as [|n IH]; intros p (k & h & -> & Hk & Ha & Hn);
    (exists (fun b => proc_then F (k b)), (fun l => proc_then F (h l))); rewrite Hk, Ha; (split; [done|]); (split; [done|]);
    (split; [done|]); [done|by apply IH].
Qed.

Context (s0 : service) (path : string) (data : list ascii).
Hypothesis Hdata : Z.of_nat (length data) < 2147483648.
(** What the server does when everything is there. *)
Context (g : bool -> proc service unit) (hk : list ascii -> proc service bool).
Context (P : conn service A unit -> Prop) (cont : proc service A).
Hypothesis Hfin : forall hc, hc (chars FILE_ACK) = cont ->
  must P (mkConn (Hear N hc) (proc_then g (hk (chars FILE_RECV_CHK))) (stage s0 path data [] []) [] []).

Lemma receive_loop n : forall got rest rounds fuel kc hc,
  got ++ rest = data -> (length rounds <= n)%nat -> (n < fuel)%nat ->
  asks FILE_RECV_CHK FILE_RECV_WAIT FILE_ACK cont n (Say (chars FILE_RECV_CHK) kc) -> kc true = Hear N hc ->
  exists h s', runs (proc_then g (await_bytes fuel path (Z.of_nat (length data)) (Hear N hk)))
      (stage s0 path got rest rounds) N h s' /\
    must P (mkConn (kc true) (h (chars FILE_RECV_CHK)) s' [] []).
Proof.
  induction n as [|n IH]; intros got rest rounds fuel kc hc Hgr Hn Hf Hask Hkc; destruct fuel as [|fuel]; try lia;
    destruct (still_short_run s0 path got rest rounds data Hgr Hdata) as (got' & rest' & Hgr' & Hlast & Hr);
    destruct Hask as (kc' & h & [= <-] & Ekc & Hack & Hnext); rewrite Ekc in Hkc; injection Hkc as <-.
  - destruct rounds; [|cbn in Hn; lia]. rewrite Hlast in * by done. rewrite app_nil_r in Hgr'. subst got'.
    eexists _, _. split; [eapply runs_act; [exact Hr|]; apply runs_now|]. rewrite Ekc. by apply Hfin.
  - destruct (decide (rest' = [])) as [->|Hne].
    { rewrite app_nil_r in Hgr'. subst got'.
      eexists _, _. split; [eapply runs_act; [exact Hr|]; apply runs_now|]. rewrite Ekc. by apply Hfin. }
    rewrite bool_decide_false in Hr by done.
    destruct (h (chars FILE_RECV_WAIT)) as [| m2 kc2 | |] eqn:Eh;
      try (by destruct n; destruct Hnext as (? & ? & ? & _)).
    assert (exists hc2, m2 = chars FILE_RECV_CHK /\ kc2 true = Hear N hc2) as (hc2 & -> & Ekc2).
    { destruct n; destruct Hnext as (? & h2 & [= -> <-] & ? & _); by exists h2. }
    destruct (IH got' rest' (tail rounds) fuel kc2 hc2) as (h' & s' & Hruns & Hmust);
      [done|destruct rounds; cbn in *; lia|lia|done|done|].
    eexists _, _. split; [eapply runs_act; [exact Hr|]; apply runs_now|]. cbv beta. rewrite Ekc.
    rewrite text_clean by a_word. rewrite decide_True by done.
    eapply answer_runs; [exact Hruns|done|vm_compute; lia|exact Eh|by rewrite Ekc2|done|vm_compute; lia|exact Hmust].
Qed.
End loops.

(** ** The sessions *)

(** What an upload and a copy leave on the worker. *)
Definition uploaded {GZ : Gzip} (fileName : string) (data : list ascii) (w : worker) : worker :=
  on_files (unzipFile (dataFolder w +:+ "/" +:+ fileName))
    (write_file (dataFolder w +:+ "/" +:+ fileName) data w).
Definition copied {GZ : Gzip} (fileName : string) (data : list ascii) (w : worker) : worker :=
  on_files (copyToDirectory (dataFolder w +:+ "/" +:+ rawFileName fileName) (aggregatorDirPath w))
    (uploaded fileName data w).
Definition catalogued (record : string) (w : worker) : worker :=
  append_file (dataFolder w +:+ "/catalog.txt") (chars record ++ ["010"%char]) w.

Lemma length_show_i32 z : is_i32 z -> (String.length (show_long z) <= 21)%nat.
Proof.
  unfold is_i32, show_long. intros Hz. destruct (Z.ltb_spec z 0).
  - pose proof (length_to_string (- z) ltac:(lia)). rewrite length_string_app. cbn [String.length]. lia.
  - pose proof (length_to_string z ltac:(lia)). lia.
Qed.

Lemma clean_app s t : clean s -> clean t ->
  (String.length s + String.length t <= INSTANCE_DATA_LENGTH)%nat -> clean (s +:+ t).
Proof.
  intros (H1 & _ & H2) (_ & _ & H3) Hl. split_and!.
  - by destruct s.
  - rewrite length_list_ascii, length_string_app. done.
  - rewrite chars_app. by apply Forall_app.
Qed.

(** The name of a store of a partition is clean. *)
Lemma store_name_clean g q name : is_i32 g -> is_i32 q -> clean name -> (String.length name <= 200)%nat ->
  clean (show_long g +:+ name +:+ show_long q +:+ ".gz").
Proof.
  intros Hg Hq Hn Hl. pose proof (length_show_i32 g Hg). pose proof (length_show_i32 q Hq).
  assert (String.length ".gz" = 3%nat) as H3 by done. unfold INSTANCE_DATA_LENGTH.
  repeat (apply clean_app; [by auto with sessions| |unfold INSTANCE_DATA_LENGTH; rewrite ?length_string_app, ?H3; lia]).
  a_word.
Qed.

Section unpacking.
Context {GZ : Gzip} (graphId : Z).

(** The file is unpacked, and the partition is put into the catalogue. *)
Definition unpacked (name : string) (batch_upload : bool) (w : worker) : worker :=
  let w' := on_files (unzipFile (dataFolder w +:+ "/" +:+ name +:+ ".gz")) w in
  if batch_upload then catalogued (show_long graphId +:+ ":" +:+ after_last "_" name) w' else w'.

Lemma unpack_run name batch_upload (s1 : service) :
  unpack (dataFolder (sv_worker s1) +:+ "/" +:+ name +:+ ".gz") (name +:+ ".gz") (show_long graphId) batch_upload s1 =
    (Ret (dataFolder (sv_worker s1) +:+ "/" +:+ name), set_worker (unpacked name batch_upload (sv_worker s1)) s1).
Proof.
  unfold unpack, is_gz. set (path := dataFolder (sv_worker s1) +:+ "/" +:+ name +:+ ".gz").
  assert (path = (dataFolder (sv_worker s1) +:+ "/" +:+ name) +:+ ".gz") as Hpath
    by (unfold path; by rewrite !string_app_assoc).
  rewrite decide_False.
  2: { rewrite Hpath, length_string_app. cbn. lia. }
  erewrite bind_Ret; [|reflexivity]. rewrite bool_decide_true by (rewrite Hpath, strip_gz_app; by eexists).
  rewrite rawFileName_gz. by destruct batch_upload.
Qed.

Lemma unpacked_exists name batch_upload w1 d :
  disk_files w1 !! (dataFolder w1 +:+ "/" +:+ name +:+ ".gz") = Some (gzip d) ->
  file_exists (disk_files (unpacked name batch_upload w1)) (dataFolder w1 +:+ "/" +:+ name) = true.
Proof.
  intros H. unfold file_exists. apply bool_decide_eq_true.
  assert (is_Some (disk_files (on_files (unzipFile (dataFolder w1 +:+ "/" +:+ name +:+ ".gz")) w1)
    !! (dataFolder w1 +:+ "/" +:+ name))) as Hu.
  { change (disk_files (on_files ?f ?v)) with (f (disk_files v)).
    assert (dataFolder w1 +:+ "/" +:+ name +:+ ".gz" = (dataFolder w1 +:+ "/" +:+ name) +:+ ".gz") as E
      by (by rewrite !string_app_assoc).
    rewrite E in H |- *. rewrite (unzip_run _ d) by done. rewrite lookup_insert_eq. by eexists. }
  unfold unpacked. destruct batch_upload; [|exact Hu]. unfold catalogued, append_file, write_file. cbn [disk_files].
  apply lookup_insert_is_Some'. by right.
Qed.

End unpacking.

Section sessions.
Context {FB : FlatBuffers} {GZ : Gzip} (iter : gset Z -> list Z) (garbage : Z).
Context (other : string -> option (proc service bool)).
Context (masterIP : string) (s : service) (graphId : Z) (fuel : nat) (rounds : list nat) (data : list ascii).
Hypothesis Hip : clean masterIP.
Hypothesis Hg : is_i32 graphId.
Hypothesis Hin : incoming s = None.
Hypothesis Hfuel : (length rounds < fuel)%nat.
Hypothesis Hdata : Z.of_nat (length data) < 2147483648.
Abbreviation w := (sv_worker s).

Abbreviation sends := (show_long (size_of (Some data))).

Lemma size_shown : sends = show_long (Z.of_nat (length data)).
Proof. cbn [size_of]. by rewrite s32_id by lia. Qed.

Lemma size_is_i32 : is_i32 (Z.of_nat (length data)).
Proof. unfold is_i32. lia. Qed.

(** The worker waits for a file that is not there. *)
Lemma awaits_nothing path size (s1 : service) z :
  stoi size = inr z -> incoming s1 = None -> disk_files (sv_worker s1) !! path = None ->
  await_file path size s1 = (Deadlock, s1).
Proof.
  intros Hz Hi Hp. unfold await_file, stoi_exn. rewrite Hz. erewrite bind_Ret; [|reflexivity].
  erewrite bind_Ret; [|reflexivity]. unfold arrive. rewrite Hi. erewrite bind_Ret; [|reflexivity].
  unfold file_exists. by rewrite Hp.
Qed.

(** Once the file is under way it is opened. *)
Lemma awaits_file path size (s1 : service) z :
  stoi size = inr z ->
  await_file path size (set_incoming (Some (mkArriving path None data rounds)) s1) =
    (Ret z, stage s1 path (take (portion data rounds) data) (drop (portion data rounds) data) (tail rounds)).
Proof.
  intros Hz. unfold await_file, stoi_exn. rewrite Hz. erewrite bind_Ret; [|reflexivity].
  erewrite bind_Ret; [|reflexivity]. rewrite arrive_first. erewrite bind_Ret; [|reflexivity].
  unfold file_exists. by rewrite stage_file.
Qed.

(** The part the two commands share: from the moment the worker waits for the
    file to the moment it has it. *)
Lemma delivery {A} (P : conn service A unit -> Prop) fileName (s1 : service) g hk n0 h0 k1 cont p :
  let path := dataFolder (sv_worker s1) +:+ "/" +:+ fileName in
  incoming s1 = None -> disk_files (sv_worker s1) !! path = None ->
  h0 (chars SEND_FILE_CONT) = Act (send_file fileName (Some data) rounds) (fun _ => p) ->
  fits (chars SEND_FILE_CONT) n0 ->
  asks FILE_RECV_CHK FILE_RECV_WAIT FILE_ACK cont (length rounds) p ->
  k1 true = Act (await_file path (show_long (Z.of_nat (length data))))
    (fun fileSize => proc_then g (await_bytes fuel path fileSize (Hear INSTANCE_DATA_LENGTH hk))) ->
  (forall hc, hc (chars FILE_ACK) = cont ->
     must P (mkConn (Hear INSTANCE_DATA_LENGTH hc) (proc_then g (hk (chars FILE_RECV_CHK)))
       (stage s1 path data [] []) [] [])) ->
  must P (mkConn (Hear n0 h0) (Say (chars SEND_FILE_CONT) k1) s1 [] []).
Proof.
  intros path Hi Hp Hh Hn Hask Hk1 Hfin.
  assert (stoi (show_long (Z.of_nat (length data))) = inr (Z.of_nat (length data))) as Hst
    by (apply stoi_show, size_is_i32).
  assert (held (k1 true) s1) as Hheld.
  { rewrite Hk1. split; [done|]. intros u. cbn. by rewrite (awaits_nothing _ _ _ _ Hst Hi Hp). }
  apply answer_held; [done|done|done|]. rewrite Hh.
  eapply client_acts_held; [done|reflexivity|]. rewrite Hk1.
  assert (exists kc hc, p = Say (chars FILE_RECV_CHK) kc /\ kc true = Hear INSTANCE_DATA_LENGTH hc)
    as (kc & hc & -> & Ekc).
  { destruct rounds; destruct Hask as (kc & hc & ? & ? & _); by exists kc, hc. }
  destruct (receive_loop s1 path data Hdata g hk P cont Hfin (length rounds)
    (take (portion data rounds) data) (drop (portion data rounds) data) (tail rounds) fuel kc hc)
    as (h & s' & Hr & Hm); [apply take_drop|destruct rounds; cbn; lia|done|done|done|].
  eapply runs_told; [eapply runs_act; [by apply awaits_file|exact Hr]|by rewrite Ekc|done|vm_compute; lia|exact Hm].
Qed.

Definition upload_type (batch_upload : bool) : string :=
  if batch_upload then BATCH_UPLOAD else BATCH_UPLOAD_CENTRAL.

Lemma upload_session name batch_upload d f :
  data = gzip d -> clean (name +:+ ".gz") ->
  disk_files w !! (dataFolder w +:+ "/" +:+ name +:+ ".gz") = None ->
  must (ends true
      (set_worker (unpacked graphId name batch_upload (write_file (dataFolder w +:+ "/" +:+ name +:+ ".gz") data w))
         (set_masterIP masterIP s)))
    (mkConn (uploadFileToWorker fuel rounds graphId (name +:+ ".gz") (Some data) masterIP (upload_type batch_upload))
       (serve iter garbage (upload_commands fuel other) (3 + f)) s [] []).
Proof.
  intros Hd Hname Hnone. pose proof size_is_i32 as Hsz. unfold uploadFileToWorker. rewrite size_shown.
  assert (clean (upload_type batch_upload)) by (destruct batch_upload; a_word).
  says. replies. says. server_act. replies. says.
  assert (forall cmd, cmd = upload_type batch_upload ->
    dispatch iter garbage (upload_commands fuel other) (if decide (cmd = "") then cmd else trim_copy cmd) =
      batch_upload_common fuel batch_upload) as Hcmd by (intros ? ->; by destruct batch_upload).
  rewrite (Hcmd _ eq_refl).
  replies. says. replies. says. replies. says. server_act.
  eapply (delivery _ (name +:+ ".gz")); [done|done| |vm_compute; lia| | |].
  - rewrite heard_clean by a_word. rewrite bool_decide_true by done. cbn. reflexivity.
  - eapply poll_asks; [a_word|a_word|done|done].
  - reflexivity.
  - intros hc Hc. destruct fuel as [|n]; [lia|].
    set (path := dataFolder w +:+ "/" +:+ name +:+ ".gz"). set (s1 := stage (set_masterIP masterIP s) path data [] []).
    assert (file_exists (disk_files (unpacked graphId name batch_upload (sv_worker s1))) (dataFolder w +:+ "/" +:+ name)
      = true) as Hex by (apply (unpacked_exists graphId name batch_upload (sv_worker s1) d); rewrite <- Hd; apply lookup_insert_eq).
    eapply answer_runs; [eapply runs_act; [exact (unpack_run graphId name batch_upload s1)|];
      eapply runs_act; [reflexivity|]; cbn [sv_worker set_worker] |done|vm_compute; lia| | | | |].
    + change (dataFolder (sv_worker s1)) with (dataFolder w). rewrite Hex. apply runs_now.
    + exact Hc.
    + reflexivity.
    + done.
    + vm_compute; lia.
    + replies. apply farewell. apply must_now. split_and!; [done|done|]. cbn [world].
      unfold s1, stage, set_worker, set_incoming, set_masterIP. cbn -[unpacked write_file]. by rewrite Hin.
Qed.

Lemma copy_session partitionId f :
  is_i32 partitionId ->
  let fileName := show_long graphId +:+ "_centralstore_" +:+ show_long partitionId +:+ ".gz" in
  disk_files w !! (dataFolder w +:+ "/" +:+ fileName) = None ->
  must (ends BATCH_UPLOAD_ACK (set_worker (copied fileName data w) (set_masterIP masterIP s)))
    (mkConn (copyCentralStoreToAggregator fuel rounds graphId partitionId (Some data) masterIP)
       (serve iter garbage (upload_commands fuel other) (3 + f)) s [] []).
Proof.
  intros Hp fileName Hnone.
  assert (clean fileName) as Hname by (apply store_name_clean; [done|done|a_word|vm_compute; lia]).
  pose proof size_is_i32 as Hsz. unfold copyCentralStoreToAggregator. fold fileName. rewrite size_shown.
  says. replies. says. server_act. replies. says. replies. says. replies. says. server_act.
  eapply delivery; [done|done| |vm_compute; lia| | |].
  - rewrite heard_clean by a_word. rewrite decide_True by done. cbn. reflexivity.
  - apply asks_then. eapply poll_blindly_asks; [a_word|a_word|done|done].
  - reflexivity.
  - intros hc Hc. destruct fuel as [|n]; [lia|].
    eapply answer_runs; [do 2 (eapply runs_act; [reflexivity|]); apply runs_now|done|vm_compute; lia| | | | |].
    + exact Hc.
    + reflexivity.
    + done.
    + vm_compute; lia.
    + replies. apply farewell. apply must_now. split_and!; [done|done|].
      cbn [world]. unfold copied, uploaded, stage, set_worker, set_incoming, set_masterIP. cbn. by rewrite Hin.
Qed.
End sessions.
