(* ===== verification/Cluster.v ===== *)
(** * Cluster: the master's calls on the hosts

    The calls of TriangleExecutor on a cluster: a local count, the copy of a
    central store and an aggregation run the handler of the worker on its
    state; that this is what the sessions of WorkerSessions and Uploads end
    with is shown in Calls.  When the stores of the partitions are on the
    workers the answer of the master is the number of triangles of the
    graph. *)
From Stdlib Require Import ZArith Ascii String Lia.
From stdpp Require Import base tactics numbers list sorting strings gmap.
From S2P Require Import Prelude Triangles TrianglesTheory HashMapStores Shell HashMapTheory StaticTriangles.
From S2P Require Import StaticTheory Metis MetisTheory TriangleExecutor ExecutorTheory DistributedCount.
From S2P Require Import Sessions WorkerSessions FileTransfer Uploads.

(** The workers by their number in the database, the files of the master and
    its aggregation folder. *)
Record hosts := mkHosts {
  cluster : gmap string worker;
  master_files : files;
  master_aggregate : string
}.
Definition set_host (w : string) (ws : worker) (h : hosts) : hosts :=
  mkHosts (<[w := ws]> (cluster h)) (master_files h) (master_aggregate h).

(** A session runs in a process of its own: of what it does only the files
    stay. *)
Definition forked (before after : worker) : worker :=
  mkWorker (disk_files after) (dataFolder before) (aggregatorDirPath before)
    (graphDBMapLocalStores before) (graphDBMapCentralStores before) (graphDBMapDuplicateCentralStores before).

Definition remote {A} (w : string) (c : M worker A) : M hosts A :=
  fun h => match cluster h !! w with
           | Some s => let '(o, s') := c s in (o, set_host w (forked s s') h)
           | None => (Undef, h)
           end.

(** [atoi]. *)
Definition atoi (s : string) : option Z :=
  match stoi s with inr z => Some z | inl invalid_argument => Some 0 | inl _ => None end.

(** [call_composite] is a count with composite aggregation. *)
Section calls.
Context {FB : FlatBuffers} {GZ : Gzip} (iter : gset Z -> list Z) (garbage : Z) (graphId traceContext : string).
Context (call_composite : string -> string -> M hosts Z).

Definition call_local (w part : string) : M hosts Z :=
  remote w (countLocalTriangles iter garbage graphId part).

(** [isFileAccessibleToWorker], then [copyCentralStoreToAggregator]: without
    the file on the master the worker waits for ever; what a file of that name
    in its data folder, or one of more than 2^31 bytes, leads to is left
    open. *)
Definition call_copy (w part : string) : M hosts unit :=
  fun h =>
    match cluster h !! w, atoi graphId, atoi part with
    | Some ws, Some g, Some q =>
        let fileName := show_long g +:+ "_centralstore_" +:+ show_long q +:+ ".gz" in
        if file_exists (disk_files ws) (aggregatorDirPath ws +:+ "/" +:+ graphId +:+ "_centralstore_" +:+ part)
        then (Ret tt, h)
        else if file_exists (disk_files ws) (dataFolder ws +:+ "/" +:+ fileName) then (Undef, h)
        else match master_files h !! (master_aggregate h +:+ "/" +:+ fileName) with
             | None => (Deadlock, h)
             | Some data =>
                 if Z.of_nat (length data) <? 2147483648
                 then (Ret tt, set_host w (copied fileName data ws) h)
                 else (Undef, h)
             end
    | _, _, _ => (Undef, h)
    end.

(** [countCentralStoreTriangles]: with an empty list or an empty context both
    sides wait for ever. *)
Definition call_central (r : request) : M hosts string :=
  if decide (adjustedPartitionIdList r = "" \/ traceContext = "") then deadlock
  else remote (minWeightWorker r)
    (aggregateCentralStoreTriangles iter graphId (minWeightWorkerPartition r) (adjustedPartitionIdList r)).

Definition worker_calls : calls hosts := mkCalls call_local call_composite call_copy call_central.
End calls.

(** ** A worker with the files of a partition *)

Lemma arcs_graph_of m x y : arcs (graph_of m) x y <-> y ∈ at_key m x.
Proof.
  unfold arcs, nbrs, graph_of, at_key. rewrite lookup_fmap. destruct (m !! x); cbn; [|set_solver].
  by rewrite elem_of_list_to_set.
Qed.

Lemma holds_exists {FB : FlatBuffers} fs path m : holds fs path m -> file_exists fs path = true.
Proof. intros (H & _). unfold file_exists. by rewrite bool_decide_eq_true, H. Qed.

Lemma load_named_run {FB : FlatBuffers} name fs m (st0 : hstore) :
  subGraphMap st0 = ∅ ->
  holds fs (instanceDataFolderLocation st0 +:+ getFileSeparator +:+ central_file name st0) m ->
  exists st, subGraphMap st = graph_of m /\ loadGraph_named name fs st0 = (Ret true, st).
Proof.
  intros H0 Hh. eexists. split; [|unfold loadGraph_named; rewrite (bind_Ret _ _ _ st0 st0) by done;
    by rewrite (load_file _ _ m)]. done.
Qed.

Section worker.
Context {FB : FlatBuffers} (iter : gset Z -> list Z) (garbage : Z).
Context (w : worker) (graphId part : Z) (local central duplicate : edge_map).
Abbreviation g := (show_long graphId).
Abbreviation q := (show_long part).
Hypothesis Hg : is_i32 graphId.
Hypothesis Hq : is_i32 part.
(** Nothing has been loaded yet; the files of the partition are there. *)
Hypothesis Hl0 : graphDBMapLocalStores w = ∅.
Hypothesis Hc0 : graphDBMapCentralStores w = ∅.
Hypothesis Hd0 : graphDBMapDuplicateCentralStores w = ∅.
Hypothesis Hl : holds (disk_files w) (dataFolder w +:+ "/" +:+ g +:+ "_" +:+ q) local.
Hypothesis Hc : holds (disk_files w) (dataFolder w +:+ "/" +:+ g +:+ "_centralstore_" +:+ q) central.
Hypothesis Hd : holds (disk_files w) (dataFolder w +:+ "/" +:+ g +:+ "_centralstore_dp_" +:+ q) duplicate.

Lemma stoi_run {S} z (s : S) : is_i32 z -> stoi_exn (show_long z) s = (Ret z, s).
Proof. intros H. unfold stoi_exn. by rewrite stoi_show. Qed.

Lemma loadLocalStore_run (w' : worker) :
  disk_files w' = disk_files w -> dataFolder w' = dataFolder w ->
  exists st, subGraphMap (base st) = graph_of local /\
    loadLocalStore garbage g q w' =
      (Ret tt, set_locals (<[g +:+ "_" +:+ q := st]> (graphDBMapLocalStores w')) w').
Proof.
  intros E1 E2. unfold loadLocalStore.
  rewrite (bind_Ret _ _ _ _ _ (stoi_run graphId w' Hg)), (bind_Ret _ _ _ _ _ (stoi_run part w' Hq)).
  rewrite (bind_Ret _ _ _ w' w') by done.
  set (st0 := newLocalStore graphId part (dataFolder w') garbage garbage).
  assert (exists st, subGraphMap (base st) = graph_of local /\
    local_loadGraph (disk_files w') st0 = (Ret true, st)) as (st & Hst & R).
  { eexists. split; [|unfold local_loadGraph, on_base; apply zoom_run].
    2: { rewrite (bind_Ret _ _ _ (base st0) (base st0)) by done.
         rewrite (load_file _ _ local); [reflexivity| |done].
         unfold local_path. cbn. rewrite E1, E2. exact Hl. }
    done. }
  exists st. split; [done|]. rewrite (bind_Ret _ _ _ (true, st) w'); [done|]. unfold with_new, central_loadGraph, duplicate_loadGraph. by rewrite R.
Qed.

Lemma loadCentral_run (w' : worker) :
  disk_files w' = disk_files w -> dataFolder w' = dataFolder w ->
  exists st, subGraphMap st = graph_of central /\
    loadInstanceCentralStore g q w' =
      (Ret tt, set_centrals (<[g +:+ "_centralstore_" +:+ q := st]> (graphDBMapCentralStores w')) w').
Proof.
  intros E1 E2. unfold loadInstanceCentralStore.
  rewrite (bind_Ret _ _ _ _ _ (stoi_run graphId w' Hg)), (bind_Ret _ _ _ _ _ (stoi_run part w' Hq)).
  rewrite (bind_Ret _ _ _ w' w') by done.
  destruct (load_named_run CENTRAL (disk_files w') central (newCentralStore graphId part (dataFolder w')))
    as (st & Hst & R); [done|unfold central_file; cbn; rewrite E1, E2; exact Hc|].
  exists st. split; [done|]. rewrite (bind_Ret _ _ _ (true, st) w'); [done|]. unfold with_new, central_loadGraph, duplicate_loadGraph. by rewrite R.
Qed.

Lemma loadDuplicate_run (w' : worker) :
  disk_files w' = disk_files w -> dataFolder w' = dataFolder w ->
  exists st, subGraphMap st = graph_of duplicate /\
    loadInstanceDuplicateCentralStore g q w' =
      (Ret tt, set_duplicates (<[g +:+ "_centralstore_dp_" +:+ q := st]> (graphDBMapDuplicateCentralStores w')) w').
Proof.
  intros E1 E2. unfold loadInstanceDuplicateCentralStore.
  rewrite (bind_Ret _ _ _ _ _ (stoi_run graphId w' Hg)), (bind_Ret _ _ _ _ _ (stoi_run part w' Hq)).
  rewrite (bind_Ret _ _ _ w' w') by done.
  destruct (load_named_run DUPLICATE (disk_files w') duplicate (newCentralStore graphId part (dataFolder w')))
    as (st & Hst & R); [done|unfold central_file; cbn; rewrite E1, E2; exact Hd|].
  exists st. split; [done|]. rewrite (bind_Ret _ _ _ (true, st) w'); [done|]. unfold with_new, central_loadGraph, duplicate_loadGraph. by rewrite R.
Qed.

(** The local count of the worker. *)
Lemma countLocal_run :
  exists L C D w', subGraphMap L = graph_of local /\ subGraphMap C = graph_of central /\
    subGraphMap D = graph_of duplicate /\ disk_files w' = disk_files w /\
    countLocalTriangles iter garbage g q w = determinate (run iter L C D) w'.
Proof.
  unfold countLocalTriangles. rewrite (bind_Ret _ _ _ w w) by done.
  unfold isGraphDBExists, isInstanceCentralStoreExists, isInstanceDuplicateCentralStoreExists.
  rewrite (holds_exists _ _ _ Hl), (holds_exists _ _ _ Hc), (holds_exists _ _ _ Hd), Hl0, Hc0, Hd0, !lookup_empty.
  rewrite (bool_decide_true (None = None)), (bool_decide_true (None = None)) by done. cbn [andb].
  destruct (loadLocalStore_run w eq_refl eq_refl) as (L & HL & RL). rewrite (bind_Ret _ _ _ _ _ RL).
  set (w1 := set_locals _ w) in *.
  rewrite (bind_Ret _ _ _ L w1).
  2: { unfold index_local. rewrite (bind_Ret _ _ _ w1 w1) by done. unfold w1 at 1. cbn.
       by rewrite lookup_insert_eq. }
  destruct (loadCentral_run w1 eq_refl eq_refl) as (C & HC & RC). rewrite (bind_Ret _ _ _ _ _ RC).
  set (w2 := set_centrals _ w1) in *.
  rewrite (bind_Ret _ _ _ C w2).
  2: { unfold index_central. rewrite (bind_Ret _ _ _ w2 w2) by done. unfold w2 at 1. cbn.
       by rewrite lookup_insert_eq. }
  destruct (loadDuplicate_run w2 eq_refl eq_refl) as (D & HD & RD). rewrite (bind_Ret _ _ _ _ _ RD).
  set (w3 := set_duplicates _ w2) in *.
  rewrite (bind_Ret _ _ _ D w3).
  2: { unfold index_duplicate. rewrite (bind_Ret _ _ _ w3 w3) by done. unfold w3 at 1. cbn.
       by rewrite lookup_insert_eq. }
  exists (base L), C, D, w3. done.
Qed.
End worker.

(** ** An aggregation *)

Lemma aggregate_arcs A G x y : arcs (aggregate A G) x y <-> arcs A x y \/ arcs G x y.
Proof.
  unfold aggregate.
  assert (forall l A, arcs (foldl (fun acc (e : Z * gset Z) => <[e.1 := nbrs acc e.1 ∪ e.2]> acc) A l) x y <->
    arcs A x y \/ exists X, (x, X) ∈ l /\ y ∈ X) as H.
  { induction l as [|[v X] l IH]; intros B; cbn [foldl].
    { split; [by left|]. intros [?|(? & ?%not_elem_of_nil & _)]; done. }
    rewrite IH. unfold arcs. rewrite nbrs_insert. cbn [fst snd]. setoid_rewrite elem_of_cons.
    case_decide as Hv; [subst v; rewrite elem_of_union|]; naive_solver. }
  rewrite H. setoid_rewrite elem_of_entries. unfold arcs, nbrs at 3. destruct (G !! x) as [X|]; cbn.
  - split; [intros [?|(X' & [= ->] & ?)]; tauto|]. intros [?|?]; [by left|right; by exists X].
  - split; [intros [?|(X' & [=] & _)]; by left|]. intros [?|?%elem_of_empty]; [by left|done].
Qed.

Section aggregation.
Context {FB : FlatBuffers} (iter : gset Z -> list Z) (w : worker).

Lemma loadCentralStore_run path m :
  holds (disk_files w) path m -> exists st, subGraphMap st = graph_of m /\ loadCentralStore path w = (Ret st, w).
Proof.
  intros Hh. eexists. split; [|unfold loadCentralStore; rewrite (bind_Ret _ _ _ w w) by done;
    unfold with_new; cbn; unfold mbind, M_bind; by rewrite (load_file _ _ m)]. done.
Qed.

Lemma aggregate_files_run (path_of : string -> string) (store_of : string -> edge_map) qs A :
  (forall q, q ∈ qs -> holds (disk_files w) (path_of q) (store_of q)) ->
  exists A', aggregate_files (path_of <$> qs) A w = (Ret A', w) /\
    forall x y, arcs A' x y <-> arcs A x y \/ exists q, q ∈ qs /\ y ∈ at_key (store_of q) x.
Proof.
  revert A. induction qs as [|q qs IH]; intros A Hqs; cbn [fmap list_fmap aggregate_files].
  { exists A. split; [done|]. intros x y. setoid_rewrite elem_of_nil. naive_solver. }
  rewrite (bind_Ret _ _ _ w w) by done. pose proof (Hqs q ltac:(left)) as Hq.
  rewrite (holds_exists _ _ _ Hq). destruct (loadCentralStore_run _ _ Hq) as (st & Hst & R).
  rewrite (bind_Ret _ _ _ _ _ R).
  destruct (IH (aggregate A (getUnderlyingHashMap st))) as (A' & R' & HA'); [intros q' H'; apply Hqs; by right|].
  exists A'. split; [exact R'|]. intros x y. rewrite HA', aggregate_arcs. unfold getUnderlyingHashMap.
  rewrite Hst, arcs_graph_of. setoid_rewrite elem_of_cons. naive_solver.
Qed.

Lemma aggregateCentral_run g (r : request) (store_of : string -> edge_map) :
  holds (disk_files w) (dataFolder w +:+ "/" +:+ g +:+ "_centralstore_" +:+ minWeightWorkerPartition r)
    (store_of (minWeightWorkerPartition r)) ->
  (forall q, q ∈ split (adjustedPartitionIdList r) "," ->
     holds (disk_files w) (aggregatorDirPath w +:+ "/" +:+ g +:+ "_centralstore_" +:+ q) (store_of q)) ->
  exists A,
    aggregateCentralStoreTriangles iter g (minWeightWorkerPartition r) (adjustedPartitionIdList r) w =
      (Ret (aggregated_triangles iter A), w) /\
    forall x y, arcs A x y <-> exists q, q ∈ request_parts r /\ y ∈ at_key (store_of q) x.
Proof.
  intros H1 H2. unfold aggregateCentralStoreTriangles. rewrite (bind_Ret _ _ _ w w) by done.
  destruct (loadCentralStore_run _ _ H1) as (st & Hst & R). rewrite (bind_Ret _ _ _ _ _ R).
  destruct (aggregate_files_run (fun q => aggregatorDirPath w +:+ "/" +:+ g +:+ "_centralstore_" +:+ q)
    store_of (split (adjustedPartitionIdList r) ",") (aggregate ∅ (getUnderlyingHashMap st)) H2) as (A & RA & HA).
  rewrite (bind_Ret _ _ _ _ _ RA). exists A. split; [done|]. intros x y. rewrite HA, aggregate_arcs.
  unfold getUnderlyingHashMap, request_parts. rewrite Hst, arcs_graph_of. setoid_rewrite elem_of_cons.
  assert (~ arcs ∅ x y) by (unfold arcs, nbrs; rewrite lookup_empty; set_solver). naive_solver.
Qed.
End aggregation.

(** ** The whole system *)

(** The stores of a partition, by the name of the partition. *)
Record stores := mkStores { st_local : edge_map; st_central : edge_map; st_duplicate : edge_map }.

(** The bytes of a store. *)
Definition store_bytes {FB : FlatBuffers} (m : edge_map) : list ascii := part_write (entries m).

(** The path of the store of a partition. *)
Definition at_path (folder : string) (graphId : Z) (kind : string) (i : Z) : string :=
  folder +:+ "/" +:+ store_name graphId kind i.

(** What a worker has: nothing loaded, the files of its partitions, no file
    half way, and in its aggregation folder no store that is not the store of
    the partition. *)
Record worker_ready {FB : FlatBuffers} (graphId : Z) (of_part : Z -> stores) (parts mine : list Z) (w : worker)
  : Prop := {
  rd_fresh : graphDBMapLocalStores w = ∅ /\ graphDBMapCentralStores w = ∅ /\
    graphDBMapDuplicateCentralStores w = ∅;
  rd_mine : forall i, i ∈ mine ->
    holds (disk_files w) (at_path (dataFolder w) graphId "_" i) (st_local (of_part i)) /\
    holds (disk_files w) (at_path (dataFolder w) graphId "_centralstore_" i) (st_central (of_part i)) /\
    holds (disk_files w) (at_path (dataFolder w) graphId "_centralstore_dp_" i) (st_duplicate (of_part i));
  rd_clear : forall i, i ∈ parts ->
    disk_files w !! (at_path (dataFolder w) graphId "_centralstore_" i +:+ ".gz") = None;
  rd_copies : forall i d, i ∈ parts ->
    disk_files w !! at_path (aggregatorDirPath w) graphId "_centralstore_" i = Some d ->
    d = store_bytes (st_central (of_part i))
}.

Definition partition_stores (p : MetisPartitioner) (partMap : gmap Z Z) (i : Z) : stores :=
  mkStores (partEdgesSet (populatePartMaps p partMap i))
    (partMasterEdgesSet (populatePartMaps p partMap i)) (duplicate_store p partMap i).

(** The central stores on the master, compressed. *)
Definition master_ready {FB : FlatBuffers} {GZ : Gzip} (graphId : Z) (of_part : Z -> stores) (parts : list Z)
    (h : hosts) : Prop :=
  forall i, i ∈ parts ->
    let data := gzip (store_bytes (st_central (of_part i))) in
    master_files h !! (at_path (master_aggregate h) graphId "_centralstore_" i +:+ ".gz") = Some data /\
    Z.of_nat (length data) < 2147483648.

(** The hosts when the graph has been uploaded, one partition per worker. *)
Definition hosts_ready {FB : FlatBuffers} {GZ : Gzip} (p : MetisPartitioner) (partMap : gmap Z Z) (graphId : Z)
    (pm : gmap string (list string)) (h : hosts) : Prop :=
  master_ready graphId (partition_stores p partMap) (parts p) h /\
  forall w qs, pm !! w = Some qs -> exists ws i,
    cluster h !! w = Some ws /\ qs = [show_long i] /\
    worker_ready graphId (partition_stores p partMap) (parts p) [i] ws.

(** A graph that has been partitioned, on the workers [pm] says. *)
Record deployed (p : MetisPartitioner) (partMap : gmap Z Z) (home : Z -> Z) (graphId : Z)
    (workers : gset string) (workerList : list string) (pm : gmap string (list string)) : Prop := {
  dp_names : NoDup (actual p <$> (entries (graphEdgeMap p)).*1);
  dp_home : forall u v, v ∈ at_key (graphEdgeMap p) u ->
    home (actual p u) = part_of partMap u /\ home (actual p v) = part_of partMap v;
  dp_range : 1 < nParts p <= 2147483648 /\ (forall v, 0 <= home v < nParts p) /\ is_i32 graphId;
  dp_workers : NoDup workerList /\ forall w, w ∈ dom pm -> w ∈ workerList /\ w ∈ workers;
  dp_parts : partitionsVector pm ≡ₚ show_long <$> parts p
}.

(** ** A copied store *)

Section copy.
Context {FB : FlatBuffers} {GZ : Gzip} (graphId : Z) (of_part : Z -> stores) (parts : list Z).

Abbreviation CENTRALSTORE := "_centralstore_".
Definition central_bytes (i : Z) : list ascii := store_bytes (st_central (of_part i)).
Definition gz_name (i : Z) : string := store_name graphId CENTRALSTORE i +:+ ".gz".

Lemma gz_name_eq i : show_long graphId +:+ CENTRALSTORE +:+ show_long i +:+ ".gz" = gz_name i.
Proof. unfold gz_name, store_name. by rewrite !string_app_assoc. Qed.

Lemma central_kind : CENTRALSTORE ∈ kinds.
Proof. right. left. Qed.

Lemma gz_path folder kind i : folder +:+ "/" +:+ (store_name graphId kind i +:+ ".gz") = at_path folder graphId kind i +:+ ".gz".
Proof. unfold at_path. by rewrite !string_app_assoc. Qed.

Lemma no_slash kind i : kind ∈ kinds -> "/"%char ∉ chars (store_name graphId kind i).
Proof. apply store_name_avoids, foreign_slash. Qed.
Lemma no_slash_gz kind i : kind ∈ kinds -> "/"%char ∉ chars (store_name graphId kind i +:+ ".gz").
Proof.
  intros H. rewrite chars_app, not_elem_of_app. split; [by apply no_slash|]. by apply (bool_decide_unpack _); vm_compute.
Qed.

(** The paths of stores do not clash. *)
Lemma at_path_inj d d' kind kind' i i' : kind ∈ kinds -> kind' ∈ kinds ->
  at_path d graphId kind i = at_path d' graphId kind' i' -> d = d' /\ kind = kind' /\ i = i'.
Proof.
  intros Hk Hk' [-> E]%path_inj; [|by apply no_slash..]. apply store_name_inj in E as [-> ->]; done.
Qed.

Lemma at_path_gz d d' kind kind' i i' : kind ∈ kinds -> kind' ∈ kinds ->
  at_path d graphId kind i <> at_path d' graphId kind' i' +:+ ".gz".
Proof.
  intros Hk Hk'. rewrite <- gz_path. intros [_ E]%path_inj; [|by apply no_slash|by apply no_slash_gz].
  apply (store_name_avoids "." graphId kind i foreign_dot Hk). rewrite E, chars_app, elem_of_app. right. left.
Qed.

Lemma disk_on_files f w : disk_files (on_files f w) = f (disk_files w).
Proof. done. Qed.

Lemma copied_lookup i w path : disk_files (copied (gz_name i) (gzip (central_bytes i)) w) !! path =
  if decide (path = at_path (aggregatorDirPath w) graphId CENTRALSTORE i) then Some (central_bytes i)
  else if decide (path = at_path (dataFolder w) graphId CENTRALSTORE i) then Some (central_bytes i)
  else if decide (path = at_path (dataFolder w) graphId CENTRALSTORE i +:+ ".gz") then None
  else disk_files w !! path.
Proof.
  unfold copied, uploaded, gz_name. rewrite rawFileName_gz, gz_path.
  rewrite !disk_on_files. set (P := at_path (dataFolder w) graphId CENTRALSTORE i).
  assert (disk_files (write_file (P +:+ ".gz") (gzip (central_bytes i)) w) !! (P +:+ ".gz") = Some (gzip (central_bytes i)))
    as Hw by apply lookup_insert_eq.
  rewrite (unzip_run _ _ _ Hw). unfold copyToDirectory.
  change (dataFolder w +:+ "/" +:+ store_name graphId CENTRALSTORE i) with P. rewrite lookup_insert_eq.
  unfold P at 1, at_path at 1. rewrite getFileName_app by apply no_slash, central_kind.
  change (aggregatorDirPath w +:+ "/" +:+ store_name graphId CENTRALSTORE i) with
    (at_path (aggregatorDirPath w) graphId CENTRALSTORE i).
  case_decide as H1; [subst; by rewrite lookup_insert_eq|]. rewrite lookup_insert_ne by done.
  case_decide as H2; [subst; by rewrite lookup_insert_eq|]. rewrite lookup_insert_ne by done.
  case_decide as H3; [subst; by rewrite lookup_delete_eq|]. rewrite lookup_delete_ne by done.
  by apply lookup_insert_ne.
Qed.

(** What a worker has stays, what is copied is there. *)
Lemma copied_keeps i w kind j d : kind ∈ kinds -> (kind = CENTRALSTORE -> j = i -> d = central_bytes i) ->
  forall folder, disk_files w !! at_path folder graphId kind j = Some d ->
  disk_files (copied (gz_name i) (gzip (central_bytes i)) w) !! at_path folder graphId kind j = Some d.
Proof.
  intros Hk Hd folder H. rewrite copied_lookup.
  case_decide as H1; [apply at_path_inj in H1 as (_ & H1 & H2); [by rewrite (Hd H1 H2)|done|apply central_kind]|].
  case_decide as H2; [apply at_path_inj in H2 as (_ & H2 & H3); [by rewrite (Hd H2 H3)|done|apply central_kind]|].
  by rewrite decide_False by (apply at_path_gz; [done|apply central_kind]).
Qed.

Lemma copied_ready i w mine :
  worker_ready graphId of_part parts mine w ->
  worker_ready graphId of_part parts mine (copied (gz_name i) (gzip (central_bytes i)) w).
Proof.
  intros [F Hm Hc Hcp]. assert ("_" ∈ kinds /\ "_centralstore_dp_" ∈ kinds) as [K1 K3]
    by (split; by apply (bool_decide_unpack _); vm_compute).
  split; [exact F| | |].
  - intros j Hj. destruct (Hm j Hj) as ((L1 & L2) & (C1 & C2) & (D1 & D2)).
    split_and!; (split; [|assumption]); (apply copied_keeps; [first [exact K1|exact K3|exact central_kind]| |assumption]);
      try done. by intros _ ->.
  - intros j Hj. rewrite copied_lookup.
    rewrite (decide_False (P := _ = at_path (aggregatorDirPath w) _ _ _)) by (intros E; symmetry in E; revert E; apply at_path_gz; apply central_kind).
    rewrite (decide_False (P := _ = at_path (dataFolder w) _ _ i)) by (intros E; symmetry in E; revert E; apply at_path_gz; apply central_kind).
    case_decide; [done|]. by apply Hc.
  - intros j d Hj. rewrite copied_lookup. change (aggregatorDirPath (copied ?a ?b w)) with (aggregatorDirPath w).
    case_decide as H1; [apply at_path_inj in H1 as (_ & _ & ->); [by intros [= <-]|apply central_kind..]|].
    case_decide as H2; [apply at_path_inj in H2 as (_ & _ & ->); [by intros [= <-]|apply central_kind..]|].
    rewrite decide_False by (apply at_path_gz; apply central_kind). by apply Hcp.
Qed.
End copy.


Section deployed.
Context {FB : FlatBuffers} {GZ : Gzip} (iter : gset Z -> list Z) (Hiter : forall X, iter X ≡ₚ elements X) (garbage : Z).
Context (traceContext : string) (Htrace : traceContext <> "") (call_composite : string -> string -> M hosts Z).
Context p partMap home graphId workers workerList pm
  (D : deployed p partMap home graphId workers workerList pm) (HE : apexed (edges_of p)).

Abbreviation home' := (fun x => show_long (home x)).
Abbreviation of_part := (partition_stores p partMap).
Abbreviation ready := (hosts_ready p partMap graphId pm).
Abbreviation calls' := (worker_calls iter garbage (show_long graphId) traceContext call_composite).

(** A worker has the central store of a partition in its aggregation
    folder. *)
Definition has_copy (h : hosts) (w q : string) : Prop :=
  exists ws i, cluster h !! w = Some ws /\ q = show_long i /\ i ∈ parts p /\
    disk_files ws !! at_path (aggregatorDirPath ws) graphId "_centralstore_" i = Some (central_bytes of_part i).

Lemma part_i32 i : i ∈ parts p -> is_i32 i.
Proof.
  unfold parts. rewrite elem_of_seqZ. destruct (dp_range _ _ _ _ _ _ _ D) as ([] & _). unfold is_i32. lia.
Qed.

Lemma partition_name q : q ∈ partitionsVector pm -> exists i, q = show_long i /\ i ∈ parts p.
Proof. rewrite (dp_parts _ _ _ _ _ _ _ D), list_elem_of_fmap. done. Qed.

(** Every partition is on a worker, so that its stores fit. *)
Lemma partition_fits h i : ready h -> i ∈ parts p ->
  i32_map (st_central (of_part i)) /\ Z.of_nat (length (central_bytes of_part i)) < 2147483648.
Proof.
  intros [_ Hr] Hi. assert (show_long i ∈ partitionsVector pm) as Hq.
  { rewrite (dp_parts _ _ _ _ _ _ _ D). by apply list_elem_of_fmap_2. }
  apply elem_of_partitions in Hq as (w & qs & Hw & Hq). destruct (Hr w qs Hw) as (ws & j & _ & -> & Hready).
  apply list_elem_of_singleton, show_long_inj in Hq as ->.
  destruct (rd_mine _ _ _ _ _ Hready j ltac:(left)) as (_ & (_ & H1 & H2) & _). by split.
Qed.

Lemma stores_spec i x y :
  (y ∈ at_key (st_local (of_part i)) x <-> edges_of p x y /\ home x = i /\ home y = i) /\
  (y ∈ at_key (st_central (of_part i)) x <-> edges_of p x y /\ home x = i /\ home y <> i) /\
  (y ∈ at_key (st_duplicate (of_part i)) x <-> edges_of p x y /\ home x <> i /\ home y = i).
Proof.
  destruct (populate_spec p partMap home (dp_names _ _ _ _ _ _ _ D) (dp_home _ _ _ _ _ _ _ D) i) as (H1 & H2 & _).
  split_and!; [apply H1|apply H2|]. apply duplicate_spec.
  - exact (dp_names _ _ _ _ _ _ _ D).
  - exact (dp_home _ _ _ _ _ _ _ D).
  - apply (dp_range _ _ _ _ _ _ _ D).
Qed.

(** A call that leaves the files of its worker alone leaves the hosts as they
    are. *)
Lemma remote_run {A} h w ws (c : M worker A) o ws' :
  cluster h !! w = Some ws -> c ws = (o, ws') -> disk_files ws' = disk_files ws -> remote w c h = (o, h).
Proof.
  intros Hw Hc Hd. unfold remote. rewrite Hw, Hc. unfold forked, set_host. rewrite Hd. f_equal.
  destruct h as [cl mf ma], ws. cbn in *. by rewrite insert_id.
Qed.

Lemma deployed_local w q : q ∈ default [] (pm !! w) -> counts_local ready has_copy (edges_of p) home' calls' w q.
Proof.
  destruct (pm !! w) as [qs|] eqn:Hw; cbn; [|by intros ?%not_elem_of_nil]. intros Hq h Hr.
  destruct (proj2 Hr w qs Hw) as (ws & i & Hws & -> & Hready).
  assert (q ∈ partitionsVector pm) as Hqp by (apply elem_of_partitions; by exists w, [show_long i]).
  apply list_elem_of_singleton in Hq as ->. destruct (partition_name _ Hqp) as (i' & Ei & Hi).
  apply show_long_inj in Ei as <-. destruct (rd_fresh _ _ _ _ _ Hready) as (F1 & F2 & F3).
  destruct (rd_mine _ _ _ _ _ Hready i ltac:(left)) as (M1 & M2 & M3).
  destruct (countLocal_run iter garbage ws graphId i _ _ _ (proj2 (proj2 (dp_range _ _ _ _ _ _ _ D)))
    (part_i32 i Hi) F1 F2 F3 M1 M2 M3) as (L & C & Du & w' & HL & HC & HD & Hdisk & R).
  assert (forall x y, store_arcs L C Du x y <-> local_arcs (edges_of p) home' (show_long i) x y) as Harcs.
  { intros x y. unfold store_arcs, local_arcs. rewrite HL, HC, HD, !arcs_graph_of.
    destruct (stores_spec i x y) as (-> & -> & ->).
    assert (forall a, show_long a = show_long i <-> a = i) as Hinj by (split; [apply show_long_inj|by intros ->]).
    rewrite !Hinj. destruct (decide (home x = i)), (decide (home y = i)); tauto. }
  destruct (run_counts iter Hiter L C Du) as (T & HT & Hx).
  { eapply apexed_ext; [|apply (apexed_local (edges_of p) home' HE (show_long i))]. intros x y. by rewrite Harcs. }
  rewrite HT in R. exists T, h. split; [by eapply remote_run|]. split; [done|]. intros x. rewrite Hx. by apply tri_ext.
Qed.

Lemma set_host_lookup w ws h w' : cluster (set_host w ws h) !! w' = if decide (w = w') then Some ws else cluster h !! w'.
Proof. unfold set_host. cbn [cluster]. by rewrite lookup_insert. Qed.

(** A worker gets a store of another partition. *)
Lemma set_copied h w ws i : ready h -> cluster h !! w = Some ws ->
  let ws' := copied (gz_name graphId i) (gzip (central_bytes of_part i)) ws in
  grows ready has_copy h (set_host w ws' h).
Proof.
  intros [Hm Hr] Hw ws'. split; [split; [exact Hm|]|].
  - intros w1 qs H1. destruct (Hr w1 qs H1) as (ws1 & j & Hc & -> & Hready). rewrite set_host_lookup. case_decide as Hd.
    + subst w1. rewrite Hw in Hc. injection Hc as <-. exists ws', j. split_and!; [done|done|]. by apply copied_ready.
    + by exists ws1, j.
  - intros w1 q (ws1 & j & Hc & -> & Hj & Hd). unfold has_copy. rewrite set_host_lookup. case_decide as Hww.
    + subst w1. rewrite Hw in Hc. injection Hc as <-. exists ws', j. split_and!; [done|done|done|].
      apply copied_keeps; [apply central_kind|by intros _ ->|done].
    + by exists ws1, j.
Qed.

Lemma atoi_show z : is_i32 z -> atoi (show_long z) = Some z.
Proof. intros H. unfold atoi. by rewrite stoi_show. Qed.

Lemma deployed_copy w q : w ∈ dom pm -> q ∈ partitionsVector pm -> copies ready has_copy calls' w q.
Proof.
  intros [qs Hw]%elem_of_dom (i & -> & Hi)%partition_name h Hr.
  destruct (proj2 Hr w qs Hw) as (ws & j & Hws & -> & Hready). destruct (proj1 Hr i Hi) as [Hmf Hsize].
  change (store_bytes (st_central (of_part i))) with (central_bytes of_part i) in Hmf, Hsize.
  cbn [copy_store worker_calls]. unfold call_copy.
  rewrite Hws, (atoi_show graphId (proj2 (proj2 (dp_range _ _ _ _ _ _ _ D)))), (atoi_show i (part_i32 i Hi)).
  rewrite gz_name_eq. change (show_long graphId +:+ "_centralstore_" +:+ show_long i) with (store_name graphId "_centralstore_" i).
  fold (at_path (aggregatorDirPath ws) graphId "_centralstore_" i).
  unfold gz_name at 1 2. rewrite !gz_path. unfold file_exists at 1. case_bool_decide as He.
  - exists h. split; [done|]. split; [done|]. exists ws, i. split_and!; [done..|]. destruct He as [d Hd].
    rewrite Hd. f_equal. exact (rd_copies _ _ _ _ _ Hready i d Hi Hd).
  - unfold file_exists. rewrite (rd_clear _ _ _ _ _ Hready i Hi). rewrite bool_decide_false by (by intros []).
    rewrite Hmf. destruct (Z.ltb_spec (Z.of_nat (length (gzip (central_bytes of_part i)))) 2147483648); [|lia].
    eexists. split; [reflexivity|]. split; [by apply set_copied|].
    eexists _, i. rewrite set_host_lookup, decide_True by done. split_and!; [done..|].
    change (aggregatorDirPath (copied ?a ?b ws)) with (aggregatorDirPath ws). rewrite copied_lookup.
    by rewrite decide_True by done.
Qed.

(** The central store of a partition, by its name. *)
Definition central_of (q : string) : edge_map :=
  match stoi q with inr i => st_central (of_part i) | inl _ => ∅ end.

Lemma central_of_show i : i ∈ parts p -> central_of (show_long i) = st_central (of_part i).
Proof. intros H. unfold central_of. by rewrite stoi_show by (by apply part_i32). Qed.

(** The edges of central stores are the edges that leave the partitions. *)
Lemma central_stores_arcs (Q : list string) x y :
  (forall q, q ∈ Q -> q ∈ partitionsVector pm) ->
  (exists q, q ∈ Q /\ y ∈ at_key (central_of q) x) <-> central_arcs (edges_of p) home' Q x y.
Proof.
  intros HQ. unfold central_arcs. split.
  - intros (q & Hq' & Hy). destruct (partition_name q (HQ q Hq')) as (i & -> & Hi).
    rewrite central_of_show in Hy by done. apply (stores_spec i x y) in Hy as (HEx & Hx & Hne).
    rewrite Hx. split_and!; [done| |done]. intros E%show_long_inj. congruence.
  - intros (HEx & Hne & Hx). exists (show_long (home x)). split; [done|].
    destruct (partition_name _ (HQ _ Hx)) as (i & Ei & Hi). apply show_long_inj in Ei as Ei'.
    rewrite central_of_show by (by rewrite Ei'). apply (stores_spec (home x) x y). split_and!; [done|done|congruence].
Qed.

Lemma deployed_central r :
  (forall q, q ∈ request_parts r -> q ∈ partitionsVector pm) ->
  partitionWorkerMap pm !! minWeightWorkerPartition r = Some (minWeightWorker r) ->
  minWeightWorkerPartition r ∉ split (adjustedPartitionIdList r) "," ->
  adjustedPartitionIdList r <> "" ->
  (forall q, q ∈ to_copy r <-> q ∈ request_parts r /\ partitionWorkerMap pm !! q <> Some (minWeightWorker r)) ->
  counts_central ready has_copy iter (edges_of p) home' calls' r.
Proof.
  intros Hq Hw Hself Hne Hcp h Hr Hhas.
  destruct (partition_worker pm (minWeightWorkerPartition r)) as (w & qs & Hw' & Hpm & Hin); [apply Hq; left|].
  rewrite Hw in Hw'. injection Hw' as <-.
  destruct (proj2 Hr _ qs Hpm) as (ws & i & Hws & -> & Hready). apply list_elem_of_singleton in Hin as Hown.
  destruct (partition_name (minWeightWorkerPartition r)) as (i' & Ei & Hi); [apply Hq; left|].
  assert (i' = i) as -> by (apply show_long_inj; congruence).
  destruct (aggregateCentral_run iter ws (show_long graphId) r central_of) as (A & R & HA).
  - rewrite Hown, central_of_show by done. exact (proj1 (proj2 (rd_mine _ _ _ _ _ Hready i ltac:(left)))).
  - intros q Hq'. assert (q ∈ to_copy r) as Hcopy.
    { apply Hcp. split; [by right|]. intros Hsame.
      destruct (partition_worker pm q) as (w1 & qs1 & Hw1 & Hpm1 & Hq1); [apply Hq; by right|].
      rewrite Hsame in Hw1. injection Hw1 as <-. rewrite Hpm in Hpm1. injection Hpm1 as <-.
      apply list_elem_of_singleton in Hq1. rewrite <- Hown in Hq1. congruence. }
    destruct (Hhas q Hcopy) as (ws1 & j & Hws1 & -> & Hj & Hd). rewrite Hws in Hws1. injection Hws1 as <-.
    rewrite central_of_show by done. split; [exact Hd|]. exact (partition_fits h j Hr Hj).
  - exists A, h. split; [|split; [done|]].
    + cbn [central_triangles worker_calls]. unfold call_central. rewrite decide_False by naive_solver. by eapply remote_run.
    + intros x y. rewrite HA. by apply central_stores_arcs.
Qed.

Lemma deployed_cluster :
  cluster_ok ready has_copy iter (edges_of p) home' calls' workers workerList pm.
Proof.
  assert (NoDup (show_long <$> parts p)) as Hnd.
  { apply NoDup_fmap_2_strong; [intros x y _ _; apply show_long_inj|apply NoDup_seqZ]. }
  destruct (dp_range _ _ _ _ _ _ _ D) as (Hn & Hr & _). pose proof (dp_parts _ _ _ _ _ _ _ D) as HP.
  constructor; [exact Hiter|exact HE|exact (dp_workers _ _ _ _ _ _ _ D)| | | |exact deployed_copy|exact deployed_central].
  - split_and!.
    + by rewrite HP.
    + rewrite HP, length_fmap. unfold parts. rewrite length_seqZ. lia.
    + apply Forall_forall. intros q (i & -> & _)%partition_name. split; [by apply show_long_avoids|apply show_long_nonempty].
  - intros x y _. rewrite HP.
    split; apply (list_elem_of_fmap_2 show_long), elem_of_seqZ; [pose proof (Hr x)|pose proof (Hr y)]; lia.
  - intros w q _. apply deployed_local.
Qed.
End deployed.

Lemma deployed_rows p partMap home graphId workers workerList rows :
  deployed p partMap home graphId workers workerList (foldl add_row ∅ rows) -> Z.of_nat (length rows) = nParts p.
Proof.
  intros D. destruct (dp_range _ _ _ _ _ _ _ D) as (Hn & _). pose proof (dp_parts _ _ _ _ _ _ _ D) as HP.
  rewrite <- length_rows, HP, length_fmap. unfold parts. rewrite length_seqZ. lia.
Qed.

(** On a cluster that has a partitioned graph of at most four partitions, one
    on each worker, the number [execute] answers with is the number of triangles of the graph,
    provided every triangle has a vertex with an edge to both others; the
    central stores it needs are copied to the aggregators on the way. *)
Theorem distributed_triangles {FB : FlatBuffers} {GZ : Gzip} iter garbage traceContext call_composite p partMap home graphId
    workers workerList rows h :
  (forall X, iter X ≡ₚ elements X) -> traceContext <> "" ->
  deployed p partMap home graphId workers workerList (foldl add_row ∅ rows) ->
  hosts_ready p partMap graphId (foldl add_row ∅ rows) h ->
  apexed (edges_of p) -> nParts p <= COMPOSITE_CENTRAL_STORE_WORKER_THRESHOLD ->
  exists (T : gset triple) h',
    execute (worker_calls iter garbage (show_long graphId) traceContext call_composite) workers workerList rows h =
      (Ret (Z.of_nat (size T)), h') /\
    hosts_ready p partMap graphId (foldl add_row ∅ rows) h' /\
    forall x, x ∈ T <-> tri (edges_of p) x.
Proof.
  intros Hi Ht D Hr HE Hn. eapply master_counts; [|by eapply deployed_cluster|exact Hr].
  rewrite (deployed_rows _ _ _ _ _ _ _ D). lia.
Qed.
