(* ===== verification/Deployment.v ===== *)
(** * Deployment: a partitioned graph is put on the workers

    [JasmineGraphServer::getWorkers] and [uploadGraphLocally]
    (src/server/JasmineGraphServer.cpp): the files [createPartitionFiles] wrote
    go to the workers one partition after the other, the central stores also
    to the aggregation folder of the master, and the database learns which
    worker has which partition. *)
From Stdlib Require Import ZArith Ascii String Lia.
From stdpp Require Import base tactics numbers list sorting strings gmap.
From S2P Require Import Prelude Triangles TrianglesTheory HashMapStores Shell HashMapTheory StaticTriangles.
From S2P Require Import StaticTheory Metis MetisTheory TriangleExecutor ExecutorTheory DistributedCount.
From S2P Require Import Sessions WorkerSessions FileTransfer Uploads Cluster.

(** ** The choice of workers *)

(** Loads are counted in quarters; a worker is chosen when its load is below
    100 and below that of those before it.  The loads the monitoring reports
    are put into a variable that the loop does not see: all loads start
    at 0. *)
Definition least_loaded (cpu_loads : gmap string Z) (workerListAll : list string) : string :=
  (foldl (fun best w =>
     let cpu := default 0 (cpu_loads !! w) in if cpu <? best.2 then (w, cpu) else best) ("", 400) workerListAll).1.
Fixpoint choose_workers (npart : nat) (cpu_loads : gmap string Z) (workerListAll : list string) : list string :=
  match npart with
  | O => []
  | S npart' =>
      let w := least_loaded cpu_loads workerListAll in
      w :: choose_workers npart' (<[w := default 0 (cpu_loads !! w) + 1]> cpu_loads) workerListAll
  end.

(** [getWorkers], not on Kubernetes. *)
Definition getWorkers (npart : nat) (hostWorkerList : list string) : list string :=
  choose_workers npart ∅ hostWorkerList.

(** ** The upload *)

Section upload.
Context {FB : FlatBuffers} {GZ : Gzip} (graphId : Z).

(** [uploadFileToWorker] of a compressed file: false when there is no such
    worker; the worker waits for ever when there is no such file or when it
    cannot be unpacked; what a file of that name in the data folder, a name
    without [.gz] or a file of 2^31 bytes leads to is left open. *)
Definition call_upload (w filePath : string) (batch_upload : bool) : M hosts bool :=
  fun h =>
    match cluster h !! w with
    | None => (Ret false, h)
    | Some ws =>
        let fileName := getFileName filePath in
        let destination := dataFolder ws +:+ "/" +:+ fileName in
        match strip_gz fileName with
        | None => (Undef, h)
        | Some name =>
            if file_exists (disk_files ws) destination then (Undef, h)
            else match master_files h !! filePath with
                 | None => (Deadlock, h)
                 | Some data =>
                     if Z.of_nat (length data) <? 2147483648 then
                       match gunzip data with
                       | None => (Deadlock, h)
                       | Some _ =>
                           (Ret true, set_host w (unpacked graphId name batch_upload (write_file destination data ws)) h)
                       end
                     else (Undef, h)
                 end
        end
    end.

(** [copyCentralStoreToAggregateLocation]. *)
Definition copyCentralStoreToAggregateLocation (filePath : string) : M hosts unit :=
  modify (fun h => mkHosts (cluster h) (copyToDirectory filePath (master_aggregate h) (master_files h)) (master_aggregate h)).

(** [assignPartitionToWorker]: the row of [worker_has_partition]. *)
Definition assignPartitionToWorker (fileName worker : string) : string * string :=
  (worker, after_last "_" (rawFileName fileName)).

(** The loop of [uploadGraphLocally] over the partition, the central store and
    the duplicate central store of each partition. *)
Fixpoint upload_files (fullFileList : list (string * string * string)) (workerList : list string)
    (graphUploadWorkerTracker : nat) : M hosts (list (string * string)) :=
  match fullFileList with
  | [] => mret []
  | (partitionFile, centralStoreFile, duplicateFile) :: rest =>
      match workerList !! graphUploadWorkerTracker with
      | None => undef
      | Some worker =>
          _ ← call_upload worker partitionFile true;
          _ ← copyCentralStoreToAggregateLocation centralStoreFile;
          _ ← call_upload worker centralStoreFile false;
          _ ← call_upload worker duplicateFile false;
          rows ← upload_files rest workerList ((graphUploadWorkerTracker + 1) mod length workerList);
          mret (assignPartitionToWorker partitionFile worker :: rows)
      end
  end.

(** [uploadGraphLocally] of a graph without attributes and composite stores:
    the rows it adds to the database.  After an upload the tracker is where it
    was. *)
Definition uploadGraphLocally (fullFileList : list (string * string * string)) (hostWorkerList : list string)
  : M hosts (list (string * string)) :=
  upload_files fullFileList (getWorkers (length fullFileList) hostWorkerList) 0.
End upload.

(** The files of [createPartitionFiles], by partition. *)
Definition fullFileList (p : MetisPartitioner) : list (string * string * string) :=
  (fun i => (partition_file p i, centralstore_file p i, duplicate_file p i)) <$> parts p.

(** ** The workers are chosen in turn *)

Lemma least_loaded_spec (loads : gmap string Z) l1 w l2 :
  Forall (fun w => default 0 (loads !! w) = 1) l1 -> default 0 (loads !! w) = 0 ->
  Forall (fun w => default 0 (loads !! w) = 0) l2 -> least_loaded loads (l1 ++ w :: l2) = w.
Proof.
  intros H1 Hw H2. unfold least_loaded. rewrite foldl_app. cbn [foldl]. rewrite Hw.
  set (best := foldl _ _ l1).
  assert (0 < best.2) as Hb.
  { unfold best. assert (forall (b : string * Z), 0 < b.2 -> 0 < (foldl (fun best w =>
      let cpu := default 0 (loads !! w) in if cpu <? best.2 then (w, cpu) else best) b l1).2) as H; [|apply H; cbn; lia].
    induction H1 as [|v l1 Hv _ IH]; intros b Hb; [done|]. cbn [foldl]. apply IH. rewrite Hv.
    destruct (Z.ltb_spec 1 b.2); cbn; lia. }
  destruct (Z.ltb_spec 0 best.2); [|lia]. clear best Hb H.
  induction H2 as [|v l2 Hv _ IH]; [done|]. cbn [foldl]. rewrite Hv. exact IH.
Qed.

Lemma choose_in_turn n l1 l2 (loads : gmap string Z) :
  NoDup (l1 ++ l2) -> (n <= length l2)%nat ->
  Forall (fun w => default 0 (loads !! w) = 1) l1 -> Forall (fun w => default 0 (loads !! w) = 0) l2 ->
  choose_workers n loads (l1 ++ l2) = take n l2.
Proof.
  revert l1 l2 loads. induction n as [|n IH]; intros l1 l2 loads Hnd Hn H1 H2; [done|].
  destruct l2 as [|w l2]; [cbn in Hn; lia|]. apply Forall_cons in H2 as [Hw H2]. cbn [choose_workers take].
  rewrite least_loaded_spec by done. f_equal. rewrite Hw.
  apply NoDup_app in Hnd as (N1 & N2 & N3). apply NoDup_cons in N3 as [N3 N4].
  rewrite cons_middle, app_assoc. apply IH.
  - rewrite <- app_assoc. apply NoDup_app. split_and!; [done|done|by apply NoDup_cons].
  - cbn in Hn. lia.
  - apply Forall_app. split.
    + apply Forall_forall. intros v Hv. rewrite lookup_insert_ne by (intros <-; apply (N2 w Hv); left).
      by apply (proj1 (Forall_forall _ _) H1).
    + apply Forall_singleton. by rewrite lookup_insert_eq.
  - apply Forall_forall. intros v Hv. rewrite lookup_insert_ne by (by intros <-).
    by apply (proj1 (Forall_forall _ _) H2).
Qed.

Lemma getWorkers_take n l : NoDup l -> (n <= length l)%nat -> getWorkers n l = take n l.
Proof.
  intros Hnd Hn. apply (choose_in_turn n [] l); [done|done|done|]. apply Forall_forall. intros w _. by rewrite lookup_empty.
Qed.

(** ** The files of the partitioner *)

Section written.
Context {FB : FlatBuffers} {GZ : Gzip} (p : MetisPartitioner) (partMap : gmap Z Z).
Abbreviation g := (mp_graphID p).
Abbreviation path := (at_path (outputFilePath p) g).

Lemma write_store_lookup m q (fs : files) r : write_store m q fs !! r =
  if decide (r = q +:+ ".gz") then Some (gzip (store_bytes m)) else if decide (r = q) then None else fs !! r.
Proof.
  unfold write_store, compressFile. rewrite stored_part. cbn [snd]. rewrite lookup_insert_eq.
  case_decide as H1; [subst; by rewrite lookup_insert_eq|]. rewrite lookup_insert_ne by done.
  case_decide as H2; [subst; by rewrite lookup_delete_eq|]. by rewrite lookup_delete_ne, lookup_insert_ne by done.
Qed.

Definition stores_by (kind : string) (i : Z) : edge_map :=
  let st := partition_stores p partMap i in
  if decide (kind = "_") then st_local st else if decide (kind = "_centralstore_") then st_central st else st_duplicate st.

Lemma gz_inj q r : q +:+ ".gz" = r +:+ ".gz" -> q = r.
Proof. intros E%(f_equal chars). rewrite !chars_app in E. by apply app_inv_tail, chars_inj in E. Qed.

Lemma write_store_gz kind i kind' j (fs : files) : kind ∈ kinds -> kind' ∈ kinds ->
  write_store (stores_by kind i) (path kind i) fs !! (path kind' j +:+ ".gz") =
    if decide (kind = kind' /\ i = j) then Some (gzip (store_bytes (stores_by kind' j)))
    else fs !! (path kind' j +:+ ".gz").
Proof.
  intros Hk Hk'. rewrite write_store_lookup. case_decide as H1.
  - apply gz_inj, at_path_inj in H1 as (_ & <- & <-); [|done..]. by rewrite decide_True by done.
  - rewrite decide_False by (intros E; symmetry in E; revert E; by apply at_path_gz).
    rewrite decide_False; [done|]. intros [-> ->]. done.
Qed.

Definition write_partition (fs : files) (part : Z) : files :=
  writeSerializedDuplicateMasterFiles p partMap part
    (writeSerializedMasterFiles p partMap part (writeSerializedPartitionFiles p partMap part fs)).

Lemma write_partition_gz fs i kind j : kind ∈ kinds ->
  write_partition fs i !! (path kind j +:+ ".gz") =
    if decide (i = j) then Some (gzip (store_bytes (stores_by kind j))) else fs !! (path kind j +:+ ".gz").
Proof.
  intros Hk. assert ("_" ∈ kinds /\ "_centralstore_" ∈ kinds /\ "_centralstore_dp_" ∈ kinds) as (K1 & K2 & K3)
    by (split_and!; by apply (bool_decide_unpack _); vm_compute).
  unfold write_partition, writeSerializedDuplicateMasterFiles, writeSerializedMasterFiles, writeSerializedPartitionFiles.
  change (duplicate_store p partMap i) with (stores_by "_centralstore_dp_" i).
  change (partMasterEdgesSet (populatePartMaps p partMap i)) with (stores_by "_centralstore_" i).
  change (partEdgesSet (populatePartMaps p partMap i)) with (stores_by "_" i).
  change (store_path p ?k (show_long i)) with (path k i).
  rewrite (write_store_gz "_centralstore_dp_"), (write_store_gz "_centralstore_"), (write_store_gz "_") by done.
  destruct (decide (i = j)) as [->|Hne].
  - repeat (case_decide; [done|]). exfalso. unfold kinds in Hk. rewrite !elem_of_cons, elem_of_nil in Hk. naive_solver.
  - by rewrite !decide_False by tauto.
Qed.

Lemma write_partitions_gz l kind j : kind ∈ kinds -> j ∈ l -> forall fs,
  foldl write_partition fs l !! (path kind j +:+ ".gz") = Some (gzip (store_bytes (stores_by kind j))).
Proof.
  intros Hk. induction l as [|i l IH] using rev_ind; intros Hj fs; [by apply not_elem_of_nil in Hj|].
  rewrite foldl_snoc, write_partition_gz by done. case_decide; [done|]. apply IH.
  apply elem_of_app in Hj as [Hj| ->%list_elem_of_singleton]; done.
Qed.

Lemma createPartitionFiles_gz fs kind i : nParts p <= COMPOSITE_CENTRAL_STORE_WORKER_THRESHOLD -> kind ∈ kinds ->
  i ∈ parts p ->
  metis_createPartitionFiles p partMap fs !! (path kind i +:+ ".gz") = Some (gzip (store_bytes (stores_by kind i))).
Proof.
  intros Hn Hk Hi. unfold metis_createPartitionFiles, composite_stores.
  destruct (Z.ltb_spec COMPOSITE_CENTRAL_STORE_WORKER_THRESHOLD (nParts p)); [lia|]. cbn [foldl].
  by apply write_partitions_gz.
Qed.
End written.

(** ** One file on a worker *)

Section put.
Context {FB : FlatBuffers} {GZ : Gzip} (g : Z).

Definition put (kind : string) (i : Z) (d : list ascii) (batch_upload : bool) (w : worker) : worker :=
  unpacked g (store_name g kind i) batch_upload (write_file (at_path (dataFolder w) g kind i +:+ ".gz") (gzip d) w).

Lemma not_catalog d n d' : "x"%char ∉ chars n -> "/"%char ∉ chars n -> d +:+ "/" +:+ n <> d' +:+ "/catalog.txt".
Proof.
  intros Hx Hs E. change (d' +:+ "/catalog.txt") with (d' +:+ "/" +:+ "catalog.txt") in E.
  apply path_inj in E as [_ ->]; [|done|by apply (bool_decide_unpack _); vm_compute].
  apply Hx. by apply (bool_decide_unpack _); vm_compute.
Qed.

Lemma store_not_catalog kind i d d' : kind ∈ kinds ->
  at_path d g kind i <> d' +:+ "/catalog.txt" /\ at_path d g kind i +:+ ".gz" <> d' +:+ "/catalog.txt".
Proof.
  intros Hk. assert ("x"%char ∉ chars (store_name g kind i)) by (by apply store_name_avoids; [apply foreign_x|]).
  split; [apply not_catalog; [done|by apply no_slash]|].
  rewrite <- gz_path. apply not_catalog; [|by apply no_slash_gz]. rewrite chars_app, not_elem_of_app.
  split; [done|]. by apply (bool_decide_unpack _); vm_compute.
Qed.

Lemma put_data kind i d b w : dataFolder (put kind i d b w) = dataFolder w.
Proof. by destruct b. Qed.
Lemma put_aggregate kind i d b w : aggregatorDirPath (put kind i d b w) = aggregatorDirPath w.
Proof. by destruct b. Qed.

(** The files after it, except for the catalogue. *)
Lemma put_files kind i d b w r : r <> dataFolder w +:+ "/catalog.txt" ->
  disk_files (put kind i d b w) !! r =
    if decide (r = at_path (dataFolder w) g kind i) then Some d
    else if decide (r = at_path (dataFolder w) g kind i +:+ ".gz") then None else disk_files w !! r.
Proof.
  intros Hr. set (P := at_path (dataFolder w) g kind i).
  assert (disk_files (put kind i d b w) !! r =
    unzipFile (P +:+ ".gz") (disk_files (write_file (P +:+ ".gz") (gzip d) w)) !! r) as ->.
  { unfold put, unpacked. rewrite gz_path. fold P. destruct b; [|done].
    unfold catalogued, append_file, write_file at 1. cbn [disk_files]. by rewrite lookup_insert_ne by (cbn; congruence). }
  rewrite (unzip_run _ d) by apply lookup_insert_eq.
  case_decide as H1; [subst; by rewrite lookup_insert_eq|]. rewrite lookup_insert_ne by done.
  case_decide as H2; [subst; by rewrite lookup_delete_eq|]. rewrite lookup_delete_ne by done. by apply lookup_insert_ne.
Qed.

Lemma put_lookup kind i d b w F kind' j : kind ∈ kinds -> kind' ∈ kinds ->
  disk_files (put kind i d b w) !! at_path F g kind' j =
    if decide (F = dataFolder w /\ kind' = kind /\ j = i) then Some d else disk_files w !! at_path F g kind' j.
Proof.
  intros Hk Hk'. rewrite put_files by (by apply store_not_catalog).
  case_decide as H1; [apply at_path_inj in H1; [by rewrite decide_True|done..]|].
  rewrite decide_False by (by apply at_path_gz). rewrite decide_False; [done|]. by intros (-> & -> & ->).
Qed.

Lemma put_gz kind i d b w F kind' j : kind ∈ kinds -> kind' ∈ kinds ->
  disk_files w !! (at_path F g kind' j +:+ ".gz") = None ->
  disk_files (put kind i d b w) !! (at_path F g kind' j +:+ ".gz") = None.
Proof.
  intros Hk Hk' H. rewrite put_files by (by apply store_not_catalog).
  rewrite decide_False by (intros E; symmetry in E; revert E; by apply at_path_gz). by case_decide.
Qed.

Lemma call_upload_run h w ws out kind i d b : kind ∈ kinds ->
  cluster h !! w = Some ws -> disk_files ws !! (at_path (dataFolder ws) g kind i +:+ ".gz") = None ->
  master_files h !! (at_path out g kind i +:+ ".gz") = Some (gzip d) -> Z.of_nat (length (gzip d)) < 2147483648 ->
  call_upload g w (at_path out g kind i +:+ ".gz") b h = (Ret true, set_host w (put kind i d b ws) h).
Proof.
  intros Hk Hw Hn Hm Hl. unfold call_upload. rewrite Hw.
  assert (getFileName (at_path out g kind i +:+ ".gz") = store_name g kind i +:+ ".gz") as ->
    by (rewrite <- gz_path; by apply getFileName_app, no_slash_gz).
  rewrite strip_gz_app, gz_path. unfold file_exists. rewrite Hn, bool_decide_false by (by intros []).
  rewrite Hm. destruct (Z.ltb_spec (Z.of_nat (length (gzip d))) 2147483648); [|lia]. by rewrite gunzip_gzip.
Qed.

(** A worker that has nothing of the graph. *)
Record fresh (w : worker) : Prop := {
  fr_memory : graphDBMapLocalStores w = ∅ /\ graphDBMapCentralStores w = ∅ /\ graphDBMapDuplicateCentralStores w = ∅;
  fr_clear : forall kind i, kind ∈ kinds -> disk_files w !! (at_path (dataFolder w) g kind i +:+ ".gz") = None;
  fr_copies : forall i, disk_files w !! at_path (aggregatorDirPath w) g "_centralstore_" i = None
}.

Definition put_all (st : stores) (i : Z) (w : worker) : worker :=
  put "_centralstore_dp_" i (store_bytes (st_duplicate st)) false
    (put "_centralstore_" i (store_bytes (st_central st)) false (put "_" i (store_bytes (st_local st)) true w)).

(** What a file must be to be read back. *)
Definition fits (m : edge_map) : Prop :=
  i32_map m /\ Z.of_nat (length (store_bytes m)) < 2147483648 /\
  Z.of_nat (length (gzip (store_bytes m))) < 2147483648.
Definition stores_fit (st : stores) : Prop := fits (st_local st) /\ fits (st_central st) /\ fits (st_duplicate st).

Lemma kinds_all : "_" ∈ kinds /\ "_centralstore_" ∈ kinds /\ "_centralstore_dp_" ∈ kinds.
Proof. split_and!; by apply (bool_decide_unpack _); vm_compute. Qed.

Lemma put_all_ready of_part parts i w : fresh w -> stores_fit (of_part i) ->
  worker_ready g of_part parts [i] (put_all (of_part i) i w).
Proof.
  intros [F C A] (L & Ce & Du). destruct kinds_all as (K1 & K2 & K3).
  assert (forall m, fits m -> i32_map m /\ Z.of_nat (length (part_write (entries m))) < 2147483648) as Hf
    by (intros m (? & ? & _); by split).
  split.
  - exact F.
  - intros j ->%list_elem_of_singleton. unfold put_all.
    split_and!; (split; [|by apply Hf]); rewrite !put_lookup, !put_data by done; repeat case_decide; naive_solver.
  - intros j _. unfold put_all. rewrite !put_data. do 3 (apply put_gz; [done|done|]). by apply C.
  - intros j d _. unfold put_all. rewrite !put_lookup, !put_aggregate, !put_data by done.
    rewrite (decide_False (P := _ /\ "_centralstore_" = "_centralstore_dp_" /\ _)) by naive_solver.
    case_decide as Hd; [destruct Hd as (_ & _ & ->); by intros [= <-]|].
    rewrite decide_False by naive_solver. by rewrite A.
Qed.
End put.

(** ** All files on their workers *)

Section deployment.
Context {FB : FlatBuffers} {GZ : Gzip} (p : MetisPartitioner) (partMap : gmap Z Z).
Abbreviation g := (mp_graphID p).
Abbreviation of_part := (partition_stores p partMap).
Abbreviation out := (outputFilePath p).
Abbreviation bytes := (fun kind i => store_bytes (stores_by p partMap kind i)).
Abbreviation files_of := (fun i => (partition_file p i, centralstore_file p i, duplicate_file p i)).

(** A folder of the master has the compressed store. *)
Definition has_gz (h : hosts) (folder kind : string) (i : Z) : Prop :=
  master_files h !! (at_path folder g kind i +:+ ".gz") = Some (gzip (bytes kind i)).

Definition set_master (fs : files) (h : hosts) : hosts := mkHosts (cluster h) fs (master_aggregate h).

Lemma copy_location_run h i : has_gz h out "_centralstore_" i ->
  exists fs, copyCentralStoreToAggregateLocation (centralstore_file p i) h = (Ret tt, set_master fs h) /\
    has_gz (set_master fs h) (master_aggregate h) "_centralstore_" i /\
    forall folder kind j, kind ∈ kinds -> has_gz h folder kind j -> has_gz (set_master fs h) folder kind j.
Proof.
  intros H. destruct kinds_all as (_ & K2 & _).
  exists (<[at_path (master_aggregate h) g "_centralstore_" i +:+ ".gz" := gzip (bytes "_centralstore_" i)]> (master_files h)).
  split; [|split].
  - unfold copyCentralStoreToAggregateLocation, modify, set_master, copyToDirectory. unfold has_gz in H.
    change (centralstore_file p i) with (at_path out g "_centralstore_" i +:+ ".gz"). rewrite H.
    rewrite <- (gz_path g out), getFileName_app by (by apply no_slash_gz). by rewrite gz_path.
  - unfold has_gz. cbn [master_files set_master]. by rewrite lookup_insert_eq.
  - intros folder kind j Hk Hj. unfold has_gz in *. cbn [master_files set_master].
    destruct (decide (at_path (master_aggregate h) g "_centralstore_" i = at_path folder g kind j)) as [E|Hne].
    + rewrite E, lookup_insert_eq. by apply at_path_inj in E as (_ & <- & <-).
    + rewrite lookup_insert_ne; [done|]. by intros ?%gz_inj.
Qed.

Lemma assign_run i w : assignPartitionToWorker (partition_file p i) w = (w, show_long i).
Proof.
  unfold assignPartitionToWorker, partition_file. rewrite rawFileName_gz. unfold store_path. f_equal.
  rewrite <- string_app_assoc, <- string_app_assoc. apply after_last_app. by apply show_long_avoids.
Qed.

(** One partition: its three files on the worker, the central store on the
    master. *)
Lemma upload_partition h w ws i rest wl t : let next := ((t + 1) mod length wl)%nat in
  wl !! t = Some w -> cluster h !! w = Some ws -> fresh g ws -> stores_fit (of_part i) ->
  (forall kind, kind ∈ kinds -> has_gz h out kind i) ->
  exists fs,
    let h' := set_host w (put_all g (of_part i) i ws) (set_master fs h) in
    upload_files g (files_of i :: rest) wl t h =
      (rows ← upload_files g rest wl next; mret ((w, show_long i) :: rows)) h' /\
    has_gz h' (master_aggregate h) "_centralstore_" i /\
    forall folder kind j, kind ∈ kinds -> has_gz h folder kind j -> has_gz h' folder kind j.
Proof.
  intros next Ht Hw [F C A] ((_ & _ & L) & (_ & _ & Ce) & (_ & _ & Du)) Hgz. destruct kinds_all as (K1 & K2 & K3).
  set (w1 := put g "_" i (bytes "_" i) true ws). set (h1 := set_host w w1 h).
  assert (has_gz h1 out "_centralstore_" i) as H1 by exact (Hgz _ K2).
  destruct (copy_location_run h1 i H1) as (fs & R2 & Hagg & Hkeep). exists fs. set (h2 := set_master fs h1).
  set (w3 := put g "_centralstore_" i (bytes "_centralstore_" i) false w1). set (h3 := set_host w w3 h2).
  assert (R1 : call_upload g w (partition_file p i) true h = (Ret true, h1)).
  { apply call_upload_run; [done|done|by apply C|exact (Hgz _ K1)|exact L]. }
  assert (R3 : call_upload g w (centralstore_file p i) false h2 = (Ret true, h3)).
  { apply call_upload_run; [done| | |exact (Hkeep _ _ _ K2 H1)|exact Ce].
    - unfold h2, h1. cbn. apply lookup_insert_eq.
    - unfold w1. rewrite put_data. apply put_gz; [done|done|]. by apply C. }
  assert (R4 : call_upload g w (duplicate_file p i) false h3 =
    (Ret true, set_host w (put g "_centralstore_dp_" i (bytes "_centralstore_dp_" i) false w3) h3)).
  { apply call_upload_run; [done| | |exact (Hkeep _ _ _ K3 (Hgz _ K3))|exact Du].
    - unfold h3. cbn. apply lookup_insert_eq.
    - unfold w3, w1. rewrite !put_data. do 2 (apply put_gz; [done|done|]). by apply C. }
  split; [|split; [exact Hagg|exact Hkeep]].
  cbn [upload_files]. rewrite Ht. rewrite (bind_Ret _ _ _ _ _ R1), (bind_Ret _ _ _ _ _ R2), (bind_Ret _ _ _ _ _ R3), (bind_Ret _ _ _ _ _ R4).
  rewrite assign_run. unfold h3, h2, h1, set_host, set_master. cbn [cluster master_files master_aggregate].
  by rewrite !insert_insert_eq.
Qed.

(** What the upload leaves: every partition on its worker, its central store
    on the master. *)
Lemma upload_files_run wl ps : forall t wl1 wl2 h,
  wl = wl1 ++ wl2 -> t = length wl1 -> length wl2 = length ps -> NoDup wl2 ->
  Forall (fun w => exists ws, cluster h !! w = Some ws /\ fresh g ws) wl2 ->
  Forall (fun i => stores_fit (of_part i) /\ forall kind, kind ∈ kinds -> has_gz h out kind i) ps ->
  exists h', upload_files g (files_of <$> ps) wl t h = (Ret (zip wl2 (show_long <$> ps)), h') /\
    Forall2 (fun w i => exists ws, cluster h' !! w = Some ws /\
      worker_ready g of_part (parts p) [i] ws) wl2 ps /\
    (forall w, w ∉ wl2 -> cluster h' !! w = cluster h !! w) /\ master_aggregate h' = master_aggregate h /\
    Forall (has_gz h' (master_aggregate h) "_centralstore_") ps /\
    forall folder kind j, kind ∈ kinds -> has_gz h folder kind j -> has_gz h' folder kind j.
Proof.
  induction ps as [|i ps IH]; intros t wl1 wl2 h Ewl Et Hlen Hnd Hw Hi.
  { apply nil_length_inv in Hlen as ->. exists h. split_and!; try done; constructor. }
  destruct wl2 as [|w wl2]; [done|]. apply NoDup_cons in Hnd as [Hnw Hnd].
  apply Forall_cons in Hw as [(ws & Hws & Hf) Hw]. apply Forall_cons in Hi as [[Hfit Hgz] Hi].
  destruct (upload_partition h w ws i (files_of <$> ps) wl t) as (fs & R & Hagg & Hkeep); [|done..|].
  { rewrite Ewl, Et. by apply list_lookup_middle. }
  set (h1 := set_host w (put_all g (of_part i) i ws) (set_master fs h)) in *.
  assert (exists h', upload_files g (files_of <$> ps) wl ((t + 1) mod length wl)%nat h1 =
      (Ret (zip wl2 (show_long <$> ps)), h') /\
    Forall2 (fun w i => exists ws, cluster h' !! w = Some ws /\ worker_ready g of_part (parts p) [i] ws) wl2 ps /\
    (forall w, w ∉ wl2 -> cluster h' !! w = cluster h1 !! w) /\ master_aggregate h' = master_aggregate h1 /\
    Forall (has_gz h' (master_aggregate h1) "_centralstore_") ps /\
    forall folder kind j, kind ∈ kinds -> has_gz h1 folder kind j -> has_gz h' folder kind j)
    as (h' & R' & Hr' & Hc' & Ha' & Hm' & Hk').
  { destruct ps as [|i2 ps].
    { injection Hlen as ->%nil_length_inv. exists h1. split_and!; try done; constructor. }
    assert ((t + 1) mod length wl = t + 1)%nat as ->.
    { apply Nat.mod_small. rewrite Ewl, length_app. cbn in *. lia. }
    apply (IH (t + 1)%nat (wl1 ++ [w])).
    - by rewrite <- app_assoc.
    - rewrite length_app. cbn. lia.
    - cbn in *. lia.
    - done.
    - apply Forall_forall. intros v Hv. destruct (proj1 (Forall_forall _ _) Hw v Hv) as (vs & Hvs & Hfv).
      exists vs. unfold h1. rewrite set_host_lookup, decide_False by (by intros <-). by split.
    - eapply Forall_impl; [exact Hi|]. cbv beta. intros j [Hj1 Hj2]. split; [done|]. intros kind Hk. by apply Hkeep, Hj2. }
  destruct kinds_all as (_ & K2 & _).
  exists h'. cbn [fmap list_fmap zip]. split_and!.
  - cbn [fmap list_fmap] in R. rewrite R. by rewrite (bind_Ret _ _ _ _ _ R').
  - constructor; [|done]. exists (put_all g (of_part i) i ws). rewrite Hc' by done. unfold h1.
    rewrite set_host_lookup, decide_True by done. split; [done|]. by apply put_all_ready.
  - intros v [Hv1 Hv2]%not_elem_of_cons. rewrite Hc' by done. unfold h1. by rewrite set_host_lookup, decide_False by congruence.
  - exact Ha'.
  - constructor; [|exact Hm']. by apply Hk'.
  - intros folder kind j Hk Hj. by apply Hk', Hkeep.
Qed.
End deployment.

(** ** The rows of the database *)

Lemma add_rows_lookup (rows : list (string * string)) : NoDup (rows.*1) -> forall m,
  (forall w, w ∈ rows.*1 -> m !! w = None) -> forall w,
  foldl add_row m rows !! w =
    match (list_to_map rows : gmap string string) !! w with Some q => Some [q] | None => m !! w end.
Proof.
  induction rows as [|[w0 q0] rows IH]; intros Hnd m Hm w; [done|]. cbn [foldl fmap list_fmap fst] in *.
  apply NoDup_cons in Hnd as [Hw0 Hnd].
  assert (add_row m (w0, q0) = <[w0 := [q0]]> m) as -> by (unfold add_row; cbn; rewrite Hm by left; done).
  rewrite IH; [|done|].
  - cbn [list_to_map foldr fst snd]. destruct (decide (w = w0)) as [->|Hne].
    + rewrite (not_elem_of_list_to_map_1 _ w0) by done. by rewrite !lookup_insert_eq.
    + by rewrite !lookup_insert_ne by done.
  - intros v Hv. rewrite lookup_insert_ne by (by intros <-). apply Hm. by right.
Qed.

Section rows.
Context (rows : list (string * string)) (Hnd : NoDup (rows.*1)).
Abbreviation pm := (foldl add_row ∅ rows).

Lemma rows_lookup w qs : pm !! w = Some qs <-> exists q, (w, q) ∈ rows /\ qs = [q].
Proof.
  rewrite add_rows_lookup by (done || (intros; apply lookup_empty)). rewrite lookup_empty. split.
  - destruct (list_to_map rows !! w) as [q|] eqn:E; [|done]. intros [= <-]. exists q. split; [|done].
    by apply elem_of_list_to_map_2.
  - intros (q & Hq & ->). by rewrite (elem_of_list_to_map_1 rows w q Hnd Hq).
Qed.

Lemma rows_dom w : w ∈ dom pm <-> w ∈ rows.*1.
Proof.
  rewrite elem_of_dom. split.
  - intros [qs (q & Hq & _)%rows_lookup]. by apply (list_elem_of_fmap_2 fst) in Hq.
  - intros ([w' q] & -> & Hq)%list_elem_of_fmap. exists [q]. apply rows_lookup. by exists q.
Qed.

Lemma rows_partitions : partitionsVector pm ≡ₚ rows.*2.
Proof.
  rewrite <- (tasks_partitions pm (rows.*1) Hnd) by (intros w; apply rows_dom).
  assert (forall l, (forall r, r ∈ l -> r ∈ rows) -> (tasks (l.*1) pm).*2 = l.*2) as H; [|by rewrite H].
  intros l. rewrite tasks_join. induction l as [|[w q] l IH]; intros Hl; [done|]. cbn [fmap list_fmap fst snd].
  change (mjoin (?a :: ?b)) with (a ++ mjoin b). rewrite IH by (intros r Hr; apply Hl; by right).
  unfold parts_at. rewrite (proj2 (rows_lookup w [q])); [done|]. exists q. split; [apply Hl; left|done].
Qed.
End rows.

Section uploaded.
Context {FB : FlatBuffers} {GZ : Gzip} (p : MetisPartitioner) (partMap : gmap Z Z).

(** What is needed of a cluster to take a graph: enough workers, without
    anything of the graph. *)
Record can_take (hostWorkerList : list string) (h : hosts) : Prop := {
  ct_workers : NoDup hostWorkerList;
  ct_enough : nParts p <= Z.of_nat (length hostWorkerList);
  ct_fresh : Forall (fun w => exists ws, cluster h !! w = Some ws /\ fresh (mp_graphID p) ws) hostWorkerList
}.

Lemma upload_run hostWorkerList h :
  can_take hostWorkerList h -> Forall (fun i => stores_fit (partition_stores p partMap i)) (parts p) ->
  (forall kind i, kind ∈ kinds -> i ∈ parts p -> has_gz p partMap h (outputFilePath p) kind i) ->
  exists rows h', uploadGraphLocally (mp_graphID p) (fullFileList p) hostWorkerList h = (Ret rows, h') /\
    hosts_ready p partMap (mp_graphID p) (foldl add_row ∅ rows) h' /\
    partitionsVector (foldl add_row ∅ rows) ≡ₚ show_long <$> parts p /\
    forall w, w ∈ dom (foldl add_row ∅ rows) -> w ∈ hostWorkerList.
Proof.
  intros [Hnd Hn Hf] Hfit Hgz. set (wl := take (length (parts p)) hostWorkerList).
  assert (length (parts p) = Z.to_nat (nParts p)) as Hlp by (unfold parts; by rewrite length_seqZ).
  assert (length wl = length (parts p)) as Hlen by (unfold wl; rewrite length_take; lia).
  assert (NoDup wl) as Hndw by (eapply sublist_NoDup; [exact Hnd|apply sublist_take]).
  destruct (upload_files_run p partMap wl (parts p) 0 [] wl h) as (h' & R & Hr & _ & Ha & Hm & _); [done..| | |].
  { by apply Forall_take. }
  { apply Forall_forall. intros i Hi. split; [by apply (proj1 (Forall_forall _ _) Hfit)|]. intros kind Hk. by apply Hgz. }
  set (rows := zip wl (show_long <$> parts p)) in *.
  assert (rows.*1 = wl /\ rows.*2 = show_long <$> parts p) as [R1 R2].
  { unfold rows. split; [apply fst_zip|apply snd_zip]; rewrite length_fmap; lia. }
  assert (NoDup (rows.*1)) as Hndr by (by rewrite R1).
  exists rows, h'. split_and!.
  - unfold uploadGraphLocally, fullFileList. rewrite length_fmap, getWorkers_take; [exact R|done|lia].
  - split.
    + intros i Hi. rewrite Ha. split; [exact (proj1 (Forall_forall _ _) Hm i Hi)|].
      apply (proj1 (Forall_forall _ _) Hfit) in Hi as (_ & (_ & _ & ?) & _). done.
    + intros w qs (q & Hq & ->)%rows_lookup; [|done]. unfold rows in Hq.
      apply list_elem_of_lookup in Hq as [k Hk]. apply lookup_zip_Some in Hk as [Hkw Hkq].
      rewrite list_lookup_fmap in Hkq. apply fmap_Some in Hkq as (i & Hki & ->).
      destruct (Forall2_lookup_lr _ _ _ _ _ _ Hr Hkw Hki) as (ws & Hws & Hready). by exists ws, i.
  - rewrite rows_partitions by done. by rewrite R2.
  - intros w Hw%rows_dom; [|done]. rewrite R1 in Hw. unfold wl in Hw. eapply elem_of_submseteq; [exact Hw|].
    apply sublist_submseteq, sublist_take.
Qed.
End uploaded.

(** ** From the graph to the answer *)

Section answer.
Context {FB : FlatBuffers} {GZ : Gzip} (iter : gset Z -> list Z) (garbage : Z) (traceContext : string).
Context (call_composite : string -> string -> M hosts Z).
Context (p : MetisPartitioner) (partMap : gmap Z Z) (home : Z -> Z).
Context (hostWorkerList workerList : list string) (workers : gset string) (h : hosts).
Abbreviation g := (mp_graphID p).

(** A partitioned graph and a cluster that can take it; the executor asks the
    same workers. *)
Record deployable : Prop := {
  da_names : NoDup (actual p <$> (entries (graphEdgeMap p)).*1);
  da_home : forall u v, v ∈ at_key (graphEdgeMap p) u ->
    home (actual p u) = part_of partMap u /\ home (actual p v) = part_of partMap v;
  da_range : 1 < nParts p <= COMPOSITE_CENTRAL_STORE_WORKER_THRESHOLD /\ (forall v, 0 <= home v < nParts p) /\ is_i32 g;
  da_fits : Forall (fun i => stores_fit (partition_stores p partMap i)) (parts p);
  da_cluster : can_take p hostWorkerList h;
  da_workers : NoDup workerList /\ forall w, w ∈ hostWorkerList -> w ∈ workerList /\ w ∈ workers
}.

(** The files are written, uploaded, and the triangles counted. *)
Definition upload_and_count : M hosts Z :=
  _ ← modify (fun h => mkHosts (cluster h) (metis_createPartitionFiles p partMap (master_files h)) (master_aggregate h));
  rows ← uploadGraphLocally g (fullFileList p) hostWorkerList;
  execute (worker_calls iter garbage (show_long g) traceContext call_composite) workers workerList rows.

Lemma upload_and_count_run :
  (forall X, iter X ≡ₚ elements X) -> traceContext <> "" -> apexed (edges_of p) -> deployable ->
  exists (T : gset triple) h', upload_and_count h = (Ret (Z.of_nat (size T)), h') /\ forall x, x ∈ T <-> tri (edges_of p) x.
Proof.
  intros Hi Ht HE [Hnames Hhome (Hn & Hrange & Hg) Hfits [C1 C2 C3] [W1 W2]].
  set (h1 := mkHosts (cluster h) (metis_createPartitionFiles p partMap (master_files h)) (master_aggregate h)).
  destruct (upload_run p partMap hostWorkerList h1) as (rows & h2 & R & Hready & HP & Hw).
  { by split. }
  { done. }
  { intros kind i Hk Hin. unfold has_gz. cbn [master_files h1]. apply createPartitionFiles_gz; [lia|done|done]. }
  assert (deployed p partMap home g workers workerList (foldl add_row ∅ rows)) as D.
  { split; [done|done| | |done].
    - split_and!; [lia| |apply Hrange|done]. etransitivity; [apply Hn|done].
    - split; [done|]. intros w Hd. by apply W2, Hw. }
  assert (Z.of_nat (length rows) <= COMPOSITE_CENTRAL_STORE_WORKER_THRESHOLD) as Hrows
    by (rewrite (deployed_rows _ _ _ _ _ _ _ D); lia).
  destruct (master_counts _ _ _ _ _ _ _ _ _ h2 Hrows
    (deployed_cluster iter Hi garbage traceContext Ht call_composite p partMap home g workers workerList _ D HE) Hready)
    as (T & h3 & RT & _ & HT).
  exists T, h3. split; [|done]. unfold upload_and_count. rewrite (bind_Ret _ _ _ tt h1) by done.
  by rewrite (bind_Ret _ _ _ _ _ R).
Qed.
End answer.

(** ** From the text of the edge list *)

Lemma actual_normal p v : graphType p <> GRAPH_TYPE_NORMAL_REFORMATTED -> actual p v = v.
Proof. intros H. unfold actual. by rewrite decide_False. Qed.

Lemma edges_of_loaded es p x y :
  loaded es p -> graphType p <> GRAPH_TYPE_NORMAL_REFORMATTED -> edges_of p x y <-> (x, y) ∈ es.
Proof.
  intros L Ht. unfold edges_of. setoid_rewrite (ld_edges _ _ L). setoid_rewrite (actual_normal p _ Ht). split.
  - intros (u & v & Hv & -> & ->). apply list_elem_of_fmap in Hv as ([u' v'] & -> & Hv).
    by apply list_elem_of_filter in Hv as [<- Hv].
  - intros H. exists x, y. split; [|done]. apply list_elem_of_fmap. exists (x, y).
    by rewrite list_elem_of_filter.
Qed.

Lemma loaded_set_type es t p : loaded es p -> loaded es (set_type t p).
Proof. intros []. by split. Qed.

(** C4. From the text to the answer: an edge list read by [loadDataSet], split by
    any partition index into two to four partitions, written by
    [createPartitionFiles], uploaded by [uploadGraphLocally] to workers that
    have nothing of the graph, a worker for each partition, and counted by
    [execute] with a trace context that is not empty gives the number of
    triangles of the edges in the text, when every triangle has a vertex with
    edges to both others.  (With one partition, or without a trace context, the
    aggregation never returns.) *)
Theorem edge_list_triangles {FB : FlatBuffers} {GZ : Gzip} iter garbage traceContext call_composite homeDir d es n graphId t
    partMap home hostWorkerList workerList workers h :
  is_splitter d -> Forall (fun e => is_i32 e.1 /\ is_i32 e.2) es -> t <> GRAPH_TYPE_NORMAL_REFORMATTED ->
  (forall X, iter X ≡ₚ elements X) -> traceContext <> "" ->
  apexed (fun x y => (x, y) ∈ es) ->
  let p := set_type t (loadDataSet homeDir (edge_line d <$> es) graphId (newMetisPartitioner n)).2 in
  deployable p partMap home hostWorkerList workerList workers h ->
  exists (T : gset triple) h',
    upload_and_count iter garbage traceContext call_composite p partMap hostWorkerList workerList workers h =
      (Ret (Z.of_nat (size T)), h') /\
    forall x, x ∈ T <-> tri (fun x y => (x, y) ∈ es) x.
Proof.
  intros Hd Hes Ht Hi Htr HE p D. destruct (loadDataSet_run homeDir d es graphId n Hd Hes) as (p0 & R & L & _).
  unfold p in *. rewrite R in *. cbn [snd] in *.
  assert (forall x y, edges_of (set_type t p0) x y <-> (x, y) ∈ es) as He.
  { intros x y. apply edges_of_loaded; [by apply loaded_set_type|done]. }
  assert (apexed (edges_of (set_type t p0))) as HE' by (eapply apexed_ext; [|exact HE]; intros x y; by rewrite He).
  destruct (upload_and_count_run iter garbage traceContext call_composite _ _ _ _ _ _ _ Hi Htr HE' D) as (T & h' & RT & HT).
  exists T, h'. split; [exact RT|]. intros x. rewrite HT. by apply tri_ext.
Qed.
