(* ===== verification/Calls.v ===== *)
(** * Calls: what the sessions of the master end with

    The calls of Cluster and Deployment run a handler on the state of a
    worker.  Here the two programs of each call, the one of the master and the
    session of the worker, are put on a connection: every interleaving of
    their steps, with the file transfer as slow as it likes, ends, with the
    result and the files the call has.  And where a call never returns, the
    two programs wait for each other. *)
From Stdlib Require Import ZArith Ascii String Lia.
From stdpp Require Import base tactics numbers list sorting strings gmap.
From S2P Require Import Prelude Triangles HashMapStores Shell HashMapTheory StaticTriangles StaticTheory.
From S2P Require Import TriangleExecutor ExecutorTheory Sessions WorkerSessions.
From S2P Require Import FileTransfer Uploads Metis Cluster Deployment.

(** The worker [w] of [h] is in the state [s], between two sessions. *)
Definition at_rest (h : hosts) (w : string) (s : service) : Prop :=
  cluster h !! w = Some (sv_worker s) /\ incoming s = None.

(** The session ends with [a] and leaves the files that [h'] has. *)
Definition ends_as {A} (a : A) (h' : hosts) (w : string) (s : service) (x : conn service A unit) : Prop :=
  client x = Fin (Ret a) /\ server x = Fin (Ret tt) /\
  cluster h' !! w = Some (forked (sv_worker s) (sv_worker (world x))).

Section calls.
Context {FB : FlatBuffers} {GZ : Gzip} (iter : gset Z -> list Z) (garbage : Z).
Context (other : string -> option (proc service bool)).
Context (masterIP : string) (Hip : clean masterIP) (h : hosts) (w : string) (s : service) (Hrest : at_rest h w s).

Lemma remote_ends {A} (c : M worker A) a h' :
  remote w c h = (Ret a, h') ->
  exists ws', c (sv_worker s) = (Ret a, ws') /\ cluster h' !! w = Some (forked (sv_worker s) ws').
Proof.
  destruct Hrest as [Hw _]. unfold remote. rewrite Hw. destruct (c (sv_worker s)) as [o ws'] eqn:E.
  intros [= -> <-]. exists ws'. split; [done|]. rewrite set_host_lookup. by rewrite decide_True.
Qed.

(** A local count, as a session: whatever the interleaving, [getTriangleCount]
    and the worker come to an end, the caller with the count. *)
Theorem triangle_call graphId partitionId pr tr fuel n h' :
  is_i32 graphId -> is_i32 partitionId -> is_i32 pr -> is_i64 n -> tr = "" \/ clean tr ->
  call_local iter garbage (show_long graphId) w (show_long partitionId) h = (Ret n, h') ->
  must (ends_as n h' w s)
    (mkConn (getTriangleCount graphId partitionId masterIP pr tr) (serve iter garbage other (3 + fuel)) s [] []).
Proof.
  intros Hg Hp Hpr Hn Htr (ws' & Hc & Hh)%remote_ends.
  eapply must_mono; [by apply triangle_session with (n := n) (w' := ws')|].
  intros x (H1 & H2 & H3). split_and!; [done|done|]. by rewrite H3.
Qed.

(** C18. An aggregation, as a session, when neither the trace context nor the list
    of the other partitions is empty, and all words of the request fit into the
    buffer and have no white space: the answer, which is not empty, goes back
    in chunks, each but the last acknowledged, and in every interleaving the
    caller has all of it in the end. *)
Theorem aggregation_call graphId tr pr r fuel chunk_fuel ans h' :
  clean graphId -> clean (minWeightWorkerPartition r) -> clean (adjustedPartitionIdList r) -> clean tr -> is_i32 pr ->
  minWeightWorker r = w -> ans <> "" -> plain_chars (chars ans) -> (String.length ans <= chunk_fuel)%nat ->
  call_central iter graphId tr r h = (Ret ans, h') ->
  must (ends_as ans h' w s)
    (mkConn (countCentralStoreTriangles (S chunk_fuel) (minWeightWorkerPartition r) (adjustedPartitionIdList r)
       graphId masterIP pr tr) (serve iter garbage other (3 + fuel)) s [] []).
Proof.
  intros Hg Hp Hl Htr Hpr Hw Hne Hans Hf Hc. unfold call_central in Hc. case_decide; [done|]. rewrite Hw in Hc.
  apply remote_ends in Hc as (ws' & Hc & Hh).
  eapply must_mono; [by apply aggregate_session with (ans := ans) (w' := ws')|].
  intros x (H1 & H2 & H3). split_and!; [done|done|]. by rewrite H3.
Qed.

(** C17. A copy of a central store, as two sessions: the master asks whether the
    worker has it; if not, the second session brings it there, however many
    times the master has to ask whether the file has arrived. *)
Theorem copy_call graphId partitionId fileName rounds fuel f h' :
  is_i32 graphId -> is_i32 partitionId -> (length rounds < fuel)%nat ->
  let answer := isFileAccessibleToWorker (show_long graphId) (show_long partitionId) masterIP
    FILE_TYPE_CENTRALSTORE_AGGREGATE fileName in
  let data := master_files h !!
    (master_aggregate h +:+ "/" +:+ show_long graphId +:+ "_centralstore_" +:+ show_long partitionId +:+ ".gz") in
  call_copy (show_long graphId) w (show_long partitionId) h = (Ret tt, h') ->
  exists b, must (ends b (set_masterIP masterIP s)) (mkConn answer (serve iter garbage other (3 + f)) s [] []) /\
    if decide (b = "false")
    then must (ends_as BATCH_UPLOAD_ACK h' w s)
      (mkConn (copyCentralStoreToAggregator fuel rounds graphId partitionId data masterIP)
         (serve iter garbage (upload_commands fuel other) (3 + f)) (set_masterIP masterIP s) [] [])
    else h' = h.
Proof.
  intros Hg Hp Hf answer data Hc. destruct Hrest as [Hw Hin]. unfold call_copy in Hc.
  rewrite Hw, !atoi_show in Hc by done.
  eexists. split; [by apply accessible_session; [|apply i32_clean..]|].
  destruct (file_exists (disk_files (sv_worker s)) _) eqn:E1 in Hc; rewrite E1.
  { by injection Hc as <-. }
  rewrite decide_True by done.
  destruct (file_exists (disk_files (sv_worker s)) _) eqn:E2 in Hc; [done|].
  fold data in Hc. destruct data as [d|]; [|done].
  destruct (Z.ltb_spec (Z.of_nat (length d)) 2147483648) as [Hd|]; [|done]. injection Hc as <-.
  eapply must_mono; [apply copy_session; try done|].
  - unfold file_exists in E2. apply bool_decide_eq_false, eq_None_not_Some in E2. exact E2.
  - intros x (H1 & H2 & H3). split_and!; [done|done|]. rewrite set_host_lookup, decide_True by done. rewrite H3. done.
Qed.

(** C31. An upload, as a session, of a file whose name the worker does not have
    yet: the file is unpacked in the data folder of the worker when
    [uploadFileToWorker] returns, and after a batch upload the partition is in
    the catalogue. *)
Theorem upload_call graphId name d filePath batch_upload rounds fuel f h' :
  is_i32 graphId -> (length rounds < fuel)%nat -> clean (name +:+ ".gz") ->
  getFileName filePath = name +:+ ".gz" -> master_files h !! filePath = Some (gzip d) ->
  call_upload graphId w filePath batch_upload h = (Ret true, h') ->
  must (ends_as true h' w s)
    (mkConn (uploadFileToWorker fuel rounds graphId (name +:+ ".gz") (master_files h !! filePath) masterIP
       (upload_type batch_upload)) (serve iter garbage (upload_commands fuel other) (3 + f)) s [] []).
Proof.
  intros Hg Hf Hname Hfile Hm Hc. destruct Hrest as [Hw Hin]. unfold call_upload in Hc.
  rewrite Hw, Hfile, strip_gz_app in Hc.
  destruct (file_exists (disk_files (sv_worker s)) _) eqn:E2 in Hc; [done|]. rewrite Hm in Hc |- *.
  destruct (Z.ltb_spec (Z.of_nat (length (gzip d))) 2147483648) as [Hd|]; [|done].
  rewrite gunzip_gzip in Hc. injection Hc as <-.
  eapply must_mono; [by apply upload_session with (d := d); try done;
    unfold file_exists in E2; apply bool_decide_eq_false, eq_None_not_Some in E2|].
  intros x (H1 & H2 & H3). split_and!; [done|done|]. rewrite set_host_lookup, decide_True by done. rewrite H3.
  by destruct batch_upload.
Qed.

(** C35. An aggregation of a graph with a single partition, whose list of other
    partitions is empty, or without a trace context never ends: the empty
    message is never received, and in every interleaving master and worker come
    to wait for each other. *)
Theorem aggregation_hangs graphId partitionId partitionIdList tr pr fuel chunk_fuel :
  clean graphId -> clean partitionId -> is_i32 pr -> partitionIdList = "" \/ clean partitionIdList /\ tr = "" ->
  must (fun x => halted x /\ finished x = false)
    (mkConn (countCentralStoreTriangles (S chunk_fuel) partitionId partitionIdList graphId masterIP pr tr)
       (serve iter garbage other (3 + fuel)) s [] []).
Proof. intros Hg Hp Hpr Hl. by apply aggregate_hangs. Qed.
End calls.

(** C30. A file sent through the file transfer service arrives whole, whatever the
    interleaving of sender and receiver. *)
Theorem file_transfer fileName data w :
  clean fileName -> Z.of_nat (length data) < 2147483648 ->
  must (delivered (dataFolder w +:+ "/" +:+ fileName) data w)
    (mkConn (sendFileThroughService fileName data) filetransferservicesession w [] []).
Proof. apply transfer_delivers. Qed.
