(* ===== verification/Samples.v ===== *)
(** * Samples: concrete instances of the hypotheses

    A host, a small partition built by the operations themselves, and for
    each theorem with hypotheses an instance in which they hold. *)
From Stdlib Require Import ZArith QArith Ascii String Lia.
From stdpp Require Import base tactics numbers list strings gmap.
From S2P Require Import Prelude FStream PropertyLinks PropertyLinkTheory NodeBlock RelationBlock.
From S2P Require Import NodeRelations NodeManager GraphFiles GraphTheory ManagerTheory ManagerQueries.
From S2P Require Import Persistence PropertyOwners ManagerErrors.
From S2P Require Import Partition Partitioner PartitionTheory PartitionerTheory.
From S2P Require Import Triangles TrianglesTheory StreamingTriangles StreamingTheory StreamingStore.
#[local] Open Scope Z_scope.

(** A host whose string objects are zero bytes and whose characters are
    followed by zero bytes: the assumptions on the host memory hold in it. *)
#[export, refine] Instance zero_host : HostMemory := {|
  object_image := fun _ => replicate MAX_TYPE_SIZE nul;
  cstr_image := fun s => resize MAX_TYPE_SIZE nul (chars s)
|}.
Proof.
  - intros s. apply length_replicate.
  - intros s. by left.
  - intros s. apply length_resize.
  - intros s. destruct (decide (length (chars s) < MAX_TYPE_SIZE)%nat) as [H|H].
    + rewrite take_ge by (rewrite length_app; simpl; lia). rewrite resize_pad by done.
      exists (replicate (MAX_TYPE_SIZE - length (chars s) - 1) nul). by rewrite <- app_assoc.
    + rewrite take_app_le, resize_le by lia. done.
Defined.

(** ** A partition with three edges *)

Definition sample_links : linkdb := LinkDB (FStream [] 0 false) 1 false false.
Definition sample_store : store :=
  Store (FStream [] 0 false) sample_links sample_links sample_links sample_links
    (FStream [] 0 false) (FStream [] 0 false) 1 1.
Definition sample_empty : manager :=
  Manager sample_store 1 0 43 [] [] 0 0 ∅ ∅ false.
Definition sample_config (mode : string) : GraphConfig := mkConfig 43 1 0 mode.

Lemma sample_open : openNodeManager (sample_config "trunc") empty_disk = Ret sample_empty.
Proof. reflexivity. Qed.

Definition e12 : string * string := ("1", "2").
Definition e23 : string * string := ("2", "3").
Definition e13 : string * string := ("1", "3").

Definition sample1 : manager := (addLocalEdge e12 sample_empty).2.
Definition sample2 : manager := (addCentralEdge e23 sample1).2.
Definition sample : manager := (addLocalEdge e13 sample2).2.

Definition graph1 : graph := add_edge Local e12 empty_graph.
Definition graph2 : graph := add_edge Central e23 graph1.
Definition graph3 : graph := add_edge Local e13 graph2.

#[export] Instance id_ok_dec keysz s : Decision (id_ok keysz s).
Proof.
  unfold id_ok. apply and_dec; [apply _|]. apply and_dec; [apply _|]. apply and_dec; [apply _|].
  destruct (stoul s) as [x|v]; [right; by intros [? ?]|left; eauto].
Defined.

#[export] Instance fits_dec g : Decision (fits g).
Proof.
  refine (cast_if (decide ((naddress (length (vertices g)) <=? 4294967296)
    && (raddress Local (S (length (gedges g Local))) <=? 4294967296)
    && (raddress Central (S (length (gedges g Central))) <=? 4294967296) = true))).
  - unfold fits. rewrite !andb_true_iff, !Z.leb_le in *. split; [tauto|intros []; tauto].
  - intros [H1 H2]. pose proof (H2 Local). pose proof (H2 Central).
    apply n. rewrite !andb_true_iff, !Z.leb_le. tauto.
Defined.

Lemma sample_empty_repr : repr sample_empty empty_graph.
Proof.
  destruct (new_partition_run (sample_config "trunc") empty_disk) as (m & Hm & Hr & _); [done|done|].
  rewrite sample_open in Hm. by injection Hm as <-.
Qed.

Lemma sample1_repr : repr sample1 graph1 /\ INDEX_KEY_SIZE sample1 = 43%nat.
Proof.
  destruct (add_kind_edge_repr sample_empty empty_graph Local e12) as (m & r & R & Hr & _ & _ & _ & _ & F);
    [apply sample_empty_repr|by apply (bool_decide_unpack _); vm_compute ..|].
  unfold add_kind_edge in R. unfold sample1. rewrite R. cbn [snd]. split; [done|]. by destruct F as (_ & _ & -> & _).
Qed.

Lemma sample2_repr : repr sample2 graph2 /\ INDEX_KEY_SIZE sample2 = 43%nat.
Proof.
  destruct sample1_repr as [Hr1 Hk].
  destruct (add_kind_edge_repr sample1 graph1 Central e23) as (m & r & R & Hr & _ & _ & _ & _ & F);
    [done|rewrite ?Hk; by apply (bool_decide_unpack _); vm_compute ..|].
  unfold add_kind_edge in R. unfold sample2. rewrite R. cbn [snd]. split; [done|]. by destruct F as (_ & _ & -> & _).
Qed.

Lemma sample_repr : repr sample graph3 /\ INDEX_KEY_SIZE sample = 43%nat.
Proof.
  destruct sample2_repr as [Hr2 Hk].
  destruct (add_kind_edge_repr sample2 graph2 Local e13) as (m & r & R & Hr & _ & _ & _ & _ & F);
    [done|rewrite ?Hk; by apply (bool_decide_unpack _); vm_compute ..|].
  unfold add_kind_edge in R. unfold sample. rewrite R. cbn [snd]. split; [done|]. by destruct F as (_ & _ & -> & _).
Qed.

(** Only evaluation looks inside the three partitions from here on. *)
#[local] Opaque sample1 sample2 sample.

Lemma sample_append : append_config (sample_config "app") sample.
Proof. unfold append_config. rewrite (proj2 sample_repr). done. Qed.

(** ** The graph store *)

Definition ids : list string := ["1"; "2"; "3"].

#[local] Ltac by_computation := by apply (bool_decide_unpack _); vm_compute.

Lemma addLocalEdge_refines_witness :
  exists m' r, addLocalEdge e13 sample2 = (Ret (Some r), m') /\ repr m' graph3 /\ raddr r = 304.
Proof.
  destruct sample2_repr as [Hr Hk].
  destruct (addLocalEdge_refines sample2 graph2 e13) as (m & r & R & Hm & Ha & _);
    [exact Hr|rewrite ?Hk; by_computation ..|].
  exists m, r. split_and!; [exact R|exact Hm|]. rewrite Ha. by vm_compute.
Defined.

Lemma addCentralEdge_refines_witness :
  exists m' r, addCentralEdge e23 sample1 = (Ret (Some r), m') /\ repr m' graph2 /\ raddr r = 156.
Proof.
  destruct sample1_repr as [Hr Hk].
  destruct (addCentralEdge_refines sample1 graph1 e23) as (m & r & R & Hm & Ha & _);
    [exact Hr|rewrite ?Hk; by_computation ..|].
  exists m, r. split_and!; [exact R|exact Hm|]. rewrite Ha. by vm_compute.
Defined.

Lemma addNode_refines_witness :
  exists m' n, addNode "7" sample = (Ret n, m') /\ repr m' (add_vertex "7" graph3) /\ addr n = 420.
Proof.
  destruct sample_repr as [Hr Hk].
  destruct (addNode_refines sample graph3 "7") as (m & n & R & Hm & _ & _ & _ & _ & Ha & _);
    [exact Hr|rewrite Hk; by_computation|by vm_compute|].
  exists m, n. split_and!; [exact R|exact Hm|]. rewrite Ha. by vm_compute.
Defined.

Lemma new_partition_repr_witness :
  exists m, openNodeManager (sample_config "trunc") empty_disk = Ret m /\ repr m empty_graph /\
    INDEX_KEY_SIZE m = 43%nat.
Proof. by apply (new_partition_repr (sample_config "trunc") empty_disk). Defined.

(** ** Closing and reopening *)

Lemma close_reopen_refines_witness :
  exists m1 m2, closeNodeManager (map_to_list (nodeIndex sample)) [] sample = (Ret tt, m1) /\
    openNodeManager (sample_config "app") (disk_of m1) = Ret m2 /\ repr m2 graph3 /\
    nextEdgeIndex sample = 2 /\ nextEdgeIndex m2 = 0.
Proof.
  pose proof (proj1 sample_repr) as Hr.
  destruct (close_reopen_refines sample graph3 (sample_config "app")
    (map_to_list (nodeIndex sample)) []) as (m1 & m2 & R1 & R2 & Hm & _ & _ & _ & Hn).
  - exact Hr.
  - exact sample_append.
  - reflexivity.
  - by vm_compute.
  - by_computation.
  - by vm_compute.
  - by vm_compute.
  - exists m1, m2. split_and!; [exact R1|exact R2|exact Hm|by vm_compute|rewrite Hn; by vm_compute].
Defined.

Lemma node_index_roundtrip_witness :
  exists m', persistNodeIndex (map_to_list (nodeIndex sample)) sample = (Ret tt, m') /\
    readNodeIndex 43 (indexDB m') = (Ret (nodeIndex sample), 3).
Proof.
  destruct (node_index_roundtrip sample (map_to_list (nodeIndex sample))) as (m & R & H).
  - done.
  - by_computation.
  - by vm_compute.
  - exists m. split; [exact R|]. rewrite (proj2 sample_repr) in H. rewrite H. by vm_compute.
Defined.

(** ** Queries *)

Lemma ids_vertices : ids ≡ₚ vertices graph3.
Proof. by vm_compute. Qed.

Lemma ids_distinct : NoDup (vid <$> ids).
Proof. by_computation. Qed.

Lemma getEdgeNodes_spec_witness :
  exists m' L, (load "1" ≫= (fun n => on_store (getEdgeNodes Local n))) sample = (Ret L, m') /\
    repr m' graph3 /\ nodeId ∘ fst <$> L = [3; 2].
Proof.
  destruct (getEdgeNodes_spec sample graph3 "1" Local) as (m & L & R & Hm & _ & _ & HL);
    [exact (proj1 sample_repr)|by_computation|].
  exists m, L. split_and!; [exact R|exact Hm|]. rewrite HL. by vm_compute.
Defined.

Lemma searchRelation_spec_witness :
  exists m', (load "2" ≫= (fun n => load "3" ≫= (fun n' => on_store (searchRelation n n')))) sample =
    (Ret true, m') /\ repr m' graph3.
Proof.
  destruct (searchRelation_spec sample graph3 "2" "3") as (m & b & R & Hm & Hb);
    [exact (proj1 sample_repr)|by_computation|by_computation|].
  exists m. split; [|exact Hm]. rewrite R. f_equal. f_equal. apply Hb. exists Central. by_computation.
Defined.

Lemma getAdjacencyList_spec_witness :
  exists m' adj, getAdjacencyList ids sample = (Ret adj, m') /\ repr m' graph3 /\
    adj !! 2 = Some {[1; 3]}.
Proof.
  destruct (getAdjacencyList_spec sample graph3 ids) as (m & adj & R & Hm & _ & Ha);
    [exact (proj1 sample_repr)|exact ids_vertices|exact ids_distinct|].
  exists m, adj. split_and!; [exact R|exact Hm|]. change 2 with (vid "2") at 1.
  rewrite Ha by by_computation. by vm_compute.
Defined.

Lemma getDistributionMap_spec_witness :
  exists m' deg, getDistributionMap ids sample = (Ret deg, m') /\ repr m' graph3 /\
    deg !! 2 = Some 2.
Proof.
  destruct (getDistributionMap_spec sample graph3 ids) as (m & deg & R & Hm & Ha);
    [exact (proj1 sample_repr)|exact ids_vertices|exact ids_distinct|].
  exists m, deg. split_and!; [exact R|exact Hm|]. change 2 with (vid "2") at 1.
  rewrite Ha by by_computation. by vm_compute.
Defined.

Lemma getKindAdjacencyList_spec_witness :
  exists m' adj, getKindAdjacencyList true sample = (Ret adj, m') /\ repr m' graph3 /\
    forall z x, x ∈ default ∅ (adj !! z) <->
      exists e, e ∈ gedges graph3 Local /\ vid e.1 = z /\ vid e.2 = x.
Proof.
  apply (getKindAdjacencyList_spec sample graph3 true); [exact (proj1 sample_repr)|by vm_compute].
Defined.

Lemma getGraph_spec_witness :
  exists m1 m2 L, getGraph ids sample = (Ret L, m1) /\ repr m1 graph3 /\
    getLimitedGraph 2 ids sample = (Ret (take 2 L), m2) /\ repr m2 graph3 /\ id <$> L = ids /\
    cstring ∘ label <$> L = (Some ∘ label_of graph3) <$> ids.
Proof.
  exact (getGraph_spec sample graph3 ids 2 (proj1 sample_repr) ids_vertices).
Defined.

(** ** Triangles *)

Definition triangle_adjacency : adjacency := {[1 := {[2; 3]}; 2 := {[1; 3]}; 3 := {[1; 2]}]}.

Lemma countTriangles_spec_witness :
  exists T : gset triple, (forall x, x ∈ T <-> is_triangle triangle_adjacency x) /\
    countTriangles elements triangle_adjacency {[1 := 2; 2 := 2; 3 := 2]} false =
      mkResult "" (Some (Z.of_nat (size T))) /\
    countTriangles elements triangle_adjacency {[1 := 2; 2 := 2; 3 := 2]} true =
      mkResult "1,2,3" None.
Proof.
  destruct (countTriangles_spec elements triangle_adjacency {[1 := 2; 2 := 2; 3 := 2]})
    as (T & HT & HC & _).
  - done.
  - intros x y. unfold nbrs, triangle_adjacency.
    destruct (decide (x = 1)) as [->|]; [|destruct (decide (x = 2)) as [->|];
      [|destruct (decide (x = 3)) as [->|]]]; simplify_map_eq;
      rewrite ?elem_of_union, ?elem_of_singleton; [intros [->| ->]; by_computation..|by intros ?%not_elem_of_empty].
  - intros x. unfold triangle_adjacency.
    destruct (decide (x = 1)) as [->|]; [|destruct (decide (x = 2)) as [->|];
      [|destruct (decide (x = 3)) as [->|]]]; by simplify_map_eq.
  - exists T. split_and!; [exact HT|exact HC|by vm_compute].
Defined.

Lemma streaming_triangles_witness :
  exists m' (T : gset triple), streaming_countTriangles elements false ids ids sample =
    (Ret (mkResult "" (Some (Z.of_nat (size T)))), m') /\ repr m' graph3 /\
    (streaming_countTriangles elements false ids ids sample).1 = Ret (mkResult "" (Some 1)) /\
    forall a b c, (a, b, c) ∈ T <-> a < b < c /\ joined graph3 a b /\ joined graph3 b c /\ joined graph3 a c.
Proof.
  destruct (streaming_triangles elements sample graph3 ids ids) as (m & T & R & Hm & HT);
    [done|exact (proj1 sample_repr)|exact ids_vertices|exact ids_vertices|exact ids_distinct|].
  exists m, T. split_and!; [exact R|exact Hm|by vm_compute|exact HT].
Defined.

(** ** Streaming counts *)

(** The edges 1-2 and 1-3 were counted, 2-3 is new. *)
Definition old_list : adjacency := {[1 := {[2; 3]}; 2 := {[1]}; 3 := {[1]}]}.

Lemma old_list_nbrs x y : y ∈ nbrs old_list x <-> (x, y) ∈ [(1, 2); (1, 3); (2, 1); (3, 1)].
Proof.
  unfold nbrs, old_list. rewrite !elem_of_cons, elem_of_nil.
  destruct (decide (x = 1)) as [->|]; [|destruct (decide (x = 2)) as [->|];
    [|destruct (decide (x = 3)) as [->|]]]; simplify_map_eq;
    rewrite ?elem_of_union, ?elem_of_singleton, ?elem_of_empty; intuition congruence.
Qed.

Lemma old_list_ok : undirected old_list /\ irreflexive old_list /\ new_to old_list [(2, 3)].
Proof.
  split_and!.
  - intros x y. rewrite !old_list_nbrs, !elem_of_cons, elem_of_nil. intuition congruence.
  - intros x. rewrite old_list_nbrs, !elem_of_cons, elem_of_nil. intuition congruence.
  - split; [by_computation|]. intros x y. unfold edge_in.
    rewrite old_list_nbrs, !list_elem_of_singleton, !elem_of_cons, elem_of_nil. intuition congruence.
Qed.

Lemma old_triangles x : x ∈ (∅ : gset triple) <-> is_triangle old_list x.
Proof.
  unfold is_triangle. rewrite elem_of_empty, !old_list_nbrs, !elem_of_cons, !elem_of_nil.
  destruct x as [[a b] c]. cbn [fst snd]. split; [done|]. intros (Hlt & H1 & H2 & H3).
  assert (a = 1 /\ b = 2) as [-> ->] by (intuition (simplify_eq; try lia)). intuition congruence.
Qed.

Lemma new_triangle x : x ∈ ({[(1, 2, 3)]} : gset triple) <-> is_triangle (adj_link_all [(2, 3)] old_list) x.
Proof.
  unfold is_triangle. rewrite elem_of_singleton, !nbrs_adj_link_all, !old_list_nbrs.
  unfold edge_in. rewrite !list_elem_of_singleton, !elem_of_cons, !elem_of_nil.
  destruct x as [[a b] c]. cbn [fst snd]. split.
  - intros [= -> -> ->]. split_and!; [lia..|tauto|tauto|tauto].
  - intros (Hlt & H1 & H2 & H3). assert (a = 1 /\ b = 2 /\ c = 3) as (-> & -> & ->); [|done].
    intuition (simplify_eq; try lia).
Qed.

Lemma totalCount_spec_witness :
  totalCount (adj_link_all [(2, 3)] old_list) (adj_link_all [(2, 3)] ∅) [(2, 3); (3, 2)] tt = (Ret 1, tt).
Proof.
  destruct old_list_ok as (Hu & Hi & Hn).
  apply (totalCount_spec old_list [(2, 3)] ∅ {[(1, 2, 3)]} tt Hu Hi Hn old_triangles new_triangle).
  by vm_compute.
Defined.

Lemma sample_small : small_files sample.
Proof. intros []; by vm_compute. Qed.

Lemma dynamic_local_spec_witness :
  exists m', countDynamicLocalTriangles 2 0 (mkLocal sample old_list) =
    (Ret (mkNative 2 1 1), mkLocal m' (adj_link_all [(2, 3)] old_list)) /\ repr m' graph3.
Proof.
  destruct old_list_ok as (Hu & Hi & Hn).
  pose proof (dynamic_local_spec sample graph3 old_list 2 0 [] [e23] ∅ {[(1, 2, 3)]}) as H. cbv zeta in H.
  replace (by_number [] ++ by_number [e23]) with [(2, 3)] in H by by vm_compute.
  destruct H as (m' & R & Hm');
    [exact (proj1 sample_repr)|exact sample_small| | |exact Hu|exact Hi|exact Hn|exact old_triangles|
     exact new_triangle|by vm_compute|].
  - exists [e13; e12]. split; [by vm_compute|]. by left.
  - exists []. split; [by vm_compute|]. by left.
  - exists m'. split; [|exact Hm']. rewrite R. by f_equal.
Defined.

Lemma static_then_dynamic_witness :
  exists r m1, countLocalStreamingTriangles elements [] [] sample_empty = (Ret r, m1) /\
    localRelationCount r = -1 /\ (countDynamicLocalTriangles (-1) (-1) (mkLocal sample ∅)).1 = Undef.
Proof.
  destruct (static_then_dynamic elements sample_empty empty_graph [] [] sample graph3 ∅ (-1))
    as (r & m1 & R & Hl & _ & Hd);
    [done|exact sample_empty_repr|by intros []; vm_compute|done|done|constructor|done|
     exact (proj1 sample_repr)|exact sample_small|done|].
  exists r, m1. rewrite Hl in Hd. split_and!; [exact R|exact Hl|exact Hd].
Defined.

(** Three central edges that form a directed cycle. *)
Definition e31 : string * string := ("3", "1").
Definition cycle1 : manager := (addCentralEdge e12 sample_empty).2.
Definition cycle2 : manager := (addCentralEdge e23 cycle1).2.
Definition cycle : manager := (addCentralEdge e31 cycle2).2.
Definition cycle_graph : graph :=
  add_edge Central e31 (add_edge Central e23 (add_edge Central e12 empty_graph)).

Lemma central_step m g e :
  repr m g -> INDEX_KEY_SIZE m = 43%nat -> bool_decide (id_ok 43 e.1) -> bool_decide (id_ok 43 e.2) ->
  bool_decide (fits (add_edge Central e g)) ->
  repr (addCentralEdge e m).2 (add_edge Central e g) /\ INDEX_KEY_SIZE (addCentralEdge e m).2 = 43%nat.
Proof.
  rewrite !bool_decide_spec. intros Hr Hk H1 H2 Hf. rewrite <- Hk in H1, H2.
  destruct (add_kind_edge_repr m g Central e Hr H1 H2 Hf) as (m' & r & R & Hr' & _ & _ & _ & _ & F).
  unfold add_kind_edge in R. rewrite R. split; [exact Hr'|]. destruct F as (_ & _ & F & _). cbn [snd]. by rewrite F.
Qed.

Lemma cycle_repr : repr cycle cycle_graph /\ INDEX_KEY_SIZE cycle = 43%nat.
Proof.
  unfold cycle, cycle2, cycle1, cycle_graph.
  destruct (central_step sample_empty empty_graph e12) as [H1 K1]; [exact sample_empty_repr|by vm_compute..|].
  destruct (central_step _ _ e23 H1 K1) as [H2 K2]; [by vm_compute..|].
  apply (central_step _ _ e31 H2 K2); by vm_compute.
Qed.

#[local] Opaque cycle.

Definition sample_disks (m : manager) (g p : Z) : disk := disk_of m.

Lemma holds_sample m g :
  repr m g -> INDEX_KEY_SIZE m = 43%nat -> small_files m ->
  bool_decide (Z.of_nat (length (indexDB m)) < 2147483648) -> edgeIndexDB m = [] ->
  holds (sample_disks m) 43 "1" "0" g.
Proof.
  rewrite bool_decide_spec. intros Hr Hk Hs Hi He. destruct Hr as [Hl (nbs & rbs & Hm)].
  assert (append_config (sample_config "app") m) as Hc by (unfold append_config; rewrite Hk; done).
  destruct (open_stored m g nbs rbs (sample_config "app") ∅ 0 Hm Hc Hi) as (m' & Ho & Hm' & Hl' & _).
  { rewrite Hk, He. by vm_compute. }
  assert (repr m' g) as Hr' by (split; [exact Hl'|eauto]).
  exists 1, 0, m'. split_and!; [by vm_compute|by vm_compute|exact Ho|exact Hr'|].
  apply (small_files_same m m' g); [split; [exact Hl|eauto]|exact Hr'|exact Hs].
Qed.

Lemma cycle_holds : holds (sample_disks cycle) 43 "1" "0" cycle_graph.
Proof.
  apply holds_sample; [exact (proj1 cycle_repr)|exact (proj2 cycle_repr)|intros []; by vm_compute|by vm_compute..].
Qed.

Lemma sample_holds : holds (sample_disks sample) 43 "1" "0" graph3.
Proof.
  apply holds_sample; [exact (proj1 sample_repr)|exact (proj2 sample_repr)|exact sample_small|by vm_compute..].
Qed.

Lemma central_triangles_spec_witness :
  exists out, countCentralStoreStreamingTriangles (sample_disks cycle) 43 elements "1" ["0"] tt = (Ret out, tt).
Proof.
  destruct (central_triangles_spec (sample_disks cycle) 43 elements "1" ["0"] [cycle_graph] tt)
    as (out & l & R & _); [done|repeat constructor; exact cycle_holds|].
  exists out. exact R.
Defined.

Lemma central_cycles_missed_witness :
  countCentralStoreStreamingTriangles (sample_disks cycle) 43 elements "1" ["0"] tt = (Ret "NILL", tt).
Proof.
  apply (central_cycles_missed (sample_disks cycle) 43 elements "1" ["0"] [cycle_graph] tt);
    [done|repeat constructor; exact cycle_holds|].
  assert (forall x y, arc [cycle_graph] x y -> (x, y) ∈ [(1, 2); (2, 3); (3, 1)]) as H.
  { intros x y (g & e & ->%list_elem_of_singleton & He & <- & <-). revert e He. apply Forall_forall.
    by_computation. }
  intros x y z Hy%H Hz%H. rewrite !elem_of_cons, elem_of_nil in Hy, Hz. intuition congruence.
Defined.

Lemma dynamic_central_spec_witness :
  exists A out, countDynamicCentralTriangles (sample_disks sample) 43 elements "1" ["0"] ["0"] {["0" := old_list]} =
      (Ret out, <["0" := A]> {["0" := old_list]}) /\
    (countDynamicCentralTriangles (sample_disks sample) 43 elements "1" ["0"] ["0"] {["0" := old_list]}).1 =
      Ret "1,2,3:1,2,3".
Proof.
  destruct old_list_ok as (Hu & Hi & Hn).
  destruct (dynamic_central_spec (sample_disks sample) 43 elements "1" ["0"] ["0"] [[e23]] {["0" := old_list]})
    as (A & out & l & R & _).
  - done.
  - constructor; [|constructor]. exists graph3, 0. split_and!; [exact sample_holds|by vm_compute|].
    exists []. split; [by vm_compute|by left].
  - exact Hu.
  - exact Hi.
  - intros x [H|H]; vm_compute in H; apply list_elem_of_singleton in H; by simplify_eq.
  - exists A, out. split; [exact R|by vm_compute].
Defined.

(** ** Property lists *)

Definition text (s : string) : list ascii := resize 400 nul (chars s).

Definition links1 (C : LinkClass) : linkdb := (@create C "name" (text "Ann") sample_links).2.
Definition blocks1 (C : LinkClass) : list (list ascii) :=
  [replicate (@PROPERTY_BLOCK_SIZE C) nul;
   mkblock (resize (@MAX_NAME_SIZE C) nul (chars "name")) (text "Ann") 0].
Definition entries1 : list entry := [(1%nat, "name", text "Ann")].

Lemma no_links C : @links_ok C sample_links [].
Proof. by split_and!; [..|left]. Qed.

Lemma no_links_room : @room PropertyLink sample_links /\ @room PropertyEdgeLink sample_links.
Proof. by split; vm_compute. Qed.

Lemma links1_ok : @links_ok PropertyLink (links1 PropertyLink) (blocks1 PropertyLink).
Proof.
  split_and!; [by vm_compute..|split; [by vm_compute|by_computation]|right].
  by split_and!; [vm_compute; lia|vm_compute..].
Qed.

Lemma edge_links1_ok : @links_ok PropertyEdgeLink (links1 PropertyEdgeLink) (blocks1 PropertyEdgeLink).
Proof.
  split_and!; [by vm_compute..|split; [by vm_compute|by_computation]|right].
  by split_and!; [vm_compute; lia|vm_compute..].
Qed.

Lemma links1_chain : @chain PropertyLink (blocks1 PropertyLink) 434 entries1.
Proof.
  change 434 with (@laddr PropertyLink 1).
  apply (@chain_cons PropertyLink (blocks1 PropertyLink) 1
    (mkblock (resize 30 nul (chars "name")) (text "Ann") 0) "name" []);
    [lia|by vm_compute|by vm_compute|].
  replace (@bnext PropertyLink _) with 0 by by vm_compute. constructor.
Qed.

#[local] Opaque links1 blocks1.

Lemma create_spec_witness :
  exists s' bs' i, @create PropertyLink "name" (text "Ann") sample_links =
    (Ret (Some (mkLink "name" (text "Ann") (@laddr PropertyLink i) (Some 0))), s') /\
    @links_ok PropertyLink s' bs' /\ @chain PropertyLink bs' (@laddr PropertyLink i) [(i, "name", text "Ann")].
Proof.
  destruct (@create_spec PropertyLink _ sample_links [] "name" (text "Ann")
    (resize 30 nul (chars "name")) (text "Ann") "name") as (s & bs & i & R & Hs & _ & _ & Hc & _);
    [exact (no_links _)|exact (proj1 no_links_room)|by vm_compute..|].
  exists s, bs, i. split_and!; [exact R|exact Hs|exact Hc].
Defined.

Lemma insert_spec_witness :
  exists s' bs', insert_head PropertyLink 434 "age" (text "7") (links1 PropertyLink) = (Ret 434, s') /\
    @links_ok PropertyLink s' bs' /\
    @chain PropertyLink bs' 434 [(1%nat, "name", text "Ann"); (2%nat, "age", text "7")].
Proof.
  destruct (@insert_spec PropertyLink _ (links1 PropertyLink) (blocks1 PropertyLink) 434 entries1 "age"
    (text "7") (resize 30 nul (chars "age")) (text "7") "age") as (s & bs & R & Hs & _ & Hc & _);
    [exact links1_ok|by vm_compute|exact links1_chain|discriminate|by vm_compute..|].
  exists s, bs. split_and!; [exact R|exact Hs|exact Hc].
Defined.

Lemma all_properties_spec_witness :
  exists s', get_all PropertyLink 434 (links1 PropertyLink) = (Ret {["name" := "Ann"]}, s') /\
    @links_ok PropertyLink s' (blocks1 PropertyLink).
Proof.
  destruct (@all_properties_spec PropertyLink (links1 PropertyLink) (blocks1 PropertyLink) 434 entries1)
    as (s & R & Hs & _); [exact links1_ok|exact links1_chain|discriminate|by_computation|].
  exists s. split; [|exact Hs]. rewrite R. f_equal.
Defined.

Lemma create_error_keeps_lock_witness :
  exists s', @create PropertyLink "name" (text "Ann") (LinkDB (FStream [] 0 true) 1 false false) =
    (Ret None, s') /\ (@create PropertyLink "age" (text "7") s').1 = Deadlock.
Proof.
  by apply (@create_error_keeps_lock PropertyLink (LinkDB (FStream [] 0 true) 1 false false) "name"
    (text "Ann") (resize 30 nul (chars "name")) (text "Ann") "age" (text "7")).
Defined.

Lemma null_list_is_hole_witness :
  exists s', @all_properties PropertyEdgeLink 1 0 (links1 PropertyEdgeLink) = (Ret {["" := ""]}, s').
Proof.
  apply (@null_list_is_hole PropertyEdgeLink _ (links1 PropertyEdgeLink) (blocks1 PropertyEdgeLink) 0);
    [done|simpl; lia|exact edge_links1_ok|by vm_compute].
Defined.

Lemma null_list_empty_file_undefined_witness :
  exists s', @all_properties PropertyEdgeLink 1 0 (LinkDB (FStream [] 0 false) 1 false false) = (Undef, s') /\
    fs_fail (ldb s') = true.
Proof. by apply (@null_list_empty_file_undefined PropertyEdgeLink _ 1 false false 0 1). Defined.

(** ** Owners of property lists and relationship types *)

Fixpoint chop (sz n : nat) (d : list ascii) : list (list ascii) :=
  match n with O => [] | S n' => take sz d :: chop sz n' (drop sz d) end.

Definition nblocks : list (list ascii) := chop 140 3 (fs_data (nodesDB (dbs sample))).
Definition rblocks (k : kind) : list (list ascii) :=
  match k with
  | Local => chop 152 3 (fs_data (relationsDB (dbs sample)))
  | Central => chop 156 2 (fs_data (centralRelationsDB (dbs sample)))
  end.
Definition store1 : store := set_propertiesDB (links1 PropertyLink) (dbs sample).
Definition node1 (prop : Z) : NodeBlock := with_propRef (newNodeBlock "1" 1 0) prop.
Definition relation1 (a : Z) : RelationBlock :=
  mkRel a (at_address 0) (at_address 140) 0 0 DEFAULT_TYPE None None.

#[local] Opaque nblocks rblocks.

Lemma files_blocks s :
  bool_decide (fs_fail (nodesDB s) = false /\ fs_data (nodesDB s) = concat nblocks /\
    Forall (fun b => length b = 140%nat) nblocks /\
    Forall (fun k => fs_fail (rel_file k s) = false /\ fs_data (rel_file k s) = concat (rblocks k) /\
      Forall (fun b => length b = rsize k) (rblocks k) /\ (2 <= length (rblocks k))%nat /\
      nextRelationIndex k s = Z.of_nat (length (rblocks k))) [Local; Central]) ->
  files s nblocks rblocks.
Proof.
  rewrite bool_decide_spec, Forall_cons, Forall_singleton. intros (H1 & H2 & H3 & HL & HC).
  split; [exact (conj H1 (conj H2 H3))|].
  intros []; [destruct HL as (? & ? & ? & ? & ?)|destruct HC as (? & ? & ? & ? & ?)];
    (split; [repeat split; assumption|right; split; assumption]).
Qed.

Lemma sample_files : files (dbs sample) nblocks rblocks.
Proof. apply files_blocks. by vm_compute. Qed.

Lemma store1_files : files store1 nblocks rblocks.
Proof. apply files_blocks. by vm_compute. Qed.

Lemma no_props : @links_ok PropertyLink (propertiesDB (dbs sample)) [].
Proof. split_and!; [by vm_compute..|by split; [vm_compute|constructor]|left; by vm_compute]. Qed.

Lemma no_edge_props : @links_ok PropertyEdgeLink (edgePropertiesDB (dbs sample)) [].
Proof. split_and!; [by vm_compute..|by split; [vm_compute|constructor]|left; by vm_compute]. Qed.

Lemma addProperty_first_witness :
  exists s' n', addProperty (node1 0) "name" (text "Ann") (dbs sample) = (Ret n', s') /\
    exists s'', NodeBlock_getAllProperties n' s' = (Ret {["name" := "Ann"]}, s'').
Proof.
  destruct (addProperty_first (dbs sample) nblocks rblocks [] (node1 0) "name" (text "Ann")
    (resize 30 nul (chars "name")) (text "Ann")) with (x := 0%nat) (b := nth 0 nblocks [])
    as (s & n & i & bs & b & R & _ & _ & _ & _ & _ & _ & _ & _ & s2 & R2);
    [exact sample_files|exact no_props|by vm_compute|by vm_compute|by vm_compute|by vm_compute|by vm_compute|by vm_compute|by vm_compute|by_computation|].
  exists s, n. split; [exact R|]. exists s2. rewrite R2. f_equal.
Defined.

Lemma addProperty_next_witness :
  exists s' n' bs', addProperty (node1 434) "age" (text "7") store1 = (Ret n', s') /\
    files s' nblocks rblocks /\
    @chain PropertyLink bs' 434 [(1%nat, "name", text "Ann"); (2%nat, "age", text "7")].
Proof.
  destruct (addProperty_next store1 nblocks rblocks (blocks1 PropertyLink) (node1 434) "age" (text "7")
    (resize 30 nul (chars "age")) (text "7")) with (es := entries1) as (s & n & bs & R & Hf & _ & _ & Hc);
    [exact store1_files|exact links1_ok|by vm_compute|by vm_compute|by vm_compute|exact links1_chain|discriminate|].
  exists s, n, bs. split_and!; [exact R|exact Hf|exact Hc].
Defined.

Lemma addProperty_drift_witness :
  exists s' n', addProperty (node1 434) "age" (text "7") store1 = (Ret n', s') /\
    (NodeBlock_getAllProperties n' s').1 = Ret {["name" := "Ann"; "age" := "7"]}.
Proof.
  destruct (addProperty_drift store1 nblocks rblocks (blocks1 PropertyLink) (node1 434) "age" (text "7")
    (resize 30 nul (chars "age")) (text "7")) with (es := @nil entry) (e := (1%nat, "name", text "Ann"))
    as (s & n & R & _ & Hp);
    [exact store1_files|exact links1_ok|by vm_compute|by vm_compute|by vm_compute|exact links1_chain|by_computation..|].
  exists s, n. split; [exact R|]. rewrite Hp. by vm_compute.
Defined.

Lemma addRelationProperty_first_witness :
  exists s' r' j bs', addRelationProperty Local (relation1 152) "since" (text "1999") (dbs sample) =
    (Ret r', s') /\
    @chain PropertyEdgeLink bs' (propertyAddress r') [(j, "since", text "1999")].
Proof.
  destruct (addRelationProperty_first (dbs sample) nblocks rblocks [] Local (relation1 152) 1
    (nth 1 (rblocks Local) []) "since" (text "1999") (text "1999"))
    as (s & r & j & bs & b & R & _ & _ & _ & _ & _ & Hc & _);
    [exact sample_files|by vm_compute|by vm_compute|by vm_compute|by vm_compute|by vm_compute|exact no_edge_props|by vm_compute..|].
  exists s, r, j, bs. split; [exact R|exact Hc].
Defined.

Lemma central_type_roundtrip_witness :
  exists s1 s2, addCentralRelationshipType (relation1 156) "KNOWS" (dbs sample) = (Ret tt, s1) /\
    getRelationshipType Central (relation1 156) s1 = (Ret "KNOWS", s2).
Proof.
  destruct (central_type_roundtrip (dbs sample) nblocks rblocks (relation1 156) 1
    (nth 1 (rblocks Central) []) "KNOWS") as (s1 & s2 & b & R1 & _ & _ & R2);
    [exact sample_files|by vm_compute..|by_computation|vm_compute; lia|].
  exists s1, s2. split; [exact R1|exact R2].
Defined.

Lemma local_type_misplaced_witness :
  exists s', addLocalRelationshipType (relation1 152) "KNOWS" sample_store = (Ret tt, s') /\
    fs_data (relationsDB s') = take 100 (text "KNOWS").
Proof.
  destruct (local_type_misplaced sample_store (relation1 152) "KNOWS") as (s & R & Hd & _); [done|done|].
  exists s. split; [exact R|]. rewrite Hd. by vm_compute.
Defined.

(** ** Errors of the node manager *)

Lemma edge_exception_deadlocks_witness :
  addLocalEdge ("alice", "2") sample = (Throw invalid_argument, set_lock true sample) /\
  addLocalEdge ("1", "2") (set_lock true sample) = (Deadlock, set_lock true sample).
Proof.
  destruct (edge_exception_deadlocks sample ("alice", "2") invalid_argument) as (R & _ & H);
    [by vm_compute..|].
  split; [exact R|exact (proj1 (H ("1", "2")))].
Defined.

Lemma edge_exception_keeps_source_witness :
  exists m', addLocalEdge ("7", "bob") sample = (Throw invalid_argument, m') /\ lockEdgeAdd m' = true /\
    repr (set_lock false m') (add_vertex "7" graph3).
Proof.
  apply (edge_exception_keeps_source sample graph3 ("7", "bob") invalid_argument);
    [exact (proj1 sample_repr)|rewrite (proj2 sample_repr); by_computation|by vm_compute|
     by_computation|by vm_compute].
Defined.

Lemma long_id_overruns_witness :
  (addNode "1234567" (setIndexKeySize 6 sample_empty)).1 = Undef.
Proof.
  apply (long_id_overruns (setIndexKeySize 6 sample_empty) "1234567" 1234567);
    [by vm_compute..|vm_compute; lia].
Defined.

Lemma block_address_wraps_witness :
  exists m' n, addNode "5" (set_nextNodeIndex 30678338 sample_empty) = (Ret n, m') /\ addr n = 24 /\
    nextNodeIndex m' = 30678339.
Proof.
  apply (block_address_wraps (set_nextNodeIndex 30678338 sample_empty) "5" 5);
    [done|done|by_computation|vm_compute; lia|vm_compute; lia|done].
Defined.

(** ** Partitioning *)

Definition stream : list (string * string) := [("1", "2"); ("2", "3"); ("1", "4"); ("2", "1")].

(** The theorems on FENNEL hold for any [pow]. *)
Definition any_pow (x y : double) : double := x.

Lemma stream_is_ok : stream_ok stream.
Proof.
  unfold stream. repeat (apply Forall_cons; split; [split_and!|]); try done;
    (split; [by_computation|eexists; split; [by vm_compute|done]]).
Qed.

Lemma hash_accounting_witness :
  exists t, add_all any_pow stream (newPartitioner 3 1 HASH false) = (Ret tt, t) /\
    placed t "1" "2" /\ (updateMetaDB t).1 = 4 /\ ((updateMetaDB t).2 == 3)%Q.
Proof.
  destruct (hash_accounting any_pow stream 3 1) as (t & R & Hp & Hv & He);
    [done|exact stream_is_ok|by vm_compute|].
  exists t. split_and!; [exact R|apply Hp; by_computation|rewrite Hv; by vm_compute|].
  rewrite He. by vm_compute.
Defined.

Definition partitioner3 : Partitioner := newPartitioner 3 1 HASH false.

Lemma partitioner3_ok : partitioner_ok partitioner3.
Proof. by apply newPartitioner_ok. Qed.

Lemma fennel_places_witness :
  exists t' i, fennelPartitioning any_pow ("1", "2") partitioner3 =
    (Ret [("1", Z.of_nat i); ("2", Z.of_nat i)], t') /\ Z.of_nat i < 3.
Proof.
  destruct (fennel_places any_pow partitioner3 "1" "2") as (t & i & R & Hi & _);
    [exact partitioner3_ok|by_computation|by_computation|].
  exists t, i. split; [exact R|exact Hi].
Defined.

Definition partition1 : Partition := addEdge (newPartition 0 3) ("1", "2") false.

Lemma partition1_counted : counted partition1.
Proof. split; by vm_compute. Qed.

Lemma partition1_symmetric : symmetric partition1.
Proof. apply addEdge_symmetric. intros x y Hy. by apply not_elem_of_empty in Hy. Qed.

Lemma partition_vertex_count_witness :
  counted (addEdge partition1 ("2", "3") false) /\
  exists p', addToEdgeCuts partition1 "2" "3" 1 = Some p' /\ getVertextCountQuick p' = 2.
Proof.
  destruct (partition_vertex_count partition1 "2" "3" false 1) as (H & _ & p & R & _ & Hm & Hp);
    [exact partition1_counted|done|].
  split; [exact H|]. exists p. split; [exact R|]. rewrite Hp, Hm. by vm_compute.
Defined.

Lemma partition_adjacency_witness :
  symmetric (addEdge partition1 ("2", "3") false) /\
  "2" ∈ getNeighbors (addEdge partition1 ("2", "3") false) "3".
Proof.
  destruct (partition_adjacency partition1 "2" "3") as (H & _ & Hn);
    [exact partition1_counted|exact partition1_symmetric|].
  split; [exact H|]. apply Hn. by right; right.
Defined.

Lemma partition_edge_count_witness :
  getEdgesCount (addEdge partition1 ("2", "3") false) false = 2.
Proof.
  rewrite (partition_edge_count partition1 "2" "3" partition1_symmetric);
    [by vm_compute|done| |by_computation|by_computation].
  intros u Hu. assert (set_Forall comma_free (dom (edgeList partition1))) as H by by_computation.
  by apply H.
Defined.

Lemma hash_errors_witness :
  hashPartitioning ("x", "2") partitioner3 = (Throw invalid_argument, partitioner3) /\
  hashPartitioning ("-1", "2") partitioner3 = (Undef, partitioner3).
Proof.
  split.
  - by apply (hash_errors partitioner3 "x" "2" invalid_argument 0 partitioner3_ok).
  - apply (hash_errors partitioner3 "-1" "2" invalid_argument (-1) partitioner3_ok); [done|done|done|].
    split; [by_computation|]. by exists 2.
Defined.

Lemma ldg_drops_edge_witness :
  let t := mkPartitioner [partition1] 1 2 1 1 false LDG in
  ldgPartitioning ("2", "1") t = (Ret [("2", 0); ("1", 0)], Partitioner.count 0 1 t).
Proof.
  apply (ldg_drops_edge (mkPartitioner [partition1] 1 2 1 1 false LDG) "2" "1" partition1 []);
    [done|exact partition1_counted|by_computation|by_computation].
Defined.

Lemma deserialize_spec_witness :
  @deserialize unit "7 12" tt = (Ret (7, 12), tt) /\ @deserialize unit "7 40" tt = (Undef, tt).
Proof.
  split; [exact (@deserialize_spec unit tt 7 12 ltac:(lia) ltac:(lia))
         |exact (@deserialize_spec unit tt 7 40 ltac:(lia) ltac:(lia))].
Defined.
