(* ===== verification/StaticSamples.v ===== *)
(** * StaticSamples: concrete instances for the static pipeline

    A codec with the law of the class [FlatBuffers], a compressor with the law
    of the class [Gzip], an edge list partitioned in three and put on three
    workers, and for each theorem about the static
    pipeline with hypotheses an instance in which they hold. *)
From Stdlib Require Import ZArith Ascii String Lia.
From stdpp Require Import base tactics numbers countable list sorting strings gmap.
From S2P Require Import Prelude Triangles TrianglesTheory HashMapStores HashMapTheory Shell StaticTriangles StaticTheory.
From S2P Require Import Metis MetisTheory TriangleExecutor ExecutorTheory DistributedCount Uploads Cluster.
From S2P Require Import Sessions WorkerSessions FileTransfer Deployment Calls.
#[local] Open Scope Z_scope.

(** ** A codec *)

Fixpoint bits (p : positive) : list ascii :=
  match p with
  | xH => []
  | xO p' => "0"%char :: bits p'
  | xI p' => "1"%char :: bits p'
  end.

Fixpoint of_bits (l : list ascii) : option positive :=
  match l with
  | [] => Some xH
  | a :: l' =>
      if decide (a = "0"%char) then xO <$> of_bits l'
      else if decide (a = "1"%char) then xI <$> of_bits l'
      else None
  end.

Lemma of_bits_bits p : of_bits (bits p) = Some p.
Proof. induction p as [p IH|p IH|]; cbn; by rewrite ?IH. Qed.

(** Any countable type has a binary code. *)
Definition code {A} `{Countable A} (x : A) : list ascii := bits (encode x).
Definition uncode {A} `{Countable A} (l : list ascii) : option A := of_bits l ≫= decode.

Lemma uncode_code {A} `{Countable A} (x : A) : uncode (code x) = Some x.
Proof. unfold uncode, code. rewrite of_bits_bits. cbn. apply decode_encode. Qed.

#[export, refine] Instance bit_buffers : FlatBuffers := {|
  part_write := code; part_read := uncode;
  edge_write := code;
  attr_write := code; attr_read := uncode
|}.
Proof.
  - intros es _ _. apply uncode_code.
  - intros es _ _. apply uncode_code.
Defined.

(** A compressor that marks what it has compressed. *)
#[export, refine] Instance mark_gzip : Gzip := {|
  gzip := cons "z"%char;
  gunzip := fun l => match l with a :: l' => if decide (a = "z"%char) then Some l' else None | [] => None end
|}.
Proof. done. Defined.

(** ** An edge list in three partitions *)

Definition sample_edges : list (Z * Z) :=
  [(0, 1); (0, 2); (1, 2); (0, 3); (1, 3); (0, 5); (3, 5); (3, 4)].
Definition sample_lines : list (list ascii) := edge_line " " <$> sample_edges.
Definition sample_metis : MetisPartitioner :=
  Eval vm_compute in
  set_type "NORMAL" (loadDataSet "/home" sample_lines 7 (newMetisPartitioner 3)).2.
Definition sample_index : gmap Z Z := Eval vm_compute in read_part_index 0 [0; 0; 0; 1; 1; 2].
Definition sample_home (v : Z) : Z := part_of sample_index v.

Lemma sample_metis_eq :
  set_type "NORMAL" (loadDataSet "/home" sample_lines 7 (newMetisPartitioner 3)).2 = sample_metis.
Proof. by vm_compute. Qed.

Lemma sample_splitter : is_splitter " ".
Proof. by left. Qed.

#[export] Instance is_i32_dec z : Decision (is_i32 z).
Proof. unfold is_i32. apply _. Defined.

#[local] Ltac by_computation := by apply (bool_decide_unpack _); vm_compute.

Lemma sample_i32 : Forall (fun e => is_i32 e.1 /\ is_i32 e.2) sample_edges.
Proof. by_computation. Qed.

Lemma sample_loaded : loaded sample_edges sample_metis.
Proof.
  rewrite <- sample_metis_eq. apply loaded_set_type.
  destruct (loadDataSet_run "/home" " " sample_edges 7 3 sample_splitter sample_i32) as (p & R & L & _).
  change sample_lines with (edge_line " " <$> sample_edges). by rewrite R.
Qed.

Lemma sample_apexed : apexed (fun x y => (x, y) ∈ sample_edges).
Proof.
  apply apexed_increasing. intros x y H.
  assert (Forall (fun e => e.1 < e.2) sample_edges) as Hf by by_computation.
  by apply (proj1 (Forall_forall _ _) Hf) in H.
Qed.

Lemma sample_of_apexed : apexed (edges_of sample_metis).
Proof.
  eapply apexed_ext; [|exact sample_apexed]. intros x y.
  by rewrite (edges_of_loaded sample_edges) by (done || apply sample_loaded).
Qed.

Lemma sample_names : NoDup (actual sample_metis <$> (entries (graphEdgeMap sample_metis)).*1).
Proof. by_computation. Qed.

Lemma sample_homes u v : v ∈ at_key (graphEdgeMap sample_metis) u ->
  sample_home (actual sample_metis u) = part_of sample_index u /\
  sample_home (actual sample_metis v) = part_of sample_index v.
Proof. intros _. by rewrite !actual_normal. Qed.

Lemma sample_range v : 0 <= sample_home v < 3.
Proof.
  unfold sample_home, part_of.
  assert (map_Forall (fun _ x => 0 <= x < 3) sample_index) as H by by_computation.
  destruct (sample_index !! v) as [x|] eqn:E; cbn; [exact (H _ _ E)|lia].
Qed.

(** Three workers with nothing on them. *)
Definition sample_worker : worker := mkWorker ∅ "/data" "/aggregate" ∅ ∅ ∅.
Definition sample_hosts : hosts :=
  mkHosts (list_to_map [("10", sample_worker); ("11", sample_worker); ("12", sample_worker)]) ∅ "/master".
Definition sample_workers : gset string := {["10"; "11"; "12"]}.
Definition sample_workerList : list string := ["12"; "10"; "11"].
Definition sample_hostList : list string := ["10"; "11"; "12"].

#[export] Instance i32_map_dec m : Decision (i32_map m).
Proof. unfold i32_map. apply _. Defined.
#[export] Instance fits_dec m : Decision (fits m).
Proof. unfold fits. apply _. Defined.
#[export] Instance stores_fit_dec st : Decision (stores_fit st).
Proof. unfold stores_fit. apply _. Defined.

Lemma sample_fresh : fresh 7 sample_worker.
Proof. split; [done|..]; intros; apply lookup_empty. Qed.

Lemma sample_can_take : can_take sample_metis sample_hostList sample_hosts.
Proof.
  split; [by_computation|done|]. repeat constructor; exists sample_worker; (split; [by vm_compute|exact sample_fresh]).
Qed.

Lemma sample_fits : Forall (fun i => stores_fit (partition_stores sample_metis sample_index i)) (parts sample_metis).
Proof. by_computation. Qed.

Lemma sample_in_lists : NoDup sample_workerList /\
  forall w, w ∈ sample_hostList -> w ∈ sample_workerList /\ w ∈ sample_workers.
Proof.
  split; [by_computation|]. apply (Forall_forall (fun w => w ∈ sample_workerList /\ w ∈ sample_workers)). by_computation.
Qed.

Lemma sample_deployable :
  deployable sample_metis sample_index sample_home sample_hostList sample_workerList sample_workers sample_hosts.
Proof.
  split; [exact sample_names|exact sample_homes| |exact sample_fits|exact sample_can_take|exact sample_in_lists].
  split_and!; [done|done|exact sample_range|done].
Qed.

(** The hosts after the upload. *)
Definition sample_written : hosts :=
  mkHosts (cluster sample_hosts)
    (metis_createPartitionFiles sample_metis sample_index (master_files sample_hosts)) (master_aggregate sample_hosts).
Definition sample_uploaded : hosts :=
  Eval vm_compute in (uploadGraphLocally 7 (fullFileList sample_metis) sample_hostList sample_written).2.
Definition sample_rows : list (string * string) := [("10", "0"); ("11", "1"); ("12", "2")].

Lemma sample_upload :
  uploadGraphLocally 7 (fullFileList sample_metis) sample_hostList sample_written = (Ret sample_rows, sample_uploaded).
Proof. vm_compute. reflexivity. Qed.

Lemma sample_ready :
  hosts_ready sample_metis sample_index 7 (foldl add_row ∅ sample_rows) sample_uploaded /\
  partitionsVector (foldl add_row ∅ sample_rows) ≡ₚ show_long <$> parts sample_metis /\
  forall w, w ∈ dom (foldl add_row ∅ sample_rows) -> w ∈ sample_hostList.
Proof.
  destruct (upload_run sample_metis sample_index sample_hostList sample_written) as (rows & h' & R & H).
  - destruct sample_can_take as [C1 C2 C3]. split; [exact C1|exact C2|exact C3].
  - exact sample_fits.
  - intros kind i Hk Hi. apply (createPartitionFiles_gz sample_metis sample_index ∅); [done|done|done].
  - change (mp_graphID sample_metis) with 7 in *. rewrite sample_upload in R. injection R as <- <-. exact H.
Qed.

Lemma sample_deployed :
  deployed sample_metis sample_index sample_home 7 sample_workers sample_workerList (foldl add_row ∅ sample_rows).
Proof.
  destruct sample_ready as (_ & HP & Hw). split; [exact sample_names|exact sample_homes| | |exact HP].
  - split_and!; [done|done|exact sample_range|done].
  - split; [apply sample_in_lists|]. intros w H. by apply sample_in_lists, Hw.
Qed.

(** ** The witnesses *)

Lemma any_order : forall X : gset Z, elements X ≡ₚ elements X.
Proof. done. Qed.

(** There is no call with composite aggregation here. *)
Definition no_composite (_ _ : string) : M hosts Z := undef.

Abbreviation sample_execute :=
  (execute (worker_calls elements 0 "7" "trace" no_composite) sample_workers sample_workerList sample_rows sample_uploaded).

(** The three triangles: one inside a partition, one with two vertices in a
    partition, one in three partitions. *)
Lemma sample_answer : (sample_execute).1 = Ret 3.
Proof. by vm_compute. Qed.

Lemma edge_list_triangles_witness :
  exists (T : gset triple) h',
    upload_and_count elements 0 "trace" no_composite sample_metis sample_index sample_hostList sample_workerList sample_workers
      sample_hosts = (Ret (Z.of_nat (size T)), h') /\
    forall x, x ∈ T <-> tri (fun x y => (x, y) ∈ sample_edges) x.
Proof.
  rewrite <- sample_metis_eq.
  apply (edge_list_triangles elements 0 "trace" no_composite "/home" " " sample_edges 3 7 "NORMAL" sample_index sample_home).
  - exact sample_splitter.
  - exact sample_i32.
  - done.
  - exact any_order.
  - done.
  - exact sample_apexed.
  - change (edge_line " " <$> sample_edges) with sample_lines. rewrite sample_metis_eq. exact sample_deployable.
Defined.

Lemma distributed_triangles_witness :
  exists (T : gset triple) h', sample_execute = (Ret (Z.of_nat (size T)), h') /\
    hosts_ready sample_metis sample_index 7 (foldl add_row ∅ sample_rows) h' /\
    forall x, x ∈ T <-> tri (edges_of sample_metis) x.
Proof.
  exact (distributed_triangles elements 0 "trace" no_composite sample_metis sample_index sample_home 7
    sample_workers sample_workerList sample_rows sample_uploaded any_order ltac:(done) sample_deployed
    (proj1 sample_ready) sample_of_apexed ltac:(done)).
Defined.

Lemma execute_counts_witness :
  exists (T : gset triple) h', sample_execute = (Ret (Z.of_nat (size T)), h') /\
    hosts_ready sample_metis sample_index 7 (foldl add_row ∅ sample_rows) h' /\
    forall x, x ∈ T <-> tri (edges_of sample_metis) x.
Proof.
  eapply execute_counts; [by vm_compute| |exact (proj1 sample_ready)].
  exact (deployed_cluster elements any_order 0 "trace" ltac:(done) no_composite _ _ _ _ _ _ _ sample_deployed sample_of_apexed).
Defined.

Lemma metis_stores_witness :
  3 ∈ at_key (partMasterEdgesSet (populatePartMaps sample_metis sample_index 0)) 0 <->
    edges_of sample_metis 0 3 /\ sample_home 0 = 0 /\ sample_home 3 <> 0.
Proof.
  apply (metis_stores sample_metis sample_index sample_home 0 sample_names sample_homes sample_range 0 3).
Defined.

Lemma loadDataSet_spec_witness :
  exists p, loadDataSet "/home" sample_lines 7 (newMetisPartitioner 3) = (Ret tt, p) /\
    loaded sample_edges p /\ nParts p = 3 /\ mp_graphID p = 7.
Proof. exact (loadDataSet_spec "/home" " " sample_edges 7 3 sample_splitter sample_i32). Defined.

Lemma sample_contiguous : contiguous sample_edges sample_metis.
Proof.
  intros v Hv. change (smallestVertex sample_metis) with 0 in Hv. change (largestVertex sample_metis) with 5 in Hv.
  assert (Forall (fun v => v ∈ vertices_of sample_edges) (seqZ 0 6)) as H by by_computation.
  apply (proj1 (Forall_forall _ _) H), elem_of_seqZ. lia.
Qed.

Lemma constructMetisFormat_spec_witness :
  (constructMetisFormat "NORMAL" sample_metis).1 =
    (1, Some ["6 8"; "2 3 4 6 "; "1 3 4 "; "1 2 "; "1 2 5 6 "; "4 "; "1 4 "]).
Proof.
  destruct (constructMetisFormat_spec sample_edges sample_metis "NORMAL") as [H _].
  - exact sample_loaded.
  - done.
  - by_computation.
  - rewrite H; [by vm_compute|exact sample_contiguous|done].
Defined.

Lemma reformatDataSet_spec_witness :
  exists p' f, reformatDataSet 7 (edge_line "," <$> [(10, 30); (30, 20)]) (newMetisPartitioner 2) =
      (Ret [(f 10, f 30); (f 30, f 20)], p') /\
    (forall v, v ∈ vertices_of [(10, 30); (30, 20)] -> idToVertexMap p' !! f v = Some v).
Proof.
  destruct (reformatDataSet_spec "," [(10, 30); (30, 20)] 7 (newMetisPartitioner 2)) as (p & f & R & H & _).
  - right. by right.
  - by_computation.
  - done.
  - done.
  - exists p, f. split; [exact R|exact H].
Defined.

Definition sample_part : gmap Z (list Z) := <[4 := [9; 2]]> {[1 := [7]]}.

Lemma part_edge_map_roundtrip_witness :
  getEdgeHashMap (storePartEdgeMap sample_part "/p" ∅).2 "/p" (newLocalStore 1 0 "/" 0 0) =
    (Ret sample_part, mkLocalStore (base (newLocalStore 1 0 "/" 0 0)) ∅ sample_part).
Proof.
  apply (part_edge_map_roundtrip ∅ sample_part "/p").
  - by_computation.
  - by vm_compute.
  - done.
Defined.

Definition sample_store (f : stores -> edge_map) : hstore :=
  mkHstore 7 0 "/" (graph_of (f (partition_stores sample_metis sample_index 0))) 0 0.

Lemma in_degree_spec_witness :
  getInDegreeDistributionHashMap elements (sample_store st_central) !! 3 = Some 2.
Proof. rewrite (in_degree_spec elements (sample_store st_central) 3 any_order). by vm_compute. Defined.

Lemma sample_store_arcs x y :
  store_arcs (sample_store st_local) (sample_store st_central) (sample_store st_duplicate) x y -> x < y.
Proof.
  intros H. assert (edges_of sample_metis x y) as Ha.
  { unfold store_arcs, sample_store in H. cbn [subGraphMap] in H. rewrite !arcs_graph_of in H.
    destruct H as [H|[H|H]]; by apply (stores_spec _ _ _ _ _ _ _ sample_deployed) in H as (Ha & _). }
  rewrite (edges_of_loaded sample_edges) in Ha by (done || apply sample_loaded).
  assert (Forall (fun e => e.1 < e.2) sample_edges) as Hf by by_computation.
  by apply (proj1 (Forall_forall _ _) Hf) in Ha.
Qed.

Lemma run_spec_witness :
  exists T : gset triple,
    run elements (sample_store st_local) (sample_store st_central) (sample_store st_duplicate) =
      Some (Z.of_nat (size T)) /\ size T = 2%nat.
Proof.
  destruct (run_spec elements (sample_store st_local) (sample_store st_central) (sample_store st_duplicate)
    any_order) as (T & R & _).
  - apply apexed_increasing, sample_store_arcs.
  - exists T. split; [exact R|].
    assert (run elements (sample_store st_local) (sample_store st_central) (sample_store st_duplicate) = Some 2)
      as R2 by (by vm_compute).
    rewrite R2 in R. injection R. lia.
Defined.

(** ** Sessions *)

#[local] Ltac a_clean_word := apply (bool_decide_unpack (clean _)); vm_compute; reflexivity.

Definition worker_of (h : hosts) (w : string) : service :=
  mkService (default sample_worker (cluster h !! w)) "" 1 0 None.

Lemma sample_at_rest : at_rest sample_uploaded "10" (worker_of sample_uploaded "10").
Proof. split; [vm_compute; reflexivity|done]. Qed.

Definition no_other (_ : string) : option (proc service bool) := None.

Lemma triangle_call_witness :
  must (ends_as 2 sample_uploaded "10" (worker_of sample_uploaded "10"))
    (mkConn (getTriangleCount 7 0 "127.0.0.1" 5 "trace") (serve elements 0 no_other 3) (worker_of sample_uploaded "10") [] []).
Proof.
  apply (triangle_call elements 0 no_other "127.0.0.1" ltac:(a_clean_word) sample_uploaded "10" _ sample_at_rest
    7 0 5 "trace" 0 2 sample_uploaded); [done..|by right; a_clean_word|vm_compute; reflexivity].
Defined.

Definition sample_copied : hosts := Eval vm_compute in (call_copy "7" "10" "2" (call_copy "7" "10" "1" sample_uploaded).2).2.
Definition sample_request : request := mkRequest "10" "0" "1,2" ["1"; "2"].

Lemma sample_copied_at_rest : at_rest sample_copied "10" (worker_of sample_copied "10").
Proof. split; [vm_compute; reflexivity|done]. Qed.

Lemma aggregation_call_witness :
  must (ends_as "0,3,5" sample_copied "10" (worker_of sample_copied "10"))
    (mkConn (countCentralStoreTriangles 6 "0" "1,2" "7" "127.0.0.1" 5 "trace") (serve elements 0 no_other 3)
       (worker_of sample_copied "10") [] []).
Proof.
  apply (aggregation_call elements 0 no_other "127.0.0.1" ltac:(a_clean_word) sample_copied "10" _ sample_copied_at_rest
    "7" "trace" 5 sample_request 0 5 "0,3,5" sample_copied);
    [a_clean_word..|done|done|done|apply (bool_decide_unpack _); vm_compute; reflexivity|vm_compute; lia|vm_compute; reflexivity].
Defined.

Definition sample_copied_one : hosts := Eval vm_compute in (call_copy "7" "10" "1" sample_uploaded).2.

Lemma copy_call_witness :
  exists b, must (ends b (set_masterIP "127.0.0.1" (worker_of sample_uploaded "10")))
      (mkConn (isFileAccessibleToWorker "7" "1" "127.0.0.1" FILE_TYPE_CENTRALSTORE_AGGREGATE "")
         (serve elements 0 no_other 3) (worker_of sample_uploaded "10") [] []) /\
    if decide (b = "false")
    then must (ends_as BATCH_UPLOAD_ACK sample_copied_one "10" (worker_of sample_uploaded "10"))
      (mkConn (copyCentralStoreToAggregator 4 [1; 0; 30]%nat 7 1
           (master_files sample_uploaded !! "/master/7_centralstore_1.gz") "127.0.0.1")
         (serve elements 0 (upload_commands 4 no_other) 3)
         (set_masterIP "127.0.0.1" (worker_of sample_uploaded "10")) [] [])
    else sample_copied_one = sample_uploaded.
Proof.
  apply (copy_call elements 0 no_other "127.0.0.1" ltac:(a_clean_word) sample_uploaded "10" _ sample_at_rest
    7 1 "" [1; 0; 30]%nat 4 0 sample_copied_one); [done|done|cbn; lia|vm_compute; reflexivity].
Defined.

Lemma sample_written_at_rest : at_rest sample_written "11" (worker_of sample_written "11").
Proof. split; [vm_compute; reflexivity|done]. Qed.

Definition sample_put : hosts :=
  Eval vm_compute in (call_upload 7 "11" (partition_file sample_metis 1) true sample_written).2.

Lemma upload_call_witness :
  must (ends_as true sample_put "11" (worker_of sample_written "11"))
    (mkConn (uploadFileToWorker 3 [5; 5]%nat 7 "7_1.gz" (master_files sample_written !! partition_file sample_metis 1)
       "127.0.0.1" BATCH_UPLOAD) (serve elements 0 (upload_commands 3 no_other) 3) (worker_of sample_written "11") [] []).
Proof.
  apply (upload_call elements 0 no_other "127.0.0.1" ltac:(a_clean_word) sample_written "11" _ sample_written_at_rest
    7 "7_1" (store_bytes (st_local (partition_stores sample_metis sample_index 1))) (partition_file sample_metis 1) true
    [5; 5]%nat 3 0 sample_put);
    [done|cbn; lia|a_clean_word|vm_compute; reflexivity|vm_compute; reflexivity|vm_compute; reflexivity].
Defined.

Lemma aggregation_hangs_witness :
  must (fun x => halted x /\ finished x = false)
    (mkConn (countCentralStoreTriangles 6 "0" "" "7" "127.0.0.1" 5 "trace") (serve elements 0 no_other 3)
       (worker_of sample_uploaded "10") [] []).
Proof.
  apply (aggregation_hangs elements 0 no_other "127.0.0.1" ltac:(a_clean_word) (worker_of sample_uploaded "10")
    "7" "0" "" "trace" 5 0 5); [a_clean_word..|done|by left].
Defined.

Lemma file_transfer_witness :
  must (delivered "/data/7_0.gz" (chars "abc") sample_worker)
    (mkConn (sendFileThroughService "7_0.gz" (chars "abc")) filetransferservicesession sample_worker [] []).
Proof. apply (file_transfer "7_0.gz" (chars "abc") sample_worker); [a_clean_word|done]. Defined.

(** ** Several partitions on a worker *)

(** When a worker has several partitions the stores of its own partitions are
    not copied to its aggregation folder, and the aggregation leaves them
    out: on one worker the sample graph has two triangles, on three it has
    its three. *)
Theorem crowded_worker_undercounts :
  (upload_and_count elements 0 "trace" no_composite sample_metis sample_index ["10"] sample_workerList sample_workers sample_hosts).1 =
    Ret 2 /\
  (upload_and_count elements 0 "trace" no_composite sample_metis sample_index sample_hostList sample_workerList sample_workers
    sample_hosts).1 = Ret 3.
Proof. split; vm_compute; reflexivity. Qed.
