(* ===== verification/SharedBuffer.v ===== *)
(** * SharedBuffer: the bounded buffer between two query operators

    [SharedBuffer] (query/processor/cypher/util/SharedBuffer.cpp) is a mutex,
    a condition variable and a deque of at most [max_size] rows.  Its
    operations are first the bodies of the critical sections; then the
    monitor, where a thread that waits sleeps until a notification - or
    nothing at all - wakes it.  The theorems say that with one producer and
    one consumer, which is how the operators use it, rows come out in the
    order they went in, the bound holds, no wake-up is lost, and every row
    arrives. *)
From Stdlib Require Import ZArith Ascii String Lia.
From stdpp Require Import base tactics numbers list strings.
From S2P Require Import Prelude.

(** ** The critical sections *)

Record SharedBuffer := mkSharedBuffer {
  max_size : nat;
  buffer : list string
}.

Definition with_rows (l : list string) (b : SharedBuffer) : SharedBuffer :=
  mkSharedBuffer (max_size b) l.

(** The predicates the two waits use. *)
Definition has_room (b : SharedBuffer) : bool := (length (buffer b) <? max_size b)%nat.
Definition has_row (b : SharedBuffer) : bool :=
  match buffer b with [] => false | _ => true end.

Arguments has_room : simpl never.
Arguments has_row : simpl never.

(** A wait whose predicate is false does not return; here [deadlock] stands
    for the wait, which the other side may end. *)
Definition add (data : string) : M SharedBuffer unit := fun b =>
  if has_room b then (Ret tt, with_rows (buffer b ++ [data]) b) else (Deadlock, b).

Definition get : M SharedBuffer string := fun b =>
  match buffer b with
  | [] => (Deadlock, b)
  | d :: r => (Ret d, with_rows r b)
  end.

Definition tryGet : M SharedBuffer (option string) := fun b =>
  match buffer b with
  | [] => (Ret None, b)
  | d :: r => (Ret (Some d), with_rows r b)
  end.

Definition empty_buffer : M SharedBuffer bool := fun b => (Ret (negb (has_row b)), b).

Definition clear_buffer : M SharedBuffer unit := modify (with_rows []).

(** [expired]: no row came before the timeout. *)
Definition getWithTimeout (expired : bool) : M SharedBuffer (option string) := fun b =>
  match buffer b with
  | [] => if expired then (Ret None, b) else (Deadlock, b)
  | d :: r => (Ret (Some d), with_rows r b)
  end.

(** ** The monitor

    A producer that adds the rows of a list, a consumer that gets [wanted]
    rows.  A thread runs its critical section from the lock to the unlock in
    one step; when the predicate of its wait is false it goes to sleep, and
    a thread that finishes notifies the condition variable. *)

Record monitor := mkMonitor {
  shared : SharedBuffer;
  to_add : list string;
  producer_awake : bool;
  wanted : nat;
  got : list string;
  consumer_awake : bool
}.

Definition produce (m : monitor) : option monitor :=
  match to_add m, producer_awake m with
  | d :: r, true =>
      Some (match add d (shared m) with
            | (Ret _, b) => mkMonitor b r true (wanted m) (got m) true
            | (_, b) => mkMonitor b (d :: r) false (wanted m) (got m) (consumer_awake m)
            end)
  | _, _ => None
  end.

Definition consume (m : monitor) : option monitor :=
  match wanted m, consumer_awake m with
  | S n, true =>
      Some (match get (shared m) with
            | (Ret d, b) => mkMonitor b (to_add m) true n (got m ++ [d]) true
            | (_, b) => mkMonitor b (to_add m) (producer_awake m) (S n) (got m) false
            end)
  | _, _ => None
  end.

Inductive monitor_step : monitor -> monitor -> Prop :=
| step_produce m m' : produce m = Some m' -> monitor_step m m'
| step_consume m m' : consume m = Some m' -> monitor_step m m'.

(** The standard allows a wait to return without a notification. *)
Inductive spurious : monitor -> monitor -> Prop :=
| wake_producer m :
    spurious m (mkMonitor (shared m) (to_add m) true (wanted m) (got m) (consumer_awake m))
| wake_consumer m :
    spurious m (mkMonitor (shared m) (to_add m) (producer_awake m) (wanted m) (got m) true).

Definition start_monitor (cap : nat) (rows : list string) : monitor :=
  mkMonitor (mkSharedBuffer cap []) rows true (length rows) [] true.

Inductive reachable (cap : nat) (rows : list string) : monitor -> Prop :=
| reach_start : reachable cap rows (start_monitor cap rows)
| reach_step m m' : reachable cap rows m -> monitor_step m m' -> reachable cap rows m'
| reach_spurious m m' : reachable cap rows m -> spurious m m' -> reachable cap rows m'.

(** ** Invariants *)

Definition monitor_ok (cap : nat) (rows : list string) (m : monitor) : Prop :=
  max_size (shared m) = cap /\
  got m ++ buffer (shared m) ++ to_add m = rows /\
  (length (buffer (shared m)) <= cap)%nat /\
  wanted m = length (buffer (shared m) ++ to_add m) /\
  (producer_awake m = false -> has_room (shared m) = false) /\
  (consumer_awake m = false -> has_row (shared m) = false).

Lemma produce_ok cap rows m m' :
  monitor_ok cap rows m -> produce m = Some m' -> monitor_ok cap rows m'.
Proof.
  destruct m as [[n b] a pa w g ca]. unfold monitor_ok, produce, add. cbn.
  intros (-> & Hrows & Hle & Hw & Hp & Hc) H.
  destruct a as [|d r]; [done|]. destruct pa; [|done].
  destruct (has_room _) eqn:E; injection H as <-; cbn.
  - apply Nat.ltb_lt in E. cbn in E. rewrite length_app. cbn.
    split_and!; try done; try lia.
    + by rewrite <- (app_assoc b).
    + rewrite Hw, !length_app. cbn. lia.
  - split_and!; try done.
Qed.

Lemma consume_ok cap rows m m' :
  monitor_ok cap rows m -> consume m = Some m' -> monitor_ok cap rows m'.
Proof.
  destruct m as [[n b] a pa w g ca]. unfold monitor_ok, consume, get. cbn.
  intros (-> & Hrows & Hle & Hw & Hp & Hc) H.
  destruct w as [|w]; [done|]. destruct ca; [|done].
  destruct b as [|d r]; injection H as <-; cbn in *; split_and!; try done; try lia.
  by rewrite <- (app_assoc g).
Qed.

Lemma reachable_ok cap rows m : reachable cap rows m -> monitor_ok cap rows m.
Proof.
  induction 1 as [|m m' _ IH Hs|m m' _ IH Hs].
  - unfold monitor_ok; cbn. split_and!; try done; lia.
  - destruct Hs as [? ? Hs|? ? Hs]; [by eapply produce_ok|by eapply consume_ok].
  - destruct IH as (?&?&?&?&?&?). destruct Hs; by split_and!.
Qed.

(** ** Every row arrives *)

Definition delivered (rows : list string) (m : monitor) : Prop :=
  got m = rows /\ to_add m = [] /\ wanted m = 0%nat.

(** Every execution without spurious wake-ups reaches [P]. *)
Inductive leads (P : monitor -> Prop) : monitor -> Prop :=
| leads_now m : P m -> leads P m
| leads_step m :
    (exists m', monitor_step m m') -> (forall m', monitor_step m m' -> leads P m') -> leads P m.

Definition monitor_work (m : monitor) : nat :=
  3 * (length (to_add m) + wanted m) + Nat.b2n (producer_awake m) + Nat.b2n (consumer_awake m).

Lemma monitor_progress m m' : monitor_step m m' -> (monitor_work m' < monitor_work m)%nat.
Proof.
  destruct 1 as [m m' H|m m' H]; destruct m as [[n b] a pa w g ca]; revert H;
    unfold monitor_work, produce, consume, add, get; cbn.
  - destruct a as [|d r], pa; try done.
    destruct (has_room _); intros [= <-]; destruct ca; cbn; lia.
  - destruct w as [|w], ca; try done.
    destruct b; intros [= <-]; destruct pa; cbn; lia.
Qed.

Lemma monitor_alive cap rows m :
  (0 < cap)%nat -> monitor_ok cap rows m -> delivered rows m \/ exists m', monitor_step m m'.
Proof.
  destruct m as [[n b] a pa w g ca]. unfold monitor_ok, delivered. cbn.
  intros Hcap (-> & Hrows & Hle & Hw & Hp & Hc). destruct w as [|w].
  - symmetry in Hw. apply length_zero_iff_nil, app_eq_nil in Hw as [-> ->].
    left. by rewrite !app_nil_r in Hrows.
  - right. destruct ca.
    + eexists. apply step_consume. reflexivity.
    + assert (b = []) as -> by (destruct b; [done|by specialize (Hc eq_refl)]).
      destruct a as [|d r]; [done|]. destruct pa.
      * eexists. apply step_produce. reflexivity.
      * specialize (Hp eq_refl). apply Nat.ltb_ge in Hp. cbn in Hp. lia.
Qed.

Lemma leads_delivered cap rows m :
  (0 < cap)%nat -> monitor_ok cap rows m -> leads (delivered rows) m.
Proof.
  intros Hcap. induction m as [m IH] using (well_founded_induction (Wf_nat.well_founded_ltof _ monitor_work)).
  intros Hok. destruct (monitor_alive cap rows m Hcap Hok) as [Hd|Hs]; [by apply leads_now|].
  apply leads_step; [done|]. intros m' Hm'. apply IH.
  - unfold Wf_nat.ltof. by apply monitor_progress.
  - destruct Hm' as [? ? Hm'|? ? Hm']; [by eapply produce_ok|by eapply consume_ok].
Qed.

(** C14. A buffer between one producer and one consumer: whatever the
    scheduling and whatever wakes up without cause, the rows got and the rows
    in the buffer and the rows still to be added are at all times the rows of
    the producer in their order, the buffer never holds more than its
    maximum, a thread asleep has nothing to do (no wake-up is lost), and from
    there every execution delivers all rows. *)
Theorem buffer_delivers cap rows m :
  (0 < cap)%nat -> reachable cap rows m ->
  got m ++ buffer (shared m) ++ to_add m = rows /\
  (length (buffer (shared m)) <= cap)%nat /\
  (producer_awake m = false -> has_room (shared m) = false) /\
  (consumer_awake m = false -> has_row (shared m) = false) /\
  leads (delivered rows) m.
Proof.
  intros Hcap Hr. apply reachable_ok in Hr. pose proof Hr as (_ & ? & ? & _ & ? & ?).
  split_and!; try done. by eapply leads_delivered.
Qed.

Definition sample_monitor : monitor :=
  mkMonitor (mkSharedBuffer 1 ["a"]) ["b"; "c"] false 3 [] true.

Lemma buffer_delivers_witness :
  got sample_monitor ++ buffer (shared sample_monitor) ++ to_add sample_monitor = ["a"; "b"; "c"] /\
  leads (delivered ["a"; "b"; "c"]) sample_monitor.
Proof.
  destruct (buffer_delivers 1 ["a"; "b"; "c"] sample_monitor) as (H & _ & _ & _ & Hl); [lia| |by split].
  eapply reach_step; [eapply reach_step; [apply reach_start|]|]; apply step_produce; reflexivity.
Defined.
