(* ===== verification/Pipelines.v ===== *)
(** * Pipelines: the threads of a query

    On a worker every operator of a plan is a thread (OperatorExecutor.cpp).
    An operator with an input starts the thread of its input, reads rows from
    the buffer between them until it reads "-1", and adds rows, and "-1" at
    the end, to the buffer of the operator above; [handleRequest] of
    InstanceHandler.cpp starts the outermost one and publishes what it reads.
    A [stage] is the body of such a loop, a [pipe] the threads and buffers of
    a plan with one scan at its end, and the steps of the threads interleave
    freely.  The theorem: all executions publish the same rows - those of the
    stages applied to the whole list of rows one after the other - and end
    with every thread ready to be joined. *)
From Stdlib Require Import ZArith Ascii String Lia.
From stdpp Require Import base tactics numbers list strings sets.
From S2P Require Import Prelude SharedBuffer.

(** ** Stages *)

(** The row that ends a stream. *)
Definition END : string := "-1".

(** The loop of an operator: its local variables, what it does with a row and
    what it adds before it passes "-1" on. *)
Record stage := mkStage {
  local : Type;
  start : local;
  on_row : local -> string -> outcome (local * list string);
  on_end : local -> outcome (list string)
}.

(** What the loop adds to its output when its input is a given list. *)
Fixpoint drain (p : stage) (v : local p) (input : list string) : outcome (list string) :=
  match input with
  | [] => Deadlock
  | raw :: r =>
      if decide (raw = END) then l ← on_end p v; Ret (l ++ [END])
      else vl ← on_row p v raw; rest ← drain p vl.1 r; Ret (vl.2 ++ rest)
  end.

(** The same without the end markers: a function on lists of rows. *)
Fixpoint transform (p : stage) (v : local p) (rows : list string) : outcome (list string) :=
  match rows with
  | [] => on_end p v
  | raw :: r => vl ← on_row p v raw; rest ← transform p vl.1 r; Ret (vl.2 ++ rest)
  end.

Fixpoint run_stages (ps : list stage) (rows : list string) : outcome (list string) :=
  match ps with
  | [] => Ret rows
  | p :: ps => l ← transform p (start p) rows; run_stages ps l
  end.

(** ** Threads, buffers, plans *)

(** [loop] is None once the thread has read "-1"; [pending] is what it has
    computed and not yet added. *)
Record thread := mkThread {
  code : stage;
  loop : option (local code);
  pending : list string
}.

Definition with_pending (l : list string) (t : thread) : thread :=
  mkThread (code t) (loop t) l.

Definition take_row (p : stage) (v : local p) (raw : string) : outcome thread :=
  if decide (raw = END) then l ← on_end p v; Ret (mkThread p None (l ++ [END]))
  else vl ← on_row p v raw; Ret (mkThread p (Some vl.1) vl.2).

Inductive pipe :=
| Source (rows : list string)
| Pipe (up : pipe) (between : SharedBuffer) (t : thread).

(** The outermost thread of a pipe is about to add a row to its output. *)
Inductive emits : pipe -> string -> pipe -> Prop :=
| emit_source s r : emits (Source (s :: r)) s (Source r)
| emit_thread up b t s r :
    pending t = s :: r -> emits (Pipe up b t) s (Pipe up b (with_pending r t)).

(** The steps within a pipe; a step that does not return ends the process. *)
Inductive inner : pipe -> outcome pipe -> Prop :=
| inner_add up up' b b' t s :
    emits up s up' -> add s b = (Ret tt, b') -> inner (Pipe up b t) (Ret (Pipe up' b' t))
| inner_up up o b t :
    inner up o -> inner (Pipe up b t) (up' ← o; Ret (Pipe up' b t))
| inner_read up b b' p v raw :
    get b = (Ret raw, b') ->
    inner (Pipe up b (mkThread p (Some v) [])) (t' ← take_row p v raw; Ret (Pipe up b' t')).

(** A query under way: [handleRequest] reads [results] and publishes. *)
Record query := mkQuery {
  plan : pipe;
  results : SharedBuffer;
  published : list string;
  ended : bool
}.

Inductive query_step : query -> outcome query -> Prop :=
| query_add p p' b b' l e s :
    emits p s p' -> add s b = (Ret tt, b') ->
    query_step (mkQuery p b l e) (Ret (mkQuery p' b' l e))
| query_inner p o b l e :
    inner p o -> query_step (mkQuery p b l e) (p' ← o; Ret (mkQuery p' b l e))
| query_publish p b b' l raw :
    get b = (Ret raw, b') ->
    query_step (mkQuery p b l false) (Ret (mkQuery p b' (l ++ [raw]) (bool_decide (raw = END)))).

(** Every execution from a state reaches [P], and no step on the way ends the
    process. *)
Inductive always (P : query -> Prop) : query -> Prop :=
| always_now q : P q -> always P q
| always_step q :
    (exists o, query_step q o) ->
    (forall o, query_step q o -> exists q', o = Ret q' /\ always P q') ->
    always P q.

(** All threads have left their loops and have nothing left to add. *)
Fixpoint idle (p : pipe) : Prop :=
  match p with
  | Source rows => rows = []
  | Pipe up b t => idle up /\ buffer b = [] /\ loop t = None /\ pending t = []
  end.

Definition INTER_OPERATOR_BUFFER_SIZE : nat := 5.

Definition new_buffer : SharedBuffer := mkSharedBuffer INTER_OPERATOR_BUFFER_SIZE [].

(** The threads when they start, the scan with the rows it is going to add. *)
Fixpoint start_pipe (up : pipe) (ps : list stage) : pipe :=
  match ps with
  | [] => up
  | p :: ps => start_pipe (Pipe up new_buffer (mkThread p (Some (start p)) [])) ps
  end.

Definition start_query (rows : list string) (ps : list stage) : query :=
  mkQuery (start_pipe (Source (rows ++ [END])) ps) new_buffer [] false.

(** ** Streams *)

Lemma drain_transform p v rows :
  END ∉ rows -> drain p v (rows ++ [END]) = (l ← transform p v rows; Ret (l ++ [END])).
Proof.
  revert v. induction rows as [|raw r IH]; intros v Hn; cbn.
  - by rewrite decide_True.
  - rewrite decide_False by set_solver.
    destruct (on_row p v raw) as [[v' l]| | | | |]; try done. cbn.
    rewrite IH by set_solver. destruct (transform p v' r); try done. cbn.
    by rewrite app_assoc.
Qed.

Lemma drain_end p v l out : drain p v l = Ret out -> exists r, out = r ++ [END].
Proof.
  revert v out. induction l as [|raw r IH]; intros v out; [done|]. cbn.
  destruct (decide _); intros H; apply outcome_bind_Ret_inv in H as (vl & _ & H); [injection H as <-; by eexists|].
  apply outcome_bind_Ret_inv in H as (l2 & H2 & [= <-]).
  destruct (IH _ _ H2) as [r' ->]. eexists. by rewrite app_assoc.
Qed.

(** A stage that never adds "-1" except at its end. *)
Definition well_behaved (p : stage) : Prop := forall rows out,
  END ∉ rows -> transform p (start p) rows = Ret out -> END ∉ out.

(** No operator of a run adds "-1" except at its end. *)
Fixpoint clean_run (ps : list stage) (rows : list string) : Prop :=
  match ps with
  | [] => True
  | p :: ps => forall l, transform p (start p) rows = Ret l -> END ∉ l /\ clean_run ps l
  end.

Lemma well_behaved_clean ps rows : Forall well_behaved ps -> END ∉ rows -> clean_run ps rows.
Proof.
  intros Hps. revert rows. induction Hps as [|p ps Hp _ IH]; intros rows Hr; [done|].
  intros l Hl. assert (END ∉ l) by (by eapply Hp). by split; [|apply IH].
Qed.

(** What the outermost thread of a pipe will still add. *)
Definition thread_out (t : thread) (input : list string) : outcome (list string) :=
  match loop t with
  | Some v => l ← drain (code t) v input; Ret (pending t ++ l)
  | None => Ret (pending t)
  end.

Fixpoint future (p : pipe) : outcome (list string) :=
  match p with
  | Source rows => Ret rows
  | Pipe up b t => l ← future up; thread_out t (buffer b ++ l)
  end.

(** A stream that has not ended has one "-1", at its end. *)
Definition open_stream (l : list string) : Prop := exists r, l = r ++ [END] /\ END ∉ r.

(** The invariant of a pipe with the stream it still produces: the buffers
    have room for a row when they are empty, and a thread in its loop still
    has the end of its input before it. *)
Fixpoint pipe_ok (p : pipe) (out : list string) : Prop :=
  match p with
  | Source rows => out = rows
  | Pipe up b t => exists l,
      pipe_ok up l /\ (0 < max_size b)%nat /\ thread_out t (buffer b ++ l) = Ret out /\
      match loop t with
      | Some _ => open_stream (buffer b ++ l)
      | None => buffer b ++ l = []
      end
  end.

Lemma open_stream_cons raw l :
  open_stream (raw :: l) -> (raw = END /\ l = []) \/ (raw <> END /\ open_stream l).
Proof.
  intros ([|x r] & H & Hn); cbn in H; injection H as -> ->; [by left|right].
  split; [set_solver|]. exists r. split; [done|set_solver].
Qed.

Lemma emits_ok p s p' out :
  emits p s p' -> pipe_ok p out -> exists out', out = s :: out' /\ pipe_ok p' out'.
Proof.
  destruct 1 as [s r|up b t s r Ht]; cbn; [intros ->; by eexists|].
  intros (l & Hup & Hb & Hout & Hl). unfold thread_out in Hout. rewrite Ht in Hout.
  destruct t as [c [v|] q]; cbn in *; subst q.
  - apply outcome_bind_Ret_inv in Hout as (l' & Hd & [= <-]).
    eexists. split; [done|]. exists l. unfold thread_out. cbn. by rewrite Hd.
  - injection Hout as <-. eexists. split; [done|]. by exists l.
Qed.

(** The work left within a pipe; it needs the length of the streams. *)
Fixpoint work (p : pipe) : nat :=
  match p with
  | Source _ => 0
  | Pipe up b _ =>
      work up + length (buffer b) + 2 * match future up with Ret l => length l | _ => 0 end
  end.

Lemma pipe_ok_future p out : pipe_ok p out -> future p = Ret out.
Proof.
  revert out. induction p as [rows|up IH b t]; cbn; intros out; [by intros ->|].
  intros (l & Hup & _ & Ht & _). by rewrite (IH _ Hup).
Qed.

Lemma add_Ret s b b' :
  add s b = (Ret tt, b') -> buffer b' = buffer b ++ [s] /\ max_size b' = max_size b.
Proof. unfold add. destruct (has_room b); by intros [= <-]. Qed.

Lemma get_Ret raw b b' :
  get b = (Ret raw, b') -> buffer b = raw :: buffer b' /\ max_size b' = max_size b.
Proof. unfold get. destruct (buffer b) as [|d r] eqn:E; [done|]. by intros [= <- <-]. Qed.

Lemma emits_work p s p' : emits p s p' -> work p' = work p.
Proof. by destruct 1. Qed.

Lemma read_ok p v raw l out :
  open_stream (raw :: l) -> drain p v (raw :: l) = Ret out ->
  exists t', take_row p v raw = Ret t' /\ thread_out t' l = Ret out /\
    match loop t' with Some _ => open_stream l | None => l = [] end.
Proof.
  intros Ho. unfold take_row. cbn. destruct (open_stream_cons _ _ Ho) as [[-> ->]|[Hne Ho']].
  - destruct (decide _) as [_|]; [|done]. intros H.
    apply outcome_bind_Ret_inv in H as (l' & -> & [= <-]). cbn. by eexists.
  - destruct (decide _) as [|_]; [done|]. intros H.
    apply outcome_bind_Ret_inv in H as ([v' l1] & -> & H).
    apply outcome_bind_Ret_inv in H as (l2 & H2 & [= <-]). cbn.
    eexists. split_and!; try done. unfold thread_out. cbn in *. by rewrite H2.
Qed.

(** A step within a pipe keeps its stream and leaves less work. *)
Lemma inner_ok p o : inner p o -> forall out, pipe_ok p out ->
  exists p', o = Ret p' /\ pipe_ok p' out /\ (work p' < work p)%nat.
Proof.
  induction 1 as [up up' b b' t s He Ha|up o b t Hi IH|up b b' p v raw Hg]; cbn;
    intros out (l & Hup & Hb & Hout & Hl).
  - destruct (emits_ok _ _ _ _ He Hup) as (l' & -> & Hup').
    destruct (add_Ret _ _ _ Ha) as [Hb' Hm]. eexists. split; [done|]. split.
    + exists l'. rewrite Hb', Hm, <- app_assoc. by cbn.
    + cbn. rewrite (emits_work _ _ _ He), (pipe_ok_future _ _ Hup), (pipe_ok_future _ _ Hup'), Hb', length_app.
      cbn. lia.
  - destruct (IH _ Hup) as (up' & -> & Hup' & Hw). eexists. split; [done|]. cbn. split; [by exists l|].
    rewrite (pipe_ok_future _ _ Hup), (pipe_ok_future _ _ Hup'). lia.
  - destruct (get_Ret _ _ _ Hg) as [Hb' Hm]. rewrite Hb' in *. cbn in Hl, Hout.
    unfold thread_out in Hout. cbn in Hout.
    assert (drain p v (raw :: buffer b' ++ l) = Ret out) as Hd.
    { apply outcome_bind_Ret_inv in Hout as (l' & Hd & [= <-]). by rewrite <- Hd. }
    destruct (read_ok _ _ _ _ _ Hl Hd) as (t' & -> & Ht' & Hl'). eexists. split; [done|]. cbn. split.
    + exists l. by rewrite Hm.
    + lia.
Qed.

(** A pipe that has rows left can move. *)
Lemma pipe_alive p x out :
  pipe_ok p (x :: out) -> (exists s p', emits p s p') \/ exists o, inner p o.
Proof.
  revert x out. induction p as [rows|up IH b [c lo q]]; cbn; intros x out.
  - intros <-. left. do 2 eexists. constructor.
  - intros (l & Hup & Hb & Hout & Hl). destruct q as [|s r].
    2:{ left. do 2 eexists. by constructor. }
    right. unfold thread_out in Hout. cbn in *. destruct lo as [v|]; [|done].
    destruct (buffer b) as [|raw r] eqn:E.
    + destruct l as [|y l]; [by destruct Hl as ([|? ?] & ? & _)|].
      destruct (IH _ _ Hup) as [(s & up' & He)|[o Ho]].
      * eexists. eapply inner_add; [done|]. unfold add, has_room. rewrite E. cbn.
        destruct (max_size b); [lia|done].
      * eexists. by apply inner_up.
    + eexists. eapply inner_read. unfold get. by rewrite E.
Qed.

(** A pipe that has nothing left to add is idle. *)
Lemma pipe_ended p : pipe_ok p [] -> idle p.
Proof.
  induction p as [rows|up IH b [c lo q]]; cbn; [done|].
  intros (l & Hup & Hb & Hout & Hl). unfold thread_out in Hout. cbn in *. destruct lo as [v|].
  - exfalso. apply outcome_bind_Ret_inv in Hout as (l' & Hd & H).
    injection H as H. apply app_eq_nil in H as [_ ->].
    by destruct (drain_end _ _ _ _ Hd) as [[|? ?] ?].
  - injection Hout as ->. apply app_eq_nil in Hl as [-> ->]. by split_and!; [apply IH|..].
Qed.

(** ** The query *)

Definition query_ok (out : list string) (q : query) : Prop := exists l,
  pipe_ok (plan q) l /\ (0 < max_size (results q))%nat /\
  published q ++ buffer (results q) ++ l = out ++ [END] /\
  (ended q = bool_decide (END ∈ published q)).

Definition query_work (q : query) : nat :=
  work (plan q) + length (buffer (results q)) +
  2 * match future (plan q) with Ret l => length l | _ => 0 end.

Lemma query_step_ok out q o :
  query_ok out q -> query_step q o ->
  exists q', o = Ret q' /\ query_ok out q' /\ (query_work q' < query_work q)%nat.
Proof.
  intros (l & Hp & Hb & Hl & He). destruct 1 as [p p' b b' r e s Hs Ha|p o b r e Hi|p b b' r raw Hg]; cbn in *.
  - destruct (emits_ok _ _ _ _ Hs Hp) as (l' & -> & Hp'). destruct (add_Ret _ _ _ Ha) as [Hb' Hm].
    eexists. split; [done|]. split.
    + exists l'. cbn. rewrite Hb', Hm, <- app_assoc. by cbn.
    + unfold query_work. cbn.
      rewrite (emits_work _ _ _ Hs), (pipe_ok_future _ _ Hp), (pipe_ok_future _ _ Hp'), Hb', length_app.
      cbn. lia.
  - destruct (inner_ok _ _ Hi _ Hp) as (p' & -> & Hp' & Hw). eexists. split; [done|].
    split; [by exists l|]. unfold query_work. cbn.
    rewrite (pipe_ok_future _ _ Hp), (pipe_ok_future _ _ Hp'). lia.
  - destruct (get_Ret _ _ _ Hg) as [Hb' Hm]. rewrite Hb' in Hl. eexists. split; [done|]. split.
    + exists l. cbn. rewrite Hm, <- app_assoc. split_and!; try done.
      symmetry in He. apply bool_decide_eq_false_1 in He. apply bool_decide_ext. set_solver.
    + unfold query_work. cbn. rewrite Hb'. cbn. lia.
Qed.

(** What is left when "-1" has been published. *)
Definition query_done (out : list string) (q : query) : Prop :=
  published q = out ++ [END] /\ ended q = true /\ buffer (results q) = [] /\ idle (plan q).

Lemma prefix_of_end (out r l : list string) :
  END ∉ out -> r ++ l = out ++ [END] -> END ∈ r -> r = out ++ [END] /\ l = [].
Proof.
  intros Hn H Hr. apply list_elem_of_split in Hr as (r1 & r2 & ->).
  rewrite <- app_assoc in H. cbn in H.
  assert (r1 = out /\ r2 ++ l = []) as [-> E].
  { revert out Hn H. induction r1 as [|x r1 IH]; intros [|y out] Hn H; cbn in *.
    - by injection H.
    - injection H as <- _. set_solver.
    - injection H as -> H. by destruct r1.
    - injection H as -> H. destruct (IH out) as [-> ?]; [set_solver|done|done]. }
  by apply app_eq_nil in E as [-> ->].
Qed.

Lemma query_alive out q :
  END ∉ out -> query_ok out q -> query_done out q \/ exists o, query_step q o.
Proof.
  destruct q as [p b r e]. intros Hn (l & Hp & Hb & Hl & He). unfold query_done. cbn in *. subst e.
  case_bool_decide as Hr.
  - left. destruct (prefix_of_end _ _ _ Hn Hl Hr) as [-> E]. apply app_eq_nil in E as [-> ->].
    split_and!; try done. by apply pipe_ended.
  - right. destruct (buffer b) as [|raw b'] eqn:E.
    + destruct l as [|x l].
      { exfalso. apply Hr. rewrite !app_nil_r in Hl. rewrite Hl. set_solver. }
      destruct (pipe_alive _ _ _ Hp) as [(s & p' & Hs)|[o Ho]].
      * eexists. eapply query_add; [done|]. unfold add, has_room. rewrite E. cbn.
        destruct (max_size b); [lia|done].
      * eexists. by apply query_inner.
    + eexists. apply query_publish. unfold get. by rewrite E.
Qed.

Lemma query_ok_always out q : END ∉ out -> query_ok out q -> always (query_done out) q.
Proof.
  intros Hn. induction q as [q IH] using (well_founded_induction (Wf_nat.well_founded_ltof _ query_work)).
  intros Hok. destruct (query_alive _ _ Hn Hok) as [Hd|Hs]; [by apply always_now|].
  apply always_step; [done|]. intros o Ho. destruct (query_step_ok _ _ _ Hok Ho) as (q' & -> & Hok' & Hw).
  exists q'. split; [done|]. by apply IH.
Qed.

Lemma start_pipe_ok ps rows out up :
  clean_run ps rows -> END ∉ rows -> pipe_ok up (rows ++ [END]) ->
  run_stages ps rows = Ret out -> pipe_ok (start_pipe up ps) (out ++ [END]) /\ END ∉ out.
Proof.
  revert rows up. induction ps as [|p ps IH]; cbn; intros rows up Hps Hn Hup H; [by injection H as <-|].
  apply outcome_bind_Ret_inv in H as (l & Hl & H). destruct (Hps l Hl) as [Hend Hps'].
  apply (IH l); [done|done| |done]. cbn. exists (rows ++ [END]).
  split_and!; [done|unfold INTER_OPERATOR_BUFFER_SIZE; lia| |by exists rows].
  unfold thread_out. cbn. rewrite drain_transform, Hl by done. done.
Qed.

Lemma pipeline_rows rows ps out :
  clean_run ps rows -> END ∉ rows -> run_stages ps rows = Ret out ->
  always (query_done out) (start_query rows ps).
Proof.
  intros Hps Hn H. destruct (start_pipe_ok ps rows out (Source (rows ++ [END]))) as [Hp Ho]; try done.
  apply query_ok_always; [done|]. exists (out ++ [END]). cbn.
  split_and!; try done. unfold INTER_OPERATOR_BUFFER_SIZE. lia.
Qed.

(** C12. A plan of one scan and any number of operators above it, with the
    five-row buffers between the threads: if the operators, each applied to
    the whole list of rows of the one below, give the rows [out], then in
    every interleaving of the threads - no step of which ends the process -
    the rows published to the master are [out] in that order and then "-1",
    after which all buffers are empty and all threads have ended, so that the
    joins return. *)
Theorem pipeline_delivers rows ps out :
  Forall well_behaved ps -> END ∉ rows -> run_stages ps rows = Ret out ->
  always (query_done out) (start_query rows ps).
Proof. intros Hps Hn. apply pipeline_rows; [by apply well_behaved_clean|done]. Qed.
