(* ===== verification/ParallelExecutor.v ===== *)
(** * ParallelExecutor: work within a partition in parallel

    [IntraPartitionParallelExecutor] (query/processor/executor/) cuts a range
    of items into chunks, gives the chunks to a pool of threads and collects
    the results in the order of the chunks.  The theorems: the chunks cover
    the range once and in order, and whatever the scheduling of the pool the
    results are those of the task on each chunk, so that a task which works
    item by item gives what a sequential loop gives. *)
From Stdlib Require Import ZArith Ascii String Lia.
From stdpp Require Import base tactics numbers list strings gmap.
From S2P Require Import Prelude.

(** ** Sizes *)

(** The number of threads: the cores, at least one and at most the
    configured maximum, which is 32 when the property is absent, empty or
    not a number. *)
Definition maxWorkerCount (property : option string) : Z :=
  match property with
  | None => 32
  | Some p => if decide (p = "") then 32 else match stoi p with inr n => n | inl _ => 32 end
  end.

Definition optimalWorkerCount (cores : Z) (property : option string) : Z :=
  Z.max 1 (Z.min (maxWorkerCount property) cores).

(** [size_t] arithmetic; the division traps when [targetChunks] is 0. *)
Definition calculateOptimalChunkSize (totalItems workers : Z) : outcome Z :=
  let targetChunks := u64 (u64 workers * 3) in
  if targetChunks =? 0 then Undef
  else Ret (Z.max 1000 (Z.min 100000 (totalItems / targetChunks))).

Definition shouldUseParallelProcessing (dataSize workerCount : Z) : bool :=
  (1000 <? dataSize) && (1 <? workerCount).

Record WorkChunk := mkChunk {
  startIndex : Z;
  endIndex : Z;
  estimatedSize : Z
}.

(** The loop runs at most once per item. *)
Fixpoint chunk_loop (fuel : nat) (begin totalItems chunkSize : Z) : outcome (list WorkChunk) :=
  if begin <? totalItems then
    match fuel with
    | O => OutOfFuel
    | S fuel =>
        let last := Z.min (s64 (begin + chunkSize) - 1) (totalItems - 1) in
        rest ← chunk_loop fuel (s64 (begin + chunkSize)) totalItems chunkSize;
        Ret (mkChunk begin last (last - begin + 1) :: rest)
    end
  else Ret [].

Definition createWorkChunks (totalItems chunkSize : Z) : outcome (list WorkChunk) :=
  chunk_loop (Z.to_nat totalItems) 0 totalItems chunkSize.

(** ** The thread pool

    [executeChunkedTasks] submits a task per chunk and then waits for the
    futures in the order of submission.  Meanwhile each of the workers takes
    the task at the front of the queue, runs it and sets its future. *)
Section pool.
Context {R : Type} (workers : nat) (task : WorkChunk -> R) (chunks : list WorkChunk).

Record pool := mkPool {
  submitted : nat;
  tasks : list nat;
  running : list nat;
  futures : gmap nat R;
  collected : list R
}.

Definition start_pool : pool := mkPool 0 [] [] ∅ [].

Inductive pool_step : pool -> pool -> Prop :=
| pool_submit n q r f c :
    (n < length chunks)%nat ->
    pool_step (mkPool n q r f c) (mkPool (S n) (q ++ [n]) r f c)
| pool_take n i q r f c :
    (length r < workers)%nat ->
    pool_step (mkPool n (i :: q) r f c) (mkPool n q (r ++ [i]) f c)
| pool_finish n q r1 i r2 f c chunk :
    chunks !! i = Some chunk ->
    pool_step (mkPool n q (r1 ++ i :: r2) f c)
              (mkPool n q (r1 ++ r2) (<[i := task chunk]> f) c)
| pool_collect n q r f c x :
    n = length chunks -> f !! length c = Some x ->
    pool_step (mkPool n q r f c) (mkPool n q r f (c ++ [x])).

(** Every execution from a state reaches [P]. *)
Inductive pool_leads (P : pool -> Prop) : pool -> Prop :=
| pool_now p : P p -> pool_leads P p
| pool_next p :
    (exists p', pool_step p p') -> (forall p', pool_step p p' -> pool_leads P p') ->
    pool_leads P p.

Definition pool_ok (p : pool) : Prop :=
  (submitted p <= length chunks)%nat /\
  (forall i, (i < submitted p)%nat <-> i ∈ tasks p \/ i ∈ running p \/ is_Some (futures p !! i)) /\
  (forall i x, futures p !! i = Some x -> exists c, chunks !! i = Some c /\ x = task c) /\
  collected p = task <$> take (length (collected p)) chunks.

Definition all_collected (p : pool) : Prop := collected p = task <$> chunks.

Definition pool_work (p : pool) : nat :=
  3 * (length chunks - submitted p) + 2 * length (tasks p) + length (running p) +
  (length chunks - length (collected p)).

Lemma pool_step_ok p p' : pool_ok p -> pool_step p p' -> pool_ok p'.
Proof.
  intros (Hs & Hi & Hf & Hc). destruct 1 as [n q r f c Hn|n i q r f c Hr|n q r1 i r2 f c chunk Hch|n q r f c x Hn Hx];
    unfold pool_ok in *; cbn in *; split_and!; try done; try lia.
  - intros j. rewrite elem_of_app, list_elem_of_singleton. rewrite Nat.lt_succ_r, Nat.le_lteq, Hi. tauto.
  - intros j. rewrite Hi, elem_of_cons, elem_of_app, list_elem_of_singleton. tauto.
  - intros j. rewrite Hi, !elem_of_app, elem_of_cons, lookup_insert_is_Some.
    destruct (decide (i = j)) as [->|]; [tauto|]. intuition congruence.
  - intros j x. destruct (decide (i = j)) as [->|].
    + rewrite lookup_insert_eq. intros [= <-]. by eexists.
    + rewrite lookup_insert_ne by done. apply Hf.
  - rewrite length_app. cbn. destruct (Hf _ _ Hx) as (ch & Hch & ->).
    rewrite Nat.add_1_r, (take_S_r _ _ _ Hch), fmap_app. by rewrite <- Hc.
Qed.

Lemma collected_length p : pool_ok p -> (length (collected p) <= length chunks)%nat.
Proof.
  intros (_ & _ & _ & Hc). rewrite Hc, length_fmap, length_take. lia.
Qed.

Lemma pool_step_work p p' : pool_ok p -> pool_step p p' -> (pool_work p' < pool_work p)%nat.
Proof.
  intros Hok Hstep. pose proof (collected_length _ (pool_step_ok _ _ Hok Hstep)) as Hl. revert Hl.
  unfold pool_work. destruct Hstep; cbn; rewrite ?length_app; cbn; lia.
Qed.

Lemma pool_alive p : (0 < workers)%nat -> pool_ok p -> all_collected p \/ exists p', pool_step p p'.
Proof.
  intros Hw Hok. pose proof (collected_length _ Hok) as Hl. destruct Hok as (Hs & Hi & Hf & Hc).
  destruct p as [n q r f c]. unfold all_collected. cbn in *.
  destruct (decide (n < length chunks)%nat); [right; eexists; by constructor|].
  destruct (decide (length c = length chunks)) as [E|].
  { left. rewrite Hc, E, take_ge; done. }
  right. assert (n = length chunks) as -> by lia.
  destruct (proj1 (Hi (length c))) as [Hq|[Hr|[x Hx]]]; [lia| | |eexists; by constructor].
  - destruct r as [|i r].
    + destruct q as [|i q]; [by apply elem_of_nil in Hq|]. eexists. by constructor.
    + destruct (lookup_lt_is_Some_2 chunks i) as [ch Hch]; [apply Hi; set_solver|].
      eexists. by apply (pool_finish _ _ [] i r).
  - apply list_elem_of_split in Hr as (r1 & r2 & ->).
    destruct (lookup_lt_is_Some_2 chunks (length c)) as [ch Hch]; [lia|].
    eexists. by eapply pool_finish.
Qed.

Lemma pool_delivers p : (0 < workers)%nat -> pool_ok p -> pool_leads all_collected p.
Proof.
  intros Hw. induction p as [p IH] using (well_founded_induction (Wf_nat.well_founded_ltof _ pool_work)).
  intros Hok. destruct (pool_alive p Hw Hok) as [Hd|Hs]; [by apply pool_now|].
  apply pool_next; [done|]. intros p' Hp'. apply IH; [by apply pool_step_work|by eapply pool_step_ok].
Qed.

Lemma start_pool_ok : pool_ok start_pool.
Proof.
  unfold pool_ok. cbn. split_and!; try done; [lia|]. intros i. split; [lia|].
  rewrite lookup_empty. intros [H|[H|[? H]]]; [by apply elem_of_nil in H..|done].
Qed.
End pool.

(** ** Chunks *)

Lemma s64_id z : 0 <= z < 9223372036854775808 -> s64 z = z.
Proof. intros H. unfold s64, u64. rewrite Z.mod_small by lia. by destruct (Z.ltb_spec z 9223372036854775808); [|lia]. Qed.

(** The items of a chunk: [for (long i = startIndex; i <= endIndex; ++i)]. *)
Definition items (c : WorkChunk) : list Z := seqZ (startIndex c) (endIndex c - startIndex c + 1).

Lemma chunk_loop_spec fuel begin total size :
  0 <= begin -> 0 < size -> total + size < 9223372036854775808 -> total - begin <= Z.of_nat fuel ->
  exists cs, chunk_loop fuel begin total size = Ret cs /\
    concat (items <$> cs) = seqZ begin (total - begin) /\
    Forall (fun c => begin <= startIndex c /\ estimatedSize c <= size /\ endIndex c < total) cs.
Proof.
  revert begin. induction fuel as [|fuel IH]; intros begin Hb Hs Ht Hf; cbn;
    destruct (Z.ltb_spec begin total) as [Hlt|Hge]; try lia;
    try (exists []; rewrite seqZ_nil by lia; done).
  rewrite s64_id by lia. destruct (IH (begin + size)) as (cs & -> & Hcs & Hall); [lia..|].
  eexists. split; [done|]. cbn. split.
  - rewrite Hcs. unfold items at 1. cbn. destruct (Z.le_gt_cases (begin + size) total) as [Hle|Hgt].
    + rewrite Z.min_l by lia. replace (begin + size - 1 - begin + 1) with size by lia.
      replace (total - begin) with (size + (total - (begin + size))) by lia.
      by rewrite seqZ_app by lia.
    + rewrite Z.min_r by lia. rewrite (seqZ_nil (begin + size)), app_nil_r by lia. f_equal. lia.
  - constructor; [cbn; lia|]. eapply Forall_impl; [exact Hall|]. cbn. intros c ?. lia.
Qed.

Lemma calculateOptimalChunkSize_range total workers :
  0 <= total -> 1 <= workers < 2147483648 ->
  exists size, calculateOptimalChunkSize total workers = Ret size /\ 1000 <= size <= 100000.
Proof.
  intros Ht Hw. unfold calculateOptimalChunkSize, u64.
  rewrite (Z.mod_small workers), Z.mod_small by lia.
  destruct (Z.eqb_spec (workers * 3) 0); [lia|]. eexists. split; [done|]. lia.
Qed.

Lemma concat_concat {A B} (g : A -> list B) (ls : list (list A)) :
  concat ((fun l => concat (g <$> l)) <$> ls) = concat (g <$> concat ls).
Proof.
  induction ls as [|l ls IH]; [done|]. cbn. by rewrite IH, fmap_app, concat_app.
Qed.

Lemma pool_leads_weaken {R} w (task : WorkChunk -> R) cs (P Q : pool -> Prop) p :
  (forall p, P p -> Q p) -> pool_leads w task cs P p -> pool_leads w task cs Q p.
Proof.
  intros H. induction 1 as [p Hp|p He _ IH]; [by apply pool_now, H|by apply pool_next].
Qed.

(** [processInParallel]: chunks, tasks, results in the order of the chunks. *)
Definition processInParallel {R} (totalItemCount workers : Z) (processor : WorkChunk -> R)
    (P : list R -> Prop) : Prop :=
  exists size chunks,
    calculateOptimalChunkSize totalItemCount workers = Ret size /\
    createWorkChunks totalItemCount size = Ret chunks /\
    pool_leads (Z.to_nat workers) processor chunks (fun p => P (collected p)) start_pool.

Lemma processInParallel_run {R} total workers (processor : WorkChunk -> R) :
  0 <= total < 4611686018427387904 -> 1 <= workers < 2147483648 ->
  exists chunks, processInParallel total workers processor (fun rs => rs = processor <$> chunks) /\
    concat (items <$> chunks) = seqZ 0 total /\
    Forall (fun c => endIndex c < total) chunks.
Proof.
  intros Ht Hw. destruct (calculateOptimalChunkSize_range total workers) as (size & Hsize & Hr); [lia..|].
  destruct (chunk_loop_spec (Z.to_nat total) 0 total size) as (cs & Hcs & Hitems & Hall); [lia..|].
  exists cs. split_and!.
  - exists size, cs. split_and!; [done|done|]. apply pool_delivers; [lia|apply start_pool_ok].
  - by rewrite Hitems, Z.sub_0_r.
  - eapply Forall_impl; [done|]. by intros c (_ & _ & ?).
Qed.

(** C23. For every number of worker threads and every scheduling of the pool,
    a task that handles the items of its chunk one after the other gives,
    chunk by chunk, the results a sequential loop over all items gives: no
    item is lost, repeated or moved, and the call returns. *)
Theorem parallel_is_sequential {A} (g : Z -> list A) total workers :
  0 <= total < 4611686018427387904 -> 1 <= workers < 2147483648 ->
  processInParallel total workers (fun c => concat (g <$> items c))
    (fun rs => concat rs = concat (g <$> seqZ 0 total)).
Proof.
  intros Ht Hw.
  destruct (processInParallel_run total workers (fun c => concat (g <$> items c)))
    as (cs & (size & cs' & H1 & H2 & H3) & Hitems & _); [done..|].
  exists size, cs'. split_and!; [done..|]. eapply pool_leads_weaken, H3. intros p ->.
  rewrite <- Hitems, <- concat_concat. f_equal. by rewrite <- list_fmap_compose.
Qed.

Lemma parallel_is_sequential_witness :
  processInParallel 2500 2 (fun c => concat ((fun i => if Z.even i then [i] else []) <$> items c))
    (fun rs => concat rs = concat ((fun i => if Z.even i then [i] else []) <$> seqZ 0 2500)).
Proof. apply (parallel_is_sequential (fun i => if Z.even i then [i] else [])); lia. Defined.
