(* ===== verification/Json.v ===== *)
(** * Json: the values of nlohmann::json the query processor works with

    Plans, conditions and rows are JSON: operators exchange the text of
    [json::dump], parse it with [json::parse] and index, extend and compare
    the values.  The values and their operations are definitions; the text is
    an interface, [JsonText], whose laws are what the library documents and
    the query processor relies on.  Objects are ordered by key, as in the
    library.  Floating point numbers are left out. *)
From Stdlib Require Import ZArith Ascii String Lia.
From stdpp Require Import base tactics numbers list strings sets.
From S2P Require Import Prelude.

Inductive json :=
| JNull
| JBool (b : bool)
| JInt (z : Z)
| JString (s : string)
| JArray (l : list json)
| JObject (m : list (string * json)).

(** ** Induction and equality through the lists *)

Section json_induction.
Context (P : json -> Prop).
Context (Hnull : P JNull) (Hbool : forall b, P (JBool b)) (Hint : forall z, P (JInt z)).
Context (Hstring : forall s, P (JString s)).
Context (Harray : forall l, Forall P l -> P (JArray l)).
Context (Hobject : forall m, Forall (fun kv => P kv.2) m -> P (JObject m)).

Fixpoint json_ind' (j : json) : P j :=
  match j with
  | JNull => Hnull
  | JBool b => Hbool b
  | JInt z => Hint z
  | JString s => Hstring s
  | JArray l => Harray l
      ((fix go l : Forall P l :=
         match l with [] => Forall_nil_2 P | x :: r => Forall_cons_2 P x r (json_ind' x) (go r) end) l)
  | JObject m => Hobject m
      ((fix go m : Forall (fun kv => P kv.2) m :=
         match m with
         | [] => Forall_nil_2 _
         | kv :: r => Forall_cons_2 (fun kv => P kv.2) kv r (json_ind' kv.2) (go r)
         end) m)
  end.
End json_induction.

(** [operator==] *)
Fixpoint json_eqb (a b : json) : bool :=
  match a, b with
  | JNull, JNull => true
  | JBool x, JBool y => Bool.eqb x y
  | JInt x, JInt y => x =? y
  | JString x, JString y => String.eqb x y
  | JArray l, JArray r =>
      (fix go l r := match l, r with
        | [], [] => true
        | x :: l, y :: r => json_eqb x y && go l r
        | _, _ => false end) l r
  | JObject l, JObject r =>
      (fix go l r := match l, r with
        | [], [] => true
        | (k, x) :: l, (k', y) :: r => String.eqb k k' && json_eqb x y && go l r
        | _, _ => false end) l r
  | _, _ => false
  end.

Lemma json_eqb_eq a b : json_eqb a b = true <-> a = b.
Proof.
  revert b. induction a as [|x|x|x|l IH|l IH] using json_ind'; intros [|y|y|y|r|r]; cbn;
    try (split; intros; by (discriminate || congruence)).
  - rewrite Bool.eqb_true_iff. split; congruence.
  - rewrite Z.eqb_eq. split; congruence.
  - rewrite String.eqb_eq. split; congruence.
  - revert r. induction IH as [|x l Hx _ IHl]; intros [|y r]; try (split; intros; by (discriminate || congruence)).
    rewrite andb_true_iff, Hx, IHl. split; [intros [-> [= ->]]; done|intros [= -> ->]; done].
  - revert r. induction IH as [|[k x] l Hx _ IHl]; intros [|[k' y] r]; try (split; intros; by (discriminate || congruence)).
    cbn in Hx. rewrite !andb_true_iff, String.eqb_eq, Hx, IHl.
    split; [intros [[-> ->] [= ->]]; done|intros [= -> -> ->]; done].
Qed.

#[export] Instance json_eq_dec : EqDecision json.
Proof.
  intros a b. destruct (json_eqb a b) eqn:E; [left|right].
  - by apply json_eqb_eq.
  - intros H. apply json_eqb_eq in H. congruence.
Defined.

(** How much there is in a value; its nesting is less. *)
Fixpoint json_size (j : json) : nat :=
  match j with
  | JArray l => S (foldr (fun x n => json_size x + n)%nat 0%nat l)
  | JObject m => S (foldr (fun kv n => json_size kv.2 + n)%nat 0%nat m)
  | _ => 1
  end.

Lemma json_size_pos j : (1 <= json_size j)%nat.
Proof. destruct j; apply le_n_S, Nat.le_0_l. Qed.

(** ** Objects *)

(** [std::less] on [std::string]: byte by byte. *)
Definition string_ltb (a b : string) : bool :=
  match String.compare a b with Lt => true | _ => false end.
Arguments string_ltb : simpl never.

Fixpoint find_key (k : string) (m : list (string * json)) : option json :=
  match m with
  | [] => None
  | (k', v) :: r => if String.eqb k k' then Some v else find_key k r
  end.

Fixpoint set_key (k : string) (v : json) (m : list (string * json)) : list (string * json) :=
  match m with
  | [] => [(k, v)]
  | (k', v') :: r =>
      if String.eqb k k' then (k, v) :: r
      else if string_ltb k k' then (k, v) :: (k', v') :: r
      else (k', v') :: set_key k v r
  end.

Fixpoint erase_key (k : string) (m : list (string * json)) : list (string * json) :=
  match m with
  | [] => []
  | (k', v') :: r => if String.eqb k k' then r else (k', v') :: erase_key k r
  end.

(** [j.contains(k)] *)
Definition contains (k : string) (j : json) : bool :=
  match j with JObject m => bool_decide (is_Some (find_key k m)) | _ => false end.

(** [j[k]] read from a value that is not const: an absent key appears with the
    value null, null becomes an object, anything else throws. *)
Definition index (k : string) (j : json) : outcome json :=
  match j with
  | JObject m => Ret (default JNull (find_key k m))
  | JNull => Ret JNull
  | _ => Throw json_error
  end.

(** [j[k]] read from a const value: an absent key is not checked. *)
Definition cindex (k : string) (j : json) : outcome json :=
  match j with
  | JObject m => match find_key k m with Some v => Ret v | None => Undef end
  | _ => Throw json_error
  end.

(** [j[k] = v] *)
Definition assign (k : string) (v : json) (j : json) : outcome json :=
  match j with
  | JObject m => Ret (JObject (set_key k v m))
  | JNull => Ret (JObject [(k, v)])
  | _ => Throw json_error
  end.

(** Conversions to C++ types. *)
Definition as_string (j : json) : outcome string :=
  match j with JString s => Ret s | _ => Throw json_error end.

Definition as_array (j : json) : outcome (list json) :=
  match j with JArray l => Ret l | _ => Throw json_error end.

Fixpoint traverse {A B} (f : A -> outcome B) (l : list A) : outcome (list B) :=
  match l with
  | [] => Ret []
  | x :: r => y ← f x; ys ← traverse f r; Ret (y :: ys)
  end.

Definition as_strings (j : json) : outcome (list string) := l ← as_array j; traverse as_string l.

(** A vector of strings as a value. *)
Definition strings_json (l : list string) : json := JArray (JString <$> l).

Definition is_null (j : json) : bool := match j with JNull => true | _ => false end.

(** [json j; j[k1] = v1; ...]: a value stays null until something is assigned. *)
Definition object (l : list (string * json)) : json :=
  match l with
  | [] => JNull
  | _ => JObject (foldl (fun m kv => set_key kv.1 kv.2 m) [] l)
  end.

(** [std::map::insert] does not overwrite. *)
Definition insert_key (k : string) (v : json) (m : list (string * json)) : list (string * json) :=
  match find_key k m with Some _ => m | None => set_key k v m end.

(** [j.clear()] keeps the type. *)
Definition clear (j : json) : json :=
  match j with
  | JNull => JNull
  | JBool _ => JBool false
  | JInt _ => JInt 0
  | JString _ => JString ""
  | JArray _ => JArray []
  | JObject _ => JObject []
  end.

(** ** Values the text represents faithfully

    Keys strictly increasing, integers of 64 bits, and ASCII strings: [dump]
    throws on a string that is not UTF-8. *)
Definition is_ascii (s : string) : bool := forallb (fun a => code a <? 128) (chars s).
Arguments is_ascii : simpl never.

Fixpoint keys_sorted (m : list (string * json)) : bool :=
  match m with
  | [] => true
  | (k, _) :: r => forallb (fun kv => string_ltb k kv.1) r && keys_sorted r
  end.

Fixpoint json_ok (j : json) : bool :=
  match j with
  | JNull | JBool _ => true
  | JInt z => (-9223372036854775808 <=? z) && (z <? 9223372036854775808)
  | JString s => is_ascii s
  | JArray l => forallb json_ok l
  | JObject m => keys_sorted m && forallb (fun kv => is_ascii kv.1 && json_ok kv.2) m
  end.

(** ** The text *)

Definition newline : ascii := "010"%char.

(** [json::parse] and [json::dump].  [parse] is None when it throws. *)
Class JsonText := {
  dump : json -> string;
  parse : string -> option json;
  parse_dump j : json_ok j = true -> parse (dump j) = Some j;
  dump_object m : exists r, dump (JObject m) = String "{"%char r;
  dump_null : dump JNull = "null";
  dump_line j : newline ∉ chars (dump j);
  dump_ascii j : json_ok j = true -> is_ascii (dump j) = true
}.

Definition parse_exn `{JsonText} (s : string) : outcome json :=
  match parse s with Some j => Ret j | None => Throw json_error end.

(** ** Lemmas *)

Lemma string_ltb_cons a s b t :
  string_ltb (String a s) (String b t) =
  (code a <? code b) || (code a =? code b) && string_ltb s t.
Proof.
  unfold string_ltb, code. cbn. unfold Ascii.compare.
  rewrite <- (N2Z.inj_compare (N_of_ascii a)). unfold Z.ltb.
  destruct (Z.compare_spec (Z.of_N (N_of_ascii a)) (Z.of_N (N_of_ascii b))) as [E|E|E]; cbn.
  - rewrite E, Z.eqb_refl. done.
  - done.
  - by rewrite (proj2 (Z.eqb_neq _ _)) by lia.
Qed.

Lemma code_inj a b : code a = code b -> a = b.
Proof. unfold code. intros H. apply N2Z.inj in H. by rewrite <- (ascii_N_embedding a), H, ascii_N_embedding. Qed.

Lemma string_ltb_irrefl s : string_ltb s s = false.
Proof. induction s as [|a s IH]; [done|]. rewrite string_ltb_cons, IH, Z.ltb_irrefl. by rewrite andb_false_r. Qed.

Lemma string_ltb_trans s t u : string_ltb s t = true -> string_ltb t u = true -> string_ltb s u = true.
Proof.
  revert t u. induction s as [|a s IH]; intros [|b t] [|c u]; try done.
  rewrite !string_ltb_cons, !orb_true_iff, !andb_true_iff, !Z.ltb_lt, !Z.eqb_eq.
  intros [H|[H Hs]] [H'|[H' Ht]]; [left; lia..|right]. split; [lia|]. by eapply IH.
Qed.

Lemma string_ltb_total s t : string_ltb s t = false -> s = t \/ string_ltb t s = true.
Proof.
  revert t. induction s as [|a s IH]; intros [|b t]; [by left|done|by right|].
  rewrite !string_ltb_cons, orb_false_iff, andb_false_iff, orb_true_iff, andb_true_iff.
  rewrite Z.ltb_ge, Z.ltb_lt, !Z.eqb_neq, Z.eqb_eq. intros [H1 H2].
  destruct (Z.eq_dec (code a) (code b)) as [E|]; [|right; left; lia].
  destruct H2 as [?|H2]; [done|]. apply code_inj in E as ->.
  destruct (IH _ H2) as [->|?]; [by left|right; right; done].
Qed.

Lemma find_set_key k v m : find_key k (set_key k v m) = Some v.
Proof.
  induction m as [|[k' v'] m IH]; cbn; [by rewrite String.eqb_refl|].
  destruct (String.eqb k k') eqn:E; cbn; [by rewrite String.eqb_refl|].
  destruct (string_ltb k k'); cbn; [by rewrite String.eqb_refl|]. by rewrite E.
Qed.

Lemma find_set_key_ne k k' v m : k <> k' -> find_key k' (set_key k v m) = find_key k' m.
Proof.
  intros Hne. assert (String.eqb k' k = false) as Hf by (apply String.eqb_neq; congruence).
  induction m as [|[k1 v1] m IH]; cbn; [by rewrite Hf|].
  destruct (String.eqb k k1) eqn:E; cbn.
  - apply String.eqb_eq in E as ->. by rewrite Hf.
  - destruct (string_ltb k k1); cbn; [by rewrite Hf|]. by rewrite IH.
Qed.

Lemma find_key_elem k m v : find_key k m = Some v -> (k, v) ∈ m.
Proof.
  induction m as [|[k' v'] m IH]; cbn; [done|].
  destruct (String.eqb_spec k k') as [->|]; [intros [= ->]; left|]. intros H. right. auto.
Qed.

Lemma set_key_elem k v m kv : kv ∈ set_key k v m -> kv = (k, v) \/ kv ∈ m.
Proof.
  induction m as [|[k' v'] m IH]; cbn; [set_solver|].
  destruct (String.eqb k k'); [set_solver|]. destruct (string_ltb k k'); set_solver.
Qed.

Lemma forallb_elem {A} (f : A -> bool) l : forallb f l = true <-> forall x, x ∈ l -> f x = true.
Proof. rewrite forallb_forall. setoid_rewrite list_elem_of_In. done. Qed.

Lemma set_key_sorted k v m : keys_sorted m = true -> keys_sorted (set_key k v m) = true.
Proof.
  induction m as [|[k' v'] m IH]; cbn; [done|]. rewrite andb_true_iff. intros [Hk Hm].
  destruct (String.eqb_spec k k') as [->|Hne]; cbn; [by rewrite Hk, Hm|].
  destruct (string_ltb k k') eqn:E; cbn.
  - rewrite E, Hk, Hm. cbn. rewrite andb_true_r. apply forallb_elem. intros x Hx.
    eapply string_ltb_trans; [done|]. rewrite forallb_elem in Hk. by apply Hk.
  - rewrite IH, andb_true_r by done. apply forallb_elem. intros x Hx.
    apply set_key_elem in Hx as [->|Hx]; [|rewrite forallb_elem in Hk; by apply Hk].
    by destruct (string_ltb_total _ _ E).
Qed.

Lemma json_ok_set_key k v m :
  json_ok (JObject m) = true -> is_ascii k = true -> json_ok v = true ->
  json_ok (JObject (set_key k v m)) = true.
Proof.
  cbn. rewrite !andb_true_iff, !forallb_elem. intros [Hs Hm] Hk Hv.
  split; [by apply set_key_sorted|]. intros x Hx.
  apply set_key_elem in Hx as [->|Hx]; [apply andb_true_iff; by split|auto].
Qed.

Lemma json_ok_assign k v j j' :
  assign k v j = Ret j' -> json_ok j = true -> is_ascii k = true -> json_ok v = true -> json_ok j' = true.
Proof.
  destruct j as [| | | | |m]; try discriminate; intros [= <-] Hj Hk Hv.
  - cbn. by rewrite Hk, Hv.
  - by apply json_ok_set_key.
Qed.

Lemma json_ok_find k m v : json_ok (JObject m) = true -> find_key k m = Some v -> json_ok v = true.
Proof.
  cbn. rewrite andb_true_iff, forallb_elem. intros [_ H] Hf.
  apply find_key_elem, H in Hf. by apply andb_true_iff in Hf as [_ ?].
Qed.

Lemma json_ok_index k j v : index k j = Ret v -> json_ok j = true -> json_ok v = true.
Proof.
  destruct j as [| | | | |m]; try discriminate; intros [= <-] Hj; [done|].
  destruct (find_key k m) eqn:E; [|done]. by eapply json_ok_find.
Qed.

Lemma parse_exn_dump `{JsonText} j : json_ok j = true -> parse_exn (dump j) = Ret j.
Proof. intros Hj. unfold parse_exn. by rewrite parse_dump. Qed.

Lemma dump_object_end `{JsonText} m : dump (JObject m) <> "-1".
Proof. destruct (dump_object m) as [r ->]. discriminate. Qed.

Lemma as_strings_json l : as_strings (strings_json l) = Ret l.
Proof.
  unfold as_strings, strings_json. cbn. induction l as [|s l IH]; [done|]. cbn. by rewrite IH.
Qed.

Lemma is_ascii_app s t : is_ascii (s +:+ t) = is_ascii s && is_ascii t.
Proof. unfold is_ascii. by rewrite chars_app, forallb_app. Qed.
