(* ===== verification/IncrementalStore.v ===== *)
(** * IncrementalStore: edges of a stream in the store of a partition

    JasmineGraphIncrementalLocalStore.cpp of localstore/incremental.  A worker
    gets the edges of a streamed graph as JSON texts, with the properties and
    the partitions of the edge and its two vertices, and enters them into the
    native store of the partition; texts for the embedding of vertices and
    edges are queued for another thread, which is not modelled. *)
From Stdlib Require Import ZArith Ascii String Lia.
From stdpp Require Import base tactics numbers list strings gmap.
From S2P Require Import Prelude FStream PropertyLinks NodeBlock RelationBlock NodeRelations NodeManager Json.

(** ** State *)

(** The manager of the store, and the requests for embeddings: vertex ids with
    their texts, and types of edges.  The last two fields are the keys that
    the vector indexes of the store already have. *)
Record local_store := mkLocalStore {
  nm : manager;
  embedNode : bool;
  node_embedding_requests : gmap string string;
  edge_embedding_requests : gset string;
  faissNodeStore : gset string;
  faissEdgeStore : gset string
}.

Definition set_nm (m : manager) (l : local_store) : local_store :=
  mkLocalStore m (embedNode l) (node_embedding_requests l) (edge_embedding_requests l) (faissNodeStore l) (faissEdgeStore l).
Definition set_node_requests (r : gmap string string) (l : local_store) : local_store :=
  mkLocalStore (nm l) (embedNode l) r (edge_embedding_requests l) (faissNodeStore l) (faissEdgeStore l).
Definition set_edge_requests (r : gset string) (l : local_store) : local_store :=
  mkLocalStore (nm l) (embedNode l) (node_embedding_requests l) r (faissNodeStore l) (faissEdgeStore l).

Definition set_edgeIndex (ix : gmap string Z) (m : manager) : manager :=
  Manager (dbs m) (graphID m) (partitionID m) (INDEX_KEY_SIZE m) (indexDB m) (edgeIndexDB m)
    (nextEdgeIndex m) (nextNodeIndex m) (nodeIndex m) ix (lockEdgeAdd m).

Definition on_manager {A} : M manager A -> M local_store A := zoom nm set_nm.
Definition on_databases {A} (c : M store A) : M local_store A := on_manager (on_store c).

(** ** Values *)

(** The elements of [begin()] to [end()] with their keys: null has none, and
    only the iterator of an object has a key. *)
Definition json_items (j : json) : outcome (list (string * json)) :=
  match j with
  | JObject m => Ret m
  | JNull | JArray [] => Ret []
  | _ => Throw json_error
  end.

(** [j.empty()] *)
Definition json_empty (j : json) : bool :=
  match j with JNull | JArray [] | JObject [] => true | _ => false end.

(** [get<int>()] *)
Definition as_int (j : json) : outcome Z :=
  match j with
  | JInt z => Ret (s32 z)
  | JBool b => Ret (if b then 1 else 0)
  | _ => Throw json_error
  end.

(** [strcpy(buffer, s.c_str())] into an array that has been used before: what
    lies behind the end of the new text stays. *)
Definition strcpy_over (buffer : list ascii) (s : string) : option (list ascii) :=
  if decide (length (c_str s) < length buffer)%nat
  then Some (c_str s ++ nul :: drop (S (length (c_str s))) buffer) else None.

(** [char meta[MAX_VALUE_SIZE] = {}; strcpy(meta, value)] *)
Definition meta_buffer (s : string) : option (list ascii) := strcpy_over (replicate 400 nul) s.

Section incremental.
Context {HM : HostMemory} `{JT : JsonText}.

(** ** Vertices *)

(** A vertex of a relation object. *)
Definition vertex_of (o : option NodeBlock) : M local_store NodeBlock := determinate o.

Definition addNodeMetaProperty (n : NodeBlock) (propertyKey propertyValue : string) : M local_store NodeBlock :=
  meta ← determinate (meta_buffer propertyValue);
  on_databases (addMetaProperty n propertyKey meta).

(** The loop over the properties of a vertex: the vertex object, the buffers of
    [value] and [label] and the text for the embedding. *)
Fixpoint node_properties (items : list (string * json)) (n : NodeBlock) (value label : list ascii) (text : string)
    : M local_store (NodeBlock * string) :=
  match items with
  | [] => mret (n, text)
  | (key, j) :: rest =>
      s ← lift (as_string j);
      value ← determinate (strcpy_over value s);
      '(n, label) ← (if String.eqb key "label" then
                       label ← determinate (strcpy_over label s);
                       n ← on_databases (addLabel n label);
                       mret (n, label)
                     else mret (n, label));
      shown ← determinate (cstring value);
      let text := if String.eqb key "id" then text else text +:+ shown +:+ String "010" "" in
      n ← on_databases (addProperty n key value);
      node_properties rest n value label text
  end.

(** The request for the embedding of a vertex. *)
Definition request_embedding (vertexJson : json) (nodeText : string) : M local_store unit :=
  l ← get_state;
  if embedNode l && negb (String.eqb nodeText "") then
    idJson ← lift (cindex "id" vertexJson); nodeId ← lift (as_string idJson);
    if bool_decide (nodeId ∉ faissNodeStore l) && bool_decide (node_embedding_requests l !! nodeId = None)
    then modify (set_node_requests (<[nodeId := nodeText]> (node_embedding_requests l)))
    else mret tt
  else mret tt.

(** [addSourceProperties] and [addDestinationProperties] differ in the vertex
    only. *)
Definition addVertexProperties (n : NodeBlock) (vertexJson : json) : M local_store NodeBlock :=
  n ← (if contains "properties" vertexJson then
         props ← lift (cindex "properties" vertexJson);
         if json_empty props then mret n
         else
           items ← lift (json_items props);
           '(n, text) ← node_properties items n (replicate 400 nul) (replicate LABEL_SIZE nul) "";
           _ ← request_embedding vertexJson text;
           mret n
       else mret n);
  pidJson ← lift (cindex "pid" vertexJson);
  pid ← lift (as_int pidJson);
  addNodeMetaProperty n "pid" (show_long pid).

Definition addSourceProperties (r : RelationBlock) (sourceJson : json) : M local_store RelationBlock :=
  n ← vertex_of (getSource r); n ← addVertexProperties n sourceJson; mret (setSource r n).
Definition addDestinationProperties (r : RelationBlock) (destinationJson : json) : M local_store RelationBlock :=
  n ← vertex_of (getDestination r); n ← addVertexProperties n destinationJson; mret (setDestination r n).

(** ** Edges *)

Definition request_edge_embedding (property : string) : M local_store unit :=
  l ← get_state;
  if embedNode l && bool_decide (property ∉ faissEdgeStore l) && bool_decide (property ∉ edge_embedding_requests l)
  then modify (set_edge_requests ({[property]} ∪ edge_embedding_requests l))
  else mret tt.

(** The loop over the properties of an edge, of either kind. *)
Fixpoint edge_properties (k : kind) (items : list (string * json)) (r : RelationBlock) (value type : list ascii)
    : M local_store RelationBlock :=
  match items with
  | [] => mret r
  | (key, j) :: rest =>
      s ← lift (as_string j);
      value ← determinate (strcpy_over value s);
      type ← (if String.eqb key "type" then
                type ← determinate (strcpy_over type s);
                _ ← request_edge_embedding s;
                t ← determinate (cstring type);
                _ ← on_databases (match k with
                                  | Local => addLocalRelationshipType r t
                                  | Central => addCentralRelationshipType r t
                                  end);
                mret type
              else mret type);
      r ← on_databases (addRelationProperty k r key value);
      edge_properties k rest r value type
  end.

Definition edge_property_part (k : kind) (r : RelationBlock) (edgeJson : json) : M local_store RelationBlock :=
  if contains "properties" edgeJson then
    props ← lift (cindex "properties" edgeJson);
    items ← lift (json_items props);
    edge_properties k items r (replicate 400 nul) (replicate MAX_TYPE_SIZE nul)
  else mret r.

Definition addLocalEdgeProperties (r : RelationBlock) (edgeJson : json) : M local_store RelationBlock :=
  edge_property_part Local r edgeJson.

(** [addRelationMetaProperty] of the local store. *)
Definition addEdgeMetaProperty (r : RelationBlock) (propertyKey propertyValue : string) : M local_store RelationBlock :=
  meta ← determinate (meta_buffer propertyValue);
  on_databases (addRelationMetaProperty r propertyKey meta).

Definition addCentralEdgeProperties (r : RelationBlock) (edgeJson : json) : M local_store RelationBlock :=
  r ← edge_property_part Central r edgeJson;
  source ← lift (cindex "source" edgeJson);
  pidJson ← lift (cindex "pid" source);
  pid ← lift (as_int pidJson);
  addEdgeMetaProperty r "pid" (show_long pid).

(** ** Messages *)

(** [getIDs]: the graph and the partition of a message. *)
Definition getIDs (edgeString : string) : string * Z :=
  let ids :=
    edgeJson ← parse_exn edgeString;
    if contains "properties" edgeJson then
      edgeProperties ← index "properties" edgeJson;
      g ← index "graphId" edgeProperties; graphId ← as_string g;
      p ← index "PID" edgeJson; pid ← as_int p;
      Ret (graphId, u32 pid)
    else Ret ("", 0) in
  match ids with Ret r => r | _ => ("", 0) end.

(** The properties of a vertex that comes alone. *)
Fixpoint alone_properties (items : list (string * json)) (n : NodeBlock) (value : list ascii) : M local_store NodeBlock :=
  match items with
  | [] => mret n
  | (key, j) :: rest =>
      s ← lift (as_string j);
      value ← determinate (strcpy_over value s);
      n ← on_databases (addProperty n key value);
      alone_properties rest n value
  end.

Definition add_alone (edgeJson : json) : M local_store unit :=
  idJson ← lift (index "id" edgeJson);
  nodeId ← lift (as_string idJson);
  newNode ← on_manager (addNode nodeId);
  n ← (if contains "properties" edgeJson then
         props ← lift (index "properties" edgeJson);
         items ← lift (json_items props);
         alone_properties items newNode (replicate 400 nul)
       else mret newNode);
  pidJson ← lift (index "pid" edgeJson);
  pid ← lift (as_int pidJson);
  meta ← determinate (meta_buffer (show_long pid));
  _ ← on_databases (addMetaProperty n "pid" meta);
  mret tt.

Definition add_edge_message (edgeJson : json) : M local_store unit :=
  sourceJson ← lift (index "source" edgeJson);
  destinationJson ← lift (index "destination" edgeJson);
  sj ← lift (index "id" sourceJson); sId ← lift (as_string sj);
  dj ← lift (index "id" destinationJson); dId ← lift (as_string dj);
  type ← lift (index "EdgeType" edgeJson);
  let isLocal := json_eqb type (JString "Local") in
  newRelation ← on_manager (if isLocal then addLocalEdge (sId, dId) else addCentralEdge (sId, dId));
  match newRelation with
  | None => mret tt
  | Some r =>
      r ← (if isLocal then addLocalEdgeProperties r edgeJson else addCentralEdgeProperties r edgeJson);
      r ← addSourceProperties r sourceJson;
      _ ← addDestinationProperties r destinationJson;
      mret tt
  end.

(** Every exception ends in a log entry. *)
Definition try_catch (c : M local_store unit) : M local_store unit := fun l =>
  match c l with (Throw _, l') => (Ret tt, l') | r => r end.

Definition addEdgeFromString (edgeString : string) : M local_store unit :=
  try_catch
    (edgeJson ← lift (parse_exn edgeString);
     if contains "isNode" edgeJson then add_alone edgeJson else add_edge_message edgeJson).

(** [setLocalRelationHead] of both vertices. *)
Definition set_heads (r : RelationBlock) : M local_store unit :=
  d ← vertex_of (getDestination r);
  _ ← on_databases (setLocalRelationHead d (raddr r));
  s ← vertex_of (getSource r);
  _ ← on_databases (setLocalRelationHead s (raddr r));
  mret tt.

(** [addLocalEdge] of the local store. *)
Definition store_addLocalEdge (edge : string) : M local_store unit :=
  try_catch
    (jsonEdge ← lift (parse_exn edge);
     jsonSource ← lift (index "source" jsonEdge);
     jsonDestination ← lift (index "destination" jsonEdge);
     if negb (contains "id" jsonSource) || negb (contains "id" jsonDestination) then mret tt
     else if negb (contains "properties" jsonEdge) then mret tt
     else if negb (contains "pid" jsonSource) || negb (contains "pid" jsonDestination) then mret tt
     else
       sj ← lift (index "id" jsonSource); sId ← lift (as_string sj);
       dj ← lift (index "id" jsonDestination); dId ← lift (as_string dj);
       newRelation ← on_manager (addLocalEdge (sId, dId));
       match newRelation with
       | None => mret tt
       | Some r =>
           r ← addLocalEdgeProperties r jsonEdge;
           r ← addSourceProperties r jsonSource;
           r ← addDestinationProperties r jsonDestination;
           set_heads r
       end).

(** [addCentralEdge] of the local store.  The manager's index of edge ids is looked up and extended; exceptions leave
    the method. *)
Definition store_addCentralEdge (edge : string) : M local_store unit :=
  jsonEdge ← lift (parse_exn edge);
  jsonSource ← lift (index "source" jsonEdge);
  jsonDestination ← lift (index "destination" jsonEdge);
  sj ← lift (index "id" jsonSource); sId ← lift (as_string sj);
  dj ← lift (index "id" jsonDestination); dId ← lift (as_string dj);
  props ← lift (index "properties" jsonEdge);
  newRelation ←
    (if contains "id" props then
       ej ← lift (index "id" props); edgeId ← lift (as_string ej);
       l ← get_state;
       match edgeIndex (nm l) !! edgeId with
       | None =>
           r ← on_manager (addCentralEdge (sId, dId));
           _ ← on_manager (modify (fun m => set_edgeIndex (<[edgeId := nextEdgeIndex m]> (edgeIndex m)) m));
           mret r
       | Some _ => mret None
       end
     else on_manager (addCentralEdge (sId, dId)));
  match newRelation with
  | None => mret tt
  | Some r =>
      r ← addCentralEdgeProperties r jsonEdge;
      r ← addSourceProperties r jsonSource;
      _ ← addDestinationProperties r jsonDestination;
      mret tt
  end.
End incremental.
