(* ===== verification/IncrementalTheory.v ===== *)
(** * IncrementalTheory: streamed edges build the property graph

    A message with an edge, its two vertices, their properties and partitions
    makes the partition hold the property graph of all messages so far: the
    first value of every vertex property and of the label stays, the last
    partition of a vertex counts, and the new edge has the properties and the
    type of its message. *)
From Stdlib Require Import ZArith Ascii String Lia.
From stdpp Require Import functions base tactics numbers list strings gmap.
From S2P Require Import Prelude FStream PropertyLinks PropertyLinkTheory NodeBlock RelationBlock NodeRelations.
From S2P Require Import NodeManager GraphFiles GraphTheory ManagerTheory PropertyOwners PropertyGraph EdgeData.
From S2P Require Import Json HashMapStores WorkerSessions Uploads IncrementalStore.

(** ** What a message says *)

(** A vertex: its id, its partition and its properties. *)
Record vertex_message := mkVertexMessage {
  vm_id : string;
  vm_pid : Z;
  vm_props : list (string * string)
}.

Record edge_message := mkEdgeMessage {
  em_source : vertex_message;
  em_destination : vertex_message;
  em_props : list (string * string)
}.

Definition string_items (items : list (string * string)) : list (string * json) :=
  (fun kv => (kv.1, JString kv.2)) <$> items.

Definition properties_say (o : option json) (items : list (string * string)) : Prop :=
  match o with Some p => p = JObject (string_items items) | None => items = [] end.

Definition vertex_says (j : json) (v : vertex_message) : Prop :=
  exists m, j = JObject m /\ find_key "id" m = Some (JString (vm_id v)) /\
    find_key "pid" m = Some (JInt (vm_pid v)) /\ properties_say (find_key "properties" m) (vm_props v).

Definition edge_says (j : json) (e : edge_message) : Prop :=
  exists m sj dj, j = JObject m /\ find_key "source" m = Some sj /\ vertex_says sj (em_source e) /\
    find_key "destination" m = Some dj /\ vertex_says dj (em_destination e) /\
    properties_say (find_key "properties" m) (em_props e).

Definition ends (e : edge_message) : string * string := (vm_id (em_source e), vm_id (em_destination e)).

(** ** What it means *)

Definition pid_shown (v : vertex_message) : string := show_long (s32 (vm_pid v)).

Definition property_arrives (s : string) (P : property_graph) (kv : string * string) : property_graph :=
  with_vprop s kv.1 kv.2 (if String.eqb kv.1 "label" then with_label_of s kv.2 P else P).

Definition vertex_arrives (v : vertex_message) (P : property_graph) : property_graph :=
  with_vpid (vm_id v) (pid_shown v) (foldl (property_arrives (vm_id v)) P (vm_props v)).

Definition edge_property_arrives (k : kind) (P : property_graph) (kv : string * string) : property_graph :=
  on_newest k (with_eprop kv.1 kv.2)
    (if String.eqb kv.1 "type" then on_newest k (with_etype kv.2) P else P).

Definition edge_data_arrives (k : kind) (e : edge_message) (P : property_graph) : property_graph :=
  let P := foldl (edge_property_arrives k) (with_edge k (ends e) P) (em_props e) in
  match k with Local => P | Central => on_newest Central (with_epid (pid_shown (em_source e))) P end.

(** The edge, then its source, then its destination. *)
Definition edge_arrives (k : kind) (e : edge_message) (P : property_graph) : property_graph :=
  vertex_arrives (em_destination e) (vertex_arrives (em_source e) (edge_data_arrives k e P)).

(** ** Messages that the fixed sizes of the store can take *)

Definition value_fits (w : string) : Prop := no_nul w /\ (length (chars w) < 400)%nat.

Definition item_fits (kv : string * string) : Prop :=
  key_ok kv.1 /\ value_fits kv.2 /\ (kv.1 = "label" -> (length (chars kv.2) < LABEL_SIZE)%nat).
Definition edge_item_fits (kv : string * string) : Prop :=
  key_ok kv.1 /\ value_fits kv.2 /\ (kv.1 = "type" -> (length (chars kv.2) < MAX_TYPE_SIZE)%nat).

(** The properties of an edge come in the order of their names; the type of a
    local edge must not be the first. *)
Definition edge_items_fit (k : kind) (items : list (string * string)) : Prop :=
  Forall edge_item_fits items /\ NoDup items.*1 /\ (k = Local -> head items.*1 <> Some "type").

Record fits_store (k : kind) (keysz : nat) (e : edge_message) : Prop := {
  fs_source : id_ok keysz (vm_id (em_source e));
  fs_destination : id_ok keysz (vm_id (em_destination e));
  fs_distinct : vm_id (em_source e) <> vm_id (em_destination e);
  fs_source_items : Forall item_fits (vm_props (em_source e));
  fs_destination_items : Forall item_fits (vm_props (em_destination e));
  fs_items : edge_items_fit k (em_props e)
}.

(** The links that a message may need in one database. *)
Definition links_needed (e : edge_message) : nat :=
  length (vm_props (em_source e)) + length (vm_props (em_destination e)) + length (em_props e) + 3.

(** ** Buffers *)

Lemma strcpy_over_run n buf w :
  length buf = n -> no_nul w -> (length (chars w) < n)%nat ->
  exists buf', strcpy_over buf w = Some buf' /\ length buf' = n /\ nul ∈ buf' /\ text_of buf' = w.
Proof.
  intros Hl Hn Hw. unfold strcpy_over. rewrite c_str_no_nul, decide_True by (done || lia).
  eexists. split; [reflexivity|]. split_and!.
  - rewrite length_app. cbn. rewrite length_drop. lia.
  - apply elem_of_app. right. left.
  - unfold text_of. rewrite until_nul_app by done. apply string_chars.
Qed.

Lemma value_buffer buf w :
  length buf = 400%nat -> value_fits w ->
  exists buf', strcpy_over buf w = Some buf' /\ value_ok buf' /\ text_of buf' = w.
Proof.
  intros Hl [H1 H2]. destruct (strcpy_over_run 400 buf w Hl H1 H2) as (buf' & E & L & N & T).
  by exists buf'.
Qed.

Lemma show_fits z : is_i32 z -> value_fits (show_long z).
Proof.
  intros Hz. split; [by apply show_long_avoids|]. rewrite length_list_ascii.
  enough (String.length (show_long z) <= 21)%nat by lia. by apply length_show_i32.
Qed.

Lemma pid_fits z : value_fits (show_long (s32 z)).
Proof.
  apply show_fits. unfold is_i32, s32. pose proof (u32_range z) as [? ?].
  case_match eqn:E; apply Z.ltb_lt in E || apply Z.ltb_ge in E; lia.
Qed.

(** ** The loops over properties *)

(** Nothing of the manager but its databases changes. *)
Definition only_dbs (m m' : manager) : Prop := m' = set_dbs (dbs m') m.

#[export] Instance only_dbs_refl : Reflexive only_dbs.
Proof. by intros []. Qed.
#[export] Instance only_dbs_trans : Transitive only_dbs.
Proof. intros m1 m2 m3 E1 E2. unfold only_dbs in *. rewrite E2, E1. done. Qed.

Lemma only_dbs_set s m : only_dbs m (set_dbs s m).
Proof. done. Qed.

Lemma on_databases_run {A} (c : M store A) l a s' :
  on_store c (nm l) = (Ret a, set_dbs s' (nm l)) -> on_databases c l = (Ret a, set_nm (set_dbs s' (nm l)) l).
Proof. intros R. unfold on_databases, on_manager. by apply zoom_run. Qed.

Section loops.
Context {HM : HostMemory} (objs : list (string * NodeBlock)) (e : option (kind * RelationBlock)).

(** What every step of a loop over a vertex keeps. *)
Definition vertex_state (l0 : local_store) (s : string) (k : nat) (P : property_graph) (n : NodeBlock) (l : local_store) : Prop :=
  holds (nm l) P ((s, n) :: objs) e /\ space k (dbs (nm l)) /\ only_dbs (nm l0) (nm l).

Lemma vertex_step l0 s k P n l P' s' n' k' :
  vertex_state l0 s k P n l -> holds (set_dbs s' (nm l)) P' ((s, n') :: objs) e -> space k' s' ->
  vertex_state l0 s k' P' n' (set_nm (set_dbs s' (nm l)) l).
Proof. intros (_ & _ & H) H1 H2. split_and!; try done. cbn. by etransitivity; [|apply only_dbs_set]. Qed.

Lemma vertex_items_run l0 s items : forall k P n l value lab text,
  s ∉ objs.*1 -> Forall item_fits items -> length value = 400%nat -> length lab = LABEL_SIZE ->
  vertex_state l0 s (length items + k) P n l ->
  exists l' n' text', node_properties (string_items items) n value lab text l = (Ret (n', text'), l') /\
    vertex_state l0 s k (foldl (property_arrives s) P items) n' l'.
Proof.
  induction items as [|[key w] items IH]; intros k P n l value lab text Hout Hfit Hval Hlab HS; [by exists l, n, text|].
  apply Forall_cons in Hfit as [(Hk & Hw & Hl) Hfit]. cbn [fst snd] in *.
  destruct (value_buffer value w Hval Hw) as (buf & Eb & Bok & Bt).
  assert (exists lab' l1 n1, (if String.eqb key "label" then
       label ← determinate (strcpy_over lab w); n ← on_databases (addLabel n label); mret (n, label)
     else mret (n, lab)) l = (Ret (n1, lab'), l1) /\ length lab' = LABEL_SIZE /\
     vertex_state l0 s (S (length items + k)) (if String.eqb key "label" then with_label_of s w P else P) n1 l1)
    as (lab' & l1 & n1 & R1 & Hlab' & HS1).
  { destruct (String.eqb_spec key "label") as [->|Hne]; [|by exists lab, l, n].
    destruct (strcpy_over_run LABEL_SIZE lab w Hlab (proj1 Hw) (Hl eq_refl)) as (lb & El & Ll & Nl & Tl).
    destruct (vertex_label (nm l) P s n objs e lb (proj1 HS) Hout Ll Nl) as (s1 & n1 & R & Hh & Hsp).
    exists lb, (set_nm (set_dbs s1 (nm l)) l), n1. rewrite Tl in Hh. split_and!; [|done|].
    - rewrite El. erewrite bind_Ret; [|reflexivity]. by erewrite bind_Ret; [|by apply on_databases_run].
    - eapply vertex_step; [done..|]. apply Hsp, HS. }
  destruct (vertex_property (nm l1) _ s n1 objs e key buf _ (proj1 HS1) Hout Hk Bok (proj1 (proj2 HS1)))
    as (s2 & n2 & R2 & Hh2 & Hsp2). rewrite Bt in Hh2.
  destruct (IH k (property_arrives s P (key, w)) n2 (set_nm (set_dbs s2 (nm l1)) l1) buf lab'
    (if String.eqb key "id" then text else text +:+ w +:+ String "010" "")) as (l' & n' & text' & R3 & HS3); try done.
  { by destruct Bok. }
  { by eapply vertex_step. }
  exists l', n', text'. split; [|done]. cbn [string_items fmap list_fmap node_properties as_string fst snd lift].
  erewrite bind_Ret; [|reflexivity]. rewrite Eb. erewrite bind_Ret; [|reflexivity].
  erewrite bind_Ret; [|exact R1]. cbn beta iota. rewrite (cstring_text buf) by by destruct Bok.
  erewrite bind_Ret; [|reflexivity]. rewrite Bt. cbn zeta.
  erewrite bind_Ret; [|by apply on_databases_run]. exact R3.
Qed.

Lemma request_embedding_run j v text l :
  vertex_says j v -> exists l', request_embedding j text l = (Ret tt, l') /\ nm l' = nm l.
Proof.
  intros (m & -> & Hid & _). unfold request_embedding. erewrite bind_Ret; [|reflexivity].
  destruct (embedNode l && negb (String.eqb text "")); [|by exists l].
  unfold cindex. rewrite Hid. erewrite bind_Ret; [|reflexivity]. erewrite bind_Ret; [|reflexivity].
  destruct (_ && _); [|by exists l]. by eexists.
Qed.

Lemma json_items_strings items : json_items (JObject (string_items items)) = Ret (string_items items).
Proof. done. Qed.

(** [addSourceProperties] and [addDestinationProperties] *)
Lemma addVertexProperties_run l0 j v k P n l :
  vertex_says j v -> vm_id v ∉ objs.*1 -> Forall item_fits (vm_props v) ->
  vertex_state l0 (vm_id v) (length (vm_props v) + S k) P n l ->
  exists l' n', addVertexProperties n j l = (Ret n', l') /\ vertex_state l0 (vm_id v) k (vertex_arrives v P) n' l'.
Proof.
  intros Hj Hout Hfit HS. pose proof Hj as (m & Ej & Hid & Hpid & Hprops).
  assert (exists l1 n1, (if contains "properties" j then
      props ← lift (cindex "properties" j);
      if json_empty props then mret n
      else
        items ← lift (json_items props);
        '(n, text) ← node_properties items n (replicate 400 nul) (replicate LABEL_SIZE nul) "";
        _ ← request_embedding j text; mret n
    else mret n) l = (Ret n1, l1) /\
    vertex_state l0 (vm_id v) (S k) (foldl (property_arrives (vm_id v)) P (vm_props v)) n1 l1) as (l1 & n1 & R1 & HS1).
  { unfold contains, cindex. rewrite Ej. unfold properties_say in Hprops. destruct (find_key "properties" m) as [p|] eqn:Ep.
    - subst p. rewrite bool_decide_true by done. erewrite bind_Ret; [|reflexivity].
      destruct (vm_props v) as [|kv items] eqn:Ev; [by exists l, n|]. rewrite <- Ev in *.
      assert (json_empty (JObject (string_items (vm_props v))) = false) as -> by by rewrite Ev.
      erewrite bind_Ret; [|by rewrite json_items_strings].
      destruct (vertex_items_run l0 (vm_id v) (vm_props v) (S k) P n l (replicate 400 nul) (replicate LABEL_SIZE nul) "")
        as (l1 & n1 & text & R & H1); [done..|].
      destruct (request_embedding_run j v text l1 Hj) as (l2 & R2 & E2). rewrite Ej in R2.
      exists l2, n1. split; [|unfold vertex_state in *; by rewrite E2].
      erewrite bind_Ret; [|exact R]. cbn beta iota. by erewrite bind_Ret; [|exact R2].
    - rewrite Hprops in *. rewrite bool_decide_false by (by intros []). by exists l, n. }
  destruct (value_buffer (replicate 400 nul) (pid_shown v)) as (buf & Eb & Bok & Bt); [done|apply pid_fits|].
  destruct (vertex_partition (nm l1) _ (vm_id v) n1 objs e buf k (proj1 HS1) Hout Bok (proj1 (proj2 HS1)))
    as (s2 & n2 & R2 & Hh2 & Hsp2). rewrite Bt in Hh2.
  exists (set_nm (set_dbs s2 (nm l1)) l1), n2. split; [|by eapply vertex_step].
  unfold addVertexProperties. erewrite bind_Ret; [|exact R1]. unfold cindex. rewrite Ej, Hpid.
  erewrite bind_Ret; [|reflexivity]. erewrite bind_Ret; [|reflexivity]. unfold addNodeMetaProperty, meta_buffer.
  change (show_long (s32 (vm_pid v))) with (pid_shown v). rewrite Eb. erewrite bind_Ret; [|reflexivity].
  by apply on_databases_run.
Qed.

(** *** Edges *)

Definition edge_state (ns : option NodeBlock * option NodeBlock) (l0 : local_store) (kd : kind) (k : nat) (P : property_graph) (r : RelationBlock) (l : local_store) : Prop :=
  holds (nm l) P objs (Some (kd, r)) /\ space k (dbs (nm l)) /\ only_dbs (nm l0) (nm l) /\ vertices_of r = ns.

Lemma edge_step ns l0 kd k P r l P' s' r' k' :
  edge_state ns l0 kd k P r l -> holds (set_dbs s' (nm l)) P' objs (Some (kd, r')) -> space k' s' ->
  vertices_of r' = vertices_of r -> edge_state ns l0 kd k' P' r' (set_nm (set_dbs s' (nm l)) l).
Proof. intros (_ & _ & H & Hv) H1 H2 H3. split_and!; try done; [|congruence]. cbn. by etransitivity; [|apply only_dbs_set]. Qed.

Lemma request_edge_embedding_run w l :
  exists l', request_edge_embedding w l = (Ret tt, l') /\ nm l' = nm l.
Proof.
  unfold request_edge_embedding. erewrite bind_Ret; [|reflexivity]. destruct (_ && _); by eexists.
Qed.

(** A type among [items] can be written when its turn comes. *)
Definition type_ready (kd : kind) (P : property_graph) (items : list (string * string)) : Prop :=
  kd = Local -> "type" ∈ items.*1 ->
  exists d E, edata P kd = d :: E /\ ed_type d = None /\ (ed_props d = ∅ -> head items.*1 <> Some "type").

Lemma union_singleton_ne (m : gmap string string) i x : m ∪ {[i := x]} <> ∅.
Proof.
  intros H%(f_equal (lookup i)). rewrite lookup_union, lookup_singleton_eq in H. by destruct (m !! i).
Qed.

Lemma type_ready_step kd P key w items :
  key <> "type" -> type_ready kd P ((key, w) :: items) -> type_ready kd (edge_property_arrives kd P (key, w)) items.
Proof.
  intros Hne H -> Hin. destruct (H eq_refl) as (d & E & HE & Hd & _); [by right|].
  unfold edge_property_arrives. cbn [fst snd]. rewrite (proj2 (String.eqb_neq _ _) Hne).
  exists (with_eprop key w d), E. cbn. rewrite HE. split_and!; try done. intros E0. by apply union_singleton_ne in E0.
Qed.

Lemma edge_properties_run ns l0 kd items : forall k P r l value ty,
  Forall edge_item_fits items -> NoDup items.*1 -> type_ready kd P items ->
  length value = 400%nat -> length ty = MAX_TYPE_SIZE -> edge_state ns l0 kd (length items + k) P r l ->
  exists l' r', edge_properties kd (string_items items) r value ty l = (Ret r', l') /\
    edge_state ns l0 kd k (foldl (edge_property_arrives kd) P items) r' l'.
Proof.
  induction items as [|[key w] items IH]; intros k P r l value ty Hfit Hnd Hready Hval Hty HS; [by exists l, r|].
  apply Forall_cons in Hfit as [(Hk & Hw & Hl) Hfit]. cbn [fmap list_fmap] in Hnd. apply NoDup_cons in Hnd as [Hni Hnd].
  cbn [fst snd] in *. destruct (value_buffer value w Hval Hw) as (buf & Eb & Bok & Bt).
  assert (exists ty' l1, (if String.eqb key "type" then
       type ← determinate (strcpy_over ty w); _ ← request_edge_embedding w;
       t ← determinate (cstring type);
       _ ← on_databases (match kd with Local => addLocalRelationshipType r t | Central => addCentralRelationshipType r t end);
       mret type
     else mret ty) l = (Ret ty', l1) /\ length ty' = MAX_TYPE_SIZE /\
     edge_state ns l0 kd (S (length items + k)) (if String.eqb key "type" then on_newest kd (with_etype w) P else P) r l1)
    as (ty' & l1 & R1 & Hty' & HS1).
  { destruct (String.eqb_spec key "type") as [->|Hne]; [|by exists ty, l].
    destruct (strcpy_over_run MAX_TYPE_SIZE ty w Hty (proj1 Hw) (Hl eq_refl)) as (tb & Et & Lt & Nt & Tt).
    destruct (request_edge_embedding_run w l) as (la & Ra & Ea).
    destruct (edge_type (nm l) P objs kd r w (proj1 HS)) as (s1 & R & Hh & Hsp).
    { split; [by destruct Hw|auto]. }
    { intros ->. destruct (Hready eq_refl) as (d & E & HE & Hd & He); [left|]. exists d, E. split_and!; try done.
      intros E0. by apply (He E0). }
    exists tb, (set_nm (set_dbs s1 (nm la)) la). split_and!; [|done|].
    - rewrite Et. erewrite bind_Ret; [|reflexivity]. erewrite bind_Ret; [|exact Ra]. rewrite (cstring_text tb Nt), Tt.
      erewrite bind_Ret; [|reflexivity]. erewrite bind_Ret; [|apply on_databases_run; rewrite Ea; destruct kd; exact R]. done.
    - rewrite Ea. destruct HS as (_ & HS2 & HS3 & HS4). split_and!; [done|by apply Hsp| |done]. cbn. by etransitivity; [|apply only_dbs_set]. }
  destruct (edge_property (nm l1) _ objs kd r key buf _ (proj1 HS1) Hk Bok (proj1 (proj2 HS1)))
    as (s2 & r2 & R2 & Hh2 & Hsp2 & Hvs). rewrite Bt in Hh2.
  destruct (IH k (edge_property_arrives kd P (key, w)) r2 (set_nm (set_dbs s2 (nm l1)) l1) buf ty') as (l' & r' & R3 & HS3); try done.
  { destruct (decide (key = "type")) as [->|Hne]; [|by apply type_ready_step]. by intros _ Hin. }
  { by destruct Bok. }
  { by eapply edge_step. }
  exists l', r'. split; [|done]. cbn [string_items fmap list_fmap edge_properties as_string fst snd lift].
  erewrite bind_Ret; [|reflexivity]. rewrite Eb. erewrite bind_Ret; [|reflexivity].
  erewrite bind_Ret; [|exact R1]. erewrite bind_Ret; [|by apply on_databases_run]. exact R3.
Qed.

Lemma edge_data_run ns l0 kd j msg k P r l :
  edge_says j msg -> edge_items_fit kd (em_props msg) ->
  edge_state ns l0 kd (length (em_props msg) + S k) (with_edge kd (ends msg) P) r l ->
  exists l' r', (match kd with Local => addLocalEdgeProperties r j | Central => addCentralEdgeProperties r j end) l = (Ret r', l') /\
    edge_state ns l0 kd k (edge_data_arrives kd msg P) r' l'.
Proof.
  intros (m & sj & dj & Ej & Hs & (sm & Esj & _ & Hpid & _) & _ & _ & Hprops) (Hfit & Hnd & Hty) HS.
  assert (exists l1 r1, edge_property_part kd r j l = (Ret r1, l1) /\
    edge_state ns l0 kd (S k) (foldl (edge_property_arrives kd) (with_edge kd (ends msg) P) (em_props msg)) r1 l1)
    as (l1 & r1 & R1 & HS1).
  { unfold edge_property_part, contains, cindex. rewrite Ej. unfold properties_say in Hprops.
    destruct (find_key "properties" m) as [p|].
    - subst p. rewrite bool_decide_true by done. erewrite bind_Ret; [|reflexivity].
      erewrite bind_Ret; [|by rewrite json_items_strings]. apply edge_properties_run; try done.
      intros -> _. eexists _, _. cbn. split_and!; [reflexivity|done|]. intros _. by apply Hty.
    - rewrite Hprops in *. rewrite bool_decide_false by (by intros []). by exists l, r. }
  destruct kd.
  - exists l1, r1. split; [exact R1|]. destruct HS1 as (H1 & H2 & H3 & H4). split_and!; try done.
    unfold space in *. lia.
  - destruct (value_buffer (replicate 400 nul) (pid_shown (em_source msg))) as (buf & Eb & Bok & Bt); [done|apply pid_fits|].
    destruct (edge_partition (nm l1) _ objs r1 buf k (proj1 HS1) Bok (proj1 (proj2 HS1))) as (s2 & r2 & R2 & Hh2 & Hsp2 & Hvs).
    rewrite Bt in Hh2. exists (set_nm (set_dbs s2 (nm l1)) l1), r2. split; [|by eapply edge_step].
    unfold addCentralEdgeProperties. erewrite bind_Ret; [|exact R1]. rewrite Ej. unfold cindex. rewrite Hs.
    erewrite bind_Ret; [|reflexivity]. rewrite Esj, Hpid. erewrite bind_Ret; [|reflexivity]. erewrite bind_Ret; [|reflexivity].
    unfold addEdgeMetaProperty, meta_buffer. change (show_long (s32 _)) with (pid_shown (em_source msg)). rewrite Eb.
    erewrite bind_Ret; [|reflexivity]. by apply on_databases_run.
Qed.
End loops.

(** ** Whole messages *)

Lemma holds_objects m P objs objs' e e' :
  holds m P objs e -> objs' ⊆ objs -> (e' = e \/ e' = None) -> holds m P objs' e'.
Proof.
  intros (H0 & nbs & rbs & D & H1 & H2 & H3 & H4 & H5 & H6 & H7) Hsub He. split; [done|].
  exists nbs, rbs, D. split_and!; try done; [|by destruct He as [-> | ->]].
  apply Forall_forall. intros o Ho. by apply (proj1 (Forall_forall _ _) H6), Hsub.
Qed.

Lemma space_less k k' s : space k s -> (k' <= k)%nat -> space k' s.
Proof. unfold space. lia. Qed.

(** Properties and partitions of vertices leave the edges. *)
Lemma gedges_arrives s items P : gedges (pg (foldl (property_arrives s) P items)) = gedges (pg P).
Proof.
  revert P. induction items as [|kv items IH]; intros P; [done|]. cbn [foldl]. rewrite IH.
  unfold property_arrives, with_vprop, with_label_of. cbn. repeat case_match; done.
Qed.

Lemma gedges_edge_arrives kd items P : gedges (pg (foldl (edge_property_arrives kd) P items)) = gedges (pg P).
Proof.
  revert P. induction items as [|kv items IH]; intros P; [done|]. cbn [foldl]. rewrite IH.
  unfold edge_property_arrives. by case_match.
Qed.

Lemma gedges_message kd msg P k' :
  gedges (pg (edge_arrives kd msg P)) k' = if decide (kd = k') then ends msg :: gedges (pg P) k' else gedges (pg P) k'.
Proof.
  unfold edge_arrives, vertex_arrives, with_vpid. cbn [pg]. rewrite gedges_arrives. cbn [pg]. rewrite gedges_arrives.
  unfold edge_data_arrives. cbn zeta. rewrite <- gedges_add_edge.
  destruct kd; cbn [pg on_newest]; rewrite gedges_edge_arrives; done.
Qed.

Section messages.
Context {HM : HostMemory}.

(** The newest edge of a vertex is the head of its list. *)
Lemma newest_head m g nbs rbs k s b ed E :
  stored m g nbs rbs -> s ∈ vertices g -> nbs !! vnum (vertices g) s = Some b ->
  gedges g k = ed :: E -> (ed.1 = s \/ ed.2 = s) -> node_head k b = raddress k (length (gedges g k)).
Proof.
  intros Hm Hs Hb HE Hends. destruct (st_graph _ _ _ _ Hm) as (_ & _ & Hk). destruct (Hk k) as (_ & _ & _ & Hc).
  specialize (Hc _ _ Hb). unfold numbered in Hc. rewrite HE in Hc. cbn [fmap list_fmap incident] in Hc.
  assert (touches (vnum (vertices g) s) (number (vertices g) ed) = true) as Ht.
  { unfold touches, number. cbn. apply orb_true_iff. rewrite !Nat.eqb_eq. destruct Hends as [-> | ->]; auto. }
  rewrite Ht, length_fmap in Hc. inversion Hc as [|j c l Hj Hcj Hx Hr Ha]; subst. rewrite HE. done.
Qed.

(** Setting it once more. *)
Lemma head_again m P s n objs a ed E :
  holds m P ((s, n) :: objs) None -> gedges (pg P) Local = ed :: E -> (ed.1 = s \/ ed.2 = s) ->
  a = raddress Local (length (gedges (pg P) Local)) ->
  exists s' bn, on_store (setLocalRelationHead n a) m = (Ret bn, set_dbs s' m) /\
    holds (set_dbs s' m) P ((s, n) :: objs) None /\ (forall k, space k (dbs m) -> space k s').
Proof.
  intros (Hlk & nbs & rbs & D & Hm & Hv & He & Sv & Se & Hobjs & Hedge) HE Hs Ha.
  pose proof Hobjs as [(U1 & U2 & U3 & _) _]%Forall_cons. set (x := vnum (vertices (pg P)) s) in *.
  destruct (stored_block _ _ _ _ _ Hm U1) as (b & Hb & _ & Hwf). fold x in Hb. pose proof Hwf as (Lb & _).
  pose proof (newest_head _ _ _ _ Local s b ed E Hm U1 Hb HE Hs) as Hh. rewrite <- Ha in Hh.
  pose proof (stored_bound _ _ _ _ _ Hm U1) as Hbd. fold x in Hbd.
  destruct (setRelationHead_run (dbs m) nbs rbs Local x b n a (st_files _ _ _ _ Hm) Hb U3 Hbd) as (s' & R & Hf & L1 & L2 & L3 & L4).
  pose proof (same_but_heads_set Local b a Lb) as [S1 S2].
  assert (is_u32 a) as Hu.
  { rewrite <- Hh. unfold node_head, nf32. apply dec32_range. }
  assert (forall off y, off = 14%nat \/ off = 18%nat -> head_at off (<[x := set_head Local b a]> nbs) y = head_at off nbs y) as Hl.
  { intros off y Ho. apply (head_at_insert _ _ _ b); [done|]. unfold nf32. by rewrite S2 by lia. }
  eexists s', _. split_and!; [apply zoom_run, R| |by unfold space; rewrite L1, L2, L3, L4].
  split; [done|]. exists (<[x := set_head Local b a]> nbs), rbs, D. split_and!; try done.
  - pose proof (st_blocks _ _ _ _ Hm) as Hbl. destruct Hm. constructor; try done.
    + eapply graph_ok_block; [done..| |].
      * apply node_wf_set_head; [done..|]. rewrite Ha. apply raddress_mod.
      * intros []; [by rewrite node_head_set_head|by apply node_head_set_other].
    + cbn. eapply vertex_blocks_heads; [done|by rewrite length_insert|]. intros z c Hz.
      destruct (decide (x = z)) as [<-|Hne].
      * eexists. split; [by apply list_lookup_insert_eq; eapply lookup_lt_Some|]. by simplify_eq.
      * exists c. by rewrite list_lookup_insert_ne.
  - destruct Hv as [V1 V2 V3 V4 V5]. constructor; cbn [dbs set_dbs]; rewrite ?L1, ?L2; try done;
      (eapply owners_ext; [|done]); intros y; apply Hl; auto.
  - destruct He. constructor; cbn [dbs set_dbs]; rewrite ?L3, ?L4; done.
Qed.

(** The calls after the insertion of the edge. *)
Definition message_body (kd : kind) (r : RelationBlock) (j sj dj : json) : M local_store RelationBlock :=
  r ← (match kd with Local => addLocalEdgeProperties r j | Central => addCentralEdgeProperties r j end);
  r ← addSourceProperties r sj;
  addDestinationProperties r dj.

Lemma message_body_run kd j sj dj msg P l r n1 n2 k :
  let s := vm_id (em_source msg) in let d := vm_id (em_destination msg) in
  edge_says j msg -> vertex_says sj (em_source msg) -> vertex_says dj (em_destination msg) ->
  fits_store kd (INDEX_KEY_SIZE (nm l)) msg ->
  holds (nm l) (with_edge kd (ends msg) P) [(s, n1); (d, n2)] (Some (kd, r)) ->
  vertices_of r = (Some n1, Some n2) -> space (links_needed msg + k) (dbs (nm l)) ->
  exists l' r' n1' n2', message_body kd r j sj dj l = (Ret r', l') /\
    holds (nm l') (edge_arrives kd msg P) [(d, n2'); (s, n1')] None /\ vertices_of r' = (Some n1', Some n2') /\
    raddr r' = raddress kd (S (length (gedges (pg P) kd))) /\ space k (dbs (nm l')) /\ only_dbs (nm l) (nm l').
Proof.
  intros s d Hj Hsj Hdj [F1 F2 F3 F4 F5 F6] Hh Hr Hsp. unfold links_needed in Hsp.
  set (k1 := (length (vm_props (em_source msg)) + S (length (vm_props (em_destination msg)) + S k))%nat).
  destruct (edge_data_run [(s, n1); (d, n2)] (Some n1, Some n2) l kd j msg k1 P r l Hj F6) as (l1 & r1 & R1 & H1 & S1 & O1 & V1).
  { split_and!; try done. eapply space_less; [done|]. unfold k1. lia. }
  assert (raddr r1 = raddress kd (S (length (gedges (pg P) kd)))) as Ha.
  { destruct H1 as (_ & nbs & rbs & D & _ & _ & _ & _ & _ & _ & _ & A & _). rewrite A. f_equal.
    unfold edge_data_arrives. destruct kd; cbn [pg on_newest]; rewrite gedges_edge_arrives; cbn [with_edge pg];
      rewrite gedges_add_edge, decide_True by done; done. }
  injection V1 as V1 V2.
  destruct (addVertexProperties_run [(d, n2)] (Some (kd, r1)) l sj (em_source msg) (length (vm_props (em_destination msg)) + S k)
    (edge_data_arrives kd msg P) n1 l1 Hsj) as (l2 & n1' & R2 & H2 & S2 & O2); [cbn; set_solver|done|split_and!; try done; by eapply space_less|].
  destruct (addVertexProperties_run [(s, n1')] None l dj (em_destination msg) k
    (vertex_arrives (em_source msg) (edge_data_arrives kd msg P)) n2 l2 Hdj) as (l3 & n2' & R3 & H3 & S3 & O3); [cbn; set_solver|done| |].
  { split_and!; try done. eapply holds_objects; [exact H2|set_solver|by right]. }
  exists l3, (setDestination (setSource r1 n1') n2'), n1', n2'. split_and!; try done.
  unfold message_body. erewrite bind_Ret; [|exact R1]. unfold addSourceProperties, vertex_of. rewrite V1.
  erewrite bind_Ret; [|erewrite bind_Ret; [|reflexivity]; by erewrite bind_Ret; [|exact R2]].
  unfold addDestinationProperties, vertex_of. cbn [getDestination setSource destinationBlock].
  change (destinationBlock r1) with (getDestination r1). rewrite V2.
  erewrite bind_Ret; [|reflexivity]. by erewrite bind_Ret; [|exact R3].
Qed.

(** What a message leaves of the manager outside its databases. *)
Definition counted (kd : kind) (m m' : manager) : Prop :=
  INDEX_KEY_SIZE m' = INDEX_KEY_SIZE m /\ edgeIndex m' = edgeIndex m /\
  nextEdgeIndex m' = edges_counted kd (nextEdgeIndex m).

(** Insertion and the calls after it. *)
Lemma ingest_run kd j sj dj msg P l k :
  let s := vm_id (em_source msg) in let d := vm_id (em_destination msg) in
  holds (nm l) P [] None -> edge_says j msg -> vertex_says sj (em_source msg) -> vertex_says dj (em_destination msg) ->
  fits_store kd (INDEX_KEY_SIZE (nm l)) msg -> fits (add_edge kd (ends msg) (pg P)) ->
  space (links_needed msg + k) (dbs (nm l)) ->
  exists l1 r l2 r' n1 n2, on_manager (add_kind_edge kd (s, d)) l = (Ret (Some r), l1) /\
    message_body kd r j sj dj l1 = (Ret r', l2) /\
    holds (nm l2) (edge_arrives kd msg P) [(d, n2); (s, n1)] None /\ vertices_of r' = (Some n1, Some n2) /\
    raddr r' = raddress kd (S (length (gedges (pg P) kd))) /\ space k (dbs (nm l2)) /\
    counted kd (nm l) (nm l1) /\ only_dbs (nm l1) (nm l2).
Proof.
  intros s d Hh Hj Hsj Hdj Hfit Hfits Hsp. pose proof Hfit as [F1 F2 _ _ _ _].
  destruct (new_edge (nm l) P kd (s, d) Hh F1 F2 Hfits) as (m1 & r & n1 & n2 & R & G1 & G2 & H1 & Fr & Hc).
  pose proof Fr as (_ & _ & Ek & _ & Ei & L1 & L2 & L3 & L4).
  destruct (message_body_run kd j sj dj msg P (set_nm m1 l) r n1 n2 k Hj Hsj Hdj) as (l2 & r' & n1' & n2' & R2 & H2 & V2 & A2 & S2 & O2);
    [by cbn; rewrite Ek|done|unfold vertices_of; by rewrite G1, G2|by unfold space in *; cbn; rewrite L1, L2, L3, L4|].
  exists (set_nm m1 l), r, l2, r', n1', n2'. split_and!; try done. by apply zoom_run.
Qed.

Context `{JT : JsonText}.

(** A message in the words of the protocol: the text, the JSON it is, and what
    it says. *)
Definition message_text (text : string) (j : json) (msg : edge_message) : Prop :=
  parse_exn text = Ret j /\ edge_says j msg.

Lemma index_field key m v : find_key key m = Some v -> index key (JObject m) = Ret v.
Proof. intros E. unfold index. by rewrite E. Qed.

Lemma vertex_says_field j v :
  vertex_says j v -> contains "id" j = true /\ contains "pid" j = true /\
    index "id" j = Ret (JString (vm_id v)).
Proof.
  intros (m & -> & Hid & Hpid & _). unfold contains, index. rewrite Hid, Hpid, !bool_decide_true by done. done.
Qed.

(** Both heads of the newest local edge, set again. *)
Lemma set_heads_run l P s d n1 n2 r :
  holds (nm l) P [(d, n2); (s, n1)] None -> vertices_of r = (Some n1, Some n2) ->
  head (gedges (pg P) Local) = Some (s, d) -> raddr r = raddress Local (length (gedges (pg P) Local)) ->
  exists l', set_heads r l = (Ret tt, l') /\ holds (nm l') P [] None /\ only_dbs (nm l) (nm l') /\
    (forall k, space k (dbs (nm l)) -> space k (dbs (nm l'))).
Proof.
  intros Hh Hv HE Ha. injection Hv as V1 V2. destruct (gedges (pg P) Local) as [|ed E] eqn:Eg; [done|].
  injection HE as ->.
  destruct (head_again (nm l) P d n2 [(s, n1)] (raddr r) (s, d) E Hh Eg) as (s1 & bn1 & R1 & H1 & Sp1); [by right|by rewrite Eg|].
  set (l1 := set_nm (set_dbs s1 (nm l)) l).
  destruct (head_again (nm l1) P s n1 [] (raddr r) (s, d) E) as (s2 & bn2 & R2 & H2 & Sp2);
    [by eapply holds_objects; [exact H1|set_solver|by left]|done|by left|by rewrite Eg|].
  exists (set_nm (set_dbs s2 (nm l1)) l1). split_and!.
  - unfold set_heads, vertex_of. rewrite V2. erewrite bind_Ret; [|reflexivity].
    erewrite bind_Ret; [|apply on_databases_run; exact R1]. rewrite V1. erewrite bind_Ret; [|reflexivity].
    by erewrite bind_Ret; [|apply on_databases_run; exact R2].
  - eapply holds_objects; [exact H2|set_solver|by left].
  - done.
  - intros k Hk. by apply Sp2, Sp1.
Qed.

Lemma addLocalEdge_message text j msg P l k :
  holds (nm l) P [] None -> message_text text j msg -> contains "properties" j = true ->
  fits_store Local (INDEX_KEY_SIZE (nm l)) msg -> fits (add_edge Local (ends msg) (pg P)) ->
  space (links_needed msg + k) (dbs (nm l)) ->
  exists l', store_addLocalEdge text l = (Ret tt, l') /\ holds (nm l') (edge_arrives Local msg P) [] None /\
    space k (dbs (nm l')) /\ counted Local (nm l) (nm l').
Proof.
  intros Hh [Hp Hj] Hprops Hfit Hfits Hsp. pose proof Hj as (m & sj & dj & Ej & Fs & Hsj & Fd & Hdj & _).
  destruct (ingest_run Local j sj dj msg P l k Hh Hj Hsj Hdj Hfit Hfits Hsp)
    as (l1 & r & l2 & r' & n1 & n2 & R1 & R2 & H2 & V2 & A2 & S2 & (C1 & C2 & C3) & O2).
  destruct (set_heads_run l2 (edge_arrives Local msg P) (vm_id (em_source msg)) (vm_id (em_destination msg)) n1 n2 r')
    as (l3 & R3 & H3 & O3 & S3); [done|done|by rewrite gedges_message|by rewrite gedges_message|].
  exists l3. split_and!; [|done|by apply S3|unfold counted; rewrite O3, O2; done].
  destruct (vertex_says_field _ _ Hsj) as (I1 & I2 & I3). destruct (vertex_says_field _ _ Hdj) as (J1 & J2 & J3).
  unfold message_body in R2. apply bind_Ret_inv in R2 as (ra & la & Ra & R2). apply bind_Ret_inv in R2 as (rb & lb & Rb & Rc).
  unfold store_addLocalEdge, try_catch. erewrite bind_Ret; [|by rewrite Hp].
  erewrite bind_Ret; [|by rewrite Ej, (index_field _ _ _ Fs)]. erewrite bind_Ret; [|by rewrite Ej, (index_field _ _ _ Fd)].
  rewrite I1, I2, J1, J2, Hprops. cbn [negb orb].
  erewrite bind_Ret; [|by rewrite I3]. erewrite bind_Ret; [|reflexivity].
  erewrite bind_Ret; [|by rewrite J3]. erewrite bind_Ret; [|reflexivity]. cbn [add_kind_edge] in R1. erewrite bind_Ret; [|exact R1].
  cbn beta iota. erewrite bind_Ret; [|exact Ra]. erewrite bind_Ret; [|exact Rb]. erewrite bind_Ret; [|exact Rc].
  by rewrite R3.
Qed.

(** *** Central edges *)

Definition edge_id (msg : edge_message) : option json := find_key "id" (string_items (em_props msg)).

Lemma find_string_items key items v : find_key key (string_items items) = Some v -> exists w, v = JString w.
Proof.
  induction items as [|[k w] items IH]; cbn; [done|]. case_match; [|done]. intros [= <-]. by exists w.
Qed.

Lemma properties_field j msg m :
  edge_says j msg -> j = JObject m -> exists p, index "properties" j = Ret p /\
    contains "id" p = bool_decide (is_Some (edge_id msg)) /\ forall v, edge_id msg = Some v -> index "id" p = Ret v.
Proof.
  intros (m' & sj & dj & -> & _ & _ & _ & _ & Hp) [= ->]. unfold index at 1. unfold edge_id, properties_say in *.
  destruct (find_key "properties" m) as [p|].
  - subst p. eexists. split; [reflexivity|]. split; [done|]. intros v. by apply index_field.
  - rewrite Hp. cbn. by eexists.
Qed.

Lemma holds_edgeIndex ix m P objs e : holds m P objs e -> holds (set_edgeIndex ix m) P objs e.
Proof.
  intros (H0 & nbs & rbs & D & H1 & H2). split; [done|]. exists nbs, rbs, D. split; [|done].
  destruct H1. by constructor.
Qed.

(** The index of edge ids after a message. *)
Definition ids_after (msg : edge_message) (m : manager) : gmap string Z :=
  match edge_id msg with Some (JString i) => <[i := nextEdgeIndex m]> (edgeIndex m) | _ => edgeIndex m end.

(** A message that is not a known edge again. *)
Definition unknown_id (msg : edge_message) (m : manager) : Prop :=
  forall i, edge_id msg = Some (JString i) -> edgeIndex m !! i = None.

Lemma addCentralEdge_message text j msg P l k :
  holds (nm l) P [] None -> message_text text j msg -> unknown_id msg (nm l) ->
  fits_store Central (INDEX_KEY_SIZE (nm l)) msg -> fits (add_edge Central (ends msg) (pg P)) ->
  space (links_needed msg + k) (dbs (nm l)) ->
  exists l', store_addCentralEdge text l = (Ret tt, l') /\ holds (nm l') (edge_arrives Central msg P) [] None /\
    space k (dbs (nm l')) /\ INDEX_KEY_SIZE (nm l') = INDEX_KEY_SIZE (nm l) /\ edgeIndex (nm l') = ids_after msg (nm l).
Proof.
  intros Hh [Hp Hj] Hid Hfit Hfits Hsp. pose proof Hj as (m & sj & dj & Ej & Fs & Hsj & Fd & Hdj & _).
  pose proof Hfit as [F1 F2 _ _ _ _].
  destruct (new_edge (nm l) P Central (ends msg) Hh F1 F2 Hfits) as (m1 & r & n1 & n2 & R1 & G1 & G2 & H1 & Fr & Hc).
  pose proof Fr as (_ & _ & Ek & _ & Ei & L1 & L2 & L3 & L4). cbn [edges_counted] in Hc.
  destruct (properties_field j msg m Hj Ej) as (p & Ip & Cp & Ivp).
  set (m2 := match edge_id msg with Some _ => set_edgeIndex (ids_after msg (nm l)) m1 | None => m1 end).
  assert (dbs m2 = dbs m1 /\ INDEX_KEY_SIZE m2 = INDEX_KEY_SIZE m1 /\ edgeIndex m2 = ids_after msg (nm l) /\
    holds m2 (with_edge Central (ends msg) P) [((ends msg).1, n1); ((ends msg).2, n2)] (Some (Central, r))) as (E1 & E2 & E3 & H2).
  { unfold m2, ids_after. destruct (edge_id msg) eqn:E; [|by rewrite Ei]. split_and!; try done. by apply holds_edgeIndex. }
  destruct (message_body_run Central j sj dj msg P (set_nm m2 l) r n1 n2 k Hj Hsj Hdj) as (l2 & r' & n1' & n2' & R2 & H3 & V2 & A2 & S2 & O2);
    [by cbn; rewrite E2, Ek|done|unfold vertices_of; by rewrite G1, G2|by unfold space in *; cbn; rewrite E1, L1, L2, L3, L4|].
  exists l2. split_and!; [|eapply holds_objects; [exact H3|set_solver|by left]|done|rewrite O2; cbn; congruence|by rewrite O2].
  destruct (vertex_says_field _ _ Hsj) as (_ & _ & I3). destruct (vertex_says_field _ _ Hdj) as (_ & _ & J3).
  unfold message_body in R2. apply bind_Ret_inv in R2 as (ra & la & Ra & R2). apply bind_Ret_inv in R2 as (rb & lb & Rb & Rc).
  unfold store_addCentralEdge. erewrite bind_Ret; [|by rewrite Hp].
  erewrite bind_Ret; [|by rewrite Ej, (index_field _ _ _ Fs)]. erewrite bind_Ret; [|by rewrite Ej, (index_field _ _ _ Fd)].
  erewrite bind_Ret; [|by rewrite I3]. erewrite bind_Ret; [|reflexivity].
  erewrite bind_Ret; [|by rewrite J3]. erewrite bind_Ret; [|reflexivity]. erewrite bind_Ret; [|by rewrite Ip].
  assert (on_manager (addCentralEdge (vm_id (em_source msg), vm_id (em_destination msg))) l = (Ret (Some r), set_nm m1 l)) as R1'
    by (apply zoom_run; exact R1).
  erewrite (bind_Ret _ _ _ (Some r) (set_nm m2 l)).
  { cbn beta iota. erewrite bind_Ret; [|exact Ra]. erewrite bind_Ret; [|exact Rb]. by erewrite bind_Ret; [|exact Rc]. }
  rewrite Cp. unfold m2, ids_after. destruct (edge_id msg) as [v|] eqn:Eid.
  - rewrite bool_decide_true by done. destruct (find_string_items _ _ _ Eid) as [i ->].
    erewrite bind_Ret; [|by rewrite (Ivp _ eq_refl)]. erewrite bind_Ret; [|reflexivity]. erewrite bind_Ret; [|reflexivity].
    rewrite (Hid i Eid). erewrite bind_Ret; [|exact R1']. erewrite bind_Ret; [|reflexivity].
    unfold mret, M_ret. cbn. by rewrite Hc, Ei.
  - rewrite bool_decide_false by (by intros []). exact R1'.
Qed.

(** A central edge whose id is known leaves the store as it is. *)
Lemma addCentralEdge_known text j msg l i n :
  message_text text j msg -> edge_id msg = Some (JString i) -> edgeIndex (nm l) !! i = Some n ->
  store_addCentralEdge text l = (Ret tt, l).
Proof.
  intros [Hp Hj] Eid Hi. pose proof Hj as (m & sj & dj & Ej & Fs & Hsj & Fd & Hdj & _).
  destruct (properties_field j msg m Hj Ej) as (p & Ip & Cp & Ivp).
  destruct (vertex_says_field _ _ Hsj) as (_ & _ & I3). destruct (vertex_says_field _ _ Hdj) as (_ & _ & J3).
  unfold store_addCentralEdge. erewrite bind_Ret; [|by rewrite Hp].
  erewrite bind_Ret; [|by rewrite Ej, (index_field _ _ _ Fs)]. erewrite bind_Ret; [|by rewrite Ej, (index_field _ _ _ Fd)].
  erewrite bind_Ret; [|by rewrite I3]. erewrite bind_Ret; [|reflexivity].
  erewrite bind_Ret; [|by rewrite J3]. erewrite bind_Ret; [|reflexivity]. erewrite bind_Ret; [|by rewrite Ip].
  erewrite (bind_Ret _ _ _ None l); [reflexivity|]. rewrite Cp, Eid. rewrite bool_decide_true by done.
  erewrite bind_Ret; [|by rewrite (Ivp _ Eid)]. erewrite bind_Ret; [|reflexivity]. erewrite bind_Ret; [|reflexivity].
  by rewrite Hi.
Qed.

(** *** The message with its kind *)

Definition kind_says (j : json) (kd : kind) : Prop :=
  contains "isNode" j = false /\ exists v, index "EdgeType" j = Ret v /\
    json_eqb v (JString "Local") = match kd with Local => true | Central => false end.

Lemma addEdgeFromString_message kd text j msg P l k :
  holds (nm l) P [] None -> message_text text j msg -> kind_says j kd ->
  fits_store kd (INDEX_KEY_SIZE (nm l)) msg -> fits (add_edge kd (ends msg) (pg P)) ->
  space (links_needed msg + k) (dbs (nm l)) ->
  exists l', addEdgeFromString text l = (Ret tt, l') /\ holds (nm l') (edge_arrives kd msg P) [] None /\
    space k (dbs (nm l')) /\ counted kd (nm l) (nm l').
Proof.
  intros Hh [Hp Hj] (Hn & v & Hv & Ht) Hfit Hfits Hsp. pose proof Hj as (m & sj & dj & Ej & Fs & Hsj & Fd & Hdj & _).
  destruct (ingest_run kd j sj dj msg P l k Hh Hj Hsj Hdj Hfit Hfits Hsp)
    as (l1 & r & l2 & r' & n1 & n2 & R1 & R2 & H2 & V2 & A2 & S2 & (C1 & C2 & C3) & O2).
  exists l2. split_and!; [|eapply holds_objects; [exact H2|set_solver|by left]|done|unfold counted; rewrite O2; done].
  destruct (vertex_says_field _ _ Hsj) as (_ & _ & I3). destruct (vertex_says_field _ _ Hdj) as (_ & _ & J3).
  unfold message_body in R2. apply bind_Ret_inv in R2 as (ra & la & Ra & R2). apply bind_Ret_inv in R2 as (rb & lb & Rb & Rc).
  unfold addEdgeFromString, try_catch. erewrite bind_Ret; [|by rewrite Hp]. rewrite Hn. unfold add_edge_message.
  erewrite bind_Ret; [|by rewrite Ej, (index_field _ _ _ Fs)]. erewrite bind_Ret; [|by rewrite Ej, (index_field _ _ _ Fd)].
  erewrite bind_Ret; [|by rewrite I3]. erewrite bind_Ret; [|reflexivity].
  erewrite bind_Ret; [|by rewrite J3]. erewrite bind_Ret; [|reflexivity]. erewrite bind_Ret; [|by rewrite Hv].
  rewrite Ht. destruct kd; cbn [add_kind_edge] in R1; (erewrite bind_Ret; [|exact R1]); cbn beta iota;
    (erewrite bind_Ret; [|exact Ra]); (erewrite bind_Ret; [|exact Rb]); by erewrite bind_Ret; [|exact Rc].
Qed.
End messages.
