(* ===== verification/JsonPrinter.v ===== *)
(** * JsonPrinter: a text for JSON values

    An instance of [JsonText]: compact JSON as the library prints it, with a
    recursive descent parser.  It shows that the laws of the interface can
    hold, and lets the examples of the query processor be evaluated. *)
From Stdlib Require Import ZArith Ascii String Lia.
From stdpp Require Import base tactics numbers list strings sets.
From S2P Require Import Prelude Json.

Local Open Scope char_scope.
Local Open Scope Z_scope.

(** ** Strings *)

Definition hex_digit (z : Z) : ascii := byte (if z <? 10 then 48 + z else 87 + z).

Definition hex_value (a : ascii) : Z := if code a <? 58 then code a - 48 else code a - 87.

Definition quote : ascii := "034".
Definition backslash : ascii := "092".

(** A character inside a string. *)
Definition escape (a : ascii) : list ascii :=
  if ascii_dec a quote then [backslash; quote]
  else if ascii_dec a backslash then [backslash; backslash]
  else if code a =? 8 then [backslash; "b"]
  else if code a =? 9 then [backslash; "t"]
  else if code a =? 10 then [backslash; "n"]
  else if code a =? 12 then [backslash; "f"]
  else if code a =? 13 then [backslash; "r"]
  else if code a <? 32 then
    [backslash; "u"; "0"; "0"; hex_digit (code a / 16); hex_digit (code a mod 16)]
  else [a].

(** The next character of a string and what follows it. *)
Definition unescape (l : list ascii) : option (ascii * list ascii) :=
  match l with
  | [] => None
  | a :: r =>
      if ascii_dec a backslash then
        match r with
        | "b" :: r => Some (byte 8, r)
        | "t" :: r => Some (byte 9, r)
        | "n" :: r => Some (byte 10, r)
        | "f" :: r => Some (byte 12, r)
        | "r" :: r => Some (byte 13, r)
        | "u" :: _ :: _ :: x :: y :: r => Some (byte (16 * hex_value x + hex_value y), r)
        | x :: r => Some (x, r)
        | [] => None
        end
      else Some (a, r)
  end.

Lemma unescape_escape a r : unescape (escape a ++ r) = Some (a, r).
Proof. by destruct a as [[] [] [] [] [] [] [] []]. Qed.

Lemma escape_head a : exists x y, escape a = x :: y /\ x <> quote.
Proof. destruct a as [[] [] [] [] [] [] [] []]; do 2 eexists; (split; [reflexivity|discriminate]). Qed.

Lemma escape_line a : newline ∉ escape a.
Proof. apply (bool_decide_eq_true (newline ∉ escape a)). by destruct a as [[] [] [] [] [] [] [] []]. Qed.

Fixpoint escape_all (l : list ascii) : list ascii :=
  match l with [] => [] | a :: r => escape a ++ escape_all r end.

Fixpoint parse_chars (fuel : nat) (l : list ascii) : option (list ascii * list ascii) :=
  match fuel, l with
  | S fuel, a :: r =>
      if ascii_dec a quote then Some ([], r)
      else '(c, l1) ← unescape l; '(cs, l2) ← parse_chars fuel l1; Some (c :: cs, l2)
  | _, _ => None
  end.

Lemma parse_chars_escape fuel l r :
  (length l < fuel)%nat -> parse_chars fuel (escape_all l ++ quote :: r) = Some (l, r).
Proof.
  revert fuel. induction l as [|a l IH]; intros [|fuel] Hf; cbn in *; try lia; [done|].
  destruct (escape_head a) as (x & y & Ea & Hx).
  pose proof (unescape_escape a (escape_all l ++ quote :: r)) as Hu. rewrite Ea in *. cbn in Hu |- *.
  destruct (ascii_dec x quote); [done|]. rewrite <- app_assoc. cbn. rewrite Hu. cbn.
  by rewrite IH by lia.
Qed.

Definition print_string (s : string) : list ascii := quote :: escape_all (chars s) ++ [quote].

(** ** Values *)

Fixpoint print (j : json) : list ascii :=
  match j with
  | JNull => chars "null"%string
  | JBool b => chars (if b then "true" else "false")%string
  | JInt z => chars (show_long z)
  | JString s => print_string s
  | JArray [] => ["["; "]"]
  | JArray (x :: l) =>
      "[" :: print x ++ (fix go l := match l with [] => ["]"] | y :: l => "," :: print y ++ go l end) l
  | JObject [] => ["{"; "}"]
  | JObject ((k, x) :: m) =>
      "{" :: print_string k ++ ":" :: print x ++
      (fix go m := match m with
        | [] => ["}"] | (k, y) :: m => "," :: print_string k ++ ":" :: print y ++ go m end) m
  end.

Definition print_items (l : list json) : list ascii :=
  (fix go l := match l with [] => ["]"] | y :: l => "," :: print y ++ go l end) l.
Definition print_members (m : list (string * json)) : list ascii :=
  (fix go m := match m with
    | [] => ["}"] | (k, y) :: m => "," :: print_string k ++ ":" :: print y ++ go m end) m.

Definition number_char (a : ascii) : bool := bool_decide (is_Some (digit_of a)) || bool_decide (a = "-").

Fixpoint span_number (l : list ascii) : list ascii * list ascii :=
  match l with
  | a :: r => if number_char a then let '(x, y) := span_number r in (a :: x, y) else ([], l)
  | [] => ([], [])
  end.

Definition parse_number (l : list ascii) : option (json * list ascii) :=
  let '(x, r) := span_number l in
  match stol (string_of_list_ascii x) with inr z => Some (JInt z, r) | inl _ => None end.

Definition parse_name (l : list ascii) : option (string * list ascii) :=
  match l with
  | a :: r => if ascii_dec a quote then '(cs, r) ← parse_chars (S (length r)) r; Some (string_of_list_ascii cs, r)
              else None
  | [] => None
  end.

Fixpoint parse_value (fuel : nat) (l : list ascii) : option (json * list ascii) :=
  match fuel with
  | O => None
  | S fuel =>
    match l with
    | "n" :: "u" :: "l" :: "l" :: r => Some (JNull, r)
    | "t" :: "r" :: "u" :: "e" :: r => Some (JBool true, r)
    | "f" :: "a" :: "l" :: "s" :: "e" :: r => Some (JBool false, r)
    | "[" :: "]" :: r => Some (JArray [], r)
    | "[" :: r => '(x, r) ← parse_value fuel r; '(xs, r) ← parse_items fuel r; Some (JArray (x :: xs), r)
    | "{" :: "}" :: r => Some (JObject [], r)
    | "{" :: r => '(kv, r) ← parse_member fuel r; '(m, r) ← parse_members fuel r; Some (JObject (kv :: m), r)
    | a :: r =>
        if ascii_dec a quote then '(s, r) ← parse_name l; Some (JString s, r) else parse_number l
    | [] => None
    end
  end
with parse_items (fuel : nat) (l : list ascii) : option (list json * list ascii) :=
  match fuel, l with
  | S fuel, "," :: r => '(x, r) ← parse_value fuel r; '(xs, r) ← parse_items fuel r; Some (x :: xs, r)
  | _, "]" :: r => Some ([], r)
  | _, _ => None
  end
with parse_member (fuel : nat) (l : list ascii) : option ((string * json) * list ascii) :=
  match fuel with
  | O => None
  | S fuel => '(k, r) ← parse_name l;
      match r with ":" :: r => '(x, r) ← parse_value fuel r; Some ((k, x), r) | _ => None end
  end
with parse_members (fuel : nat) (l : list ascii) : option (list (string * json) * list ascii) :=
  match fuel, l with
  | S fuel, "," :: r => '(kv, r) ← parse_member fuel r; '(m, r) ← parse_members fuel r; Some (kv :: m, r)
  | _, "}" :: r => Some ([], r)
  | _, _ => None
  end.

(** ** The round trip *)

Lemma print_array x l : print (JArray (x :: l)) = "[" :: print x ++ print_items l.
Proof. done. Qed.
Lemma print_object k x m :
  print (JObject ((k, x) :: m)) = "{" :: print_string k ++ ":" :: print x ++ print_members m.
Proof. done. Qed.

Lemma print_members_cons k x m :
  print_members ((k, x) :: m) = "," :: print_string k ++ ":" :: print x ++ print_members m.
Proof. done. Qed.

Definition stops (r : list ascii) : Prop := match r with a :: _ => number_char a = false | [] => True end.

Lemma span_number_app l r :
  Forall (fun a => number_char a = true) l -> stops r -> span_number (l ++ r) = (l, r).
Proof.
  induction 1 as [|a l Ha _ IH]; intros Hr; cbn.
  - destruct r as [|a r]; [done|]. cbn in *. by rewrite Hr.
  - rewrite Ha. by rewrite IH.
Qed.

Lemma show_long_number z : Forall (fun a => number_char a = true) (chars (show_long z)).
Proof.
  apply Forall_forall. intros a Ha. unfold number_char.
  apply show_long_chars in Ha as [->|Ha]; [done|]. by rewrite (bool_decide_eq_true_2 _ Ha).
Qed.

Lemma parse_value_number fuel a r :
  number_char a = true -> parse_value (S fuel) (a :: r) = parse_number (a :: r).
Proof. destruct a as [[] [] [] [] [] [] [] []]; intros H; solve [discriminate H | reflexivity]. Qed.

Lemma parse_value_array fuel a l : a <> "]" ->
  parse_value (S fuel) ("[" :: a :: l) =
  ('(x, r) ← parse_value fuel (a :: l); '(xs, r) ← parse_items fuel r; Some (JArray (x :: xs), r)).
Proof. destruct a as [[] [] [] [] [] [] [] []]; intros H; solve [reflexivity | by destruct H]. Qed.

Lemma show_long_cons z : exists a l, chars (show_long z) = a :: l.
Proof.
  destruct (show_long z) as [|a s] eqn:E; [by destruct (show_long_nonempty z)|]. by exists a, (chars s).
Qed.

Lemma print_head j : exists a l, print j = a :: l /\ a <> "]".
Proof.
  destruct j as [|[]|z|s|[|x l]|[|[k x] m]]; try (do 2 eexists; split; [reflexivity|discriminate]).
  destruct (show_long_cons z) as (a & l & E). exists a, l. split; [done|].
  pose proof (show_long_number z) as Hn. rewrite E in Hn. inversion_clear Hn. by intros ->.
Qed.

Lemma parse_name_print s r : parse_name (print_string s ++ r) = Some (s, r).
Proof.
  unfold parse_name, print_string. cbn [app]. destruct (ascii_dec quote quote); [|done].
  rewrite <- app_assoc. cbn [app]. rewrite parse_chars_escape; cbn; [by rewrite string_chars|].
  rewrite length_app. cut (length (chars s) <= length (escape_all (chars s)))%nat; [cbn; lia|].
  induction (chars s) as [|a l IH]; cbn; [lia|]. rewrite length_app.
  destruct (escape_head a) as (x & y & -> & _). cbn. lia.
Qed.

Lemma parse_items_print l r fuel :
  Forall (fun j => forall r fuel, json_ok j = true -> stops r -> (2 * json_size j <= fuel)%nat ->
    parse_value fuel (print j ++ r) = Some (j, r)) l ->
  forallb json_ok l = true -> (2 * foldr (fun x n => json_size x + n)%nat 0%nat l + 2 <= fuel)%nat ->
  parse_items fuel (print_items l ++ r) = Some (l, r).
Proof.
  intros Hl. revert fuel. induction Hl as [|y l Hy Hl IH]; intros fuel Hok Hf; [by destruct fuel|].
  cbn in Hok. apply andb_true_iff in Hok as [Hy1 Hok].
  pose proof (json_size_pos y).
  destruct fuel as [|fuel]; [lia|]. cbn in *. rewrite <- app_assoc.
  rewrite Hy; [|done|by destruct l|lia]. cbn. rewrite IH; [done|done|lia].
Qed.

Lemma parse_member_print k x r fuel :
  (forall r fuel, json_ok x = true -> stops r -> (2 * json_size x <= fuel)%nat ->
    parse_value fuel (print x ++ r) = Some (x, r)) ->
  json_ok x = true -> stops r -> (2 * json_size x + 1 <= fuel)%nat ->
  parse_member fuel (print_string k ++ ":" :: print x ++ r) = Some ((k, x), r).
Proof.
  intros Hx Hok Hr Hf. destruct fuel as [|fuel]; [lia|]. cbn [parse_member].
  rewrite parse_name_print. cbn. by rewrite Hx by (done || lia).
Qed.

Lemma parse_members_print m r fuel :
  Forall (fun kv : string * json => forall r fuel, json_ok kv.2 = true -> stops r -> (2 * json_size kv.2 <= fuel)%nat ->
    parse_value fuel (print kv.2 ++ r) = Some (kv.2, r)) m ->
  forallb (fun kv => is_ascii kv.1 && json_ok kv.2) m = true ->
  (2 * foldr (fun kv n => json_size kv.2 + n)%nat 0%nat m + 2 <= fuel)%nat ->
  parse_members fuel (print_members m ++ r) = Some (m, r).
Proof.
  intros Hl. revert fuel. induction Hl as [|[k y] l Hy Hl IH]; intros fuel Hok Hf; [by destruct fuel|].
  cbn in Hok. rewrite !andb_true_iff in Hok. destruct Hok as [[_ Hy1] Hok].
  pose proof (json_size_pos y).
  destruct fuel as [|fuel]; [lia|]. cbn in Hf, Hy.
  rewrite print_members_cons.
  cbn [parse_members app]. rewrite <- app_assoc. cbn [app]. rewrite <- app_assoc.
  rewrite parse_member_print; [|done|done|by destruct l as [|[]]|lia]. cbn. by rewrite IH by (done || lia).
Qed.

Lemma parse_value_print j : forall r fuel,
  json_ok j = true -> stops r -> (2 * json_size j <= fuel)%nat -> parse_value fuel (print j ++ r) = Some (j, r).
Proof.
  induction j as [|b|z|s|l IH|m IH] using json_ind'; intros r [|fuel] Hok Hr Hf; try (cbn in Hf; lia).
  - done.
  - by destruct b.
  - cbn [print]. pose proof (show_long_number z) as Hn. destruct (show_long_cons z) as (a & l & E).
    rewrite E in *. cbn [app]. rewrite parse_value_number by (by inversion Hn).
    unfold parse_number. pose proof (span_number_app (a :: l) r Hn Hr) as Hs. cbn [app] in Hs.
    rewrite Hs, <- E, string_chars.
    cbn in Hok. rewrite stol_show by lia. done.
  - cbn [print]. change (parse_value (S fuel) (print_string s ++ r)) with
      ('(s, r) ← parse_name (print_string s ++ r); Some (JString s, r)). by rewrite parse_name_print.
  - destruct l as [|x l]; [done|]. inversion_clear IH as [|? ? Hx Hl].
    cbn in Hok. apply andb_true_iff in Hok as [Hx1 Hok]. pose proof (json_size_pos x).
    rewrite print_array. destruct (print_head x) as (a & y & E & Ha). cbn in Hf.
    cbn [app]. rewrite <- app_assoc. rewrite E. cbn [app]. rewrite parse_value_array by done.
    change (a :: y ++ print_items l ++ r) with ((a :: y) ++ print_items l ++ r). rewrite <- E.
    rewrite Hx; [|done|by destruct l|lia]. cbn. by rewrite parse_items_print by (done || lia).
  - destruct m as [|[k x] m]; [done|]. inversion_clear IH as [|? ? Hx Hl].
    cbn [json_ok forallb fst snd] in Hok. rewrite !andb_true_iff in Hok. destruct Hok as [_ [[_ Hx1] Hok]].
    cbn in Hf, Hx. rewrite print_object. cbn [app]. rewrite <- app_assoc. cbn [app]. rewrite <- app_assoc.
    change (parse_value (S fuel) ("{" :: print_string k ++ ":" :: print x ++ print_members m ++ r)) with
      ('(kv, r) ← parse_member fuel (print_string k ++ ":" :: print x ++ print_members m ++ r);
       '(m, r) ← parse_members fuel r; Some (JObject (kv :: m), r)).
    pose proof (json_size_pos x).
    rewrite parse_member_print; [|done|done|by destruct m as [|[]]|lia].
    cbn. by rewrite parse_members_print by (done || lia).
Qed.

Lemma size_print j : (json_size j <= length (print j))%nat.
Proof.
  induction j as [|b|z|s|l IH|m IH] using json_ind'; try (cbn; lia).
  - destruct b; cbn; lia.
  - cbn. destruct (show_long_cons z) as (a & l & ->). cbn. lia.
  - destruct l as [|x l]; [cbn; lia|]. rewrite print_array. inversion_clear IH as [|? ? Hx Hl].
    cbn. rewrite length_app. cut (foldr (fun x n => json_size x + n)%nat 0%nat l <= length (print_items l))%nat; [lia|].
    induction Hl as [|y l Hy _ IHl]; cbn; [lia|]. rewrite length_app. fold (print_items l). lia.
  - destruct m as [|[k x] m]; [cbn; lia|]. rewrite print_object. inversion_clear IH as [|? ? Hx Hl].
    cbn. rewrite !length_app. cbn. rewrite !length_app.
    cut (foldr (fun kv n => json_size kv.2 + n)%nat 0%nat m <= length (print_members m))%nat; [cbn in Hx; lia|].
    induction Hl as [|[k' y] l Hy _ IHl]; [cbn; lia|].
    rewrite print_members_cons, length_cons, length_app, length_cons, length_app. cbn in Hy |- *. lia.
Qed.

Definition text_of (j : json) : string := string_of_list_ascii (print j).

Definition parse_text (s : string) : option json :=
  match parse_value (2 * length (chars s)) (chars s) with
  | Some (j, []) => Some j
  | _ => None
  end.

Lemma parse_text_of j : json_ok j = true -> parse_text (text_of j) = Some j.
Proof.
  intros Hok. unfold parse_text, text_of. rewrite chars_string.
  pose proof (parse_value_print j [] (2 * length (print j)) Hok I) as H. rewrite app_nil_r in H.
  by rewrite H by (pose proof (size_print j); lia).
Qed.

Lemma escape_all_line l : newline ∉ escape_all l.
Proof. induction l as [|a l IH]; cbn; [set_solver|]. apply not_elem_of_app. split; [apply escape_line|done]. Qed.

Lemma print_string_line s : newline ∉ print_string s.
Proof.
  unfold print_string. rewrite not_elem_of_cons, not_elem_of_app. split; [done|].
  split; [apply escape_all_line|]. by rewrite list_elem_of_singleton.
Qed.

Lemma print_line j : newline ∉ print j.
Proof.
  induction j as [|b|z|s|l IH|m IH] using json_ind'.
  - by apply (bool_decide_eq_true (newline ∉ print JNull)).
  - apply (bool_decide_eq_true (newline ∉ print (JBool b))). by destruct b.
  - cbn. apply show_long_avoids; done.
  - apply print_string_line.
  - destruct l as [|x l]; [by apply (bool_decide_eq_true (newline ∉ ["["; "]"]))|].
    rewrite print_array. inversion_clear IH as [|? ? Hx Hl]. rewrite not_elem_of_cons, not_elem_of_app.
    split; [done|]. split; [done|]. induction Hl as [|y l Hy _ IHl]; cbn; [by rewrite list_elem_of_singleton|].
    rewrite not_elem_of_cons, not_elem_of_app. by split_and!.
  - destruct m as [|[k x] m]; [by apply (bool_decide_eq_true (newline ∉ ["{"; "}"]))|].
    rewrite print_object. inversion_clear IH as [|? ? Hx Hl].
    rewrite not_elem_of_cons, not_elem_of_app, not_elem_of_cons, not_elem_of_app.
    split_and!; try done; [apply print_string_line|].
    induction Hl as [|[k' y] l Hy _ IHl]; [cbn; by rewrite list_elem_of_singleton|].
    rewrite print_members_cons, not_elem_of_cons, not_elem_of_app, not_elem_of_cons, not_elem_of_app.
    split_and!; try done. apply print_string_line.
Qed.

Lemma text_line j : newline ∉ chars (text_of j).
Proof. unfold text_of. rewrite chars_string. apply print_line. Qed.

(** *** ASCII values have ASCII texts *)

Definition low (l : list ascii) : bool := forallb (fun a => code a <? 128) l.

Lemma low_app l r : low (l ++ r) = low l && low r.
Proof. apply forallb_app. Qed.

Lemma escape_low a : (code a <? 128) = true -> low (escape a) = true.
Proof. by destruct a as [[] [] [] [] [] [] [] []]. Qed.

Lemma print_string_low s : is_ascii s = true -> low (print_string s) = true.
Proof.
  unfold is_ascii, print_string. intros H.
  change (low (quote :: escape_all (chars s) ++ [quote])) with (low (escape_all (chars s) ++ [quote])).
  rewrite low_app, andb_true_r. induction (chars s) as [|a l IH]; [done|]. cbn in H. apply andb_true_iff in H as [Ha Hl].
  cbn [escape_all]. by rewrite low_app, escape_low, IH.
Qed.

Lemma show_long_low z : low (chars (show_long z)) = true.
Proof.
  apply forallb_elem. intros a [->|[d Hd]]%show_long_chars; [done|]. revert Hd.
  destruct a as [[] [] [] [] [] [] [] []]; cbn; intros Hd; by try discriminate Hd.
Qed.

Lemma print_low j : json_ok j = true -> low (print j) = true.
Proof.
  induction j as [|b|z|s|l IH|m IH] using json_ind'; intros Hok.
  - done.
  - by destruct b.
  - apply show_long_low.
  - by apply print_string_low.
  - destruct l as [|x l]; [done|]. cbn [json_ok forallb] in Hok. apply andb_true_iff in Hok as [Hx Hl].
    rewrite print_array. inversion_clear IH as [|? ? Px Pl]. change (low (print x ++ print_items l) = true).
    rewrite low_app, (Px Hx). cbn [andb]. induction Pl as [|y l Hy _ IHl]; [done|]. cbn [forallb] in Hl. apply andb_true_iff in Hl as [Hy' Hl'].
    change (low (print y ++ print_items l) = true). by rewrite low_app, (Hy Hy'), IHl.
  - destruct m as [|[k x] m]; [done|]. cbn [json_ok forallb fst snd] in Hok. rewrite !andb_true_iff in Hok.
    destruct Hok as (_ & [Hk Hx] & Hm). rewrite print_object. inversion_clear IH as [|? ? Px Pl].
    change (low (print_string k ++ ":"%char :: print x ++ print_members m) = true). cbn [snd] in Px.
    rewrite low_app, (print_string_low _ Hk). change (low (print x ++ print_members m) = true).
    rewrite low_app, (Px Hx). cbn [andb]. induction Pl as [|[k' y] l Hy _ IHl]; [done|]. cbn [forallb fst snd] in Hm. rewrite !andb_true_iff in Hm.
    destruct Hm as ([Hk' Hy'] & Hm'). rewrite print_members_cons.
    change (low (print_string k' ++ ":"%char :: print y ++ print_members l) = true). cbn [snd] in Hy.
    rewrite low_app, (print_string_low _ Hk'). change (low (print y ++ print_members l) = true).
    by rewrite low_app, (Hy Hy'), IHl.
Qed.

Lemma text_ascii j : json_ok j = true -> is_ascii (text_of j) = true.
Proof. unfold is_ascii, text_of. rewrite chars_string. apply print_low. Qed.

#[export] Instance compact_json : JsonText := {
  dump := text_of;
  parse := parse_text;
  parse_dump := parse_text_of;
  dump_object m := match m with [] => ex_intro _ _ eq_refl | (k, x) :: m => ex_intro _ _ eq_refl end;
  dump_null := eq_refl;
  dump_line := text_line;
  dump_ascii := text_ascii
}.
