(* ===== verification/CypherFilter.v ===== *)
(** * CypherFilter: the conditions of a query

    [FilterHelper] (query/processor/cypher/runtime/Helpers.cpp) evaluates the
    condition of a Filter operator on a row.  Condition and row are texts; the
    methods parse them, take them apart and print the parts again for the
    next method.  [evaluateCondition] and its helpers below are these methods;
    [cond] is the abstract syntax of conditions, [cond_json] its JSON and
    [holds] its meaning without the detour through text. *)
From Stdlib Require Import ZArith Ascii String Lia.
From stdpp Require Import base tactics numbers list strings sets.
From S2P Require Import Prelude Json.

(** ** Values *)

(** [std::variant<std::string, int, bool>]; a string literal is a string. *)
Inductive ValueType := VString (s : string) | VInt (z : Z) | VBool (b : bool).

Definition stoi_outcome (s : string) : outcome Z :=
  match stoi s with inr z => Ret z | inl e => Throw e end.

Fixpoint drop_digits (l : list ascii) : list ascii :=
  match l with
  | a :: r => match digit_of a with Some _ => drop_digits r | None => l end
  | [] => []
  end.

Definition drop_sign (l : list ascii) : list ascii :=
  match l with
  | a :: r => if decide (a = "-"%char) then r else if decide (a = "+"%char) then r else l
  | [] => []
  end.

(** The position [stoi] reports: what follows the digits is not read. *)
Definition stoi_pos (s : string) : nat :=
  length (c_str s) - length (drop_digits (drop_sign (drop_spaces (c_str s)))).

(** [tolower] in the C locale. *)
Definition tolower (a : ascii) : ascii :=
  if (65 <=? code a) && (code a <=? 90) then byte (code a + 32) else a.

Definition lower (s : string) : string := string_of_list_ascii (tolower <$> chars s).

(** A property read as a value of the type of the other operand; what does
    not read as such is "null". *)
Definition convert (type value : string) : ValueType :=
  if String.eqb type "STRING" then VString value
  else if String.eqb type "DECIMAL" then
    match stoi value with
    | inr num => if (stoi_pos value =? String.length value)%nat then VInt num else VString "null"
    | inl _ => VString "null"
    end
  else if String.eqb type "BOOLEAN" then
    if String.eqb (lower value) "true" then VBool true
    else if String.eqb (lower value) "false" then VBool false
    else VString "null"
  else VString value.

Arguments convert : simpl never.

(** The comparison both evaluators end with. *)
Definition compare_values (op : string) (l r : ValueType) : bool :=
  match l, r with
  | VString a, VString b =>
      if String.eqb op "==" then String.eqb a b
      else if String.eqb op "<>" then negb (String.eqb a b) else false
  | VInt a, VInt b =>
      if String.eqb op "==" then a =? b
      else if String.eqb op "<>" then negb (a =? b)
      else if String.eqb op "<" then a <? b
      else if String.eqb op ">" then b <? a
      else if String.eqb op "<=" then a <=? b
      else if String.eqb op ">=" then b <=? a else false
  | VBool a, VBool b =>
      if String.eqb op "==" then Bool.eqb a b
      else if String.eqb op "<>" then negb (Bool.eqb a b)
      else if String.eqb op "<" then negb a && b
      else if String.eqb op ">" then a && negb b
      else if String.eqb op "<=" then negb a || b
      else if String.eqb op ">=" then a || negb b else false
  | _, _ => false
  end.

Definition is_json (j : json) (s : string) : bool := json_eqb j (JString s).

(** The loops of [evaluateLogical] over an evaluator of conditions. *)
Fixpoint all_hold {A} (f : A -> outcome bool) (l : list A) : outcome bool :=
  match l with [] => Ret true | c :: r => f c ≫= fun b : bool => if b then all_hold f r else Ret false end.
Fixpoint some_holds {A} (f : A -> outcome bool) (l : list A) : outcome bool :=
  match l with [] => Ret false | c :: r => f c ≫= fun b : bool => if b then Ret true else some_holds f r end.
Fixpoint xor_hold {A} (f : A -> outcome bool) (acc : bool) (l : list A) : outcome bool :=
  match l with [] => Ret acc | c :: r => b ← f c; xor_hold f (xorb acc b) r end.

Section filter.
Context `{JT : JsonText}.

(** ** The methods *)

Definition typeCheck (left right : string) : bool :=
  String.eqb left "PROPERTY_LOOKUP" || String.eqb right "PROPERTY_LOOKUP" ||
  String.eqb left "FUNCTION" || String.eqb right "FUNCTION" || String.eqb left right.

(** Quotes around a literal are removed. *)
Definition unquote (str : string) : string :=
  let n := String.length str in
  match chars str with
  | a :: r =>
      if (2 <=? n)%nat && bool_decide (a = "'"%char) && bool_decide (last r = Some "'"%char)
      then String.substring 1 (n - 2) str else str
  | [] => str
  end.

Definition evaluateOtherTypes (data : string) : outcome ValueType :=
  val ← parse_exn data;
  type ← index "type" val;
  if is_json type "STRING" then
    value ← index "value" val; str ← as_string value; Ret (VString (unquote str))
  else if is_json type "DECIMAL" then
    value ← index "value" val; str ← as_string value; num ← stoi_outcome str; Ret (VInt num)
  else if is_json type "BOOLEAN" then
    value ← index "value" val; Ret (VBool (is_json value "TRUE"))
  else if is_json type "NULL" then Ret (VString "null")
  else Ret (VString "").

(** The value of the last property of the path. *)
Fixpoint last_property (raw : json) (properties : list string) (value : string) : outcome string :=
  match properties with
  | [] => Ret value
  | p :: r =>
      v ← (if contains p raw then x ← index p raw; as_string x else Ret "null");
      last_property raw r v
  end.

Definition evaluatePropertyLookup (property data type : string) : outcome ValueType :=
  prop ← parse_exn property;
  raw ← parse_exn data;
  ps ← index "property" prop;
  properties ← as_strings ps;
  value ← last_property raw properties "";
  Ret (convert type value).

Definition evaluateFunction (function data type : string) : outcome ValueType :=
  func ← parse_exn function;
  raw ← parse_exn data;
  as_ ← index "arguments" func;
  args ← as_strings as_;
  match args with
  | [] => Undef
  | arg :: _ =>
      name ← index "functionName" func;
      value ← (if is_json name "id" then n ← index arg raw; i ← index "id" n; as_string i else Ret "");
      Ret (if String.eqb type "NULL" then VString "null" else convert type value)
  end.

Definition evaluateOperand (operand data : json) (otherType : string) : outcome ValueType :=
  type ← cindex "type" operand;
  if is_json type "PROPERTY_LOOKUP" then
    v ← cindex "variable" operand; variable ← as_string v;
    d ← cindex variable data;
    evaluatePropertyLookup (dump operand) (dump d) otherType
  else if is_json type "FUNCTION" then evaluateFunction (dump operand) (dump data) otherType
  else evaluateOtherTypes (dump operand).

Definition evaluateNodes (left right : string) : outcome bool :=
  leftNode ← parse_exn left;
  rightNode ← parse_exn right;
  if String.eqb left "null" || String.eqb right "null" then Ret true
  else
    l ← index "id" leftNode; r ← index "id" rightNode;
    Ret (negb (json_eqb l r)).

(** The beginning of both evaluators: the two operands, their types and,
    for two variables, the result. *)
Definition evaluateOperands (condition raw : string) (k : json -> json -> json -> json -> string -> string -> outcome bool)
    : outcome bool :=
  predicate ← parse_exn condition;
  data ← parse_exn raw;
  left ← index "left" predicate; right ← index "right" predicate;
  lt ← index "type" left; leftType ← as_string lt;
  rt ← index "type" right; rightType ← as_string rt;
  if negb (typeCheck leftType rightType) then Ret false
  else if String.eqb leftType "VARIABLE" && String.eqb rightType "VARIABLE" then
    lv ← index "value" left; l ← as_string lv;
    rv ← index "value" right; r ← as_string rv;
    ln ← index l data; rn ← index r data;
    evaluateNodes (dump ln) (dump rn)
  else k predicate data left right leftType rightType.

Definition evaluateComparison (condition raw : string) : outcome bool :=
  evaluateOperands condition raw (fun predicate data left right leftType rightType =>
    leftValue ← evaluateOperand left data rightType;
    rightValue ← evaluateOperand right data leftType;
    o ← index "operator" predicate; op ← as_string o;
    Ret (compare_values op leftValue rightValue)).

Definition evaluatePredicateExpression (condition raw : string) : outcome bool :=
  evaluateOperands condition raw (fun predicate data left right leftType rightType =>
    leftValue ← evaluateOperand left data rightType;
    rightValue ← evaluateOtherTypes (dump right);
    o ← index "operator" predicate; op ← as_string o;
    Ret (compare_values op leftValue rightValue)).

Definition evaluateLogical (rec : string -> string -> outcome bool) (condition data : string) : outcome bool :=
  predicate ← parse_exn condition;
  t ← index "type" predicate; type ← as_string t;
  cs ← index "comparisons" predicate; comparisons ← as_array cs;
  let eval := fun c => rec (dump c) data in
  if String.eqb type "AND" then all_hold eval comparisons
  else if String.eqb type "OR" then some_holds eval comparisons
  else if String.eqb type "XOR" then
    match comparisons with
    | a :: b :: r => x ← eval a; y ← eval b; xor_hold eval (xorb x y) r
    | _ => Ret false
    end
  else if String.eqb type "NOT" then
    match comparisons with a :: _ => eval a | [] => Undef end
  else Ret false.

(** The fuel bounds the nesting of AND, OR, XOR and NOT. *)
Fixpoint evaluateCondition (fuel : nat) (condition data : string) : outcome bool :=
  match fuel with
  | O => OutOfFuel
  | S fuel =>
      predicate ← parse_exn condition;
      t ← index "type" predicate; type ← as_string t;
      if String.eqb type "COMPARISON" then evaluateComparison condition data
      else if String.eqb type "PREDICATE_EXPRESSIONS" then evaluatePredicateExpression condition data
      else if String.eqb type "AND" || String.eqb type "OR" || String.eqb type "XOR" || String.eqb type "NOT"
      then evaluateLogical (evaluateCondition fuel) condition data
      else Ret false
  end.

(** [FilterHelper::evaluate]; the nesting is that of the condition as JSON. *)
Definition evaluate (condition data : string) : outcome bool :=
  j ← parse_exn condition; evaluateCondition (json_size j) condition data.
End filter.
