(* ===== verification/FilterTheory.v ===== *)
(** * FilterTheory: what the conditions of a query mean

    Abstract conditions, their JSON, what the evaluator makes of them on a row
    without the detour through text ([holds]), and that
    [FilterHelper::evaluate] computes it.  Then the meaning that the query
    language gives to a class of conditions ([satisfies]), independent of the
    evaluator, that the evaluator agrees with it, and where it departs. *)
From Stdlib Require Import ZArith Ascii String Lia.
From stdpp Require Import base tactics numbers list strings sets.
From S2P Require Import Prelude Json CypherFilter.

(** ** Conditions *)

Inductive operand :=
| Lookup (variable : string) (properties : list string)
| Call (functionName : string) (arguments : list string)
| Literal (type : string) (value : option string).

Inductive connective := AND | OR | XOR | NOT.

(** [Compare true]: a predicate expression (IS NULL, IS NOT NULL). *)
Inductive cond :=
| Compare (predicate : bool) (op : string) (l r : operand)
| Logic (c : connective) (cs : list cond).

Definition operand_json (o : operand) : json :=
  match o with
  | Lookup v ps =>
      JObject [("property", strings_json ps); ("type", JString "PROPERTY_LOOKUP"); ("variable", JString v)]
  | Call f args =>
      JObject [("arguments", strings_json args); ("functionName", JString f); ("type", JString "FUNCTION")]
  | Literal t (Some v) => JObject [("type", JString t); ("value", JString v)]
  | Literal t None => JObject [("type", JString t)]
  end.

Definition operand_type (o : operand) : string :=
  match o with Lookup _ _ => "PROPERTY_LOOKUP" | Call _ _ => "FUNCTION" | Literal t _ => t end.

Definition connective_name (c : connective) : string :=
  match c with AND => "AND" | OR => "OR" | XOR => "XOR" | NOT => "NOT" end.

Fixpoint cond_json (c : cond) : json :=
  match c with
  | Compare p op l r =>
      JObject [("left", operand_json l); ("operator", JString op); ("right", operand_json r);
               ("type", JString (if p then "PREDICATE_EXPRESSIONS" else "COMPARISON"))]
  | Logic c cs =>
      JObject [("comparisons", JArray (cond_json <$> cs)); ("type", JString (connective_name c))]
  end.

Section cond_induction.
Context (P : cond -> Prop) (Hcompare : forall p op l r, P (Compare p op l r)).
Context (Hlogic : forall c cs, Forall P cs -> P (Logic c cs)).

Fixpoint cond_ind' (c : cond) : P c :=
  match c with
  | Compare p op l r => Hcompare p op l r
  | Logic c cs => Hlogic c cs
      ((fix go cs : Forall P cs :=
         match cs with [] => Forall_nil_2 P | x :: r => Forall_cons_2 P x r (cond_ind' x) (go r) end) cs)
  end.
End cond_induction.

(** ** What the evaluator makes of them *)

Definition literal_value (type : string) (value : option string) : outcome ValueType :=
  let text := match value with Some v => Ret v | None => Throw json_error end in
  if String.eqb type "STRING" then v ← text; Ret (VString (unquote v))
  else if String.eqb type "DECIMAL" then v ← text; n ← stoi_outcome v; Ret (VInt n)
  else if String.eqb type "BOOLEAN" then Ret (VBool (bool_decide (value = Some "TRUE")))
  else if String.eqb type "NULL" then Ret (VString "null")
  else Ret (VString "").

(** [otherType] is the type of the operand on the other side. *)
Definition operand_value (row : list (string * json)) (otherType : string) (o : operand) : outcome ValueType :=
  match o with
  | Lookup v ps =>
      match find_key v row with
      | None => Undef
      | Some n => value ← last_property n ps ""; Ret (convert otherType value)
      end
  | Call f [] => Undef
  | Call f (arg :: _) =>
      value ← (if String.eqb f "id"
               then n ← index arg (JObject row); i ← index "id" n; as_string i else Ret "");
      Ret (if String.eqb otherType "NULL" then VString "null" else convert otherType value)
  | Literal t v => literal_value t v
  end.

(** Two variables: whether they are different nodes, whatever the operator. *)
Definition different_nodes (row : list (string * json)) (l r : string) : outcome bool :=
  let ln := default JNull (find_key l row) in
  let rn := default JNull (find_key r row) in
  if is_null ln || is_null rn then Ret true
  else x ← index "id" ln; y ← index "id" rn; Ret (negb (json_eqb x y)).

Definition compare_operands (row : list (string * json)) (p : bool) (op : string) (l r : operand) : outcome bool :=
  if negb (typeCheck (operand_type l) (operand_type r)) then Ret false
  else if String.eqb (operand_type l) "VARIABLE" && String.eqb (operand_type r) "VARIABLE" then
    match l, r with
    | Literal _ (Some a), Literal _ (Some b) => different_nodes row a b
    | _, _ => Throw json_error
    end
  else
    lv ← operand_value row (operand_type r) l;
    rv ← (if p then match r with Literal t v => literal_value t v | _ => Ret (VString "") end
          else operand_value row (operand_type l) r);
    Ret (compare_values op lv rv).

Fixpoint holds (row : list (string * json)) (c : cond) : outcome bool :=
  match c with
  | Compare p op l r => compare_operands row p op l r
  | Logic AND cs => all_hold (holds row) cs
  | Logic OR cs => some_holds (holds row) cs
  | Logic XOR (a :: b :: r) => x ← holds row a; y ← holds row b; xor_hold (holds row) (xorb x y) r
  | Logic XOR _ => Ret false
  | Logic NOT (a :: _) => holds row a
  | Logic NOT [] => Undef
  end.

(** ** The text adds nothing *)

Section text.
Context `{JT : JsonText}.

Lemma index_find k m v : find_key k m = Some v -> index k (JObject m) = Ret v.
Proof. intros H. cbn. by rewrite H. Qed.

Lemma json_size_elem x l : x ∈ l -> (json_size x < json_size (JArray l))%nat.
Proof.
  intros H. cbn. induction l as [|y l IH]; [by apply elem_of_nil in H|]. cbn.
  apply elem_of_cons in H as [->|H]; [lia|]. specialize (IH H). lia.
Qed.

Lemma operand_type_json o : index "type" (operand_json o) = Ret (JString (operand_type o)).
Proof. by destruct o as [| |t [v|]]. Qed.

Lemma is_json_string s t : is_json (JString s) t = String.eqb s t.
Proof. done. Qed.

Lemma evaluateOtherTypes_literal t v :
  json_ok (operand_json (Literal t v)) = true ->
  evaluateOtherTypes (dump (operand_json (Literal t v))) = literal_value t v.
Proof.
  intros Hok. unfold evaluateOtherTypes, literal_value. rewrite parse_exn_dump by done. cbn [mbind outcome_bind].
  rewrite operand_type_json. cbn [mbind outcome_bind operand_type]. rewrite !is_json_string.
  destruct (String.eqb t "STRING"); [by destruct v|]. destruct (String.eqb t "DECIMAL"); [by destruct v|].
  destruct (String.eqb t "BOOLEAN"); [|done]. destruct v as [v|]; [|done]. cbn. f_equal. f_equal.
  destruct (String.eqb_spec v "TRUE"); case_bool_decide; congruence.
Qed.

Lemma evaluateOtherTypes_other o :
  json_ok (operand_json o) = true -> (forall t v, o <> Literal t v) ->
  evaluateOtherTypes (dump (operand_json o)) = Ret (VString "").
Proof.
  intros Hok Ho. unfold evaluateOtherTypes. rewrite parse_exn_dump by done. cbn [mbind outcome_bind].
  rewrite operand_type_json. cbn. by destruct o; [| |edestruct Ho].
Qed.

Lemma evaluateOperand_value o row t :
  json_ok (operand_json o) = true -> json_ok (JObject row) = true ->
  match o with Literal t _ => t <> "PROPERTY_LOOKUP" /\ t <> "FUNCTION" | _ => True end ->
  evaluateOperand (operand_json o) (JObject row) t = operand_value row t o.
Proof.
  intros Ho Hr Ht. destruct o as [v ps|f args|ty v].
  - unfold evaluateOperand. cbn. destruct (find_key v row) as [n|] eqn:E; [|done]. cbn.
    pose proof (json_ok_find _ _ _ Hr E) as Hn. unfold evaluatePropertyLookup.
    rewrite !parse_exn_dump by done. cbn [mbind outcome_bind].
    change (index "property" _) with (Ret (strings_json ps)). cbn [mbind outcome_bind].
    by rewrite as_strings_json.
  - unfold evaluateOperand. cbn [cindex operand_json find_key mbind outcome_bind]. cbn [String.eqb Ascii.eqb Bool.eqb].
    cbn [mbind outcome_bind is_json json_eqb String.eqb Ascii.eqb Bool.eqb]. unfold evaluateFunction.
    rewrite !parse_exn_dump by done. cbn [mbind outcome_bind].
    change (index "arguments" _) with (Ret (strings_json args)). cbn [mbind outcome_bind].
    rewrite as_strings_json. cbn [mbind outcome_bind]. by destruct args.
  - destruct Ht as [H1 H2]. transitivity (evaluateOtherTypes (dump (operand_json (Literal ty v)))).
    + unfold evaluateOperand.
      assert (cindex "type" (operand_json (Literal ty v)) = Ret (JString ty)) as -> by by destruct v.
      cbn [mbind outcome_bind]. rewrite !is_json_string.
      by rewrite (proj2 (String.eqb_neq _ _) H1), (proj2 (String.eqb_neq _ _) H2).
    + by apply evaluateOtherTypes_literal.
Qed.

(** A literal does not pass for a lookup or a call. *)
Definition operand_ok (o : operand) : bool :=
  json_ok (operand_json o) &&
  match o with Literal t _ => negb (String.eqb t "PROPERTY_LOOKUP") && negb (String.eqb t "FUNCTION") | _ => true end.

Fixpoint cond_ok (c : cond) : bool :=
  match c with
  | Compare _ op l r => is_ascii op && operand_ok l && operand_ok r
  | Logic _ cs => forallb cond_ok cs
  end.

Lemma operand_ok_json o : operand_ok o = true -> json_ok (operand_json o) = true.
Proof. unfold operand_ok. rewrite andb_true_iff. by intros [? _]. Qed.

Lemma cond_ok_json c : cond_ok c = true -> json_ok (cond_json c) = true.
Proof.
  induction c as [p op l r|c cs IH] using cond_ind'; intros H; cbn in H.
  - rewrite !andb_true_iff in H. destruct H as [[Hop Hl] Hr].
    apply operand_ok_json in Hl, Hr. cbn [cond_json json_ok forallb fst snd].
    rewrite Hl, Hr, Hop. by destruct p.
  - cbn [cond_json json_ok forallb fst snd].
    assert (forallb json_ok (cond_json <$> cs) = true) as ->; [|by destruct c].
    rewrite forallb_elem in H. apply forallb_elem. intros x Hx. apply list_elem_of_fmap in Hx as (y & -> & Hy).
    rewrite Forall_forall in IH. by apply IH; [|apply H].
Qed.

Lemma evaluateOperand_ok o row t :
  operand_ok o = true -> json_ok (JObject row) = true ->
  evaluateOperand (operand_json o) (JObject row) t = operand_value row t o.
Proof.
  intros Ho Hr. apply evaluateOperand_value; [by apply operand_ok_json|done|].
  destruct o as [| |ty v]; try done. apply andb_true_iff in Ho as [_ Ho].
  apply andb_true_iff in Ho as [H1 H2]. apply negb_true_iff in H1, H2.
  by apply String.eqb_neq in H1, H2.
Qed.

Lemma dump_is_null j : json_ok j = true -> String.eqb (dump j) "null" = is_null j.
Proof.
  intros Hj. destruct (String.eqb_spec (dump j) "null") as [E|E].
  - rewrite <- dump_null in E. assert (Some j = Some JNull) as [= ->]; [|done].
    rewrite <- (parse_dump j Hj), <- (parse_dump JNull), E; done.
  - destruct j; try done. by rewrite dump_null in E.
Qed.

Lemma evaluateNodes_spec row l r :
  json_ok (JObject row) = true ->
  (ln ← index l (JObject row); rn ← index r (JObject row); evaluateNodes (dump ln) (dump rn)) =
  different_nodes row l r.
Proof.
  intros Hr. cbn. unfold evaluateNodes, different_nodes.
  assert (forall k, json_ok (default JNull (find_key k row)) = true) as Hk.
  { intros k. destruct (find_key k row) eqn:E; [|done]. by eapply json_ok_find. }
  rewrite !parse_exn_dump by done. cbn. by rewrite !dump_is_null.
Qed.

Lemma compare_fields p op l r :
  index "left" (cond_json (Compare p op l r)) = Ret (operand_json l) /\
  index "right" (cond_json (Compare p op l r)) = Ret (operand_json r) /\
  index "type" (cond_json (Compare p op l r)) =
    Ret (JString (if p then "PREDICATE_EXPRESSIONS" else "COMPARISON")).
Proof. done. Qed.

Lemma logic_fields k cs :
  index "type" (cond_json (Logic k cs)) = Ret (JString (connective_name k)) /\
  index "comparisons" (cond_json (Logic k cs)) = Ret (JArray (cond_json <$> cs)).
Proof. done. Qed.

Lemma evaluateOperands_spec p op l r row k :
  cond_ok (Compare p op l r) = true -> json_ok (JObject row) = true ->
  evaluateOperands (dump (cond_json (Compare p op l r))) (dump (JObject row)) k =
  if negb (typeCheck (operand_type l) (operand_type r)) then Ret false
  else if String.eqb (operand_type l) "VARIABLE" && String.eqb (operand_type r) "VARIABLE" then
    match l, r with
    | Literal _ (Some a), Literal _ (Some b) => different_nodes row a b
    | _, _ => Throw json_error
    end
  else k (cond_json (Compare p op l r)) (JObject row) (operand_json l) (operand_json r)
         (operand_type l) (operand_type r).
Proof.
  intros Hc Hr. unfold evaluateOperands. rewrite !parse_exn_dump by (done || by apply cond_ok_json).
  cbn [mbind outcome_bind].
  destruct (compare_fields p op l r) as (-> & -> & _).
  cbn [mbind outcome_bind]. rewrite !operand_type_json. cbn [mbind outcome_bind as_string].
  destruct (negb _); [done|]. destruct (String.eqb (operand_type l) "VARIABLE") eqn:El; [|done].
  destruct (String.eqb (operand_type r) "VARIABLE") eqn:Er; [|done]. cbn [andb].
  destruct l as [| |lt [lv|]]; try done. destruct r as [| |rt [rv|]]; try done.
  by rewrite <- evaluateNodes_spec.
Qed.

Lemma evaluateComparison_spec op l r row :
  cond_ok (Compare false op l r) = true -> json_ok (JObject row) = true ->
  evaluateComparison (dump (cond_json (Compare false op l r))) (dump (JObject row)) =
  compare_operands row false op l r.
Proof.
  intros Hc Hr. unfold evaluateComparison. rewrite evaluateOperands_spec by done. unfold compare_operands.
  cbn in Hc. rewrite !andb_true_iff in Hc. destruct Hc as [[_ Hl] Hr'].
  destruct (negb _); [done|]. destruct (_ && _); [done|]. by rewrite !evaluateOperand_ok.
Qed.

Lemma evaluatePredicate_spec op l r row :
  cond_ok (Compare true op l r) = true -> json_ok (JObject row) = true ->
  evaluatePredicateExpression (dump (cond_json (Compare true op l r))) (dump (JObject row)) =
  compare_operands row true op l r.
Proof.
  intros Hc Hr. unfold evaluatePredicateExpression. rewrite evaluateOperands_spec by done. unfold compare_operands.
  cbn in Hc. rewrite !andb_true_iff in Hc. destruct Hc as [[_ Hl] Hr']. pose proof (operand_ok_json _ Hr') as Hj.
  destruct (negb _); [done|]. destruct (_ && _); [done|]. rewrite evaluateOperand_ok by done.
  destruct r as [v ps|f args|t v]; [by rewrite evaluateOtherTypes_other..|by rewrite evaluateOtherTypes_literal].
Qed.

(** The loops over the JSON of conditions and over the conditions. *)
Lemma loops_fmap (f : json -> outcome bool) (g : cond -> outcome bool) cs :
  (forall c, c ∈ cs -> f (cond_json c) = g c) ->
  all_hold f (cond_json <$> cs) = all_hold g cs /\
  some_holds f (cond_json <$> cs) = some_holds g cs /\
  forall acc, xor_hold f acc (cond_json <$> cs) = xor_hold g acc cs.
Proof.
  induction cs as [|c cs IH]; intros H; [done|]. cbn. rewrite (H c) by left.
  destruct IH as (I1 & I2 & I3); [intros; apply H; by right|].
  split_and!; [by rewrite I1|by rewrite I2|]. intros acc. destruct (g c); try done. cbn. apply I3.
Qed.

Lemma evaluateCondition_spec c row fuel :
  cond_ok c = true -> json_ok (JObject row) = true -> (json_size (cond_json c) <= fuel)%nat ->
  evaluateCondition fuel (dump (cond_json c)) (dump (JObject row)) = holds row c.
Proof.
  intros Hc Hr. revert fuel. induction c as [p op l r|k cs IH] using cond_ind'; intros [|fuel] Hf;
    try (pose proof (json_size_pos (cond_json (Compare p op l r))); lia);
    try (pose proof (json_size_pos (cond_json (Logic k cs))); lia).
  - cbn [evaluateCondition]. rewrite parse_exn_dump by (by apply cond_ok_json).
    cbn [mbind outcome_bind]. destruct (compare_fields p op l r) as (_ & _ & ->).
    destruct p; [by apply evaluatePredicate_spec|by apply evaluateComparison_spec].
  - cbn [evaluateCondition]. rewrite parse_exn_dump by (by apply cond_ok_json).
    cbn [mbind outcome_bind]. destruct (logic_fields k cs) as [Hk Hcs']. rewrite Hk.
    transitivity (evaluateLogical (evaluateCondition fuel) (dump (cond_json (Logic k cs))) (dump (JObject row)));
      [by destruct k|]. unfold evaluateLogical. rewrite parse_exn_dump by (by apply cond_ok_json).
    cbn [mbind outcome_bind]. rewrite Hk, Hcs'. cbn [mbind outcome_bind as_string as_array].
    assert (forall c, c ∈ cs -> evaluateCondition fuel (dump (cond_json c)) (dump (JObject row)) = holds row c) as Hcs.
    { intros c Hin. rewrite Forall_forall in IH. apply IH; [done| |].
      - cbn in Hc. rewrite forallb_elem in Hc. by apply Hc.
      - pose proof (json_size_elem (cond_json c) (cond_json <$> cs)) as Hs.
        cbn [cond_json json_size foldr snd] in Hf, Hs. specialize (Hs (list_elem_of_fmap_2 _ _ _ Hin)). lia. }
    set (f := fun c => evaluateCondition fuel (dump c) (dump (JObject row))).
    destruct (loops_fmap f _ _ Hcs) as (H1 & H2 & H3).
    destruct k; cbn -[evaluateCondition fmap list_fmap]; [done|done| |].
    + destruct cs as [|a [|b cs]]; [done..|]. cbn. rewrite (Hcs a) by left. rewrite (Hcs b) by (right; left).
      destruct (holds row a); try done. cbn. destruct (holds row b); try done. cbn.
      apply (loops_fmap f). intros c Hin. apply Hcs. by do 2 right.
    + destruct cs as [|a cs]; [done|]. cbn. apply Hcs. left.
Qed.
End text.

(** What the worker makes of a condition and a row. *)
Definition evaluated `{JsonText} (row : list (string * json)) (c : cond) : outcome bool :=
  evaluate (dump (cond_json c)) (dump (JObject row)).

Lemma evaluated_holds `{JsonText} c row :
  cond_ok c = true -> json_ok (JObject row) = true -> evaluated row c = holds row c.
Proof.
  intros Hc Hr. unfold evaluated, evaluate. rewrite parse_exn_dump by (by apply cond_ok_json).
  by apply evaluateCondition_spec.
Qed.

(** ** The connectives *)

Definition parity (l : list bool) : bool := foldr xorb false l.

Lemma xor_hold_parity {A} (f : A -> outcome bool) (b : A -> bool) acc l :
  (forall x, x ∈ l -> f x = Ret (b x)) -> xor_hold f acc l = Ret (xorb acc (parity (b <$> l))).
Proof.
  revert acc. induction l as [|x l IH]; intros acc H; cbn; [by rewrite xorb_false_r|].
  rewrite (H x) by left. cbn. rewrite IH by (intros; apply H; by right). by rewrite xorb_assoc.
Qed.

Lemma all_hold_forallb {A} (f : A -> outcome bool) (b : A -> bool) l :
  (forall x, x ∈ l -> f x = Ret (b x)) -> all_hold f l = Ret (forallb b l).
Proof.
  induction l as [|x l IH]; intros H; cbn; [done|]. rewrite (H x) by left. cbn.
  rewrite IH by (intros; apply H; by right). by destruct (b x).
Qed.

Lemma some_holds_existsb {A} (f : A -> outcome bool) (b : A -> bool) l :
  (forall x, x ∈ l -> f x = Ret (b x)) -> some_holds f l = Ret (existsb b l).
Proof.
  induction l as [|x l IH]; intros H; cbn; [done|]. rewrite (H x) by left. cbn.
  rewrite IH by (intros; apply H; by right). by destruct (b x).
Qed.

(** The connectives on conditions that have truth values: AND is true when
    all are, OR when one is, XOR when an odd number of at least two is.  NOT
    does not negate: it is true when its condition is. *)
Theorem filter_connectives `{JT : JsonText} row cs (b : cond -> bool) :
  forallb cond_ok cs = true -> json_ok (JObject row) = true ->
  (forall c, c ∈ cs -> evaluated row c = Ret (b c)) ->
  evaluated row (Logic AND cs) = Ret (forallb b cs) /\
  evaluated row (Logic OR cs) = Ret (existsb b cs) /\
  evaluated row (Logic XOR cs) = Ret (bool_decide (2 <= length cs)%nat && parity (b <$> cs)) /\
  (forall c, cs = [c] -> evaluated row (Logic NOT cs) = Ret (b c)).
Proof.
  intros Hcs Hr H'. rewrite !evaluated_holds by done.
  assert (forall c, c ∈ cs -> holds row c = Ret (b c)) as H.
  { intros c Hc. rewrite <- H' by done. symmetry. apply evaluated_holds; [|done].
    rewrite forallb_forall in Hcs. by apply Hcs, list_elem_of_In. }
  split_and!; cbn.
  - by apply all_hold_forallb.
  - by apply some_holds_existsb.
  - destruct cs as [|x [|y r]]; [done..|]. rewrite (H x), (H y) by set_solver. cbn.
    rewrite (xor_hold_parity _ b) by (intros; apply H; by do 2 right).
    rewrite bool_decide_eq_true_2 by lia. by rewrite xorb_assoc.
  - intros c ->. apply H. left.
Qed.

(** ** Comparing a property *)

Lemma drop_digits_all l : all_digits l -> drop_digits l = [].
Proof. induction 1 as [|a l [d Ha] _ IH]; [done|]. cbn. by rewrite Ha. Qed.

Lemma digits_stoi_rest l :
  all_digits l -> l <> [] -> drop_digits (drop_sign (drop_spaces l)) = [].
Proof.
  intros Hl Hne. destruct l as [|a l]; [done|]. pose proof Hl as Hl'.
  apply Forall_cons in Hl' as [[d Ha] _]. destruct (digit_char _ _ Ha) as (H1 & _ & H3 & H4).
  cbn [drop_spaces]. rewrite H1. cbn [drop_sign]. rewrite !decide_False by done. by apply drop_digits_all.
Qed.

Lemma length_chars s : length (chars s) = String.length s.
Proof. induction s as [|a s IH]; [done|]. cbn. by rewrite <- IH. Qed.

Lemma show_long_no_nul z : no_nul (show_long z).
Proof. apply show_long_avoids; done. Qed.

Lemma chars_nonempty s : s <> "" -> chars s <> [].
Proof. by destruct s. Qed.

Lemma stoi_pos_show z : stoi_pos (show_long z) = String.length (show_long z).
Proof.
  unfold stoi_pos. rewrite c_str_no_nul by apply show_long_no_nul. rewrite length_chars.
  assert (drop_digits (drop_sign (drop_spaces (chars (show_long z)))) = []) as ->; [|cbn; lia].
  unfold show_long. destruct (Z.ltb_spec z 0).
  - destruct (to_string_digits (- z)) as [Hd _]; [lia|]. rewrite chars_app.
    change (drop_digits (chars (to_string (- z))) = []). by apply drop_digits_all.
  - destruct (to_string_digits z) as [Hd _]; [lia|]. apply digits_stoi_rest; [done|].
    apply chars_nonempty, to_string_nonempty.
Qed.

Lemma convert_decimal z : -2147483648 <= z < 2147483648 -> convert "DECIMAL" (show_long z) = VInt z.
Proof.
  intros Hz. unfold convert. cbn [String.eqb Ascii.eqb Bool.eqb].
  by rewrite stoi_show, stoi_pos_show, Nat.eqb_refl by done.
Qed.

(** The text of a property as the lookup sees it. *)
Definition property_text (n : list (string * json)) (p : string) : outcome string :=
  match find_key p n with Some j => as_string j | None => Ret "null" end.

Lemma lookup_value row v n p t s :
  find_key v row = Some (JObject n) -> property_text n p = Ret s ->
  operand_value row t (Lookup v [p]) = Ret (convert t s).
Proof.
  unfold property_text. intros Hv Hp. cbn. rewrite Hv. cbn.
  destruct (find_key p n) as [j|]; cbn in *; [by rewrite Hp|by injection Hp as <-].
Qed.

Lemma compare_decimal row v p op b a :
  -2147483648 <= b < 2147483648 -> operand_value row "DECIMAL" (Lookup v [p]) = Ret a ->
  holds row (Compare false op (Lookup v [p]) (Literal "DECIMAL" (Some (show_long b)))) =
  Ret (compare_values op a (VInt b)).
Proof.
  intros Hb Ha. cbn [holds]. unfold compare_operands. cbn [operand_type typeCheck String.eqb Ascii.eqb Bool.eqb].
  cbn [orb negb andb]. rewrite Ha. cbn. unfold literal_value, stoi_outcome. cbn. by rewrite stoi_show.
Qed.

(** A comparison of a property of a node with a number: the property is
    compared as a number when its text is exactly a number, and the condition
    is false, for every operator, when the property is missing or its text is
    anything else. *)
Theorem filter_decimal `{JT : JsonText} row v n p op b :
  let c := Compare false op (Lookup v [p]) (Literal "DECIMAL" (Some (show_long b))) in
  cond_ok c = true -> json_ok (JObject row) = true ->
  find_key v row = Some (JObject n) -> -2147483648 <= b < 2147483648 ->
  (forall a, -2147483648 <= a < 2147483648 -> find_key p n = Some (JString (show_long a)) ->
    evaluated row c = Ret (compare_values op (VInt a) (VInt b))) /\
  (find_key p n = None \/ (exists s, find_key p n = Some (JString s) /\ stoi_pos s <> String.length s) ->
    evaluated row c = Ret false).
Proof.
  intros c Hc Hr Hv Hb. rewrite !evaluated_holds by done. unfold c. clear c Hc. split.
  - intros a Ha Hp. apply compare_decimal; [done|]. rewrite <- convert_decimal by done.
    eapply lookup_value; [done|]. unfold property_text. by rewrite Hp.
  - intros Hp. rewrite (compare_decimal _ _ _ _ _ (VString "null")); [done..|].
    destruct Hp as [Hp|(s & Hp & Hs)]; (erewrite lookup_value; [|done|by unfold property_text; rewrite Hp]); [done|].
    unfold convert. cbn [String.eqb Ascii.eqb Bool.eqb]. destruct (stoi s); [done|].
    by rewrite (proj2 (Nat.eqb_neq _ _) Hs).
Qed.

(** ** Conditions in the sense of the query language

    The conditions above mean what the evaluator makes of them.  Here is a
    class of conditions whose meaning does not mention the evaluator: a
    property as a number against a number, as a text against a text, its
    presence, AND and OR. *)

Inductive comparison := Equal | Different | Less | Greater | AtMost | AtLeast.

Definition compares (c : comparison) (a b : Z) : Prop :=
  match c with
  | Equal => a = b
  | Different => a <> b
  | Less => a < b
  | Greater => a > b
  | AtMost => a <= b
  | AtLeast => a >= b
  end.

Inductive test :=
| NumberTest (v p : string) (c : comparison) (b : Z)
| TextTest (v p : string) (same : bool) (s : string)
| NullTest (v p : string) (null : bool)
| AllOf (ts : list test)
| AnyOf (ts : list test).

Section test_induction.
Context (P : test -> Prop).
Context (Hn : forall v p c b, P (NumberTest v p c b)) (Ht : forall v p same s, P (TextTest v p same s)).
Context (Hnull : forall v p null, P (NullTest v p null)).
Context (Hall : forall ts, Forall P ts -> P (AllOf ts)) (Hany : forall ts, Forall P ts -> P (AnyOf ts)).

Fixpoint test_ind' (t : test) : P t :=
  let go := fix go ts : Forall P ts :=
    match ts with [] => Forall_nil_2 P | x :: r => Forall_cons_2 P x r (test_ind' x) (go r) end in
  match t with
  | NumberTest v p c b => Hn v p c b
  | TextTest v p same s => Ht v p same s
  | NullTest v p null => Hnull v p null
  | AllOf ts => Hall ts (go ts)
  | AnyOf ts => Hany ts (go ts)
  end.
End test_induction.

(** The text of a property of a node in a row. *)
Definition text_property (row : list (string * json)) (v p : string) : option string :=
  match find_key v row with
  | Some (JObject n) => match find_key p n with Some (JString s) => Some s | _ => None end
  | _ => None
  end.

(** A decimal numeral of an [int], after white space, with or without a sign. *)
Definition decimal (ds : list ascii) : Z := foldl (fun acc a => acc * 10 + (code a - 48)) 0 ds.

Definition numeral (s : string) (a : Z) : Prop :=
  exists ws sign ds, chars s = ws ++ sign ++ ds /\ Forall (fun c => is_space c = true) ws /\
    sign ∈ [[]; ["+"%char]; ["-"%char]] /\ ds <> [] /\ Forall (fun c => 48 <= code c <= 57) ds /\
    a = (if decide (sign = ["-"%char]) then - decimal ds else decimal ds) /\ -2147483648 <= a < 2147483648.

Fixpoint satisfies (row : list (string * json)) (t : test) : Prop :=
  match t with
  | NumberTest v p c b => exists s a, text_property row v p = Some s /\ numeral s a /\ compares c a b
  | TextTest v p same s => exists s', text_property row v p = Some s' /\ if same then s' = s else s' <> s
  | NullTest v p null => if null then text_property row v p = None else text_property row v p <> None
  | AllOf ts => foldr (fun t P => satisfies row t /\ P) True ts
  | AnyOf ts => foldr (fun t P => satisfies row t \/ P) False ts
  end.

(** The condition of the plan. *)
Definition comparison_text (c : comparison) : string :=
  match c with
  | Equal => "==" | Different => "<>" | Less => "<" | Greater => ">" | AtMost => "<=" | AtLeast => ">="
  end.

Fixpoint test_cond (t : test) : cond :=
  match t with
  | NumberTest v p c b => Compare false (comparison_text c) (Lookup v [p]) (Literal "DECIMAL" (Some (show_long b)))
  | TextTest v p same s =>
      Compare false (if same then "==" else "<>") (Lookup v [p]) (Literal "STRING" (Some ("'" +:+ s +:+ "'")))
  | NullTest v p null => Compare true (if null then "==" else "<>") (Lookup v [p]) (Literal "NULL" None)
  | AllOf ts => Logic AND (test_cond <$> ts)
  | AnyOf ts => Logic OR (test_cond <$> ts)
  end.

(** The property of the node is a text, or the node does not have it. *)
Definition has_text (row : list (string * json)) (v p : string) : Prop :=
  exists n, find_key v row = Some (JObject n) /\ (find_key p n = None \/ exists s, find_key p n = Some (JString s)).

(** A row on which the evaluator and the language agree: the variables are
    nodes whose properties are texts; a property that is compared with a text
    is there; the text null is not the value of a property. *)
Fixpoint readable (row : list (string * json)) (t : test) : Prop :=
  match t with
  | NumberTest v p _ b => has_text row v p /\ -2147483648 <= b < 2147483648
  | TextTest v p _ _ => has_text row v p /\ text_property row v p <> None
  | NullTest v p _ => has_text row v p /\ text_property row v p <> Some "null"
  | AllOf ts | AnyOf ts => foldr (fun t P => readable row t /\ P) True ts
  end.

(** *** Numerals *)

Lemma digit_code a : is_Some (digit_of a) <-> 48 <= code a <= 57.
Proof.
  unfold digit_of. destruct (Z.leb_spec 48 (code a)); destruct (Z.leb_spec (code a) 57); cbn;
    (split; [intros [? ?]|intros ?]); try done; lia || eauto.
Qed.

Lemma digits_decimal ds : all_digits ds -> forall acc,
  digits_value acc ds = foldl (fun acc a => acc * 10 + (code a - 48)) acc ds.
Proof.
  induction 1 as [|a ds [d Hd] _ IH]; intros acc; [done|]. cbn. rewrite Hd, IH. f_equal.
  unfold digit_of in Hd. destruct (_ && _); [|done]. injection Hd as <-. done.
Qed.

Lemma drop_spaces_split l : exists ws, l = ws ++ drop_spaces l /\ Forall (fun c => is_space c = true) ws.
Proof.
  induction l as [|a l (ws & E & Hws)]; [by exists []|]. cbn. destruct (is_space a) eqn:Ea; [|by exists []].
  exists (a :: ws). split; [cbn; by rewrite <- E|by constructor].
Qed.

Lemma drop_digits_nil l : drop_digits l = [] -> all_digits l.
Proof. induction l as [|a l IH]; [by constructor|]. cbn. destruct (digit_of a) eqn:E; [|done]. intros H. constructor; [by rewrite E|by apply IH]. Qed.

Lemma drop_spaces_app ws l : Forall (fun c => is_space c = true) ws -> drop_spaces (ws ++ l) = drop_spaces l.
Proof. induction 1 as [|a ws Ha _ IH]; [done|]. cbn. by rewrite Ha. Qed.

(** How [stoi] reads a numeral. *)
Lemma stol_reads s ws (sign ds : list ascii) :
  c_str s = ws ++ sign ++ ds -> Forall (fun c => is_space c = true) ws -> sign ∈ [[]; ["+"%char]; ["-"%char]] ->
  all_digits ds -> ds <> [] ->
  drop_digits (drop_sign (drop_spaces (c_str s))) = [] /\
  let v := if decide (sign = ["-"%char]) then - decimal ds else decimal ds in
  stol s = if (-9223372036854775808 <=? v) && (v <? 9223372036854775808) then inr v else inl out_of_range.
Proof.
  intros E Hws Hs Hd Hne. unfold stol. rewrite E, drop_spaces_app by done. clear E Hws.
  destruct ds as [|d ds]; [done|]. pose proof Hd as Hd0. apply Forall_cons in Hd0 as [[z Hz] _].
  destruct (digit_char _ _ Hz) as (H1 & _ & H3 & H4).
  assert (digits_value 0 (d :: ds) = decimal (d :: ds)) as Hv by (by apply digits_decimal).
  assert (drop_digits (d :: ds) = []) as Hdd by (by apply drop_digits_all).
  rewrite !elem_of_cons, elem_of_nil in Hs. destruct Hs as [->|[->|[->|[]]]].
  - cbn [app drop_spaces]. rewrite H1. cbn [drop_sign]. rewrite !decide_False by done.
    split; [done|]. cbn [starts_with_digit]. by rewrite Hz, Hv.
  - cbn [app drop_spaces]. change (is_space "+") with false. cbn [drop_sign].
    rewrite !(decide_False (P := "+"%char = "-"%char)), !decide_True by done. split; [done|].
    cbn [starts_with_digit]. by rewrite Hz, Hv.
  - cbn [app drop_spaces]. change (is_space "-") with false. cbn [drop_sign].
    rewrite !decide_True by done. split; [done|]. cbn [starts_with_digit]. by rewrite Hz, Hv.
Qed.

Lemma numeral_no_nul ws (sign ds : list ascii) :
  Forall (fun c => is_space c = true) ws -> sign ∈ [[]; ["+"%char]; ["-"%char]] -> all_digits ds -> nul ∉ ws ++ sign ++ ds.
Proof.
  intros Hws Hs Hd. rewrite !elem_of_app. intros [H|[H|H]].
  - by apply (proj1 (Forall_forall _ _) Hws) in H.
  - rewrite !elem_of_cons, elem_of_nil in Hs. destruct Hs as [->|[->|[->|[]]]]; set_solver.
  - by apply all_digits_no_nul in Hd.
Qed.

(** A text is compared as the number it is a numeral of. *)
Lemma convert_numeral s a : numeral s a -> convert "DECIMAL" s = VInt a.
Proof.
  intros (ws & sign & ds & E & Hws & Hs & Hne & Hd & Ha & Hr).
  assert (all_digits ds) as Hd' by (eapply Forall_impl; [exact Hd|]; intros c; apply digit_code).
  assert (c_str s = ws ++ sign ++ ds) as Ec.
  { unfold c_str. rewrite E. apply until_nul_id. by apply numeral_no_nul. }
  destruct (stol_reads s ws sign ds Ec Hws Hs Hd' Hne) as [Hrest Hst]. cbv zeta in Hst. rewrite <- Ha in Hst.
  unfold convert. change (String.eqb "DECIMAL" "STRING") with false. change (String.eqb "DECIMAL" "DECIMAL") with true.
  cbv iota. unfold stoi. rewrite Hst.
  destruct (Z.leb_spec (-9223372036854775808) a); [|lia]. destruct (Z.ltb_spec a 9223372036854775808); [|lia].
  cbn [andb]. destruct (Z.leb_spec (-2147483648) a); [|lia]. destruct (Z.ltb_spec a 2147483648); [|lia]. cbn [andb].
  unfold stoi_pos. rewrite Hrest, Ec. cbn [length]. by rewrite <- E, length_chars, Nat.sub_0_r, Nat.eqb_refl.
Qed.

Lemma until_nul_whole l : (length (until_nul l) <= length l)%nat /\ (length (until_nul l) = length l -> until_nul l = l).
Proof.
  induction l as [|a l [IH1 IH2]]; [done|]. cbn. case_decide; cbn; [lia|]. split; [lia|]. intros [= E]. by rewrite IH2.
Qed.

(** And a text that is no numeral of an [int] is "null". *)
Lemma convert_no_numeral s : (exists a, numeral s a) \/ convert "DECIMAL" s = VString "null".
Proof.
  unfold convert. change (String.eqb "DECIMAL" "STRING") with false. change (String.eqb "DECIMAL" "DECIMAL") with true.
  cbv iota. destruct (stoi s) as [e|a] eqn:Es; [by right|]. destruct (Nat.eqb_spec (stoi_pos s) (String.length s)) as [Hp|]; [|by right].
  left. exists a. destruct (until_nul_whole (chars s)) as [L1 L2]. fold (c_str s) in L1, L2.
  unfold stoi_pos in Hp. rewrite <- length_chars in Hp.
  assert (c_str s <> []) as Hne by (intros E; unfold stoi, stol in Es; by rewrite E in Es).
  assert (length (c_str s) <> 0%nat) by (by intros ?%length_zero_iff_nil).
  assert (length (drop_digits (drop_sign (drop_spaces (c_str s)))) = 0%nat) as Hr%length_zero_iff_nil by lia.
  assert (c_str s = chars s) as Ec by (apply L2; lia).
  destruct (drop_spaces_split (c_str s)) as (ws & E & Hws).
  assert (exists sign, sign ∈ [[]; ["+"%char]; ["-"%char]] /\
    drop_spaces (c_str s) = sign ++ drop_sign (drop_spaces (c_str s))) as (sign & Hs & E').
  { destruct (drop_spaces (c_str s)) as [|c l]; [exists []; split; [left|done]|]. cbn. case_decide as H1.
    { subst c. exists ["-"%char]. split; [do 2 right; left|done]. }
    case_decide as H2; [subst c; exists ["+"%char]; split; [right; left|done]|]. exists []. split; [left|done]. }
  apply drop_digits_nil in Hr. set (ds := drop_sign (drop_spaces (c_str s))) in *. rewrite E' in E.
  assert (ds <> []) as Hds.
  { intros E0. unfold stoi, stol in Es. rewrite E' in Es. rewrite E0 in Es. rewrite !elem_of_cons, elem_of_nil in Hs.
    destruct Hs as [->|[->|[->|[]]]]; done. }
  destruct (stol_reads s ws sign ds E Hws Hs Hr Hds) as [_ Hst]. cbv zeta in Hst. unfold stoi in Es. rewrite Hst in Es.
  exists ws, sign, ds. rewrite <- Ec. split_and!; try done.
  - eapply Forall_impl; [exact Hr|]. intros c. apply digit_code.
  - destruct (_ && _) in Es; [|done]. destruct (_ && _) in Es; [|done]. by injection Es.
  - destruct (_ && _) in Es; [|done]. destruct (Z.leb_spec (-2147483648) (if decide (sign = ["-"%char]) then - decimal ds else decimal ds)); [|done].
    destruct (Z.ltb_spec (if decide (sign = ["-"%char]) then - decimal ds else decimal ds) 2147483648); [|done]. injection Es as <-. lia.
  - destruct (_ && _) in Es; [|done]. destruct (Z.leb_spec (-2147483648) (if decide (sign = ["-"%char]) then - decimal ds else decimal ds)); [|done].
    destruct (Z.ltb_spec (if decide (sign = ["-"%char]) then - decimal ds else decimal ds) 2147483648); [|done]. injection Es as <-. lia.
Qed.

Lemma numeral_unique s a b : numeral s a -> numeral s b -> a = b.
Proof. intros Ha%convert_numeral Hb%convert_numeral. congruence. Qed.

Lemma numeral_show a : -2147483648 <= a < 2147483648 -> numeral (show_long a) a.
Proof.
  intros Ha. destruct (convert_no_numeral (show_long a)) as [[b Hb]|H].
  - apply convert_numeral in Hb as Hc. rewrite convert_decimal in Hc by done. by injection Hc as ->.
  - by rewrite convert_decimal in H.
Qed.

(** *** The evaluator agrees *)

Lemma unquote_quoted s : unquote ("'" +:+ s +:+ "'") = s.
Proof.
  unfold unquote. assert (String.length ("'" +:+ s +:+ "'") = S (S (String.length s))) as Hl.
  { rewrite !length_string_app. cbn [String.length]. lia. }
  rewrite Hl, !chars_app. cbn [chars list_ascii_of_string app].
  rewrite bool_decide_true by done. rewrite (bool_decide_true (last _ = _)) by (by rewrite last_snoc).
  cbn [Nat.leb andb]. replace (S (S (String.length s)) - 2)%nat with (String.length s) by lia.
  cbn [String.append String.substring]. apply substring_app.
Qed.

Lemma lookup_text row v p t : has_text row v p ->
  operand_value row t (Lookup v [p]) = Ret (convert t (default "null" (text_property row v p))).
Proof.
  intros (n & Hv & Hp). unfold text_property. rewrite Hv. erewrite lookup_value; [reflexivity|exact Hv|].
  unfold property_text. by destruct Hp as [-> |[s ->]].
Qed.

(** A comparison of numbers is the comparison of the language. *)
Lemma compares_spec c a b : compare_values (comparison_text c) (VInt a) (VInt b) = true <-> compares c a b.
Proof.
  destruct c; cbn; rewrite ?negb_true_iff, ?Z.eqb_eq, ?Z.eqb_neq, ?Z.ltb_lt, ?Z.leb_le; lia.
Qed.

Lemma number_test row v p c b : readable row (NumberTest v p c b) ->
  exists r, holds row (test_cond (NumberTest v p c b)) = Ret r /\ (r = true <-> satisfies row (NumberTest v p c b)).
Proof.
  intros [Hp Hb]. cbn [test_cond]. rewrite (compare_decimal _ _ _ _ _ _ Hb (lookup_text row v p "DECIMAL" Hp)).
  eexists. split; [reflexivity|]. cbn [satisfies]. destruct (text_property row v p) as [s|]; cbn [default from_option id].
  - destruct (convert_no_numeral s) as [[a Ha]|Hs].
    + rewrite (convert_numeral s a Ha), compares_spec. split; [intros H; by exists s, a|].
      intros (s' & a' & [= <-] & Ha' & H). by rewrite (numeral_unique s a a').
    + rewrite Hs. split; [done|]. intros (s' & a & [= <-] & Ha & _). apply convert_numeral in Ha. congruence.
  - split; [done|]. by intros (? & ? & ? & _).
Qed.

Lemma compare_text row v p op s : has_text row v p ->
  holds row (Compare false op (Lookup v [p]) (Literal "STRING" (Some ("'" +:+ s +:+ "'")))) =
  Ret (compare_values op (VString (default "null" (text_property row v p))) (VString s)).
Proof.
  intros Hp. cbn [holds]. unfold compare_operands. cbn [operand_type].
  change (typeCheck "PROPERTY_LOOKUP" "STRING") with true. cbn [negb andb String.eqb Ascii.eqb Bool.eqb].
  rewrite lookup_text by done. cbn [mbind outcome_bind]. unfold operand_value, literal_value.
  change (String.eqb "STRING" "STRING") with true. cbv iota. cbn [mbind outcome_bind]. by rewrite unquote_quoted.
Qed.

Lemma compare_null row v p op : has_text row v p ->
  holds row (Compare true op (Lookup v [p]) (Literal "NULL" None)) =
  Ret (compare_values op (VString (default "null" (text_property row v p))) (VString "null")).
Proof.
  intros Hp. cbn [holds]. unfold compare_operands. cbn [operand_type].
  change (typeCheck "PROPERTY_LOOKUP" "NULL") with true. cbn [negb andb String.eqb Ascii.eqb Bool.eqb].
  rewrite lookup_text by done. done.
Qed.

Lemma texts_compared (same : bool) a b :
  compare_values (if same then "==" else "<>") (VString a) (VString b) = true <-> if same then a = b else a <> b.
Proof. destruct same; cbn; rewrite ?negb_true_iff, ?String.eqb_eq, ?String.eqb_neq; done. Qed.

Lemma tests_hold row ts :
  Forall (fun t => readable row t -> exists r, holds row (test_cond t) = Ret r /\ (r = true <-> satisfies row t)) ts ->
  foldr (fun t P => readable row t /\ P) True ts ->
  (exists r, all_hold (holds row) (test_cond <$> ts) = Ret r /\ (r = true <-> satisfies row (AllOf ts))) /\
  (exists r, some_holds (holds row) (test_cond <$> ts) = Ret r /\ (r = true <-> satisfies row (AnyOf ts))).
Proof.
  induction 1 as [|t ts Ht _ IH]; intros Hr; [split; by eexists|]. destruct Hr as [Hr Hrs].
  destruct (Ht Hr) as (b & Eb & Hb). destruct (IH Hrs) as [(r1 & E1 & H1) (r2 & E2 & H2)].
  cbn [fmap list_fmap all_hold some_holds satisfies foldr]. rewrite Eb. cbn [mbind outcome_bind].
  split; destruct b; eexists; (split; [by eauto|]); cbn [satisfies] in H1, H2; rewrite ?H1, ?H2; intuition congruence.
Qed.

Lemma test_holds row t : readable row t ->
  exists r, holds row (test_cond t) = Ret r /\ (r = true <-> satisfies row t).
Proof.
  induction t as [v p c b|v p same s|v p null|ts IH|ts IH] using test_ind'; intros Hr.
  - by apply number_test.
  - destruct Hr as [Hp Hs]. cbn [test_cond]. rewrite compare_text by done. eexists. split; [reflexivity|].
    rewrite texts_compared. cbn [satisfies]. destruct (text_property row v p) as [s'|]; [|done]. cbn.
    split; [intros H; by exists s'|]. by intros (s2 & [= <-] & H).
  - destruct Hr as [Hp Hs]. cbn [test_cond]. rewrite compare_null by done. eexists. split; [reflexivity|].
    rewrite texts_compared. cbn [satisfies]. destruct (text_property row v p) as [s'|]; cbn; destruct null; intuition congruence.
  - cbn [test_cond]. cbn [readable] in Hr. by destruct (tests_hold row ts IH Hr) as [H _].
  - cbn [test_cond]. cbn [readable] in Hr. by destruct (tests_hold row ts IH Hr) as [_ H].
Qed.


(** Where the evaluator departs from the language: a missing property is
    different from every text but "null". *)
Theorem missing_differs `{JsonText} row v p s :
  cond_ok (test_cond (TextTest v p false s)) = true -> json_ok (JObject row) = true ->
  has_text row v p -> text_property row v p = None -> s <> "null" ->
  evaluated row (test_cond (TextTest v p false s)) = Ret true /\ ~ satisfies row (TextTest v p false s).
Proof.
  intros Hc Hr Hp Hn Hs. rewrite evaluated_holds by done. cbn [test_cond]. rewrite compare_text, Hn by done. split.
  - f_equal. by apply (texts_compared false).
  - cbn. rewrite Hn. by intros (? & ? & _).
Qed.
