(* ===== verification/CypherRuntime.v ===== *)
(** * CypherRuntime: the operators that transform rows

    The loops of ProduceResult, Filter, Projection, Distinct and OrderBy of
    OperatorExecutor.cpp as stages of a pipeline.  Each is built from the JSON
    of its part of the plan. *)
From Stdlib Require Import ZArith Ascii String Lia.
From stdpp Require Import base tactics numbers list strings sets.
From S2P Require Import Prelude Json SharedBuffer Pipelines ParallelExecutor CypherFilter.

Section operators.
Context `{JT : JsonText}.

(** ** ProduceResult *)

(** [for (auto value : values) data[value] = rawObj[value];] *)
Fixpoint pick_values (rawObj : json) (values : list string) (data : json) : outcome json :=
  match values with
  | [] => Ret data
  | v :: r => x ← index v rawObj; d ← assign v x data; pick_values rawObj r d
  end.

Definition produce_row (query : json) (raw : string) : outcome (list string) :=
  vs ← index "variable" query; values ← as_strings vs;
  rawObj ← parse_exn raw;
  data ← pick_values rawObj values JNull;
  Ret [dump data].

Definition ProduceResult (query : json) : stage :=
  mkStage unit tt (fun _ raw => l ← produce_row query raw; Ret (tt, l)) (fun _ => Ret []).

(** ** Filter *)

Definition FILTER_BATCH_SIZE : nat := 100.

(** [processSequentially] *)
Fixpoint processSequentially (condition : string) (batch : list string) : outcome (list string) :=
  match batch with
  | [] => Ret []
  | item :: r =>
      evaluate condition item ≫= fun b : bool =>
      rest ← processSequentially condition r;
      Ret (if b then item :: rest else rest)
  end.

(** The processor of [tryProcessInParallel]: the indices from [startIndex - 1]
    to [endIndex - 1]; [batch[-1]] is outside of the vector. *)
Definition filter_chunk (condition : string) (batch : list string) (c : WorkChunk) : outcome (list string) :=
  rows ← traverse (fun i => if i <? 0 then Undef else Ret (default "" (batch !! Z.to_nat i)))
           (filter (fun i => i < Z.of_nat (length batch))
              (seqZ (startIndex c - 1) (endIndex c - startIndex c + 1)));
  processSequentially condition rows.

Definition tryProcessInParallel (workers : Z) (condition : string) (batch : list string) : outcome (list string) :=
  size ← calculateOptimalChunkSize (Z.of_nat (length batch)) workers;
  chunks ← createWorkChunks (Z.of_nat (length batch)) size;
  results ← traverse (filter_chunk condition batch) chunks;
  Ret (concat results).

(** [workers] is None when there is no parallel executor. *)
Definition processBatch (workers : option Z) (condition : string) (batch : list string) : outcome (list string) :=
  match workers with
  | Some w => if (500 <? length batch)%nat then tryProcessInParallel w condition batch
              else processSequentially condition batch
  | None => processSequentially condition batch
  end.

Definition Filter (workers : option Z) (query : json) : stage :=
  let condition := c ← index "condition" query; Ret (dump c) in
  mkStage (list string) []
    (fun batch raw =>
       let batch := batch ++ [raw] in
       if (FILTER_BATCH_SIZE <=? length batch)%nat
       then c ← condition; l ← processBatch workers c batch; Ret ([], l)
       else Ret (batch, []))
    (fun batch => c ← condition; processBatch workers c batch).

(** ** Projection and Distinct *)

(** [j[k]] read from a value that is not const leaves null behind. *)
Definition touch (k : string) (j : json) : json :=
  match j with
  | JObject m => match find_key k m with Some _ => j | None => JObject (set_key k JNull m) end
  | JNull => JObject [(k, JNull)]
  | _ => j
  end.

Definition is_key (operand : json) (name key : string) : outcome bool :=
  if contains name operand then v ← cindex name operand; Ret (json_eqb (JString key) v) else Ret false.

(** The body for one operand of the plan and one key of the row. *)
Definition project_key (operand : json) (key : string) (data : list (string * json)) : outcome (list (string * json)) :=
  let value := default JNull (find_key key data) in
  is_key operand "variable" key ≫= fun isVariable : bool =>
  if isVariable then
    a ← cindex "assign" operand; assigned ← as_string a;
    p ← cindex "property" operand; property ← as_string p;
    v ← index property value;
    Ret (set_key assigned v (set_key key (touch property value) data))
  else
    is_key operand "functionName" key ≫= fun isFunction : bool =>
    if isFunction then
      a ← cindex "assign" operand; assigned ← as_string a;
      let data := set_key "variable" (JString assigned) data in
      Ret (set_key assigned (default JNull (find_key key data)) data)
    else Ret data.

(** The key an iterator of the map reaches after [key]. *)
Definition next_key (key : string) (data : list (string * json)) : option string :=
  fst <$> head (filter (fun kv => string_ltb key kv.1 = true) data).

(** [for (auto& [key, value] : data.items())]: keys that the body inserts
    after the current one are visited too.  The body inserts at most two keys
    that were not there. *)
Fixpoint project_items (fuel : nat) (operand : json) (key : string) (data : list (string * json))
    : outcome (list (string * json)) :=
  match fuel with
  | O => OutOfFuel
  | S fuel =>
      data ← project_key operand key data;
      match next_key key data with
      | Some k => project_items fuel operand k data
      | None => Ret data
      end
  end.

Definition project_operand (operand : json) (data : list (string * json)) : outcome (list (string * json)) :=
  match data with
  | [] => Ret []
  | (k, _) :: _ => project_items (S (S (S (length data)))) operand k data
  end.

Fixpoint project_operands (operands : list json) (data : list (string * json)) : outcome (list (string * json)) :=
  match operands with
  | [] => Ret data
  | o :: r => d ← project_operand o data; project_operands r d
  end.

(** A row is an object. *)
Definition project_row (operands : list json) (raw : string) : outcome (list string) :=
  data ← parse_exn raw;
  match data with
  | JObject m => m' ← project_operands operands m; Ret [dump (JObject m')]
  | _ => Undef
  end.

Definition project_stage (query : json) : stage :=
  let operands := match query with
                  | JObject m => match find_key "project" m with Some (JArray l) => Some l | _ => None end
                  | _ => None
                  end in
  mkStage unit tt
    (fun _ raw => match operands with
                  | Some l => rows ← project_row l raw; Ret (tt, rows)
                  | None => Ret (tt, [raw])
                  end)
    (fun _ => Ret []).

Definition Projection : json -> stage := project_stage.
(** The text of the two loops is the same. *)
Definition Distinct : json -> stage := project_stage.
End operators.
