(* ===== verification/OrderBy.v ===== *)
(** * OrderBy: sorting rows with run files

    The OrderBy operator of OperatorExecutor.cpp: rows go into a priority
    queue; when their estimated size passes one megabyte the queue is emptied,
    in order, into a run file; at the end the run files are merged with a
    second priority queue, or, when there are none, the queue is emptied into
    the output. *)
From Stdlib Require Import ZArith Ascii String Lia.
From stdpp Require Import base tactics numbers list strings sets sorting.
From S2P Require Import Prelude Json SharedBuffer Pipelines.

Section rows.
Context `{JT : JsonText}.

Record Row := mkRow {
  data : json;
  jsonStr : string;
  sourceFileIndex : nat
}.

Definition newRow (str : string) (srcIdx : nat) : outcome Row :=
  d ← parse_exn str; Ret (mkRow d str srcIdx).

(** [current = current[token]] for the tokens of the key. *)
Fixpoint nested (current : json) (tokens : list (list ascii)) : json :=
  match tokens with
  | [] => current
  | t :: r =>
      let k := string_of_list_ascii t in
      match current with
      | JObject m => match find_key k m with Some v => nested v r | None => JNull end
      | _ => JNull
      end
  end.

Definition getNestedValue (obj : json) (key : string) : json :=
  nested obj (split_items "."%char [] (chars key)).

(** [val1 > val2], on integers as [int]. *)
Definition value_gt (val1 val2 : json) : bool :=
  match val1, val2 with
  | JInt a, JInt b => s32 b <? s32 a
  | JString a, JString b => string_ltb b a
  | _, _ => string_ltb (dump val2) (dump val1)
  end.

Definition row_gt (sortKey : string) (a b : Row) : bool :=
  value_gt (getNestedValue (data a) sortKey) (getNestedValue (data b) sortKey).

(** [Row::operator<] of rows made with [isAsc]. *)
Definition row_less (sortKey : string) (isAsc : bool) (a b : Row) : bool :=
  let result := row_gt sortKey a b in if isAsc then result else negb result.

(** [RowAscComparator] is [a < b], [RowDescComparator] is [b < a]. *)
Definition DynamicComparator (sortKey : string) (isAsc : bool) (a b : Row) : bool :=
  if isAsc then row_less sortKey isAsc a b else row_less sortKey isAsc b a.

(** The comparison of the merge. *)
Definition merge_cmp (sortKey : string) (isAsc : bool) (a b : Row) : bool :=
  let result := row_gt sortKey a b in if isAsc then result else negb result.
End rows.

(** ** Priority queues

    [std::priority_queue] asks for a strict weak ordering; then the top is an
    element that is not less than any other.  Which one among equivalent
    elements is not specified. *)

Record strict_weak {A} (cmp : A -> A -> bool) (l : list A) : Prop := {
  sw_irrefl x : x ∈ l -> cmp x x = false;
  sw_trans x y z : x ∈ l -> y ∈ l -> z ∈ l -> cmp x y = true -> cmp y z = true -> cmp x z = true;
  sw_weak x y z : x ∈ l -> y ∈ l -> z ∈ l -> cmp x y = false -> cmp y z = false -> cmp x z = false
}.

Class PriorityQueue := {
  pq_pop {A} : (A -> A -> bool) -> list A -> option (A * list A);
  pq_pop_none {A} cmp (l : list A) : pq_pop cmp l = None -> l = [];
  pq_pop_perm {A} cmp (l : list A) x r : pq_pop cmp l = Some (x, r) -> l ≡ₚ x :: r;
  pq_pop_top {A} cmp (l : list A) x r :
    strict_weak cmp l -> pq_pop cmp l = Some (x, r) -> forall y, y ∈ r -> cmp x y = false
}.

(** [while (!pq.empty()) { pq.top(); pq.pop(); }] *)
Fixpoint pq_drain `{PriorityQueue} {A} (n : nat) (cmp : A -> A -> bool) (l : list A) : list A :=
  match n with
  | O => []
  | S n => match pq_pop cmp l with Some (x, r) => x :: pq_drain n cmp r | None => [] end
  end.

Section order_by.
Context `{JT : JsonText} `{PQ : PriorityQueue}.

(** [sizeof(Row)]; whether the n-th attempt to create a run file succeeds. *)
Context (sizeof_Row : Z) (creates : nat -> bool).

Definition memoryUsage (sortKey : string) (r : Row) : Z :=
  sizeof_Row + Z.of_nat (String.length (jsonStr r)) + Z.of_nat (String.length sortKey) + 1 + 8.

Definition MAX_MEMORY_BYTES : Z := 1024 * 1024.

(** A run file is the text written to it. *)
Record sorter := mkSorter {
  heap : list Row;
  heapMemoryUsage : Z;
  runFiles : list (list ascii);
  attempts : nat
}.

Definition run_text (rows : list Row) : list ascii :=
  concat ((fun r => chars (jsonStr r) ++ [newline]) <$> rows).

Definition flushHeapToRunFile (cmp : Row -> Row -> bool) (s : sorter) : sorter :=
  match heap s with
  | [] => s
  | _ =>
      if creates (attempts s)
      then mkSorter [] (heapMemoryUsage s)
             (runFiles s ++ [run_text (pq_drain (length (heap s)) cmp (heap s))]) (S (attempts s))
      else mkSorter (heap s) (heapMemoryUsage s) (runFiles s) (S (attempts s))
  end.

(** [std::getline] on the run files. *)
Definition file_lines (text : list ascii) : list string :=
  string_of_list_ascii <$> split_items newline [] text.

(** The first row of each run. *)
Fixpoint first_rows (i : nat) (files : list (list string)) : outcome (list Row * list (list string)) :=
  match files with
  | [] => Ret ([], [])
  | [] :: fs => pf ← first_rows (S i) fs; Ret (pf.1, [] :: pf.2)
  | (line :: f) :: fs => r ← newRow line i; pf ← first_rows (S i) fs; Ret (r :: pf.1, f :: pf.2)
  end.

(** The merge; every turn takes a line, so the number of lines is enough. *)
Fixpoint merge_loop (n : nat) (cmp : Row -> Row -> bool) (pq : list Row) (files : list (list string))
    : outcome (list string) :=
  match pq_pop cmp pq with
  | None => Ret []
  | Some (top, pq) =>
      match n with
      | O => OutOfFuel
      | S n =>
          let i := sourceFileIndex top in
          match files !! i with
          | Some (line :: f) =>
              r ← newRow line i; rest ← merge_loop n cmp (r :: pq) (<[i := f]> files);
              Ret (jsonStr top :: rest)
          | _ => rest ← merge_loop n cmp pq files; Ret (jsonStr top :: rest)
          end
      end
  end.

Definition localKWayMerge (sortKey : string) (isAsc : bool) (texts : list (list ascii)) : outcome (list string) :=
  let files := file_lines <$> texts in
  pf ← first_rows 0 files;
  merge_loop (length (concat files)) (merge_cmp sortKey isAsc) pf.1 pf.2.

(** A row that does not parse is logged and dropped, so is a row without the
    sort key. *)
Definition order_row (sortKey : string) (isAsc : bool) (s : sorter) (raw : string) : sorter :=
  match newRow raw 0 with
  | Ret row =>
      if is_null (getNestedValue (data row) sortKey) then s
      else
        let usage := heapMemoryUsage s + memoryUsage sortKey row in
        let s := mkSorter (row :: heap s) usage (runFiles s) (attempts s) in
        if MAX_MEMORY_BYTES <? usage then
          let s := flushHeapToRunFile (DynamicComparator sortKey isAsc) s in
          mkSorter (heap s) 0 (runFiles s) (attempts s)
        else s
  | _ => s
  end.

Definition order_end (sortKey : string) (isAsc : bool) (s : sorter) : outcome (list string) :=
  match runFiles s with
  | [] => Ret (jsonStr <$> pq_drain (length (heap s)) (DynamicComparator sortKey isAsc) (heap s))
  | _ => localKWayMerge sortKey isAsc (runFiles (flushHeapToRunFile (DynamicComparator sortKey isAsc) s))
  end.

Definition OrderBy_stage (sortKey order : string) : stage :=
  let isAsc := String.eqb order "ASC" in
  mkStage sorter (mkSorter [] 0 [] 0)
    (fun s raw => Ret (order_row sortKey isAsc s raw, []))
    (order_end sortKey isAsc).
End order_by.
