(* ===== verification/OrderTheory.v ===== *)
(** * OrderTheory: OrderBy sorts

    For any priority queue that keeps the contract of the standard, OrderBy in
    ascending order gives the rows that have the sort key, each as often as it
    came, in ascending order of the key, whatever goes through run files.  In
    descending order its first comparator is not a strict ordering and ranks
    rows as the ascending one does. *)
From Stdlib Require Import ZArith Ascii String Lia.
From stdpp Require Import base tactics numbers list strings sets sorting.
From S2P Require Import Prelude Json SharedBuffer Pipelines OrderBy.

(** ** Orders *)

Section orders.
Context {A : Type} (cmp : A -> A -> bool).

Lemma strict_weak_subset l l' : (forall x, x ∈ l' -> x ∈ l) -> strict_weak cmp l -> strict_weak cmp l'.
Proof. intros H [Hi Ht Hw]. split; intros; eauto. Qed.

Context `{PriorityQueue}.

Lemma pq_drain_spec n l :
  length l = n -> strict_weak cmp l ->
  pq_drain n cmp l ≡ₚ l /\ StronglySorted (fun a b => cmp a b = false) (pq_drain n cmp l).
Proof.
  revert l. induction n as [|n IH]; intros l Hl Hsw; cbn.
  - apply nil_length_inv in Hl as ->. by split; [|constructor].
  - destruct (pq_pop cmp l) as [[x r]|] eqn:E; [|apply pq_pop_none in E as ->; done].
    pose proof (pq_pop_perm _ _ _ _ E) as Hp. assert (length r = n) as Hr by (apply Permutation_length in Hp; cbn in Hp; lia).
    destruct (IH r Hr) as [Hperm Hsort].
    { eapply strict_weak_subset, Hsw. intros y Hy. rewrite Hp. by right. }
    split; [by rewrite Hp, Hperm|]. constructor; [done|].
    apply Forall_forall. intros y Hy. rewrite Hperm in Hy. by eapply pq_pop_top.
Qed.
End orders.

Lemma strict_weak_fmap {A B} (f : A -> B) (cmp : B -> B -> bool) l :
  strict_weak cmp (f <$> l) -> strict_weak (fun a b => cmp (f a) (f b)) l.
Proof.
  intros [Hi Ht Hw]. split; intros; [eapply Hi|eapply Ht|eapply Hw];
    try eassumption; by apply list_elem_of_fmap_2.
Qed.

(** Keys that have an order: all strings, or all integers. *)
Definition comparable (l : list json) : Prop :=
  Forall (fun j => exists s, j = JString s) l \/ Forall (fun j => exists z, j = JInt z) l.

Lemma comparable_subset l l' : (forall x, x ∈ l' -> x ∈ l) -> comparable l -> comparable l'.
Proof. unfold comparable. rewrite !Forall_forall. intros Hs [Hl|Hl]; [left|right]; auto. Qed.

Lemma string_ltb_weak a b c : string_ltb b a = false -> string_ltb c b = false -> string_ltb c a = false.
Proof.
  intros H1 H2. destruct (string_ltb c a) eqn:E; [|done].
  destruct (string_ltb_total _ _ H1) as [->|H3]; [congruence|].
  by rewrite (string_ltb_trans _ _ _ E H3) in H2.
Qed.

Lemma value_gt_strict_weak `{JsonText} l : comparable l -> strict_weak value_gt l.
Proof.
  unfold comparable. rewrite !Forall_forall. intros [Hl|Hl]; split.
  - intros x (s & ->)%Hl. apply string_ltb_irrefl.
  - intros x y z (a & ->)%Hl (b & ->)%Hl (c & ->)%Hl. cbn. intros. by eapply string_ltb_trans.
  - intros x y z (a & ->)%Hl (b & ->)%Hl (c & ->)%Hl. cbn. apply string_ltb_weak.
  - intros x (z & ->)%Hl. apply Z.ltb_irrefl.
  - intros x y z (a & ->)%Hl (b & ->)%Hl (c & ->)%Hl. cbn. rewrite !Z.ltb_lt. lia.
  - intros x y z (a & ->)%Hl (b & ->)%Hl (c & ->)%Hl. cbn. rewrite !Z.ltb_ge. lia.
Qed.

(** ** Rows and their texts *)

Section order.
Context `{JT : JsonText} `{PQ : PriorityQueue} (keyf : json -> json).

(** Rows compared by a key of their values. *)
Definition keyed_gt (a b : Row) : bool := value_gt (keyf (data a)) (keyf (data b)).

(** The key of a row; None when the row does not parse or has no such key. *)
Definition key_of (raw : string) : option json :=
  match parse raw with
  | Some j => let v := keyf j in if is_null v then None else Some v
  | None => None
  end.

Definition key (raw : string) : json := default JNull (key_of raw).
Definition text_gt (a b : string) : bool := value_gt (key a) (key b).
Definition sorted_texts (l : list string) : Prop := StronglySorted (fun a b => text_gt a b = false) l.

Definition good (r : Row) : Prop :=
  parse (jsonStr r) = Some (data r) /\ is_null (keyf (data r)) = false.

Lemma good_key r : good r -> key (jsonStr r) = keyf (data r).
Proof. intros [Hp Hn]. unfold key, key_of. by rewrite Hp, Hn. Qed.

Lemma good_gt a b : good a -> good b -> keyed_gt a b = text_gt (jsonStr a) (jsonStr b).
Proof. intros Ha Hb. unfold keyed_gt, text_gt. by rewrite !good_key. Qed.

Lemma good_rows_strict_weak l :
  Forall good l -> comparable (key <$> (jsonStr <$> l)) -> strict_weak (keyed_gt) l.
Proof.
  intros Hg Hc. apply value_gt_strict_weak in Hc. rewrite <- list_fmap_compose in Hc.
  apply strict_weak_fmap in Hc. rewrite Forall_forall in Hg. destruct Hc as [Hi Ht Hw].
  assert (forall a b, a ∈ l -> b ∈ l -> keyed_gt a b = value_gt (key (jsonStr a)) (key (jsonStr b))) as E.
  { intros. apply good_gt; auto. }
  split; intros; rewrite ?E in * by done; [by eapply Hi|by eapply (Ht x y z)|by eapply (Hw x y z)].
Qed.

Lemma newRow_good s i j :
  key_of s = Some j -> exists r, newRow s i = Ret r /\ good r /\ jsonStr r = s /\ sourceFileIndex r = i.
Proof.
  unfold key_of, newRow, parse_exn. destruct (parse s) as [d|] eqn:E; [|done]. cbn.
  destruct (is_null _) eqn:En; [done|]. intros _. eexists. split; [done|]. by split_and!.
Qed.

(** ** Run files *)

Lemma file_lines_run rows :
  Forall (fun r => newline ∉ chars (jsonStr r)) rows -> file_lines (run_text rows) = jsonStr <$> rows.
Proof.
  unfold file_lines, run_text. induction 1 as [|r rows Hr _ IH]; [done|]. cbn.
  rewrite <- app_assoc. cbn [app]. rewrite split_items_word by done. cbn.
  rewrite IH. by rewrite string_chars.
Qed.

Lemma concat_insert (files : list (list string)) i line f :
  files !! i = Some (line :: f) -> concat files ≡ₚ line :: concat (<[i := f]> files).
Proof.
  revert i. induction files as [|g files IH]; intros [|i] H; try done; cbn in *.
  - by injection H as ->.
  - rewrite (IH _ H). by rewrite Permutation_middle.
Qed.

(** The state of the merge: every file that has lines left has a row in the
    queue, and no line of a file is less than a row of that file. *)
Definition merge_ok (pq : list Row) (files : list (list string)) : Prop :=
  Forall good pq /\
  (forall i f, files !! i = Some f -> sorted_texts f /\ Forall (fun s => is_Some (key_of s)) f) /\
  (forall r l f, r ∈ pq -> files !! sourceFileIndex r = Some f -> l ∈ f -> text_gt (jsonStr r) l = false) /\
  (forall i x f, files !! i = Some (x :: f) -> exists r, r ∈ pq /\ sourceFileIndex r = i) /\
  comparable (key <$> ((jsonStr <$> pq) ++ concat files)).

Lemma text_gt_weak all a b c :
  comparable (key <$> all) -> a ∈ all -> b ∈ all -> c ∈ all ->
  text_gt a b = false -> text_gt b c = false -> text_gt a c = false.
Proof.
  intros Hc Ha Hb Hd. apply value_gt_strict_weak in Hc. destruct Hc as [_ _ Hw].
  apply Hw; by apply list_elem_of_fmap_2.
Qed.

(** A comparator of queues that ranks rows with a key by this key. *)
Context (cmp : Row -> Row -> bool).
Hypothesis cmp_good : forall a b, good a -> good b -> cmp a b = keyed_gt a b.

Lemma cmp_strict_weak l :
  Forall good l -> comparable (key <$> (jsonStr <$> l)) -> strict_weak cmp l.
Proof.
  intros Hg Hc. pose proof (good_rows_strict_weak _ Hg Hc) as [Hi Ht Hw]. rewrite Forall_forall in Hg.
  assert (forall a b, a ∈ l -> b ∈ l -> cmp a b = keyed_gt a b) as E by (intros; apply cmp_good; auto).
  split; intros; rewrite ?E in * by done; [by eapply Hi|by eapply (Ht x y z)|by eapply (Hw x y z)].
Qed.

(** The top of the queue is not greater than anything that is left. *)
Lemma merge_top pq files top rest :
  merge_ok pq files -> pq_pop cmp pq = Some (top, rest) ->
  forall l, l ∈ (jsonStr <$> rest) ++ concat files -> text_gt (jsonStr top) l = false.
Proof.
  intros (Hg & Hf & Hle & Hrep & Hc) Hpop l Hl.
  pose proof (pq_pop_perm _ _ _ _ Hpop) as Hp.
  assert (forall r, r ∈ rest -> text_gt (jsonStr top) (jsonStr r) = false) as Htop.
  { intros r Hr. rewrite Forall_forall in Hg.
    rewrite <- good_gt, <- cmp_good by (apply Hg; rewrite Hp; set_solver).
    eapply pq_pop_top; [|done|done]. apply cmp_strict_weak; [by apply Forall_forall|].
    eapply comparable_subset, Hc. intros x Hx. rewrite fmap_app. set_solver. }
  apply elem_of_app in Hl as [Hl|Hl].
  - apply list_elem_of_fmap in Hl as (r & -> & Hr). by apply Htop.
  - pose proof Hl as Hl'. apply list_elem_of_In, in_concat in Hl as (f & Hf' & Hl).
    apply list_elem_of_In in Hf', Hl. apply list_elem_of_lookup in Hf' as [i Hi].
    destruct f as [|x f]; [by apply elem_of_nil in Hl|].
    destruct (Hrep _ _ _ Hi) as (r & Hr & <-). pose proof (Hle _ _ _ Hr Hi Hl) as Hrl.
    rewrite Hp in Hr. apply elem_of_cons in Hr as [->|Hr]; [done|].
    eapply (text_gt_weak _ _ (jsonStr r)); [exact Hc| | | |by apply Htop|done]; apply elem_of_app.
    + left. rewrite Hp. by left.
    + left. rewrite Hp. right. by apply list_elem_of_fmap_2.
    + by right.
Qed.

Lemma merge_ok_next pq files top rest line f r :
  merge_ok pq files -> pq ≡ₚ top :: rest -> files !! sourceFileIndex top = Some (line :: f) ->
  good r -> jsonStr r = line -> sourceFileIndex r = sourceFileIndex top ->
  merge_ok (r :: rest) (<[sourceFileIndex top := f]> files).
Proof.
  intros (Hg & Hf & Hle & Hrep & Hc) Hp Hi Hr <- Hidx. set (i := sourceFileIndex top) in *.
  pose proof (lookup_lt_Some _ _ _ Hi) as Hlen. destruct (Hf _ _ Hi) as [Hs Hk].
  split_and!.
  - constructor; [done|]. rewrite Hp in Hg. by apply Forall_cons in Hg as [_ ?].
  - intros j g. rewrite list_lookup_insert. case_decide as E; [|apply Hf].
    intros [= <-]. by inversion Hs; inversion Hk.
  - intros q l g Hq. rewrite list_lookup_insert. case_decide as E.
    + intros [= <-] Hl. apply elem_of_cons in Hq as [->|Hq].
      * inversion Hs as [|? ? _ Hall]; subst. rewrite Forall_forall in Hall. by apply Hall.
      * eapply Hle; [rewrite Hp; by right| |by right]. destruct E as [<- _]. done.
    + intros Hg' Hl. apply elem_of_cons in Hq as [->|Hq]; [destruct E; by rewrite Hidx|].
      eapply Hle; [rewrite Hp; by right|done|done].
  - intros j x g. rewrite list_lookup_insert. case_decide as E.
    + intros _. exists r. split; [left|]. by destruct E as [<- _].
    + intros Hj. destruct (Hrep _ _ _ Hj) as (q & Hq & <-). rewrite Hp in Hq.
      apply elem_of_cons in Hq as [->|Hq]; [by destruct E|]. exists q. by split; [right|].
  - eapply comparable_subset, Hc. intros x. rewrite Hp. cbn.
    rewrite (concat_insert _ _ _ _ Hi). rewrite !fmap_app. set_solver.
Qed.

Lemma merge_ok_drop pq files top rest :
  merge_ok pq files -> pq ≡ₚ top :: rest ->
  (forall x f, files !! sourceFileIndex top <> Some (x :: f)) -> merge_ok rest files.
Proof.
  intros (Hg & Hf & Hle & Hrep & Hc) Hp Hi. split_and!; [|done| | |].
  - rewrite Hp in Hg. by apply Forall_cons in Hg as [_ ?].
  - intros r l f Hr. apply Hle. rewrite Hp. by right.
  - intros j x f Hj. destruct (Hrep _ _ _ Hj) as (q & Hq & <-). rewrite Hp in Hq.
    apply elem_of_cons in Hq as [->|Hq]; [by destruct (Hi x f)|by exists q].
  - eapply comparable_subset, Hc. intros x. rewrite Hp, !fmap_app. set_solver.
Qed.

Lemma sorted_cons x out l :
  (forall y, y ∈ l -> text_gt x y = false) -> out ≡ₚ l -> sorted_texts out -> sorted_texts (x :: out).
Proof.
  intros H Hp Hs. constructor; [done|]. apply Forall_forall. intros y Hy. apply H. by rewrite <- Hp.
Qed.

Lemma merge_loop_spec n pq files :
  merge_ok pq files -> (length pq + length (concat files) <= n)%nat ->
  exists out, merge_loop n cmp pq files = Ret out /\
    out ≡ₚ (jsonStr <$> pq) ++ concat files /\ sorted_texts out.
Proof.
  revert pq files. induction n as [|n IH]; intros pq files Hok Hn.
  - destruct pq; [|cbn in Hn; lia]. destruct (concat files) eqn:E; [|cbn in Hn; lia].
    exists []. cbn. destruct (pq_pop _ _) as [[x r]|] eqn:Ep; [|split_and!; by try constructor].
    apply pq_pop_perm, Permutation_nil_l in Ep. done.
  - cbn. destruct (pq_pop cmp pq) as [[top rest]|] eqn:Ep.
    2:{ apply pq_pop_none in Ep as ->. exists []. split; [done|].
        destruct Hok as (_ & _ & _ & Hrep & _). split; [|constructor]. cbn.
        assert (forall i f, files !! i = Some f -> f = []) as He.
        { intros i [|x f] Hi; [done|]. destruct (Hrep _ _ _ Hi) as (r & Hr & _). by apply elem_of_nil in Hr. }
        clear -He. induction files as [|f files IH]; [done|]. cbn.
        rewrite (He 0%nat f) by done. apply IH. intros i g Hg. by apply (He (S i)). }
    pose proof (pq_pop_perm _ _ _ _ Ep) as Hp. pose proof (merge_top _ _ _ _ Hok Ep) as Htop.
    assert (length pq = S (length rest)) as Hlen by (apply Permutation_length in Hp; done).
    destruct (files !! sourceFileIndex top) as [[|line f]|] eqn:Hi.
    2:{ assert (is_Some (key_of line)) as [j Hj].
        { destruct Hok as (_ & Hf & _). destruct (Hf _ _ Hi) as [_ Hk]. by inversion Hk. }
        destruct (newRow_good _ (sourceFileIndex top) _ Hj) as (r & -> & Hr & Hstr & Hidx). cbn.
        pose proof (concat_insert _ _ _ _ Hi) as Hcat.
        destruct (IH (r :: rest) (<[sourceFileIndex top := f]> files)) as (out & -> & Hperm & Hsort).
        { by eapply merge_ok_next. }
        { apply Permutation_length in Hcat. cbn in Hcat |- *. lia. }
        cbn in Hperm. rewrite Hstr in Hperm. exists (jsonStr top :: out). split; [done|].
        assert (out ≡ₚ (jsonStr <$> rest) ++ concat files) as Hout.
        { rewrite Hperm, Hcat. by rewrite Permutation_middle. }
        split; [by rewrite Hp, Hout|]. by eapply sorted_cons. }
    all: destruct (IH rest files) as (out & -> & Hperm & Hsort);
      [eapply merge_ok_drop; [done|done|congruence]|lia|];
      exists (jsonStr top :: out); (split; [done|]); (split; [by rewrite Hp, Hperm|by eapply sorted_cons]).
Qed.

(** More turns than the merge needs change nothing. *)
Lemma merge_loop_more n n' pq files out :
  merge_loop n cmp pq files = Ret out -> (n <= n')%nat -> merge_loop n' cmp pq files = Ret out.
Proof.
  revert n' pq files out. induction n as [|n IH]; intros n' pq files out.
  - destruct n'; cbn; by destruct (pq_pop cmp pq) as [[? ?]|].
  - destruct n' as [|n']; [lia|]. cbn. intros H Hn. destruct (pq_pop cmp pq) as [[top rest]|]; [|done].
    destruct (files !! sourceFileIndex top) as [[|line f]|].
    2:{ destruct (newRow line _) as [r| | | | |]; try done. cbn in H |- *.
        apply outcome_bind_Ret_inv in H as (l & H1 & H2). by rewrite (IH _ _ _ _ H1) by lia. }
    all: apply outcome_bind_Ret_inv in H as (l & H1 & H2); by rewrite (IH _ _ _ _ H1) by lia.
Qed.

Lemma first_rows_spec files i :
  Forall (Forall (fun s => is_Some (key_of s))) files ->
  exists pq tails, first_rows i files = Ret (pq, tails) /\
    tails = tail <$> files /\
    Forall good pq /\
    (jsonStr <$> pq) ++ concat tails ≡ₚ concat files /\
    (forall k x f, files !! k = Some (x :: f) -> exists r, r ∈ pq /\ sourceFileIndex r = (i + k)%nat /\ jsonStr r = x) /\
    (forall r, r ∈ pq -> exists k x f, files !! k = Some (x :: f) /\ sourceFileIndex r = (i + k)%nat /\ jsonStr r = x).
Proof.
  intros Hf. revert i. induction Hf as [|[|x f] files Hx Hf IH]; intros i.
  - exists [], []. split_and!; try done. intros r Hr. by apply elem_of_nil in Hr.
  - destruct (IH (S i)) as (pq & tails & H & -> & Hg & Hp & H1 & H2). cbn [first_rows]. rewrite H.
    exists pq, ([] :: (tail <$> files)). split_and!; try done.
    + intros [|k] y g Hk; [done|]. destruct (H1 _ _ _ Hk) as (r & ? & ? & ?). exists r. split_and!; [done|lia|done].
    + intros r Hr. destruct (H2 _ Hr) as (k & y & g & ? & ? & ?). exists (S k), y, g. split_and!; [done|lia|done].
  - destruct (IH (S i)) as (pq & tails & H & -> & Hg & Hp & H1 & H2). apply Forall_cons in Hx as [[j Hj] Hx].
    destruct (newRow_good _ i _ Hj) as (r & Hr & Hgr & Hstr & Hidx). cbn [first_rows]. rewrite Hr. cbn. rewrite H. cbn.
    exists (r :: pq), (f :: (tail <$> files)). split_and!; try done.
    + by constructor.
    + cbn. rewrite Hstr. constructor. rewrite <- Hp, !(Permutation_app_comm (jsonStr <$> pq)). by rewrite <- app_assoc.
    + intros [|k] y g Hk.
      * injection Hk as <- <-. exists r. split_and!; [left|lia|done].
      * destruct (H1 _ _ _ Hk) as (r' & ? & ? & ?). exists r'. split_and!; [by right|lia|done].
    + intros r' Hr'. apply elem_of_cons in Hr' as [->|Hr'].
      * exists 0%nat, x, f. split_and!; [done|lia|done].
      * destruct (H2 _ Hr') as (k & y & g & ? & ? & ?). exists (S k), y, g. split_and!; [done|lia|done].
Qed.

(** The merge of sorted files is their sorted union. *)
Lemma merge_files files :
  (forall f, f ∈ files -> sorted_texts f /\ Forall (fun s => is_Some (key_of s)) f) ->
  comparable (key <$> concat files) ->
  exists pq out, first_rows 0 files = Ret (pq, tail <$> files) /\
    (forall r, r ∈ pq -> exists x f, files !! sourceFileIndex r = Some (x :: f) /\ jsonStr r = x) /\
    merge_loop (length (concat files)) cmp pq (tail <$> files) = Ret out /\
    out ≡ₚ concat files /\ sorted_texts out.
Proof.
  intros Hfiles Hc. destruct (first_rows_spec files 0) as (pq & tails & Hfirst & -> & Hgood & Hperm & H1 & H2).
  { apply Forall_forall. intros f Hf. by apply Hfiles. }
  destruct (merge_loop_spec (length (concat files)) pq (tail <$> files)) as (out & Hout & Hpo & Hso).
  - split_and!; [done| | | |].
    + intros i f Hi. apply list_lookup_fmap_Some in Hi as (g & -> & Hi).
      destruct (Hfiles g) as [Hsg Hkg]; [by eapply list_elem_of_lookup_2|].
      destruct g as [|x g]; [by split; constructor|]. by inversion Hsg; inversion Hkg.
    + intros r l f Hr Hi Hl. destruct (H2 _ Hr) as (k & x & g & Hk & Hidx & <-). cbn in Hidx. rewrite Hidx in Hi.
      rewrite list_lookup_fmap, Hk in Hi. injection Hi as <-. cbn in Hl.
      destruct (Hfiles (jsonStr r :: g)) as [Hsg _]; [by eapply list_elem_of_lookup_2|].
      inversion Hsg as [|? ? _ Hall]; subst. rewrite Forall_forall in Hall. by apply Hall.
    + intros i x f Hi. apply list_lookup_fmap_Some in Hi as ([|y g] & Hy & Hi); [done|].
      destruct (H1 _ _ _ Hi) as (r & ? & ? & _). by exists r.
    + eapply comparable_subset, Hc. intros x. by rewrite Hperm.
  - apply Permutation_length in Hperm. rewrite length_app, length_fmap in Hperm. lia.
  - exists pq, out. split_and!; [done| |done|by rewrite Hpo, Hperm|done].
    intros r Hr. destruct (H2 _ Hr) as (k & x & f & Hk & -> & ?). by exists x, f.
Qed.
End order.

(** ** The operator *)

(** The key of a row that OrderBy sorts by. *)
Definition by_path `{JT : JsonText} (sortKey : string) (j : json) : json := getNestedValue j sortKey.

Section sorting.
Context `{JT : JsonText} `{PQ : PriorityQueue} (sizeof_Row : Z) (creates : nat -> bool).
Context (sortKey : string).

Local Notation K := (by_path sortKey).
Local Notation good := (good K).
Local Notation key := (key K).
Local Notation key_of := (key_of K).
Local Notation sorted_texts := (sorted_texts K).


Definition with_key (rows : list string) : list string := filter (fun raw => is_Some (key_of raw)) rows.

Definition sorted_rows (l : list Row) : Prop := StronglySorted (fun a b => keyed_gt K a b = false) l.

(** The rows read so far are in the heap and in sorted run files. *)
Definition sorter_ok (rows : list string) (s : sorter) : Prop := exists runs,
  runFiles s = run_text <$> runs /\ Forall sorted_rows runs /\
  Forall good (heap s ++ concat runs) /\
  jsonStr <$> (heap s ++ concat runs) ≡ₚ with_key rows.

Lemma sorter_comparable rows l l' :
  comparable (key <$> with_key rows) -> jsonStr <$> (l ++ l') ≡ₚ with_key rows ->
  comparable (key <$> (jsonStr <$> l)).
Proof.
  intros Hc Hp. eapply comparable_subset, Hc. intros x Hx. rewrite <- Hp, fmap_app, fmap_app. set_solver.
Qed.

Lemma sorted_drain l :
  Forall good l -> comparable (key <$> (jsonStr <$> l)) ->
  pq_drain (length l) (keyed_gt K) l ≡ₚ l /\ sorted_rows (pq_drain (length l) (keyed_gt K) l).
Proof. intros Hg Hc. apply pq_drain_spec; [done|]. by apply good_rows_strict_weak. Qed.

Lemma flush_ok rows s :
  comparable (key <$> with_key rows) -> sorter_ok rows s ->
  sorter_ok rows (flushHeapToRunFile creates (keyed_gt K) s) /\
  (creates (attempts s) = true -> heap (flushHeapToRunFile creates (keyed_gt K) s) = []).
Proof.
  intros Hc (runs & Hr & Hs & Hg & Hp). unfold flushHeapToRunFile.
  destruct (heap s) as [|h t] eqn:E; [split; [|done]; exists runs; by rewrite E|].
  rewrite <- E in *. destruct (creates (attempts s)); [|split; [by exists runs|done]]. split; [|done].
  apply Forall_app in Hg as [Hg1 Hg2].
  destruct (sorted_drain (heap s) Hg1) as [Hd Hsort]; [by eapply sorter_comparable|].
  exists (runs ++ [pq_drain (length (heap s)) (keyed_gt K) (heap s)]). cbn. split_and!.
  - by rewrite Hr, fmap_app.
  - apply Forall_app. split; [done|by constructor].
  - rewrite concat_app. cbn. rewrite app_nil_r, Hd. by apply Forall_app.
  - rewrite concat_app. cbn. rewrite app_nil_r, Hd, Permutation_app_comm. done.
Qed.

Lemma order_row_ok rows s raw :
  comparable (key <$> with_key (rows ++ [raw])) -> sorter_ok rows s ->
  sorter_ok (rows ++ [raw]) (order_row sizeof_Row creates sortKey true s raw).
Proof.
  intros Hc (runs & Hr & Hs & Hg & Hp). unfold order_row.
  destruct (key_of raw) as [j|] eqn:Ek.
  - destruct (newRow_good K _ 0 _ Ek) as (r & -> & Hgr & Hstr & _). destruct Hgr as [Hpr Hn]. unfold by_path in Hn. rewrite Hn.
    set (s' := mkSorter (r :: heap s) _ _ _).
    assert (sorter_ok (rows ++ [raw]) s') as Hok.
    { exists runs. cbn. split_and!; try done; [by constructor|]. rewrite Hp, Hstr. unfold with_key.
      rewrite filter_app, (filter_cons_True _ raw []) by (by rewrite Ek). cbn. by rewrite Permutation_app_comm. }
    destruct (_ <? _); [|done]. destruct (flush_ok _ _ Hc Hok) as [(runs' & H') _]. by exists runs'.
  - assert (with_key (rows ++ [raw]) = with_key rows) as Hw.
    { unfold with_key. rewrite filter_app, (filter_cons_False _ raw []), app_nil_r; [done|].
      rewrite Ek. by intros [? ?]. }
    assert (sorter_ok (rows ++ [raw]) s) as Hok by (exists runs; by rewrite Hw).
    unfold key_of in Ek. unfold newRow, parse_exn. destruct (parse raw) as [d|]; [|done]. cbn.
    by destruct (is_null _).
Qed.

Lemma merge_runs runs rows :
  comparable (key <$> with_key rows) -> jsonStr <$> concat runs ≡ₚ with_key rows ->
  Forall sorted_rows runs -> Forall good (concat runs) ->
  Forall (fun r => newline ∉ chars (jsonStr r)) (concat runs) ->
  exists out, localKWayMerge sortKey true (run_text <$> runs) = Ret out /\
    out ≡ₚ with_key rows /\ sorted_texts out.
Proof.
  intros Hc Hp Hs Hg Hn. unfold localKWayMerge.
  assert (file_lines <$> (run_text <$> runs) = (fun run => jsonStr <$> run) <$> runs) as ->.
  { rewrite <- list_fmap_compose. apply list_fmap_ext. intros i run Hi. apply file_lines_run.
    eapply Forall_forall. intros r Hr. rewrite Forall_forall in Hn. apply Hn.
    apply list_elem_of_In, in_concat. exists run.
    split; apply list_elem_of_In; [by eapply list_elem_of_lookup_2|done]. }
  set (files := (fun run => jsonStr <$> run) <$> runs).
  assert (concat files = jsonStr <$> concat runs) as Hcat.
  { unfold files. clear. induction runs as [|x runs IH]; [done|]. cbn. by rewrite IH, fmap_app. }
  assert (forall run, run ∈ runs -> sorted_rows run /\ Forall good run) as Hruns.
  { intros run Hrun. rewrite Forall_forall in Hs. split; [by apply Hs|]. apply Forall_forall. intros r Hr.
    rewrite Forall_forall in Hg. apply Hg, list_elem_of_In, in_concat. exists run.
    split; by apply list_elem_of_In. }
  assert (forall f, f ∈ files -> sorted_texts f /\ Forall (fun s => is_Some (key_of s)) f) as Hfiles.
  { intros f (run & -> & Hrun)%list_elem_of_fmap. destruct (Hruns _ Hrun) as [H1 H2]. split.
    - clear -H1 H2. induction H1 as [|r run _ IH Hall]; cbn; [constructor|]. apply Forall_cons in H2 as [Hr H2].
      constructor; [by apply IH|]. apply Forall_fmap. rewrite Forall_forall in *. intros x Hx. cbn.
      rewrite <- good_gt; auto.
    - apply Forall_fmap. eapply Forall_impl; [done|]. intros r [H3 H4]. cbn. unfold key_of. rewrite H3, H4. by eexists. }
  destruct (merge_files K (keyed_gt K) ltac:(done) files) as (pq & out & -> & _ & Hout & Hpo & Hso); [done| |].
  { eapply comparable_subset, Hc. intros x. by rewrite Hcat, Hp. }
  exists out. cbn. split; [exact Hout|]. split; [|done]. by rewrite Hpo, Hcat, Hp.
Qed.
Lemma order_loop rows s seen out :
  (forall s', sorter_ok (seen ++ rows) s' -> order_end creates sortKey true s' = Ret (out s')) ->
  comparable (key <$> with_key (seen ++ rows)) -> sorter_ok seen s ->
  exists s', sorter_ok (seen ++ rows) s' /\
    transform (OrderBy_stage sizeof_Row creates sortKey "ASC") s rows = Ret (out s').
Proof.
  intros Hout. revert s seen Hout. induction rows as [|raw rows IH]; intros s seen Hout Hc Hs; cbn.
  - rewrite app_nil_r in *. exists s. split; [done|]. by apply Hout.
  - destruct (IH (order_row sizeof_Row creates sortKey true s raw) (seen ++ [raw])) as (s' & Hs' & H').
    + rewrite <- app_assoc. apply Hout.
    + rewrite <- app_assoc. apply Hc.
    + apply order_row_ok; [|done]. eapply comparable_subset, Hc. intros x.
      replace (seen ++ raw :: rows) with ((seen ++ [raw]) ++ rows) by (by rewrite <- app_assoc).
      unfold with_key. rewrite (filter_app _ (seen ++ [raw])), fmap_app, elem_of_app. by left.
    + exists s'. rewrite <- app_assoc in Hs'. split; [done|]. cbn in H'. by rewrite H'.
Qed.

Lemma order_end_ok rows s :
  (forall n, creates n = true) -> Forall (fun raw => newline ∉ chars raw) rows ->
  comparable (key <$> with_key rows) -> sorter_ok rows s ->
  exists out, order_end creates sortKey true s = Ret out /\
    out ≡ₚ with_key rows /\ sorted_texts out.
Proof.
  intros Hcr Hn Hc Hok. unfold order_end. destruct (runFiles s) as [|f fs] eqn:E.
  - destruct Hok as (runs & Hr & _ & Hg & Hp). rewrite E in Hr. symmetry in Hr.
    apply fmap_nil_inv in Hr as ->. cbn in *. rewrite app_nil_r in *.
    destruct (sorted_drain (heap s)) as [Hd Hs]; [done| |].
    { eapply comparable_subset, Hc. intros x. by rewrite Hp. }
    eexists. split; [done|]. split; [by rewrite Hd, Hp|].
    change (fun a b => DynamicComparator sortKey true a b) with (keyed_gt K).
    assert (Forall good (pq_drain (length (heap s)) (keyed_gt K) (heap s))) as Hgd by by rewrite Hd.
    clear -Hs Hgd. change (DynamicComparator sortKey true) with (keyed_gt K).
    revert Hgd. induction Hs as [|r l _ IH Hall]; intros Hgd; cbn; [constructor|].
    apply Forall_cons in Hgd as [Hr Hgd]. constructor; [by apply IH|]. apply Forall_fmap.
    rewrite Forall_forall in *. intros x Hx. cbn. rewrite <- good_gt; auto.
  - destruct (flush_ok _ _ Hc Hok) as [(runs & Hr & Hs & Hg & Hp) Hh].
    change (DynamicComparator sortKey true) with (keyed_gt K). rewrite Hr.
    rewrite Hh in Hg, Hp by done. cbn in Hg, Hp. apply merge_runs; try done.
    rewrite Forall_forall in Hn. apply Forall_forall. intros r Hr'. apply Hn.
    assert (jsonStr r ∈ with_key rows) as Hin by (rewrite <- Hp; by apply list_elem_of_fmap_2).
    by apply list_elem_of_filter in Hin as [_ ?].
Qed.

Lemma order_rows_sorted rows :
  (forall n, creates n = true) -> Forall (fun raw => newline ∉ chars raw) rows ->
  comparable (key <$> with_key rows) ->
  exists out, transform (OrderBy_stage sizeof_Row creates sortKey "ASC") (mkSorter [] 0 [] 0) rows = Ret out /\
    out ≡ₚ with_key rows /\ sorted_texts out.
Proof.
  intros Hcr Hn Hc.
  destruct (order_loop rows (mkSorter [] 0 [] 0) []
      (fun s => match order_end creates sortKey true s with Ret l => l | _ => [] end)) as (s & Hs & H); [|done| |].
  - intros s' Hs'. by destruct (order_end_ok rows s' Hcr Hn Hc Hs') as (out & -> & _).
  - exists []. by cbn.
  - destruct (order_end_ok rows s Hcr Hn Hc Hs) as (out & Hout & Hp & Hso). rewrite Hout in H.
    exists out. by split_and!.
Qed.

(** C20. ORDER BY in ascending order: whatever the sizes of the rows, and so
    however often the heap is flushed to a run file, for every implementation
    of the priority queue that keeps the contract of the standard, the output
    is exactly the rows that have the sort key, each as often as it came in,
    in ascending order of that key.  The keys are all strings or all
    integers, rows are single lines and the run files can be created. *)
Theorem order_by_sorts rows :
  (forall n, creates n = true) -> Forall (fun raw => newline ∉ chars raw) rows ->
  comparable (key <$> with_key rows) ->
  exists out, transform (OrderBy_stage sizeof_Row creates sortKey "ASC") (mkSorter [] 0 [] 0) rows = Ret out /\
    out ≡ₚ with_key rows /\ sorted_texts out.
Proof. apply order_rows_sorted. Qed.

(** ORDER BY in descending order compares rows wrongly before they reach a
    run file: rows with different keys are ranked exactly as for ascending
    order, and a row is less than itself, so that the comparator is not a
    strict weak ordering as soon as there is a row. *)
Theorem order_by_descending a b :
  comparable [getNestedValue (data a) sortKey; getNestedValue (data b) sortKey] ->
  DynamicComparator sortKey false a a = true /\
  (getNestedValue (data a) sortKey <> getNestedValue (data b) sortKey ->
   (forall x y, getNestedValue (data a) sortKey = JInt x -> getNestedValue (data b) sortKey = JInt y ->
      s32 x = x /\ s32 y = y) ->
   DynamicComparator sortKey false a b = DynamicComparator sortKey true a b).
Proof.
  intros Hc. unfold DynamicComparator, row_less, row_gt. split.
  - destruct (value_gt_strict_weak _ Hc) as [Hi _ _]. by rewrite Hi by left.
  - intros Hne Hs. destruct Hc as [Hc|Hc]; apply Forall_cons in Hc as [[x Hx] Hc];
      apply Forall_cons in Hc as [[y Hy] _]; rewrite Hx, Hy in *; cbn.
    + destruct (string_ltb y x) eqn:E.
      * rewrite negb_true_iff. destruct (string_ltb x y) eqn:E'; [|done].
        by rewrite <- (string_ltb_trans _ _ _ E E'), string_ltb_irrefl.
      * destruct (string_ltb_total _ _ E) as [->|E']; [done|]. by rewrite E'.
    + destruct (Hs x y) as [Hx' Hy']; [done..|]. rewrite Hx', Hy'.
      assert (x <> y) by congruence. destruct (Z.ltb_spec x y), (Z.ltb_spec y x); try done; lia.
Qed.
End sorting.

(** ** A priority queue *)

(** The first element that none of the later ones beats, by one pass. *)
Fixpoint select_top {A} (cmp : A -> A -> bool) (x : A) (l : list A) : A * list A :=
  match l with
  | [] => (x, [])
  | y :: r => if cmp x y then let '(t, r') := select_top cmp y r in (t, x :: r')
              else let '(t, r') := select_top cmp x r in (t, y :: r')
  end.

Definition list_pop {A} (cmp : A -> A -> bool) (l : list A) : option (A * list A) :=
  match l with [] => None | x :: r => Some (select_top cmp x r) end.

Lemma select_top_perm {A} (cmp : A -> A -> bool) x l t r :
  select_top cmp x l = (t, r) -> x :: l ≡ₚ t :: r.
Proof.
  revert x t r. induction l as [|y l IH]; cbn; intros x t r H; [by injection H as <- <-|].
  destruct (cmp x y); [destruct (select_top cmp y l) as [t' r'] eqn:E|destruct (select_top cmp x l) as [t' r'] eqn:E];
    injection H as <- <-; apply IH in E.
  - rewrite E. apply Permutation_swap.
  - rewrite Permutation_swap, E. apply Permutation_swap.
Qed.

Lemma select_top_top {A} (cmp : A -> A -> bool) x l t r :
  strict_weak cmp (x :: l) -> select_top cmp x l = (t, r) ->
  cmp t x = false /\ forall y, y ∈ r -> cmp t y = false.
Proof.
  revert x t r. induction l as [|y l IH]; cbn; intros x t r Hsw H.
  - injection H as <- <-. split; [apply Hsw; left|]. intros y Hy. by apply elem_of_nil in Hy.
  - destruct (cmp x y) eqn:Exy.
    + destruct (select_top cmp y l) as [t' r'] eqn:E. injection H as <- <-.
      destruct (IH y t' r') as [H1 H2]; [eapply strict_weak_subset, Hsw; set_solver|done|].
      pose proof (select_top_perm _ _ _ _ _ E) as Hp.
      assert (t' ∈ x :: y :: l) as Ht by (right; rewrite Hp; left).
      assert (cmp t' x = false) as Hx.
      { destruct (cmp t' x) eqn:Ex; [|done]. rewrite <- H1. symmetry. eapply (sw_trans _ _ Hsw t' x y); set_solver. }
      split; [done|]. intros z Hz. apply elem_of_cons in Hz as [->|Hz]; [done|by apply H2].
    + destruct (select_top cmp x l) as [t' r'] eqn:E. injection H as <- <-.
      destruct (IH x t' r') as [H1 H2]; [eapply strict_weak_subset, Hsw; set_solver|done|].
      pose proof (select_top_perm _ _ _ _ _ E) as Hp.
      assert (t' ∈ x :: l) as Ht by (rewrite Hp; left).
      split; [done|]. intros z Hz. apply elem_of_cons in Hz as [->|Hz]; [|by apply H2].
      eapply (sw_weak _ _ Hsw t' x y); set_solver.
Qed.

Lemma list_pop_none {A} (cmp : A -> A -> bool) l : list_pop cmp l = None -> l = [].
Proof. by destruct l. Qed.

Lemma list_pop_perm {A} (cmp : A -> A -> bool) l x r : list_pop cmp l = Some (x, r) -> l ≡ₚ x :: r.
Proof. destruct l as [|y l]; [done|]. intros [= H]. by apply select_top_perm in H. Qed.

Lemma list_pop_top {A} (cmp : A -> A -> bool) l x r :
  strict_weak cmp l -> list_pop cmp l = Some (x, r) -> forall y, y ∈ r -> cmp x y = false.
Proof. destruct l as [|z l]; [done|]. intros Hsw [= H]. by apply (select_top_top _ _ _ _ _ Hsw H). Qed.

#[export] Instance list_queue : PriorityQueue := {
  pq_pop := @list_pop;
  pq_pop_none := @list_pop_none;
  pq_pop_perm := @list_pop_perm;
  pq_pop_top := @list_pop_top
}.
