(* ===== verification/RuntimeTheory.v ===== *)
(** * RuntimeTheory: what the operators do with their rows

    Filter keeps exactly the rows on which its condition holds, and batches
    are invisible; Projection adds the columns of the plan; Distinct does not
    remove anything.  All of them are well behaved in a pipeline. *)
From Stdlib Require Import ZArith Ascii String Lia.
From stdpp Require Import base tactics numbers list strings sets.
From S2P Require Import Prelude Json SharedBuffer Pipelines ParallelExecutor CypherFilter FilterTheory.
From S2P Require Import CypherRuntime OrderBy.

Section theory.
Context `{JT : JsonText}.

(** ** Filter *)

Lemma processSequentially_filter condition (b : string -> bool) batch :
  (forall raw, raw ∈ batch -> evaluate condition raw = Ret (b raw)) ->
  processSequentially condition batch = Ret (List.filter b batch).
Proof.
  induction batch as [|raw batch IH]; intros H; [done|]. cbn. rewrite (H raw) by left. cbn.
  rewrite IH by (intros; apply H; by right). by destruct (b raw).
Qed.

(** A batch never grows beyond a hundred rows, so the parallel branch of
    [processBatch] is not taken. *)
Lemma processBatch_small workers condition batch :
  (length batch <= FILTER_BATCH_SIZE)%nat ->
  processBatch workers condition batch = processSequentially condition batch.
Proof.
  intros H. unfold processBatch. destruct workers; [|done].
  destruct (Nat.ltb_spec 500 (length batch)) as [Hl|]; [|done].
  unfold FILTER_BATCH_SIZE in H. lia.
Qed.

Lemma filter_stage_run workers query j (b : string -> bool) rows batch :
  index "condition" query = Ret j ->
  (forall raw, raw ∈ batch ++ rows -> evaluate (dump j) raw = Ret (b raw)) ->
  (length batch < FILTER_BATCH_SIZE)%nat ->
  transform (Filter workers query) batch rows = Ret (List.filter b (batch ++ rows)).
Proof.
  intros Hj. revert batch. induction rows as [|raw rows IH]; intros batch Hb Hl.
  - cbn. rewrite Hj. cbn. rewrite processBatch_small by lia. rewrite app_nil_r in *.
    by apply processSequentially_filter.
  - assert (exists batch' l, on_row (Filter workers query) batch raw = Ret (batch', l) /\
      l ++ List.filter b (batch' ++ rows) = List.filter b (batch ++ raw :: rows) /\
      (length batch' < FILTER_BATCH_SIZE)%nat /\ forall x, x ∈ batch' -> x ∈ batch ++ raw :: rows)
      as (batch' & l & Hrow & Heq & Hl' & Hsub).
    { cbn [Filter on_row]. destruct (Nat.leb_spec FILTER_BATCH_SIZE (length (batch ++ [raw]))) as [Hfull|Hroom].
      - rewrite Hj. cbn. rewrite length_app in Hfull. cbn in Hfull.
        rewrite processBatch_small by (rewrite length_app; cbn; lia).
        rewrite (processSequentially_filter _ b) by (intros; apply Hb; set_solver).
        exists [], (List.filter b (batch ++ [raw])). split_and!; [done| |cbn; unfold FILTER_BATCH_SIZE; lia|set_solver].
        cbn. by rewrite <- List.filter_app, <- app_assoc.
      - exists (batch ++ [raw]), []. split_and!; [done|cbn; by rewrite <- app_assoc|exact Hroom|set_solver]. }
    cbn [transform]. rewrite Hrow. cbn [mbind outcome_bind fst snd].
    rewrite IH; [by cbn [mbind outcome_bind]; rewrite Heq| |done]. intros x Hx. apply Hb. set_solver.
Qed.

Definition row_text (row : list (string * json)) : string := dump (JObject row).

Lemma filter_rows workers query c rows (b : list (string * json) -> bool) :
  index "condition" query = Ret (cond_json c) -> cond_ok c = true ->
  (forall row, row ∈ rows -> json_ok (JObject row) = true /\ holds row c = Ret (b row)) ->
  transform (Filter workers query) [] (row_text <$> rows) = Ret (row_text <$> List.filter b rows).
Proof.
  intros Hq Hc Hrows.
  set (b' := fun raw => match parse raw with Some (JObject m) => b m | _ => false end).
  assert (forall row, row ∈ rows -> b' (row_text row) = b row) as Hb.
  { intros row Hrow. unfold b', row_text. by rewrite parse_dump by (by apply Hrows). }
  rewrite (filter_stage_run workers query (cond_json c) b'); [|done| |cbn; unfold FILTER_BATCH_SIZE; lia].
  2:{ intros raw (row & -> & Hrow)%list_elem_of_fmap. rewrite Hb by done. destruct (Hrows _ Hrow) as [Hok Hh].
      unfold evaluate, row_text. rewrite parse_exn_dump by (by apply cond_ok_json).
      cbn. by rewrite evaluateCondition_spec. }
  cbn. f_equal. clear Hrows. induction rows as [|row rows IH]; [done|]. cbn.
  rewrite Hb by left. rewrite IH by (intros; apply Hb; by right). by destruct (b row).
Qed.

(** The Filter operator, for any number of rows and so of batches, with or
    without worker threads: the rows it passes on are those on which its
    condition is true, in their order. *)
Theorem filter_keeps_true workers query c rows (b : list (string * json) -> bool) :
  index "condition" query = Ret (cond_json c) -> cond_ok c = true ->
  (forall row, row ∈ rows -> json_ok (JObject row) = true /\ holds row c = Ret (b row)) ->
  transform (Filter workers query) [] (row_text <$> rows) = Ret (row_text <$> List.filter b rows).
Proof. apply filter_rows. Qed.

(** ** Good behaviour *)

Lemma dump_data_end data : match data with JObject _ | JNull => dump data <> END | _ => True end.
Proof. destruct data; try done; [by rewrite dump_null|apply dump_object_end]. Qed.

Lemma pick_values_object rawObj values data data' :
  (data = JNull \/ exists m, data = JObject m) -> pick_values rawObj values data = Ret data' ->
  data' = JNull \/ exists m, data' = JObject m.
Proof.
  revert data. induction values as [|v r IH]; cbn; intros data Hd H; [by injection H as <-|].
  apply outcome_bind_Ret_inv in H as (x & _ & H). apply outcome_bind_Ret_inv in H as (d & Ha & H).
  apply (IH d); [|done]. destruct Hd as [->|[m ->]]; injection Ha as <-; right; by eexists.
Qed.

(** It is enough to look at the rows one by one. *)
Lemma stage_elem p (P : string -> Prop) (I : local p -> Prop) rows v out :
  (forall v raw v' l, I v -> raw ∈ rows -> on_row p v raw = Ret (v', l) -> I v' /\ Forall P l) ->
  (forall v l, I v -> on_end p v = Ret l -> Forall P l) ->
  I v -> transform p v rows = Ret out -> Forall P out.
Proof.
  intros Hrow Hend. revert v out. induction rows as [|raw r IH]; cbn; intros v out HI H; [by eapply Hend|].
  apply outcome_bind_Ret_inv in H as ([v' l] & H1 & H).
  apply outcome_bind_Ret_inv in H as (l2 & H2 & [= <-]).
  destruct (Hrow _ _ _ _ HI ltac:(left) H1) as [HI' Hl]. apply Forall_app. split; [done|].
  eapply (IH ltac:(intros; eapply Hrow; [done|by right|done])); done.
Qed.

Lemma Forall_not_end l : Forall (fun s => s <> END) l -> END ∉ l.
Proof. rewrite Forall_forall. intros H Hin. by apply (H END). Qed.

Lemma ProduceResult_well_behaved query : well_behaved (ProduceResult query).
Proof.
  intros rows out _ H. apply Forall_not_end.
  eapply (stage_elem _ _ (fun _ => True)); [| |done|exact H]; cbn; [|intros v l _ [= <-]; constructor].
  intros v raw v' l _ _ H'. split; [done|].
  apply outcome_bind_Ret_inv in H' as (l' & H' & [= _ <-]). unfold produce_row in H'.
  repeat (apply outcome_bind_Ret_inv in H' as (? & ? & H')). injection H' as <-.
  constructor; [|constructor]. intros E.
  match goal with Hp : pick_values _ _ _ = Ret ?x |- _ =>
    destruct (pick_values_object _ _ _ _ (or_introl eq_refl) Hp) as [->|[m ->]] end.
  - by rewrite dump_null in E.
  - by destruct (dump_object_end m).
Qed.

Lemma project_stage_well_behaved query : well_behaved (project_stage query).
Proof.
  intros rows out Hn H. apply Forall_not_end.
  eapply (stage_elem _ _ (fun _ => True)); [| |done|exact H]; cbn; [|intros v l _ [= <-]; constructor].
  intros v raw v' l _ Hraw H'. split; [done|]. destruct (match query with JObject _ => _ | _ => _ end).
  - apply outcome_bind_Ret_inv in H' as (l' & H' & [= _ <-]). unfold project_row in H'.
    apply outcome_bind_Ret_inv in H' as (d & _ & H'). destruct d; try done.
    apply outcome_bind_Ret_inv in H' as (m' & _ & [= <-]).
    constructor; [apply dump_object_end|constructor].
  - injection H' as _ <-. constructor; [|constructor]. by intros ->.
Qed.

Lemma processSequentially_sub condition batch l :
  processSequentially condition batch = Ret l -> forall x, x ∈ l -> x ∈ batch.
Proof.
  revert l. induction batch as [|raw batch IH]; cbn; intros l H x Hx; [by injection H as <-|].
  apply outcome_bind_Ret_inv in H as (b & _ & H). apply outcome_bind_Ret_inv in H as (r & Hr & [= <-]).
  specialize (IH _ Hr x). destruct b; set_solver.
Qed.

Lemma Filter_well_behaved workers query : well_behaved (Filter workers query).
Proof.
  intros rows out Hn H. apply Forall_not_end.
  set (I := fun batch : list string => Forall (fun s => s <> END) batch /\ (length batch < FILTER_BATCH_SIZE)%nat).
  assert (forall batch condition l, Forall (fun s => s <> END) batch -> (length batch <= FILTER_BATCH_SIZE)%nat ->
    processBatch workers condition batch = Ret l -> Forall (fun s => s <> END) l) as Hb.
  { intros batch c l Hf Hl Hp. rewrite processBatch_small in Hp by done. apply Forall_forall. intros x Hx.
    rewrite Forall_forall in Hf. by eapply Hf, processSequentially_sub. }
  eapply (stage_elem (Filter workers query) _ I); [| | |exact H].
  - cbn [Filter on_row local]. intros batch raw batch' l [Hf Hl] Hraw H'.
    assert (Forall (fun s => s <> END) (batch ++ [raw])) as Hf'.
    { apply Forall_app. split; [done|]. constructor; [|constructor]. by intros ->. }
    destruct (Nat.leb_spec FILTER_BATCH_SIZE (length (batch ++ [raw]))) as [Hfull|Hroom].
    + apply outcome_bind_Ret_inv in H' as (c & _ & H'). apply outcome_bind_Ret_inv in H' as (l' & Hp & [= <- <-]).
      split; [split; [constructor|cbn; unfold FILTER_BATCH_SIZE; lia]|].
      eapply Hb, Hp; [done|]. rewrite length_app. cbn. lia.
    + injection H' as <- <-. by split; [|constructor].
  - intros batch l [Hf Hl] H'. apply outcome_bind_Ret_inv in H' as (c & _ & H').
    eapply Hb, H'; [done|lia].
  - split; [constructor|cbn; unfold FILTER_BATCH_SIZE; lia].
Qed.

(** ** Distinct *)

(** DISTINCT does not remove duplicates: the operator gives one row for
    every row it reads, and equal rows for equal rows. *)
Theorem distinct_keeps_duplicates query rows out :
  transform (Distinct query) tt rows = Ret out ->
  length out = length rows /\
  forall i j a b, rows !! i = Some a -> rows !! j = Some a -> out !! i = Some b -> out !! j = Some b.
Proof.
  intros H. assert (exists f : string -> string, out = f <$> rows) as [f ->].
  { exists (fun raw => match on_row (Distinct query) tt raw with Ret (_, [r]) => r | _ => "" end).
    revert out H. induction rows as [|raw rows IH]; cbn; intros out H; [by injection H as <-|].
    apply outcome_bind_Ret_inv in H as ([[] l] & H1 & H). apply outcome_bind_Ret_inv in H as (l2 & H2 & [= <-]).
    rewrite (IH _ H2). cbn in H1. rewrite H1.
    assert (exists r, l = [r]) as [r ->]; [|done].
    destruct (match query with JObject _ => _ | _ => _ end).
    - apply outcome_bind_Ret_inv in H1 as (l' & H1 & [= <-]). unfold project_row in H1.
      apply outcome_bind_Ret_inv in H1 as (d & _ & H1). destruct d; try done.
      apply outcome_bind_Ret_inv in H1 as (m' & _ & [= <-]). by eexists.
    - injection H1 as <-. by eexists. }
  split; [by rewrite length_fmap|]. intros i j a b Hi Hj. rewrite !list_lookup_fmap, Hi, Hj. done.
Qed.
End theory.
