(* ===== verification/ProjectionTheory.v ===== *)
(** * ProjectionTheory: the columns of a row

    Projection walks over the keys of a row while it inserts keys into it.
    The theorem says what comes out: for each operand of the plan the value of
    the property, or null, under the name of the column. *)
From Stdlib Require Import ZArith Ascii String Lia.
From stdpp Require Import base tactics numbers list strings sets.
From S2P Require Import Prelude Json CypherRuntime.

(** What [Operators.cpp] puts into the plan for [variable.property AS assigned]. *)
Definition lookup_column (variable property assigned : string) : json :=
  JObject [("Type", JString "PROPERTY_LOOKUP"); ("assign", JString assigned);
           ("property", JString property); ("variable", JString variable)].

(** The keys that are still to be visited after a key. *)
Definition later (key : string) (data : list (string * json)) : list (string * json) :=
  filter (fun kv => string_ltb key kv.1 = true) data.

Lemma next_key_later key data k :
  next_key key data = Some k -> string_ltb key k = true /\ (length (later k data) < length (later key data))%nat.
Proof.
  unfold next_key. change (filter _ data) with (later key data).
  destruct (later key data) as [|[k' v] rest] eqn:E; [done|]. intros [= <-].
  assert (string_ltb key k' = true) as Hk.
  { assert ((k', v) ∈ later key data) as Hin by (rewrite E; left). by apply list_elem_of_filter in Hin as [? _]. }
  split; [done|].
  assert (later k' data = later k' (later key data)) as ->.
  { unfold later. rewrite list_filter_filter. apply list_filter_iff. intros [a b]. cbn.
    split; [|tauto]. intros H. split; [done|]. by eapply string_ltb_trans. }
  rewrite E. unfold later. rewrite filter_cons, decide_False by (cbn; by rewrite string_ltb_irrefl).
  cbn. apply Nat.lt_succ_r, length_filter.
Qed.

Lemma length_later_cons key kv data :
  length (later key (kv :: data)) = ((if string_ltb key kv.1 then 1 else 0) + length (later key data))%nat.
Proof. unfold later. rewrite filter_cons. case_decide as E; [by rewrite E|]. by destruct (string_ltb key kv.1). Qed.

Lemma later_set_key key k v data : (length (later key (set_key k v data)) <= S (length (later key data)))%nat.
Proof.
  induction data as [|[k' v'] data IH]; cbn [set_key].
  - rewrite length_later_cons. cbn. destruct (string_ltb key k); lia.
  - destruct (String.eqb_spec k k') as [->|_]; [rewrite !length_later_cons; cbn; lia|].
    destruct (string_ltb k k'); rewrite !length_later_cons; cbn.
    + destruct (string_ltb key k); lia.
    + lia.
Qed.

Lemma next_key_least key data k x :
  keys_sorted data = true -> next_key key data = Some k ->
  string_ltb key x = true -> is_Some (find_key x data) -> k = x \/ string_ltb k x = true.
Proof.
  induction data as [|[k' v'] data IH]; [done|]. cbn. rewrite andb_true_iff, forallb_elem. intros [Hk Hs].
  unfold next_key. rewrite filter_cons. cbn. case_decide as E.
  - cbn. intros [= <-] Hx [v Hf]. destruct (String.eqb_spec x k') as [->|]; [by left|right].
    apply find_key_elem in Hf. by apply (Hk (x, v)).
  - intros Hn Hx Hf. destruct (String.eqb_spec x k') as [->|]; [done|]. by apply IH.
Qed.

Lemma next_key_some key data x :
  string_ltb key x = true -> is_Some (find_key x data) -> is_Some (next_key key data).
Proof.
  intros Hx [v Hf]. apply find_key_elem in Hf. unfold next_key.
  assert ((x, v) ∈ filter (fun kv : string * json => string_ltb key kv.1 = true) data) as Hin.
  { by apply list_elem_of_filter. }
  destruct (filter _ data) as [|[k' v'] r]; [by apply elem_of_nil in Hin|by eexists].
Qed.

Section column.
Context (variable property assigned : string).
Local Notation operand := (lookup_column variable property assigned).

Lemma project_key_other key data : key <> variable -> project_key operand key data = Ret data.
Proof.
  intros Hne. unfold project_key, is_key. cbn.
  by rewrite (proj2 (String.eqb_neq key variable) Hne).
Qed.

Definition projected (value : json) (data : list (string * json)) : list (string * json) :=
  set_key assigned match value with JObject n => default JNull (find_key property n) | _ => JNull end
    (set_key variable (touch property value) data).

Lemma project_key_variable data value :
  find_key variable data = Some value -> (value = JNull \/ exists n, value = JObject n) ->
  project_key operand variable data = Ret (projected value data).
Proof.
  intros Hf Hv. unfold project_key, is_key. cbn. rewrite String.eqb_refl. cbn. rewrite Hf. cbn.
  by destruct Hv as [->|[n ->]].
Qed.

Lemma project_items_after fuel key data :
  string_ltb variable key = true -> (length (later key data) < fuel)%nat ->
  project_items fuel operand key data = Ret data.
Proof.
  revert key. induction fuel as [|fuel IH]; intros key Hk Hf; [lia|]. cbn [project_items].
  rewrite project_key_other by (intros ->; by rewrite string_ltb_irrefl in Hk). cbn [mbind outcome_bind].
  destruct (next_key key data) as [k|] eqn:E; [|done]. destruct (next_key_later _ _ _ E) as [H1 H2].
  apply IH; [by eapply string_ltb_trans|lia].
Qed.

Lemma project_items_before fuel key data value :
  keys_sorted data = true -> find_key variable data = Some value ->
  (value = JNull \/ exists n, value = JObject n) ->
  key = variable \/ string_ltb key variable = true -> (length (later key data) + 3 <= fuel)%nat ->
  project_items fuel operand key data = Ret (projected value data).
Proof.
  intros Hs Hf Hv. revert key. induction fuel as [|fuel IH]; intros key Hk Hfuel; [lia|]. cbn [project_items].
  destruct Hk as [->|Hk].
  - rewrite (project_key_variable _ _ Hf Hv). cbn [mbind outcome_bind].
    destruct (next_key variable (projected value data)) as [k|] eqn:E; [|done].
    destruct (next_key_later _ _ _ E) as [H1 H2]. apply project_items_after; [done|].
    assert (length (later variable (projected value data)) <= length (later variable data) + 2)%nat; [|lia].
    unfold projected. etrans; [apply later_set_key|]. pose proof (later_set_key variable variable (touch property value) data). lia.
  - rewrite project_key_other by (intros ->; by rewrite string_ltb_irrefl in Hk). cbn [mbind outcome_bind].
    destruct (next_key_some _ _ _ Hk (mk_is_Some _ _ Hf)) as [k E]. rewrite E.
    destruct (next_key_later _ _ _ E) as [H1 H2]. apply IH; [|lia].
    by eapply next_key_least.
Qed.

(** The first key is not after the variable. *)
Lemma project_operand_column data value :
  keys_sorted data = true -> find_key variable data = Some value ->
  (value = JNull \/ exists n, value = JObject n) ->
  project_operand operand data = Ret (projected value data).
Proof.
  intros Hs Hf Hv. destruct data as [|[k v] data]; [done|]. unfold project_operand.
  apply project_items_before; try done.
  - cbn in Hs, Hf. apply andb_true_iff in Hs as [Hs _]. rewrite forallb_elem in Hs.
    destruct (String.eqb_spec variable k) as [->|]; [by left|right].
    apply find_key_elem in Hf. by apply (Hs (variable, value)).
  - pose proof (length_filter (fun kv : string * json => string_ltb k kv.1 = true) ((k, v) :: data)).
    unfold later. cbn [length] in *. lia.
Qed.
End column.

(** ** Several columns *)

(** A property of a node, null when it is absent. *)
Definition property_of (n : list (string * json)) (p : string) : json := default JNull (find_key p n).

Record column := mkColumn { c_variable : string; c_property : string; c_assign : string }.

Definition column_json (c : column) : json := lookup_column (c_variable c) (c_property c) (c_assign c).

Lemma touch_property p n : exists n', touch p (JObject n) = JObject n' /\ forall q, property_of n' q = property_of n q.
Proof.
  cbn. destruct (find_key p n) eqn:E; [by exists n|]. eexists. split; [done|]. intros q. unfold property_of.
  destruct (decide (p = q)) as [<-|]; [by rewrite find_set_key, E|by rewrite find_set_key_ne].
Qed.

Lemma projected_sorted c value data :
  keys_sorted data = true -> keys_sorted (projected (c_variable c) (c_property c) (c_assign c) value data) = true.
Proof. intros H. unfold projected. by do 2 apply set_key_sorted. Qed.

Lemma projected_assigned c n data :
  find_key (c_assign c) (projected (c_variable c) (c_property c) (c_assign c) (JObject n) data) =
  Some (property_of n (c_property c)).
Proof. unfold projected. by rewrite find_set_key. Qed.

Lemma projected_other c value data k :
  k <> c_assign c -> k <> c_variable c ->
  find_key k (projected (c_variable c) (c_property c) (c_assign c) value data) = find_key k data.
Proof. intros. unfold projected. by rewrite !find_set_key_ne. Qed.

(** Nodes keep their properties. *)
Lemma projected_node c n data v m :
  find_key (c_variable c) data = Some (JObject n) -> v <> c_assign c -> find_key v data = Some (JObject m) ->
  exists m', find_key v (projected (c_variable c) (c_property c) (c_assign c) (JObject n) data) = Some (JObject m') /\
    forall q, property_of m' q = property_of m q.
Proof.
  intros Hn Hv Hm. destruct (decide (v = c_variable c)) as [->|Hne].
  - destruct (touch_property (c_property c) n) as (n' & Ht & Hq). exists n'. unfold projected.
    rewrite find_set_key_ne, find_set_key, Ht by congruence. split; [done|]. congruence.
  - exists m. by rewrite projected_other.
Qed.

Definition column_ascii (c : column) : bool :=
  is_ascii (c_variable c) && is_ascii (c_property c) && is_ascii (c_assign c).

Lemma property_of_ok n p : json_ok (JObject n) = true -> json_ok (property_of n p) = true.
Proof. intros Hn. unfold property_of. destruct (find_key p n) eqn:E; [by eapply json_ok_find|done]. Qed.

Lemma projected_ok c n data :
  json_ok (JObject data) = true -> find_key (c_variable c) data = Some (JObject n) -> column_ascii c = true ->
  json_ok (JObject (projected (c_variable c) (c_property c) (c_assign c) (JObject n) data)) = true.
Proof.
  unfold column_ascii. rewrite !andb_true_iff. intros Hd Hf [[Hv Hp] Ha].
  pose proof (json_ok_find _ _ _ Hd Hf) as Hn. unfold projected.
  apply json_ok_set_key; [|done|by apply (property_of_ok n)].
  apply json_ok_set_key; [done|done|]. cbn [touch]. destruct (find_key (c_property c) n); [done|].
  by apply json_ok_set_key.
Qed.

Lemma project_operands_spec cols data :
  keys_sorted data = true ->
  (forall c, c ∈ cols -> exists n, find_key (c_variable c) data = Some (JObject n)) ->
  (forall c c', c ∈ cols -> c' ∈ cols -> c_assign c <> c_variable c') ->
  NoDup (c_assign <$> cols) ->
  exists out, project_operands (column_json <$> cols) data = Ret out /\
    (forall c n, c ∈ cols -> find_key (c_variable c) data = Some (JObject n) ->
       find_key (c_assign c) out = Some (property_of n (c_property c))) /\
    (forall k, (forall c, c ∈ cols -> k <> c_assign c /\ k <> c_variable c) -> find_key k out = find_key k data) /\
    (json_ok (JObject data) = true -> forallb column_ascii cols = true -> json_ok (JObject out) = true) /\
    (forall x m, (forall c, c ∈ cols -> c_assign c <> x) -> find_key x data = Some (JObject m) ->
       exists m', find_key x out = Some (JObject m') /\ forall q, property_of m' q = property_of m q).
Proof.
  revert data. induction cols as [|c cols IH]; intros data Hs Hn Ha Hd.
  { exists data. split_and!; [done| |done|done|by eauto]. intros c n Hc. by apply elem_of_nil in Hc. }
  destruct (Hn c) as [n Hc]; [left|]. cbn in Hd. apply NoDup_cons in Hd as [Hnotin Hd].
  pose (data' := projected (c_variable c) (c_property c) (c_assign c) (JObject n) data).
  assert (forall c' m, c' ∈ cols -> find_key (c_variable c') data = Some (JObject m) ->
    exists m', find_key (c_variable c') data' = Some (JObject m') /\ forall q, property_of m' q = property_of m q) as Hkeep.
  { intros c' m Hc'. apply projected_node; [done|]. intros E. by eapply (Ha c c'); [left|right|]. }
  destruct (IH data') as (out & Hout & Hcols & Hother & Hok & Hnode).
  - by apply projected_sorted.
  - intros c' Hc'. destruct (Hn c') as [m Hm]; [by right|]. destruct (Hkeep _ _ Hc' Hm) as (m' & ? & _). by exists m'.
  - intros c1 c2 H1 H2. apply Ha; by right.
  - done.
  - exists out. split_and!.
    + change (project_operands (column_json <$> c :: cols) data) with
        (d ← project_operand (column_json c) data; project_operands (column_json <$> cols) d).
      assert (project_operand (column_json c) data = Ret data') as ->; [|done].
      apply project_operand_column; [done|done|right; by eexists].
    + intros c' m Hc' Hm. apply elem_of_cons in Hc' as [->|Hc'].
      * rewrite Hother; [|intros c' Hc'; split].
        -- rewrite Hc in Hm. injection Hm as ->. apply projected_assigned.
        -- intros E. apply Hnotin. rewrite E. by apply list_elem_of_fmap_2.
        -- apply Ha; [left|by right].
      * destruct (Hkeep _ _ Hc' Hm) as (m' & Hm' & Hq). rewrite (Hcols _ _ Hc' Hm'). by rewrite Hq.
    + intros k Hk. rewrite Hother by (intros; apply Hk; by right).
      apply projected_other; apply Hk; left.
    + cbn [forallb]. rewrite andb_true_iff. intros Hdata [Hasc Hcs]. apply Hok; [|done]. by eapply projected_ok.
    + intros x m Hx Hm. destruct (projected_node c n data x m Hc) as (m' & Hm' & Hq); [apply not_eq_sym, Hx; left|done|].
      destruct (Hnode x m') as (m'' & ? & Hq'); [intros; apply Hx; by right|done|]. exists m''.
      split; [done|]. intros q. by rewrite Hq', Hq.
Qed.

(** C28. A projection with any number of columns on a row whose variables are
    nodes, when the names of the columns are distinct and not variables: the
    row gets a key for every column, with the value of the property of the
    node, or null when the node does not have it; keys that are neither a
    variable nor a column keep their values, and the node of a variable keeps
    the values of its properties, although a property that it does not have is
    entered into it as null.  That the loop inserts keys into the map it walks
    over changes nothing. *)
Theorem projection_columns cols data :
  keys_sorted data = true ->
  (forall c, c ∈ cols -> exists n, find_key (c_variable c) data = Some (JObject n)) ->
  (forall c c', c ∈ cols -> c' ∈ cols -> c_assign c <> c_variable c') ->
  NoDup (c_assign <$> cols) ->
  exists out, project_operands (column_json <$> cols) data = Ret out /\
    (forall c n, c ∈ cols -> find_key (c_variable c) data = Some (JObject n) ->
       find_key (c_assign c) out = Some (property_of n (c_property c))) /\
    (forall k, (forall c, c ∈ cols -> k <> c_assign c /\ k <> c_variable c) -> find_key k out = find_key k data) /\
    (forall x m, (forall c, c ∈ cols -> c_assign c <> x) -> find_key x data = Some (JObject m) ->
       exists m', find_key x out = Some (JObject m') /\ forall q, property_of m' q = property_of m q).
Proof.
  intros Hs Hn Ha Hd. destruct (project_operands_spec cols data Hs Hn Ha Hd) as (out & ? & ? & ? & _ & ?). by exists out.
Qed.

Definition sample_row : list (string * json) :=
  [("m", JObject [("id", JString "2")]);
   ("n", JObject [("id", JString "1"); ("name", JString "Ann")])].

Lemma projection_columns_witness :
  exists out,
    project_operands (column_json <$> [mkColumn "n" "name" "n.name"; mkColumn "m" "name" "who"]) sample_row = Ret out /\
    find_key "n.name" out = Some (JString "Ann") /\ find_key "who" out = Some JNull.
Proof.
  destruct (projection_columns [mkColumn "n" "name" "n.name"; mkColumn "m" "name" "who"] sample_row)
    as (out & H1 & H2 & _).
  - reflexivity.
  - intros c Hc. rewrite !elem_of_cons in Hc. destruct Hc as [->|[->|Hc]]; [by eexists..|by apply elem_of_nil in Hc].
  - intros c c' Hc Hc'. rewrite !elem_of_cons in Hc, Hc'.
    destruct Hc as [->|[->|Hc]]; [| |by apply elem_of_nil in Hc];
      (destruct Hc' as [->|[->|Hc']]; [discriminate|discriminate|by apply elem_of_nil in Hc']).
  - by apply (bool_decide_eq_true (NoDup _)).
  - exists out. split; [exact H1|]. split.
    + exact (H2 (mkColumn "n" "name" "n.name") _ ltac:(left) eq_refl).
    + exact (H2 (mkColumn "m" "name" "who") _ ltac:(right; left) eq_refl).
Defined.
