(* ===== verification/CypherScans.v ===== *)
(** * CypherScans: the operators that read the store

    The scans of OperatorExecutor.cpp on the native store of a partition:
    nodes (all, by label, by id) and relationships (of a type or all, directed
    or not), one after the other or, for large partitions, in chunks on the
    thread pool.  A scan gives the list of rows it adds before "-1".  The
    manager is the one the operator opens; every worker thread opens the same
    files for itself. *)
From Stdlib Require Import ZArith Ascii String Lia.
From stdpp Require Import base tactics numbers list strings gmap.
From S2P Require Import Prelude FStream PropertyLinks NodeBlock RelationBlock NodeRelations NodeManager.
From S2P Require Import Json ParallelExecutor.

(** Read a key of the plan as a string. *)
Definition plan_string {S} (k : string) (query : json) : M S string :=
  lift (v ← index k query; as_string v).

(** [for (auto property : properties) data[property.first] = property.second;] *)
Definition fill (data : list (string * json)) (ps : gmap string string) : list (string * json) :=
  foldl (fun d kv => set_key kv.1 (JString kv.2) d) data (map_to_list ps).

(** A C string member read into a [std::string]. *)
Definition link_text {S} (l : option Link) : M S string := l ← determinate l; determinate (cstring (value l)).

(** [std::string(node->getMetaPropertyHead()->value)]: the partition of a node. *)
Definition node_partition (n : NodeBlock) : M store string := l ← getMetaPropertyHead n; link_text l.

(** [extractNodeDataAndCleanup] *)
Definition extractNodeData (n : NodeBlock) : M store (list (string * json)) :=
  pid ← node_partition n;
  ps ← NodeBlock_getAllProperties n;
  mret (fill [("partitionID", JString pid)] ps).

Section scans.
Context {HM : HostMemory} `{JT : JsonText}.
Context (partitionID : Z).

Definition pid_text : string := show_long partitionID.

(** ** Nodes *)

(** The object of a node of this partition; [wanted] is the label asked for. *)
Definition scan_object (wanted : option string) (n : NodeBlock) : M store (option json) :=
  lbl ← match wanted with Some _ => l ← getLabel n; mret (Some l) | None => mret None end;
  pid ← node_partition n;
  if bool_decide (pid = pid_text) && bool_decide (lbl = wanted) then
    ps ← NodeBlock_getAllProperties n;
    mret (Some (JObject (fill [("partitionID", JString pid)] ps)))
  else mret None.

(** The body of the loop of [AllNodeScan]. *)
Definition scan_node (query : json) (nodeId : string) : M manager (list string) :=
  o ← getNode nodeId; n ← determinate o;
  d ← on_store (scan_object None n);
  match d with
  | Some nodeData => variable ← plan_string "variables" query; mret [dump (JObject [(variable, nodeData)])]
  | None => mret []
  end.

Definition AllNodeScan_sequential (query : json) (ids : list string) : M manager (list string) :=
  rows ← for_ids ids (scan_node query); mret (concat rows).

Definition label_node (query : json) (nodeId : string) : M manager (list string) :=
  o ← getNode nodeId; n ← determinate o;
  target ← plan_string "Label" query;
  d ← on_store (scan_object (Some target) n);
  match d with
  | Some nodeData => variable ← plan_string "variable" query; mret [dump (JObject [(variable, nodeData)])]
  | None => mret []
  end.

Definition NodeScanByLabel_sequential (query : json) (ids : list string) : M manager (list string) :=
  rows ← for_ids ids (label_node query); mret (concat rows).

Definition NodeByIdSeek (query : json) : M manager (list string) :=
  nid ← plan_string "id" query;
  o ← getNode nid;
  match o with
  | None => mret []
  | Some n =>
      d ← on_store (scan_object None n);
      match d with
      | Some nodeData => variable ← plan_string "variable" query; mret [dump (JObject [(variable, nodeData)])]
      | None => mret []
      end
  end.

(** *** In chunks *)

Fixpoint for_items {A} (l : list A) (f : A -> M store (list string)) : M store (list string) :=
  match l with
  | [] => mret []
  | x :: r => a ← f x; b ← for_items r f; mret (a ++ b)
  end.

(** The entries of a chunk, within the vector of all entries. *)
Definition chunk_entries (nodeIndices : list (string * Z)) (c : WorkChunk) : list (string * Z) :=
  let first := Z.max 0 (startIndex c) in
  let last := Z.min (Z.of_nat (length nodeIndices) - 1) (endIndex c) in
  omap (fun i => nodeIndices !! Z.to_nat i) (seqZ first (last - first + 1)).

Definition processNodeScanChunk (nodeIndices : list (string * Z)) (variable : string) (c : WorkChunk)
    : M store (list string) :=
  for_items (chunk_entries nodeIndices c) (fun e =>
    n ← getByIndex e.2 e.1;
    d ← scan_object None n;
    mret (match d with Some nodeData => [dump (JObject [(variable, nodeData)])] | None => [] end)).

(** The rows of a label scan in chunks lack the variable. *)
Definition processNodeByLabelChunk (nodeIndices : list (string * Z)) (targetLabel : string) (c : WorkChunk)
    : M store (list string) :=
  for_items (chunk_entries nodeIndices c) (fun e =>
    n ← getByIndex e.2 e.1;
    d ← scan_object (Some targetLabel) n;
    mret (match d with Some nodeData => [dump nodeData] | None => [] end)).

(** The results of the chunks in order; [threads] gives the files each chunk's
    thread has open.  What one of them does not return, the call does not. *)
Definition in_chunks (workers : Z) (threads : WorkChunk -> store) (total : Z)
    (f : WorkChunk -> M store (list string)) : outcome (list string) :=
  chunkSize ← calculateOptimalChunkSize total workers;
  chunks ← createWorkChunks total chunkSize;
  results ← traverse (fun c => (f c (threads c)).1) chunks;
  Ret (concat results).

Definition AllNodeScanParallel (workers : Z) (threads : WorkChunk -> store) (query : json)
    (nodeIndices : list (string * Z)) : outcome (list string) :=
  v ← index "variables" query; variable ← as_string v;
  in_chunks workers threads (Z.of_nat (length nodeIndices)) (processNodeScanChunk nodeIndices variable).

Definition NodeScanByLabelParallel (workers : Z) (threads : WorkChunk -> store) (query : json)
    (nodeIndices : list (string * Z)) : outcome (list string) :=
  v ← index "Label" query; targetLabel ← as_string v;
  in_chunks workers threads (Z.of_nat (length nodeIndices)) (processNodeByLabelChunk nodeIndices targetLabel).

Definition NODES_PER_WORKER_THRESHOLD : Z := 125.

Definition getNodeParallelThreshold (workers : Z) : Z := u64 (NODES_PER_WORKER_THRESHOLD * workers).

(** A scan that falls back to the loop when the parallel version throws. *)
Definition scan_or_fall_back (workers : Z) (nodeCount : Z) (par : outcome (list string))
    (seq : M manager (list string)) : M manager (list string) :=
  if (getNodeParallelThreshold workers <? nodeCount) && shouldUseParallelProcessing nodeCount workers then
    match par with Throw _ => seq | o => lift o end
  else seq.

(** The index in the order of its iteration. *)
Definition AllNodeScan (workers : Z) (threads : WorkChunk -> store) (query : json)
    (entries : list (string * Z)) : M manager (list string) :=
  scan_or_fall_back workers (Z.of_nat (length entries))
    (AllNodeScanParallel workers threads query entries) (AllNodeScan_sequential query (entries.*1)).

Definition NodeScanByLabel (workers : Z) (threads : WorkChunk -> store) (query : json)
    (entries : list (string * Z)) : M manager (list string) :=
  scan_or_fall_back workers (Z.of_nat (length entries))
    (NodeScanByLabelParallel workers threads query entries) (NodeScanByLabel_sequential query (entries.*1)).

(** ** Relationships *)

(** Whether the graph is directed; Utils::getGraphDirection asks the master. *)
Context (isDirected : bool).

Definition relation_partition (r : RelationBlock) : M store string :=
  l ← on_metaEdgeProps (@get MetaPropertyEdgeLink (metaPropertyAddress r)); link_text l.

(** [relation->get..RelationshipType() != query["relType"]] *)
Definition other_type (k : kind) (query : json) (r : RelationBlock) : M store bool :=
  t ← getRelationshipType k r;
  wanted ← lift (index "relType" query);
  mret (negb (json_eqb (JString t) wanted)).

(** The two nodes and the relation as objects. *)
Definition relation_objects (r : RelationBlock) : M store (json * json * json) :=
  sn ← determinate (getSource r); dn ← determinate (getDestination r);
  s ← extractNodeData sn; d ← extractNodeData dn;
  ps ← RelationBlock_getAllProperties r;
  mret (JObject s, JObject d, match fill [] ps with [] => JNull | m => JObject m end).

(** The rows of an undirected scan. *)
Definition undirected_rows (query : json) (objects : json * json * json) : outcome (list string) :=
  let '(s, d, r) := objects in
  st ← index "sourceVariable" query; start ← as_string st;
  de ← index "destVariable" query; dest ← as_string de;
  re ← index "relVariable" query; rel ← as_string re;
  let row a b := dump (JObject (set_key rel r (set_key dest b (set_key start a [])))) in
  Ret (row s d :: if isDirected then [] else [row d s]).

(** The row of a directed scan: towards the left in a directed graph it has
    only the relationship. *)
Definition directed_row (query : json) (objects : json * json * json) : outcome (list string) :=
  let '(s, d, r) := objects in
  st ← index "sourceVariable" query; start ← as_string st;
  de ← index "destVariable" query; dest ← as_string de;
  re ← index "relVariable" query; rel ← as_string re;
  dir ← index "direction" query;
  let nodes := if json_eqb dir (JString "right") then set_key dest d (set_key start s [])
               else if isDirected then [] else set_key dest s (set_key start d []) in
  Ret [dump (JObject (set_key rel r nodes))].

(** One relation block: which tests a scan makes before it takes the row. *)
Record relation_tests := mkTests { by_type : bool; by_partition : bool; by_start : bool }.

Definition scan_relation (k : kind) (tests : relation_tests) (query : json)
    (rows : json * json * json -> outcome (list string)) (i : Z) : M store (list string) :=
  o ← getRelation k (u32 (i * BLOCK_SIZE k)); r ← determinate o;
  skip ← (if by_type tests then other_type k query r else mret false);
  if skip : bool then mret [] else
  away ← (if by_partition tests then p ← relation_partition r; mret (negb (bool_decide (p = pid_text)))
          else mret false);
  if away : bool then mret [] else
  elsewhere ← (if by_start tests
               then sn ← determinate (getSource r); p ← node_partition sn; mret (negb (bool_decide (p = pid_text)))
               else mret false);
  if elsewhere : bool then mret [] else
  objects ← relation_objects r;
  lift (rows objects).

(** [nodeManager.dbSize(..) / BLOCK_SIZE], and [for (long i = 1; i < count; i++)]. *)
Definition relation_blocks (k : kind) (s : store) : Z :=
  s64 (u64 (dbSize (fs_data (rel_file k s))) / BLOCK_SIZE k).

Definition scan_kind (k : kind) (tests : relation_tests) (query : json)
    (rows : json * json * json -> outcome (list string)) : M store (list string) :=
  s ← get_state;
  for_items (seqZ 1 (relation_blocks k s - 1)) (scan_relation k tests query rows).

Definition scan_both (local central : relation_tests) (query : json)
    (rows : json * json * json -> outcome (list string)) : M store (list string) :=
  a ← scan_kind Local local query rows;
  b ← scan_kind Central central query rows;
  mret (a ++ b).

Definition UndirectedRelationshipTypeScan (query : json) : M store (list string) :=
  scan_both (mkTests true false false) (mkTests true true true) query (undirected_rows query).

Definition UndirectedAllRelationshipScan (query : json) : M store (list string) :=
  scan_both (mkTests false false false) (mkTests false true false) query (undirected_rows query).

Definition DirectedRelationshipTypeScan (query : json) : M store (list string) :=
  plan_string "direction" query;;
  scan_both (mkTests true false false) (mkTests true true false) query (directed_row query).

(** The local relations are compared with a type the plan does not have. *)
Definition DirectedAllRelationshipScan_sequential (query : json) : M store (list string) :=
  plan_string "direction" query;;
  scan_both (mkTests true false false) (mkTests false true false) query (directed_row query).

(** [processRelationshipChunk]: the blocks from [startIndex] on. *)
Definition processRelationshipChunk (query : json) (maxRelations : Z) (c : WorkChunk) : M store (list string) :=
  for_items (filter (fun i => i < maxRelations) (items c))
    (scan_relation Local (mkTests true false false) query (directed_row query)).

Definition DirectedAllRelationshipScanParallel (workers : Z) (threads : WorkChunk -> store) (query : json)
    : M store (list string) :=
  s ← get_state;
  let localRelationCount := relation_blocks Local s in
  a ← lift (if 0 <? localRelationCount
            then in_chunks workers threads (localRelationCount - 1)
                   (processRelationshipChunk query localRelationCount)
            else Ret []);
  b ← scan_kind Central (mkTests true true true) query (directed_row query);
  mret (a ++ b).

Definition RELATIONS_PER_WORKER_THRESHOLD : Z := 12500.

Definition getRelationParallelThreshold (workers : Z) : Z := u64 (RELATIONS_PER_WORKER_THRESHOLD * workers).

Definition DirectedAllRelationshipScan (workers : Z) (threads : WorkChunk -> store) (query : json)
    : M store (list string) := fun s =>
  let localRelationCount := relation_blocks Local s in
  if (getRelationParallelThreshold workers <? u64 localRelationCount) &&
     shouldUseParallelProcessing (u64 localRelationCount) workers then
    match DirectedAllRelationshipScanParallel workers threads query s with
    | (Throw _, s) => DirectedAllRelationshipScan_sequential query s
    | r => r
    end
  else DirectedAllRelationshipScan_sequential query s.
End scans.
