(* ===== verification/ScanTheory.v ===== *)
(** * ScanTheory: what the scans find

    Node scans give one row for every node of the partition, with its
    partition and its properties, and in chunks on the thread pool they give
    the same rows as in a loop; two of the parallel scans do not agree with
    their loops, and the directed scan of all relationships misses the local
    ones. *)
From Stdlib Require Import ZArith Ascii String Lia.
From stdpp Require Import base tactics numbers list strings gmap.
From S2P Require Import Prelude FStream PropertyLinks PropertyLinkTheory NodeBlock RelationBlock NodeRelations.
From S2P Require Import NodeManager GraphFiles GraphTheory ManagerTheory ManagerQueries.
From S2P Require Import Json ParallelExecutor CypherScans.

(** ** Reading a node *)

Section links.
Context {C : LinkClass} {OK : LinkClassOk C}.

Lemma get_first s bs a i nm v es :
  links_ok s bs -> chain bs a ((i, nm, v) :: es) ->
  exists l s', @get C a s = (Ret (Some l), s') /\ value l = v /\ links_ok s' bs.
Proof.
  intros Hok Hc. destruct (chain_cons_inv _ _ _ _ Hc) as (b & Hb & Hi & -> & He & Hn & _).
  rewrite (links_ok_ready s bs Hok). destruct s as [[d p f] n lc li]. unfold links_ok in *. simpl in *.
  destruct Hok as (_ & _ & _ & Hd & Hx). unfold e_idx, e_name in *. cbn in *.
  destruct (get_run d p n bs _ _ _ Hd Hi Hb Hn) as [p' Hget].
  do 2 eexists. split; [exact Hget|]. split; [cbn; congruence|done].
Qed.
End links.

(** The databases a node scan reads; reading moves only file positions. *)
Record node_store (s : store) (nbs : list (list ascii)) (rbs : kind -> list (list ascii))
    (pbs mbs : list (list ascii)) : Prop := {
  ns_files : files s nbs rbs;
  ns_props : @links_ok PropertyLink (propertiesDB s) pbs;
  ns_meta : @links_ok MetaPropertyLink (metaPropertiesDB s) mbs
}.

(** A node block with its partition and its properties. *)
Definition node_info (pbs mbs : list (list ascii)) (b : list ascii) (pid : string) (ps : gmap string string) : Prop :=
  (exists i nm v es, @chain MetaPropertyLink mbs (nf32 18 b) ((i, nm, v) :: es) /\ cstring v = Some pid) /\
  ((nf32 14 b = 0 /\ ps = ∅) \/
   exists es, es <> [] /\ @chain PropertyLink pbs (nf32 14 b) es /\ readable_values es /\ props es = ps).

Definition node_object (pid : string) (ps : gmap string string) : json :=
  JObject (fill [("partitionID", JString pid)] ps).

Section reading.
Context (nbs : list (list ascii)) (rbs : kind -> list (list ascii)) (pbs mbs : list (list ascii)).

Lemma files_metaLinks s l : files s nbs rbs -> files (set_metaPropertiesDB l s) nbs rbs.
Proof. done. Qed.

Lemma files_propLinks s l : files s nbs rbs -> files (set_propertiesDB l s) nbs rbs.
Proof. done. Qed.

Lemma node_partition_run s nid a b pid ps :
  node_store s nbs rbs pbs mbs -> node_info pbs mbs b pid ps ->
  exists s', node_partition (node_with nid a b) s = (Ret pid, s') /\ node_store s' nbs rbs pbs mbs.
Proof.
  intros [Hf Hp Hm] [(i & nm & v & es & Hc & Hv) _].
  destruct (get_first _ _ _ _ _ _ _ Hm Hc) as (l & l' & Hget & Hl & Hm').
  eexists. split.
  - unfold node_partition, getMetaPropertyHead. erewrite bind_Ret; [|apply zoom_run; exact Hget].
    unfold link_text. erewrite bind_Ret; [|reflexivity]. by rewrite Hl, Hv.
  - by split.
Qed.

Lemma node_properties_run s nid a b pid ps :
  node_store s nbs rbs pbs mbs -> node_info pbs mbs b pid ps ->
  exists s', NodeBlock_getAllProperties (node_with nid a b) s = (Ret ps, s') /\ node_store s' nbs rbs pbs mbs.
Proof.
  intros [Hf Hp Hm] [_ [[Hz ->]|(es & Hne & Hc & Hr & <-)]].
  - exists (set_propertiesDB (propertiesDB s) s). split; [|by split]. unfold NodeBlock_getAllProperties.
    change (propRef (node_with nid a b)) with (nf32 14 b). rewrite Hz. apply zoom_run. unfold get_all, all_properties.
    erewrite bind_Ret; [|rewrite (links_ok_ready (C := PropertyLink) _ _ Hp); by apply (get_null (C := PropertyLink))].
    by rewrite <- (links_ok_ready (C := PropertyLink) _ _ Hp).
  - destruct (all_properties_run (C := PropertyLink) (link_fuel (propertiesDB s)) _ _ _ _ Hp Hc Hne Hr) as (l & Hl & Hp' & _).
    { by eapply (link_fuel_enough (C := PropertyLink)). }
    exists (set_propertiesDB l s). split; [|by split].
    unfold NodeBlock_getAllProperties. change (propRef (node_with nid a b)) with (nf32 14 b).
    apply zoom_run. exact Hl.
Qed.

(** The label a loaded node has. *)
Definition block_label (b : list ascii) : option string :=
  cstring (resize LABEL_SIZE nul (until_nul (nf_label b))).

(** Does a scan for a label take a node? *)
Definition taken (partitionID : Z) (wanted : option string) (pid lbl : string) : bool :=
  bool_decide (pid = pid_text partitionID) && match wanted with Some t => bool_decide (lbl = t) | None => true end.

Lemma scan_object_run partitionID wanted s nid a b pid ps lbl :
  node_store s nbs rbs pbs mbs -> node_info pbs mbs b pid ps -> block_label b = Some lbl ->
  exists s', scan_object partitionID wanted (node_with nid a b) s =
      (Ret (if taken partitionID wanted pid lbl then Some (node_object pid ps) else None), s') /\
    node_store s' nbs rbs pbs mbs.
Proof.
  intros Hs Hi Hl. destruct (node_partition_run s nid a b pid ps Hs Hi) as (s1 & R1 & Hs1).
  destruct (node_properties_run s1 nid a b pid ps Hs1 Hi) as (s2 & R2 & Hs2).
  assert (match wanted with Some _ => l ← getLabel (node_with nid a b); mret (Some l) | None => mret None end s =
    (Ret (match wanted with Some _ => Some lbl | None => None end), s)) as R0.
  { destruct wanted; [|done]. erewrite bind_Ret; [done|]. unfold getLabel.
    change (cstring (label (node_with nid a b))) with (block_label b). by rewrite Hl. }
  unfold taken. destruct (bool_decide (pid = pid_text partitionID)) eqn:E1;
    destruct (bool_decide (match wanted with Some _ => Some lbl | None => None end = wanted)) eqn:E2.
  2,3,4: exists s1; split; [|done]; unfold scan_object; erewrite bind_Ret; [|exact R0];
    erewrite bind_Ret; [|exact R1]; rewrite E1, E2; cbn;
    destruct wanted; try done; apply bool_decide_eq_false in E2; by rewrite bool_decide_eq_false_2 by congruence.
  exists s2. split; [|done]. unfold scan_object. erewrite bind_Ret; [|exact R0].
  erewrite bind_Ret; [|exact R1]. rewrite E1, E2. cbn. erewrite bind_Ret; [|exact R2].
  destruct wanted; [|done]. apply bool_decide_eq_true in E2. by rewrite bool_decide_eq_true_2 by congruence.
Qed.
End reading.

(** ** Loops *)

Lemma for_items_run {A} (I : store -> Prop) (r : A -> list string) (f : A -> M store (list string)) l s :
  I s -> (forall x s, x ∈ l -> I s -> exists s', f x s = (Ret (r x), s') /\ I s') ->
  exists s', for_items l f s = (Ret (concat (r <$> l)), s') /\ I s'.
Proof.
  revert s. induction l as [|x l IH]; intros s Hs Hf; [by exists s|].
  destruct (Hf x s) as (s1 & R1 & H1); [left|done|].
  destruct (IH s1 H1) as (s2 & R2 & H2); [intros; apply Hf; [by right|done]|].
  exists s2. split; [|done]. cbn [for_items]. erewrite bind_Ret; [|exact R1]. by erewrite bind_Ret; [|exact R2].
Qed.

Lemma traverse_Ret {A B} (f : A -> outcome B) (g : A -> B) l :
  (forall x, x ∈ l -> f x = Ret (g x)) -> traverse f l = Ret (g <$> l).
Proof.
  induction l as [|x l IH]; intros H; [done|]. cbn. rewrite (H x) by left. cbn.
  by rewrite IH by (intros; apply H; by right).
Qed.

Section chunked.
Context {A : Type} (l : list A).

Lemma omap_lookup_seqZ (k n : nat) :
  (k + n <= length l)%nat -> omap (fun i => l !! Z.to_nat i) (seqZ (Z.of_nat k) (Z.of_nat n)) = take n (drop k l).
Proof.
  revert k. induction n as [|n IH]; intros k Hk; [done|].
  rewrite Nat2Z.inj_succ, seqZ_cons by lia. destruct (lookup_lt_is_Some_2 l k) as [x Hx]; [lia|].
  rewrite (drop_S _ _ _ Hx). cbn. rewrite Nat2Z.id, Hx. f_equal.
  rewrite <- (IH (S k)) by lia. f_equal. f_equal; lia.
Qed.

Lemma omap_all : omap (fun i => l !! Z.to_nat i) (seqZ 0 (Z.of_nat (length l))) = l.
Proof. rewrite (omap_lookup_seqZ 0) by lia. by rewrite firstn_all. Qed.
End chunked.

Lemma omap_concat {A B} (f : A -> option B) (ls : list (list A)) :
  omap f (concat ls) = concat ((fun l : list A => omap f l) <$> ls).
Proof.
  induction ls as [|x ls IH]; [done|]. cbn [concat fmap list_fmap]. rewrite <- IH.
  induction x as [|a x IHx]; [done|]. cbn. destruct (f a); cbn; by rewrite IHx.
Qed.

Lemma in_chunks_run workers threads total f (r : WorkChunk -> list string) :
  0 <= total < 4611686018427387904 -> 1 <= workers < 2147483648 ->
  (forall c, 0 <= startIndex c -> endIndex c < total -> (f c (threads c)).1 = Ret (r c)) ->
  exists chunks, in_chunks workers threads total f = Ret (concat (r <$> chunks)) /\
    Forall (fun c => 0 <= startIndex c /\ endIndex c < total) chunks /\
    concat (items <$> chunks) = seqZ 0 total.
Proof.
  intros Ht Hw Hf. destruct (calculateOptimalChunkSize_range total workers) as (size & Hsize & Hr); [lia..|].
  destruct (chunk_loop_spec (Z.to_nat total) 0 total size) as (cs & Hcs & Hitems & Hall); [lia..|].
  exists cs. unfold in_chunks, createWorkChunks. rewrite Hsize. cbn. rewrite Hcs. cbn.
  rewrite Forall_forall in Hall.
  rewrite (traverse_Ret _ r) by (intros c Hc; apply Hall in Hc as (? & _ & ?); by apply Hf).
  split_and!; [done| |by rewrite Hitems, Z.sub_0_r].
  apply Forall_forall. intros c Hc. by apply Hall in Hc as (? & _ & ?).
Qed.

(** ** Node scans *)

(** A node of the index, with what the databases say about it. *)
Record listed := mkListed {
  l_id : string;
  l_index : nat;
  l_partition : string;
  l_label : string;
  l_props : gmap string string
}.

Definition entry_of (d : listed) : string * Z := (l_id d, Z.of_nat (l_index d)).

Definition describes (nbs pbs mbs : list (list ascii)) (d : listed) : Prop :=
  exists b, nbs !! l_index d = Some b /\ nul ∈ nf_label b /\ naddress (l_index d) < 4294967296 /\
    block_label b = Some (l_label d) /\ node_info pbs mbs b (l_partition d) (l_props d).

Section node_scans.
Context {HM : HostMemory} `{JT : JsonText} (partitionID : Z).
Context (nbs : list (list ascii)) (rbs : kind -> list (list ascii)) (pbs mbs : list (list ascii)).

(** The object of a node that a scan takes. *)
Definition found (wanted : option string) (d : listed) : option json :=
  if taken partitionID wanted (l_partition d) (l_label d)
  then Some (node_object (l_partition d) (l_props d)) else None.

(** A row with the node as the value of a variable. *)
Definition node_row (variable : string) (wanted : option string) (d : listed) : list string :=
  match found wanted d with Some j => [dump (JObject [(variable, j)])] | None => [] end.

(** A row that is the node itself. *)
Definition bare_row (wanted : option string) (d : listed) : list string :=
  match found wanted d with Some j => [dump j] | None => [] end.

Lemma entry_run s d wanted :
  node_store s nbs rbs pbs mbs -> describes nbs pbs mbs d ->
  exists n s1 s2, getByIndex (Z.of_nat (l_index d)) (l_id d) s = (Ret n, s1) /\
    scan_object partitionID wanted n s1 = (Ret (found wanted d), s2) /\ node_store s2 nbs rbs pbs mbs.
Proof.
  intros Hs (b & Hb & Hnul & Ha & Hl & Hi). pose proof Hs as [Hf Hp Hm].
  destruct (getByIndex_run s nbs rbs _ b (l_id d) Hf Hb Hnul Ha) as (s1 & R1 & Hf1 & Hl1).
  assert (node_store s1 nbs rbs pbs mbs) as Hs1.
  { destruct Hl1 as (E1 & E2 & _). split; [done|by rewrite E1|by rewrite E2]. }
  destruct (scan_object_run nbs rbs pbs mbs partitionID wanted s1 (l_id d) (naddress (l_index d)) b _ _ _ Hs1 Hi Hl)
    as (s2 & R2 & Hs2). by exists (node_with (l_id d) (naddress (l_index d)) b), s1, s2.
Qed.

Lemma chunk_entries_items ds c :
  0 <= startIndex c -> endIndex c < Z.of_nat (length ds) ->
  chunk_entries (entry_of <$> ds) c = entry_of <$> omap (fun i => ds !! Z.to_nat i) (items c).
Proof.
  intros H1 H2. unfold chunk_entries, items. rewrite length_fmap, Z.max_r, Z.min_r by lia.
  induction (seqZ _ _) as [|i l IH]; [done|]. cbn. rewrite list_lookup_fmap.
  destruct (ds !! Z.to_nat i); cbn; by rewrite IH.
Qed.

(** The rows of the chunks, put together, are the rows of all entries. *)
Lemma chunk_rows (ds : list listed) (r : listed -> list string) chunks :
  concat (items <$> chunks) = seqZ 0 (Z.of_nat (length ds)) ->
  concat ((fun c => concat (r <$> omap (fun i => ds !! Z.to_nat i) (items c))) <$> chunks) = concat (r <$> ds).
Proof.
  intros H.
  transitivity (concat (r <$> omap (fun i => ds !! Z.to_nat i) (seqZ 0 (Z.of_nat (length ds))))).
  - rewrite <- H, omap_concat, <- concat_concat. by rewrite <- !list_fmap_compose.
  - by rewrite omap_all.
Qed.

Lemma chunks_run workers threads ds (r : listed -> list string) f :
  1 <= workers < 2147483648 -> Z.of_nat (length ds) < 4611686018427387904 ->
  (forall c, node_store (threads c) nbs rbs pbs mbs) ->
  (forall d s, d ∈ ds -> node_store s nbs rbs pbs mbs ->
     exists s', f (entry_of d) s = (Ret (r d), s') /\ node_store s' nbs rbs pbs mbs) ->
  in_chunks workers threads (Z.of_nat (length (entry_of <$> ds)))
    (fun c => for_items (chunk_entries (entry_of <$> ds) c) f) = Ret (concat (r <$> ds)).
Proof.
  intros Hw Hlen Ht Hf. rewrite length_fmap.
  destruct (in_chunks_run workers threads (Z.of_nat (length ds))
      (fun c => for_items (chunk_entries (entry_of <$> ds) c) f)
      (fun c => concat (r <$> omap (fun i => ds !! Z.to_nat i) (items c)))) as (chunks & -> & _ & Hc); [lia|done| |].
  - intros c H1 H2. rewrite chunk_entries_items by done.
    assert (forall x, x ∈ omap (fun i => ds !! Z.to_nat i) (items c) -> x ∈ ds) as Hsub.
    { intros x (i & _ & Hi)%list_elem_of_omap. by eapply list_elem_of_lookup_2. }
    set (xs := omap _ _) in *. clearbody xs.
    assert (forall s, node_store s nbs rbs pbs mbs ->
      exists s', for_items (entry_of <$> xs) f s = (Ret (concat (r <$> xs)), s') /\ node_store s' nbs rbs pbs mbs) as Hrun.
    { induction xs as [|x xs IH]; intros s Hs; [by exists s|].
      destruct (Hf x s) as (s1 & R1 & H1'); [apply Hsub; left|done|].
      destruct (IH ltac:(intros; apply Hsub; by right) s1 H1') as (s2 & R2 & H2').
      exists s2. split; [|done]. cbn [for_items fmap list_fmap]. erewrite bind_Ret; [|exact R1].
      by erewrite bind_Ret; [|exact R2]. }
    by destruct (Hrun _ (Ht c)) as (s' & -> & _).
  - by rewrite chunk_rows.
Qed.

(** The manager a scan has opened, with the nodes of its index. *)
Definition opened (m : manager) (ds : list listed) : Prop :=
  node_store (dbs m) nbs rbs pbs mbs /\
  Forall (fun d => describes nbs pbs mbs d /\ nodeIndex m !! l_id d = Some (Z.of_nat (l_index d))) ds.

Lemma getNode_object m ds d wanted :
  opened m ds -> d ∈ ds ->
  exists n m1 m2, getNode (l_id d) m = (Ret (Some n), m1) /\
    on_store (scan_object partitionID wanted n) m1 = (Ret (found wanted d), m2) /\ opened m2 ds.
Proof.
  intros [Hs Hds] Hd. pose proof Hds as Hds'. rewrite Forall_forall in Hds'. destruct (Hds' _ Hd) as [Hdesc Hidx].
  destruct (entry_run _ _ wanted Hs Hdesc) as (n & s1 & s2 & R1 & R2 & Hs2).
  exists n, (set_dbs s1 m), (set_dbs s2 (set_dbs s1 m)). split_and!.
  - unfold getNode. erewrite bind_Ret; [|reflexivity]. rewrite Hidx.
    erewrite bind_Ret; [|apply zoom_run; exact R1]. done.
  - apply zoom_run. exact R2.
  - split; [exact Hs2|]. exact Hds.
Qed.

Lemma for_listed (f : string -> M manager (list string)) (r : listed -> list string) ds m :
  (forall d m, d ∈ ds -> opened m ds -> exists m', f (l_id d) m = (Ret (r d), m') /\ opened m' ds) ->
  opened m ds ->
  exists m', (rows ← for_ids ((entry_of <$> ds).*1) f; mret (concat rows)) m = (Ret (concat (r <$> ds)), m') /\ opened m' ds.
Proof.
  intros Hf Hm. assert (forall xs, (forall x, x ∈ xs -> x ∈ ds) -> forall m, opened m ds ->
    exists m', for_ids ((entry_of <$> xs).*1) f m = (Ret (r <$> xs), m') /\ opened m' ds) as Hrun.
  { induction xs as [|x xs IH]; intros Hsub m0 Hm0; [by exists m0|].
    destruct (Hf x m0) as (m1 & R1 & H1); [apply Hsub; left|done|].
    destruct (IH ltac:(intros; apply Hsub; by right) m1 H1) as (m2 & R2 & H2).
    exists m2. split; [|done]. cbn [for_ids fmap list_fmap]. erewrite bind_Ret; [|exact R1].
    by erewrite bind_Ret; [|exact R2]. }
  destruct (Hrun ds (fun _ H => H) m Hm) as (m' & R & H'). exists m'. split; [|done].
  by erewrite bind_Ret; [|exact R].
Qed.

Lemma node_scan_sequential query variable ds m :
  index "variables" query = Ret (JString variable) -> opened m ds ->
  exists m', AllNodeScan_sequential partitionID query ((entry_of <$> ds).*1) m =
    (Ret (concat (node_row variable None <$> ds)), m') /\ opened m' ds.
Proof.
  intros Hq. apply for_listed. intros d m0 Hd Hm0.
  destruct (getNode_object m0 ds d None Hm0 Hd) as (n & m1 & m2 & R1 & R2 & H2).
  exists m2. split; [|done]. unfold scan_node. erewrite bind_Ret; [|exact R1].
  erewrite bind_Ret; [|reflexivity]. erewrite bind_Ret; [|exact R2]. unfold node_row.
  destruct (found None d); [|done]. erewrite bind_Ret; [done|]. unfold plan_string, lift. by rewrite Hq.
Qed.

Lemma node_scan_parallel workers threads query variable ds :
  index "variables" query = Ret (JString variable) ->
  1 <= workers < 2147483648 -> Z.of_nat (length ds) < 4611686018427387904 ->
  (forall c, node_store (threads c) nbs rbs pbs mbs) -> Forall (describes nbs pbs mbs) ds ->
  AllNodeScanParallel partitionID workers threads query (entry_of <$> ds) =
    Ret (concat (node_row variable None <$> ds)).
Proof.
  intros Hq Hw Hlen Ht Hds. unfold AllNodeScanParallel. rewrite Hq. cbn [mbind outcome_bind as_string].
  apply chunks_run; try done. intros d s Hd Hs. rewrite Forall_forall in Hds.
  destruct (entry_run s d None Hs (Hds _ Hd)) as (n & s1 & s2 & R1 & R2 & H2).
  exists s2. split; [|done]. cbn. erewrite bind_Ret; [|exact R1]. by erewrite bind_Ret; [|exact R2].
Qed.

Lemma node_scan_rows workers threads query variable ds m :
  index "variables" query = Ret (JString variable) -> opened m ds ->
  1 <= workers < 2147483648 -> Z.of_nat (length ds) < 4611686018427387904 ->
  (forall c, node_store (threads c) nbs rbs pbs mbs) ->
  exists m', AllNodeScan partitionID workers threads query (entry_of <$> ds) m =
    (Ret (concat (node_row variable None <$> ds)), m') /\ opened m' ds.
Proof.
  intros Hq Hm Hw Hlen Ht. unfold AllNodeScan, scan_or_fall_back.
  destruct (_ && _); [|by apply node_scan_sequential].
  rewrite (node_scan_parallel _ _ _ variable) by (done || (destruct Hm as [_ Hds]; eapply Forall_impl; [exact Hds|]; by intros ? [? _])).
  exists m. by split.
Qed.

(** C27. MATCH (n): the scan of all nodes gives, in the order of the index, one
    row for every node that the partition owns, with the node's partition and
    all its properties under the variable of the query, and no row for the
    copies of other partitions' nodes; below the threshold in a loop, above it
    in chunks on any number of threads, the rows are the same. *)
Theorem all_node_scan_rows workers threads query variable ds m :
  index "variables" query = Ret (JString variable) -> opened m ds ->
  1 <= workers < 2147483648 -> Z.of_nat (length ds) < 4611686018427387904 ->
  (forall c, node_store (threads c) nbs rbs pbs mbs) ->
  exists m', AllNodeScan partitionID workers threads query (entry_of <$> ds) m =
    (Ret (concat (node_row variable None <$> ds)), m') /\ opened m' ds.
Proof. apply node_scan_rows. Qed.

(** MATCH (n:Label): in a loop the scan gives the nodes of the partition
    with that label as values of the query's variable; in chunks it gives the
    same nodes, but as rows of their own, without the variable. *)
Theorem label_scan_rows workers threads query variable target ds m :
  index "variable" query = Ret (JString variable) -> index "Label" query = Ret (JString target) ->
  opened m ds -> 1 <= workers < 2147483648 -> Z.of_nat (length ds) < 4611686018427387904 ->
  (forall c, node_store (threads c) nbs rbs pbs mbs) ->
  (exists m', NodeScanByLabel_sequential partitionID query ((entry_of <$> ds).*1) m =
    (Ret (concat (node_row variable (Some target) <$> ds)), m')) /\
  NodeScanByLabelParallel partitionID workers threads query (entry_of <$> ds) =
    Ret (concat (bare_row (Some target) <$> ds)).
Proof.
  intros Hv Hl Hm Hw Hlen Ht. split.
  - destruct (for_listed (label_node partitionID query) (node_row variable (Some target)) ds m) as (m' & R & _); [|done|by exists m'].
    intros d m0 Hd Hm0. destruct (getNode_object m0 ds d (Some target) Hm0 Hd) as (n & m1 & m2 & R1 & R2 & H2).
    exists m2. split; [|done]. unfold label_node. erewrite bind_Ret; [|exact R1].
    erewrite bind_Ret; [|reflexivity]. erewrite bind_Ret; [|unfold plan_string, lift; by rewrite Hl].
    erewrite bind_Ret; [|exact R2]. unfold node_row.
    destruct (found (Some target) d); [|done]. erewrite bind_Ret; [done|]. unfold plan_string, lift. by rewrite Hv.
  - unfold NodeScanByLabelParallel. rewrite Hl. cbn [mbind outcome_bind as_string].
    apply chunks_run; try done. intros d s Hd Hs. destruct Hm as [_ Hds]. rewrite Forall_forall in Hds.
    destruct (entry_run s d (Some target) Hs (proj1 (Hds _ Hd))) as (n & s1 & s2 & R1 & R2 & H2).
    exists s2. split; [|done]. cbn. erewrite bind_Ret; [|exact R1]. by erewrite bind_Ret; [|exact R2].
Qed.
End node_scans.

(** ** Relationship scans *)

Section relation_scans.
Context {HM : HostMemory} `{JT : JsonText} (partitionID : Z) (isDirected : bool).

Lemma for_items_nothing {A} (f : A -> M store (list string)) l s rows s' :
  (forall x s rows s', f x s = (Ret rows, s') -> rows = []) -> for_items l f s = (Ret rows, s') -> rows = [].
Proof.
  intros Hf. revert s rows s'. induction l as [|x l IH]; intros s rows s' H; [by injection H as <- _|].
  cbn [for_items] in H. apply bind_Ret_inv in H as (a & s1 & Ha & H). apply bind_Ret_inv in H as (b & s2 & Hb & H).
  injection H as <- _. by rewrite (Hf _ _ _ _ Ha), (IH _ _ _ Hb).
Qed.

(** MATCH (a)-[r]->(b): the plan of the directed scan of all relationships
    names no type, and the scan compares the type of each local relationship
    with it, so that it never gives a row for a relationship within the
    partition; above the threshold, on the thread pool, the first chunk
    dereferences the null block 0. *)
Theorem directed_all_scan_local query s rows s' :
  index "relType" query = Ret JNull ->
  (scan_kind partitionID Local (mkTests true false false) query (directed_row isDirected query) s = (Ret rows, s') ->
   rows = []) /\
  (forall workers threads, 1 <= workers < 2147483648 -> 1 < relation_blocks Local s < 4611686018427387904 ->
   DirectedAllRelationshipScanParallel partitionID isDirected workers threads query s = (Undef, s)).
Proof.
  intros Hq. split.
  - unfold scan_kind. intros H. apply bind_Ret_inv in H as (s0 & s1 & [= <- <-] & H).
    eapply for_items_nothing, H. intros i s2 l s3 H'. unfold scan_relation in H'.
    apply bind_Ret_inv in H' as (o & s4 & _ & H'). apply bind_Ret_inv in H' as (r & s5 & _ & H').
    cbn [by_type] in H'. apply bind_Ret_inv in H' as (skip & s6 & Hskip & H').
    unfold other_type in Hskip. apply bind_Ret_inv in Hskip as (t & s7 & _ & Hskip).
    apply bind_Ret_inv in Hskip as (w & s8 & Hw & Hskip). unfold lift in Hw. rewrite Hq in Hw.
    injection Hw as <- <-. injection Hskip as <- <-. by injection H' as <- _.
  - intros workers threads Hw Hn. unfold DirectedAllRelationshipScanParallel.
    erewrite bind_Ret; [|reflexivity]. rewrite (proj2 (Z.ltb_lt _ _)) by lia.
    set (n := relation_blocks Local s) in *. apply bind_Undef. unfold lift. f_equal. unfold in_chunks, createWorkChunks.
    destruct (calculateOptimalChunkSize_range (n - 1) workers) as (size & Hsize & Hr); [lia..|]. rewrite Hsize.
    cbn [mbind outcome_bind].
    destruct (chunk_loop_spec (Z.to_nat (n - 1)) 0 (n - 1) size) as (cs & Hcs & Hitems & Hall); [lia..|]. rewrite Hcs.
    cbn [mbind outcome_bind]. destruct (Z.to_nat (n - 1)) as [|fuel] eqn:E; [lia|]. cbn in Hcs.
    rewrite (proj2 (Z.ltb_lt _ _)) in Hcs by lia. rewrite s64_id in Hcs by lia.
    destruct (chunk_loop_spec fuel size (n - 1) size) as (cs' & Hcs' & _); [lia..|]. rewrite Z.add_0_l, Hcs' in Hcs.
    injection Hcs as <-. cbn [traverse]. assert (exists l, items (mkChunk 0 (Z.min (size - 1) (n - 1 - 1)) (Z.min (size - 1) (n - 1 - 1) - 0 + 1)) = 0 :: l) as [l Hl].
    { unfold items. cbn. rewrite seqZ_cons by lia. by eexists. }
    unfold processRelationshipChunk. rewrite Hl, filter_cons_True by lia. done.
Qed.
End relation_scans.
