(* ===== verification/StreamedGraph.v ===== *)
(** * StreamedGraph: from messages to answers

    A partition that starts empty and takes messages one after the other holds
    the property graph of the messages, and the node scans of the query engine
    return it. *)
From Stdlib Require Import ZArith Ascii String Lia.
From stdpp Require Import functions base tactics numbers list strings gmap.
From S2P Require Import Prelude FStream PropertyLinks PropertyLinkTheory NodeBlock RelationBlock NodeRelations.
From S2P Require Import NodeManager GraphFiles GraphTheory ManagerTheory PropertyOwners PropertyGraph EdgeData.
From S2P Require Import Json ParallelExecutor CypherScans ScanTheory IncrementalStore IncrementalTheory.

(** ** A new partition *)

Definition empty_pg : property_graph := mkPG empty_graph ∅ ∅ (fun _ => []).

Lemma open_next C : nextPropertyIndex (open_links C []) = 1.
Proof. unfold open_links, next_block_index. cbn [nextPropertyIndex length]. by rewrite Zdiv_0_l. Qed.

Lemma open_links_ok C : links_ok (open_links C []) [].
Proof.
  split_and!; try done. left. split; [done|]. apply open_next.
Qed.

Lemma empty_owners {C : LinkClass} {O} `{EqDecision O} (H : O -> Z) : (forall o, H o = 0) -> owners [] H (fun _ => []).
Proof. intros E. split; [|by intros ? ? ? ? ?%not_elem_of_nil]. intros o. rewrite E. constructor. Qed.

Lemma new_partition_holds c d :
  openMode c <> FILE_MODE -> d_index d = [] ->
  exists m, openNodeManager c d = Ret m /\ holds m empty_pg [] None /\ (forall k, Z.of_nat k < 9000000 -> space k (dbs m)) /\
    INDEX_KEY_SIZE m = (if decide (maxLabelSize c = 0%nat) then 6%nat else maxLabelSize c).
Proof.
  intros Hc Hd. unfold openNodeManager. rewrite bool_decide_false by done. rewrite Hd.
  eexists. split; [reflexivity|]. split_and!; [|intros k Hk; unfold space; cbn [dbs propertiesDB metaPropertiesDB edgePropertiesDB metaEdgePropertiesDB]; rewrite !open_next; lia|done]. split; [done|].
  exists [], (fun _ => []), (Lists [] (fun _ => []) [] (fun _ => []) [] (fun _ => []) [] (fun _ => [])).
  split_and!.
  - constructor; try done; cbn.
    + split; [done|]. intros k. by destruct k; (split; [done|left]).
    + apply graph_ok_empty.
    + by exists [].
    + constructor.
    + intros k. constructor.
  - constructor; try apply open_links_ok; try (apply empty_owners; intros o; unfold head_at; by rewrite lookup_nil). intros x. constructor.
  - constructor; try apply open_links_ok; try (apply empty_owners; intros o; unfold edge_head, rel_field; by rewrite lookup_nil). intros x. constructor.
  - constructor; try done; intros x s Hx; by rewrite lookup_nil in Hx.
  - constructor; [done|]. intros k E1 x E2 HE. by destruct E1.
  - constructor.
  - done.
Qed.

(** ** Sequences of messages *)

Section streams.
Context {HM : HostMemory} `{JT : JsonText}.

Record delivery := mkDelivery {
  dl_text : string;
  dl_json : json;
  dl_kind : kind;
  dl_message : edge_message
}.

Definition arrives (P : property_graph) (x : delivery) : property_graph := edge_arrives (dl_kind x) (dl_message x) P.

(** The worker's loop over the texts of its queue. *)
Fixpoint ingest (texts : list string) : M local_store unit :=
  match texts with [] => mret tt | t :: rest => addEdgeFromString t;; ingest rest end.

(** A message that the store can take. *)
Definition acceptable (keysz : nat) (x : delivery) : Prop :=
  message_text (dl_text x) (dl_json x) (dl_message x) /\ kind_says (dl_json x) (dl_kind x) /\
  fits_store (dl_kind x) keysz (dl_message x).

Definition all_links (xs : list delivery) : nat := sum_list (links_needed ∘ dl_message <$> xs).

(** *** Growth *)

Lemma vpid_props s items P : vpid (foldl (property_arrives s) P items) = vpid P.
Proof.
  revert P. induction items as [|kv items IH]; intros P; [done|]. cbn [foldl]. rewrite IH.
  unfold property_arrives, with_vprop, with_label_of. cbn. repeat case_match; done.
Qed.

Lemma vertices_props s items P : vertices (pg (foldl (property_arrives s) P items)) = vertices (pg P).
Proof.
  revert P. induction items as [|kv items IH]; intros P; [done|]. cbn [foldl]. rewrite IH.
  unfold property_arrives, with_vprop, with_label_of. cbn. repeat case_match; done.
Qed.

Lemma edge_props_fixed kd items P :
  let P' := foldl (edge_property_arrives kd) P items in
  vertices (pg P') = vertices (pg P) /\ vpid P' = vpid P.
Proof.
  revert P. induction items as [|kv items IH]; intros P; [done|]. cbn [foldl].
  destruct (IH (edge_property_arrives kd P kv)) as [-> ->]. unfold edge_property_arrives. by case_match.
Qed.

Lemma edge_data_fixed kd msg P :
  vertices (pg (edge_data_arrives kd msg P)) = vertices (add_edge kd (ends msg) (pg P)) /\
  vpid (edge_data_arrives kd msg P) = vpid P.
Proof.
  unfold edge_data_arrives. cbn zeta. pose proof (edge_props_fixed kd (em_props msg) (with_edge kd (ends msg) P)) as [E1 E2].
  destruct kd; cbn [on_newest pg vpid]; by rewrite E1, E2.
Qed.

Lemma elem_of_add_edge s kd e g : s ∈ vertices (add_edge kd e g) -> s ∈ vertices g \/ s = e.1 \/ s = e.2.
Proof.
  unfold add_edge. cbn. unfold add_vertex. repeat case_decide; cbn; rewrite ?elem_of_app, ?list_elem_of_singleton; tauto.
Qed.

Lemma vertices_message kd msg P :
  vertices (pg (edge_arrives kd msg P)) = vertices (add_edge kd (ends msg) (pg P)).
Proof.
  unfold edge_arrives, vertex_arrives, with_vpid. do 2 (cbn [pg]; rewrite vertices_props). cbn [pg].
  apply edge_data_fixed.
Qed.

Lemma length_add_edge kd e g : (length (vertices (add_edge kd e g)) <= length (vertices g) + 2)%nat.
Proof. unfold add_edge. cbn. unfold add_vertex. repeat case_decide; cbn; rewrite ?length_app; cbn; lia. Qed.

(** Room for [n] more messages in the files of blocks. *)
Definition room (n : nat) (g : graph) : Prop :=
  Z.of_nat (length (vertices g) + 2 * n) <= 20000000 /\ forall k, Z.of_nat (length (gedges g k) + n) <= 20000000.

Lemma room_fits n kd msg P : room (S n) (pg P) -> fits (add_edge kd (ends msg) (pg P)).
Proof.
  intros [H1 H2]. split.
  - pose proof (length_add_edge kd (ends msg) (pg P)). unfold naddress, NODE_BLOCK_SIZE. lia.
  - intros k. specialize (H2 k). rewrite gedges_add_edge. unfold raddress.
    assert (BLOCK_SIZE k <= 200) by (by destruct k). case_decide; cbn [length]; nia.
Qed.

Lemma room_message n kd msg P : room (S n) (pg P) -> room n (pg (edge_arrives kd msg P)).
Proof.
  intros [H1 H2]. split.
  - rewrite vertices_message. pose proof (length_add_edge kd (ends msg) (pg P)). lia.
  - intros k. specialize (H2 k). rewrite gedges_message. case_decide; cbn; lia.
Qed.

Lemma room_empty xs : Z.of_nat (all_links xs) < 9000000 -> room (length xs) (pg empty_pg).
Proof.
  intros H. assert (3 * length xs <= all_links xs)%nat.
  { clear. unfold all_links. induction xs as [|x xs IH]; cbn; [lia|]. unfold links_needed at 1. lia. }
  split; cbn; lia.
Qed.

(** *** Runs *)

Lemma ingest_run_all xs : forall l P k,
  holds (nm l) P [] None -> Forall (acceptable (INDEX_KEY_SIZE (nm l))) xs -> room (length xs) (pg P) ->
  space (all_links xs + k) (dbs (nm l)) ->
  exists l', ingest (dl_text <$> xs) l = (Ret tt, l') /\ holds (nm l') (foldl arrives P xs) [] None /\ space k (dbs (nm l')).
Proof.
  induction xs as [|x xs IH]; intros l P k Hh Ht Hr Hsp; [by exists l|]. inversion_clear Ht as [|? ? (H1 & H2 & H3) H5].
  destruct (addEdgeFromString_message (dl_kind x) _ _ _ P l (all_links xs + k) Hh H1 H2 H3) as (l1 & R1 & Hh1 & Hsp1 & Hk & _).
  { by eapply room_fits. }
  { eapply space_less; [exact Hsp|]. unfold all_links. cbn. lia. }
  destruct (IH l1 (arrives P x) k) as (l2 & R2 & Hh2 & Hsp2); [done|by rewrite Hk|by apply room_message|done|].
  exists l2. split_and!; try done. cbn. by erewrite bind_Ret; [|exact R1].
Qed.

(** ** The vertices a partition lists *)

(** Vertices that arrived have a partition. *)
Definition complete (P : property_graph) : Prop := forall s, s ∈ vertices (pg P) -> is_Some (vpid P !! s).

Lemma complete_arrives kd msg P : complete P -> complete (edge_arrives kd msg P).
Proof.
  intros H s. unfold edge_arrives, vertex_arrives, with_vpid. 
  do 2 (cbn [pg vpid]; rewrite ?vertices_props, ?vpid_props). cbn [pg vpid]. destruct (edge_data_fixed kd msg P) as [-> ->].
  intros Hs%elem_of_add_edge. rewrite !lookup_insert_is_Some'. cbn [ends fst snd] in Hs.
  destruct Hs as [Hs|[->| ->]]; [specialize (H s Hs)| |]; auto.
Qed.

Lemma complete_all xs P : complete P -> complete (foldl arrives P xs).
Proof. revert P. induction xs as [|x xs IH]; intros P H; [done|]. cbn. by apply IH, complete_arrives. Qed.

(** What the scans say of a vertex. *)
Definition listing (P : property_graph) : list listed :=
  (fun s => mkListed s (vnum (vertices (pg P)) s) (default "" (vpid P !! s)) (label_of (pg P) s) (props_of P s)) <$> vertices (pg P).

Lemma holds_describes m P nbs rbs D s :
  stored m (pg P) nbs rbs -> vertex_lists (dbs m) nbs D -> shows_vertices D P -> s ∈ vertices (pg P) ->
  is_Some (vpid P !! s) ->
  describes nbs (pbs D) (mbs D)
    (mkListed s (vnum (vertices (pg P)) s) (default "" (vpid P !! s)) (label_of (pg P) s) (props_of P s)).
Proof.
  intros Hm Hv Hsv Hs [p Hp]. pose proof (vnum_lookup _ _ Hs) as Hx. set (x := vnum (vertices (pg P)) s) in *.
  destruct (stored_block _ _ _ _ _ Hm Hs) as (b & Hb & (_ & Hlb & _) & Hwf). fold x in Hb.
  pose proof Hwf as (_ & Hnul & _). pose proof (stored_bound _ _ _ _ _ Hm Hs) as Hbd. fold x in Hbd.
  destruct (label_of_ok _ _ _ _ s Hm Hs) as [Hn Hl]. destruct (label_until _ Hn Hl) as [U1 U2].
  assert (forall off, head_at off nbs x = nf32 off b) as Hh by (intros off; unfold head_at; by rewrite Hb).
  pose proof (sv_props _ _ Hsv x s Hx) as Hpr. pose proof (sv_pid _ _ Hsv x s Hx) as Hpid. rewrite Hp in Hpid |- *.
  destruct Hpid as (i & v & EM & Hv').
  exists b. cbn [l_index l_label l_partition l_props default]. split_and!; try done.
  - unfold naddress, NODE_BLOCK_SIZE in *. lia.
  - unfold block_label. rewrite Hlb, U1, cstring_pad by done. by rewrite string_chars.
  - split.
    + exists i, PARTITION_ID, v, []. split; [|done]. rewrite <- Hh, <- EM. apply (vl_mowners _ _ _ Hv).
    + pose proof (proj1 (vl_owners _ _ _ Hv) x) as Hc. rewrite Hh in Hc. destruct (LV D x) as [|e es] eqn:EL.
      * left. apply chain_nil_inv in Hc. split; [done|]. by rewrite <- Hpr.
      * right. exists (e :: es). split_and!; try done. rewrite <- EL. apply (vl_read _ _ _ Hv).
Qed.

Lemma holds_opened m P :
  holds m P [] None -> complete P -> exists nbs rbs ps ms, opened nbs rbs ps ms m (listing P).
Proof.
  intros (_ & nbs & rbs & D & Hm & Hv & _ & Hsv & _) Hc. exists nbs, rbs, (pbs D), (mbs D). split.
  - split; [by destruct Hm|apply (vl_links _ _ _ Hv)|apply (vl_mlinks _ _ _ Hv)].
  - apply Forall_forall. intros d (s & -> & Hs)%list_elem_of_fmap. split; [eapply holds_describes; eauto|].
    rewrite (st_index _ _ _ _ Hm). cbn. by rewrite decide_True.
Qed.

Lemma opened_perm nbs rbs ps ms m ds ds' : ds' ≡ₚ ds -> opened nbs rbs ps ms m ds -> opened nbs rbs ps ms m ds'.
Proof. intros E [H1 H2]. split; [done|]. by rewrite E. Qed.

Lemma holds_bound m P objs e : holds m P objs e -> Z.of_nat (length (vertices (pg P))) < 4611686018427387904.
Proof.
  intros (_ & nbs & rbs & D & [_ (_ & Hr & _) Hb _ _ _ _ _ _ _] & _). apply Forall2_length in Hb.
  unfold naddress, NODE_BLOCK_SIZE in *. lia.
Qed.

(** The scan of all nodes in a partition that holds a property graph. *)
Lemma holds_scan m P partitionID workers query variable ds :
  holds m P [] None -> complete P -> ds ≡ₚ listing P -> index "variables" query = Ret (JString variable) ->
  1 <= workers < 2147483648 ->
  exists m', AllNodeScan partitionID workers (fun _ => dbs m) query (entry_of <$> ds) m =
    (Ret (concat (node_row partitionID variable None <$> ds)), m').
Proof.
  intros Hh Hc Hds Hq Hw. destruct (holds_opened m P Hh Hc) as (nbs & rbs & ps & ms & Ho).
  apply (opened_perm _ _ _ _ _ _ ds) in Ho; [|done].
  destruct (node_scan_rows partitionID nbs rbs ps ms workers (fun _ => dbs m) query variable ds m Hq Ho Hw) as (m' & R & _).
  - rewrite Hds. unfold listing. rewrite length_fmap. by eapply holds_bound.
  - intros _. apply Ho.
  - by exists m'.
Qed.
End streams.
