(* ===== verification/StreamInput.v ===== *)
(** * StreamInput: the edges of a Kafka topic

    StreamHandler.cpp and StreamRegistry.cpp of util/kafka: the thread of the
    master that polls a topic, asks the partitioner where each edge belongs and
    publishes it to the workers, and the registry of the streams that run.
    What the consumer returns and when a stop is signalled are inputs; what is
    published is part of the state. *)
From Stdlib Require Import ZArith Ascii String Lia.
From stdpp Require Import functions base tactics numbers list strings gmap.
From S2P Require Import Prelude HashMapStores Partition Partitioner Cluster Json FStream PropertyLinks NodeBlock.
From S2P Require Import RelationBlock NodeManager ManagerTheory PropertyOwners PartitionerTheory IncrementalStore.
From S2P Require Import IncrementalTheory PropertyGraph StreamedGraph.

(** ** The registry of streams *)

(** [StreamMetadata]; [stopFlag] points to a flag that the registry and the
    thread of the stream share. *)
Record StreamMetadata := mkMetadata {
  sm_graphId : Z;
  topicName : string;
  connectionFd : Z;
  threadId : Z;
  stopFlag : nat;
  userId : string
}.

Record StreamRegistry := mkRegistry {
  activeStreams : gmap Z StreamMetadata;
  flags : gmap nat bool;
  next_flag : nat
}.

Definition set_streams (a : gmap Z StreamMetadata) (r : StreamRegistry) : StreamRegistry :=
  mkRegistry a (flags r) (next_flag r).
Definition raise_flag (f : nat) (r : StreamRegistry) : StreamRegistry :=
  mkRegistry (activeStreams r) (<[f := true]> (flags r)) (next_flag r).

(** [registerStream], on the thread [tid]. *)
Definition registerStream (graphId : Z) (topic : string) (fd tid : Z) (user : string) : M StreamRegistry bool :=
  r ← get_state;
  match activeStreams r !! graphId with
  | Some _ => mret false
  | None =>
      modify (fun r => mkRegistry (<[graphId := mkMetadata graphId topic fd tid (next_flag r) user]> (activeStreams r))
                         (<[next_flag r := false]> (flags r)) (S (next_flag r)));;
      mret true
  end.

Definition updateStreamThreadId (graphId tid : Z) : M StreamRegistry unit :=
  modify (fun r => set_streams (alter (fun s => mkMetadata (sm_graphId s) (topicName s) (connectionFd s) tid (stopFlag s) (userId s))
                                  graphId (activeStreams r)) r).

Definition getStreamsByTopic (topic : string) (r : StreamRegistry) : list StreamMetadata :=
  filter (fun s => topicName s = topic) (entries (activeStreams r)).*2.
Definition getStreamByTopic (topic : string) (r : StreamRegistry) : option StreamMetadata :=
  list_find (fun s => topicName s = topic) (entries (activeStreams r)).*2 ≫= fun p => Some p.2.
Definition getStreamByGraphId (graphId : Z) (r : StreamRegistry) : option StreamMetadata := activeStreams r !! graphId.
Definition isStreamActive (graphId : Z) (r : StreamRegistry) : bool := bool_decide (is_Some (activeStreams r !! graphId)).
Definition getActiveStreamCount (r : StreamRegistry) : nat := size (activeStreams r).

Definition unregisterStream (graphId : Z) : M StreamRegistry bool :=
  r ← get_state;
  match activeStreams r !! graphId with
  | Some _ => modify (fun r => set_streams (delete graphId (activeStreams r)) r);; mret true
  | None => mret false
  end.

Definition signalStreamStop (graphId : Z) : M StreamRegistry bool :=
  r ← get_state;
  match activeStreams r !! graphId with
  | Some s => modify (raise_flag (stopFlag s));; mret true
  | None => mret false
  end.

Definition stopAllStreams : M StreamRegistry unit :=
  modify (fun r => foldl (fun r e => raise_flag (stopFlag e.2) r) r (entries (activeStreams r))).

Definition clear_streams : M StreamRegistry unit := modify (set_streams ∅).

(** [stopFlag->load()] of a thread that holds the flag. *)
Definition stop_seen (f : nat) (r : StreamRegistry) : bool := default false (flags r !! f).

(** ** The thread of a stream *)

(** What a poll returns: nothing in time, an error with its text, or data. *)
Inductive kafka_message := NoMessage | ErrorMessage (text : string) | Data (data : string).

Definition get_payload (msg : kafka_message) : string :=
  match msg with NoMessage => "" | ErrorMessage t => t | Data d => d end.
Definition isErrorInMessage (msg : kafka_message) : bool :=
  match msg with Data _ => false | _ => true end.
Definition isEndOfStream (msg : kafka_message) : bool := String.eqb (get_payload msg) "-1".

Record stream_handler := mkHandler {
  graphPartitioner : Partitioner;
  published : list (Z * string);
  assigned : list (Z * string * Z);
  registry : StreamRegistry;
  recorded : option (Z * QArith_base.Q)
}.

Definition set_partitioner (t : Partitioner) (h : stream_handler) : stream_handler :=
  mkHandler t (published h) (assigned h) (registry h) (recorded h).
Definition publish_one (w : Z) (text : string) (h : stream_handler) : stream_handler :=
  mkHandler (graphPartitioner h) (published h ++ [(w, text)]) (assigned h) (registry h) (recorded h).
Definition assign_one (i : Z) (host : string) (port : Z) (h : stream_handler) : stream_handler :=
  mkHandler (graphPartitioner h) (published h) (assigned h ++ [(i, host, port)]) (registry h) (recorded h).
Definition set_registry (r : StreamRegistry) (h : stream_handler) : stream_handler :=
  mkHandler (graphPartitioner h) (published h) (assigned h) r (recorded h).
Definition set_recorded (v : Z * QArith_base.Q) (h : stream_handler) : stream_handler :=
  mkHandler (graphPartitioner h) (published h) (assigned h) (registry h) (Some v).

Section handler.
Context `{JT : JsonText} (pow : double -> double -> double).

(** The graph, the number of connections to workers, and the configured
    number of workers. *)
Context (graphId : Z) (clients : nat) (nworkers : string).

(** [workerClients.at(w)->publish(text)] *)
Definition publish_to (w : Z) (text : string) : M stream_handler unit :=
  if (0 <=? w) && (w <? Z.of_nat clients) then modify (publish_one w text) else throw out_of_range.

(** [part % n_workers] *)
Definition worker_of (part n : Z) : M stream_handler Z :=
  if n =? 0 then undef else mret (Z.rem part n).

(** The body of the loop for a message with data. *)
Definition handle_edge (data : string) : M stream_handler unit :=
  edgeJson ← lift (parse_exn data);
  prop ← lift (index "properties" edgeJson);
  prop ← lift (assign "graphId" (JString (show_long graphId)) prop);
  sourceJson ← lift (index "source" edgeJson);
  destinationJson ← lift (index "destination" edgeJson);
  sj ← lift (index "id" sourceJson); sId ← lift (as_string sj);
  dj ← lift (index "id" destinationJson); dId ← lift (as_string dj);
  pe ← zoom graphPartitioner set_partitioner (partitioner_addEdge pow (sId, dId));
  s ← determinate (pe !! 0%nat); d ← determinate (pe !! 1%nat);
  let part_s := s.2 in let part_d := d.2 in
  sourceJson ← lift (assign "pid" (JInt part_s) sourceJson);
  destinationJson ← lift (assign "pid" (JInt part_d) destinationJson);
  let obj := object [("source", sourceJson); ("destination", destinationJson); ("properties", prop)] in
  n_workers ← determinate (atoi nworkers);
  temp_s ← worker_of part_s n_workers;
  temp_d ← worker_of part_d n_workers;
  if part_s =? part_d then
    obj ← lift (assign "EdgeType" (JString "Local") obj);
    obj ← lift (assign "PID" (JInt part_s) obj);
    publish_to temp_s (dump obj)
  else
    obj ← lift (assign "EdgeType" (JString "Central") obj);
    obj ← lift (assign "PID" (JInt part_s) obj);
    publish_to temp_s (dump obj);;
    obj ← lift (assign "PID" (JInt part_d) obj);
    publish_to temp_d (dump obj).

(** The end of the stream, for every worker. *)
Definition publish_end : M stream_handler unit :=
  modify (fun h => foldl (fun h w => publish_one (Z.of_nat w) "-1" h) h (seq 0 clients)).

(** The loop, as far as the polls go: the flag and the message of each round.
    It returns whether the stream has ended. *)
Fixpoint listen (polls : list (bool * kafka_message)) : M stream_handler bool :=
  match polls with
  | [] => mret false
  | (stop, msg) :: rest =>
      if (stop : bool) then publish_end;; mret true
      else if isEndOfStream msg then publish_end;; mret true
      else if isErrorInMessage msg then listen rest
      else handle_edge (get_payload msg);; listen rest
  end.

(** [listen_to_kafka_topic]; [workers] is what the server returns. *)
Fixpoint assign_partitions (i : nat) (n : nat) (workers : list (string * Z)) : M stream_handler unit :=
  match n with
  | O => mret tt
  | S n' =>
      match workers !! i with
      | Some (host, port) => modify (assign_one (Z.of_nat i) host port);; assign_partitions (S i) n' workers
      | None => throw out_of_range
      end
  end.

Definition listen_to_kafka_topic (workers : list (string * Z)) (polls : list (bool * kafka_message)) : M stream_handler bool :=
  assign_partitions 0 clients workers;;
  ended ← listen polls;
  if (ended : bool) then
    _ ← zoom registry set_registry (unregisterStream graphId);
    modify (fun h => set_recorded (updateMetaDB (graphPartitioner h)) h);;
    mret true
  else mret false.

(** The function is the body of a std::thread: an exception that leaves it
    terminates the process. *)
Definition stream_thread (workers : list (string * Z)) (polls : list (bool * kafka_message)) : M stream_handler bool := fun h =>
  match listen_to_kafka_topic workers polls h with (Throw _, h') => (Terminated, h') | r => r end.
End handler.

(** ** Stop signals

    Streams have flags of their own, so that a stop reaches one stream. *)

Record registry_ok (r : StreamRegistry) : Prop := {
  ro_known g s : activeStreams r !! g = Some s -> (stopFlag s < next_flag r)%nat;
  ro_own g g' s s' : activeStreams r !! g = Some s -> activeStreams r !! g' = Some s' -> stopFlag s = stopFlag s' -> g = g'
}.

Lemma registry_ok_register g topic fd tid user r :
  registry_ok r -> registry_ok (registerStream g topic fd tid user r).2.
Proof.
  intros [Hk Ho]. unfold registerStream. cbn. unfold mbind, M_bind, get_state. destruct (activeStreams r !! g) as [s0|] eqn:E; [exact (Build_registry_ok _ Hk Ho)|]. split; cbn.
  - intros g' s [[_ <-]|[_ H]]%lookup_insert_Some; cbn; [lia|]. specialize (Hk _ _ H). lia.
  - intros g1 g2 s1 s2 [[<- <-]|[N1 H1]]%lookup_insert_Some [[<- <-]|[N2 H2]]%lookup_insert_Some; cbn; intros Hf; try done.
    + specialize (Hk _ _ H2). lia.
    + specialize (Hk _ _ H1). lia.
    + by eapply Ho.
Qed.

Lemma registry_ok_unregister g r : registry_ok r -> registry_ok (unregisterStream g r).2.
Proof.
  intros [Hk Ho]. unfold unregisterStream. cbn. unfold mbind, M_bind, get_state. destruct (activeStreams r !! g) as [s0|]; [|exact (Build_registry_ok _ Hk Ho)]. split; cbn.
  - intros g' s [_ H]%lookup_delete_Some. by eapply Hk.
  - intros g1 g2 s1 s2 [_ H1]%lookup_delete_Some [_ H2]%lookup_delete_Some. by eapply Ho.
Qed.

(** A stop is seen by its stream and by no other, and stays. *)
Lemma stop_reaches_one g s r :
  registry_ok r -> activeStreams r !! g = Some s ->
  exists r', signalStreamStop g r = (Ret true, r') /\ registry_ok r' /\ stop_seen (stopFlag s) r' = true /\
    forall g' s', g' <> g -> activeStreams r !! g' = Some s' -> stop_seen (stopFlag s') r' = stop_seen (stopFlag s') r.
Proof.
  intros [Hk Ho] Hs. exists (raise_flag (stopFlag s) r). split_and!.
  - unfold signalStreamStop, mbind, M_bind, get_state. by rewrite Hs.
  - exact (Build_registry_ok (raise_flag (stopFlag s) r) Hk Ho).
  - unfold stop_seen. cbn. by rewrite lookup_insert_eq.
  - intros g' s' Hne Hs'. unfold stop_seen. cbn. rewrite lookup_insert_ne; [done|]. intros Hf. apply Hne. by eapply Ho.
Qed.

(** ** What the master makes of an edge

    With hash partitioning, an edge of the topic becomes one local message for
    the partition of both its vertices, or a central message for the partition
    of each; the messages say the edge, the partitions of its vertices, and the
    graph and the partition they are for. *)

(** ** Properties with the id of the graph *)

(** [set_key] on properties that are all strings. *)
Fixpoint set_item (k v : string) (items : list (string * string)) : list (string * string) :=
  match items with
  | [] => [(k, v)]
  | (k', v') :: r =>
      if String.eqb k k' then (k, v) :: r
      else if string_ltb k k' then (k, v) :: (k', v') :: r
      else (k', v') :: set_item k v r
  end.

Lemma string_items_set k v items : string_items (set_item k v items) = set_key k (JString v) (string_items items).
Proof.
  induction items as [|[k' v'] items IH]; [done|]. cbn. repeat case_match; cbn; try done. by f_equal.
Qed.

Lemma set_item_elem k v items kv : kv ∈ set_item k v items -> kv = (k, v) \/ kv ∈ items.
Proof.
  induction items as [|[k' v'] items IH]; cbn; [set_solver|]. repeat case_match; set_solver.
Qed.

Lemma length_set_item k v items : (length (set_item k v items) <= S (length items))%nat.
Proof. induction items as [|[k' v'] items IH]; cbn; [lia|]. repeat case_match; cbn; lia. Qed.

(** Keys strictly increasing. *)
Definition sorted_items (items : list (string * string)) : Prop := keys_sorted (string_items items) = true.

Lemma sorted_items_nodup items : sorted_items items -> NoDup items.*1.
Proof.
  unfold sorted_items. induction items as [|[k v] items IH]; cbn; [constructor|]. rewrite andb_true_iff, forallb_elem.
  intros [H1 H2]. constructor; [|by apply IH]. intros ([k' v'] & -> & Hkv)%list_elem_of_fmap. cbn in *.
  specialize (H1 (k', JString v')). cbn in H1. rewrite string_ltb_irrefl in H1. discriminate H1.
  apply list_elem_of_fmap. by exists (k', v').
Qed.

Lemma sorted_set_item k v items : sorted_items items -> sorted_items (set_item k v items).
Proof. unfold sorted_items. rewrite string_items_set. apply set_key_sorted. Qed.

(** With the id of the graph among them, the type is never the first. *)
Lemma set_item_head k v items t : string_ltb k t = true -> head (set_item k v items).*1 <> Some t.
Proof.
  intros Hk. assert (k <> t) as Hne by (intros ->; by rewrite string_ltb_irrefl in Hk).
  destruct items as [|[k' v'] r]; cbn; [congruence|]. destruct (String.eqb k k'); [cbn; congruence|].
  destruct (string_ltb k k') eqn:E; cbn; [congruence|]. intros [= ->]. congruence.
Qed.

(** ** Messages *)

(** What an edge of the topic says: the partitions are still open. *)
Record stream_edge := mkStreamEdge {
  se_source : string;
  se_source_props : list (string * string);
  se_destination : string;
  se_destination_props : list (string * string);
  se_props : list (string * string)
}.

Definition endpoint_says (j : json) (i : string) (items : list (string * string)) : Prop :=
  exists m, j = JObject m /\ find_key "id" m = Some (JString i) /\ properties_say (find_key "properties" m) items.

Definition stream_says (j : json) (e : stream_edge) : Prop :=
  exists m sj dj, j = JObject m /\ find_key "source" m = Some sj /\ endpoint_says sj (se_source e) (se_source_props e) /\
    find_key "destination" m = Some dj /\ endpoint_says dj (se_destination e) (se_destination_props e) /\
    properties_say (find_key "properties" m) (se_props e).

Section messages.
Context (graphId : Z).

(** What the master makes of it for given partitions. *)
Definition placed_message (e : stream_edge) (part_s part_d : Z) : edge_message :=
  mkEdgeMessage (mkVertexMessage (se_source e) part_s (se_source_props e))
    (mkVertexMessage (se_destination e) part_d (se_destination_props e))
    (set_item "graphId" (show_long graphId) (se_props e)).

(** Its JSON for the partition [pid]. *)
Definition placed_json (sj dj prop : json) (type : string) (part_s part_d pid : Z) : outcome json :=
  sj ← assign "pid" (JInt part_s) sj;
  dj ← assign "pid" (JInt part_d) dj;
  obj ← assign "EdgeType" (JString type) (object [("source", sj); ("destination", dj); ("properties", prop)]);
  assign "PID" (JInt pid) obj.

Definition kind_name (k : kind) : string := match k with Local => "Local" | Central => "Central" end.

(** A message for the partition [pid], as the workers read it. *)
Record tells (k : kind) (pid : Z) (msg : edge_message) (j : json) : Prop := {
  tl_ok : json_ok j = true;
  tl_edge : edge_says j msg;
  tl_kind : kind_says j k;
  tl_graph : exists p, index "properties" j = Ret p /\ index "graphId" p = Ret (JString (show_long graphId));
  tl_properties : contains "properties" j = true;
  tl_pid : index "PID" j = Ret (JInt pid)
}.

Lemma endpoint_placed sj i items p :
  endpoint_says sj i items -> json_ok sj = true -> json_ok (JInt p) = true ->
  exists sj', assign "pid" (JInt p) sj = Ret sj' /\ vertex_says sj' (mkVertexMessage i p items) /\ json_ok sj' = true.
Proof.
  intros (m & -> & Hid & Hp) Hok Hpk. eexists. split; [reflexivity|]. split.
  - eexists. split_and!; [reflexivity|..]; cbn.
    + by rewrite find_set_key_ne.
    + apply find_set_key.
    + by rewrite find_set_key_ne.
  - by apply json_ok_set_key.
Qed.

Lemma object3_fields a b c :
  object [("source", a); ("destination", b); ("properties", c)] =
    JObject [("destination", b); ("properties", c); ("source", a)].
Proof. reflexivity. Qed.

Lemma assigned_fields a b c t p :
  (obj ← assign "EdgeType" t (object [("source", a); ("destination", b); ("properties", c)]); assign "PID" p obj) =
  Ret (JObject [("EdgeType", t); ("PID", p); ("destination", b); ("properties", c); ("source", a)]).
Proof. reflexivity. Qed.

Lemma json_ok_five a b c t p :
  json_ok a = true -> json_ok b = true -> json_ok c = true -> json_ok t = true -> json_ok p = true ->
  json_ok (JObject [("EdgeType", t); ("PID", p); ("destination", b); ("properties", c); ("source", a)]) = true.
Proof. intros Ha Hb Hc Ht Hp. cbn [json_ok forallb snd]. rewrite Ha, Hb, Hc, Ht, Hp. vm_compute. done. Qed.

Lemma show_ascii z : is_ascii (show_long z) = true.
Proof.
  unfold is_ascii. apply forallb_elem. intros a [->|Hd]%show_long_chars; [done|].
  apply Z.ltb_lt. destruct a as [[] [] [] [] [] [] [] []]; try reflexivity; by destruct Hd.
Qed.

(** The properties that are published. *)
Definition placed_props (e : stream_edge) : json :=
  JObject (set_key "graphId" (JString (show_long graphId)) (string_items (se_props e))).

Lemma placed_props_run m items :
  properties_say (find_key "properties" m) items -> json_ok (JObject m) = true ->
  let p := JObject (set_key "graphId" (JString (show_long graphId)) (string_items items)) in
  exists q, index "properties" (JObject m) = Ret q /\ assign "graphId" (JString (show_long graphId)) q = Ret p /\
    json_ok p = true.
Proof.
  intros Hp Hm p. unfold index. destruct (find_key "properties" m) as [q|] eqn:E; cbn in Hp; subst.
  - eexists. split_and!; [done|done|]. apply json_ok_set_key; [by eapply json_ok_find|done|apply show_ascii].
  - exists JNull. split_and!; [done|done|]. apply json_ok_set_key; [done|done|apply show_ascii].
Qed.

Lemma placed_tells k e ps pd pid sj dj :
  endpoint_says sj (se_source e) (se_source_props e) -> json_ok sj = true ->
  endpoint_says dj (se_destination e) (se_destination_props e) -> json_ok dj = true ->
  json_ok (placed_props e) = true -> json_ok (JInt ps) = true -> json_ok (JInt pd) = true -> json_ok (JInt pid) = true ->
  exists j, placed_json sj dj (placed_props e) (kind_name k) ps pd pid = Ret j /\
    tells k pid (placed_message e ps pd) j.
Proof.
  intros Hs Hsk Hd Hdk Hp H1 H2 H3.
  destruct (endpoint_placed sj _ _ ps Hs Hsk H1) as (sj' & Es & Vs & Ks).
  destruct (endpoint_placed dj _ _ pd Hd Hdk H2) as (dj' & Ed & Vd & Kd).
  unfold placed_json. rewrite Es, Ed. cbn [mbind outcome_bind]. rewrite assigned_fields.
  eexists. split; [reflexivity|]. split.
  - apply json_ok_five; try done. by destruct k.
  - do 3 eexists. split_and!; [reflexivity|reflexivity|exact Vs|reflexivity|exact Vd|]. cbn.
    by rewrite string_items_set.
  - split; [done|]. eexists. split; [reflexivity|]. by destruct k.
  - exists (placed_props e). split; [done|]. cbn. by rewrite find_set_key.
  - done.
  - done.
Qed.
End messages.

(** ** The run *)

(** The partitions that get an edge, and its kind. *)
Definition targets (ps pd : Z) : list Z := if ps =? pd then [ps] else [ps; pd].
Definition kind_of (ps pd : Z) : kind := if ps =? pd then Local else Central.

Section runs.
Context `{JT : JsonText} (pow : double -> double -> double) (graphId : Z) (clients : nat) (nworkers : string) (nw : Z).
Hypothesis Hnw : atoi nworkers = Some nw.
Hypothesis Hw : 0 < nw <= Z.of_nat clients.

Lemma worker_of_run p h : 0 <= p -> worker_of p nw h = (Ret (Z.rem p nw), h) /\ 0 <= Z.rem p nw < Z.of_nat clients.
Proof.
  intros Hp. unfold worker_of. destruct (Z.eqb_spec nw 0); [lia|]. split; [done|].
  rewrite Z.rem_mod_nonneg by lia. pose proof (Z.mod_pos_bound p nw). lia.
Qed.

Lemma publish_to_run w text h : 0 <= w < Z.of_nat clients -> publish_to clients w text h = (Ret tt, publish_one w text h).
Proof.
  intros [H1 H2]. unfold publish_to. apply Z.leb_le in H1 as ->. apply Z.ltb_lt in H2 as ->. done.
Qed.

Lemma json_ok_int p : 0 <= p < 2147483648 -> json_ok (JInt p) = true.
Proof. intros. cbn. apply andb_true_iff. rewrite Z.leb_le, Z.ltb_lt. lia. Qed.

Lemma handle_edge_run h data j e :
  let t := graphPartitioner h in
  let ps := hash (partitionCount t) (se_source e) in let pd := hash (partitionCount t) (se_destination e) in
  partitioner_ok t -> algorithmInUse t = HASH -> parse_exn data = Ret j -> json_ok j = true -> stream_says j e ->
  hash_id (se_source e) -> hash_id (se_destination e) -> se_source e <> se_destination e ->
  exists h' js, handle_edge pow graphId clients nworkers data h = (Ret tt, h') /\
    edge_added t (graphPartitioner h') (se_source e) (se_destination e) /\
    Forall2 (fun p => tells graphId (kind_of ps pd) p (placed_message graphId e ps pd)) (targets ps pd) js /\
    published h' = published h ++ zip_with (fun p j => (Z.rem p nw, dump j)) (targets ps pd) js /\
    registry h' = registry h.
Proof.
  intros t ps pd Ht Ha Hp Hj (m & sj & dj & -> & Fs & Hs & Fd & Hd & Hprop) Hu Hv Hne.
  destruct (hash_step t _ _ Ht Hu Hv Hne) as (t' & Rt & Hadd).
  pose proof Ht as (Hn & _). pose proof (hash_range (partitionCount t) (se_source e) ltac:(lia)) as Hps. fold ps in Hps.
  pose proof (hash_range (partitionCount t) (se_destination e) ltac:(lia)) as Hpd. fold pd in Hpd.
  destruct (placed_props_run graphId m _ Hprop Hj) as (q & Eq & Ep & Kp). fold (placed_props graphId e) in Ep, Kp.
  assert (json_ok sj = true) as Ks by (by apply (json_ok_find "source" m)). assert (json_ok dj = true) as Kd by (by apply (json_ok_find "destination" m)).
  pose proof Hs as (sm & -> & Is & _). pose proof Hd as (dm & -> & Id & _).
  destruct (worker_of_run ps h ltac:(lia)) as [_ Ws]. destruct (worker_of_run pd h ltac:(lia)) as [_ Wd].
  set (h1 := set_partitioner t' h).
  unfold handle_edge.
  erewrite bind_Ret; [|by rewrite Hp]. erewrite bind_Ret; [|by rewrite Eq]. erewrite bind_Ret; [|by rewrite Ep].
  erewrite bind_Ret; [|by rewrite (index_field _ _ _ Fs)]. erewrite bind_Ret; [|by rewrite (index_field _ _ _ Fd)].
  erewrite bind_Ret; [|by rewrite (index_field _ _ _ Is)]. erewrite bind_Ret; [|reflexivity].
  erewrite bind_Ret; [|by rewrite (index_field _ _ _ Id)]. erewrite bind_Ret; [|reflexivity].
  erewrite bind_Ret; [|apply zoom_run; unfold partitioner_addEdge; erewrite bind_Ret; [|reflexivity]; fold t; rewrite Ha; exact Rt].
  erewrite bind_Ret; [|reflexivity]. erewrite bind_Ret; [|reflexivity]. cbn [snd]. fold ps pd h1.
  destruct (endpoint_placed (JObject sm) _ _ ps Hs Ks) as (sj' & Es & _); [apply json_ok_int; lia|].
  destruct (endpoint_placed (JObject dm) _ _ pd Hd Kd) as (dj' & Ed & _); [apply json_ok_int; lia|].
  set (J := fun k p => JObject [("EdgeType", JString (kind_name k)); ("PID", JInt p); ("destination", dj');
    ("properties", placed_props graphId e); ("source", sj')]).
  assert (forall k p, 0 <= p < 2147483648 -> tells graphId k p (placed_message graphId e ps pd) (J k p)) as Hplaced.
  { intros k p Hr. destruct (placed_tells graphId k e ps pd p (JObject sm) (JObject dm)) as (j1 & E1 & T1); try done; try (apply json_ok_int; lia).
    unfold placed_json in E1. rewrite Es, Ed in E1. by injection E1 as <-. }
  erewrite bind_Ret; [|by rewrite Es]. erewrite bind_Ret; [|by rewrite Ed]. erewrite bind_Ret; [|by rewrite Hnw].
  erewrite bind_Ret; [|apply worker_of_run; lia]. erewrite bind_Ret; [|apply worker_of_run; lia].
  unfold kind_of, targets. destruct (Z.eqb_spec ps pd) as [E|E].
  - specialize (Hplaced Local ps ltac:(lia)).
    exists (publish_one (Z.rem ps nw) (dump (J Local ps)) h1), [J Local ps].
    split_and!; [|exact Hadd|by constructor|done|done].
    erewrite bind_Ret; [|reflexivity]. erewrite bind_Ret; [|reflexivity]. by rewrite publish_to_run.
  - pose proof (Hplaced Central ps ltac:(lia)). pose proof (Hplaced Central pd ltac:(lia)).
    exists (publish_one (Z.rem pd nw) (dump (J Central pd)) (publish_one (Z.rem ps nw) (dump (J Central ps)) h1)), [J Central ps; J Central pd].
    split_and!; [|exact Hadd|by constructor; [|constructor]| |].
    + erewrite bind_Ret; [|reflexivity]. erewrite bind_Ret; [|reflexivity]. erewrite bind_Ret; [|by apply publish_to_run].
      erewrite bind_Ret; [|reflexivity]. by rewrite publish_to_run.
    + cbn. by rewrite <- app_assoc.
    + done.
Qed.

(** ** The stream *)

(** A published message: the partition it is for, and what it delivers. *)
Definition addressed : Type := Z * delivery.

Definition addressed_ok (x : addressed) : Prop :=
  getIDs (dl_text x.2) = (show_long graphId, x.1) /\ message_text (dl_text x.2) (dl_json x.2) (dl_message x.2) /\
  kind_says (dl_json x.2) (dl_kind x.2) /\ dl_text x.2 <> "-1".

(** What an edge says to the partitions, with [n] of them. *)
Definition messages_of (n : Z) (e : stream_edge) : list (Z * (kind * edge_message)) :=
  let ps := hash n (se_source e) in let pd := hash n (se_destination e) in
  (fun p => (p, (kind_of ps pd, placed_message graphId e ps pd))) <$> targets ps pd.

Definition said (x : addressed) : Z * (kind * edge_message) := (x.1, (dl_kind x.2, dl_message x.2)).

Lemma tells_addressed k p msg j :
  tells graphId k p msg j -> 0 <= p < 2147483648 -> addressed_ok (p, mkDelivery (dump j) j k msg).
Proof.
  intros [Hok He Hk (q & Hq & Hg) Hc Hp] Hr. pose proof (parse_exn_dump j Hok) as Hj.
  destruct He as (m & sj & dj & E & He). split_and!; try done; cbn [fst snd dl_text].
  - unfold getIDs. rewrite Hj. cbn [mbind outcome_bind]. rewrite Hc, Hq. cbn [mbind outcome_bind]. rewrite Hg. cbn [mbind outcome_bind as_string].
    rewrite Hp. cbn [mbind outcome_bind as_int]. rewrite s32_id by lia. rewrite u32_id by (unfold is_u32; lia). done.
  - split; [done|]. by exists m, sj, dj.
  - cbn. rewrite E. apply dump_object_end.
Qed.

(** Edges that hash partitioning can place. *)
Definition placeable (e : stream_edge) : Prop :=
  hash_id (se_source e) /\ hash_id (se_destination e) /\ se_source e <> se_destination e.

(** Polls that bring the edges [es] and nothing else. *)
Fixpoint brings (polls : list (bool * kafka_message)) (es : list stream_edge) : Prop :=
  match polls with
  | [] => es = []
  | (stop, msg) :: rest =>
      stop = false /\ isEndOfStream msg = false /\
      match msg with
      | Data d => exists e es' j, es = e :: es' /\ parse_exn d = Ret j /\ json_ok j = true /\ stream_says j e /\
                    placeable e /\ brings rest es'
      | _ => brings rest es
      end
  end.

Definition publication (x : addressed) : Z * string := (Z.rem x.1 nw, dl_text x.2).

Lemma edge_addressed h data j e :
  let t := graphPartitioner h in
  partitioner_ok t -> algorithmInUse t = HASH -> parse_exn data = Ret j -> json_ok j = true -> stream_says j e -> placeable e ->
  exists h' xs, handle_edge pow graphId clients nworkers data h = (Ret tt, h') /\
    edge_added t (graphPartitioner h') (se_source e) (se_destination e) /\
    Forall addressed_ok xs /\ said <$> xs = messages_of (partitionCount t) e /\
    published h' = published h ++ (publication <$> xs) /\ registry h' = registry h.
Proof.
  intros t Ht Ha Hp Hj He (Hu & Hv & Hne).
  destruct (handle_edge_run h data j e Ht Ha Hp Hj He Hu Hv Hne) as (h' & js & R & Hadd & Htl & Hpub & Hreg).
  fold t in Htl, Hpub. pose proof Ht as (Hn & _).
  pose proof (hash_range (partitionCount t) (se_source e) ltac:(lia)) as Hps.
  pose proof (hash_range (partitionCount t) (se_destination e) ltac:(lia)) as Hpd. unfold messages_of.
  set (ps := hash _ (se_source e)) in *. set (pd := hash _ (se_destination e)) in *. cbn zeta.
  set (msg := placed_message graphId e ps pd) in *. set (k := kind_of ps pd) in *.
  assert (Forall (fun p => 0 <= p < 2147483648) (targets ps pd)) as Hr.
  { unfold targets. case_match; repeat constructor; lia. }
  exists h', (zip_with (fun p j => (p, mkDelivery (dump j) j k msg)) (targets ps pd) js). split_and!; try done.
  - clear Hpub R. induction Htl as [|p j' ts js' H1 _ IH]; cbn; [constructor|]. inversion_clear Hr.
    constructor; [by apply tells_addressed|]. by apply IH.
  - clear Hpub R. induction Htl as [|p j' ts js' H1 _ IH]; cbn; [done|]. inversion_clear Hr. f_equal. by apply IH.
  - rewrite Hpub. f_equal. clear Hpub R. induction Htl as [|p j' ts js' H1 _ IH]; cbn; [done|]. inversion_clear Hr.
    f_equal. by apply IH.
Qed.

Lemma listen_run polls : forall es h,
  brings polls es -> partitioner_ok (graphPartitioner h) -> algorithmInUse (graphPartitioner h) = HASH ->
  exists h' xs, listen pow graphId clients nworkers polls h = (Ret false, h') /\
    Forall addressed_ok xs /\ said <$> xs = concat (messages_of (partitionCount (graphPartitioner h)) <$> es) /\
    published h' = published h ++ (publication <$> xs).
Proof.
  induction polls as [|[stop msg] rest IH]; intros es h Hb Ht Ha.
  - cbn in Hb. subst es. exists h, []. cbn. by rewrite app_nil_r.
  - destruct Hb as (-> & Hend & Hb). cbn [listen]. rewrite Hend. destruct msg as [|t|d]; cbn [isErrorInMessage]; [by apply IH..|].
    destruct Hb as (e & es' & j & -> & Hp & Hj & He & Hpl & Hb).
    destruct (edge_addressed h d j e Ht Ha Hp Hj He Hpl) as (h1 & xs1 & R1 & Hadd & F1 & S1 & P1 & _).
    destruct Hadd as [Hok Hc Halg _ _ _ _ _].
    destruct (IH es' h1 Hb Hok) as (h2 & xs2 & R2 & F2 & S2 & P2); [congruence|].
    exists h2, (xs1 ++ xs2). split_and!.
    + cbn [get_payload]. by erewrite bind_Ret; [|exact R1].
    + by apply Forall_app.
    + rewrite fmap_app, S1, S2, Hc. done.
    + rewrite P2, P1, fmap_app. by rewrite <- app_assoc.
Qed.
End runs.
