(* ===== verification/StreamWorker.v ===== *)
(** * StreamWorker: the queues of a worker

    InstanceStreamHandler.cpp of util/kafka: the session of a worker puts every
    message into the queue of its graph and partition, and a thread for each of
    them takes the messages into the local store.  The steps of the session and
    of the threads interleave; a critical section is one step.  The maps of the
    handler have no lock of their own: a message for a new partition changes
    them while the threads of other partitions may be reading them, and then
    anything can happen. *)
From Stdlib Require Import ZArith Ascii String Lia Wf_nat.
From stdpp Require Import base tactics numbers list strings gmap.
From S2P Require Import Prelude FStream PropertyLinks NodeBlock RelationBlock NodeRelations NodeManager Json.
From S2P Require Import IncrementalStore StreamedGraph.

(** ** State *)

(** A thread has its first message to find its store, then it runs in its
    loop. *)
Inductive thread_state := Starting (nodeString : string) | Running | Finished.

#[export] Instance thread_state_eq_dec : EqDecision thread_state.
Proof. solve_decision. Defined.

Record instance_handler := mkInstance {
  queues : gmap string (list string);
  threads : gmap string thread_state;
  incrementalLocalStoreMap : gmap string local_store;
  terminateThreads : bool
}.

Definition set_queue (i : string) (q : list string) (h : instance_handler) : instance_handler :=
  mkInstance (<[i := q]> (queues h)) (threads h) (incrementalLocalStoreMap h) (terminateThreads h).
Definition set_thread (i : string) (t : thread_state) (h : instance_handler) : instance_handler :=
  mkInstance (queues h) (<[i := t]> (threads h)) (incrementalLocalStoreMap h) (terminateThreads h).
Definition set_store (i : string) (l : local_store) (h : instance_handler) : instance_handler :=
  mkInstance (queues h) (threads h) (<[i := l]> (incrementalLocalStoreMap h)) (terminateThreads h).
Definition set_terminate (h : instance_handler) : instance_handler :=
  mkInstance (queues h) (threads h) (incrementalLocalStoreMap h) true.

Definition new_handler : instance_handler := mkInstance ∅ ∅ ∅ false.

Section worker.
Context {HM : HostMemory} `{JT : JsonText}.

(** The configured size of labels, and the files of a partition. *)
Context (max_label_size : nat) (disks : string -> disk).

Definition graph_identifier (graphId partitionId : string) : string := graphId +:+ "_" +:+ partitionId.

Definition extractGraphIdentifier (nodeString : string) : string :=
  let ids := getIDs nodeString in graph_identifier ids.1 (show_long ids.2).

(** The constructor of the local store, without embeddings. *)
Definition new_local_store (graphID partitionID : Z) (mode : string) (d : disk) : outcome local_store :=
  m ← openNodeManager (mkConfig max_label_size (u32 graphID) (u32 partitionID) mode) d;
  Ret (mkLocalStore m false ∅ ∅ ∅ ∅).

(** [loadStreamingStore] without its entry in the map. *)
Definition loadStreamingStore (graphId partitionId mode : string) : outcome local_store :=
  match stoi graphId, stoi partitionId with
  | inr g, inr p => new_local_store g p mode (disks (graph_identifier graphId partitionId))
  | inl e, _ | _, inl e => Throw e
  end.

(** ** The session *)

(** [handleRequest] of a message. *)
Definition handleRequest (nodeString : string) (h : instance_handler) : instance_handler :=
  let i := extractGraphIdentifier nodeString in
  let h := match threads h !! i with
           | None => set_queue i [] (set_thread i (Starting nodeString) h)
           | Some _ => h
           end in
  set_queue i (default [] (queues h !! i) ++ [nodeString]) h.

(** ** The threads *)

(** What the thread of [i] does next: it loads its store, takes a message, or
    ends; [None] when it waits, has ended, or the process fails. *)
Definition thread_next (i : string) (h : instance_handler) : option instance_handler :=
  match threads h !! i with
  | Some (Starting nodeString) =>
      match incrementalLocalStoreMap h !! i with
      | Some _ => Some (set_thread i Running h)
      | None =>
          let ids := getIDs nodeString in
          match loadStreamingStore ids.1 (show_long ids.2) "trunk" with
          | Ret l => Some (set_thread i Running (set_store i l h))
          | _ => None
          end
      end
  | Some Running =>
      if terminateThreads h then Some (set_thread i Finished h)
      else match queues h !! i, incrementalLocalStoreMap h !! i with
           | Some (nodeString :: rest), Some l =>
               match addEdgeFromString nodeString l with
               | (Ret _, l') => Some (set_store i l' (set_queue i rest h))
               | _ => None
               end
           | _, _ => None
           end
  | _ => None
  end.

(** ** Edges of files *)

(** [handleLocalEdge] and [handleCentralEdge]: the caller's thread enters an
    edge itself, into a store that is opened with what its files have. *)
Definition handleEdge (k : kind) (edge graphId partitionId graphIdentifier : string) : M instance_handler unit :=
  h ← get_state;
  match incrementalLocalStoreMap h !! graphIdentifier with
  | Some _ => mret tt
  | None =>
      l ← lift (loadStreamingStore graphId partitionId FILE_MODE);
      modify (set_store (graph_identifier graphId partitionId) l)
  end;;
  h ← get_state;
  l ← determinate (incrementalLocalStoreMap h !! graphIdentifier);
  zoom (fun _ => l) (fun l' h => set_store graphIdentifier l' h)
    (match k with Local => store_addLocalEdge edge | Central => store_addCentralEdge edge end).

(** The session has asked for the end and waits for its threads, or not. *)
Record session := mkSession { handler : instance_handler; joining : bool }.

Definition all_finished (h : instance_handler) : Prop := map_Forall (fun _ t => t = Finished) (threads h).

(** A request for a new identifier adds to the maps of mutexes, threads, queues
    and condition variables, under the lock of the new identifier only; the
    threads of other identifiers look into these maps under their own. *)
Definition races (i : string) (h : instance_handler) : Prop := threads h !! i = None /\ ~ all_finished h.

(** A step takes the next request, if there is one; after a race the session
    can be in any state. *)
Inductive session_step : session -> option string -> session -> Prop :=
| step_request h t :
    t <> "-1" -> ~ races (extractGraphIdentifier t) h ->
    session_step (mkSession h false) (Some t) (mkSession (handleRequest t h) false)
| step_race h t s' :
    t <> "-1" -> races (extractGraphIdentifier t) h -> session_step (mkSession h false) (Some t) s'
| step_end h :
    session_step (mkSession h false) (Some "-1") (mkSession (set_terminate h) true)
| step_joined h :
    all_finished h -> session_step (mkSession h true) None (mkSession h false)
| step_thread i h h' b :
    thread_next i h = Some h' -> session_step (mkSession h b) None (mkSession h' b).

(** The session after the requests [reqs], in order. *)
Inductive serves (s0 : session) : list string -> session -> Prop :=
| serves_start : serves s0 [] s0
| serves_request reqs s t s' : serves s0 reqs s -> session_step s (Some t) s' -> serves s0 (reqs ++ [t]) s'
| serves_step reqs s s' : serves s0 reqs s -> session_step s None s' -> serves s0 reqs s'.
End worker.

(** ** Queues keep the order and lose nothing

    When the messages of a session are for one graph and partition, whatever
    the interleaving of the session and its thread, the store of the partition
    has taken a prefix of the messages, in their order, and the queue has the
    others; until the end of the stream is asked for, the thread takes all of
    them.  With a second partition there is a race. *)

Section theory.
Context {HM : HostMemory} `{JT : JsonText} (max_label_size : nat) (disks : string -> disk).

Notation next := (thread_next max_label_size disks).
Notation load := (loadStreamingStore max_label_size disks).
Notation step := (session_step max_label_size disks).
Notation serves := (serves max_label_size disks).

(** The messages among the requests, and those of one identifier. *)
Definition messages (reqs : list string) : list string := filter (.≠ "-1") reqs.
Definition mine (i : string) (reqs : list string) : list string :=
  filter (fun t => extractGraphIdentifier t = i) (messages reqs).

(** The store that the thread of the first message loads. *)
Definition first_store (ts : list string) : outcome local_store :=
  match ts with
  | [] => Undef
  | t :: _ => load (getIDs t).1 (show_long (getIDs t).2) "trunk"
  end.

Lemma ingest_app xs ys l : ingest (xs ++ ys) l = (ingest xs;; ingest ys) l.
Proof.
  revert l. induction xs as [|t xs IH]; intros l; [done|]. cbn [ingest app]. unfold mbind, M_bind in *.
  by destruct (addEdgeFromString t l) as [[] l1]; try done; apply IH.
Qed.

Lemma ingest_prefix xs ys l u l' :
  ingest (xs ++ ys) l = (Ret u, l') -> exists l1, ingest xs l = (Ret tt, l1) /\ ingest ys l1 = (Ret u, l').
Proof. rewrite ingest_app. intros ([] & l1 & R1 & R2)%bind_Ret_inv. by exists l1. Qed.

(** ** What the threads have done *)

(** Messages taken and messages waiting. *)
Definition taken_so_far (ts : list string) (h : instance_handler) (i : string) : Prop :=
  exists done rest l0 l, ts = done ++ rest /\ queues h !! i = Some rest /\
    incrementalLocalStoreMap h !! i = Some l /\ first_store ts = Ret l0 /\ ingest done l0 = (Ret tt, l).

Definition account (reqs : list string) (h : instance_handler) (i : string) : Prop :=
  let ts := mine i reqs in
  match threads h !! i with
  | None => ts = [] /\ queues h !! i = None /\ incrementalLocalStoreMap h !! i = None
  | Some (Starting t) => head ts = Some t /\ queues h !! i = Some ts /\ incrementalLocalStoreMap h !! i = None
  | Some Running => ts <> [] /\ taken_so_far ts h i
  | Some Finished => ts <> [] /\ taken_so_far ts h i /\ terminateThreads h = true
  end.

(** Only the part of [i] matters. *)
Lemma account_other reqs reqs' h h' i :
  mine i reqs' = mine i reqs -> threads h' !! i = threads h !! i -> queues h' !! i = queues h !! i ->
  incrementalLocalStoreMap h' !! i = incrementalLocalStoreMap h !! i ->
  (terminateThreads h = true -> terminateThreads h' = true) -> account reqs h i -> account reqs' h' i.
Proof.
  unfold account, taken_so_far. intros -> -> -> -> Ht. repeat case_match; try done. intros (? & ? & ?). split_and!; auto.
Qed.

Lemma messages_snoc reqs t : messages (reqs ++ [t]) = messages reqs ++ (if decide (t = "-1") then [] else [t]).
Proof.
  unfold messages. rewrite filter_app. f_equal. case_decide as E.
  - by rewrite filter_cons_False by (by intros []).
  - by rewrite filter_cons_True.
Qed.

Lemma mine_snoc i reqs t : t <> "-1" ->
  mine i (reqs ++ [t]) = mine i reqs ++ (if decide (extractGraphIdentifier t = i) then [t] else []).
Proof.
  intros Ht. unfold mine. rewrite messages_snoc, (decide_False (P := t = "-1")), filter_app by done.
  destruct (decide (extractGraphIdentifier t = i)); [by rewrite filter_cons_True|by rewrite filter_cons_False].
Qed.

Lemma mine_end i reqs : mine i (reqs ++ ["-1"]) = mine i reqs.
Proof. unfold mine. by rewrite messages_snoc, decide_True, app_nil_r. Qed.

Lemma first_store_app ts us : ts <> [] -> first_store (ts ++ us) = first_store ts.
Proof. by destruct ts. Qed.

(** A request. *)
Lemma request_account reqs h t i : t <> "-1" -> account reqs h i -> account (reqs ++ [t]) (handleRequest t h) i.
Proof.
  intros Ht Ha. destruct (decide (extractGraphIdentifier t = i)) as [<-|Hne].
  - pose proof (mine_snoc (extractGraphIdentifier t) reqs t Ht) as Hm. rewrite decide_True in Hm by done.
    set (i := extractGraphIdentifier t) in *. unfold account in Ha |- *. rewrite Hm. unfold handleRequest. fold i.
    destruct (threads h !! i) as [st|] eqn:Et.
    + cbn [threads set_queue]. rewrite Et. destruct st as [t0| |].
      * destruct Ha as (Hh & Hq & Hs). split_and!; [by destruct (mine i reqs)| |done]. cbn. by rewrite lookup_insert_eq, Hq.
      * destruct Ha as (Hn & dn & rest & l0 & l & E & Hq & Hs & H0 & Hi). split; [by destruct (mine i reqs)|].
        exists dn, (rest ++ [t]), l0, l. split_and!; try done; [by rewrite E, app_assoc|cbn; by rewrite lookup_insert_eq, Hq|by rewrite first_store_app].
      * destruct Ha as (Hn & (dn & rest & l0 & l & E & Hq & Hs & H0 & Hi) & Hterm). split; [by destruct (mine i reqs)|]. split; [|done].
        exists dn, (rest ++ [t]), l0, l. split_and!; try done; [by rewrite E, app_assoc|cbn; by rewrite lookup_insert_eq, Hq|by rewrite first_store_app].
    + destruct Ha as (E & Hq & Hs). cbn. rewrite !lookup_insert_eq. rewrite E. split_and!; try done.
  - eapply account_other; [..|exact Ha]; unfold handleRequest.
    + rewrite mine_snoc, decide_False by done. by rewrite app_nil_r.
    + case_match; cbn; [done|]. by rewrite lookup_insert_ne.
    + case_match; cbn; by rewrite ?lookup_insert_ne.
    + by case_match.
    + by case_match.
Qed.

(** A step of a thread. *)
Lemma thread_account reqs h h' j i : next j h = Some h' -> account reqs h i -> account reqs h' i.
Proof.
  intros Hn Ha. unfold thread_next in Hn. destruct (threads h !! j) as [[t| |]|] eqn:Et; [| |done..].
  - destruct (decide (i = j)) as [->|Hne].
    + unfold account in Ha |- *. rewrite Et in Ha. destruct Ha as (Hh & Hq & Hs). rewrite Hs in Hn.
      destruct (load _ _ _) as [l| | | | |] eqn:El; try done. injection Hn as <-. cbn. rewrite lookup_insert_eq.
      destruct (mine j reqs) as [|t' ts] eqn:Em; [done|]. injection Hh as ->. split; [done|].
      exists [], (t :: ts), l, l. cbn. by rewrite lookup_insert_eq.
    + assert (threads h' !! i = threads h !! i /\ queues h' !! i = queues h !! i /\ 
        incrementalLocalStoreMap h' !! i = incrementalLocalStoreMap h !! i /\ terminateThreads h' = terminateThreads h) as (E1 & E2 & E3 & E4).
      { repeat case_match; try done; injection Hn as <-; cbn; by rewrite ?lookup_insert_ne. }
      apply (account_other reqs reqs h); [done..|by rewrite E4|exact Ha].
  - destruct (terminateThreads h) eqn:Eterm.
    + injection Hn as <-. destruct (decide (i = j)) as [->|Hne].
      * unfold account in Ha |- *. rewrite Et in Ha. cbn. rewrite lookup_insert_eq. destruct Ha as [? ?]. by split.
      * apply (account_other reqs reqs h); [done|cbn; by rewrite lookup_insert_ne|done..|exact Ha].
    + destruct (queues h !! j) as [[|t rest]|] eqn:Eq; try done.
      destruct (incrementalLocalStoreMap h !! j) as [l|] eqn:El; try done.
      destruct (addEdgeFromString t l) as [[[]| | | | |] l'] eqn:Er; try done. injection Hn as <-.
      destruct (decide (i = j)) as [->|Hne].
      * unfold account in Ha |- *. cbn. rewrite Et in *. destruct Ha as (Hne & dn & rest' & l0 & l1 & E & Hq & Hs & H0 & Hi).
        split; [done|]. rewrite Eq in Hq. injection Hq as <-. rewrite El in Hs. injection Hs as <-.
        exists (dn ++ [t]), rest, l0, l'. cbn. rewrite !lookup_insert_eq. split_and!; try done; [by rewrite <- app_assoc|].
        rewrite ingest_app. erewrite bind_Ret; [|exact Hi]. cbn. by erewrite bind_Ret; [|exact Er].
      * apply (account_other reqs reqs h); [done|done|cbn; by rewrite lookup_insert_ne..|done|exact Ha].
Qed.

(** The messages are for one graph and partition. *)
Definition single (reqs : list string) : Prop :=
  forall t u, t ∈ messages reqs -> u ∈ messages reqs -> extractGraphIdentifier t = extractGraphIdentifier u.

Lemma single_prefix reqs t : single (reqs ++ [t]) -> single reqs.
Proof. intros H u v Hu Hv. apply H; unfold messages; rewrite filter_app; apply elem_of_app; by left. Qed.

Lemma account_mine reqs h i st : account reqs h i -> threads h !! i = Some st -> mine i reqs <> [].
Proof. unfold account. intros Ha E. rewrite E in Ha. destruct st; try (by destruct Ha). destruct Ha as [Ha _]. intros E'. by rewrite E' in Ha. Qed.

Lemma mine_identifier reqs i : mine i reqs <> [] -> i ∈ extractGraphIdentifier <$> messages reqs.
Proof.
  unfold mine. destruct (filter _ _) as [|t ts] eqn:E; [done|]. intros _. apply list_elem_of_fmap.
  exists t. assert (t ∈ t :: ts) as Ht by left. rewrite <- E in Ht. apply list_elem_of_filter in Ht as [<- ?]. done.
Qed.

Lemma single_no_race reqs t h :
  t <> "-1" -> single (reqs ++ [t]) -> (forall i, account reqs h i) -> ~ races (extractGraphIdentifier t) h.
Proof.
  intros Ht Hs Ha [Hnone Hlive]. apply Hlive. intros j st Hj.
  pose proof (account_mine _ _ _ _ (Ha j) Hj) as Hm. apply mine_identifier, list_elem_of_fmap in Hm as (u & Hu & Hin).
  exfalso. assert (extractGraphIdentifier t = j) as E; [|congruence]. rewrite Hu.
  apply Hs; rewrite messages_snoc, decide_False by done; apply elem_of_app; [right; left|by left].
Qed.

Lemma serves_account reqs s :
  serves (mkSession new_handler false) reqs s -> single reqs -> forall i, account reqs (handler s) i.
Proof.
  induction 1 as [|reqs s t s' _ IH Hs|reqs s s' _ IH Hs]; intros H1.
  - done.
  - specialize (IH (single_prefix _ _ H1)). inversion Hs; subst; cbn in *; intros i; [by apply request_account| |].
    + exfalso. by eapply single_no_race.
    + apply (account_other reqs _ h); [apply mine_end|done..|apply IH].
  - specialize (IH H1). intros i. inversion Hs; subst; cbn in *; [apply IH|]. by eapply thread_account; [|apply IH].
Qed.

(** ** Every message is taken *)

(** Every execution of the threads reaches [P]. *)
Inductive threads_reach (P : instance_handler -> Prop) : instance_handler -> Prop :=
| reach_now h : P h -> threads_reach P h
| reach_later h :
    (exists i h', next i h = Some h') -> (forall i h', next i h = Some h' -> threads_reach P h') -> threads_reach P h.

Lemma threads_reach_mono (P Q : instance_handler -> Prop) h :
  (forall h, P h -> Q h) -> threads_reach P h -> threads_reach Q h.
Proof. intros HPQ. induction 1 as [h H|h H _ IH]; [apply reach_now; auto|by apply reach_later]. Qed.

(** What the thread of [i] has still to do. *)
Definition thread_work (h : instance_handler) (i : string) : nat :=
  match threads h !! i with Some (Starting _) => 1 | _ => 0 end + length (default [] (queues h !! i)).

Lemma thread_progress i h h' :
  terminateThreads h = false -> next i h = Some h' ->
  (thread_work h' i < thread_work h i)%nat /\ (forall j, j <> i -> thread_work h' j = thread_work h j) /\
  terminateThreads h' = false.
Proof.
  intros Hterm Hn. unfold thread_next in Hn. rewrite Hterm in Hn. unfold thread_work.
  destruct (threads h !! i) as [[t| |]|] eqn:Et; try done.
  - assert (exists h1, h' = set_thread i Running h1 /\ threads h1 = threads h /\ queues h1 = queues h /\ terminateThreads h1 = false)
      as (h1 & -> & E1 & E2 & E3).
    { repeat case_match; try done; injection Hn as <-; eexists; (split; [reflexivity|done]). }
    cbn. rewrite lookup_insert_eq, E1, E2. split_and!; [lia| |done]. intros j Hj. by rewrite lookup_insert_ne.
  - destruct (queues h !! i) as [[|t rest]|] eqn:Eq; try done.
    destruct (incrementalLocalStoreMap h !! i) as [l|]; try done.
    destruct (addEdgeFromString t l) as [[[]| | | | |] l']; try done. injection Hn as <-. cbn.
    rewrite Et, lookup_insert_eq. split_and!; [cbn; lia| |done]. intros j Hj. by rewrite lookup_insert_ne.
Qed.

Definition all_work (ids : list string) (h : instance_handler) : nat := sum_list (thread_work h <$> ids).

Lemma sum_decreases {A} `{EqDecision A} (f g : A -> nat) (i : A) l :
  i ∈ l -> (g i < f i)%nat -> (forall j, j <> i -> g j = f j) -> (sum_list (g <$> l) < sum_list (f <$> l))%nat.
Proof.
  intros Hi Hlt Heq. assert (forall l', (sum_list (g <$> l') <= sum_list (f <$> l'))%nat) as Hle.
  { induction l' as [|x l' IH]; cbn; [lia|]. destruct (decide (x = i)) as [->|]; [lia|]. rewrite Heq by done. lia. }
  induction l as [|x l IH]; [by apply not_elem_of_nil in Hi|]. cbn. destruct (decide (x = i)) as [->|Hne].
  - specialize (Hle l). lia.
  - rewrite Heq by done. apply elem_of_cons in Hi as [->|Hi]; [done|]. specialize (IH Hi). lia.
Qed.

(** The messages can be taken, from the first to the last. *)
Definition ingestible (reqs : list string) (i : string) : Prop :=
  exists l0 l, first_store (mine i reqs) = Ret l0 /\ ingest (mine i reqs) l0 = (Ret tt, l).

(** The store of [i] has all the messages for it. *)
Definition all_taken (reqs : list string) (h : instance_handler) : Prop :=
  forall i, mine i reqs <> [] -> exists l0 l, first_store (mine i reqs) = Ret l0 /\ ingest (mine i reqs) l0 = (Ret tt, l) /\
    incrementalLocalStoreMap h !! i = Some l.

(** A thread that has something left to do can do it. *)
Lemma thread_alive reqs h i :
  terminateThreads h = false -> account reqs h i -> mine i reqs <> [] -> ingestible reqs i ->
  (exists l0 l, first_store (mine i reqs) = Ret l0 /\ ingest (mine i reqs) l0 = (Ret tt, l) /\ incrementalLocalStoreMap h !! i = Some l)
  \/ exists h', next i h = Some h'.
Proof.
  intros Hterm Ha Hm (l0 & l & H0 & Hl). unfold account in Ha. unfold thread_next. rewrite Hterm.
  destruct (threads h !! i) as [[t| |]|] eqn:Et.
  - right. destruct Ha as (Hh & _ & Hs). rewrite Hs. destruct (mine i reqs) as [|t' ts]; [done|]. injection Hh as ->.
    cbn in H0. rewrite H0. by eexists.
  - destruct Ha as (_ & dn & rest & l0' & l1 & E & Hq & Hs & H0' & Hi). rewrite H0 in H0'. injection H0' as <-.
    rewrite Hq, Hs. destruct rest as [|t rest].
    + left. rewrite app_nil_r in E. rewrite E in *. exists l0, l1. by split_and!.
    + right. rewrite E in Hl. apply ingest_prefix in Hl as (l2 & R1 & R2). rewrite Hi in R1. injection R1 as <-.
      cbn in R2. apply bind_Ret_inv in R2 as ([] & l3 & R3 & _). rewrite R3. by eexists.
  - destruct Ha as (_ & _ & Hf). congruence.
  - by destruct Ha as (? & _).
Qed.

Lemma threads_take_all reqs h :
  terminateThreads h = false -> (forall i, account reqs h i) -> (forall i, mine i reqs <> [] -> ingestible reqs i) ->
  threads_reach (all_taken reqs) h.
Proof.
  intros Hterm Ha Hok. set (ids := extractGraphIdentifier <$> messages reqs).
  induction h as [h IH] using (well_founded_induction (well_founded_ltof _ (all_work ids))).
  destruct (decide (Forall (fun i => next i h = None) ids)) as [Hf|Hf].
  - apply reach_now. intros i Hm. destruct (thread_alive reqs h i Hterm (Ha i) Hm (Hok i Hm)) as [H|[h' Hn]]; [done|].
    rewrite Forall_forall in Hf. specialize (Hf i (mine_identifier _ _ Hm)). congruence.
  - apply reach_later.
    + apply not_Forall_Exists in Hf; [|apply _]. apply Exists_exists in Hf as (i & _ & Hi). cbn in Hi.
      destruct (next i h) as [h'|] eqn:E; [by exists i, h'|done].
    + intros i h' Hn. destruct (thread_progress i h h' Hterm Hn) as (H1 & H2 & H3). apply IH; [|done|].
      * unfold ltof, all_work. apply (sum_decreases _ _ i); [|done|done]. apply mine_identifier.
        unfold thread_next in Hn. destruct (threads h !! i) as [st|] eqn:E; [|done]. by eapply account_mine.
      * intros j. by eapply thread_account.
Qed.

Lemma serves_open reqs s : serves (mkSession new_handler false) reqs s -> single reqs -> "-1" ∉ reqs ->
  terminateThreads (handler s) = false /\ joining s = false.
Proof.
  induction 1 as [|reqs s t s' Hsv IH Hs|reqs s s' _ IH Hs]; intros H1 Hn; [done|..].
  - pose proof (serves_account _ _ Hsv (single_prefix _ _ H1)) as Ha.
    rewrite elem_of_app, list_elem_of_singleton in Hn. destruct IH as [I1 I2]; [by eapply single_prefix|tauto|].
    inversion Hs; subst; cbn in *; [|exfalso; by eapply single_no_race|exfalso; tauto].
    split; [|done]. unfold handleRequest. by case_match.
  - destruct (IH H1 Hn) as [I1 I2]. inversion Hs; subst; cbn in *; [done|]. split; [|done].
    by eapply thread_progress.
Qed.

(** C13. The queue of a worker: in a session whose messages are all for one
    graph and partition, whatever the interleaving of the session and its
    thread, at every moment the store of the partition has taken the first of
    the messages, in the order they came, and the others are in its queue; and
    if there is no message that asks for the end, and if the messages can all
    be taken one after the other by the store that the first one opens, every
    execution of the thread comes to the point where the store has taken all of
    them. *)
Theorem queues_deliver reqs s :
  serves (mkSession new_handler false) reqs s -> single reqs ->
  (forall i l, incrementalLocalStoreMap (handler s) !! i = Some l -> exists done rest l0,
     mine i reqs = done ++ rest /\ queues (handler s) !! i = Some rest /\
     first_store (mine i reqs) = Ret l0 /\ ingest done l0 = (Ret tt, l)) /\
  ("-1" ∉ reqs -> (forall i, mine i reqs <> [] -> ingestible reqs i) ->
     threads_reach (all_taken reqs) (handler s)).
Proof.
  intros Hs H1. pose proof (serves_account _ _ Hs H1) as Ha. split.
  - intros i l Hl. specialize (Ha i). unfold account in Ha.
    assert (taken_so_far (mine i reqs) (handler s) i) as (dn & rest & l0 & l' & E & Hq & Hl' & H0 & Hi).
    { repeat case_match; try tauto; (destruct Ha as (_ & _ & Ha); congruence). }
    rewrite Hl in Hl'. injection Hl' as <-. by exists dn, rest, l0.
  - intros Hn Hok. destruct (serves_open _ _ Hs H1 Hn) as [Ht _]. by apply threads_take_all.
Qed.

(** Two partitions on one worker: the second one can make the session reach
    any state. *)
Lemma two_partitions_race t u s' :
  t <> "-1" -> u <> "-1" -> extractGraphIdentifier t <> extractGraphIdentifier u ->
  serves (mkSession new_handler false) [t; u] s'.
Proof.
  intros Ht Hu Hne. apply (serves_request _ _ _ [t] (mkSession (handleRequest t new_handler) false)).
  - apply (serves_request _ _ _ [] (mkSession new_handler false)); [constructor|]. apply step_request; [done|].
    intros [_ H]. apply H. apply map_Forall_empty.
  - assert (threads (handleRequest t new_handler) = <[extractGraphIdentifier t := Starting t]> ∅) as E.
    { unfold handleRequest. cbn [threads new_handler]. by rewrite lookup_empty. }
    apply step_race; [done|]. split; [by rewrite E, lookup_insert_ne, lookup_empty|].
    intros H. specialize (H (extractGraphIdentifier t) (Starting t)). rewrite E, lookup_insert_eq in H.
    by specialize (H eq_refl).
Qed.
End theory.
