(* ===== verification/StreamedCluster.v ===== *)
(** * StreamedCluster: a topic becomes a distributed graph

    The thread of the master that listens to a topic, the partitioner, the
    queues of the workers and the stores of the partitions put together: when
    the threads of the workers have taken what was published, every partition
    holds the property graph of the edges with a vertex in it, and a scan of
    its nodes returns it. *)
From Stdlib Require Import ZArith Ascii String Lia.
From stdpp Require Import functions base tactics numbers list strings gmap.
From S2P Require Import Prelude FStream PropertyLinks NodeBlock RelationBlock NodeManager ManagerTheory PropertyOwners.
From S2P Require Import HashMapStores WorkerSessions Partition Partitioner PartitionerTheory Cluster Json IncrementalStore IncrementalTheory.
From S2P Require Import PropertyGraph CypherScans ScanTheory StreamedGraph StreamInput StreamWorker.

(** ** Edges that the stores can take *)

Record storable (keysz : nat) (e : stream_edge) : Prop := {
  so_source : id_ok keysz (se_source e);
  so_destination : id_ok keysz (se_destination e);
  so_source_items : Forall item_fits (se_source_props e);
  so_destination_items : Forall item_fits (se_destination_props e);
  so_items : Forall edge_item_fits (se_props e);
  so_sorted : sorted_items (se_props e)
}.

(** The links that an edge may need in one database of a partition. *)
Definition stream_links (e : stream_edge) : nat :=
  length (se_source_props e) + length (se_destination_props e) + length (se_props e) + 4.

Section cluster.
Context {HM : HostMemory} `{JT : JsonText} (pow : double -> double -> double).
Context (graphId : Z) (Hg : is_i32 graphId).
Context (clients : nat) (nworkers : string) (nw : Z) (Hnw : atoi nworkers = Some nw) (Hw : 0 < nw <= Z.of_nat clients).
Context (max_label_size : nat) (disks : string -> disk).

Definition key_size : nat := if decide (max_label_size = 0%nat) then 6%nat else max_label_size.

Lemma storable_fits k e ps pd :
  storable key_size e -> se_source e <> se_destination e ->
  fits_store k key_size (placed_message graphId e ps pd).
Proof.
  intros [H1 H2 H3 H4 H5 H6] Hne. split; try done. split_and!; cbn.
  - apply Forall_forall. intros kv [->|Hkv]%set_item_elem; [|rewrite Forall_forall in H5; by apply H5].
    split_and!; [split; [by apply (bool_decide_unpack _); vm_compute|cbn; lia]|by apply show_fits|done].
  - by apply sorted_items_nodup, sorted_set_item.
  - intros _. by apply set_item_head.
Qed.

(** ** What a partition gets *)

Definition for_partition (n p : Z) (es : list stream_edge) : list (kind * edge_message) :=
  (filter (fun x => x.1 = p) (concat (messages_of graphId n <$> es))).*2.

Definition partition_graph (n p : Z) (es : list stream_edge) : property_graph :=
  foldl (fun P km => edge_arrives km.1 km.2 P) empty_pg (for_partition n p es).

(** The deliveries among the publications. *)
Definition deliveries (p : Z) (xs : list addressed) : list delivery := (filter (fun x => x.1 = p) xs).*2.

Definition says (x : delivery) : kind * edge_message := (dl_kind x, dl_message x).

Lemma deliveries_said p xs : says <$> deliveries p xs = (filter (fun x => x.1 = p) (said <$> xs)).*2.
Proof.
  unfold deliveries. induction xs as [|[q x] xs IH]; [done|]. cbn [fmap list_fmap]. rewrite !filter_cons. cbn [fst said].
  case_decide; cbn; by rewrite <- IH.
Qed.

Lemma deliveries_graph p xs n es :
  said <$> xs = concat (messages_of graphId n <$> es) ->
  foldl arrives empty_pg (deliveries p xs) = partition_graph n p es.
Proof.
  intros E. unfold partition_graph, for_partition. rewrite <- E, <- deliveries_said. generalize empty_pg.
  induction (deliveries p xs) as [|x ds IH]; intros P; [done|]. apply IH.
Qed.

(** Every message comes from an edge. *)
Lemma said_edge xs n es x :
  said <$> xs = concat (messages_of graphId n <$> es) -> x ∈ xs -> exists e, e ∈ es /\
    let ps := hash n (se_source e) in let pd := hash n (se_destination e) in
    x.1 ∈ targets ps pd /\ says x.2 = (kind_of ps pd, placed_message graphId e ps pd).
Proof.
  intros E Hx. assert (said x ∈ concat (messages_of graphId n <$> es)) as Hs by (rewrite <- E; by apply list_elem_of_fmap_2).
  apply elem_concat in Hs as (ms & (e & -> & He)%list_elem_of_fmap & Hm). exists e. split; [done|].
  unfold messages_of in Hm. apply list_elem_of_fmap in Hm as (p & Hp & Ht). unfold said in Hp.
  injection Hp as E1 E2 E3. unfold says. cbn zeta. by rewrite E1, E2, E3.
Qed.

Lemma targets_range n e p : 0 < n -> p ∈ targets (hash n (se_source e)) (hash n (se_destination e)) -> 0 <= p < n.
Proof.
  intros Hn. pose proof (hash_range n (se_source e) Hn). pose proof (hash_range n (se_destination e) Hn).
  unfold targets. case_match; rewrite ?elem_of_cons, ?elem_of_nil; intros Hp; destruct_or?; subst; done.
Qed.

(** *** Links *)

Definition message_links (ms : list (kind * edge_message)) : nat := sum_list ((fun km => links_needed km.2) <$> ms).

Lemma message_links_app ms ms' : message_links (ms ++ ms') = (message_links ms + message_links ms')%nat.
Proof. unfold message_links. induction ms as [|m ms IH]; cbn; [done|]. rewrite IH. lia. Qed.

Lemma edge_links n p e : (message_links (filter (fun x => x.1 = p) (messages_of graphId n e)).*2 <= stream_links e)%nat.
Proof.
  assert (forall ps pd, links_needed (placed_message graphId e ps pd) <= stream_links e)%nat as Hl.
  { intros ps pd. unfold links_needed, stream_links. cbn.
    pose proof (length_set_item "graphId" (show_long graphId) (se_props e)). lia. }
  unfold messages_of, targets. destruct (Z.eqb_spec (hash n (se_source e)) (hash n (se_destination e))) as [E|E]; cbn [fmap list_fmap].
  - specialize (Hl (hash n (se_source e)) (hash n (se_destination e))). rewrite filter_cons, filter_nil. cbn [fst].
    case_decide; unfold message_links; cbn -[links_needed placed_message stream_links hash]; lia.
  - specialize (Hl (hash n (se_source e)) (hash n (se_destination e))). rewrite !filter_cons, filter_nil. cbn [fst].
    repeat case_decide; try congruence; unfold message_links; cbn -[links_needed placed_message stream_links hash]; lia.
Qed.

Lemma partition_links n p es : (message_links (for_partition n p es) <= sum_list (stream_links <$> es))%nat.
Proof.
  unfold for_partition. induction es as [|e es IH]; [done|].
  assert (sum_list (stream_links <$> e :: es) = stream_links e + sum_list (stream_links <$> es))%nat as -> by done.
  rewrite fmap_cons. cbn [concat]. rewrite filter_app, fmap_app, message_links_app. pose proof (edge_links n p e). lia.
Qed.

Lemma deliveries_links p xs n es :
  said <$> xs = concat (messages_of graphId n <$> es) -> (all_links (deliveries p xs) <= sum_list (stream_links <$> es))%nat.
Proof.
  intros E. etransitivity; [|apply (partition_links n p)]. unfold for_partition. rewrite <- E, <- deliveries_said.
  unfold all_links, message_links. by rewrite <- list_fmap_compose.
Qed.

(** *** Identifiers *)

Definition identifier (p : Z) : string := graph_identifier (show_long graphId) (show_long p).

Lemma identifier_inj p q : identifier p = identifier q -> p = q.
Proof.
  unfold identifier, graph_identifier. intros E. apply (f_equal chars) in E. rewrite !chars_app in E.
  apply app_inv_head in E. injection E as E. apply chars_inj in E. by apply show_long_inj.
Qed.

Lemma addressed_identifier x : addressed_ok graphId x -> extractGraphIdentifier (dl_text x.2) = identifier x.1.
Proof. intros (E & _). unfold extractGraphIdentifier. by rewrite E. Qed.

(** What is published to a worker. *)
Definition texts_for (w : Z) (pubs : list (Z * string)) : list string := (filter (fun x => x.1 = w) pubs).*2.

Lemma texts_no_end w xs : Forall (addressed_ok graphId) xs -> "-1" ∉ texts_for w (publication nw <$> xs).
Proof.
  intros Hx ([w' t] & E & [_ Ht]%list_elem_of_filter)%list_elem_of_fmap. cbn in E. subst t.
  apply list_elem_of_fmap in Ht as (x & E & Hin). rewrite Forall_forall in Hx. destruct (Hx x Hin) as (_ & _ & _ & Hne).
  injection E as _ E. congruence.
Qed.

Lemma mine_texts w p xs :
  Forall (addressed_ok graphId) xs -> Z.rem p nw = w ->
  mine (identifier p) (texts_for w (publication nw <$> xs)) = dl_text <$> deliveries p xs.
Proof.
  intros Hx <-. unfold mine, messages, texts_for, deliveries. induction Hx as [|[q x] xs Hq _ IH]; [done|].
  rewrite fmap_cons, filter_cons. cbn [fst publication].
  pose proof (addressed_identifier _ Hq) as Hid. destruct Hq as (_ & _ & _ & Hne). cbn [snd fst] in Hid, Hne.
  destruct (decide (q = p)) as [->|Hqp].
  - rewrite decide_True by done. rewrite (filter_cons_True _ (p, x)) by done. rewrite !fmap_cons. cbn [snd publication].
    rewrite !filter_cons_True by done. by rewrite IH.
  - rewrite (filter_cons_False _ (q, x)) by done. case_decide; [|done]. rewrite fmap_cons. cbn [snd publication].
    rewrite filter_cons_True by done. rewrite filter_cons_False; [done|]. rewrite Hid. by intros ?%identifier_inj.
Qed.

Lemma mine_some w i xs :
  Forall (addressed_ok graphId) xs -> mine i (texts_for w (publication nw <$> xs)) <> [] ->
  exists x, x ∈ xs /\ i = identifier x.1 /\ Z.rem x.1 nw = w.
Proof.
  intros Hx Hm. unfold mine, messages, texts_for in Hm. destruct (filter _ (filter _ _)) as [|t ts] eqn:E; [done|].
  assert (t ∈ t :: ts) as Ht by left. rewrite <- E in Ht. apply list_elem_of_filter in Ht as [<- Ht].
  apply list_elem_of_filter in Ht as [_ Ht]. apply list_elem_of_fmap in Ht as ([w' t'] & -> & Ht).
  apply list_elem_of_filter in Ht as [E' Ht]. apply list_elem_of_fmap in Ht as (x & Ep & Hin). injection Ep as -> ->.
  exists x. split_and!; try done. rewrite Forall_forall in Hx. by apply addressed_identifier, Hx.
Qed.
(** With at most as many partitions as workers, a worker has one. *)
Lemma texts_single w n xs es : 0 < n <= nw ->
  Forall (addressed_ok graphId) xs -> said <$> xs = concat (messages_of graphId n <$> es) ->
  single (texts_for w (publication nw <$> xs)).
Proof.
  intros Hn Hx E.
  assert (forall t, t ∈ messages (texts_for w (publication nw <$> xs)) -> extractGraphIdentifier t = identifier w) as H;
    [|intros t u Ht Hu; by rewrite (H t Ht), (H u Hu)].
  intros t [_ ([w' t'] & -> & [Ew (x & Ep & Hin)%list_elem_of_fmap]%list_elem_of_filter)%list_elem_of_fmap]%list_elem_of_filter.
  injection Ep as -> ->. cbn in Ew |- *. rewrite Forall_forall in Hx. rewrite (addressed_identifier _ (Hx x Hin)).
  destruct (said_edge xs n es x E Hin) as (e & _ & Ht & _). apply targets_range in Ht; [|lia].
  rewrite <- Ew. by rewrite Z.rem_small by lia.
Qed.

(** ** The stores *)

Lemma load_new p :
  0 <= p < 2147483648 -> d_index (disks (identifier p)) = [] ->
  exists l0, loadStreamingStore max_label_size disks (show_long graphId) (show_long p) "trunk" = Ret l0 /\
    holds (nm l0) empty_pg [] None /\ (forall k, Z.of_nat k < 9000000 -> space k (dbs (nm l0))) /\
    INDEX_KEY_SIZE (nm l0) = key_size.
Proof.
  intros Hp Hd. unfold loadStreamingStore. rewrite stoi_show by exact Hg. rewrite stoi_show by lia.
  unfold new_local_store. fold (identifier p).
  destruct (new_partition_holds (mkConfig max_label_size (u32 graphId) (u32 p) "trunk") (disks (identifier p))) as (m & Hm & H1 & H2 & H3);
    [done|done|].
  rewrite Hm. eexists. by split_and!.
Qed.

Lemma deliveries_acceptable n p xs es :
  Forall (addressed_ok graphId) xs -> said <$> xs = concat (messages_of graphId n <$> es) ->
  Forall placeable es -> Forall (storable key_size) es -> Forall (acceptable key_size) (deliveries p xs).
Proof.
  intros Hx E Hpl Hst. apply Forall_forall. intros d ([q x] & -> & [_ Hin]%list_elem_of_filter)%list_elem_of_fmap.
  destruct (said_edge xs n es (q, x) E Hin) as (e & He & _ & Hs). cbn [snd] in *. injection Hs as Hk Hmsg.
  destruct (proj1 (Forall_forall _ _) Hx _ Hin) as (_ & Hm & Hki & _).
  destruct (proj1 (Forall_forall _ _) Hpl _ He) as (_ & _ & Hne).
  split_and!; [done|done|]. rewrite Hmsg. by apply storable_fits; [apply (proj1 (Forall_forall _ _) Hst)|].
Qed.

Lemma partition_ingests n p xs es :
  Forall (addressed_ok graphId) xs -> said <$> xs = concat (messages_of graphId n <$> es) ->
  Forall placeable es -> Forall (storable key_size) es -> Z.of_nat (sum_list (stream_links <$> es)) < 9000000 ->
  0 <= p < 2147483648 -> d_index (disks (identifier p)) = [] -> deliveries p xs <> [] ->
  exists l0 l, first_store max_label_size disks (dl_text <$> deliveries p xs) = Ret l0 /\
    ingest (dl_text <$> deliveries p xs) l0 = (Ret tt, l) /\ holds (nm l) (partition_graph n p es) [] None.
Proof.
  intros Hx E Hpl Hst Hlinks Hp Hd Hne. destruct (load_new p Hp Hd) as (l0 & Hl & Hh & Hs & Hk).
  pose proof (deliveries_acceptable n p xs es Hx E Hpl Hst) as Hacc. rewrite <- Hk in Hacc.
  pose proof (deliveries_links p xs n es E) as Hdl.
  destruct (ingest_run_all (deliveries p xs) l0 empty_pg 0 Hh Hacc) as (l & R & Hh' & _);
    [apply room_empty; lia|apply Hs; lia|].
  exists l0, l. split_and!; [|done|by rewrite <- (deliveries_graph p xs n es E)].
  destruct (deliveries p xs) as [|x ds] eqn:Ed; [done|]. cbn [fmap list_fmap first_store].
  assert ((p, x) ∈ xs) as Hin.
  { assert (x ∈ deliveries p xs) as Hin by (rewrite Ed; left). unfold deliveries in Hin.
    apply list_elem_of_fmap in Hin as ([q y] & -> & [<- Hin]%list_elem_of_filter). done. }
  rewrite Forall_forall in Hx. destruct (Hx _ Hin) as (Hids & _). cbn [snd] in Hids. by rewrite Hids.
Qed.

Lemma brings_placeable polls es : brings polls es -> Forall placeable es.
Proof.
  revert es. induction polls as [|[stop msg] rest IH]; intros es; cbn; [by intros ->|]. intros (_ & _ & H).
  destruct msg; [by apply IH..|]. destruct H as (e & es' & j & -> & _ & _ & _ & Hp & Hb). constructor; [done|]. by apply IH.
Qed.

Lemma partition_complete n p es : complete (partition_graph n p es).
Proof.
  unfold partition_graph. assert (complete empty_pg) as H by (by intros s ?%not_elem_of_nil). revert H. generalize empty_pg.
  induction (for_partition n p es) as [|km kms IH]; intros P H; [done|]. by apply IH, complete_arrives.
Qed.

(** ** The cluster *)

(** The partition [p] has its part of the graph, and the scan of its nodes
    returns the rows of the vertices it owns. *)
Definition partition_served (n p : Z) (es : list stream_edge) (h : instance_handler) : Prop :=
  exists l, incrementalLocalStoreMap h !! identifier p = Some l /\ holds (nm l) (partition_graph n p es) [] None /\
    forall workers query variable ds, ds ≡ₚ listing (partition_graph n p es) ->
      index "variables" query = Ret (JString variable) -> 1 <= workers < 2147483648 ->
      exists m', AllNodeScan p workers (fun _ => dbs (nm l)) query (entry_of <$> ds) (nm l) =
        (Ret (concat (node_row p variable None <$> ds)), m').

(** C3. A topic becomes a distributed graph.  The topic brings edges that are
    not loops, whose vertices have numbers that are not negative, with
    properties that the stores can take, and no end message yet; there are not
    more partitions than workers, and the databases are new.  The thread that
    listens to the topic publishes, for every edge, a local message to the
    worker of the partition of both vertices or a central message to the
    workers of the two partitions; and in every session of a worker that gets
    what was published to it, whatever the interleaving, the thread comes to
    the point where the partition of that worker, if it got an edge, holds the
    property graph of the edges with a vertex in it, which the scan of its
    nodes returns. *)
Theorem streamed_cluster polls es n h :
  brings polls es -> 0 < n <= nw -> n < 2147483648 ->
  graphPartitioner h = newPartitioner n graphId HASH false -> published h = [] ->
  Forall (storable key_size) es -> Z.of_nat (sum_list (stream_links <$> es)) < 9000000 ->
  (forall p, 0 <= p < n -> d_index (disks (identifier p)) = []) ->
  exists h', listen pow graphId clients nworkers polls h = (Ret false, h') /\
    forall w s, serves max_label_size disks (mkSession new_handler false) (texts_for w (published h')) s ->
      threads_reach max_label_size disks
        (fun hd => forall p, 0 <= p < n -> Z.rem p nw = w -> for_partition n p es <> [] -> partition_served n p es hd)
        (handler s).
Proof.
  intros Hb Hn Hn31 Hh Hpub Hst Hlinks Hd. pose proof (brings_placeable _ _ Hb) as Hpl.
  destruct (listen_run pow graphId clients nworkers nw Hnw Hw polls es h Hb) as (h' & xs & R & Hx & E & Hp');
    [by rewrite Hh; apply newPartitioner_ok; lia|by rewrite Hh|].
  rewrite Hpub in Hp'. cbn in Hp'. rewrite Hh in E. cbn [partitionCount newPartitioner] in E.
  exists h'. split; [done|]. intros w s Hs. rewrite Hp' in Hs.
  pose proof (texts_single w n xs es Hn Hx E) as H1.
  assert (forall p, 0 <= p < n -> Z.rem p nw = w -> deliveries p xs <> [] -> exists l0 l,
    first_store max_label_size disks (mine (identifier p) (texts_for w (publication nw <$> xs))) = Ret l0 /\
    ingest (mine (identifier p) (texts_for w (publication nw <$> xs))) l0 = (Ret tt, l) /\
    holds (nm l) (partition_graph n p es) [] None) as Hin.
  { intros p Hp Hpw Hne. rewrite mine_texts by done. apply (partition_ingests n p xs es); try done; [lia|by apply Hd]. }
  eapply threads_reach_mono; [|apply (threads_take_all max_label_size disks (texts_for w (publication nw <$> xs)))].
  - intros hd Hall p Hp Hpw Hne. assert (deliveries p xs <> []) as Hne'.
    { intros Ed. apply Hne. unfold for_partition. rewrite <- E, <- deliveries_said, Ed. done. }
    destruct (Hin p Hp Hpw Hne') as (l0 & l & H0 & Hi & Hl). destruct (Hall (identifier p)) as (l0' & l' & H0' & Hi' & Hs').
    { rewrite mine_texts by done. by destruct (deliveries p xs). }
    rewrite H0 in H0'. injection H0' as <-. rewrite Hi in Hi'. injection Hi' as <-. exists l. split_and!; [done|done|].
    intros workers query variable ds Hds Hq Hwk. by apply (holds_scan _ (partition_graph n p es)); [|apply partition_complete|..].
  - by eapply serves_open; [..|apply texts_no_end].
  - by apply serves_account.
  - intros i Hm. destruct (mine_some w i xs Hx Hm) as (x & Hxin & -> & Hrem).
    destruct (said_edge xs n es x E Hxin) as (e & _ & Ht & _). apply targets_range in Ht; [|lia].
    destruct (Hin x.1 Ht Hrem) as (l0 & l & H0 & Hi & _); [|by exists l0, l].
    rewrite mine_texts in Hm by done. by intros Ed; rewrite Ed in Hm.
Qed.
(** ** Edges of files *)

(** An edge that comes from a file, for a store that is open: the partition
    then holds it; the next one can follow as long as there is room. *)
Lemma handleEdge_arrives k text j msg P l h i g p n :
  incrementalLocalStoreMap h !! i = Some l -> holds (nm l) P [] None -> message_text text j msg ->
  contains "properties" j = true -> (k = Central -> unknown_id msg (nm l)) ->
  fits_store k (INDEX_KEY_SIZE (nm l)) msg -> fits (add_edge k (ends msg) (pg P)) ->
  space (links_needed msg + n) (dbs (nm l)) ->
  exists l', handleEdge max_label_size disks k text g p i h = (Ret tt, set_store i l' h) /\
    holds (nm l') (edge_arrives k msg P) [] None /\ space n (dbs (nm l')).
Proof.
  intros Hi Hh Hm Hc Hid Hf Hg' Hs.
  assert (exists l', (match k with Local => store_addLocalEdge text | Central => store_addCentralEdge text end) l = (Ret tt, l') /\
    holds (nm l') (edge_arrives k msg P) [] None /\ space n (dbs (nm l'))) as (l' & R & Hh' & Hs').
  { destruct k.
    - destruct (addLocalEdge_message text j msg P l n Hh Hm Hc Hf Hg' Hs) as (l' & R & Hh' & Hs' & _). by exists l'.
    - destruct (addCentralEdge_message text j msg P l n Hh Hm (Hid eq_refl) Hf Hg' Hs) as (l' & R & Hh' & Hs' & _). by exists l'. }
  exists l'. split_and!; try done. unfold handleEdge. erewrite bind_Ret; [|reflexivity]. rewrite Hi.
  erewrite bind_Ret; [|reflexivity]. erewrite bind_Ret; [|reflexivity]. erewrite bind_Ret; [|by rewrite Hi].
  by apply zoom_run.
Qed.
End cluster.
