(* ===== verification/StreamSessions.v ===== *)
(** * StreamSessions: a message on its way to a worker

    [DataPublisher] (nativestore/DataPublisher.cpp) is the connection of the
    master to a worker, and [graph_stream_start_command] of
    JasmineGraphInstanceService.cpp its other end.  Once a session waits for
    commands, a published message that fits into a segment reaches the handler
    of the worker as it was sent, whatever the interleaving; a longer one can
    be cut; and the constructor of [DataPublisher] ends the session with its
    first word, so that what is published then is lost. *)
From Stdlib Require Import ZArith Ascii String Lia.
From stdpp Require Import base tactics numbers list strings gmap.
From S2P Require Import Prelude HashMapStores Shell StaticTriangles Sessions WorkerSessions.

Definition GRAPH_STREAM_START : string := "stream-start".
Definition GRAPH_STREAM_START_ACK : string := "stream-start-ack".
Definition GRAPH_STREAM_C_length_ACK : string := "stream-c-length-ack".
Definition CR : ascii := "013".
Definition LF : ascii := "010".
Definition GRAPH_STREAM_END_OF_EDGE : list ascii := [CR; LF].
Definition ACK_MESSAGE_SIZE : nat := 1024.

(** [htonl] and [ntohl] of the bytes of an [int]. *)
Definition net32 (z : Z) : list ascii := reverse (enc32 z).
Definition host32 (l : list ascii) : Z := s32 (dec32 (reverse l)).

(** ** The publisher *)

Section publisher.
Context {C : Type}.

(** The end of [publish]: characters up to a line end; [fuel] bounds them. *)
Fixpoint await_line_end (fuel : nat) : proc C unit :=
  match fuel with
  | O => Fin OutOfFuel
  | S fuel' =>
      Hear 1 (fun l =>
        match l with
        | [] => mret tt
        | a :: _ =>
            if ascii_dec a CR then
              Hear 1 (fun l =>
                match l with
                | [] => mret tt
                | b :: _ => if ascii_dec b LF then mret tt else await_line_end fuel'
                end)
            else await_line_end fuel'
        end)
  end.

(** [publish]; what comes back before the line end is not looked at. *)
Definition publish (fuel : nat) (message : string) : proc C unit :=
  Say (chars GRAPH_STREAM_START) (fun _ =>
  Hear ACK_MESSAGE_SIZE (fun _ =>
  Say (net32 (Z.of_nat (String.length message))) (fun _ =>
  Hear 4 (fun _ =>
  Say (chars message) (fun _ => await_line_end fuel))))).

(** The constructor, once it is connected. *)
Definition new_publisher (k : proc C unit) : proc C unit := Say (chars CLOSE) (fun _ => k).
End publisher.

(** ** The worker *)

(** [graph_stream_start_command]; [handle] is what the handler of the stream
    does with a message.  A negative length is an exception that nobody
    catches. *)
Definition graph_stream_start_command (handle : string -> M service unit) : proc service bool :=
  reply GRAPH_STREAM_START_ACK (
    Hear 4 (fun l =>
      match l with
      | [] => mret true
      | [_; _; _; _] =>
          let content_length := host32 l in
          reply GRAPH_STREAM_C_length_ACK (
            if content_length <? 0 then Fin Terminated
            else
              let len := Z.to_nat content_length in
              Hear len (fun l =>
                match l with
                | [] => mret true
                | _ =>
                    _ ← act (handle (string_of_list_ascii (l ++ replicate (len - length l) nul)));
                    Say GRAPH_STREAM_END_OF_EDGE (fun b => mret (negb b))
                end))
      | _ => Fin Undef
      end)).

Section sessions.
Context {FB : FlatBuffers} (iter : gset Z -> list Z) (garbage : Z).
Context (handle : string -> M service unit) (other_command : string -> option (proc service bool)).

Definition stream_command (cmd : string) : option (proc service bool) :=
  if decide (cmd = GRAPH_STREAM_START) then Some (graph_stream_start_command handle) else other_command cmd.

(** A session that waits for its next command. *)
Definition awaiting (fuel : nat) : proc service unit :=
  cmd ← read_str;
  instanceservicesession iter garbage stream_command fuel (if decide (cmd = "") then cmd else trim_copy cmd).

(** ** A message arrives *)

Lemma host_net z : 0 <= z < 2147483648 -> host32 (net32 z) = z.
Proof.
  intros Hz. unfold host32, net32. rewrite reverse_involutive, dec32_enc32 by (unfold is_u32; lia). by apply s32_id.
Qed.

Lemma net32_four z : exists a b c d, net32 z = [a; b; c; d].
Proof. by do 4 eexists. Qed.

(** The publisher reads what is left of the acknowledgement while the worker
    takes the message; the stages of the worker, from the last to the first. *)
Section tail.
Context (P : conn service unit unit -> Prop) (f : unit -> proc service unit).
Context (n0 : nat) (h0 : list ascii -> proc service unit) (s : service).
Hypothesis HP : must P (mkConn (f tt) (Hear n0 h0) s [] []).

Definition reads_on (F : nat) : proc service unit := _ ← await_line_end F; f tt.

(** The pieces that are under way to the publisher are these characters. *)
Definition under_way (r : list ascii) (ps : list (list ascii)) : Prop := mjoin ps = r /\ solid ps.

Lemma hear_char {T D} (h : list ascii -> proc T D) u ps a r (s0 : T) :
  under_way (a :: r) ps ->
  advance (Hear 1 h) false u ps s0 <> [] /\
  forall z, z ∈ advance (Hear 1 h) false u ps s0 -> exists ps', z = (h [a], s0, ps', []) /\ under_way r ps'.
Proof.
  intros [Hj Hs]. destruct ps as [|p0 ps]; [done|]. set (ps0 := p0 :: ps) in *. cbn [advance].
  change (match ps0 with [] => _ | _ => ?x end) with x. rewrite app_nil_r.
  split; [by intros ?%fmap_nil_inv; eapply receive_nonempty|].
  intros z ([l rest] & -> & Hr)%list_elem_of_fmap. apply receive_elem in Hr as (Hl & H1 & Hn).
  destruct (Hn Hs) as [Hs' Hne]. destruct l as [|b [|? l]]; [by destruct Hne; [lia|]| |cbn in H1; lia].
  rewrite Hj in Hl. injection Hl as -> Hl. by exists rest.
Qed.

(** A character that is not the first of the line end is skipped. *)
Lemma reads_char F (q : proc service unit) s0 u ps a r :
  under_way (a :: r) ps -> a <> CR -> closed q = false ->
  let x := mkConn (reads_on (S F)) q s0 u ps in
  client_steps x <> [] /\ forall y, y ∈ client_steps x ->
    exists ps', y = mkConn (reads_on F) q s0 u ps' /\ under_way r ps'.
Proof.
  intros Hps Ha Hq x. unfold x, client_steps. cbn [client server world up down]. rewrite Hq.
  change (reads_on (S F)) with (Hear 1 (fun l => proc_then (fun _ => f tt) (match l with
    | [] => mret tt
    | a :: _ =>
        if ascii_dec a CR then
          Hear 1 (fun l => match l with [] => mret tt | b :: _ => if ascii_dec b LF then mret tt else await_line_end F end)
        else await_line_end F
    end))).
  match goal with |- context [Hear 1 ?h] => destruct (hear_char h u ps a r s0 Hps) as [H1 H2] end.
  split; [by intros ?%fmap_nil_inv|]. intros y (z & -> & Hz)%list_elem_of_fmap.
  destruct (H2 z Hz) as (ps' & -> & Hps'). exists ps'. split; [|done]. rewrite app_nil_r.
  by destruct (ascii_dec a CR).
Qed.

(** While the publisher skips characters, the worker goes on. *)
Lemma reads_while (q : proc service unit) s0 u r : forall F ps,
  under_way r ps -> CR ∉ r -> (length r < F)%nat -> closed q = false ->
  (forall F' r' ps', under_way r' ps' -> CR ∉ r' -> (length r' < F')%nat ->
     let x := mkConn (reads_on F') q s0 u ps' in
     server_steps x <> [] /\ forall y, y ∈ server_steps x -> must P y) ->
  must P (mkConn (reads_on F) q s0 u ps).
Proof.
  induction r as [|a r IH]; intros F ps Hps Hr HF Hq Hw; destruct (Hw F _ ps Hps Hr HF) as [Hn Hy].
  - assert (ps = []) as -> by (by destruct Hps as [? ?]; apply solid_join). destruct F as [|F]; [cbn in HF; lia|].
    assert (client_steps (mkConn (reads_on (S F)) q s0 u []) = []) as E
      by (unfold client_steps; cbn; by rewrite Hq).
    apply must_step; unfold steps; rewrite E; [done|exact Hy].
  - pose proof Hr as Hr0. apply not_elem_of_cons in Hr as [Ha Hr]. destruct F as [|F]; [cbn in HF; lia|].
    destruct (reads_char F q s0 u ps a r Hps ltac:(done) Hq) as [Hc1 Hc2].
    apply must_step; [unfold steps; by intros [? ?]%app_nil|].
    intros y [Hy'|Hy']%elem_of_app; [|by apply Hy]. destruct (Hc2 y Hy') as (ps' & -> & Hps').
    apply IH; [done|done|cbn in HF; lia|done|done].
Qed.

(** The publisher reads a character while the worker waits. *)
Lemma reads_one (h : list ascii -> proc service unit) a r ps :
  under_way (a :: r) ps ->
  (forall ps', under_way r ps' -> must P (mkConn (h [a]) (Hear n0 h0) s [] ps')) ->
  must P (mkConn (Hear 1 h) (Hear n0 h0) s [] ps).
Proof.
  intros Hps Hk. destruct (hear_char h [] ps a r s Hps) as [H1 H2].
  assert (forall x : conn service unit unit, x = mkConn (Hear 1 h) (Hear n0 h0) s [] ps -> server_steps x = []) as E
    by (by intros ? ->).
  apply must_step; unfold steps; rewrite E, app_nil_r by done; unfold client_steps; cbn [client server world up down closed].
  - by intros ?%fmap_nil_inv.
  - intros y (z & -> & Hz)%list_elem_of_fmap. destruct (H2 z Hz) as (ps' & -> & Hps'). by apply Hk.
Qed.

Lemma tail_line_end r : forall F ps, under_way (r ++ GRAPH_STREAM_END_OF_EDGE) ps -> CR ∉ r -> (length r < F)%nat ->
  must P (mkConn (reads_on F) (Hear n0 h0) s [] ps).
Proof.
  induction r as [|a r IH]; intros [|F] ps Hps Hr HF; cbn in HF; try lia.
  - eapply reads_one; [exact Hps|]. intros ps1 H1. cbn. eapply reads_one; [exact H1|]. intros ps2 [H2 Hs]. cbn.
    apply solid_join in H2 as ->; [|done]. exact HP.
  - apply not_elem_of_cons in Hr as [Ha Hr]. eapply reads_one; [exact Hps|]. intros ps1 H1. cbn.
    destruct (ascii_dec a CR); [congruence|]. apply IH; [done|done|lia].
Qed.

Lemma tail_reply (k : bool -> proc service unit) r F ps : k true = Hear n0 h0 -> under_way r ps -> CR ∉ r -> (length r < F)%nat ->
  must P (mkConn (reads_on F) (Say GRAPH_STREAM_END_OF_EDGE k) s [] ps).
Proof.
  intros Hk Hps Hr HF. apply (reads_while _ _ _ r); [done..|]. intros [|F'] r' ps' [Hj Hs] Hr' HF' x; [cbn in HF'; lia|].
  split; [done|]. intros y ->%list_elem_of_singleton. unfold x. cbn [client server world up down]. rewrite Hk.
  apply (tail_line_end r'); [|done|done]. split; [by rewrite join_app, Hj|]. by apply Forall_app; split; [|repeat constructor].
Qed.

Lemma tail_acts {D} (c : M service D) (k : D -> proc service unit) (k' : bool -> proc service unit) s0 d r F ps :
  c s0 = (Ret d, s) -> k d = Say GRAPH_STREAM_END_OF_EDGE k' -> k' true = Hear n0 h0 ->
  under_way r ps -> CR ∉ r -> (length r < F)%nat ->
  must P (mkConn (reads_on F) (Act c k) s0 [] ps).
Proof.
  intros Hc Hk Hk' Hps Hr HF. apply (reads_while _ _ _ r); [done..|]. intros F' r' ps' Hps' Hr' HF' x.
  unfold x, server_steps. cbn. rewrite Hc. split; [done|]. intros y ->%list_elem_of_singleton.
  rewrite app_nil_r, Hk. by apply (tail_reply k' r').
Qed.

Lemma tail_takes (h : list ascii -> proc service unit) {D} (c : M service D) k k' s0 d m r F ps :
  m <> [] -> fits m (length m) -> h m = Act c k -> c s0 = (Ret d, s) -> k d = Say GRAPH_STREAM_END_OF_EDGE k' ->
  k' true = Hear n0 h0 -> under_way r ps -> CR ∉ r -> (length r < F)%nat ->
  must P (mkConn (reads_on F) (Hear (length m) h) s0 [m] ps).
Proof.
  intros Hm Hf Hh Hc Hk Hk' Hps Hr HF. apply (reads_while _ _ _ r); [done..|]. intros [|F'] r' ps' Hps' Hr' HF' x; [lia|].
  unfold x, server_steps. cbn [client server world up down].
  change (closed (reads_on (S F'))) with false. rewrite hear_whole by done.
  split; [done|]. intros y ->%list_elem_of_singleton. rewrite app_nil_r, Hh. by eapply (tail_acts c k k' s0 d r').
Qed.
End tail.

(** *** One message *)

(** A message that one [recv] takes whole: the worker has no loop around it. *)
Definition message_ok (m : string) : Prop := m <> "" /\ (String.length m <= SEGMENT)%nat.

(** The rest of the acknowledgement of the length. *)
Definition ack_rest : list ascii := drop 4 (chars GRAPH_STREAM_C_length_ACK).

(** What a session does after a command. *)
Definition go_on (fuel : nat) (loop_exit : bool) : proc service unit := if loop_exit then mret tt else awaiting fuel.

(** What the worker does with [len] bytes. *)
Definition take_message (len : nat) (l : list ascii) : proc service bool :=
  match l with
  | [] => mret true
  | _ =>
      _ ← act (handle (string_of_list_ascii (l ++ replicate (len - length l) nul)));
      Say GRAPH_STREAM_END_OF_EDGE (fun b => mret (negb b))
  end.

Lemma length_known m :
  Z.of_nat (String.length m) < 2147483648 -> match net32 (Z.of_nat (String.length m)) with
  | [] => mret true
  | [_; _; _; _] as l =>
      let content_length := host32 l in
      reply GRAPH_STREAM_C_length_ACK (
        if content_length <? 0 then Fin Terminated
        else let len := Z.to_nat content_length in Hear len (take_message len))
  | _ => Fin Undef
  end = reply GRAPH_STREAM_C_length_ACK (Hear (length (chars m)) (take_message (length (chars m)))).
Proof.
  intros Hl. pose proof (host_net (Z.of_nat (String.length m)) ltac:(lia)) as E.
  destruct (net32_four (Z.of_nat (String.length m))) as (a & b & c & d & En). rewrite En in *. cbv zeta. rewrite E.
  destruct (Z.ltb_spec (Z.of_nat (String.length m)) 0); [lia|]. by rewrite Nat2Z.id, length_list_ascii.
Qed.

Lemma publish_body P (g : unit -> proc service unit) F fuel m s s' :
  message_ok m -> handle m s = (Ret tt, s') -> (16 <= F)%nat ->
  must P (mkConn (g tt) (awaiting fuel) s' [] []) ->
  must P (mkConn (Hear 4 (fun _ => Say (chars m) (fun _ => reads_on g F)))
            (proc_then (go_on fuel) (reply GRAPH_STREAM_C_length_ACK (Hear (length (chars m)) (take_message (length (chars m))))))
            s [] []).
Proof.
  intros [Hm Hl] Hh HF H.
  assert (fits (chars m) (length (chars m))) as Hfit by (unfold fits; rewrite length_list_ascii; lia).
  assert (chars m <> []) as Hm0 by (by destruct m).
  eapply must_one; [reflexivity|]. eapply must_one; [reflexivity|]. eapply must_one; [reflexivity|].
  cbn [client server world up down app]. rewrite (pieces_one _ _ Hm0 Hfit).
  apply (tail_takes P g INSTANCE_DATA_LENGTH (fun l => instanceservicesession iter garbage stream_command fuel
    (if decide (text l = "") then text l else trim_copy (text l))) s' H
    (fun l => proc_then (go_on fuel) (take_message (length (chars m)) l)) (handle m)
    (fun _ => Say GRAPH_STREAM_END_OF_EDGE (fun b => go_on fuel (negb b))) (fun b => go_on fuel (negb b)) s tt (chars m) ack_rest); try done.
  - unfold take_message. destruct (chars m) as [|a l] eqn:E; [by destruct m|]. rewrite <- E at 1. cbn [proc_then].
    rewrite <- E, Nat.sub_diag. cbn [replicate]. rewrite app_nil_r, string_chars. done.
  - split; [done|]. by repeat constructor.
  - apply (bool_decide_unpack _). by vm_compute.
Qed.

Lemma publish_run P (g : unit -> proc service unit) F fuel m s s' :
  message_ok m -> handle m s = (Ret tt, s') -> (16 <= F)%nat ->
  must P (mkConn (g tt) (awaiting fuel) s' [] []) ->
  must P (mkConn (_ ← publish F m; g tt) (awaiting (S fuel)) s [] []).
Proof.
  intros Hm Hh HF H. unfold publish.
  apply ask; [done|by apply Nat.leb_le|done|]. apply answer; [done|by apply Nat.leb_le|done|].
  apply ask; [done|by apply Nat.leb_le|done|]. pose proof (publish_body P g F fuel m s s' Hm Hh HF H) as Hb.
  rewrite <- length_known in Hb; [exact Hb|]. destruct Hm as [_ Hm]. unfold SEGMENT in Hm. lia.
Qed.
(** *** All messages *)

Fixpoint publish_all (F : nat) (ms : list string) : proc service unit :=
  match ms with [] => mret tt | m :: rest => _ ← publish F m; publish_all F rest end.

Fixpoint handle_all (ms : list string) : M service unit :=
  match ms with [] => mret tt | m :: rest => handle m;; handle_all rest end.

(** C19. A stream of messages over a connection: when a session of a worker
    waits for commands and the messages are not longer than a segment (the
    worker receives a message with a single [recv]), every execution of the
    publisher and the session ends with the handler of the worker having got the messages as they were sent,
    in their order, with nothing left in the connection and the session waiting
    for the next command; the four bytes of the acknowledgement that the
    publisher reads and the rest that it skips do not disturb the next message. *)
Theorem publish_delivers F ms fuel s s' :
  Forall message_ok ms -> handle_all ms s = (Ret tt, s') -> (16 <= F)%nat ->
  must (fun x => x = mkConn (Fin (Ret tt)) (awaiting fuel) s' [] [])
    (mkConn (publish_all F ms) (awaiting (length ms + fuel)) s [] []).
Proof.
  intros Hms. revert s. induction Hms as [|m ms Hm _ IH]; intros s Hh HF.
  - injection Hh as <-. by apply must_now.
  - cbn in Hh. apply bind_Ret_inv in Hh as ([] & s1 & H1 & H2).
    apply (publish_run _ (fun _ => publish_all F ms) F (length ms + fuel) m s s1 Hm H1 HF). by apply IH.
Qed.

(** *** A message longer than a segment *)

(** The first [j] bytes, and zeros. *)
Definition cut_message (j : nat) (m : string) : string :=
  string_of_list_ascii (take j (chars m) ++ replicate (String.length m - j) nul).

Lemma receive_cut j m : (SEGMENT < length m)%nat -> (0 < j <= length m)%nat ->
  exists rest, (take j m, rest) ∈ receive (length m) (pieces m).
Proof.
  intros Hl Hj. assert (pieces m = (fun a => [a]) <$> m) as E.
  { unfold pieces. destruct m as [|a m]; [done|]. by rewrite (proj2 (Nat.leb_gt _ _)) by done. }
  rewrite E. unfold receive. rewrite length_fmap.
  assert (forall l : list ascii, mjoin ((fun a => [a]) <$> l) = l) as Hid by (induction l as [|a l IH]; [done|]; cbn; f_equal; exact IH).
  eexists. apply list_elem_of_fmap. exists j. split; [|apply elem_of_seq; lia].
  cbv zeta. rewrite <- fmap_take, Hid. f_equal. by rewrite (take_ge (take j m)) by (rewrite length_take; lia).
Qed.

(** C34. A message longer than a segment can be cut: for every number of its
    first bytes there is an execution in which the single [recv] of the worker
    takes these, and the handler gets them with zeros in place of the rest. *)
Theorem long_message_cut F fuel m j s s' :
  (SEGMENT < String.length m)%nat -> Z.of_nat (String.length m) < 2147483648 -> (0 < j <= String.length m)%nat ->
  handle (cut_message j m) s = (Ret tt, s') ->
  exists y, may (mkConn (publish F m) (awaiting (S fuel)) s [] []) y /\ world y = s'.
Proof.
  intros Hl Hz Hj Hh.
  assert (must (fun y => y = mkConn (Hear 4 (fun _ => Say (chars m) (fun _ => await_line_end F)))
      (proc_then (go_on fuel) (reply GRAPH_STREAM_C_length_ACK (Hear (length (chars m)) (take_message (length (chars m))))))
      s [] []) (mkConn (publish F m) (awaiting (S fuel)) s [] [])) as (y & -> & Hmay)%must_may.
  { unfold publish. apply ask; [done|by apply Nat.leb_le|done|]. apply answer; [done|by apply Nat.leb_le|done|].
    apply ask; [done|by apply Nat.leb_le|done|]. apply must_now. by rewrite <- length_known. }
  destruct (receive_cut j (chars m)) as [rest Hr]; [by rewrite length_list_ascii..|].
  eexists. split; [eapply may_trans; [exact Hmay|]|].
  - eapply may_step; [left|]. eapply may_step; [left|]. eapply may_step; [left|].
    cbn [client server world up down app]. eapply may_step.
    { unfold steps. apply elem_of_app. right. unfold server_steps. apply list_elem_of_fmap.
      eexists (_, _, _, _). split; [reflexivity|]. cbn [client server world up down advance proc_then].
      destruct (pieces (chars m)) as [|p ps] eqn:E; [by apply not_elem_of_nil in Hr|].
      apply elem_of_app. left. apply list_elem_of_fmap. by exists (take j (chars m), rest). }
    eapply may_step; [|constructor].
    unfold steps. apply elem_of_app. right. unfold server_steps. apply list_elem_of_fmap.
    eexists (_, _, _, _). split; [reflexivity|]. cbn [client server world up down]. unfold take_message.
    destruct (take j (chars m)) as [|a l] eqn:E; [exfalso; apply (f_equal length) in E; rewrite length_take, length_list_ascii in E; cbn in E; lia|].
    cbn [proc_then mbind proc_bind act advance]. rewrite <- E, length_take, length_list_ascii, Nat.min_l by lia.
    unfold cut_message in Hh. rewrite Hh. left.
  - done.
Qed.

(** ** The first word of a publisher *)

(** Nothing has reached the worker, and both sides are done: the publisher
    has returned, or its process has been ended by the signal. *)
Definition lost (s : service) (x : conn service unit unit) : Prop :=
  (client x = Fin (Ret tt) \/ client x = Fin Terminated) /\ server x = Fin (Ret tt) /\ world x = s.

Lemma killed_lost s o u inp : o = Ret tt \/ o = Terminated -> must (lost s) (mkConn (Fin o) (Fin (Ret tt)) s u inp).
Proof. intros [-> | ->]; apply must_now; split_and!; cbn; auto. Qed.

(** A publication when the worker has closed. *)
Lemma publish_rest_closed F (g : proc service unit) m s u :
  (forall u', must (lost s) (mkConn g (Fin (Ret tt)) s u' [])) ->
  must (lost s) (mkConn (_ ← Hear ACK_MESSAGE_SIZE (fun _ =>
    Say (net32 (Z.of_nat (String.length m))) (fun _ => Hear 4 (fun _ => Say (chars m) (fun _ => await_line_end (S F))))); g)
    (Fin (Ret tt)) s u []).
Proof.
  intros Hg. apply hear_closed. apply say_closed; [intros _ u'|intros u'; apply killed_lost; by right].
  apply hear_closed. apply say_closed; [intros _ u2|intros u2; apply killed_lost; by right].
  apply hear_closed. apply Hg.
Qed.

Lemma publish_closed F ms s : forall u,
  must (lost s) (mkConn (publish_all (S F) ms) (Fin (Ret tt)) s u []).
Proof.
  induction ms as [|m ms IH]; intros u; [by apply killed_lost; left|].
  apply say_closed; [intros _ u'; by apply publish_rest_closed|intros u'; apply killed_lost; by right].
Qed.

(** The word that ends the session is read at once, the first command is
    answered with a reset, and the next send ends the process. *)
Lemma publisher_killed F ms fuel s : ms <> [] ->
  exists y, may (mkConn (new_publisher (publish_all (S F) ms)) (serve iter garbage stream_command (S fuel)) s [] []) y /\
    lost s y /\ client y = Fin Terminated.
Proof.
  intros Hms. destruct ms as [|m ms]; [done|]. eexists. split.
  - eapply may_step; [left|]. eapply may_step; [right; left|]. eapply may_step; [left|]. eapply may_step; [left|].
    eapply may_step; [right; right; left|]. constructor.
  - split; [|done]. split_and!; [by right|done|done].
Qed.

(** C40. A new publisher loses everything: its constructor sends the word that
    ends a session, so that in every execution, whether the worker reads that
    word alone or together with the first command, the session ends before it
    has taken a message, and the publisher comes back with everything lost or
    is ended by SIGPIPE when it sends again; the second does happen, with the
    first message. *)
Theorem new_publisher_loses F ms fuel s :
  other_command "closestream-start" = None ->
  let x := mkConn (new_publisher (publish_all (S F) ms)) (serve iter garbage stream_command (S fuel)) s [] [] in
  must (lost s) x /\ (ms <> [] -> exists y, may x y /\ lost s y /\ client y = Fin Terminated).
Proof.
  intros Ho x. split; [|apply publisher_killed]. eapply must_one; [reflexivity|]. cbn [client server world up down app]. destruct ms as [|m ms].
  - eapply must_one; [reflexivity|]. by apply killed_lost; left.
  - apply must_step; [done|]. intros y Hy. unfold steps, client_steps, server_steps in Hy.
    apply elem_of_app in Hy as [Hy|Hy]; apply list_elem_of_singleton in Hy as ->; [|apply (publish_closed F (m :: ms))].
    apply must_step; [done|]. intros y Hy. unfold steps in Hy. apply elem_of_app in Hy as [Hy|Hy]; [by apply not_elem_of_nil in Hy|].
    assert (instanceservicesession iter garbage stream_command (S fuel) "closestream-start" = Fin (Ret tt)) as E.
    { cbn [instanceservicesession]. assert (dispatch iter garbage stream_command "closestream-start" =
        match other_command "closestream-start" with Some hd => hd | None => mret true end) as -> by reflexivity.
      by rewrite Ho. }
    apply elem_of_cons in Hy as [->|Hy]; [|apply list_elem_of_singleton in Hy as ->].
    + apply (publish_rest_closed F (publish_all (S F) ms)). apply publish_closed.
    + match goal with |- must _ ?y => change y with (mkConn (client y)
        (instanceservicesession iter garbage stream_command (S fuel) "closestream-start") s (up y) (down y)) end.
      rewrite E. apply (publish_rest_closed F (publish_all (S F) ms)). apply publish_closed.
Qed.
End sessions.
