(* ===== verification/MasterMerge.v ===== *)
(** * MasterMerge: the results of the workers at the master

    [CypherQueryExecutor::execute] (frontend/core/executor/impl/) starts a
    thread per worker, each of which adds the rows its worker publishes to a
    buffer of its own, "-1" last.  The results of an ORDER BY are merged with
    a priority queue that holds one row per worker; other results are
    collected as they come.  A stream is the list of rows a worker's thread
    adds; [get] on a stream that has ended waits for ever. *)
From Stdlib Require Import ZArith Ascii String Lia.
From stdpp Require Import base tactics numbers list strings sets sorting.
From S2P Require Import Prelude Json SharedBuffer Pipelines OrderBy OrderTheory.

(** ** ORDER BY *)

(** [getNestedValuePtr]: a pointer that may be null. *)
Fixpoint nested_ptr (current : json) (keys : list (list ascii)) : option json :=
  match keys with
  | [] => Some current
  | k :: r =>
      match current with
      | JObject m => match find_key (string_of_list_ascii k) m with Some v => nested_ptr v r | None => None end
      | _ => None
      end
  end.

Definition getNestedValuePtr (obj : json) (dottedKey : string) : option json :=
  match obj with
  | JObject m =>
      match find_key dottedKey m with
      | Some v => Some v
      | None => nested_ptr obj (split_items "."%char [] (chars dottedKey))
      end
  | _ => nested_ptr obj (split_items "."%char [] (chars dottedKey))
  end.

Section merge.
Context `{JT : JsonText} `{PQ : PriorityQueue} (aggregateKey : string) (isAsc : bool).

(** A [BufferEntry] has the members of a [Row]: [value] is [jsonStr],
    [bufferIndex] is [sourceFileIndex]. *)
Definition entry_less (a b : Row) : bool :=
  match getNestedValuePtr (data a) aggregateKey, getNestedValuePtr (data b) aggregateKey with
  | Some val1, Some val2 => let result := value_gt val1 val2 in if isAsc then result else negb result
  | _, _ => false
  end.

(** A row of the [i]-th buffer, pushed if it parses. *)
Definition push_entry (i : nat) (value : string) (mergeQueue : list Row) : list Row :=
  match parse value with
  | Some parsed => mkRow parsed value i :: mergeQueue
  | None => mergeQueue
  end.

(** The first value of every buffer: the queue, the rest of the streams and
    [closeFlag]. *)
Fixpoint first_entries (i : nat) (streams : list (list string)) : outcome (list Row * list (list string) * nat) :=
  match streams with
  | [] => Ret ([], [], 0%nat)
  | [] :: _ => Deadlock
  | (value :: s) :: r =>
      '(q, rest, closed) ← first_entries (S i) r;
      Ret (if decide (value = "") then (q, s :: rest, closed)
           else if decide (value = END) then (q, s :: rest, S closed)
           else (push_entry i value q, s :: rest, closed))
  end.

(** The streaming merge: the rows written to the client. *)
Fixpoint streaming_merge (n : nat) (mergeQueue : list Row) (streams : list (list string)) (closeFlag : nat)
    : outcome (list string) :=
  match pq_pop entry_less mergeQueue with
  | None => Ret []
  | Some (top, mergeQueue) =>
      match n with
      | O => OutOfFuel
      | S n =>
          match streams !! sourceFileIndex top with
          | None => Undef
          | Some [] => Deadlock
          | Some (nextValue :: s) =>
              let streams := <[sourceFileIndex top := s]> streams in
              let '(mergeQueue, closeFlag) :=
                if decide (nextValue = END) then (mergeQueue, S closeFlag)
                else (push_entry (sourceFileIndex top) nextValue mergeQueue, closeFlag) in
              if (length streams <=? closeFlag)%nat then Ret [jsonStr top]
              else rest ← streaming_merge n mergeQueue streams closeFlag; Ret (jsonStr top :: rest)
          end
      end
  end.

(** Every turn writes a row, so the number of rows is enough. *)
Definition order_results (streams : list (list string)) : outcome (list string) :=
  '(q, rest, closed) ← first_entries 0 streams;
  streaming_merge (length (concat streams)) q rest closed.
End merge.

(** ** Other results

    The loop goes over the buffers with [tryGet]; which of them have a row at
    that moment is up to the workers.  A step takes a row from any buffer. *)

Record collecting := mkCollecting {
  incoming : list (list string);
  closed : nat;
  written : list string
}.

Inductive collect_step : collecting -> collecting -> Prop :=
| collect_close ss n w i s :
    (n < length ss)%nat -> ss !! i = Some (END :: s) ->
    collect_step (mkCollecting ss n w) (mkCollecting (<[i := s]> ss) (S n) w)
| collect_row ss n w i d s :
    (n < length ss)%nat -> ss !! i = Some (d :: s) -> d <> END ->
    collect_step (mkCollecting ss n w) (mkCollecting (<[i := s]> ss) n (w ++ [d])).

(** Every execution reaches [P]. *)
Inductive collect_leads (P : collecting -> Prop) : collecting -> Prop :=
| collect_now c : P c -> collect_leads P c
| collect_next c :
    (exists c', collect_step c c') -> (forall c', collect_step c c' -> collect_leads P c') -> collect_leads P c.

(** ** Collecting *)

(** The rows of [out] are those of the streams, each stream in its order. *)
Inductive interleaving : list (list string) -> list string -> Prop :=
| interleaving_nil ss : Forall (fun s => s = []) ss -> interleaving ss []
| interleaving_cons ss i d s out :
    ss !! i = Some (d :: s) -> interleaving (<[i := s]> ss) out -> interleaving ss (d :: out).

(** What is left of a stream: None when its "-1" was read. *)
Definition left_of (o : option (list string)) : list string :=
  match o with Some f => f ++ [END] | None => [] end.
Definition rows_of (o : option (list string)) : list string := default [] o.
Definition closed_ones (rest : list (option (list string))) : nat := length (filter (fun o => o = None) rest).

Lemma interleaving_perm ss out : interleaving ss out -> out ≡ₚ concat ss.
Proof.
  induction 1 as [ss Hs|ss i d s out Hi _ IH].
  - induction Hs as [|s ss -> _ IH]; [done|]. exact IH.
  - by rewrite (concat_insert _ _ _ _ Hi), IH.
Qed.

Lemma closed_ones_insert rest i f :
  rest !! i = Some (Some f) -> closed_ones (<[i := None]> rest) = S (closed_ones rest).
Proof.
  unfold closed_ones. revert i. induction rest as [|o rest IH]; intros [|i] H; try done; cbn in H; cbn [insert list_insert].
  - injection H as ->. by rewrite filter_cons_True, filter_cons_False by done.
  - rewrite !filter_cons. destruct (decide (o = None)); cbn [length]; [f_equal|]; by apply (IH _ H).
Qed.

Lemma closed_ones_keep rest i f g :
  rest !! i = Some (Some f) -> closed_ones (<[i := Some g]> rest) = closed_ones rest.
Proof.
  unfold closed_ones. revert i. induction rest as [|o rest IH]; intros [|i] H; try done; cbn in H; cbn [insert list_insert].
  - injection H as ->. by rewrite !filter_cons_False by done.
  - rewrite !filter_cons. destruct (decide (o = None)); cbn [length]; [f_equal|]; by apply (IH _ H).
Qed.

Lemma closed_ones_all rest : closed_ones rest = length rest -> Forall (fun o => o = None) rest.
Proof.
  unfold closed_ones. induction rest as [|o rest IH]; [by constructor|]. rewrite filter_cons.
  pose proof (length_filter (fun o : option (list string) => o = None) rest) as Hl.
  destruct (decide (o = None)) as [->|]; cbn; intros H; [constructor; [done|apply IH; lia]|lia].
Qed.

Lemma closed_ones_some rest : (closed_ones rest < length rest)%nat -> exists i f, rest !! i = Some (Some f).
Proof.
  unfold closed_ones. induction rest as [|o rest IH]; cbn [length]; [cbn; lia|]. rewrite filter_cons.
  destruct (decide (o = None)) as [->|Hne]; cbn; intros H.
  - destruct IH as (i & f & Hi); [lia|]. by exists (S i), f.
  - destruct o as [f|]; [by exists 0%nat, f|done].
Qed.

Definition collecting_ok (rows : list (list string)) (c : collecting) : Prop := exists rest,
  incoming c = left_of <$> rest /\ length rest = length rows /\ closed c = closed_ones rest /\
  Forall (fun f => END ∉ f) (rows_of <$> rest) /\
  (forall out, interleaving (rows_of <$> rest) out -> interleaving rows (written c ++ out)).

Definition collected_all (rows : list (list string)) (c : collecting) : Prop :=
  closed c = length rows /\ Forall (fun s => s = []) (incoming c) /\ interleaving rows (written c).

Lemma collect_step_ok rows c c' : collecting_ok rows c -> collect_step c c' -> collecting_ok rows c'.
Proof.
  intros (rest & Hin & Hlen & Hcl & Hend & Hint). destruct 1 as [ss n w i s Hn Hi|ss n w i d s Hn Hi Hd];
    cbn in *; subst ss; apply list_lookup_fmap_Some in Hi as (o & Ho & Hi); destruct o as [f|]; try done.
  all: assert (END ∉ f) as Hf
    by (rewrite Forall_forall in Hend; apply (Hend f), (list_elem_of_fmap_2' _ _ (Some f)); [by eapply list_elem_of_lookup_2|done]).
  - destruct f as [|x f]; [|injection Ho as <- _; set_solver]. injection Ho as ->.
    exists (<[i := None]> rest). cbn. split_and!.
    + by rewrite list_fmap_insert.
    + by rewrite length_insert.
    + by rewrite (closed_ones_insert _ _ _ Hi), Hcl.
    + rewrite list_fmap_insert. by apply Forall_insert.
    + intros out. rewrite list_fmap_insert, list_insert_id; [apply Hint|]. by rewrite list_lookup_fmap, Hi.
  - destruct f as [|x f]; [by injection Ho as ->|]. injection Ho as <- ->.
    exists (<[i := Some f]> rest). cbn. split_and!.
    + by rewrite list_fmap_insert.
    + by rewrite length_insert.
    + by rewrite (closed_ones_keep _ _ _ _ Hi), Hcl.
    + rewrite list_fmap_insert. apply Forall_insert; [done|]. cbn. set_solver.
    + intros out Hout. rewrite <- app_assoc. apply Hint. cbn.
      apply (interleaving_cons _ i d f); [by rewrite list_lookup_fmap, Hi|]. by rewrite list_fmap_insert in Hout.
Qed.

Lemma collect_step_work c c' :
  collect_step c c' -> (length (concat (incoming c')) < length (concat (incoming c)))%nat.
Proof.
  destruct 1 as [ss n w i s _ Hi|ss n w i d s _ Hi _]; cbn; rewrite (concat_insert _ _ _ _ Hi); cbn; lia.
Qed.

Lemma collect_alive rows c :
  collecting_ok rows c -> collected_all rows c \/ exists c', collect_step c c'.
Proof.
  destruct c as [ss n w]. intros (rest & Hin & Hlen & Hcl & Hend & Hint). cbn in *. subst ss n.
  destruct (decide (closed_ones rest = length rest)) as [E|Hne].
  - left. pose proof (closed_ones_all _ E) as Hall. split_and!; cbn; [congruence| |].
    + apply Forall_fmap. eapply Forall_impl; [done|]. by intros o ->.
    + rewrite <- (app_nil_r w). apply Hint. constructor. apply Forall_fmap. eapply Forall_impl; [done|]. by intros o ->.
  - right. destruct (closed_ones_some rest) as (i & f & Hi).
    { pose proof (length_filter (fun o : option (list string) => o = None) rest). unfold closed_ones in *. lia. }
    assert ((closed_ones rest < length (left_of <$> rest))%nat) as Hlt.
    { rewrite length_fmap. pose proof (length_filter (fun o : option (list string) => o = None) rest).
      unfold closed_ones in *. lia. }
    destruct f as [|d f].
    + eexists. apply (collect_close _ _ _ i []); [done|]. by rewrite list_lookup_fmap, Hi.
    + eexists. apply (collect_row _ _ _ i d (f ++ [END])); [done|by rewrite list_lookup_fmap, Hi|].
      rewrite Forall_forall in Hend. intros ->.
      apply (Hend (END :: f)); [apply (list_elem_of_fmap_2' _ _ (Some (END :: f))); [by eapply list_elem_of_lookup_2|done]|left].
Qed.

Lemma collect_all rows c : collecting_ok rows c -> collect_leads (collected_all rows) c.
Proof.
  induction c as [c IH] using (induction_ltof1 _ (fun c => length (concat (incoming c)))). intros Hok.
  destruct (collect_alive _ _ Hok) as [Hd|Hs]; [by apply collect_now|].
  apply collect_next; [done|]. intros c' Hc. apply IH; [by apply collect_step_work|by eapply collect_step_ok].
Qed.

(** Results without ORDER BY: whichever of the workers' buffers have rows
    whenever the master looks, its loop ends after the "-1" of every worker
    with all buffers empty, and what it has written are the rows of all
    workers, each once, those of one worker in the order it published them. *)
Theorem results_collected rows :
  Forall (fun f => END ∉ f) rows ->
  collect_leads (fun c => collected_all rows c /\ written c ≡ₚ concat rows)
    (mkCollecting ((fun f => f ++ [END]) <$> rows) 0 []).
Proof.
  intros Hend. assert (collecting_ok rows (mkCollecting ((fun f => f ++ [END]) <$> rows) 0 [])) as Hok.
  { exists (Some <$> rows). cbn. split_and!.
    - by rewrite <- list_fmap_compose.
    - by rewrite length_fmap.
    - unfold closed_ones. clear. induction rows as [|f rows IH]; [done|]. by rewrite fmap_cons, filter_cons_False.
    - by rewrite <- list_fmap_compose, list_fmap_id.
    - intros out. by rewrite <- list_fmap_compose, list_fmap_id. }
  apply collect_all in Hok. induction Hok as [c Hc|c Hs _ IH]; [|by apply collect_next].
  apply collect_now. split; [done|]. destruct Hc as (_ & _ & Hc). by apply interleaving_perm.
Qed.

(** ** Merging *)

Definition by_ptr (aggregateKey : string) (j : json) : json := default JNull (getNestedValuePtr j aggregateKey).

Section merging.
Context `{JT : JsonText} `{PQ : PriorityQueue} (aggregateKey : string).
Local Notation K := (by_ptr aggregateKey).
Local Notation indices := (fmap (M := list) sourceFileIndex).

Lemma entry_less_good a b : good K a -> good K b -> entry_less aggregateKey true a b = keyed_gt K a b.
Proof.
  unfold good, entry_less, keyed_gt, by_ptr. intros [_ Ha] [_ Hb].
  destruct (getNestedValuePtr (data a) _), (getNestedValuePtr (data b) _); done.
Qed.

(** The buffers of the workers in the queue have the rest of their rows and
    "-1", the others are closed. *)
Definition streams_ok (pq : list Row) (files streams : list (list string)) (closeFlag : nat) : Prop :=
  NoDup (indices pq) /\ length streams = length files /\ (closeFlag + length pq)%nat = length files /\
  (forall r, r ∈ pq -> exists f, files !! sourceFileIndex r = Some f /\ streams !! sourceFileIndex r = Some (f ++ [END])) /\
  (forall f s, f ∈ files -> s ∈ f -> s <> END /\ is_Some (parse s)).

Lemma streams_ok_close top rest files streams n s :
  streams_ok (top :: rest) files streams n ->
  streams_ok rest files (<[sourceFileIndex top := s]> streams) (S n).
Proof.
  intros (Hnd & Hl & Hn & Hs & Hf). cbn in Hnd, Hn. apply NoDup_cons in Hnd as [Hnot Hnd].
  split_and!; [done|by rewrite length_insert|lia| |done]. intros r Hr. rewrite list_lookup_insert_ne; [apply Hs; by right|].
  intros E. apply Hnot. rewrite E. by apply list_elem_of_fmap_2.
Qed.

Lemma streams_ok_next top rest files streams n line f r :
  streams_ok (top :: rest) files streams n -> files !! sourceFileIndex top = Some (line :: f) ->
  sourceFileIndex r = sourceFileIndex top ->
  streams_ok (r :: rest) (<[sourceFileIndex top := f]> files) (<[sourceFileIndex top := f ++ [END]]> streams) n.
Proof.
  intros (Hnd & Hl & Hn & Hs & Hf) Hi Hr. cbn in Hnd, Hn. pose proof (lookup_lt_Some _ _ _ Hi) as Hlt.
  split_and!; [by rewrite fmap_cons, Hr|by rewrite !length_insert|by rewrite length_insert| |].
  - apply NoDup_cons in Hnd as [Hnot _]. intros q Hq. apply elem_of_cons in Hq as [->|Hq].
    + exists f. rewrite Hr, !list_lookup_insert_eq by lia. done.
    + rewrite !list_lookup_insert_ne; [apply Hs; by right| |];
        intros E; apply Hnot; rewrite E; by apply list_elem_of_fmap_2.
  - intros g s Hg Hs'. apply list_elem_of_lookup in Hg as [j Hj]. rewrite list_lookup_insert in Hj. case_decide as E.
    + injection Hj as <-. apply (Hf (line :: f)); [by eapply list_elem_of_lookup_2|by right].
    + apply (Hf g); [by eapply list_elem_of_lookup_2|done].
Qed.

Lemma streams_ok_perm pq pq' files streams n :
  pq ≡ₚ pq' -> streams_ok pq files streams n -> streams_ok pq' files streams n.
Proof.
  intros Hp (Hnd & Hl & Hn & Hs & Hf). split_and!; [by rewrite <- Hp|done|by rewrite <- Hp| |done].
  intros r Hr. apply Hs. by rewrite Hp.
Qed.

Lemma pq_pop_empty (cmp : Row -> Row -> bool) : pq_pop cmp [] = None.
Proof. destruct (pq_pop cmp []) as [[x r]|] eqn:E; [|done]. by apply pq_pop_perm, Permutation_nil_l in E. Qed.

(** On such streams the loop is the merge of the files. *)
Lemma streaming_is_merge n pq files streams closeFlag :
  streams_ok pq files streams closeFlag ->
  streaming_merge aggregateKey true n pq streams closeFlag = merge_loop n (entry_less aggregateKey true) pq files.
Proof.
  revert pq files streams closeFlag. induction n as [|n IH]; intros pq files streams closeFlag Hok.
  { cbn. by destruct (pq_pop _ _) as [[? ?]|]. }
  cbn [streaming_merge merge_loop]. destruct (pq_pop _ pq) as [[top rest]|] eqn:Ep; [|done].
  apply pq_pop_perm in Ep. pose proof (streams_ok_perm _ _ _ _ _ Ep Hok) as Hok'.
  pose proof Hok' as (_ & Hl & Hn & Hs & Hf). destruct (Hs top) as (f & Hfi & Hsi); [left|]. rewrite Hsi, Hfi.
  cbn in Hn. destruct f as [|line f]; cbn [app].
  - rewrite decide_True by done. rewrite length_insert. destruct (Nat.leb_spec (length streams) (S closeFlag)).
    + destruct rest; [|cbn in *; lia]. destruct n; cbn; by rewrite pq_pop_empty.
    + by rewrite (IH rest files) by (by apply streams_ok_close).
  - destruct (Hf (line :: f) line) as [Hend [d Hd]]; [by eapply list_elem_of_lookup_2|left|].
    rewrite decide_False by done. unfold push_entry, newRow, parse_exn. rewrite Hd. cbn [mbind outcome_bind].
    rewrite length_insert. destruct (Nat.leb_spec (length streams) closeFlag); [lia|].
    by rewrite (IH _ (<[sourceFileIndex top := f]> files)) by (by eapply streams_ok_next).
Qed.

Definition after_first (f : list string) : list string := match f with [] => [] | _ :: r => r ++ [END] end.

Definition stream_rows (files : list (list string)) : Prop :=
  forall f s, f ∈ files -> s ∈ f -> s <> END /\ s <> "" /\ is_Some (parse s).

Lemma first_entries_rows i files :
  stream_rows files ->
  exists pq n, first_rows i files = Ret (pq, tail <$> files) /\
    first_entries i ((fun f => f ++ [END]) <$> files) = Ret (pq, after_first <$> files, n) /\
    (n + length pq)%nat = length files /\ NoDup (indices pq) /\
    (forall r, r ∈ pq -> exists k x f, files !! k = Some (x :: f) /\ sourceFileIndex r = (i + k)%nat).
Proof.
  revert i. induction files as [|f files IH]; intros i Hrows.
  { exists [], 0%nat. split_and!; try done; [constructor|]. intros r Hr. by apply elem_of_nil in Hr. }
  destruct (IH (S i)) as (pq & n & H1 & H2 & Hn & Hnd & Hidx).
  { intros g s Hg. apply Hrows. by right. }
  assert (forall r, r ∈ pq -> exists k x g, (f :: files) !! k = Some (x :: g) /\ sourceFileIndex r = (i + k)%nat /\ (i < i + k)%nat) as Hidx'.
  { intros r Hr. destruct (Hidx _ Hr) as (k & x & g & Hk & E). exists (S k), x, g. split_and!; [done|lia|lia]. }
  rewrite !fmap_cons. cbn [first_rows first_entries]. destruct f as [|x f]; cbn [app].
  - exists pq, (S n). rewrite H1, H2. cbn [mbind outcome_bind]. rewrite decide_False, decide_True by done.
    split_and!; try done; [cbn; lia|]. intros r Hr. destruct (Hidx' _ Hr) as (k & y & g & ? & ? & _). by exists k, y, g.
  - destruct (Hrows (x :: f) x) as (Hend & Hne & d & Hd); [left..|]. rewrite H2. cbn [mbind outcome_bind].
    rewrite !decide_False by done. unfold newRow, parse_exn, push_entry. rewrite Hd. cbn [mbind outcome_bind]. rewrite H1.
    exists (mkRow d x i :: pq), n. split_and!; [done|done|cbn; lia| |].
    + rewrite fmap_cons. apply NoDup_cons. split; [|done]. intros (r & E & Hr)%list_elem_of_fmap.
      destruct (Hidx' _ Hr) as (k & _ & _ & _ & E' & Hlt). cbn in E. lia.
    + intros r Hr. apply elem_of_cons in Hr as [->|Hr]; [exists 0%nat, x, f; cbn; split; [done|lia]|].
      destruct (Hidx' _ Hr) as (k & y & g & ? & ? & _). by exists k, y, g.
Qed.

Lemma streams_start files pq n :
  stream_rows files -> (n + length pq)%nat = length files -> NoDup (indices pq) ->
  (forall r, r ∈ pq -> exists k x f, files !! k = Some (x :: f) /\ sourceFileIndex r = (0 + k)%nat) ->
  streams_ok pq (tail <$> files) (after_first <$> files) n.
Proof.
  intros Hrows Hn Hnd Hidx. split_and!; [done|by rewrite !length_fmap|by rewrite length_fmap| |].
  - intros r Hr. destruct (Hidx _ Hr) as (k & x & f & Hk & ->). exists f. cbn. by rewrite !list_lookup_fmap, Hk.
  - intros f s (g & -> & Hg)%list_elem_of_fmap Hs.
    destruct (Hrows g s) as (? & _ & ?); [done|by destruct g; [|right]|done].
Qed.

(** The merge of the streams is the merge of their rows. *)
Lemma results_sorted files :
  stream_rows files ->
  (forall f, f ∈ files -> sorted_texts K f /\ Forall (fun s => is_Some (key_of K s)) f) ->
  comparable (key K <$> concat files) ->
  exists out, order_results aggregateKey true ((fun f => f ++ [END]) <$> files) = Ret out /\
    out ≡ₚ concat files /\ sorted_texts K out.
Proof.
  intros Hrows Hfiles Hc. destruct (first_entries_rows 0 files Hrows) as (pq & n & H1 & H2 & Hn & Hnd & Hidx).
  destruct (merge_files K (entry_less aggregateKey true) entry_less_good files Hfiles Hc) as (pq' & out & H1' & _ & Hm & Hp & Hs).
  rewrite H1 in H1'. injection H1' as <-. pose proof (streams_start _ _ _ Hrows Hn Hnd Hidx) as Hok.
  exists out. split; [|done]. unfold order_results. rewrite H2. cbn [mbind outcome_bind].
  rewrite (streaming_is_merge _ _ _ _ _ Hok).
  eapply merge_loop_more; [exact Hm|]. clear. induction files as [|f files IH]; [done|].
  rewrite fmap_cons. cbn [concat]. rewrite !length_app. lia.
Qed.

(** C21. ORDER BY at the master: when every worker publishes its rows in
    ascending order of a key that all rows have, and then "-1", the master
    reads all streams to their ends, without waiting for one that has ended,
    and writes all rows of all workers in ascending order of the key. *)
Theorem master_merge_sorts files :
  stream_rows files ->
  (forall f, f ∈ files -> sorted_texts K f /\ Forall (fun s => is_Some (key_of K s)) f) ->
  comparable (key K <$> concat files) ->
  exists out, order_results aggregateKey true ((fun f => f ++ [END]) <$> files) = Ret out /\
    out ≡ₚ concat files /\ sorted_texts K out.
Proof. apply results_sorted. Qed.
End merging.
