(* ===== verification/CypherPlan.v ===== *)
(** * CypherPlan: plans and their texts

    The planner builds a tree of operators; [execute] of each
    (query/processor/cypher/queryplanner/Operators.cpp) gives the JSON text
    that the master sends to the workers, with the text of its input nested
    in it as a string.  On a worker every operator parses its text, looks the
    operator of the nested text up in [methodMap] (OperatorExecutor.cpp) and
    starts it in a thread: [load] turns the text into the scan and the stages
    of a pipeline. *)
From Stdlib Require Import ZArith Ascii String Lia.
From stdpp Require Import base tactics numbers list strings sets.
From S2P Require Import Prelude Json SharedBuffer Pipelines ParallelExecutor CypherFilter.
From S2P Require Import CypherRuntime OrderBy.

(** ** The syntax tree of a query *)

Inductive ASTNode := Node (nodeType value : string) (elements : list ASTNode).

Definition nodeType (a : ASTNode) : string := let 'Node t _ _ := a in t.
Definition value (a : ASTNode) : string := let 'Node _ v _ := a in v.
Definition elements (a : ASTNode) : list ASTNode := let 'Node _ _ l := a in l.

(** [ast->elements[i]], not checked. *)
Definition element (i : nat) (a : ASTNode) : outcome ASTNode :=
  match elements a !! i with Some x => Ret x | None => Undef end.

Definition has_type (t : string) (a : ASTNode) : bool := String.eqb (nodeType a) t.

(** [ast->elements[1]->elements[0]->value], the name of a property. *)
Definition property_name (a : ASTNode) : outcome string :=
  p ← element 1 a; n ← element 0 p; Ret (value n).

Definition function_name (a : ASTNode) : outcome string :=
  f ← element 0 a; n ← element 1 f; Ret (value n).

(** ** Operators *)

(** A pointer to an operator that may be null is an option. *)
Module Op.
Inductive Operator :=
| NodeScanByLabel (label var : string)
| MultipleNodeScanByLabel (label : list string) (var : string)
| NodeByIdSeek (id var : string)
| AllNodeScan (var : string)
| ProduceResults (op : option Operator) (item : list ASTNode)
| Filter (input : option Operator) (filterCases : list (string * ASTNode))
| Projection (input : option Operator) (columns : list ASTNode)
| Limit (input : option Operator) (limit : ASTNode)
| Skip (input : option Operator) (skip : ASTNode)
| Distinct (input : option Operator) (columns : list ASTNode)
| OrderBy (input : option Operator) (orderByClause : ASTNode)
| Union (left right : option Operator)
| Intersection (left right : option Operator)
| CacheProperty (input : option Operator) (property : list ASTNode)
| UndirectedRelationshipTypeScan (relType relvar startVar endVar : string)
| UndirectedAllRelationshipScan (startVar endVar relVar : string)
| DirectedRelationshipTypeScan (direction relType relvar startVar endVar : string)
| DirectedAllRelationshipScan (direction startVar endVar relVar : string)
| ExpandAll (input : option Operator) (startVar destVar relVar relType direction : string)
| Apply (operator1 operator2 : option Operator)
| AggregationFunction (input : option Operator) (ast : ASTNode) (functionName : string)
| Create (input : option Operator) (ast : ASTNode)
| CartesianProduct (left right : option Operator).
End Op.

(** The static members of [Operator]. *)
Record aggregate := mkAggregate {
  isAggregate : bool;
  aggregateType : string;
  aggregateKey : string
}.

Definition no_aggregate : aggregate := mkAggregate false "" "".

Section texts.
Context `{JT : JsonText}.

(** ** Conditions *)

(** The names of the lookups of an expression such as [n.address.city]. *)
Fixpoint lookup_names (l : list ASTNode) : outcome (list string) :=
  match l with
  | [] => Ret []
  | prop :: r =>
      if has_type "PROPERTY_LOOKUP" prop then
        n ← element 0 prop; rest ← lookup_names r;
        Ret (if has_type "RESERVED_WORD" n then rest else value n :: rest)
      else lookup_names r
  end.

(** The pairs of a map literal. *)
Fixpoint map_entries (l : list ASTNode) (property : list (string * json)) : outcome (list (string * json)) :=
  match l with
  | [] => Ret property
  | prop :: r =>
      k ← element 0 prop;
      if has_type "RESERVED_WORD" k then map_entries r property
      else v ← element 1 prop; map_entries r (insert_key (value k) (JString (value v)) property)
  end.

Definition comparisonOperand (ast : ASTNode) : outcome string :=
  if has_type "NON_ARITHMETIC_OPERATOR" ast then
    v ← element 0 ast; property ← lookup_names (elements ast);
    Ret (dump (object [("variable", JString (value v)); ("type", JString "PROPERTY_LOOKUP");
                       ("property", strings_json property)]))
  else if has_type "PROPERTIES_MAP" ast then
    property ← map_entries (elements ast) [];
    Ret (dump (object [("type", JString "PROPERTIES_MAP"); ("property", JObject property)]))
  else if has_type "LIST" ast then
    Ret (dump (object [("type", JString "LIST"); ("element", strings_json (value <$> elements ast))]))
  else if has_type "FUNCTION_BODY" ast then
    name ← function_name ast; args ← element 1 ast;
    Ret (dump (object [("type", JString "FUNCTION"); ("functionName", JString name);
                       ("arguments", strings_json (value <$> elements args))]))
  else if has_type "IS_NOT_NULL" ast || has_type "IS_NULL" ast then
    Ret (dump (object [("type", JString "NULL")]))
  else Ret (dump (object [("type", JString (nodeType ast)); ("value", JString (value ast))])).

Definition parsed_operand (ast : ASTNode) : outcome json := t ← comparisonOperand ast; parse_exn t.

(** [Const::NOT] is the string of [Const::RETURN_BODY]. *)
Definition Const_NOT : string := "RETURN_BODY".

(** A [vector<string>] takes the values only if they are strings. *)
Fixpoint analyzeWhere (ast : ASTNode) : outcome string :=
  let 'Node type _ els := ast in
  let parsed := traverse (fun e => t ← analyzeWhere e; parse_exn t) els in
  if String.eqb type "OR" then
    cs ← parsed; Ret (dump (object [("type", JString "OR"); ("comparisons", JArray cs)]))
  else if String.eqb type "AND" then
    cs ← parsed; Ret (dump (object [("type", JString "AND"); ("comparisons", JArray cs)]))
  else if String.eqb type "XOR" then
    cs ← traverse (fun e => t ← analyzeWhere e; j ← parse_exn t; as_string j) els;
    Ret (dump (object [("type", JString "XOR"); ("comparisons", strings_json cs)]))
  else if String.eqb type Const_NOT then
    cs ← parsed; Ret (dump (object [("type", JString Const_NOT); ("comparisons", JArray cs)]))
  else if String.eqb type "COMPARISON" then
    left ← element 0 ast; oparator ← element 1 ast; right ← element 0 oparator;
    l ← parsed_operand left; r ← parsed_operand right;
    Ret (dump (object [("type", JString "COMPARISON"); ("left", l);
                       ("operator", JString (nodeType oparator)); ("right", r)]))
  else if String.eqb type "PREDICATE_EXPRESSIONS" then
    left ← element 0 ast; opr ← element 1 ast; right ← element 0 opr;
    l ← parsed_operand left; r ← parsed_operand right;
    Ret (dump (object [("type", JString "PREDICATE_EXPRESSIONS"); ("left", l);
                       ("operator", JString (if has_type "IS_NOT_NULL" right then "<>" else "==")); ("right", r)]))
  else Ret (dump (object [])).

(** [variable.property == literal] *)
Definition equality (variable property type literal : string) : json :=
  let left := object [("type", JString "PROPERTY_LOOKUP"); ("property", strings_json [property]);
                      ("variable", JString variable)] in
  let right := object [("type", JString type); ("value", JString literal)] in
  object [("left", left); ("operator", JString "=="); ("right", right); ("type", JString "COMPARISON")].

Definition analyzeNodeLabels (item : string * ASTNode) : outcome string :=
  n ← element 0 item.2; Ret (dump (equality item.1 "label" "STRING" (value n))).

Definition property_equality (variable : string) (prop : ASTNode) : outcome json :=
  k ← element 0 prop; v ← element 1 prop; Ret (equality variable (value k) (nodeType v) (value v)).

Definition analyzePropertiesMap (item : string * ASTNode) : outcome string :=
  if (1 <? length (elements item.2))%nat then
    comparisons ← traverse (property_equality item.1) (elements item.2);
    Ret (dump (object [("type", JString "AND"); ("comparisons", JArray comparisons)]))
  else prop ← element 0 item.2; j ← property_equality item.1 prop; Ret (dump j).

(** The condition a case of the filter assigns. *)
Definition filter_case (item : string * ASTNode) : outcome (option json) :=
  if has_type "WHERE" item.2 then
    e ← element 0 item.2; t ← analyzeWhere e; j ← parse_exn t; Ret (Some j)
  else if has_type "PROPERTIES_MAP" item.2 then
    t ← analyzePropertiesMap item; j ← parse_exn t; Ret (Some j)
  else if has_type "NODE_LABEL" item.2 then
    t ← analyzeNodeLabels item; j ← parse_exn t; Ret (Some j)
  else Ret None.

(** Every case assigns [filter["condition"]]. *)
Fixpoint filter_conditions (cases : list (string * ASTNode)) (fields : list (string * json))
    : outcome (list (string * json)) :=
  match cases with
  | [] => Ret fields
  | item :: r =>
      c ← filter_case item;
      filter_conditions r (match c with Some j => fields ++ [("condition", j)] | None => fields end)
  end.

(** ** Columns *)

(** The names of the values of a result row. *)
Definition result_names (result : ASTNode) : outcome (list string) :=
  if has_type "AS" result then e ← element 1 result; Ret [value e]
  else if has_type "NON_ARITHMETIC_OPERATOR" result then
    v ← element 0 result; p ← property_name result; Ret [(value v +:+ "." +:+ p)%string]
  else if has_type "VARIABLE" result then Ret [value result]
  else if has_type "FUNCTION_BODY" result then
    args ← element 1 result; nonArithmetic ← element 0 args;
    v ← element 0 nonArithmetic; p ← property_name nonArithmetic; f ← function_name result;
    Ret [(f +:+ "(" +:+ value v +:+ "." +:+ p +:+ ")")%string; "variable"; "numberOfData"]
  else Ret [].

(** A lookup and the name of its column. *)
Definition lookup_operand (ast : ASTNode) (assigned : option string) : outcome json :=
  v ← element 0 ast; p ← property_name ast;
  Ret (object [("Type", JString "PROPERTY_LOOKUP"); ("variable", JString (value v)); ("property", JString p);
               ("assign", JString (default (value v +:+ "." +:+ p)%string assigned))]).

(** The operand of a column of Projection; None: [continue]. *)
Definition projection_operand (ast : ASTNode) : outcome (option json) :=
  if has_type "NON_ARITHMETIC_OPERATOR" ast then j ← lookup_operand ast None; Ret (Some j)
  else if has_type "AS" ast then
    e ← element 0 ast;
    if has_type "FUNCTION_BODY" e then
      f ← function_name e; a ← element 1 ast;
      Ret (Some (object [("functionName", JString f); ("assign", JString (value a))]))
    else a ← element 1 ast; j ← lookup_operand e (Some (value a)); Ret (Some j)
  else if has_type "VARIABLE" ast then Ret None
  else if has_type "FUNCTION_BODY" ast then
    args ← element 1 ast; nonArithmetic ← element 0 args;
    v ← element 0 nonArithmetic; p ← property_name nonArithmetic; f ← function_name ast;
    Ret (Some (object [("functionName", JString f);
                       ("assign", JString (f +:+ "(" +:+ value v +:+ "." +:+ p +:+ ")")%string)]))
  else Ret (Some JNull).

(** The operand of a column of Distinct. *)
Definition distinct_operand (ast : ASTNode) : outcome (option json) :=
  if has_type "NON_ARITHMETIC_OPERATOR" ast then j ← lookup_operand ast None; Ret (Some j)
  else if has_type "AS" ast then
    e ← element 0 ast; a ← element 1 ast; j ← lookup_operand e (Some (value a)); Ret (Some j)
  else if has_type "VARIABLE" ast then Ret None
  else Ret (Some JNull).

Fixpoint column_operands (f : ASTNode -> outcome (option json)) (columns : list ASTNode) : outcome (list json) :=
  match columns with
  | [] => Ret []
  | ast :: r => o ← f ast; rest ← column_operands f r; Ret (option_list o ++ rest)
  end.

Definition order_key (clause : ASTNode) : outcome (option string) :=
  e ← element 0 clause;
  if has_type "VARIABLE" e then Ret (Some (value e))
  else if has_type "NON_ARITHMETIC_OPERATOR" e then
    v ← element 0 e; p ← property_name e; Ret (Some (value v +:+ "." +:+ p)%string)
  else Ret None.

(** ** CREATE *)

(** The elements of a node pattern or of the details of a relationship: the
    variable goes into [data], label or type and the properties into
    [property]. *)
Fixpoint pattern_fields (labelType key : string) (l : list ASTNode) (data : json) (property : list (string * json))
    : outcome (json * list (string * json)) :=
  match l with
  | [] => Ret (data, property)
  | e :: r =>
      if has_type labelType e then
        n ← element 0 e; pattern_fields labelType key r data (insert_key key (JString (value n)) property)
      else if has_type "VARIABLE" e then
        d ← assign "variable" (JString (value e)) data; pattern_fields labelType key r d property
      else if has_type "PROPERTIES_MAP" e then
        p ← map_entries (elements e) property; pattern_fields labelType key r data p
      else pattern_fields labelType key r data property
  end.

(** [if (!property.empty()) data["properties"] = property;] *)
Definition with_pattern (labelType key : string) (l : list ASTNode) (data : json) : outcome json :=
  '(d, property) ← pattern_fields labelType key l data [];
  match property with [] => Ret d | _ => assign "properties" (JObject property) d end.

(** A path: [source], [rel], [dest], [relationship] are declared before the
    loop; [clear] leaves an empty object. *)
Fixpoint create_path (l : list ASTNode) (source rel dest relationship : json) : outcome (list json) :=
  match l with
  | [] => Ret []
  | e :: r =>
      if has_type "NODE_PATTERN" e then
        s ← with_pattern "NODE_LABEL" "label" (elements e) source; create_path r s rel dest relationship
      else if has_type "PATTERN_ELEMENT_CHAIN" e then
        pattern ← element 0 e; details ← element 1 pattern; node ← element 1 e;
        rel ← with_pattern "RELATIONSHIP_TYPE" "type" (elements details) rel;
        dest ← with_pattern "NODE_LABEL" "label" (elements node) dest;
        arrow ← element 0 pattern;
        let right := has_type "RIGHT_ARROW" arrow in
        x ← assign "source" (if right then source else dest) relationship;
        x ← assign "dest" (if right then dest else source) x;
        x ← assign "rel" rel x;
        rest ← create_path r dest (clear rel) (clear dest) x;
        Ret (x :: rest)
      else create_path r source rel dest relationship
  end.

Fixpoint create_elements (l : list ASTNode) : outcome (list json) :=
  match l with
  | [] => Ret []
  | e :: r =>
      if has_type "NODE_PATTERN" e then
        data ← with_pattern "NODE_LABEL" "label" (elements e) (object [("type", JString "Node")]);
        rest ← create_elements r; Ret (data :: rest)
      else if has_type "PATTERN_ELEMENTS" e then
        relationships ← create_path (elements e) JNull JNull JNull JNull;
        rest ← create_elements r;
        Ret (object [("type", JString "Relationships"); ("relationships", JArray relationships)] :: rest)
      else create_elements r
  end.

(** ** The texts *)

Definition expand_fields (relType direction : string) : list (string * json) :=
  let rt := [("relType", JString relType)] in
  let dir := [("direction", JString direction)] in
  if negb (String.eqb relType "null") && String.eqb direction "" then rt
  else if String.eqb relType "null" && String.eqb direction "right" then dir
  else if negb (String.eqb relType "null") && String.eqb direction "right" then rt ++ dir
  else if String.eqb relType "null" && String.eqb direction "left" then dir
  else if negb (String.eqb relType "null") && String.eqb direction "left" then rt ++ dir
  else [].

Definition set_aggregate (type : string) (key : option string) : M aggregate unit :=
  modify (fun a => mkAggregate true type (default (aggregateKey a) key)).

Fixpoint execute (op : Op.Operator) : M aggregate string :=
  let next (input : option Op.Operator) : M aggregate (list (string * json)) :=
    match input with
    | Some o => t ← execute o; mret [("NextOperator", JString t)]
    | None => mret []
    end in
  let run (input : option Op.Operator) : M aggregate string :=
    match input with Some o => execute o | None => undef end in
  match op with
  | Op.NodeScanByLabel label var =>
      mret (dump (object [("Operator", JString "NodeScanByLabel"); ("variable", JString var); ("Label", JString label)]))
  | Op.MultipleNodeScanByLabel label var =>
      mret (dump (object [("Operator", JString "MultipleNodeScanByLabel"); ("variables", JString var);
                          ("Label", strings_json label)]))
  | Op.NodeByIdSeek id var =>
      mret (dump (object [("Operator", JString "NodeByIdSeek"); ("variable", JString var); ("id", JString id)]))
  | Op.AllNodeScan var => mret (dump (object [("Operator", JString "AllNodeScan"); ("variables", JString var)]))
  | Op.ProduceResults op item =>
      n ← next op; names ← lift (traverse result_names item);
      mret (dump (object ([("Operator", JString "ProduceResult")] ++ n ++ [("variable", strings_json (concat names))])))
  | Op.Filter input cases =>
      n ← next input; fields ← lift (filter_conditions cases []);
      mret (dump (object (n ++ [("Operator", JString "Filter")] ++ fields)))
  | Op.Projection input columns =>
      n ← next input; ops ← lift (column_operands projection_operand columns);
      mret (dump (object (n ++ [("Operator", JString "Projection"); ("project", JArray ops)])))
  | Op.Limit input _ | Op.Skip input _ => _ ← run input; mret ""
  | Op.Distinct input columns =>
      n ← next input; ops ← lift (column_operands distinct_operand columns);
      mret (dump (object (n ++ [("Operator", JString "Distinct"); ("project", JArray ops)])))
  | Op.OrderBy input clause =>
      n ← next input;
      key ← lift (order_key clause);
      let order := if has_type "ASC" clause then "ASC" else "DESC" in
      _ ← modify (fun a => mkAggregate true order (aggregateKey a));
      match key with
      | Some k =>
          _ ← set_aggregate order (Some k);
          mret (dump (object (n ++ [("Operator", JString "OrderBy"); ("order", JString order); ("variable", JString k)])))
      | None => throw json_error
      end
  | Op.Union l r | Op.Intersection l r => _ ← run l; _ ← run r; mret ""
  | Op.CacheProperty input _ => run input
  | Op.UndirectedRelationshipTypeScan relType relvar startVar endVar =>
      mret (dump (object [("Operator", JString "UndirectedRelationshipTypeScan"); ("sourceVariable", JString startVar);
                          ("destVariable", JString endVar); ("relVariable", JString relvar); ("relType", JString relType)]))
  | Op.UndirectedAllRelationshipScan startVar endVar relVar =>
      mret (dump (object [("Operator", JString "UndirectedAllRelationshipScan"); ("sourceVariable", JString startVar);
                          ("destVariable", JString endVar); ("relVariable", JString relVar)]))
  | Op.DirectedRelationshipTypeScan direction relType relvar startVar endVar =>
      mret (dump (object [("Operator", JString "DirectedRelationshipTypeScan"); ("sourceVariable", JString startVar);
                          ("destVariable", JString endVar); ("relVariable", JString relvar); ("relType", JString relType);
                          ("direction", JString direction)]))
  | Op.DirectedAllRelationshipScan direction startVar endVar relVar =>
      mret (dump (object [("Operator", JString "DirectedAllRelationshipScan"); ("sourceVariable", JString startVar);
                          ("destVariable", JString endVar); ("relVariable", JString relVar);
                          ("direction", JString direction)]))
  | Op.ExpandAll input startVar destVar relVar relType direction =>
      t ← run input;
      mret (dump (object ([("Operator", JString "ExpandAll"); ("NextOperator", JString t);
                           ("sourceVariable", JString startVar); ("destVariable", JString destVar);
                           ("relVariable", JString relVar)] ++ expand_fields relType direction)))
  | Op.Apply operator1 operator2 =>
      _ ← next operator1; _ ← next operator2; mret ""
  | Op.AggregationFunction input ast functionName =>
      t ← run input;
      v ← lift (element 0 ast); p ← lift (property_name ast);
      _ ← set_aggregate "Average" None;
      mret (dump (object [("Operator", JString "AggregationFunction"); ("NextOperator", JString t);
                          ("FunctionName", JString functionName); ("variable", JString (value v));
                          ("property", JString p)]))
  | Op.Create input ast =>
      n ← next input;
      e ← lift (element 0 ast); list ← lift (create_elements (elements e));
      mret (dump (object (n ++ [("Operator", JString "Create"); ("elements", JArray list)])))
  | Op.CartesianProduct lop rop =>
      l ← run lop; r ← run rop;
      mret (dump (object [("Operator", JString "CartesianProduct"); ("left", JString l); ("right", JString r)]))
  end.
End texts.

(** ** Loading a plan on a worker *)

Section loading.
Context `{JT : JsonText} `{PQ : PriorityQueue}.
Context (sizeof_Row : Z) (creates : nat -> bool) (workers : option Z).

(** The operators of [methodMap] that read rows; OrderBy takes its key and its
    order from the plan before it reads. *)
Definition stage_method (name : string) : option (json -> outcome stage) :=
  if String.eqb name "ProduceResult" then Some (fun q => Ret (ProduceResult q))
  else if String.eqb name "Filter" then Some (fun q => Ret (Filter workers q))
  else if String.eqb name "Projection" then Some (fun q => Ret (Projection q))
  else if String.eqb name "Distinct" then Some (fun q => Ret (Distinct q))
  else if String.eqb name "OrderBy" then
    Some (fun q => k ← index "variable" q; key ← as_string k; o ← index "order" q; order ← as_string o;
                   Ret (OrderBy_stage sizeof_Row creates key order))
  else None.

(** The others of [methodMap]. *)
Definition source_methods : list string :=
  ["AllNodeScan"; "NodeScanByLabel"; "NodeByIdSeek"; "ExpandAll"; "UndirectedRelationshipTypeScan";
   "UndirectedAllRelationshipScan"; "DirectedRelationshipTypeScan"; "DirectedAllRelationshipScan";
   "AggregationFunction"; "Create"; "CartesianProduct"].

(** The operator at the end of the chain of stages, with its plan, and the
    stages from there on.  A name that is not in the map is an empty
    [std::function]. *)
Fixpoint load (fuel : nat) (text : string) : outcome (string * json * list stage) :=
  match fuel with
  | O => OutOfFuel
  | S fuel =>
      query ← parse_exn text;
      o ← index "Operator" query; name ← as_string o;
      match stage_method name with
      | Some mk =>
          next ← index "NextOperator" query; nextOpt ← as_string next;
          r ← load fuel nextOpt;
          p ← mk query; Ret (r.1, r.2 ++ [p])
      | None => if decide (name ∈ source_methods) then Ret (name, query, []) else Throw bad_function_call
      end
  end.
End loading.
