(* ===== verification/CypherPlanner.v ===== *)
(** * CypherPlanner: from the syntax tree to the plan

    [QueryPlanner] (query/processor/cypher/queryplanner/QueryPlanner.cpp)
    builds the tree of operators of a query.  [createExecutionPlan] walks the
    clauses; [pathPatternHandler] picks the scan a path pattern starts with
    and expands the path from there, to the right and to the left.  The loops
    of its branches are the same text but for which relationships they compare
    and which conditions they keep: [policy] says which. *)
From Stdlib Require Import ZArith Ascii String Lia.
From stdpp Require Import base tactics numbers list strings sets.
From S2P Require Import Prelude Json CypherPlan.

(** ** Trees *)

Definition isAllChildrenAreGivenType (t : string) (root : ASTNode) : bool := forallb (has_type t) (elements root).

Fixpoint isAvailable (t : string) (subtree : ASTNode) : bool :=
  let 'Node nt _ els := subtree in String.eqb nt t || existsb (isAvailable t) els.

Fixpoint getSubTreeListByNodeType (t : string) (root : ASTNode) : list ASTNode :=
  let 'Node _ _ els := root in
  concat (List.map (fun e => if has_type t e then [e] else getSubTreeListByNodeType t e) els).

(** A pointer that is dereferenced. *)
Definition deref {A} (p : option A) : outcome A := match p with Some a => Ret a | None => Undef end.

(** ** Details of patterns *)

(** [availability] and [nodes]. *)
Record details := mkDetails {
  first0 : bool; first1 : bool; first2 : bool;
  second0 : option ASTNode; second1 : option ASTNode; second2 : option ASTNode
}.

Definition no_details : details := mkDetails false false false None None None.

(** Several types: [types] is [e] itself, whose elements are gone before they
    are copied, and it goes to the place of the variable. *)
Definition relationship_detail (d : details) (e : ASTNode) : details :=
  if has_type "VARIABLE" e then mkDetails true (first1 d) (first2 d) (Some e) (second1 d) (second2 d)
  else if has_type "RELATIONSHIP_TYPE" e then mkDetails (first0 d) true (first2 d) (second0 d) (Some e) (second2 d)
  else if has_type "RELATIONSHIP_TYPES" e then
    mkDetails (first0 d) true (first2 d) (Some (Node (nodeType e) (value e) [])) (second1 d) (second2 d)
  else if has_type "PROPERTIES_MAP" e then mkDetails (first0 d) (first1 d) true (second0 d) (second1 d) (Some e)
  else d.

Definition getRelationshipDetails (node : ASTNode) : details :=
  foldl relationship_detail no_details (take 3 (elements node)).

Definition node_detail (d : details) (e : ASTNode) : details :=
  if has_type "VARIABLE" e then mkDetails true (first1 d) (first2 d) (Some e) (second1 d) (second2 d)
  else if has_type "NODE_LABEL" e || has_type "NODE_LABELS" e
  then mkDetails (first0 d) true (first2 d) (second0 d) (Some e) (second2 d)
  else if has_type "PROPERTIES_MAP" e then mkDetails (first0 d) (first1 d) true (second0 d) (second1 d) (Some e)
  else d.

Definition getNodeDetails (node : ASTNode) : details :=
  foldl node_detail no_details (take 3 (elements node)).

Definition variable_name (d : details) (otherwise : string) : outcome string :=
  if first0 d then n ← deref (second0 d); Ret (value n) else Ret otherwise.

Definition type_name (d : details) : outcome string :=
  if first1 d then n ← deref (second1 d); e ← element 0 n; Ret (value e) else Ret "null".

Definition node_var (i : nat) : string := ("node_var_" +:+ to_string (Z.of_nat i))%string.
Definition edge_var (i : nat) : string := ("edge_var_" +:+ to_string (Z.of_nat i))%string.

(** [WHERE var1 <> var2] *)
Definition prepareWhereClause (var1 var2 : string) : ASTNode :=
  Node "WHERE" "" [Node "COMPARISON" "" [Node "VARIABLE" var1 []; Node "<>" "" [Node "VARIABLE" var2 []]]].

(** [if (d.first[k]) filterCases.push_back({var, d.second[k]})] *)
Definition property_case (var : string) (d : details) : list (string * ASTNode) :=
  if first2 d then (fun n => (var, n)) <$> option_list (second2 d) else [].
Definition label_case (var : string) (d : details) : list (string * ASTNode) :=
  if first1 d then (fun n => (var, n)) <$> option_list (second1 d) else [].
Definition node_cases (var : string) (d : details) : list (string * ASTNode) := label_case var d ++ property_case var d.

(** [if (!filterCases.empty()) inputOperator = new Filter(inputOperator, filterCases);] *)
Definition filtered (cases : list (string * ASTNode)) (op : Op.Operator) : Op.Operator :=
  match cases with [] => op | _ => Op.Filter (Some op) cases end.

(** ** Paths *)

(** The parts of an element of the chain: the relationship, its arrow, the
    node at its right end. *)
Definition chain_rel (e : ASTNode) : outcome details := p ← element 0 e; d ← element 1 p; Ret (getRelationshipDetails d).
Definition chain_arrow (e : ASTNode) : outcome ASTNode := p ← element 0 e; element 0 p.
Definition chain_node (e : ASTNode) : outcome ASTNode := element 1 e.

Definition undirected (arrow : ASTNode) : bool := has_type "UNIDIRECTION_ARROW" arrow.

(** The direction seen from the end the expansion starts at. *)
Definition arrow_direction (flip : bool) (arrow : ASTNode) : string :=
  if undirected arrow then ""
  else if xorb flip (has_type "LEFT_ARRROW" arrow) then "left" else "right".

(** The variables of the loops.  [fromVar] is [startVar], in some loops to the
    right [destVar]. *)
Record walk := mkWalk {
  inputOperator : Op.Operator;
  fromVar : string;
  prevRel : string;
  rel : string
}.

Record policy := mkPolicy {
  compares : nat -> walk -> bool;
  keeps_cases : bool;
  keeps_arrow : bool
}.

Section path.
Context (startNode : ASTNode) (patternElements : list ASTNode).

(** [patternElements[i]], not checked. *)
Definition chain (i : nat) : outcome ASTNode := deref (patternElements !! i).

(** The node before the [i]-th relationship. *)
Definition node_before (i : nat) : outcome ASTNode :=
  match i with O => Ret startNode | S j => e ← chain j; chain_node e end.
Definition node_after (i : nat) : outcome ASTNode := e ← chain i; chain_node e.

(** The body of the loops. *)
Definition expand_step (toLeft : bool) (p : policy) (i : nat) (w : walk) : outcome walk :=
  e ← chain i;
  analyzedRel ← chain_rel e;
  node ← (if toLeft then node_before i else node_after i);
  let analyzedNode := getNodeDetails node in
  newDestvar ← variable_name analyzedNode (node_var i);
  newRelVar ← variable_name analyzedRel (edge_var i);
  newRelType ← type_name analyzedRel;
  arrow ← chain_arrow e;
  let direction := if keeps_arrow p then arrow_direction toLeft arrow else "" in
  let op := Op.ExpandAll (Some (inputOperator w)) (fromVar w) newDestvar newRelVar newRelType direction in
  let where_ := if compares p i w then [("null", prepareWhereClause newRelVar (prevRel w))] else [] in
  let cases := if keeps_cases p then property_case newRelVar analyzedRel ++ node_cases newDestvar analyzedNode else [] in
  Ret (mkWalk (filtered (where_ ++ cases) op) newDestvar newRelVar
              (if String.eqb (prevRel w) "null" then newRelVar else rel w)).

Fixpoint expand_all (toLeft : bool) (p : policy) (idx : list nat) (w : walk) : outcome walk :=
  match idx with
  | [] => Ret w
  | i :: r => w ← expand_step toLeft p i w; expand_all toLeft p r w
  end.

(** [for (int right = from; right < patternElements.size(); right++)] *)
Definition expand_right (p : policy) (from : nat) (w : walk) : outcome walk :=
  expand_all false p (seq from (length patternElements - from)) w.
(** [for (int left = to - 1; left >= 0; left--)] *)
Definition expand_left (p : policy) (to : nat) (w : walk) : outcome walk :=
  expand_all true p (rev (seq 0 to)) w.

(** *** From a node found by its id *)

Definition seek_policy : policy := mkPolicy (fun _ w => negb (String.eqb (prevRel w) "null")) true true.

Fixpoint seek_index (variable : string) (i : nat) (l : list ASTNode) : outcome (option nat) :=
  match l with
  | [] => Ret None
  | e :: r =>
      rest ← seek_index variable (S i) r;
      n ← chain_node e;
      Ret (match elements n with
           | x :: _ => if String.eqb variable (value x) then Some (S i) else rest
           | [] => rest
           end)
  end.

Definition details_count (d : details) : nat :=
  (if first0 d then 1 else 0) + (if first1 d then 1 else 0) + (if first2 d then 1 else 0).

(** The operator is taken for a [NodeByIdSeek]; [index] is not initialised
    when the variable is not in the path. *)
Definition path_from_seek (input : Op.Operator) : outcome Op.Operator :=
  match input with
  | Op.NodeByIdSeek _ variable =>
      found ← seek_index variable 0 patternElements;
      s ← element 0 startNode;
      index ← deref (if String.eqb (value s) variable then Some 0%nat else found);
      let w := mkWalk input variable "null" "" in
      if (index =? 0)%nat then w ← expand_right seek_policy index w; Ret (inputOperator w)
      else if (index =? length patternElements)%nat then w ← expand_left seek_policy index w; Ret (inputOperator w)
      else
        l ← chain (index - 1); leftRel ← chain_rel l;
        r ← chain index; rightRel ← chain_rel r;
        if (details_count rightRel <? details_count leftRel)%nat then
          w ← expand_left seek_policy index w;
          w ← expand_right seek_policy index (mkWalk (inputOperator w) variable (rel w) "");
          Ret (inputOperator w)
        else
          w ← expand_right seek_policy index w;
          w ← expand_left seek_policy index (mkWalk (inputOperator w) variable (rel w) "");
          Ret (inputOperator w)
  | _ => Undef
  end.

(** *** Which scan to start with *)

Record survey := mkSurvey { typeIndex : option nat; labelIndex : option nat; directionIndex : option nat }.

(** The loop from the last relationship to the first; it ends at one that
    has a type. *)
Fixpoint survey_path (idx : list nat) (s : survey) : outcome survey :=
  match idx with
  | [] => Ret s
  | i :: r =>
      e ← chain i;
      analyzedDetails ← chain_rel e; node ← chain_node e;
      if first1 analyzedDetails then Ret (mkSurvey (Some i) (labelIndex s) (directionIndex s))
      else
        arrow ← chain_arrow e;
        survey_path r (mkSurvey (typeIndex s)
          (match labelIndex s with Some j => Some j | None => if first1 (getNodeDetails node) then Some i else None end)
          (if undirected arrow then directionIndex s else Some i))
  end.

(** The ends and the variables of the relationship a scan starts with. *)
Definition scan_vars (i : nat) : outcome (details * details * details * (string * string * string)) :=
  e ← chain i;
  analyzedDetails ← chain_rel e;
  s ← node_before i; d ← node_after i;
  let analyzedSource := getNodeDetails s in
  let analyzedDest := getNodeDetails d in
  relVar ← variable_name analyzedDetails (edge_var i);
  startVar ← variable_name analyzedSource (node_var i);
  destVar ← variable_name analyzedDest (node_var (i + 1));
  Ret (analyzedDetails, analyzedSource, analyzedDest, (relVar, startVar, destVar)).

Definition scan_cases (dr ds dd : details) (relVar startVar destVar : string) : list (string * ASTNode) :=
  property_case relVar dr ++ node_cases startVar ds ++ node_cases destVar dd.

(** *** From the relationships of a type *)

Definition type_policy : policy := mkPolicy (fun _ _ => true) true true.

(** [analyzedDetails.second[1]->elements[0]->value] *)
Definition scanned_type (d : details) : outcome string := n ← deref (second1 d); t ← element 0 n; Ret (value t).

Definition path_from_type (index : nat) : outcome Op.Operator :=
  v ← scan_vars index;
  let '(dr, ds, dd, (relVar, startVar, destVar)) := v in
  e ← chain index; arrow ← chain_arrow e;
  relType ← scanned_type dr;
  let scan := if undirected arrow then Op.UndirectedRelationshipTypeScan relType relVar startVar destVar
              else Op.DirectedRelationshipTypeScan (arrow_direction false arrow) relType relVar startVar destVar in
  let op := filtered (scan_cases dr ds dd relVar startVar destVar) scan in
  s ← node_before index; d ← node_after index;
  if (length (elements s) <? length (elements d))%nat then
    w ← expand_right type_policy (index + 1) (mkWalk op destVar relVar "");
    w ← expand_left type_policy index (mkWalk (inputOperator w) startVar relVar "");
    Ret (inputOperator w)
  else
    w ← expand_left type_policy index (mkWalk op startVar relVar "");
    w ← expand_right type_policy (index + 1) (mkWalk (inputOperator w) destVar relVar "");
    Ret (inputOperator w).

(** *** From the nodes of a label *)

Definition label_policy (labelIndex : nat) : policy :=
  mkPolicy (fun right _ => (labelIndex + 1 <? right)%nat) true true.

(** With a label on the first node only, [labelIndex] is -1 and
    [patternElements[labelIndex]] is outside of the vector; [index] of the
    fallback name is not initialised. *)
Definition path_from_label (labelIndex : option nat) : outcome Op.Operator :=
  i ← deref labelIndex;
  source ← node_after i;
  let analyzedSource := getNodeDetails source in
  startVar ← (if first0 analyzedSource then variable_name analyzedSource "" else Undef);
  n ← deref (second1 analyzedSource); label ← element 0 n;
  let op := filtered (property_case startVar analyzedSource) (Op.NodeScanByLabel (value label) startVar) in
  w ← expand_right (label_policy i) (i + 1) (mkWalk op startVar "" "");
  prev ← (if (i <? length patternElements - 1)%nat
          then e ← chain (i + 1); d ← chain_rel e; variable_name d (edge_var (i + 1))
          else Ret (prevRel w));
  w ← expand_left type_policy (i + 1) (mkWalk (inputOperator w) startVar prev "");
  Ret (inputOperator w).

(** *** From all relationships *)

Definition direction_policy : policy := mkPolicy (fun _ _ => true) false true.

(** Neither the properties nor the labels of the pattern become conditions. *)
Definition path_from_direction (index : nat) : outcome Op.Operator :=
  v ← scan_vars index;
  let '(_, _, _, (relVar, startVar, destVar)) := v in
  e ← chain index; arrow ← chain_arrow e;
  let direction := if has_type "LEFT_ARRROW" arrow then "left" else "right" in
  let op := Op.DirectedAllRelationshipScan direction startVar destVar relVar in
  w ← expand_left direction_policy index (mkWalk op startVar relVar "");
  w ← expand_right direction_policy (index + 1) (mkWalk (inputOperator w) destVar relVar "");
  Ret (inputOperator w).

Definition undirected_policy : policy := mkPolicy (fun _ _ => true) true false.

Definition path_undirected : outcome Op.Operator :=
  endIndex ← (match length patternElements with O => Undef | S n => Ret n end);
  v ← scan_vars endIndex;
  let '(dr, ds, dd, (relVar, startVar, destVar)) := v in
  let op := filtered (scan_cases dr ds dd relVar startVar destVar)
                     (Op.UndirectedAllRelationshipScan startVar destVar relVar) in
  w ← expand_left undirected_policy endIndex (mkWalk op startVar relVar "");
  Ret (inputOperator w).

Definition path_from_scan : outcome Op.Operator :=
  s ← survey_path (rev (seq 0 (length patternElements))) (mkSurvey None None None);
  match typeIndex s with
  | Some index => path_from_type index
  | None =>
      if bool_decide (is_Some (labelIndex s)) || first1 (getNodeDetails startNode) then path_from_label (labelIndex s)
      else match directionIndex s with
           | Some index => path_from_direction index
           | None => path_undirected
           end
  end.
End path.

Definition pathPatternHandler (pattern : ASTNode) (input : option Op.Operator) : outcome Op.Operator :=
  startNode ← element 0 pattern;
  let patternElements := getSubTreeListByNodeType "PATTERN_ELEMENT_CHAIN" pattern in
  match input with
  | Some op => path_from_seek startNode patternElements op
  | None => path_from_scan startNode patternElements
  end.

(** ** Clauses *)

Notation planner := (option Op.Operator -> string -> outcome (option Op.Operator)).

(** [for (...) currentOperator = createExecutionPlan(ast->elements[i], currentOperator);] *)
Fixpoint plan_each (plans : list planner) (op : option Op.Operator) : outcome (option Op.Operator) :=
  match plans with
  | [] => Ret op
  | p :: r => op ← p op ""; plan_each r op
  end.

(** MATCH with [id(n) == literal] in its comparisons. *)
Fixpoint id_seek (where_ : list ASTNode) (comparisons : list ASTNode) (op : option Op.Operator)
    : outcome (option Op.Operator) :=
  match comparisons with
  | [] => Ret op
  | a :: r =>
      f ← element 0 a;
      (if has_type "FUNCTION_BODY" f then
         name ← function_name f;
         if String.eqb name "id" then
           o ← element 1 a;
           if has_type "==" o then
             w ← deref (head where_);
             if negb (isAvailable "OR" w) && negb (isAvailable "XOR" w) then
               id ← element 0 o;
               args ← element 1 f; variable ← element 0 args;
               Ret (Some (Op.NodeByIdSeek (value id) (value variable)))
             else Ret op
           else Ret op
         else Ret op
       else Ret op) ≫= id_seek where_ r
  end.

Definition match_seek (ast : ASTNode) (op : option Op.Operator) : outcome (option Op.Operator) :=
  if isAvailable "FUNCTION_BODY" ast
  then id_seek (getSubTreeListByNodeType "WHERE" ast) (getSubTreeListByNodeType "COMPARISON" ast) op
  else Ret op.

(** The parts of a query with WITH: all but the last two are planned and lost. *)
Fixpoint plan_parts (plans : list planner) (op : option Op.Operator) : outcome (option Op.Operator) :=
  match plans with
  | [] => Ret op
  | [p] => r ← p None ""; Ret (Some (Op.Apply op r))
  | p :: r => _ ← p None ""; plan_parts r op
  end.

(** [static_cast<ProduceResults*>(currentOperator)], whose input gets [f] on top. *)
Definition under_results (f : option Op.Operator -> Op.Operator) (op : option Op.Operator) : outcome (option Op.Operator) :=
  match op with
  | Some (Op.ProduceResults inner item) => Ret (Some (Op.ProduceResults (Some (f inner)) item))
  | _ => Undef
  end.

(** The elements of RETURN, each with the planners of itself and of its own
    elements. *)
Fixpoint plan_return (nodes : list (ASTNode * planner * list planner)) (op : option Op.Operator)
    : outcome (option Op.Operator) :=
  match nodes with
  | [] => Ret op
  | (node, plan, kids) :: r =>
      (if has_type "DISTINCT" node then p ← deref (head kids); p op "distinct"
       else if has_type "ORDERED_BY" node then
         e ← element 0 node; under_results (fun inner => Op.OrderBy inner e) op
       else if has_type "LIMIT" node then
         e ← element 0 node; under_results (fun inner => Op.Limit inner e) op
       else if has_type "SKIP" node then
         e ← element 0 node; under_results (fun inner => Op.Skip inner e) op
       else if has_type "RETURN_BODY" node then plan op ""
       else Ret op) ≫= plan_return r
  end.

(** An aggregation for every avg. *)
Fixpoint plan_functions (functions : list ASTNode) (op : option Op.Operator) : outcome (option Op.Operator) :=
  match functions with
  | [] => Ret op
  | func :: r =>
      name ← function_name func;
      (if String.eqb name "avg" || String.eqb name "AVG" then
         args ← element 1 func; e ← element 0 args; Ret (Some (Op.AggregationFunction op e name))
       else Ret op) ≫= plan_functions r
  end.

Definition plan_return_body (ast : ASTNode) (op : option Op.Operator) (var : string) : outcome (option Op.Operator) :=
  if isAllChildrenAreGivenType "VARIABLE" ast then Ret (Some (Op.ProduceResults op (elements ast)))
  else
    let property := filter (fun n => isAvailable "PROPERTY_LOOKUP" n = true)
                           (getSubTreeListByNodeType "NON_ARITHMETIC_OPERATOR" ast) in
    let temp := match property with [] => None | _ => Some (Op.CacheProperty op property) end in
    temp ← (if isAvailable "FUNCTION_BODY" ast
            then plan_functions (getSubTreeListByNodeType "FUNCTION_BODY" ast) temp else Ret temp);
    let below := match temp with Some _ => temp | None => op end in
    let top := if String.eqb var "distinct" then Op.Distinct below (elements ast)
               else Op.Projection below (elements ast) in
    Ret (Some (Op.ProduceResults (Some top) (elements ast))).

Definition value_of_element (i : nat) (a : ASTNode) : outcome string := e ← element i a; Ret (value e).

(** [ast->elements[i]->elements[0]->value] *)
Definition label_of_element (i : nat) (a : ASTNode) : outcome string :=
  e ← element i a; n ← element 0 e; Ret (value n).

Definition filter_one (op : option Op.Operator) (var : string) (case : ASTNode) : outcome (option Op.Operator) :=
  Ret (Some (Op.Filter op [(var, case)])).

(** [currentOperator] if there is one. *)
Definition or_scan (op : option Op.Operator) (scan : outcome Op.Operator) : outcome (option Op.Operator) :=
  match op with Some _ => Ret op | None => s ← scan; Ret (Some s) end.

Definition plan_node (ast : ASTNode) (kids : list planner) (op : option Op.Operator) : outcome (option Op.Operator) :=
  let has t := isAvailable t ast in
  let kid i := p ← deref (kids !! i); p op "" in
  let by_label i var := (l ← label_of_element i ast; Ret (Op.NodeScanByLabel l var)) in
  if (length (elements ast) =? 0)%nat then Ret (Some (Op.AllNodeScan "var_0"))
  else if has "PROPERTIES_MAP" then
    if has "NODE_LABEL" && has "VARIABLE" then
      v ← value_of_element 0 ast;
      op ← or_scan op (by_label 1%nat v); case ← element 2 ast; filter_one op v case
    else if negb (has "NODE_LABEL") && negb (has "NODE_LABELS") && has "VARIABLE" then
      v ← value_of_element 0 ast;
      op ← or_scan op (Ret (Op.AllNodeScan v)); case ← element 1 ast; filter_one op v case
    else if has "NODE_LABEL" && negb (has "VARIABLE") then
      op ← or_scan op (by_label 0%nat "var_0"); case ← element 1 ast; filter_one op "node_0" case
    else if has "NODE_LABELS" && has "VARIABLE" then
      op ← (match op with Some _ => Ret op | None => kid 1%nat end);
      v ← value_of_element 0 ast; case ← element 2 ast; filter_one op v case
    else if has "NODE_LABELS" && negb (has "VARIABLE") then
      op ← kid 0%nat; case ← element 1 ast; filter_one op "node_0" case
    else Ret op
  else if negb (has "NODE_LABEL") && negb (has "NODE_LABELS") && has "VARIABLE" then
    or_scan op (v ← value_of_element 0 ast; Ret (Op.AllNodeScan v))
  else
    labelled ← (if has "VARIABLE" then e ← element 1 ast; Ret (has_type "NODE_LABEL" e) else Ret false);
    bare ← (if has "VARIABLE" then Ret false else e ← element 0 ast; Ret (has_type "NODE_LABEL" e));
    if labelled : bool then or_scan op (v ← value_of_element 0 ast; by_label 1%nat v)
    else if bare : bool then or_scan op (by_label 0%nat "var_0")
    else if has "NODE_LABELS" && has "VARIABLE" then kid 1%nat
    else if has "NODE_LABELS" && negb (has "VARIABLE") then kid 0%nat
    else Ret op.

(** Several labels: the variable of a case is its label. *)
Definition plan_labels (ast : ASTNode) (op : option Op.Operator) (var : string) : outcome (option Op.Operator) :=
  labels ← traverse (value_of_element 0) (elements ast);
  match op with
  | Some _ => Ret (Some (Op.Filter op (zip labels (elements ast))))
  | None => Ret (Some (Op.MultipleNodeScanByLabel labels (if String.eqb var "" then "var_0" else var)))
  end.

(** The patterns of a MATCH, separated by commas. *)
Fixpoint plan_products (plans : list planner) (op left_ : option Op.Operator) : outcome (option Op.Operator) :=
  match plans with
  | [] => Ret left_
  | p :: r => right_ ← p op ""; plan_products r op (Some (Op.CartesianProduct left_ right_))
  end.

(** Every other type of node returns [op]. *)
Fixpoint createExecutionPlan (ast : ASTNode) (op : option Op.Operator) (var : string) : outcome (option Op.Operator) :=
  let 'Node type _ els := ast in
  let kids := List.map createExecutionPlan els in
  if String.eqb type "SINGLE_QUERY" then plan_each kids op
  else if String.eqb type "MULTI_PART_QUERY" then
    match kids with
    | [] => Undef
    | p :: r => op ← p op ""; plan_parts r op
    end
  else if String.eqb type "MATCH" then op ← match_seek ast op; plan_each kids op
  else if String.eqb type "CREATE" then Ret (Some (Op.Create op ast))
  else if String.eqb type "WITH" then p ← deref (head kids); p op ""
  else if String.eqb type "RETURN" then
    plan_return (List.map (fun node => let 'Node _ _ els' := node in
                             (node, createExecutionPlan node, List.map createExecutionPlan els')) els) op
  else if String.eqb type "RETURN_BODY" then plan_return_body ast op var
  else if String.eqb type "WHERE" then Ret (Some (Op.Filter op [("null", ast)]))
  else if String.eqb type "PATTERN" then
    match kids with
    | [] => Undef
    | p :: r => left_ ← p op ""; plan_products r op left_
    end
  else if String.eqb type "PATTERN_ELEMENTS" then p ← pathPatternHandler ast op; Ret (Some p)
  else if String.eqb type "NODE_PATTERN" then plan_node ast kids op
  else if String.eqb type "NODE_LABELS" then plan_labels ast op var
  else if String.eqb type "NODE_LABEL" then
    l ← label_of_element 0 ast; Ret (Some (Op.NodeScanByLabel l (if String.eqb var "" then "var_0" else var)))
  else Ret op.
