(* ===== verification/PlannerTheory.v ===== *)
(** * PlannerTheory: the plan of a path covers the path

    A path pattern with named nodes has a list of edges; so has a plan.  The
    plan of [pathPatternHandler] has the edges of the pattern, each once and
    in one of its two orientations, and every expansion starts at a variable
    that the operators below it have bound. *)
From Stdlib Require Import ZArith Ascii String Lia.
From stdpp Require Import base tactics numbers list strings sets.
From S2P Require Import Prelude Json CypherPlan CypherPlanner.

(** ** Edges *)

Record edge := mkEdge {
  e_source : string;
  e_dest : string;
  e_rel : string;
  e_type : string;
  e_direction : string
}.

Definition flip_direction (d : string) : string :=
  if String.eqb d "left" then "right" else if String.eqb d "right" then "left" else d.

(** The same edge read from its other end. *)
Definition flip_edge (e : edge) : edge :=
  mkEdge (e_dest e) (e_source e) (e_rel e) (e_type e) (flip_direction (e_direction e)).

Definition same_edge (a b : edge) : Prop := a = b \/ a = flip_edge b.

(** A node with a variable, and with a first label if it has labels. *)
Definition node_name (n : ASTNode) : outcome string :=
  let d := getNodeDetails n in
  _ ← type_name d;
  if first0 d then x ← deref (second0 d); Ret (value x) else Undef.

(** The edges of a pattern after the node named [before]. *)
Fixpoint path_edges (i : nat) (before : string) (l : list ASTNode) : outcome (list edge) :=
  match l with
  | [] => Ret []
  | e :: r =>
      d ← chain_rel e; n ← chain_node e; arrow ← chain_arrow e;
      after ← node_name n; relVar ← variable_name d (edge_var i); t ← type_name d;
      rest ← path_edges (S i) after r;
      Ret (mkEdge before after relVar t (arrow_direction false arrow) :: rest)
  end.

(** The edges of a plan, the last one first. *)
Fixpoint plan_edges (op : Op.Operator) : list edge :=
  match op with
  | Op.Filter (Some o) _ => plan_edges o
  | Op.ExpandAll (Some o) s d r t dir => mkEdge s d r t dir :: plan_edges o
  | Op.UndirectedRelationshipTypeScan t r s d => [mkEdge s d r t ""]
  | Op.DirectedRelationshipTypeScan dir t r s d => [mkEdge s d r t dir]
  | Op.UndirectedAllRelationshipScan s d r => [mkEdge s d r "null" ""]
  | Op.DirectedAllRelationshipScan dir s d r => [mkEdge s d r "null" dir]
  | _ => []
  end.

(** The node variables a plan binds. *)
Fixpoint bound_vars (op : Op.Operator) : list string :=
  match op with
  | Op.Filter (Some o) _ => bound_vars o
  | Op.ExpandAll (Some o) _ d _ _ _ => d :: bound_vars o
  | Op.UndirectedRelationshipTypeScan _ _ s d => [s; d]
  | Op.DirectedRelationshipTypeScan _ _ _ s d => [s; d]
  | Op.UndirectedAllRelationshipScan s d _ => [s; d]
  | Op.DirectedAllRelationshipScan _ s d _ => [s; d]
  | Op.NodeScanByLabel _ v | Op.NodeByIdSeek _ v | Op.AllNodeScan v => [v]
  | _ => []
  end.

Fixpoint expansions_bound (op : Op.Operator) : Prop :=
  match op with
  | Op.Filter (Some o) _ => expansions_bound o
  | Op.ExpandAll (Some o) s _ _ _ _ => s ∈ bound_vars o /\ expansions_bound o
  | _ => True
  end.

(** What the conditions of a plan are about. *)
Fixpoint plan_cases (op : Op.Operator) : list (string * ASTNode) :=
  match op with
  | Op.Filter (Some o) cases => cases ++ plan_cases o
  | Op.ExpandAll (Some o) _ _ _ _ _ => plan_cases o
  | _ => []
  end.

Lemma filtered_edges cases op : plan_edges (filtered cases op) = plan_edges op.
Proof. by destruct cases. Qed.
Lemma filtered_bound cases op : bound_vars (filtered cases op) = bound_vars op.
Proof. by destruct cases. Qed.
Lemma filtered_expansions cases op : expansions_bound (filtered cases op) <-> expansions_bound op.
Proof. by destruct cases. Qed.

Lemma arrow_direction_flip arrow : arrow_direction true arrow = flip_direction (arrow_direction false arrow).
Proof. unfold arrow_direction. destruct (undirected arrow); [done|]. by destruct (has_type _ _). Qed.

Section path.
Context (startNode : ASTNode) (patternElements : list ASTNode).
Context (v0 : string) (es : list edge).
Hypothesis Hstart : node_name startNode = Ret v0.
Hypothesis Hedges : path_edges 0 v0 patternElements = Ret es.

Notation n := (length es).

(** What the path knows of its [i]-th relationship. *)
Record link_ok (i : nat) (ed : edge) (e before after arrow : ASTNode) (d : details) : Prop := {
  lk_chain : patternElements !! i = Some e;
  lk_rel : chain_rel e = Ret d;
  lk_after : chain_node e = Ret after;
  lk_arrow : chain_arrow e = Ret arrow;
  lk_before : node_before startNode patternElements i = Ret before;
  lk_source : node_name before = Ret (e_source ed);
  lk_dest : node_name after = Ret (e_dest ed);
  lk_var : variable_name d (edge_var i) = Ret (e_rel ed);
  lk_type : type_name d = Ret (e_type ed);
  lk_dir : e_direction ed = arrow_direction false arrow
}.

Lemma path_edges_lookup l k before es' i ed :
  path_edges k before l = Ret es' -> es' !! i = Some ed ->
  exists e d arrow after, l !! i = Some e /\ chain_rel e = Ret d /\ chain_node e = Ret after /\
    chain_arrow e = Ret arrow /\ node_name after = Ret (e_dest ed) /\
    variable_name d (edge_var (k + i)) = Ret (e_rel ed) /\ type_name d = Ret (e_type ed) /\
    e_direction ed = arrow_direction false arrow /\
    match i with O => e_source ed = before | S j => exists ed', es' !! j = Some ed' /\ e_source ed = e_dest ed' end.
Proof.
  revert k before es' i. induction l as [|e l IH]; intros k before es' i; [by intros [= <-]|].
  cbn. intros H. apply outcome_bind_Ret_inv in H as (d & Hd & H). apply outcome_bind_Ret_inv in H as (nd & Hn & H).
  apply outcome_bind_Ret_inv in H as (arrow & Ha & H). apply outcome_bind_Ret_inv in H as (after & Haf & H).
  apply outcome_bind_Ret_inv in H as (rv & Hrv & H). apply outcome_bind_Ret_inv in H as (t & Ht & H).
  apply outcome_bind_Ret_inv in H as (rest & Hrest & [= <-]). destruct i as [|i]; cbn.
  - intros [= <-]. exists e, d, arrow, nd. rewrite Nat.add_0_r. by split_and!.
  - intros Hi. destruct (IH _ _ _ _ Hrest Hi) as (e' & d' & arrow' & after' & Hl & ? & ? & ? & ? & Hv & ? & ? & Hs).
    exists e', d', arrow', after'. replace (k + S i)%nat with (S k + i)%nat by lia. split_and!; try done.
    destruct i as [|i]; cbn; [|done]. by eexists.
Qed.

Lemma path_edges_length l k before es' : path_edges k before l = Ret es' -> length es' = length l.
Proof.
  revert k before es'. induction l as [|e l IH]; intros k before es'; [by intros [= <-]|]. cbn. intros H.
  repeat (apply outcome_bind_Ret_inv in H as (? & ? & H)). injection H as <-. cbn. f_equal. by eapply IH.
Qed.

Lemma link_at i ed : es !! i = Some ed -> exists e before after arrow d, link_ok i ed e before after arrow d.
Proof.
  intros Hi. destruct (path_edges_lookup _ _ _ _ _ _ Hedges Hi) as (e & d & arrow & after & Hl & ? & ? & ? & ? & ? & ? & ? & Hs).
  destruct i as [|i].
  - exists e, startNode, after, arrow, d. split; try done. by rewrite Hs.
  - destruct Hs as (ed' & Hi' & Hs).
    destruct (path_edges_lookup _ _ _ _ _ _ Hedges Hi') as (e' & d' & arrow' & after' & Hl' & ? & Hn' & ? & Haf' & _).
    exists e, after', after, arrow, d. split; try done; [|by rewrite Hs].
    cbn. unfold chain. by rewrite Hl'.
Qed.

Lemma consecutive i a b : es !! i = Some a -> es !! S i = Some b -> e_source b = e_dest a.
Proof.
  intros Ha Hb. destruct (path_edges_lookup _ _ _ _ _ _ Hedges Hb) as (? & ? & ? & ? & _ & _ & _ & _ & _ & _ & _ & _ & ed' & H & ->).
  congruence.
Qed.

Lemma node_name_variable nd s otherwise :
  node_name nd = Ret s -> variable_name (getNodeDetails nd) otherwise = Ret s /\
  first0 (getNodeDetails nd) = true /\ exists t, type_name (getNodeDetails nd) = Ret t.
Proof.
  unfold node_name, variable_name. intros H. apply outcome_bind_Ret_inv in H as (t & Ht & H).
  destruct (first0 _); [|done]. split_and!; [done|done|by exists t].
Qed.

(** ** One expansion *)

Definition goes (toLeft : bool) (ed : edge) : edge := if toLeft then flip_edge ed else ed.

Lemma expand_step_ok toLeft p i w ed :
  es !! i = Some ed -> fromVar w = e_source (goes toLeft ed) ->
  (keeps_arrow p = false -> e_direction ed = "") ->
  exists w', expand_step startNode patternElements toLeft p i w = Ret w' /\
    fromVar w' = e_dest (goes toLeft ed) /\
    plan_edges (inputOperator w') = goes toLeft ed :: plan_edges (inputOperator w) /\
    bound_vars (inputOperator w') = e_dest (goes toLeft ed) :: bound_vars (inputOperator w) /\
    (expansions_bound (inputOperator w') <->
     e_source (goes toLeft ed) ∈ bound_vars (inputOperator w) /\ expansions_bound (inputOperator w)).
Proof.
  intros Hi Hw Hk. destruct (link_at _ _ Hi) as (e & before & after & arrow & d & [Hc Hr Ha Har Hb Hs Hd Hv Ht Hdir]).
  unfold expand_step, chain. rewrite Hc. cbn [deref mbind outcome_bind]. rewrite Hr. cbn [mbind outcome_bind].
  assert ((if toLeft then node_before startNode patternElements i else node_after patternElements i) =
          Ret (if toLeft then before else after)) as ->.
  { destruct toLeft; [done|]. unfold node_after, chain. by rewrite Hc. }
  cbn [mbind outcome_bind].
  assert (node_name (if toLeft then before else after) = Ret (e_dest (goes toLeft ed))) as Hname by by destruct toLeft.
  destruct (node_name_variable _ _ (node_var i) Hname) as (-> & _). cbn [mbind outcome_bind].
  rewrite Hv. cbn [mbind outcome_bind]. rewrite Ht. cbn [mbind outcome_bind]. rewrite Har. cbn [mbind outcome_bind].
  eexists. split; [done|]. cbn [inputOperator fromVar].
  rewrite filtered_edges, filtered_bound, filtered_expansions. cbn [plan_edges bound_vars expansions_bound].
  rewrite Hw. split_and!; try done. f_equal.
  assert ((if keeps_arrow p then arrow_direction toLeft arrow else "") = e_direction (goes toLeft ed)) as ->.
  { destruct (keeps_arrow p); destruct toLeft; cbn [goes flip_edge e_direction]; rewrite ?Hdir, ?arrow_direction_flip; try done.
    - by rewrite <- Hdir, Hk.
    - by rewrite <- Hdir, Hk. }
  destruct toLeft; [done|by destruct ed].
Qed.

(** ** The loops *)

(** What a loop has added. *)
Record grown (w w' : walk) (l : list edge) : Prop := {
  g_edges : plan_edges (inputOperator w') = l ++ plan_edges (inputOperator w);
  g_bound : forall x, x ∈ bound_vars (inputOperator w) -> x ∈ bound_vars (inputOperator w');
  g_expansions : fromVar w ∈ bound_vars (inputOperator w) -> expansions_bound (inputOperator w) ->
                 expansions_bound (inputOperator w')
}.

Lemma grown_refl w : grown w w [].
Proof. by split. Qed.

Lemma grown_step w w1 w2 ed l toLeft :
  fromVar w = e_source (goes toLeft ed) -> fromVar w1 = e_dest (goes toLeft ed) ->
  plan_edges (inputOperator w1) = goes toLeft ed :: plan_edges (inputOperator w) ->
  bound_vars (inputOperator w1) = e_dest (goes toLeft ed) :: bound_vars (inputOperator w) ->
  (expansions_bound (inputOperator w1) <->
     e_source (goes toLeft ed) ∈ bound_vars (inputOperator w) /\ expansions_bound (inputOperator w)) ->
  grown w1 w2 l -> grown w w2 (l ++ [goes toLeft ed]).
Proof.
  intros Hw Hw1 He Hb Hx [He2 Hb2 Hx2]. split.
  - by rewrite He2, He, <- app_assoc.
  - intros x H. apply Hb2. rewrite Hb. by right.
  - intros Hin Hexp. apply Hx2; [rewrite Hw1, Hb; left|]. apply Hx. by rewrite <- Hw.
Qed.

Lemma expand_right_ok p from w :
  (forall ed, es !! from = Some ed -> fromVar w = e_source ed) ->
  (keeps_arrow p = false -> forall ed, ed ∈ es -> e_direction ed = "") ->
  exists w', expand_right startNode patternElements p from w = Ret w' /\ grown w w' (rev (drop from es)).
Proof.
  intros Hw Hk. unfold expand_right. rewrite <- (path_edges_length _ _ _ _ Hedges).
  remember (n - from)%nat as m eqn:Em. revert from w Hw Em. induction m as [|m IH]; intros from w Hw Em; cbn [seq expand_all].
  - exists w. split; [done|]. rewrite drop_ge by lia. apply grown_refl.
  - destruct (lookup_lt_is_Some_2 es from) as [ed Hed]; [lia|].
    destruct (expand_step_ok false p from w ed) as (w1 & H1 & Hf & He & Hb & Hx); [done|by apply Hw| |].
    { intros H. by eapply Hk, list_elem_of_lookup_2. }
    rewrite H1. cbn [mbind outcome_bind]. destruct (IH (S from) w1) as (w2 & H2 & Hg); [|lia|].
    { intros ed' Hed'. rewrite Hf. symmetry. by eapply consecutive. }
    exists w2. split; [done|]. rewrite (drop_S es ed from) by done. cbn [rev].
    eapply (grown_step w w1 w2 ed _ false); try done. by apply Hw.
Qed.

Lemma expand_left_ok p to w :
  (to <= n)%nat -> (forall i ed, to = S i -> es !! i = Some ed -> fromVar w = e_dest ed) ->
  (keeps_arrow p = false -> forall ed, ed ∈ es -> e_direction ed = "") ->
  exists w', expand_left startNode patternElements p to w = Ret w' /\ grown w w' (flip_edge <$> take to es).
Proof.
  intros Hle Hw Hk. unfold expand_left. revert w Hle Hw. induction to as [|to IH]; intros w Hle Hw.
  - exists w. split; [done|]. apply grown_refl.
  - rewrite seq_S, rev_app_distr. cbn [rev app expand_all Nat.add].
    destruct (lookup_lt_is_Some_2 es to) as [ed Hed]; [lia|].
    destruct (expand_step_ok true p to w ed) as (w1 & H1 & Hf & He & Hb & Hx); [done|by eapply Hw| |].
    { intros H. by eapply Hk, list_elem_of_lookup_2. }
    rewrite H1. cbn [mbind outcome_bind]. destruct (IH w1) as (w2 & H2 & Hg); [lia| |].
    { intros i ed' -> Hed'. rewrite Hf. cbn. by eapply consecutive. }
    exists w2. split; [done|]. rewrite (take_S_r es to ed) by done. rewrite fmap_app. cbn.
    eapply (grown_step w w1 w2 ed _ true); try done. by eapply Hw.
Qed.

(** ** Both sides *)

(** The plan has the edges of the path. *)
Definition covers (op : Op.Operator) : Prop :=
  (exists l, plan_edges op ≡ₚ l /\ Forall2 same_edge l es) /\ expansions_bound op.

Lemma same_sides l r :
  Forall2 same_edge ((flip_edge <$> l) ++ r) (l ++ r).
Proof.
  apply Forall2_app.
  - induction l as [|x l IH]; cbn; [constructor|]. constructor; [by right|done].
  - apply Forall2_same_length_lookup_2; [done|]. intros i x y Hx Hy. left. congruence.
Qed.

Lemma covers_sides op i scan :
  plan_edges op ≡ₚ (flip_edge <$> take i es) ++ scan ++ drop (i + length scan) es ->
  scan = take (length scan) (drop i es) -> expansions_bound op -> covers op.
Proof.
  intros Hp Hs Hx. split; [|done]. eexists. split; [exact Hp|].
  assert (es = take i es ++ scan ++ drop (i + length scan) es) as E.
  { rewrite Hs at 1. rewrite <- drop_drop, take_drop. by rewrite take_drop. }
  rewrite E at 3. apply same_sides.
Qed.

(** ** The choice of the scan *)

Lemma elem_es i : (i < n)%nat -> exists ed e before after arrow d,
  es !! i = Some ed /\ link_ok i ed e before after arrow d.
Proof.
  intros H. destruct (lookup_lt_is_Some_2 es i) as [ed Hed]; [done|].
  destruct (link_at _ _ Hed) as (e & b & a & ar & d & Hl). by exists ed, e, b, a, ar, d.
Qed.

(** What the relationship [i] is, as the survey sees it. *)
Definition typed (i : nat) : Prop := exists e d, chain patternElements i = Ret e /\ chain_rel e = Ret d /\ first1 d = true.
Definition labelled (i : nat) : Prop :=
  exists nd, node_after patternElements i = Ret nd /\ first1 (getNodeDetails nd) = true.

Lemma survey_path_ok idx s :
  (forall i, i ∈ idx -> (i < n)%nat) -> typeIndex s = None ->
  exists s', survey_path patternElements idx s = Ret s' /\
    match typeIndex s' with
    | Some i => i ∈ idx /\ typed i
    | None =>
        (forall i ed, i ∈ idx -> es !! i = Some ed -> e_type ed = "null" /\ ~ typed i) /\
        (labelIndex s' = None -> labelIndex s = None /\ forall i, i ∈ idx -> ~ labelled i) /\
        (forall i, directionIndex s' = Some i -> directionIndex s = Some i \/
           i ∈ idx /\ forall ed, es !! i = Some ed -> e_direction ed <> "") /\
        (directionIndex s' = None -> forall i ed, i ∈ idx -> es !! i = Some ed -> e_direction ed = "")
    end /\
    (forall i, labelIndex s' = Some i -> labelIndex s = Some i \/ i ∈ idx /\ labelled i) /\
    (directionIndex s' = None -> directionIndex s = None).
Proof.
  revert s. induction idx as [|i idx IH]; intros s Hidx Hs; cbn [survey_path].
  { exists s. rewrite Hs. split_and!; [done|set_solver|by split; [|set_solver]|by left|set_solver|by left|done]. }
  destruct (elem_es i) as (ed & e & b & a & ar & d & Hed & [Hc Hr Ha Har Hb Hso Hd Hv Ht Hdir]); [apply Hidx; left|].
  assert (chain patternElements i = Ret e) as Hch by (unfold chain; by rewrite Hc).
  rewrite Hch. cbn [mbind outcome_bind]. rewrite Hr. cbn [mbind outcome_bind]. rewrite Ha. cbn [mbind outcome_bind].
  destruct (first1 d) eqn:E1.
  { eexists. split; [done|]. cbn. split_and!; [left|by exists e, d|by left|done]. }
  rewrite Har. cbn [mbind outcome_bind].
  match goal with |- context [survey_path _ _ ?x] => set (s1 := x) end.
  assert (e_type ed = "null") as Hnull. { unfold type_name in Ht. rewrite E1 in Ht. by injection Ht. }
  destruct (IH s1) as (s' & Hs' & Hty & Hla & Hdi); [set_solver|done|].
  exists s'. split; [done|]. assert (directionIndex s1 = if undirected ar then directionIndex s else Some i) as E2 by done.
  assert (undirected ar = true -> e_direction ed = "") as Hu.
  { intros H. rewrite Hdir. unfold arrow_direction. by rewrite H. }
  assert (undirected ar = false -> e_direction ed <> "") as Hnu.
  { intros H. rewrite Hdir. unfold arrow_direction. rewrite H. by destruct (xorb _ _). }
  split_and!.
  - destruct (typeIndex s') as [j|]; [destruct Hty; split; [by right|done]|].
    destruct Hty as (H1 & H0 & H2 & H3). split_and!.
    + intros j ed' Hj Hed'. apply elem_of_cons in Hj as [->|Hj]; [|by eapply H1]. split; [congruence|].
      intros (e' & d' & ? & ? & ?). congruence.
    + intros Hnone. destruct (H0 Hnone) as [Hl0 Hl]. cbn in Hl0. destruct (labelIndex s); [done|]. split; [done|].
      intros j Hj. apply elem_of_cons in Hj as [->|Hj]; [|by apply Hl]. intros (nd & Hnd & Hf).
      unfold node_after in Hnd. rewrite Hch in Hnd. cbn in Hnd. rewrite Ha in Hnd. injection Hnd as <-. by rewrite Hf in Hl0.
    + intros j Hj. destruct (H2 j Hj) as [H|[H H']]; [|right; split; [by right|done]].
      rewrite E2 in H. destruct (undirected ar); [by left|]. injection H as <-. right. split; [left|].
      intros ed' Hed'. replace ed' with ed by congruence. auto.
    + intros Hnone j ed' Hj Hed'. apply elem_of_cons in Hj as [->|Hj]; [|by eapply H3].
      replace ed' with ed by congruence. specialize (Hdi Hnone). rewrite E2 in Hdi.
      destruct (undirected ar); [auto|done].
  - intros j Hj. destruct (Hla j Hj) as [H|[H H']]; [|right; split; [by right|done]].
    cbn in H. destruct (labelIndex s); [by left|]. destruct (first1 (getNodeDetails a)) eqn:E3; [|done].
    injection H as <-. right. split; [left|]. exists a. split; [|done]. unfold node_after. by rewrite Hch.
  - intros H. specialize (Hdi H). rewrite E2 in Hdi. by destruct (undirected ar).
Qed.

(** ** The branches *)

Lemma scan_vars_ok i ed e before after arrow d :
  link_ok i ed e before after arrow d ->
  scan_vars startNode patternElements i =
    Ret (d, getNodeDetails before, getNodeDetails after, (e_rel ed, e_source ed, e_dest ed)).
Proof.
  intros [Hc Hr Ha Har Hb Hso Hd Hv Ht Hdir]. unfold scan_vars, node_after, chain. rewrite Hc. cbn [deref mbind outcome_bind].
  rewrite Hr, Hb, Ha. cbn [mbind outcome_bind]. rewrite Hv. cbn [mbind outcome_bind].
  destruct (node_name_variable _ _ (node_var i) Hso) as [-> _].
  by destruct (node_name_variable _ _ (node_var (i + 1)) Hd) as [-> _].
Qed.

(** Left and right of a scan of the relationship [i], in either order. *)
Lemma walk_both p i ed op leftFirst :
  es !! i = Some ed -> plan_edges op = [ed] -> bound_vars op = [e_source ed; e_dest ed] -> expansions_bound op ->
  (keeps_arrow p = false -> forall ed, ed ∈ es -> e_direction ed = "") ->
  exists op', (if leftFirst : bool then
      w ← expand_left startNode patternElements p i (mkWalk op (e_source ed) (e_rel ed) "");
      w ← expand_right startNode patternElements p (i + 1) (mkWalk (inputOperator w) (e_dest ed) (e_rel ed) "");
      Ret (inputOperator w)
    else
      w ← expand_right startNode patternElements p (i + 1) (mkWalk op (e_dest ed) (e_rel ed) "");
      w ← expand_left startNode patternElements p i (mkWalk (inputOperator w) (e_source ed) (e_rel ed) "");
      Ret (inputOperator w)) = Ret op' /\ covers op'.
Proof.
  intros Hi He Hb Hx Hk.
  assert (forall op, exists w', expand_left startNode patternElements p i (mkWalk op (e_source ed) (e_rel ed) "") = Ret w' /\
    grown (mkWalk op (e_source ed) (e_rel ed) "") w' (flip_edge <$> take i es)) as HL.
  { intros op0. apply expand_left_ok; [apply lookup_lt_Some in Hi; lia| |done].
    intros j ed' -> Hj. by eapply consecutive. }
  assert (forall op, exists w', expand_right startNode patternElements p (i + 1) (mkWalk op (e_dest ed) (e_rel ed) "") = Ret w' /\
    grown (mkWalk op (e_dest ed) (e_rel ed) "") w' (rev (drop (i + 1) es))) as HR.
  { intros op0. apply expand_right_ok; [|done]. intros ed'. rewrite Nat.add_1_r. intros Hj. cbn. symmetry. by eapply consecutive. }
  assert (forall op', plan_edges op' ≡ₚ (flip_edge <$> take i es) ++ ed :: rev (drop (i + 1) es) ->
    expansions_bound op' -> covers op') as Hdone.
  { intros op' Hp Hx'. apply (covers_sides op' i [ed]); [|by rewrite (drop_S es ed i)|done].
    rewrite Hp. apply Permutation_app_head. cbn. by rewrite <- Permutation_rev. }
  destruct leftFirst.
  - destruct (HL op) as (w1 & -> & [E1 B1 X1]). cbn [mbind outcome_bind].
    destruct (HR (inputOperator w1)) as (w2 & -> & [E2 B2 X2]). cbn [mbind outcome_bind]. eexists. split; [done|].
    cbn in *. apply Hdone.
    + rewrite E2, E1, He. rewrite (Permutation_app_comm (rev _)). by rewrite <- app_assoc.
    + apply X2; [apply B1; rewrite Hb; set_solver|]. apply X1; [rewrite Hb; set_solver|done].
  - destruct (HR op) as (w1 & -> & [E1 B1 X1]). cbn [mbind outcome_bind].
    destruct (HL (inputOperator w1)) as (w2 & -> & [E2 B2 X2]). cbn [mbind outcome_bind]. eexists. split; [done|].
    cbn in *. apply Hdone.
    + rewrite E2, E1, He. apply Permutation_app_head. by rewrite (Permutation_app_comm (rev _)).
    + apply X2; [apply B1; rewrite Hb; set_solver|]. apply X1; [rewrite Hb; set_solver|done].
Qed.

Lemma path_from_type_ok i : (i < n)%nat -> typed i ->
  exists op, path_from_type startNode patternElements i = Ret op /\ covers op.
Proof.
  intros Hi (e0 & d0 & Hc0 & Hr0 & Hf). destruct (elem_es i Hi) as (ed & e & b & a & ar & d & Hed & Hl).
  unfold path_from_type. rewrite (scan_vars_ok _ _ _ _ _ _ _ Hl). destruct Hl as [Hc Hr Ha Har Hb Hso Hd Hv Ht Hdir].
  cbn [mbind outcome_bind]. unfold node_after. rewrite Hc0. unfold chain in Hc0. rewrite Hc in Hc0. cbn in Hc0. injection Hc0 as <-.
  rewrite Hr in Hr0. injection Hr0 as <-. cbn [mbind outcome_bind]. rewrite Har. cbn [mbind outcome_bind].
  assert (scanned_type d = Ret (e_type ed)) as -> by (unfold type_name in Ht; by rewrite Hf in Ht).
  cbn [mbind outcome_bind]. rewrite Hb, Ha. cbn [mbind outcome_bind].
  set (op := filtered _ _).
  assert (plan_edges op = [ed]) as He.
  { unfold op. rewrite filtered_edges. unfold arrow_direction in *. destruct (undirected ar); cbn in Hdir |- *; rewrite <- Hdir; by destruct ed. }
  assert (bound_vars op = [e_source ed; e_dest ed]) as Hbo.
  { unfold op. rewrite filtered_bound. by destruct (undirected ar). }
  assert (expansions_bound op) as Hx.
  { unfold op. rewrite filtered_expansions. by destruct (undirected ar). }
  destruct (walk_both type_policy i ed op (negb (length (elements b) <? length (elements a))%nat) Hed He Hbo Hx)
    as (op' & Hrun & Hcov); [done|].
  exists op'. split; [|done]. rewrite <- Hrun. by destruct (_ <? _)%nat.
Qed.

Lemma path_from_label_ok i : (i < n)%nat -> labelled i ->
  exists op, path_from_label startNode patternElements (Some i) = Ret op /\ covers op.
Proof.
  intros Hi (nd & Hnd & Hf). destruct (elem_es i Hi) as (ed & e & b & a & ar & d & Hed & [Hc Hr Ha Har Hb Hso Hd Hv Ht Hdir]).
  assert (nd = a) as ->. { unfold node_after, chain in Hnd. rewrite Hc in Hnd. cbn in Hnd. congruence. }
  unfold path_from_label. cbn [deref mbind outcome_bind]. rewrite Hnd. cbn [mbind outcome_bind].
  destruct (node_name_variable _ _ "" Hd) as (Hvar & Hf0 & t & Htn). rewrite Hf0, Hvar. cbn [mbind outcome_bind].
  unfold type_name in Htn. rewrite Hf in Htn. apply outcome_bind_Ret_inv in Htn as (l & -> & Htn). cbn [mbind outcome_bind].
  apply outcome_bind_Ret_inv in Htn as (le & -> & _). cbn [mbind outcome_bind]. set (op := filtered _ _).
  assert (plan_edges op = [] /\ bound_vars op = [e_dest ed] /\ expansions_bound op) as (He & Hbo & Hx).
  { unfold op. by rewrite filtered_edges, filtered_bound, filtered_expansions. }
  destruct (expand_right_ok (label_policy i) (i + 1) (mkWalk op (e_dest ed) "" "")) as (w1 & -> & [E1 B1 X1]).
  { intros ed'. rewrite Nat.add_1_r. intros Hj. cbn. symmetry. by eapply consecutive. }
  { done. }
  cbn [mbind outcome_bind].
  assert (exists prev, (if (i <? length patternElements - 1)%nat
          then e ← chain patternElements (i + 1); d ← chain_rel e; variable_name d (edge_var (i + 1))
          else Ret (prevRel w1)) = Ret prev) as [prev ->].
  { destruct (Nat.ltb_spec i (length patternElements - 1)) as [Hlt|]; [|by eexists].
    rewrite <- (path_edges_length _ _ _ _ Hedges) in Hlt.
    destruct (elem_es (i + 1)) as (ed2 & e2 & b2 & a2 & ar2 & d2 & Hed2 & [Hc2 Hr2 _ _ _ _ _ Hv2 _ _]); [lia|].
    unfold chain. rewrite Hc2. cbn [deref mbind outcome_bind]. rewrite Hr2. cbn [mbind outcome_bind]. by eexists. }
  cbn [mbind outcome_bind].
  destruct (expand_left_ok type_policy (i + 1) (mkWalk (inputOperator w1) (e_dest ed) prev "")) as (w2 & -> & [E2 B2 X2]).
  { lia. }
  { intros j ed' Hj Hed'. assert (j = i) as -> by lia. cbn. congruence. }
  { done. }
  cbn [mbind outcome_bind]. eexists. split; [done|]. cbn in *. apply (covers_sides _ (i + 1) []).
  - rewrite E2, E1, He, app_nil_r. cbn. rewrite Nat.add_0_r. by rewrite <- Permutation_rev.
  - done.
  - apply X2; [apply B1; rewrite Hbo; set_solver|]. apply X1; [rewrite Hbo; set_solver|done].
Qed.

Lemma path_from_direction_ok i ed :
  es !! i = Some ed -> e_type ed = "null" -> e_direction ed <> "" ->
  exists op, path_from_direction startNode patternElements i = Ret op /\ covers op.
Proof.
  intros Hed Hnull Hne. destruct (link_at _ _ Hed) as (e & b & a & ar & d & Hl).
  unfold path_from_direction. rewrite (scan_vars_ok _ _ _ _ _ _ _ Hl). destruct Hl as [Hc Hr Ha Har Hb Hso Hd Hv Ht Hdir].
  cbn [mbind outcome_bind]. unfold chain. rewrite Hc. cbn [deref mbind outcome_bind]. rewrite Har. cbn [mbind outcome_bind].
  set (op := Op.DirectedAllRelationshipScan _ _ _ _).
  assert (plan_edges op = [ed]) as He.
  { cbn. unfold arrow_direction in Hdir. destruct (undirected ar); [done|]. cbn in Hdir. rewrite <- Hdir, <- Hnull. by destruct ed. }
  by apply (walk_both direction_policy i ed op true Hed He).
Qed.

Lemma path_undirected_ok :
  es <> [] -> (forall ed, ed ∈ es -> e_type ed = "null" /\ e_direction ed = "") ->
  exists op, path_undirected startNode patternElements = Ret op /\ covers op.
Proof.
  intros Hne Hall. unfold path_undirected. rewrite <- (path_edges_length _ _ _ _ Hedges).
  destruct n as [|k] eqn:E; [by destruct es|]. cbn [mbind outcome_bind].
  destruct (elem_es k) as (ed & e & b & a & ar & d & Hed & Hl); [lia|].
  rewrite (scan_vars_ok _ _ _ _ _ _ _ Hl). cbn [mbind outcome_bind]. set (op := filtered _ _).
  destruct (Hall ed) as [Hnull Hnodir]; [by eapply list_elem_of_lookup_2|].
  assert (plan_edges op = [ed]) as He.
  { unfold op. rewrite filtered_edges. cbn. rewrite <- Hnull, <- Hnodir. by destruct ed. }
  assert (bound_vars op = [e_source ed; e_dest ed] /\ expansions_bound op) as [Hbo Hx].
  { unfold op. by rewrite filtered_bound, filtered_expansions. }
  destruct (walk_both undirected_policy k ed op true Hed He Hbo Hx) as (op' & Hrun & Hcov); [by intros _ ? []%Hall|].
  apply outcome_bind_Ret_inv in Hrun as (w1 & Hw1 & Hrun). rewrite Hw1. cbn [mbind outcome_bind].
  exists op'. split; [|done]. apply outcome_bind_Ret_inv in Hrun as (w2 & Hw2 & <-).
  unfold expand_right in Hw2. rewrite <- (path_edges_length _ _ _ _ Hedges), E, Nat.add_1_r, Nat.sub_diag in Hw2.
  by injection Hw2 as <-.
Qed.

(** The tests of the survey on an element of the chain. *)
Definition rel_typed (e : ASTNode) : bool := match chain_rel e with Ret d => first1 d | _ => false end.
Definition node_labelled (e : ASTNode) : bool :=
  match chain_node e with Ret nd => first1 (getNodeDetails nd) | _ => false end.

Lemma typed_spec : existsb rel_typed patternElements = true <-> exists i, (i < n)%nat /\ typed i.
Proof.
  rewrite existsb_exists. unfold typed, rel_typed, chain. rewrite (path_edges_length _ _ _ _ Hedges). split.
  - intros (e & He & H). apply list_elem_of_In, list_elem_of_lookup_1 in He as [i Hi].
    destruct (chain_rel e) as [d| | | | |] eqn:E; try done. exists i. split; [by eapply lookup_lt_Some|].
    exists e, d. by rewrite Hi.
  - intros (i & Hi & e & d & He & Hd & Hf). destruct (patternElements !! i) as [e'|] eqn:E; [|done]. injection He as ->.
    exists e. split; [apply list_elem_of_In; by eapply list_elem_of_lookup_2|]. by rewrite Hd.
Qed.

Lemma labelled_spec : existsb node_labelled patternElements = true <-> exists i, (i < n)%nat /\ labelled i.
Proof.
  rewrite existsb_exists. unfold labelled, node_labelled, node_after, chain. rewrite (path_edges_length _ _ _ _ Hedges). split.
  - intros (e & He & H). apply list_elem_of_In, list_elem_of_lookup_1 in He as [i Hi].
    destruct (chain_node e) as [d| | | | |] eqn:E; try done. exists i. split; [by eapply lookup_lt_Some|].
    exists d. by rewrite Hi.
  - intros (i & Hi & nd & Hnd & Hf). destruct (patternElements !! i) as [e|] eqn:E; [|done]. cbn in Hnd.
    exists e. split; [apply list_elem_of_In; by eapply list_elem_of_lookup_2|]. by rewrite Hnd.
Qed.

(** Which branch is taken. *)
Lemma path_from_scan_branch :
  es <> [] ->
  if existsb rel_typed patternElements then
    exists i, (i < n)%nat /\ typed i /\ path_from_scan startNode patternElements = path_from_type startNode patternElements i
  else (forall ed, ed ∈ es -> e_type ed = "null") /\
    if existsb node_labelled patternElements then
      exists i, (i < n)%nat /\ labelled i /\
        path_from_scan startNode patternElements = path_from_label startNode patternElements (Some i)
    else if first1 (getNodeDetails startNode) then path_from_scan startNode patternElements = Undef
    else if existsb (fun ed => negb (String.eqb (e_direction ed) "")) es then
      exists i ed, es !! i = Some ed /\ e_direction ed <> "" /\
        path_from_scan startNode patternElements = path_from_direction startNode patternElements i
    else path_from_scan startNode patternElements = path_undirected startNode patternElements.
Proof.
  intros Hne. unfold path_from_scan. rewrite <- (path_edges_length _ _ _ _ Hedges).
  assert (forall i, i ∈ rev (seq 0 n) <-> (i < n)%nat) as Hidx.
  { intros i. rewrite list_elem_of_In, <- in_rev, <- list_elem_of_In, elem_of_seq. lia. }
  destruct (survey_path_ok (rev (seq 0 n)) (mkSurvey None None None)) as (s & -> & Hty & Hla & Hdi); [by intros i ?%Hidx|done|].
  cbn [mbind outcome_bind]. destruct (typeIndex s) as [i|].
  { destruct Hty as [Hi Ht]. apply Hidx in Hi. rewrite (proj2 typed_spec) by eauto. by exists i. }
  destruct Hty as (Hnull & Hnolabel & Hsome & Hnone).
  assert (forall i ed, es !! i = Some ed -> i ∈ rev (seq 0 n)) as Hin by (intros; apply Hidx; by eapply lookup_lt_Some).
  destruct (existsb rel_typed patternElements) eqn:E.
  { apply typed_spec in E as (i & Hi & Ht). destruct (lookup_lt_is_Some_2 es i Hi) as [ed Hed].
    by destruct (Hnull i ed) as [_ []]; eauto. }
  split. { intros ed [i Hi]%list_elem_of_lookup_1. destruct (Hnull i ed) as [? _]; eauto. }
  destruct (labelIndex s) as [i|].
  { destruct (Hla i) as [|[Hi Hl]]; [done|done|]. apply Hidx in Hi. rewrite (proj2 labelled_spec) by eauto.
    rewrite bool_decide_eq_true_2 by done. by exists i. }
  destruct (existsb node_labelled patternElements) eqn:E2.
  { apply labelled_spec in E2 as (i & Hi & Hl). destruct Hnolabel as [_ H]; [done|]. by destruct (H i); [apply Hidx|]. }
  rewrite bool_decide_eq_false_2 by (by intros []). destruct (first1 (getNodeDetails startNode)); [done|]. cbn [orb].
  destruct (existsb _ es) eqn:E3; destruct (directionIndex s) as [i|] eqn:Ei.
  - destruct (Hsome i) as [|[Hi Hd]]; [done|done|]. destruct (lookup_lt_is_Some_2 es i) as [ed Hed]; [by apply Hidx|].
    exists i, ed. by split_and!; [|apply Hd|].
  - exfalso. apply existsb_exists in E3 as (ed & Hed & H). apply list_elem_of_In, list_elem_of_lookup_1 in Hed as [i Hi].
    by rewrite (Hnone eq_refl i ed) in H by eauto.
  - exfalso. destruct (Hsome i) as [|[Hi Hd]]; [done|done|]. destruct (lookup_lt_is_Some_2 es i) as [ed Hed]; [by apply Hidx|].
    assert (existsb (fun ed => negb (String.eqb (e_direction ed) "")) es = true); [|congruence].
    apply existsb_exists. exists ed. split; [by apply list_elem_of_In, list_elem_of_lookup; eexists|].
    apply negb_true_iff, String.eqb_neq. auto.
  - done.
Qed.

(** ** Conditions of a plan *)

(** Two relationships of the pattern must be different. *)
Definition compares_relationships (c : string * ASTNode) : Prop := exists a b, c = ("null", prepareWhereClause a b).

Lemma expand_all_cases toLeft p idx w w' :
  keeps_cases p = false -> expand_all startNode patternElements toLeft p idx w = Ret w' ->
  Forall compares_relationships (plan_cases (inputOperator w)) ->
  Forall compares_relationships (plan_cases (inputOperator w')).
Proof.
  intros Hp. revert w. induction idx as [|i idx IH]; cbn [expand_all]; intros w H; [by injection H as <-|].
  apply outcome_bind_Ret_inv in H as (w1 & H1 & H). intros Hw. apply (IH w1); [done|]. unfold expand_step in H1.
  repeat (apply outcome_bind_Ret_inv in H1 as (? & ? & H1)). injection H1 as <-. rewrite Hp, app_nil_r. cbn.
  destruct (compares p i w); cbn; [|done]. constructor; [by do 2 eexists|done].
Qed.

Lemma path_from_direction_cases i op :
  path_from_direction startNode patternElements i = Ret op -> Forall compares_relationships (plan_cases op).
Proof.
  unfold path_from_direction. intros H.
  apply outcome_bind_Ret_inv in H as ([[[? ?] ?] [[? ?] ?]] & _ & H).
  apply outcome_bind_Ret_inv in H as (? & _ & H). apply outcome_bind_Ret_inv in H as (? & _ & H).
  apply outcome_bind_Ret_inv in H as (w1 & H1 & H). apply outcome_bind_Ret_inv in H as (w2 & H2 & [= <-]).
  eapply expand_all_cases in H2; [done|done|]. cbn. eapply expand_all_cases in H1; [done|done|]. constructor.
Qed.
End path.

(** ** Path patterns *)

(** C11. The plan of a path pattern whose nodes have variables and whose
    relationships are written with brackets and at most one type (without
    brackets, or with several types, the planner reads outside of a vector or
    does not see the types): whichever scan
    the planner starts with - the relationships of a type, the nodes of a
    label, all directed or all relationships - and in whichever order it
    expands to both sides, the plan has every relationship of the pattern
    exactly once, between the same variables, with its type, and with its
    direction as seen from the end the expansion starts at; and every
    expansion starts at a variable that is already bound.  Only with a label
    on the first node and nothing else to start with does the planner read
    outside of the vector of relationships. *)
Theorem path_plan_covers pattern startNode v0 es :
  let chains := getSubTreeListByNodeType "PATTERN_ELEMENT_CHAIN" pattern in
  element 0 pattern = Ret startNode -> node_name startNode = Ret v0 ->
  path_edges 0 v0 chains = Ret es -> es <> [] ->
  if existsb rel_typed chains || existsb node_labelled chains || negb (first1 (getNodeDetails startNode))
  then exists op, pathPatternHandler pattern None = Ret op /\ covers es op
  else pathPatternHandler pattern None = Undef.
Proof.
  intros chains Hel Hs He Hne. unfold pathPatternHandler. rewrite Hel. cbn [mbind outcome_bind]. fold chains.
  pose proof (path_from_scan_branch startNode chains v0 es Hs He Hne) as H.
  destruct (existsb rel_typed chains).
  { cbn [orb]. destruct H as (i & Hi & Ht & ->). by eapply path_from_type_ok. }
  destruct H as [Hnull H]. cbn [orb]. destruct (existsb node_labelled chains).
  { cbn [orb]. destruct H as (i & Hi & Hl & ->). by eapply path_from_label_ok. }
  cbn [orb]. destruct (first1 (getNodeDetails startNode)); [done|]. cbn [negb].
  destruct (existsb _ es) eqn:E.
  - destruct H as (i & ed & Hed & Hd & ->). eapply path_from_direction_ok; try done. by eapply Hnull, list_elem_of_lookup_2.
  - rewrite H. eapply path_undirected_ok; try done. intros ed Hed. split; [by apply Hnull|].
    destruct (String.eqb_spec (e_direction ed) "") as [|Hd]; [done|].
    assert (existsb (fun ed => negb (String.eqb (e_direction ed) "")) es = true); [|congruence].
    apply existsb_exists. exists ed. split; [by apply list_elem_of_In|]. by apply negb_true_iff, String.eqb_neq.
Qed.

(** A directed path without relationship types and labels loses the
    properties of its pattern: MATCH (a {name: 'x'})-[r]->(b) is planned as
    a scan of all directed relationships whose only conditions, if any,
    compare two relationships of the path. *)
Theorem directed_plan_drops_properties pattern startNode v0 es op :
  let chains := getSubTreeListByNodeType "PATTERN_ELEMENT_CHAIN" pattern in
  element 0 pattern = Ret startNode -> node_name startNode = Ret v0 -> path_edges 0 v0 chains = Ret es ->
  existsb rel_typed chains = false -> existsb node_labelled (chains) = false ->
  first1 (getNodeDetails startNode) = false ->
  existsb (fun ed => negb (String.eqb (e_direction ed) "")) es = true ->
  pathPatternHandler pattern None = Ret op -> Forall compares_relationships (plan_cases op).
Proof.
  intros chains Hel Hs He Ht Hl Hl0 Hd. unfold pathPatternHandler. rewrite Hel. cbn [mbind outcome_bind]. fold chains.
  assert (es <> []) as Hne by (by intros ->).
  pose proof (path_from_scan_branch startNode chains v0 es Hs He Hne) as H. rewrite Ht, Hl, Hl0, Hd in H.
  destruct H as (_ & i & ed & _ & _ & ->). apply path_from_direction_cases.
Qed.
