(* ===== verification/PlanTheory.v ===== *)
(** * PlanTheory: from the tree of a query to its results

    The WHERE clause of a query becomes the condition that FilterTheory gives
    a meaning to; XOR and NOT do not.  Then the way of a whole query: the
    planner, the text of the plan, its loading on a worker, the scan of the
    store and the threads together publish the rows that the query asks for. *)
From Stdlib Require Import ZArith Ascii String Lia.
From stdpp Require Import base tactics numbers list strings sets gmap.
From S2P Require Import Prelude Json SharedBuffer Pipelines ParallelExecutor CypherFilter FilterTheory.
From S2P Require Import CypherRuntime OrderBy RuntimeTheory ProjectionTheory CypherPlan CypherPlanner.

(** ** Conditions as trees *)

Definition leaf (t v : string) : ASTNode := Node t v [].

Definition operand_ast (o : operand) : ASTNode :=
  match o with
  | Lookup v ps =>
      Node "NON_ARITHMETIC_OPERATOR" ""
        (leaf "VARIABLE" v :: ((fun p => Node "PROPERTY_LOOKUP" "" [leaf "SYMBOLIC_WORD" p]) <$> ps))
  | Call f args =>
      Node "FUNCTION_BODY" "" [Node "FUNCTION" "" [leaf "NAMESPACE" ""; leaf "FUNCTION_NAME" f];
                               Node "ARGUMENTS" "" (leaf "VARIABLE" <$> args)]
  | Literal t (Some v) => leaf t v
  | Literal _ None => leaf "IS_NULL" ""
  end.

Fixpoint where_ast (c : cond) : ASTNode :=
  match c with
  | Compare false op l r => Node "COMPARISON" "" [operand_ast l; Node op "" [operand_ast r]]
  | Compare true op l _ =>
      Node "PREDICATE_EXPRESSIONS" ""
        [operand_ast l; Node "NULL_PREDICATES" "" [leaf (if String.eqb op "<>" then "IS_NOT_NULL" else "IS_NULL") ""]]
  | Logic NOT cs => Node Const_NOT "" (where_ast <$> cs)
  | Logic k cs => Node (connective_name k) "" (where_ast <$> cs)
  end.

(** The type of a literal is not one of the types of expressions. *)
Definition literal_type (t : string) : bool :=
  negb (existsb (String.eqb t)
    ["NON_ARITHMETIC_OPERATOR"; "PROPERTIES_MAP"; "LIST"; "FUNCTION_BODY"; "IS_NOT_NULL"; "IS_NULL"]).

Definition plain_operand (o : operand) : bool :=
  match o with
  | Literal t (Some _) => literal_type t
  | Literal t None => String.eqb t "NULL"
  | _ => true
  end.

(** Comparisons, IS NULL and IS NOT NULL, AND and OR. *)
Fixpoint plain_cond (c : cond) : bool :=
  match c with
  | Compare false _ l r => plain_operand l && plain_operand r
  | Compare true op l (Literal t None) =>
      plain_operand l && String.eqb t "NULL" && (String.eqb op "<>" || String.eqb op "==")
  | Logic (AND | OR) cs => forallb plain_cond cs
  | _ => false
  end.

(** The conditions of the query language are among them. *)
Lemma test_plain t : plain_cond (test_cond t) = true.
Proof.
  induction t as [v p c b|v p same s|v p null|ts IH|ts IH] using test_ind'; cbn [test_cond plain_cond]; [done|done|by destruct null|..].
  all: rewrite forallb_elem; intros c (t & -> & Ht)%list_elem_of_fmap; rewrite Forall_forall in IH; by apply IH.
Qed.

Lemma existsb_false {A} (f : A -> bool) l : (forall x, x ∈ l -> f x = false) -> existsb f l = false.
Proof.
  induction l as [|x l IH]; intros H; [done|]. cbn. rewrite H by left. apply IH. intros y Hy. apply H. by right.
Qed.

Lemma test_no_call t : isAvailable "FUNCTION_BODY" (where_ast (test_cond t)) = false.
Proof.
  induction t as [v p c b|v p same s|v p null|ts IH|ts IH] using test_ind'; cbn [test_cond where_ast];
    [by destruct c|by destruct same|by destruct null|..].
  all: change (existsb (isAvailable "FUNCTION_BODY") (where_ast <$> (test_cond <$> ts)) = false); apply existsb_false;
    intros a (c & -> & (t & -> & Ht)%list_elem_of_fmap)%list_elem_of_fmap; rewrite Forall_forall in IH; by apply IH.
Qed.

Section where_clause.
Context `{JT : JsonText}.

Lemma lookup_names_spec v ps :
  lookup_names (elements (operand_ast (Lookup v ps))) = Ret ps.
Proof.
  transitivity (lookup_names ((fun p => Node "PROPERTY_LOOKUP" "" [leaf "SYMBOLIC_WORD" p]) <$> ps)); [done|].
  induction ps as [|p ps IH]; [done|]. rewrite fmap_cons. cbn [lookup_names]. rewrite IH. done.
Qed.

Lemma values_leaves t (l : list string) : value <$> (leaf t <$> l) = l.
Proof. induction l as [|x l IH]; [done|]. rewrite !fmap_cons, IH. done. Qed.

Lemma comparisonOperand_spec o :
  plain_operand o = true -> comparisonOperand (operand_ast o) = Ret (dump (operand_json o)).
Proof.
  destruct o as [v ps|f args|t [v|]]; intros Hp.
  - unfold comparisonOperand. change (has_type "NON_ARITHMETIC_OPERATOR" _) with true. cbv iota.
    rewrite lookup_names_spec. done.
  - unfold comparisonOperand. cbn [has_type nodeType operand_ast String.eqb Ascii.eqb Bool.eqb].
    unfold function_name. cbn [element elements lookup list_lookup mbind outcome_bind value leaf].
    by rewrite values_leaves.
  - unfold comparisonOperand, has_type. cbn [nodeType operand_ast leaf value]. cbn [plain_operand] in Hp.
    unfold literal_type in Hp. apply negb_true_iff in Hp. cbn [existsb] in Hp.
    repeat (apply orb_false_iff in Hp as [? Hp]).
    repeat match goal with H : String.eqb t _ = false |- _ => rewrite H; clear H end. done.
  - apply String.eqb_eq in Hp as ->. done.
Qed.

Lemma parsed_operand_spec o :
  plain_operand o = true -> operand_ok o = true -> parsed_operand (operand_ast o) = Ret (operand_json o).
Proof.
  intros Hp Ho. unfold parsed_operand. rewrite comparisonOperand_spec by done. cbn [mbind outcome_bind].
  by apply parse_exn_dump, operand_ok_json.
Qed.

(** The loop of AND and OR, with the results of the recursive calls. *)
Lemma analyze_children cs :
  (forall c, c ∈ cs -> analyzeWhere (where_ast c) = Ret (dump (cond_json c)) /\ json_ok (cond_json c) = true) ->
  traverse (fun e => t ← analyzeWhere e; parse_exn t) (where_ast <$> cs) = Ret (cond_json <$> cs).
Proof.
  induction cs as [|c cs IH]; intros H; [done|]. destruct (H c) as [Hc Hok]; [left|].
  cbn [fmap list_fmap traverse]. rewrite Hc. cbn [mbind outcome_bind]. rewrite parse_exn_dump by done.
  cbn [mbind outcome_bind]. change (list_fmap _ _ where_ast cs) with (where_ast <$> cs).
  rewrite IH by (intros; apply H; by right). done.
Qed.

Lemma analyzeWhere_spec c :
  plain_cond c = true -> cond_ok c = true -> analyzeWhere (where_ast c) = Ret (dump (cond_json c)).
Proof.
  induction c as [p op l r|k cs IH] using cond_ind'; intros Hp Hok.
  - cbn in Hok. rewrite !andb_true_iff in Hok. destruct Hok as [[_ Hl] Hr]. destruct p.
    + cbn [plain_cond] in Hp. destruct r as [| |t [|]]; try done. rewrite !andb_true_iff in Hp.
      destruct Hp as [[Hpl Ht] Hop]. apply String.eqb_eq in Ht as ->.
      cbn [where_ast analyzeWhere]. cbn [String.eqb Ascii.eqb Bool.eqb Const_NOT].
      cbn [element elements lookup list_lookup mbind outcome_bind].
      rewrite parsed_operand_spec by done. cbn [mbind outcome_bind].
      apply orb_true_iff in Hop as [H|H]; apply String.eqb_eq in H as ->.
      * change (leaf _ "") with (leaf "IS_NOT_NULL" "").
        change (parsed_operand (leaf "IS_NOT_NULL" "")) with (parse_exn (dump (operand_json (Literal "NULL" None)))).
        rewrite parse_exn_dump by done. done.
      * change (leaf _ "") with (leaf "IS_NULL" "").
        change (parsed_operand (leaf "IS_NULL" "")) with (parse_exn (dump (operand_json (Literal "NULL" None)))).
        rewrite parse_exn_dump by done. done.
    + cbn [plain_cond] in Hp. apply andb_true_iff in Hp as [Hpl Hpr].
      cbn [where_ast analyzeWhere]. cbn [String.eqb Ascii.eqb Bool.eqb Const_NOT].
      cbn [element elements lookup list_lookup mbind outcome_bind].
      rewrite !parsed_operand_spec by done. done.
  - assert (forallb plain_cond cs = true /\ (k = AND \/ k = OR)) as [Hcs Hk] by (destruct k; auto; done).
    cbn in Hok. rewrite forallb_elem in Hcs, Hok. rewrite Forall_forall in IH.
    assert (traverse (fun e => t ← analyzeWhere e; parse_exn t) (where_ast <$> cs) = Ret (cond_json <$> cs)) as Htr.
    { apply analyze_children. intros c Hc. split; [by apply IH; auto|by apply cond_ok_json, Hok]. }
    destruct Hk as [-> | ->]; cbn [where_ast connective_name analyzeWhere];
      cbn [String.eqb Ascii.eqb Bool.eqb]; rewrite Htr; done.
Qed.

(** C24. A WHERE clause of comparisons, IS NULL, IS NOT NULL, AND and OR:
    the text the planner makes of it and the evaluation of this text on a row
    by the worker give the meaning of the condition on that row. *)
Theorem where_clause_runs c row :
  plain_cond c = true -> cond_ok c = true -> json_ok (JObject row) = true ->
  (t ← analyzeWhere (where_ast c); evaluate t (dump (JObject row))) = holds row c.
Proof.
  intros Hp Hc Hr. rewrite analyzeWhere_spec by done. cbn [mbind outcome_bind]. unfold evaluate.
  rewrite parse_exn_dump by (by apply cond_ok_json). cbn [mbind outcome_bind]. by rewrite evaluateCondition_spec.
Qed.

Lemma xor_throws cs x :
  (forall c, c ∈ x :: cs -> plain_cond c = true /\ cond_ok c = true) ->
  analyzeWhere (where_ast (Logic XOR (x :: cs))) = Throw json_error.
Proof.
  intros H. destruct (H x) as [Hp Hc]; [left|]. cbn [where_ast connective_name fmap list_fmap analyzeWhere traverse].
  cbn [String.eqb Ascii.eqb Bool.eqb]. rewrite analyzeWhere_spec by done. cbn [mbind outcome_bind].
  rewrite parse_exn_dump by (by apply cond_ok_json). cbn [mbind outcome_bind].
  destruct x as [[] op l r|k l]; done.
Qed.

Lemma json_ok_array l : json_ok (JArray l) = forallb json_ok l.
Proof. done. Qed.

(** XOR and NOT in a WHERE clause: the planner throws on every XOR,
    because it collects the conditions in a vector of strings; and a NOT is
    written to the plan under the name of another construct, so that the
    worker does not know it and rejects every row. *)
Theorem where_xor_not c cs row :
  (forall x, x ∈ c :: cs -> plain_cond x = true /\ cond_ok x = true) -> json_ok (JObject row) = true ->
  analyzeWhere (where_ast (Logic XOR (c :: cs))) = Throw json_error /\
  (t ← analyzeWhere (where_ast (Logic NOT [c])); evaluate t (dump (JObject row))) = Ret false.
Proof.
  intros H Hr. split; [by apply xor_throws|]. destruct (H c) as [Hp Hc]; [left|].
  pose proof (cond_ok_json _ Hc) as Hj.
  cbn [where_ast fmap list_fmap analyzeWhere traverse]. change Const_NOT with "RETURN_BODY". cbn [String.eqb Ascii.eqb Bool.eqb].
  rewrite analyzeWhere_spec by done. cbn [mbind outcome_bind]. rewrite parse_exn_dump by done. cbn [mbind outcome_bind].
  unfold evaluate. set (j := object _).
  assert (j = JObject [("comparisons", JArray [cond_json c]); ("type", JString "RETURN_BODY")]) as -> by done.
  assert (json_ok (JObject [("comparisons", JArray [cond_json c]); ("type", JString "RETURN_BODY")]) = true) as Hok.
  { cbn [json_ok forallb fst snd]. rewrite Hj. done. }
  rewrite parse_exn_dump by done. cbn [mbind outcome_bind json_size foldr]. cbn [evaluateCondition].
  rewrite parse_exn_dump by done. done.
Qed.
End where_clause.
