(* ===== verification/QueryTheory.v ===== *)
(** * QueryTheory: a query from its tree to the published rows

    MATCH (v) WHERE c RETURN v.p1, v.p2, ...: the planner, the text of the
    plan, its loading on a worker, the scan of the node store and the threads
    of the operators, put together.  The rows that reach the master are those
    of the nodes of the partition that satisfy the condition. *)
From Stdlib Require Import ZArith Ascii String Lia.
From stdpp Require Import base tactics numbers list strings sets gmap.
From S2P Require Import Prelude Json SharedBuffer Pipelines ParallelExecutor CypherFilter FilterTheory.
From S2P Require Import CypherRuntime OrderBy RuntimeTheory ProjectionTheory CypherPlan CypherPlanner PlanTheory.
From S2P Require Import FStream PropertyLinks PropertyLinkTheory NodeBlock RelationBlock NodeManager PropertyOwners CypherScans ScanTheory.

(** ** The query *)

Definition column_ast (v p : string) : ASTNode := operand_ast (Lookup v [p]).

Definition match_clause (v : string) (c : cond) : ASTNode :=
  Node "MATCH" "" [Node "PATTERN" "" [Node "NODE_PATTERN" "" [leaf "VARIABLE" v]]; Node "WHERE" "" [where_ast c]].
Definition return_body (v : string) (props : list string) : ASTNode := Node "RETURN_BODY" "" (column_ast v <$> props).

Definition match_ast (v : string) (c : cond) (props : list string) : ASTNode :=
  Node "SINGLE_QUERY" "" [match_clause v c; Node "RETURN" "" [return_body v props]].

Definition column_name (v p : string) : string := (v +:+ "." +:+ p)%string.

(** The row of a node in the result. *)
Definition result_row (v : string) (props : list string) (n : list (string * json)) : json :=
  object ((fun p => (column_name v p, property_of n p)) <$> props).

(** The plan, the outermost operator first. *)
Definition matched (v : string) (c : cond) : Op.Operator :=
  Op.Filter (Some (Op.AllNodeScan v)) [("null", Node "WHERE" "" [where_ast c])].
Definition columns_of (op : option Op.Operator) (v : string) (props : list string) : Op.Operator :=
  Op.Projection (Some (Op.CacheProperty op (column_ast v <$> props))) (column_ast v <$> props).
Definition match_plan (v : string) (c : cond) (props : list string) : Op.Operator :=
  Op.ProduceResults (Some (columns_of (Some (matched v c)) v props)) (column_ast v <$> props).

Lemma columns_subtrees v (props : list string) :
  concat (List.map (fun e => if has_type "NON_ARITHMETIC_OPERATOR" e then [e] else
    getSubTreeListByNodeType "NON_ARITHMETIC_OPERATOR" e) (column_ast v <$> props)) = column_ast v <$> props.
Proof. induction props as [|p props IH]; [done|]. rewrite fmap_cons. cbn [List.map concat]. rewrite IH. done. Qed.

Lemma columns_lookups v (props : list string) :
  filter (fun n => isAvailable "PROPERTY_LOOKUP" n = true) (column_ast v <$> props) = column_ast v <$> props.
Proof.
  induction props as [|p props IH]; [done|]. rewrite fmap_cons, filter_cons_True by done. by rewrite IH.
Qed.

Lemma columns_functions v (props : list string) : existsb (isAvailable "FUNCTION_BODY") (column_ast v <$> props) = false.
Proof. induction props as [|p props IH]; [done|]. rewrite fmap_cons. cbn [existsb]. by rewrite IH. Qed.

Lemma plan_match_clause v c :
  isAvailable "FUNCTION_BODY" (where_ast c) = false ->
  createExecutionPlan (match_clause v c) None "" = Ret (Some (matched v c)).
Proof.
  intros Hf. unfold match_clause. cbn [createExecutionPlan List.map plan_each String.eqb Ascii.eqb Bool.eqb].
  assert (match_seek (match_clause v c) None = Ret None) as Hseek.
  { unfold match_seek, match_clause. cbn [isAvailable existsb String.eqb Ascii.eqb Bool.eqb orb leaf]. by rewrite Hf. }
  unfold match_clause in Hseek. rewrite Hseek.
  cbn [mbind outcome_bind]. unfold plan_products, plan_node.
  cbn [leaf length elements Nat.eqb isAvailable existsb String.eqb Ascii.eqb Bool.eqb orb andb negb].
  by cbn [or_scan value_of_element element elements lookup list_lookup mbind outcome_bind value].
Qed.

Lemma plan_columns v props op :
  props <> [] ->
  createExecutionPlan (return_body v props) op "" =
  Ret (Some (Op.ProduceResults (Some (columns_of op v props)) (column_ast v <$> props))).
Proof.
  intros Hp. unfold return_body. cbn [createExecutionPlan List.map String.eqb Ascii.eqb Bool.eqb].
  unfold plan_return_body. destruct props as [|p props]; [done|].
  assert (isAllChildrenAreGivenType "VARIABLE" (Node "RETURN_BODY" "" (column_ast v <$> p :: props)) = false) as -> by done.
  assert (getSubTreeListByNodeType "NON_ARITHMETIC_OPERATOR" (Node "RETURN_BODY" "" (column_ast v <$> p :: props)) =
    column_ast v <$> p :: props) as -> by apply columns_subtrees.
  rewrite columns_lookups.
  assert (isAvailable "FUNCTION_BODY" (Node "RETURN_BODY" "" (column_ast v <$> p :: props)) = false) as ->.
  { cbn [isAvailable String.eqb Ascii.eqb Bool.eqb orb]. apply columns_functions. }
  done.
Qed.

Lemma plan_of_match v c props :
  isAvailable "FUNCTION_BODY" (where_ast c) = false -> props <> [] ->
  createExecutionPlan (match_ast v c props) None "" = Ret (Some (match_plan v c props)).
Proof.
  intros Hf Hp. unfold match_ast. cbn [createExecutionPlan List.map plan_each String.eqb Ascii.eqb Bool.eqb].
  rewrite plan_match_clause by done. cbn [mbind outcome_bind plan_return].
  pose proof (plan_columns v props (Some (matched v c)) Hp) as H. unfold return_body in *. cbn [has_type nodeType String.eqb Ascii.eqb Bool.eqb].
  by rewrite H.
Qed.

Section text.
Context `{JT : JsonText}.

(** The JSON of the operators, given the text of the one below. *)
Definition scan_query (v : string) : json := JObject [("Operator", JString "AllNodeScan"); ("variables", JString v)].
Definition filter_query (next : string) (c : cond) : json :=
  JObject [("NextOperator", JString next); ("Operator", JString "Filter"); ("condition", cond_json c)].
Definition projection_query (next v : string) (props : list string) : json :=
  JObject [("NextOperator", JString next); ("Operator", JString "Projection");
           ("project", JArray (column_json <$> ((fun p => mkColumn v p (column_name v p)) <$> props)))].
Definition result_query (next v : string) (props : list string) : json :=
  JObject [("NextOperator", JString next); ("Operator", JString "ProduceResult");
           ("variable", strings_json (column_name v <$> props))].

Definition scan_text (v : string) : string := dump (scan_query v).
Definition filter_text (v : string) (c : cond) : string := dump (filter_query (scan_text v) c).
Definition projection_text (v : string) (c : cond) (props : list string) : string :=
  dump (projection_query (filter_text v c) v props).
Definition match_text (v : string) (c : cond) (props : list string) : string :=
  dump (result_query (projection_text v c props) v props).

Lemma projection_columns_text v (props : list string) :
  column_operands projection_operand (column_ast v <$> props) =
  Ret (column_json <$> ((fun p => mkColumn v p (column_name v p)) <$> props)).
Proof. induction props as [|p props IH]; [done|]. rewrite !fmap_cons. cbn [column_operands]. rewrite IH. done. Qed.

Lemma result_columns_text v (props : list string) :
  traverse result_names (column_ast v <$> props) = Ret ((fun n => [n]) <$> (column_name v <$> props)).
Proof. induction props as [|p props IH]; [done|]. rewrite !fmap_cons. cbn [traverse]. rewrite IH. done. Qed.

Lemma concat_singletons {A} (l : list A) : concat ((fun n => [n]) <$> l) = l.
Proof. induction l as [|x l IH]; [done|]. rewrite fmap_cons. cbn. by rewrite IH. Qed.

Lemma filter_condition_text c :
  plain_cond c = true -> cond_ok c = true ->
  filter_conditions [("null", Node "WHERE" "" [where_ast c])] [] = Ret [("condition", cond_json c)].
Proof.
  intros Hp Hc. cbn [filter_conditions]. unfold filter_case. cbn [has_type nodeType snd String.eqb Ascii.eqb Bool.eqb].
  cbn [element elements lookup list_lookup mbind outcome_bind]. rewrite analyzeWhere_spec by done.
  cbn [mbind outcome_bind]. rewrite parse_exn_dump by (by apply cond_ok_json). done.
Qed.

Lemma execute_match v c props a :
  plain_cond c = true -> cond_ok c = true -> execute (match_plan v c props) a = (Ret (match_text v c props), a).
Proof.
  intros Hp Hc. unfold match_plan, columns_of, matched. cbn [execute]. unfold mbind, M_bind, mret, M_ret, lift.
  rewrite filter_condition_text by done. rewrite projection_columns_text, result_columns_text, concat_singletons. done.
Qed.

(** *** Loading *)

Context (v : string) (c : cond) (props : list string).
Hypothesis Hv : is_ascii v = true.
Hypothesis Hprops : forallb is_ascii props = true.
Hypothesis Hcond : cond_ok c = true.

Lemma column_name_ascii p : is_ascii p = true -> is_ascii (column_name v p) = true.
Proof. intros H. unfold column_name. by rewrite !is_ascii_app, Hv, H. Qed.

Lemma columns_ascii : forallb column_ascii ((fun p => mkColumn v p (column_name v p)) <$> props) = true.
Proof.
  pose proof (proj1 (forallb_elem _ _) Hprops) as Hall. apply forallb_elem. intros x (p & -> & Hp)%list_elem_of_fmap. unfold column_ascii. cbn.
  by rewrite Hv, (Hall _ Hp), column_name_ascii by auto.
Qed.

Lemma scan_query_ok : json_ok (scan_query v) = true.
Proof. cbn [scan_query json_ok forallb fst snd]. by rewrite Hv. Qed.

Lemma filter_query_ok : json_ok (filter_query (scan_text v) c) = true.
Proof.
  cbn [filter_query json_ok forallb fst snd]. rewrite cond_ok_json by done.
  unfold scan_text. rewrite dump_ascii by apply scan_query_ok. done.
Qed.

Lemma projection_query_ok : json_ok (projection_query (filter_text v c) v props) = true.
Proof.
  cbn [projection_query json_ok forallb fst snd]. unfold filter_text. rewrite dump_ascii by apply filter_query_ok.
  assert (forallb json_ok (column_json <$> ((fun p => mkColumn v p (column_name v p)) <$> props)) = true) as ->; [|done].
  pose proof columns_ascii as H. pose proof (proj1 (forallb_elem _ _) H) as H0; clear H; rename H0 into H. apply forallb_elem.
  intros x (k & -> & Hk)%list_elem_of_fmap. specialize (H _ Hk). unfold column_ascii in H. rewrite !andb_true_iff in H.
  destruct H as [[H1 H2] H3]. cbn [column_json lookup_column json_ok forallb fst snd]. rewrite H1, H2, H3. done.
Qed.

Lemma column_names_ok : forallb json_ok (JString <$> (column_name v <$> props)) = true.
Proof.
  pose proof (proj1 (forallb_elem _ _) Hprops) as Hall. apply forallb_elem. intros x (k & -> & Hk)%list_elem_of_fmap.
  apply list_elem_of_fmap in Hk as (p & -> & Hp). cbn. by apply column_name_ascii, Hall.
Qed.

Lemma result_query_ok : json_ok (result_query (projection_text v c props) v props) = true.
Proof.
  cbn [result_query json_ok forallb fst snd strings_json]. unfold projection_text.
  rewrite dump_ascii by apply projection_query_ok. by rewrite column_names_ok.
Qed.

Context `{PQ : PriorityQueue} (sizeof_Row : Z) (creates : nat -> bool) (workers : option Z).

(** One operator of a plan. *)
Lemma load_stage fuel q name mk t :
  json_ok q = true -> index "Operator" q = Ret (JString name) -> stage_method sizeof_Row creates workers name = Some mk ->
  index "NextOperator" q = Ret (JString t) ->
  CypherPlan.load sizeof_Row creates workers (S fuel) (dump q) =
  (r ← CypherPlan.load sizeof_Row creates workers fuel t; p ← mk q; Ret (r.1, r.2 ++ [p])).
Proof.
  intros Hq Hn Hm Ht. cbn [CypherPlan.load]. rewrite parse_exn_dump by done. cbn [mbind outcome_bind].
  rewrite Hn. cbn [mbind outcome_bind as_string]. rewrite Hm, Ht. done.
Qed.

Lemma load_scan fuel :
  CypherPlan.load sizeof_Row creates workers (1 + fuel) (scan_text v) = Ret ("AllNodeScan", scan_query v, []).
Proof. cbn [CypherPlan.load Nat.add]. unfold scan_text. by rewrite parse_exn_dump by apply scan_query_ok. Qed.

Lemma load_filter fuel :
  CypherPlan.load sizeof_Row creates workers (2 + fuel) (filter_text v c) =
  Ret ("AllNodeScan", scan_query v, [Filter workers (filter_query (scan_text v) c)]).
Proof.
  etransitivity; [eapply (load_stage (1 + fuel)); [apply filter_query_ok|reflexivity..]|]. by rewrite load_scan.
Qed.

Lemma load_projection fuel :
  CypherPlan.load sizeof_Row creates workers (3 + fuel) (projection_text v c props) =
  Ret ("AllNodeScan", scan_query v, [Filter workers (filter_query (scan_text v) c);
    Projection (projection_query (filter_text v c) v props)]).
Proof.
  etransitivity; [eapply (load_stage (2 + fuel)); [apply projection_query_ok|reflexivity..]|]. by rewrite load_filter.
Qed.

Lemma load_match fuel :
  CypherPlan.load sizeof_Row creates workers (4 + fuel) (match_text v c props) =
  Ret ("AllNodeScan", scan_query v,
       [Filter workers (filter_query (scan_text v) c); Projection (projection_query (filter_text v c) v props);
        ProduceResult (result_query (projection_text v c props) v props)]).
Proof.
  etransitivity; [eapply (load_stage (3 + fuel)); [apply result_query_ok|reflexivity..]|]. by rewrite load_projection.
Qed.
End text.

(** ** The rows *)

Section rows.
Context `{JT : JsonText}.

Lemma transform_cons p v raw rows v' l :
  on_row p v raw = Ret (v', l) -> transform p v (raw :: rows) = (rest ← transform p v' rows; Ret (l ++ rest)).
Proof. intros H. cbn [transform]. by rewrite H. Qed.

Context (v : string) (props : list string).
Hypothesis Hv : is_ascii v = true.
Hypothesis Hprops : forallb is_ascii props = true.
Hypothesis Hnodup : NoDup props.
Hypothesis Hsome : props <> [].

Lemma column_name_inj p q : column_name v p = column_name v q -> p = q.
Proof.
  unfold column_name. intros H. apply (f_equal chars) in H. rewrite !chars_app in H.
  apply app_inv_head in H. cbn in H. injection H as H. by apply chars_inj.
Qed.

Lemma column_name_variable p : column_name v p <> v.
Proof.
  unfold column_name. intros H. apply (f_equal String.length) in H. rewrite !length_string_app in H. cbn in H. lia.
Qed.

(** A row with one node, after the projection. *)
Definition projected_row (n : list (string * json)) : list (string * json) :=
  match project_operands (column_json <$> ((fun p => mkColumn v p (column_name v p)) <$> props)) [(v, JObject n)] with
  | Ret out => out
  | _ => []
  end.

Lemma project_node n :
  json_ok (JObject n) = true ->
  project_operands (column_json <$> ((fun p => mkColumn v p (column_name v p)) <$> props)) [(v, JObject n)] =
    Ret (projected_row n) /\
  json_ok (JObject (projected_row n)) = true /\
  (forall p, p ∈ props -> find_key (column_name v p) (projected_row n) = Some (property_of n p)) /\
  exists n', find_key v (projected_row n) = Some (JObject n') /\ forall q, property_of n' q = property_of n q.
Proof.
  intros Hn. destruct (project_operands_spec ((fun p => mkColumn v p (column_name v p)) <$> props) [(v, JObject n)])
    as (out & H1 & H2 & _ & H4 & H5).
  - done.
  - intros k (p & -> & _)%list_elem_of_fmap. exists n. cbn. by rewrite String.eqb_refl.
  - intros k k' (p & -> & _)%list_elem_of_fmap (q & -> & _)%list_elem_of_fmap. apply column_name_variable.
  - rewrite <- list_fmap_compose. apply NoDup_fmap_2; [intros p q; apply column_name_inj|done].
  - unfold projected_row. rewrite H1. split_and!; [done| | |].
    + apply H4; [|by apply columns_ascii]. cbn [json_ok forallb fst snd]. rewrite Hv, andb_true_r. exact Hn.
    + intros p Hp. apply (H2 (mkColumn v p (column_name v p)) n); [by apply (list_elem_of_fmap_2 (fun p => mkColumn v p (column_name v p)))|].
      cbn. by rewrite String.eqb_refl.
    + apply H5; [|cbn; by rewrite String.eqb_refl]. intros k (p & -> & _)%list_elem_of_fmap. apply column_name_variable.
Qed.

Lemma pick_values_fields out names m :
  pick_values (JObject out) names (JObject m) =
  Ret (JObject (foldl (fun m kv => set_key kv.1 kv.2 m) m ((fun k => (k, default JNull (find_key k out))) <$> names))).
Proof. revert m. induction names as [|k names IH]; intros m; [done|]. cbn. apply IH. Qed.

Lemma pick_node n out :
  (forall p, p ∈ props -> find_key (column_name v p) out = Some (property_of n p)) ->
  pick_values (JObject out) (column_name v <$> props) JNull = Ret (result_row v props n).
Proof.
  intros H. destruct props as [|p ps]; [done|]. rewrite fmap_cons. cbn [pick_values index mbind outcome_bind assign].
  rewrite pick_values_fields. unfold result_row, object. rewrite fmap_cons. cbn [foldl fst snd set_key].
  rewrite (H p) by left. f_equal. f_equal. f_equal. rewrite <- list_fmap_compose. apply list_fmap_ext.
  intros i q Hq. cbn. rewrite (H q) by (right; by eapply list_elem_of_lookup_2). done.
Qed.

(** *** The three operators *)

Definition node_text (n : list (string * json)) : string := row_text [(v, JObject n)].

Context (c : cond) (next1 next2 next3 : string) (workers : option Z).
Context (b : list (string * json) -> bool) (nodes : list (list (string * json))).
Hypothesis Hcond : cond_ok c = true.
Hypothesis Hnodes : forall n, n ∈ nodes -> json_ok (JObject n) = true /\ holds [(v, JObject n)] c = Ret (b n).

Lemma node_row_ok n : json_ok (JObject n) = true -> json_ok (JObject [(v, JObject n)]) = true.
Proof. intros Hn. cbn [json_ok forallb fst snd]. rewrite Hv, andb_true_r. exact Hn. Qed.

Lemma filter_nodes :
  transform (Filter workers (filter_query next1 c)) [] (node_text <$> nodes) = Ret (node_text <$> List.filter b nodes).
Proof.
  pose (b' := fun row : list (string * json) => match row with [(_, JObject n)] => b n | _ => false end).
  assert (node_text <$> nodes = row_text <$> ((fun n => [(v, JObject n)]) <$> nodes)) as ->
    by by rewrite <- list_fmap_compose.
  rewrite (filter_rows workers _ c _ b'); [| |done|].
  - f_equal. clear Hnodes. induction nodes as [|n ns IH]; [done|]. rewrite fmap_cons. cbn. destruct (b n); cbn; by rewrite IH.
  - done.
  - intros row (n & -> & Hn)%list_elem_of_fmap. destruct (Hnodes _ Hn). split; [by apply node_row_ok|done].
Qed.

Definition projected_text (n : list (string * json)) : string := row_text (projected_row n).
Definition result_text (n : list (string * json)) : string := dump (result_row v props n).

Lemma project_nodes ns :
  (forall n, n ∈ ns -> json_ok (JObject n) = true) ->
  transform (Projection (projection_query next2 v props)) tt (node_text <$> ns) = Ret (projected_text <$> ns).
Proof.
  induction ns as [|n ns IH]; intros Hns; [done|].
  destruct (project_node n) as (Hp & _); [apply Hns; left|].
  rewrite !fmap_cons, (transform_cons (Projection (projection_query next2 v props)) _ _ _ tt [projected_text n]).
  - rewrite IH; [done|]. intros; apply Hns; by right.
  - cbn [Projection project_stage on_row projection_query find_key String.eqb Ascii.eqb Bool.eqb].
    unfold project_row, node_text, row_text. rewrite parse_exn_dump by (apply node_row_ok, Hns; left).
    cbn [mbind outcome_bind]. by rewrite Hp.
Qed.

Lemma produce_nodes ns :
  (forall n, n ∈ ns -> json_ok (JObject n) = true) ->
  transform (ProduceResult (result_query next3 v props)) tt (projected_text <$> ns) = Ret (result_text <$> ns).
Proof.
  induction ns as [|n ns IH]; intros Hns; [done|].
  destruct (project_node n) as (_ & Hok & Hf & _); [apply Hns; left|].
  rewrite !fmap_cons, (transform_cons (ProduceResult (result_query next3 v props)) _ _ _ tt [result_text n]).
  - rewrite IH; [done|]. intros; apply Hns; by right.
  - cbn [ProduceResult on_row]. unfold produce_row, projected_text, row_text.
    change (index "variable" (result_query next3 v props)) with (Ret (strings_json (column_name v <$> props))).
    cbn [mbind outcome_bind]. rewrite as_strings_json. cbn [mbind outcome_bind].
    rewrite parse_exn_dump by done. cbn [mbind outcome_bind]. by rewrite (pick_node n) by done.
Qed.

(** The stages of a plan one after the other. *)
Lemma run_stages_cons p ps rows l :
  transform p (start p) rows = Ret l -> run_stages (p :: ps) rows = run_stages ps l.
Proof. intros H. cbn [run_stages]. by rewrite H. Qed.

Lemma filtered_ok n : n ∈ List.filter b nodes -> json_ok (JObject n) = true.
Proof. intros Hn. apply list_elem_of_In, List.filter_In in Hn as [Hn _]. by apply Hnodes, list_elem_of_In. Qed.

Lemma run_match :
  run_stages [Filter workers (filter_query next1 c); Projection (projection_query next2 v props);
              ProduceResult (result_query next3 v props)] (node_text <$> nodes) =
  Ret ((fun n => dump (result_row v props n)) <$> List.filter b nodes).
Proof.
  erewrite run_stages_cons by apply filter_nodes.
  erewrite run_stages_cons by (by apply project_nodes, filtered_ok).
  by erewrite run_stages_cons by (by apply produce_nodes, filtered_ok).
Qed.
End rows.

(** ** The whole way *)

Section query.
Context {HM : HostMemory} `{JT : JsonText} `{PQ : PriorityQueue} (partitionID : Z).
Context (nbs : list (list ascii)) (rbs : kind -> list (list ascii)) (pbs mbs : list (list ascii)).
Context (sizeof_Row : Z) (creates : nat -> bool).

(** The fields of a node, and whether the partition owns it. *)
Definition node_fields (d : listed) : list (string * json) := fill [("partitionID", JString (l_partition d))] (l_props d).
Definition owned (d : listed) : bool := taken partitionID None (l_partition d) (l_label d).

Lemma node_rows_text v ds :
  concat (node_row partitionID v None <$> ds) = node_text v <$> (node_fields <$> List.filter owned ds).
Proof.
  induction ds as [|d ds IH]; [done|]. rewrite fmap_cons. cbn [concat List.filter]. rewrite IH.
  unfold node_row, found, owned. destruct (taken _ _ _ _); done.
Qed.

Lemma row_texts_end {A} (f : A -> list (string * json)) (l : list A) : END ∉ ((fun n => row_text (f n)) <$> l).
Proof. intros (n & H & _)%list_elem_of_fmap. symmetry in H. by apply dump_object_end in H. Qed.

Lemma node_text_end v (l : list (list (string * json))) : END ∉ (node_text v <$> l).
Proof. apply row_texts_end. Qed.

(** MATCH (v) WHERE c RETURN v.p1, ..., v.pn on a worker, for a condition that
    the evaluator finds true on the nodes of [b]. *)
Lemma match_runs v c props b ds m workers threads :
  is_ascii v = true -> forallb is_ascii props = true -> NoDup props -> props <> [] ->
  plain_cond c = true -> cond_ok c = true -> isAvailable "FUNCTION_BODY" (where_ast c) = false ->
  opened nbs rbs pbs mbs m ds -> 1 <= workers < 2147483648 -> Z.of_nat (length ds) < 4611686018427387904 ->
  (forall ch, node_store (threads ch) nbs rbs pbs mbs) ->
  (forall d, d ∈ ds -> owned d = true ->
     json_ok (JObject (node_fields d)) = true /\ holds [(v, JObject (node_fields d))] c = Ret (b (node_fields d))) ->
  exists op text query stages rows m',
    createExecutionPlan (match_ast v c props) None "" = Ret (Some op) /\
    execute op no_aggregate = (Ret text, no_aggregate) /\
    CypherPlan.load sizeof_Row creates (Some workers) 4 text = Ret ("AllNodeScan", query, stages) /\
    CypherScans.AllNodeScan partitionID workers threads query (entry_of <$> ds) m = (Ret rows, m') /\
    always (query_done ((fun n => dump (result_row v props n)) <$> List.filter b (node_fields <$> List.filter owned ds)))
      (start_query rows stages).
Proof.
  intros Hv Hp Hnd Hne Hplain Hc Hf Hm Hw Hlen Ht Hds.
  destruct (node_scan_rows partitionID nbs rbs pbs mbs workers threads (scan_query v) v ds m) as (m' & Hscan & _); [done..|].
  rewrite node_rows_text in Hscan.
  do 6 eexists. split_and!; [by apply plan_of_match|by apply execute_match|by apply (load_match v c props Hv Hp Hc _ _ _ 0)|exact Hscan|].
  apply pipeline_rows.
  - apply well_behaved_clean; [|apply node_text_end]. repeat constructor; [apply Filter_well_behaved|apply project_stage_well_behaved|apply ProduceResult_well_behaved].
  - apply node_text_end.
  - apply run_match; try done. intros n (d & -> & Hd)%list_elem_of_fmap.
    apply list_elem_of_In, List.filter_In in Hd as [Hd Ho]. apply Hds; [by apply list_elem_of_In|done].
Qed.

End query.
