(* ===== verification/OrderedQuery.v ===== *)
(** * OrderedQuery: a sorted query on the whole cluster

    MATCH (v) WHERE c RETURN v.p1, v.p2, ... ORDER BY v.k ASC, from its tree
    to the client: the plan, its text, its loading and its run on every
    worker, and the merge of the workers' results at the master. *)
From Stdlib Require Import ZArith Ascii String Lia.
From stdpp Require Import base tactics numbers list strings sets gmap sorting.
From S2P Require Import Prelude Json SharedBuffer Pipelines ParallelExecutor CypherFilter FilterTheory.
From S2P Require Import CypherRuntime OrderBy OrderTheory MasterMerge RuntimeTheory ProjectionTheory CypherPlan CypherPlanner PlanTheory.
From S2P Require Import FStream PropertyLinks PropertyLinkTheory NodeBlock RelationBlock NodeManager PropertyOwners CypherScans ScanTheory QueryTheory.

(** ** The plan *)

Definition order_clause (v k : string) : ASTNode := Node "ASC" "" [column_ast v k].

Definition ordered_ast (v : string) (c : cond) (props : list string) (k : string) : ASTNode :=
  Node "SINGLE_QUERY" ""
    [match_clause v c; Node "RETURN" "" [return_body v props; Node "ORDERED_BY" "" [order_clause v k]]].

Definition ordered_plan (v : string) (c : cond) (props : list string) (k : string) : Op.Operator :=
  Op.ProduceResults (Some (Op.OrderBy (Some (columns_of (Some (matched v c)) v props)) (order_clause v k)))
    (column_ast v <$> props).

Lemma plan_of_ordered v c props k :
  isAvailable "FUNCTION_BODY" (where_ast c) = false -> props <> [] ->
  createExecutionPlan (ordered_ast v c props k) None "" = Ret (Some (ordered_plan v c props k)).
Proof.
  intros Hf Hp. unfold ordered_ast. cbn [createExecutionPlan List.map plan_each String.eqb Ascii.eqb Bool.eqb].
  rewrite plan_match_clause by done. cbn [mbind outcome_bind plan_return].
  pose proof (plan_columns v props (Some (matched v c)) Hp) as H. unfold return_body in *.
  cbn [has_type nodeType String.eqb Ascii.eqb Bool.eqb]. by rewrite H.
Qed.

Section text.
Context `{JT : JsonText}.

Definition order_query (next v k : string) : json :=
  JObject [("NextOperator", JString next); ("Operator", JString "OrderBy"); ("order", JString "ASC");
           ("variable", JString (column_name v k))].
Definition order_text (v : string) (c : cond) (props : list string) (k : string) : string :=
  dump (order_query (projection_text v c props) v k).
Definition ordered_text (v : string) (c : cond) (props : list string) (k : string) : string :=
  dump (result_query (order_text v c props k) v props).

Lemma execute_ordered v c props k a :
  plain_cond c = true -> cond_ok c = true ->
  execute (ordered_plan v c props k) a =
    (Ret (ordered_text v c props k), mkAggregate true "ASC" (column_name v k)).
Proof.
  intros Hp Hc. unfold ordered_plan, columns_of, matched. cbn [execute]. unfold mbind, M_bind, mret, M_ret, lift.
  rewrite filter_condition_text by done. rewrite projection_columns_text.
  change (order_key (order_clause v k)) with (Ret (Some (column_name v k))). cbn.
  rewrite result_columns_text, concat_singletons. done.
Qed.

Context (v : string) (c : cond) (props : list string) (k : string).
Hypothesis Hv : is_ascii v = true.
Hypothesis Hprops : forallb is_ascii props = true.
Hypothesis Hk : is_ascii k = true.
Hypothesis Hcond : cond_ok c = true.

Lemma order_query_ok : json_ok (order_query (projection_text v c props) v k) = true.
Proof.
  cbn [order_query json_ok forallb fst snd]. unfold projection_text. rewrite dump_ascii by (by apply projection_query_ok).
  by rewrite column_name_ascii.
Qed.

Lemma ordered_query_ok : json_ok (result_query (order_text v c props k) v props) = true.
Proof.
  cbn [result_query json_ok forallb fst snd strings_json]. unfold order_text.
  rewrite dump_ascii by apply order_query_ok. by rewrite column_names_ok.
Qed.

Context `{PQ : PriorityQueue} (sizeof_Row : Z) (creates : nat -> bool) (workers : option Z).

Lemma load_ordered fuel :
  CypherPlan.load sizeof_Row creates workers (5 + fuel) (ordered_text v c props k) =
  Ret ("AllNodeScan", scan_query v,
       [Filter workers (filter_query (scan_text v) c); Projection (projection_query (filter_text v c) v props);
        OrderBy_stage sizeof_Row creates (column_name v k) "ASC";
        ProduceResult (result_query (order_text v c props k) v props)]).
Proof.
  etransitivity; [eapply (load_stage _ _ _ (4 + fuel)); [apply ordered_query_ok|reflexivity..]|].
  assert (CypherPlan.load sizeof_Row creates workers (4 + fuel) (order_text v c props k) =
    Ret ("AllNodeScan", scan_query v, [Filter workers (filter_query (scan_text v) c);
      Projection (projection_query (filter_text v c) v props); OrderBy_stage sizeof_Row creates (column_name v k) "ASC"])) as ->;
    [|done].
  etransitivity; [eapply (load_stage _ _ _ (3 + fuel)); [apply order_query_ok|reflexivity..]|].
  by rewrite load_projection.
Qed.
End text.

(** ** The rows *)

Lemma fields_other (l : list (string * json)) m x :
  x ∉ l.*1 -> find_key x (foldl (fun m kv => set_key kv.1 kv.2 m) m l) = find_key x m.
Proof.
  revert m. induction l as [|[y j] l IH]; intros m Hx; [done|]. cbn [foldl fst snd]. rewrite IH by set_solver.
  apply find_set_key_ne. set_solver.
Qed.

Lemma fields_find (l : list (string * json)) m x j :
  NoDup l.*1 -> (x, j) ∈ l -> find_key x (foldl (fun m kv => set_key kv.1 kv.2 m) m l) = Some j.
Proof.
  revert m. induction l as [|[y z] l IH]; intros m Hnd Hin; [by apply elem_of_nil in Hin|].
  cbn in Hnd. apply NoDup_cons in Hnd as [Hnot Hnd]. cbn [foldl fst snd].
  apply elem_of_cons in Hin as [[= -> ->]|Hin]; [|by apply IH]. rewrite fields_other by done. apply find_set_key.
Qed.

Lemma fields_ok (l : list (string * json)) m :
  json_ok (JObject m) = true -> (forall x j, (x, j) ∈ l -> is_ascii x = true /\ json_ok j = true) ->
  json_ok (JObject (foldl (fun m kv => set_key kv.1 kv.2 m) m l)) = true.
Proof.
  revert m. induction l as [|[x j] l IH]; intros m Hm Hl; [done|]. cbn [foldl fst snd]. apply IH.
  - destruct (Hl x j); [left|]. by apply json_ok_set_key.
  - intros y z Hy. apply Hl. by right.
Qed.

Section rows.
Context `{JT : JsonText} `{PQ : PriorityQueue} (sizeof_Row : Z) (creates : nat -> bool).
Context (v : string) (props : list string) (k : string).
Hypothesis Hv : is_ascii v = true.
Hypothesis Hprops : forallb is_ascii props = true.
Hypothesis Hnodup : NoDup props.
Hypothesis Hsome : props <> [].
Hypothesis Hin : k ∈ props.
Hypothesis Hvdot : "."%char ∉ chars v.
Hypothesis Hkdot : "."%char ∉ chars k.
Hypothesis Hkne : k <> "".

Local Notation K1 := (by_path (column_name v k)).
Local Notation K2 := (by_ptr (column_name v k)).
Local Notation node := (list (string * json)).

(** Nodes that have the property, and their order by it. *)
Definition has_key (n : node) : bool := negb (is_null (property_of n k)).
Definition sorted_nodes (ns : list node) : Prop :=
  StronglySorted (fun a b => value_gt (property_of a k) (property_of b k) = false) ns.

Lemma key_tokens : split_items "."%char [] (chars (column_name v k)) = [chars v; chars k].
Proof.
  unfold column_name. rewrite !chars_app. change (chars ".") with ["."%char]. cbn [app].
  rewrite split_items_word by done. cbn [rev app]. f_equal. apply split_items_last; [done|].
  cbn. intros E. apply Hkne. by apply chars_inj.
Qed.

Lemma projected_key n :
  json_ok (JObject n) = true -> K1 (JObject (projected_row v props n)) = property_of n k.
Proof.
  intros Hn. destruct (project_node v props Hv Hprops Hnodup n Hn) as (_ & _ & _ & n' & Hf & Hq).
  unfold by_path, getNestedValue. rewrite key_tokens. cbn [nested]. rewrite !string_chars, Hf.
  rewrite <- Hq. unfold property_of. by destruct (find_key k n').
Qed.

Lemma result_object n : exists m, result_row v props n = JObject m /\ find_key (column_name v k) m = Some (property_of n k) /\
  (json_ok (JObject n) = true -> json_ok (JObject m) = true).
Proof.
  unfold result_row, object. destruct ((fun p => (column_name v p, property_of n p)) <$> props) as [|x l] eqn:E.
  { apply fmap_nil_inv in E. done. }
  rewrite <- E. eexists. split_and!; [done| |].
  - apply fields_find; [|by apply (list_elem_of_fmap_2 (fun p => (column_name v p, property_of n p)))].
    rewrite <- list_fmap_compose. apply NoDup_fmap_2; [intros p q; apply column_name_inj|done].
  - intros Hn. apply fields_ok; [done|]. intros y j (p & [= -> ->] & Hp)%list_elem_of_fmap.
    split; [|by apply property_of_ok]. apply column_name_ascii; [done|]. by apply (proj1 (forallb_elem _ _) Hprops).
Qed.

Lemma projected_key_of n :
  json_ok (JObject n) = true ->
  key_of K1 (projected_text v props n) = (if has_key n then Some (property_of n k) else None) /\
  newline ∉ chars (projected_text v props n).
Proof.
  intros Hn. destruct (project_node v props Hv Hprops Hnodup n Hn) as (_ & Hok & _).
  unfold key_of, projected_text, row_text, has_key. rewrite parse_dump by done. rewrite projected_key by done.
  split; [by destruct (is_null _)|apply dump_line].
Qed.

Lemma result_key_of n :
  json_ok (JObject n) = true ->
  key_of K2 (result_text v props n) = (if has_key n then Some (property_of n k) else None).
Proof.
  intros Hn. destruct (result_object n) as (m & Hm & Hf & Hok). unfold key_of, result_text, has_key, by_ptr.
  rewrite Hm, parse_dump by auto. cbn [getNestedValuePtr]. rewrite Hf. cbn. by destruct (is_null _).
Qed.

(** Sorted nodes have sorted texts, before and after ProduceResult. *)
Lemma sorted_key_texts (K : json -> json) (f : node -> string) ns :
  (forall n, n ∈ ns -> key_of K (f n) = Some (property_of n k)) ->
  sorted_texts K (f <$> ns) <-> sorted_nodes ns.
Proof.
  intros H. unfold sorted_texts, sorted_nodes. induction ns as [|n ns IH]; [split; constructor|].
  rewrite fmap_cons. assert (forall m, m ∈ ns -> text_gt K (f n) (f m) = value_gt (property_of n k) (property_of m k)) as E.
  { intros m Hm. unfold text_gt, key. by rewrite (H n), (H m) by (by left || by right). }
  split; intros Hs; inversion Hs as [|? ? Hr Hall]; subst; constructor.
  1,3: apply IH; [|done]; intros; apply H; by right.
  - rewrite Forall_fmap in Hall. rewrite Forall_forall in *. intros m Hm. rewrite <- E by done. by apply Hall.
  - rewrite Forall_fmap. rewrite Forall_forall in *. intros m Hm. cbn. rewrite E by done. by apply Hall.
Qed.

Lemma with_key_projected ns :
  (forall n, n ∈ ns -> json_ok (JObject n) = true) ->
  with_key (column_name v k) (projected_text v props <$> ns) = projected_text v props <$> List.filter has_key ns.
Proof.
  unfold with_key. induction ns as [|n ns IH]; intros Hns; [done|]. rewrite fmap_cons, filter_cons.
  destruct (projected_key_of n) as [E _]; [apply Hns; left|]. rewrite E. cbn [List.filter].
  rewrite IH by (intros; apply Hns; by right). destruct (has_key n); [rewrite decide_True by done; done|].
  rewrite decide_False; [done|]. by intros [? ?].
Qed.

(** *** OrderBy on the rows of nodes *)

Context (ns : list node).
Hypothesis Hns : forall n, n ∈ ns -> json_ok (JObject n) = true.
Hypothesis Hstr : forall n, n ∈ ns -> property_of n k = JNull \/ exists s, property_of n k = JString s.
Hypothesis Hfiles : forall i, creates i = true.

Lemma keyed_nodes n : n ∈ List.filter has_key ns -> n ∈ ns /\ has_key n = true.
Proof. intros H. apply list_elem_of_In, List.filter_In in H as [H1 H2]. by split; [apply list_elem_of_In|]. Qed.

Lemma order_nodes :
  exists ns', ns' ≡ₚ List.filter has_key ns /\ sorted_nodes ns' /\
    transform (OrderBy_stage sizeof_Row creates (column_name v k) "ASC") (mkSorter [] 0 [] 0) (projected_text v props <$> ns) =
      Ret (projected_text v props <$> ns').
Proof.
  destruct (order_rows_sorted sizeof_Row creates (column_name v k) (projected_text v props <$> ns)) as (out & Hout & Hp & Hs).
  - done.
  - apply Forall_fmap, Forall_forall. intros n Hn. by apply projected_key_of, Hns.
  - rewrite with_key_projected by done. left. rewrite <- list_fmap_compose. apply Forall_fmap, Forall_forall.
    intros n Hn. apply keyed_nodes in Hn as [Hn Hk]. cbn. unfold key. destruct (projected_key_of n) as [-> _]; [by apply Hns|].
    rewrite Hk. cbn. destruct (Hstr n Hn) as [E|E]; [|done]. unfold has_key in Hk. by rewrite E in Hk.
  - rewrite with_key_projected in Hp by done. apply Permutation_map_inv in Hp as (ns' & -> & Hp).
    exists ns'. split_and!; [by rewrite <- Hp| |exact Hout].
    apply (sorted_key_texts K1 (projected_text v props)); [|exact Hs]. intros n Hn.
    rewrite <- Hp in Hn. apply keyed_nodes in Hn as [Hn Hk]. destruct (projected_key_of n) as [-> _]; [by apply Hns|]. by rewrite Hk.
Qed.
End rows.

(** ** The cluster *)

Lemma fill_strings data (ps : gmap string string) p :
  (forall j, find_key p data = Some j -> exists s, j = JString s) ->
  property_of (fill data ps) p = JNull \/ exists s, property_of (fill data ps) p = JString s.
Proof.
  unfold fill. generalize (map_to_list ps). intros l. revert data. induction l as [|[x y] l IH]; intros data H; cbn [foldl fst snd].
  - unfold property_of. destruct (find_key p data) as [j|]; [right|by left]. by apply H.
  - apply IH. intros j. destruct (decide (x = p)) as [->|Hne]; [rewrite find_set_key; intros [= <-]; by eexists|].
    rewrite find_set_key_ne by done. apply H.
Qed.

Lemma node_fields_strings d p : property_of (node_fields d) p = JNull \/ exists s, property_of (node_fields d) p = JString s.
Proof.
  apply fill_strings. intros j Hj. apply find_key_elem, list_elem_of_singleton in Hj. injection Hj as _ ->. by eexists.
Qed.

(** A worker: its partition, the databases and the index its operators open,
    and the threads of its pool. *)
Record query_worker := mkQueryWorker {
  w_partition : Z;
  w_nodes : list (list ascii);
  w_relations : kind -> list (list ascii);
  w_props : list (list ascii);
  w_meta : list (list ascii);
  w_index : list listed;
  w_manager : manager;
  w_pool : Z;
  w_threads : WorkChunk -> store
}.

Section cluster.
Context {HM : HostMemory} `{JT : JsonText} `{PQ : PriorityQueue}.
Context (sizeof_Row : Z) (creates : nat -> bool).
Context (v : string) (c : cond) (props : list string) (k : string) (b : list (string * json) -> bool).

(** The nodes of its partition. *)
Definition own_nodes (w : query_worker) : list (list (string * json)) :=
  node_fields <$> List.filter (owned (w_partition w)) (w_index w).

Definition worker_ok (w : query_worker) : Prop :=
  opened (w_nodes w) (w_relations w) (w_props w) (w_meta w) (w_manager w) (w_index w) /\
  1 <= w_pool w < 2147483648 /\ Z.of_nat (length (w_index w)) < 4611686018427387904 /\
  (forall ch, node_store (w_threads w ch) (w_nodes w) (w_relations w) (w_props w) (w_meta w)) /\
  (forall n, n ∈ own_nodes w -> json_ok (JObject n) = true /\ holds [(v, JObject n)] c = Ret (b n)).

(** A worker loads the text and its threads publish the rows [out]. *)
Definition publishes (text : string) (w : query_worker) (out : list string) : Prop :=
  exists query stages rows m',
    CypherPlan.load sizeof_Row creates (Some (w_pool w)) 5 text = Ret ("AllNodeScan", query, stages) /\
    CypherScans.AllNodeScan (w_partition w) (w_pool w) (w_threads w) query (entry_of <$> w_index w) (w_manager w) =
      (Ret rows, m') /\
    always (query_done out) (start_query rows stages).

Definition result_texts (ns : list (list (string * json))) : list string := result_text v props <$> ns.

(** The nodes of a worker that the query returns. *)
Definition returned (w : query_worker) : list (list (string * json)) := List.filter (has_key k) (List.filter b (own_nodes w)).

Hypothesis Hv : is_ascii v = true.
Hypothesis Hprops : forallb is_ascii props = true.
Hypothesis Hnodup : NoDup props.
Hypothesis Hin : k ∈ props.
Hypothesis Hvdot : "."%char ∉ chars v.
Hypothesis Hkdot : "."%char ∉ chars k.
Hypothesis Hkne : k <> "".
Hypothesis Hcond : cond_ok c = true.
Hypothesis Hfiles : forall i, creates i = true.

Lemma props_some : props <> [].
Proof. intros ->. by apply elem_of_nil in Hin. Qed.

Lemma key_ascii : is_ascii k = true.
Proof. by apply (proj1 (forallb_elem _ _) Hprops). Qed.

Lemma returned_ok w n : worker_ok w -> n ∈ returned w -> json_ok (JObject n) = true /\ has_key k n = true.
Proof.
  intros (_ & _ & _ & _ & Hn) H. apply list_elem_of_In, List.filter_In in H as [H Hk]. split; [|done].
  apply List.filter_In in H as [H _]. by apply Hn, list_elem_of_In.
Qed.

Lemma worker_publishes w :
  worker_ok w ->
  exists ns, ns ≡ₚ returned w /\ sorted_nodes k ns /\ publishes (ordered_text v c props k) w (result_text v props <$> ns).
Proof.
  intros (Hopen & Hpool & Hlen & Hthreads & Hnodes). pose proof props_some as Hne. pose proof key_ascii as Hk.
  destruct (order_nodes sizeof_Row creates v props k Hv Hprops Hnodup Hvdot Hkdot Hkne (List.filter b (own_nodes w)))
    as (ns & Hp & Hs & Ho); [| |done|].
  { intros n Hn. by eapply (filtered_ok v c b (own_nodes w)). }
  { intros n Hn. apply list_elem_of_In, List.filter_In in Hn as [Hn _]. apply list_elem_of_In in Hn.
    apply list_elem_of_fmap in Hn as (d & -> & _). apply node_fields_strings. }
  exists ns. split_and!; [done|done|].
  destruct (node_scan_rows (w_partition w) (w_nodes w) (w_relations w) (w_props w) (w_meta w) (w_pool w) (w_threads w)
    (scan_query v) v (w_index w) (w_manager w)) as (m' & Hscan & _); [done..|]. rewrite node_rows_text in Hscan.
  do 4 eexists. split_and!; [by apply (load_ordered v c props k Hv Hprops Hk Hcond _ _ _ 0)|exact Hscan|].
  fold (own_nodes w). assert (forall n, n ∈ List.filter b (own_nodes w) -> json_ok (JObject n) = true) as Hok.
  { intros n Hn. by eapply (filtered_ok v c b (own_nodes w)). }
  assert (forall n, n ∈ ns -> json_ok (JObject n) = true) as Hok'.
  { intros n Hn. rewrite Hp in Hn. apply Hok. by eapply keyed_nodes. }
  pose proof (filter_nodes v Hv c (scan_text v) (Some (w_pool w)) b (own_nodes w) Hcond Hnodes) as E1.
  pose proof (project_nodes v props Hv Hprops Hnodup (filter_text v c) _ Hok) as E2.
  pose proof (produce_nodes v props Hv Hprops Hnodup Hne (order_text v c props k) _ Hok') as E4.
  apply pipeline_rows; [|apply node_text_end|].
  - intros l0 Hl0. pose proof (eq_trans (eq_sym E1) Hl0) as [= <-]. split; [apply node_text_end|].
    intros l1 Hl1. pose proof (eq_trans (eq_sym E2) Hl1) as [= <-]. split; [apply row_texts_end|].
    intros l2 Hl2. pose proof (eq_trans (eq_sym Ho) Hl2) as [= <-]. split; [apply row_texts_end|].
    apply well_behaved_clean; [|apply row_texts_end]. constructor; [apply ProduceResult_well_behaved|constructor].
  - erewrite run_stages_cons by exact E1. erewrite run_stages_cons by exact E2.
    erewrite run_stages_cons by exact Ho. by erewrite run_stages_cons by exact E4.
Qed.

Lemma workers_publish ws :
  Forall worker_ok ws ->
  exists nss, Forall2 (fun w ns => ns ≡ₚ returned w /\ sorted_nodes k ns) ws nss /\
    Forall2 (publishes (ordered_text v c props k)) ws (result_texts <$> nss) /\
    (forall ns n, ns ∈ nss -> n ∈ ns -> json_ok (JObject n) = true /\ has_key k n = true).
Proof.
  induction 1 as [|w ws Hw _ (nss & H1 & H2 & H3)].
  { exists []. split_and!; [constructor..|]. intros ns n Hns. by apply elem_of_nil in Hns. }
  destruct (worker_publishes w Hw) as (ns & Hp & Hs & Hout). exists (ns :: nss).
  split_and!; [by constructor|by constructor|]. intros ns' n Hns Hn. apply elem_of_cons in Hns as [->|Hns]; [|by eapply H3].
  rewrite Hp in Hn. by eapply returned_ok.
Qed.

Lemma result_text_stream n :
  json_ok (JObject n) = true -> result_text v props n <> END /\ result_text v props n <> "" /\ is_Some (parse (result_text v props n)).
Proof.
  intros Hn. destruct (result_object v props k Hv Hprops Hnodup props_some Hin n) as (m & Hm & _ & Hok).
  unfold result_text. rewrite Hm. split_and!; [apply dump_object_end| |rewrite parse_dump by auto; by eexists].
  destruct (dump_object m) as [r ->]. discriminate.
Qed.

(** *** The merge *)


Lemma merge_results nss :
  (forall ns, ns ∈ nss -> sorted_nodes k ns) ->
  (forall ns n, ns ∈ nss -> n ∈ ns -> json_ok (JObject n) = true /\ has_key k n = true) ->
  (forall ns n, ns ∈ nss -> n ∈ ns -> property_of n k = JNull \/ exists s, property_of n k = JString s) ->
  exists all, order_results (column_name v k) true ((fun f => f ++ [END]) <$> (result_texts <$> nss)) =
      Ret (result_text v props <$> all) /\
    all ≡ₚ concat nss /\ sorted_nodes k all.
Proof.
  intros Hs Hok Hstr.
  assert (forall ns n, ns ∈ nss -> n ∈ ns -> key_of (by_ptr (column_name v k)) (result_text v props n) = Some (property_of n k)) as Hkey.
  { intros ns n Hns Hn. destruct (Hok _ _ Hns Hn) as [H1 H2]. rewrite (result_key_of v props k) by (done || apply props_some).
    by rewrite H2. }
  assert (concat (result_texts <$> nss) = result_text v props <$> concat nss) as Hcat.
  { clear. induction nss as [|ns nss IH]; [done|]. rewrite fmap_cons. cbn [concat]. by rewrite IH, fmap_app. }
  destruct (results_sorted (column_name v k) (result_texts <$> nss)) as (out & Hout & Hp & Hso).
  - intros f s (ns & -> & Hns)%list_elem_of_fmap (n & -> & Hn)%list_elem_of_fmap. by apply result_text_stream, (Hok ns n).
  - intros f (ns & -> & Hns)%list_elem_of_fmap. split.
    + apply (sorted_key_texts k); [|by apply Hs]. intros n Hn. by apply (Hkey ns).
    + apply Forall_fmap, Forall_forall. intros n Hn. cbn. rewrite (Hkey ns) by done. by eexists.
  - rewrite Hcat, <- list_fmap_compose. left. apply Forall_fmap, Forall_forall.
    intros n (ns & Hns & Hn)%elem_concat. cbn. unfold key. rewrite (Hkey ns) by done. cbn.
    destruct (Hstr _ _ Hns Hn) as [E|E]; [|done]. destruct (Hok _ _ Hns Hn) as [_ H]. unfold has_key in H. by rewrite E in H.
  - rewrite Hcat in Hp. apply Permutation_map_inv in Hp as (all & -> & Hp). exists all.
    split_and!; [done|by rewrite <- Hp|]. apply (sorted_key_texts k (by_ptr (column_name v k)) (result_text v props)); [|done].
    intros n Hn. rewrite <- Hp in Hn. apply elem_concat in Hn as (ns & Hns & Hn). by apply (Hkey ns).
Qed.

(** MATCH (v) WHERE c RETURN v.p1, ..., v.pn ORDER BY v.k ASC on a cluster,
    from the tree of the query to the client.  The planner gives a plan whose
    text every worker can load; on every worker, whatever the interleaving of
    its threads, the plan publishes rows; and the master, which reads these
    streams to their ends, writes one row for every node of every partition
    that satisfies the condition and has the property k, with the properties
    p1, ..., pn or null, in ascending order of the text of k.  Nodes without
    the property are left out. *)
Theorem ordered_cluster ws :
  plain_cond c = true -> isAvailable "FUNCTION_BODY" (where_ast c) = false -> Forall worker_ok ws ->
  exists op text published out,
    createExecutionPlan (ordered_ast v c props k) None "" = Ret (Some op) /\
    execute op no_aggregate = (Ret text, mkAggregate true "ASC" (column_name v k)) /\
    Forall2 (publishes text) ws published /\
    order_results (column_name v k) true ((fun rows => rows ++ [END]) <$> published) = Ret (result_text v props <$> out) /\
    out ≡ₚ concat (returned <$> ws) /\ sorted_nodes k out.
Proof.
  intros Hplain Hf Hws. destruct (workers_publish ws Hws) as (nss & H1 & H2 & H3).
  destruct (merge_results nss) as (all & Hout & Hp & Hs).
  - intros ns Hns. apply list_elem_of_lookup in Hns as [i Hi].
    destruct (Forall2_lookup_r _ _ _ _ _ H1 Hi) as (w & _ & _ & ?). done.
  - done.
  - intros ns n Hns Hn. apply list_elem_of_lookup in Hns as [i Hi].
    destruct (Forall2_lookup_r _ _ _ _ _ H1 Hi) as (w & _ & Hp & _). rewrite Hp in Hn.
    apply list_elem_of_In, List.filter_In in Hn as [Hn _]. apply List.filter_In in Hn as [Hn _].
    apply list_elem_of_In, list_elem_of_fmap in Hn as (d & -> & _). apply node_fields_strings.
  - exists (ordered_plan v c props k), (ordered_text v c props k), (result_texts <$> nss), all.
    split_and!; [by apply plan_of_ordered; [|apply props_some]|by apply execute_ordered|done|done| |done].
    rewrite Hp. clear -H1. induction H1 as [|w ns ws nss [Hw _] _ IH]; [done|]. rewrite fmap_cons. cbn. by rewrite Hw, IH.
Qed.
End cluster.
