(* ===== verification/SemanticAnalyzer.v ===== *)
(** * SemanticAnalyzer: the variables of a query

    Scopes (Scope.cpp, ScopeManager.cpp) and the check of declarations and
    uses (SemanticAnalyzer.cpp) of query/processor/cypher/semanticanalyzer.
    The analysis walks over the tree and fills the table of the current scope;
    the theory gives the list of declarations and uses of a tree, what it
    means for such a list to be well typed, and shows that the analysis
    accepts exactly the well-typed ones.  EXISTS opens a scope, of which
    nothing is left after it. *)
From Stdlib Require Import ZArith Ascii String Lia.
From stdpp Require Import base tactics numbers list strings gmap.
From S2P Require Import Prelude Json CypherPlan CypherPlanner.

(** ** Scopes *)

(** The scope stack, the current scope first; the parent of a scope is the one
    below it. *)
Definition scopes : Type := list (gmap string string).

Definition enterScope : M scopes unit := modify (fun s => ∅ :: s).
Definition exitScope : M scopes unit := modify (fun s => match s with [] => [] | _ :: r => r end).

(** [unordered_map::insert] does not overwrite. *)
Definition addSymbol (name type : string) : M scopes unit :=
  modify (fun s => match s with
                   | [] => []
                   | g :: r => match g !! name with Some _ => g :: r | None => <[name := type]> g :: r end
                   end).

Definition clearTable : M scopes unit := modify (fun s => match s with [] => [] | _ :: r => ∅ :: r end).

(** [at] of the table of the current scope only. *)
Definition getType (name : string) : M scopes string := fun s =>
  match s with
  | [] => (Undef, s)
  | g :: _ => match g !! name with Some t => (Ret t, s) | None => (Throw out_of_range, s) end
  end.

Fixpoint lookup_scopes (name : string) (s : scopes) : option string :=
  match s with
  | [] => None
  | g :: r => match g !! name with Some t => Some t | None => lookup_scopes name r end
  end.

Definition lookup_symbol (name : string) : M scopes (option string) := fun s => (Ret (lookup_scopes name s), s).

(** ** The analysis *)

Definition checkVariableDeclarations (name type : string) : M scopes bool :=
  o ← lookup_symbol name;
  match o with
  | None => _ ← addSymbol name type; mret true
  | Some t => mret (String.eqb t type)
  end.

(** A type of use and the type of a declaration. *)
Definition compatible (type t : string) : bool :=
  String.eqb type "ANY" || String.eqb t type ||
  String.eqb type "LOOKUP" && (String.eqb t "NODE" || String.eqb t "RELATIONSHIP" || String.eqb t "MAP").

Definition checkVariableUsage (name type : string) : M scopes bool :=
  o ← lookup_symbol name;
  match o with
  | None => mret false
  | Some t => mret (compatible type t)
  end.

(** [if (!analyze(...)) return false;] *)
Definition and_then {S} (c d : M S bool) : M S bool := c ≫= fun b : bool => if b then d else mret false.

Notation analyzer := (bool -> string -> M scopes bool).

Fixpoint analyze_all (kids : list analyzer) : M scopes bool :=
  match kids with [] => mret true | k :: r => and_then (k false "ANY") (analyze_all r) end.

Definition analyze_kid (kids : list analyzer) (i : nat) (canDefine : bool) (type : string) : M scopes bool :=
  k ← lift (deref (kids !! i)); k canDefine type.

(** The type of a projected expression. *)
Definition as_type (e : ASTNode) : string :=
  if has_type "LIST" e || has_type "LIST_COMPREHENSION" e then "LIST"
  else if has_type "PROPERTIES_MAP" e then "MAP" else "ANY".

(** The names WITH keeps, with their types; None: an expression without AS. *)
Fixpoint with_names (children : list ASTNode) (temp : gmap string string) : M scopes (option (gmap string string)) :=
  match children with
  | [] => mret (Some temp)
  | child :: r =>
      if has_type "AS" child then
        e ← lift (element 0 child);
        tempType ← (if has_type "VARIABLE" e then getType (value e)
                    else mret (if has_type "PROPERTIES_MAP" e then "MAP"
                               else if has_type "LIST" e then "LIST" else "ANY"));
        v ← lift (element 1 child);
        with_names r (match temp !! value v with Some _ => temp | None => <[value v := tempType]> temp end)
      else if has_type "VARIABLE" child then
        tempType ← getType (value child);
        with_names r (match temp !! value child with Some _ => temp | None => <[value child := tempType]> temp end)
      else mret None
  end.

(** [WITH]: the table becomes the projected names. *)
Definition rebind (root : ASTNode) : M scopes bool :=
  body ← lift (element 0 root); node ← lift (element 0 body);
  temp ← with_names (elements node) ∅;
  match temp with
  | None => mret false
  | Some temp => _ ← modify (fun s => match s with [] => [] | _ :: r => temp :: r end); mret true
  end.

Fixpoint analyze (root : ASTNode) (canDefine : bool) (type : string) : M scopes bool :=
  let 'Node nt v els := root in
  let kids := List.map analyze els in
  let first_is t := match els with e :: _ => has_type t e | [] => false end in
  if String.eqb nt "VARIABLE" && canDefine then checkVariableDeclarations v type
  else if String.eqb nt "VARIABLE" then checkVariableUsage v type
  else if String.eqb nt "AS" then
    e0 ← lift (element 0 root);
    and_then (analyze_kid kids 0 false "ANY")
      (e1 ← lift (element 1 root);
       if has_type "VARIABLE" e1 then analyze_kid kids 1 true (as_type e0) else mret false)
  else if String.eqb nt "YIELD" then
    e0 ← lift (element 0 root);
    and_then (if has_type "AS" e0 then analyze_kid kids 0 false "STRING" else mret true)
             (analyze_kid kids 0 true "STRING")
  else if String.eqb nt "=" then
    and_then (analyze_kid kids 0 true "ANY") (analyze_kid kids 1 false "ANY")
  else if String.eqb nt "NODE_PATTERN" && negb (length els =? 0)%nat then
    and_then (if first_is "VARIABLE" then analyze_kid kids 0 true "NODE" else mret true) (analyze_all (drop 1 kids))
  else if String.eqb nt "RELATIONSHIP_DETAILS" && negb (length els =? 0)%nat then
    and_then (if first_is "VARIABLE" then analyze_kid kids 0 true "RELATIONSHIP" else mret true) (analyze_all (drop 1 kids))
  else if String.eqb nt "LIST_ITERATE" then
    and_then (analyze_kid kids 0 true "ANY") (analyze_kid kids 1 false "ANY")
  else if String.eqb nt "NON_ARITHMETIC_OPERATOR" && (length els =? 0)%nat then undef
  else if String.eqb nt "NON_ARITHMETIC_OPERATOR" && first_is "VARIABLE" then
    e1 ← lift (element 1 root);
    if has_type "LIST_INDEX_RANGE" e1 then analyze_kid kids 0 false "LIST"
    else if has_type "LIST_INDEX" e1 then
      i ← lift (element 0 e1); if has_type "DECIMAL" i then analyze_kid kids 0 false "LIST" else mret true
    else if has_type "PROPERTY_LOOKUP" e1 then analyze_kid kids 0 false "LOOKUP"
    else mret true
  else if String.eqb nt "EXISTS" then
    _ ← enterScope; and_then (analyze_all kids) (_ ← exitScope; mret true)
  else if String.eqb nt "WITH" then and_then (analyze_all kids) (rebind root)
  else analyze_all kids.

(** [SemanticAnalyzer()] *)
Definition global_scope : scopes := [∅].

(** ** Declarations and uses *)

Inductive occurrence := Declares (name type : string) | Uses (name type : string).

Notation occurring := (bool -> string -> outcome (list occurrence)).

Fixpoint occ_all (kids : list occurring) : outcome (list occurrence) :=
  match kids with [] => Ret [] | k :: r => l ← k false "ANY"; l' ← occ_all r; Ret (l ++ l') end.

Definition occ_kid (kids : list occurring) (i : nat) (canDefine : bool) (type : string) : outcome (list occurrence) :=
  k ← deref (kids !! i); k canDefine type.

(** The declarations and uses of a tree without EXISTS and WITH, in the order
    of the analysis. *)
Fixpoint occurrences (root : ASTNode) (canDefine : bool) (type : string) : outcome (list occurrence) :=
  let 'Node nt v els := root in
  let kids := List.map occurrences els in
  let first_is t := match els with e :: _ => has_type t e | [] => false end in
  let two a b := l ← a; l' ← b; Ret (l ++ l') in
  if String.eqb nt "VARIABLE" && canDefine then Ret [Declares v type]
  else if String.eqb nt "VARIABLE" then Ret [Uses v type]
  else if String.eqb nt "AS" then
    e0 ← element 0 root; e1 ← element 1 root;
    if has_type "VARIABLE" e1 then two (occ_kid kids 0 false "ANY") (occ_kid kids 1 true (as_type e0)) else Undef
  else if String.eqb nt "YIELD" then
    e0 ← element 0 root;
    two (if has_type "AS" e0 then occ_kid kids 0 false "STRING" else Ret []) (occ_kid kids 0 true "STRING")
  else if String.eqb nt "=" then two (occ_kid kids 0 true "ANY") (occ_kid kids 1 false "ANY")
  else if String.eqb nt "NODE_PATTERN" && negb (length els =? 0)%nat then
    two (if first_is "VARIABLE" then occ_kid kids 0 true "NODE" else Ret []) (occ_all (drop 1 kids))
  else if String.eqb nt "RELATIONSHIP_DETAILS" && negb (length els =? 0)%nat then
    two (if first_is "VARIABLE" then occ_kid kids 0 true "RELATIONSHIP" else Ret []) (occ_all (drop 1 kids))
  else if String.eqb nt "LIST_ITERATE" then two (occ_kid kids 0 true "ANY") (occ_kid kids 1 false "ANY")
  else if String.eqb nt "NON_ARITHMETIC_OPERATOR" && (length els =? 0)%nat then Undef
  else if String.eqb nt "NON_ARITHMETIC_OPERATOR" && first_is "VARIABLE" then
    e1 ← element 1 root;
    if has_type "LIST_INDEX_RANGE" e1 then occ_kid kids 0 false "LIST"
    else if has_type "LIST_INDEX" e1 then
      i ← element 0 e1; if has_type "DECIMAL" i then occ_kid kids 0 false "LIST" else Ret []
    else if has_type "PROPERTY_LOOKUP" e1 then occ_kid kids 0 false "LOOKUP"
    else Ret []
  else if String.eqb nt "EXISTS" || String.eqb nt "WITH" then Undef
  else occ_all kids.

(** Checking a list of occurrences. *)
Definition check (o : occurrence) : M scopes bool :=
  match o with
  | Declares x t => checkVariableDeclarations x t
  | Uses x t => checkVariableUsage x t
  end.

Fixpoint check_all (l : list occurrence) : M scopes bool :=
  match l with [] => mret true | o :: r => and_then (check o) (check_all r) end.

(** ** The analysis of a tree is the check of its occurrences *)

Section ast_induction.
Context (P : ASTNode -> Prop) (Hnode : forall t v els, Forall P els -> P (Node t v els)).

Fixpoint ast_ind' (a : ASTNode) : P a :=
  match a with
  | Node t v els => Hnode t v els
      ((fix go els : Forall P els :=
         match els with [] => Forall_nil_2 P | x :: r => Forall_cons_2 P x r (ast_ind' x) (go r) end) els)
  end.
End ast_induction.

Lemma and_then_ext {S} (c c' d d' : M S bool) s :
  c s = c' s -> (forall s', d s' = d' s') -> and_then c d s = and_then c' d' s.
Proof.
  intros Hc Hd. unfold and_then, mbind, M_bind. rewrite Hc. destruct (c' s) as [[[]| | | | |] s']; try done.
Qed.

Lemma check_all_app l l' s : check_all (l ++ l') s = and_then (check_all l) (check_all l') s.
Proof.
  revert s. induction l as [|o l IH]; intros s; [done|]. cbn [app check_all].
  unfold and_then at 1 3. unfold and_then, mbind, M_bind in *. destruct (check o s) as [[[]| | | | |] s']; done.
Qed.

Lemma and_then_true {S} (d : M S bool) s : and_then (mret true) d s = d s.
Proof. done. Qed.

Lemma map_lookup {A B} (f : A -> B) l i : List.map f l !! i = f <$> (l !! i).
Proof. revert i. induction l as [|x l IH]; intros [|i]; try done. apply IH. Qed.

Definition checks (a : ASTNode) : Prop := forall canDefine type l s,
  occurrences a canDefine type = Ret l -> analyze a canDefine type s = check_all l s.

Lemma kid_checks els i canDefine type l s :
  Forall checks els -> occ_kid (List.map occurrences els) i canDefine type = Ret l ->
  analyze_kid (List.map analyze els) i canDefine type s = check_all l s.
Proof.
  unfold occ_kid, analyze_kid, lift. intros Hels H. rewrite map_lookup in H. rewrite map_lookup.
  destruct (els !! i) as [e|] eqn:E; [|done]. cbn in H |- *. unfold mbind, M_bind. cbn.
  rewrite Forall_forall in Hels. apply Hels; [by eapply list_elem_of_lookup_2|done].
Qed.

Lemma all_checks els l s :
  Forall checks els -> occ_all (List.map occurrences els) = Ret l -> analyze_all (List.map analyze els) s = check_all l s.
Proof.
  intros Hels. revert l s. induction Hels as [|e els He _ IH]; intros l s H; [by injection H as <-|].
  cbn [List.map occ_all] in H. apply outcome_bind_Ret_inv in H as (l1 & H1 & H).
  apply outcome_bind_Ret_inv in H as (l2 & H2 & [= <-]). rewrite check_all_app. cbn [List.map analyze_all].
  apply and_then_ext; [by apply He|]. intros s'. by apply IH.
Qed.

Lemma drop_checks els l s :
  Forall checks els -> occ_all (drop 1 (List.map occurrences els)) = Ret l ->
  analyze_all (drop 1 (List.map analyze els)) s = check_all l s.
Proof.
  intros Hels H. destruct Hels as [|e els He Hels]; [cbn in *; by injection H as <-|]. cbn in *. by apply all_checks.
Qed.

(** Two parts, one after the other. *)
Lemma two_checks (a b : outcome (list occurrence)) c d l s :
  (l1 ← a; l2 ← b; Ret (l1 ++ l2)) = Ret l ->
  (forall l1, a = Ret l1 -> c s = check_all l1 s) -> (forall l2 s', b = Ret l2 -> d s' = check_all l2 s') ->
  and_then c d s = check_all l s.
Proof.
  intros H Hc Hd. apply outcome_bind_Ret_inv in H as (l1 & H1 & H). apply outcome_bind_Ret_inv in H as (l2 & H2 & [= <-]).
  rewrite check_all_app. apply and_then_ext; auto.
Qed.

Lemma lift_Ret {S A B} (o : outcome A) a (f : A -> M S B) s : o = Ret a -> (lift o ≫= f) s = f a s.
Proof. by intros ->. Qed.

(** A single occurrence. *)
Lemma and_then_mret {S} (c : M S bool) s : and_then c (mret true) s = c s.
Proof. unfold and_then, mbind, M_bind. by destruct (c s) as [[[]| | | | |] ?]. Qed.

Ltac two := eapply two_checks; [eassumption|intros ? ?|intros ? ? ?]; [..|by (eapply kid_checks || eapply drop_checks)].

Lemma analyze_checks a : checks a.
Proof.
  induction a as [nt v els IH] using ast_ind'. intros canDefine type l s H. cbn [analyze occurrences] in *.
  destruct (String.eqb nt "VARIABLE" && canDefine) eqn:?; [injection H as <-; cbn [check_all]; by rewrite and_then_mret|].
  destruct (String.eqb nt "VARIABLE"); [injection H as <-; cbn [check_all]; by rewrite and_then_mret|].
  destruct (String.eqb nt "AS").
  { apply outcome_bind_Ret_inv in H as (e0 & E0 & H). apply outcome_bind_Ret_inv in H as (e1 & E1 & H).
    rewrite (lift_Ret _ _ _ _ E0). destruct (has_type "VARIABLE" e1) eqn:Ev; [|done].
    eapply two_checks; [exact H|intros; by eapply kid_checks|]. intros l2 s' Hl2.
    rewrite (lift_Ret _ _ _ _ E1), Ev. by eapply kid_checks. }
  destruct (String.eqb nt "YIELD").
  { apply outcome_bind_Ret_inv in H as (e0 & E0 & H). rewrite (lift_Ret _ _ _ _ E0). two.
    destruct (has_type "AS" e0); [by eapply kid_checks|]. simplify_eq. done. }
  destruct (String.eqb nt "="); [two; by eapply kid_checks|].
  destruct (String.eqb nt "NODE_PATTERN" && _) eqn:?.
  { two. destruct (match els with [] => false | e :: _ => has_type "VARIABLE" e end); [by eapply kid_checks|]. by simplify_eq. }
  destruct (String.eqb nt "RELATIONSHIP_DETAILS" && _) eqn:?.
  { two. destruct (match els with [] => false | e :: _ => has_type "VARIABLE" e end); [by eapply kid_checks|]. by simplify_eq. }
  destruct (String.eqb nt "LIST_ITERATE"); [two; by eapply kid_checks|].
  destruct (String.eqb nt "NON_ARITHMETIC_OPERATOR" && (length els =? 0)%nat); [done|].
  destruct (String.eqb nt "NON_ARITHMETIC_OPERATOR" && match els with [] => false | e :: _ => has_type "VARIABLE" e end).
  { apply outcome_bind_Ret_inv in H as (e1 & E1 & H). rewrite (lift_Ret _ _ _ _ E1).
    destruct (has_type "LIST_INDEX_RANGE" e1); [by eapply kid_checks|]. destruct (has_type "LIST_INDEX" e1).
    - apply outcome_bind_Ret_inv in H as (i & Ei & H). rewrite (lift_Ret _ _ _ _ Ei).
      destruct (has_type "DECIMAL" i); [by eapply kid_checks|by simplify_eq].
    - destruct (has_type "PROPERTY_LOOKUP" e1); [by eapply kid_checks|by simplify_eq]. }
  destruct (String.eqb nt "EXISTS"); [done|]. destruct (String.eqb nt "WITH"); [done|]. cbn [orb] in H.
  by eapply all_checks.
Qed.

(** ** Well-typed occurrences *)

(** What a table says about an occurrence. *)
Definition typed_in (env : gmap string string) (o : occurrence) : Prop :=
  match o with
  | Declares x t => env !! x = Some t
  | Uses x t => exists t', env !! x = Some t' /\ compatible t t' = true
  end.

(** Every use is of a variable that is known before or has been declared. *)
Definition declared_first (env : gmap string string) (l : list occurrence) : Prop :=
  forall i x t, l !! i = Some (Uses x t) ->
    is_Some (env !! x) \/ exists j t', (j < i)%nat /\ l !! j = Some (Declares x t').

Definition well_typed (env : gmap string string) (l : list occurrence) : Prop :=
  declared_first env l /\ exists env', env ⊆ env' /\ Forall (typed_in env') l.

(** The symbols in scope. *)
Fixpoint symbols (s : scopes) : gmap string string :=
  match s with [] => ∅ | g :: r => g ∪ symbols r end.

Lemma symbols_lookup x s : symbols s !! x = lookup_scopes x s.
Proof.
  induction s as [|g s IH]; [apply lookup_empty|]. cbn. rewrite lookup_union, <- IH.
  destruct (g !! x); cbn; by destruct (symbols s !! x).
Qed.

Lemma declare_new x t s :
  s <> [] -> symbols s !! x = None ->
  exists s', addSymbol x t s = (Ret tt, s') /\ s' <> [] /\ symbols s' = <[x := t]> (symbols s) /\ tail s' = tail s.
Proof.
  intros Hs Hx. destruct s as [|g s]; [done|]. cbn [symbols] in Hx. apply lookup_union_None in Hx as [Hg Hr].
  unfold addSymbol, modify. rewrite Hg. eexists. split_and!; [done|done| |done].
  cbn [symbols]. by rewrite insert_union_l.
Qed.

(** What an occurrence adds to a table, and when it fits the table. *)
Definition extend (o : occurrence) (env : gmap string string) : gmap string string :=
  match o with Declares x t => <[x := t]> env | Uses _ _ => env end.

Definition admissible (env : gmap string string) (o : occurrence) : Prop :=
  match o with
  | Declares x t => env !! x = None \/ env !! x = Some t
  | Uses x t => exists t0, env !! x = Some t0 /\ compatible t t0 = true
  end.

Lemma extend_subseteq env o : admissible env o -> env ⊆ extend o env.
Proof. destruct o as [x t|x t]; [|done]. intros [H|H]; cbn; [by apply insert_subseteq|by rewrite insert_id]. Qed.

Lemma extend_typed env o : admissible env o -> typed_in (extend o env) o.
Proof. destruct o as [x t|x t]; [|done]. intros _. apply lookup_insert_eq. Qed.

Lemma typed_weaken env env' o : env ⊆ env' -> typed_in env o -> typed_in env' o.
Proof.
  intros Hs. destruct o as [x t|x t]; cbn; [intros; by eapply lookup_weaken|].
  intros (t' & ? & ?). exists t'. split; [by eapply lookup_weaken|done].
Qed.

Lemma extend_least env env' o : env ⊆ env' -> typed_in env' o -> extend o env ⊆ env'.
Proof. intros Hs. destruct o as [x t|x t]; cbn; [|done]. intros Ht. by apply insert_subseteq_l. Qed.

Lemma declared_first_cons env o l :
  admissible env o -> declared_first env (o :: l) <-> declared_first (extend o env) l.
Proof.
  intros Ho. split.
  - intros H i y u Hi. destruct (H (S i) y u Hi) as [Hk|(j & u' & Hj & Hl)].
    + left. destruct Hk as [t Ht]. exists t. by eapply lookup_weaken, extend_subseteq.
    + destruct j as [|j]; [|right; exists j, u'; split; [lia|done]].
      cbn in Hl. injection Hl as ->. left. cbn. by rewrite lookup_insert_eq.
  - intros H [|i] y u Hi; cbn in Hi.
    + injection Hi as ->. left. destruct Ho as (t0 & -> & _). by eexists.
    + destruct (H i y u Hi) as [Hk|(j & u' & Hj & Hl)]; [|right; exists (S j), u'; split; [lia|done]].
      destruct o as [x t|x t]; [|by left]. cbn in Hk. destruct (decide (x = y)) as [->|Hne].
      * right. exists 0%nat, t. split; [lia|done].
      * left. by rewrite lookup_insert_ne in Hk.
Qed.

Lemma well_typed_cons env o l : admissible env o -> well_typed env (o :: l) <-> well_typed (extend o env) l.
Proof.
  intros Ho. unfold well_typed. rewrite declared_first_cons by done. split; intros (H1 & env' & H2 & H3); (split; [done|]).
  - apply Forall_cons in H3 as [H3 H4]. exists env'. split; [by apply extend_least|done].
  - exists env'. split; [etransitivity; [by apply extend_subseteq|done]|].
    constructor; [by eapply typed_weaken, extend_typed|done].
Qed.

Lemma not_admissible env o l : ~ admissible env o -> ~ well_typed env (o :: l).
Proof.
  intros Ho (H1 & env' & H2 & H3). apply Ho. apply Forall_cons in H3 as [H3 _]. destruct o as [x t|x t]; cbn in *.
  - destruct (env !! x) as [t0|] eqn:E; [right|by left]. by rewrite (lookup_weaken _ _ _ _ E H2) in H3.
  - destruct (H1 0%nat x t eq_refl) as [[t0 E]|(j & ? & Hj & _)]; [|lia].
    destruct H3 as (t' & H3 & H4). rewrite (lookup_weaken _ _ _ _ E H2) in H3. injection H3 as <-. by exists t0.
Qed.

(** One occurrence. *)
Lemma check_step o s :
  s <> [] ->
  exists b s', check o s = (Ret b, s') /\ s' <> [] /\ tail s' = tail s /\
    if b : bool then admissible (symbols s) o /\ symbols s' = extend o (symbols s) else ~ admissible (symbols s) o.
Proof.
  intros Hs. destruct o as [x t|x t]; cbn [check];
    unfold checkVariableDeclarations, checkVariableUsage, lookup_symbol, mbind, M_bind, admissible;
    rewrite <- symbols_lookup; destruct (symbols s !! x) as [t0|] eqn:E.
  - exists (String.eqb t0 t), s. split_and!; try done. destruct (String.eqb_spec t0 t) as [->|Hne].
    + split; [by right|]. cbn. by rewrite insert_id.
    + intros [|]; congruence.
  - destruct (declare_new x t s Hs E) as (s1 & -> & ? & ? & ?). exists true, s1. by split_and!; [| | |left|].
  - exists (compatible t t0), s. split_and!; try done. destruct (compatible t t0) eqn:Ec; [by split; [exists t0|]|].
    intros (? & ? & ?). congruence.
  - exists false, s. split_and!; try done. by intros (? & ? & _).
Qed.

Lemma check_all_spec l s :
  s <> [] ->
  exists b s', check_all l s = (Ret b, s') /\
    (b = true <-> well_typed (symbols s) l) /\
    (b = true -> symbols s ⊆ symbols s' /\ Forall (typed_in (symbols s')) l).
Proof.
  revert s. induction l as [|o l IH]; intros s Hs.
  { exists true, s. split_and!; try done. split; [|done]. intros _. split; [by intros i x t|]. by exists (symbols s). }
  destruct (check_step o s Hs) as (b & s1 & Hc & Hs1 & _ & Hb). cbn [check_all].
  unfold and_then, mbind, M_bind. rewrite Hc. destruct b.
  - destruct Hb as [Hadm Hsym]. destruct (IH s1 Hs1) as (b & s' & -> & Hbw & Hok). exists b, s'.
    rewrite Hsym in Hbw, Hok. split; [done|]. split; [by rewrite well_typed_cons|]. intros Hb1.
    destruct (Hok Hb1) as [H1 H2]. split; [etransitivity; [by apply extend_subseteq|done]|].
    constructor; [by eapply typed_weaken, extend_typed|done].
  - exists false, s1. split_and!; try done. split; [done|]. by intros ?%not_admissible.
Qed.

(** C15. The analysis is a sound and complete type check of the variables of a
    query: on a tree without EXISTS and WITH it always answers, and it
    accepts exactly when every use of a variable comes after a declaration
    and one type per variable explains all declarations and uses; the table it
    leaves is such a typing. *)
Theorem analyze_types root s l :
  s <> [] -> occurrences root false "ANY" = Ret l ->
  exists b s', analyze root false "ANY" s = (Ret b, s') /\
    (b = true <-> well_typed (symbols s) l) /\
    (b = true -> symbols s ⊆ symbols s' /\ Forall (typed_in (symbols s')) l).
Proof.
  intros Hs Hl. rewrite (analyze_checks root _ _ _ _ Hl).
  by apply check_all_spec.
Qed.

(** ** Scopes come and go *)

(** A computation that, when it answers true, leaves the scopes below the
    current one as they were. *)
Definition stable (c : M scopes bool) : Prop := forall s s',
  c s = (Ret true, s') -> s <> [] -> s' <> [] /\ tail s' = tail s.

Create HintDb scopes discriminated.

Lemma stable_mret b : stable (mret b).
Proof. by intros s s' [= _ <-]. Qed.

Lemma stable_undef : stable undef.
Proof. by intros s s'. Qed.

Lemma stable_and_then c d : stable c -> stable d -> stable (and_then c d).
Proof.
  intros Hc Hd s s' H Hs. unfold and_then in H. apply bind_Ret_inv in H as ([] & s1 & H1 & H); [|done].
  destruct (Hc _ _ H1 Hs) as [Hs1 E1]. destruct (Hd _ _ H Hs1) as [Hs' E']. by rewrite E', E1.
Qed.

Lemma stable_lift {A} (o : outcome A) f : (forall a, o = Ret a -> stable (f a)) -> stable (lift o ≫= f).
Proof. intros Hf s s' H. apply bind_Ret_inv in H as (a & s1 & [= -> <-] & H). by eapply Hf. Qed.

Lemma stable_check o : stable (check o).
Proof.
  intros s s' H Hs. destruct (check_step o s Hs) as (b & s1 & H1 & ? & ? & _). rewrite H1 in H. by injection H as -> <-.
Qed.

#[export] Hint Resolve stable_mret stable_undef stable_and_then stable_lift stable_check : scopes.

Lemma with_names_scopes children temp s o s' : with_names children temp s = (o, s') -> s' = s.
Proof.
  revert temp s o s'. induction children as [|child r IH]; intros temp s o s'; cbn [with_names]; [by intros [= _ <-]|].
  assert (forall nm s, (getType nm s).2 = s) as Hg.
  { intros nm [|g q]; cbn; [done|]. by destruct (g !! nm). }
  unfold lift, mbind, M_bind. destruct (has_type "AS" child).
  - destruct (element 0 child) as [e| | | | |]; try by intros [= _ <-].
    destruct (has_type "VARIABLE" e).
    + specialize (Hg (value e) s). destruct (getType (value e) s) as [[]]; cbn in Hg; subst; try by intros [= _ <-].
      destruct (element 1 child); try by intros [= _ <-]. apply IH.
    + cbn. destruct (element 1 child); try by intros [= _ <-]. apply IH.
  - destruct (has_type "VARIABLE" child); [|by intros [= _ <-]].
    specialize (Hg (value child) s). destruct (getType (value child) s) as [[]]; cbn in Hg; subst; try by intros [= _ <-].
    apply IH.
Qed.

Lemma stable_rebind root : stable (rebind root).
Proof.
  unfold rebind. apply stable_lift. intros body _. apply stable_lift. intros node _ s s' H Hs.
  apply bind_Ret_inv in H as (temp & s1 & H1 & H). apply with_names_scopes in H1 as ->.
  destruct temp as [temp|]; [|done]. destruct s as [|g s]; [done|]. by injection H as <-.
Qed.

Definition kid_stable (a : ASTNode) : Prop := forall canDefine type, stable (analyze a canDefine type).

Lemma stable_kid els i canDefine type :
  Forall kid_stable els -> stable (analyze_kid (List.map analyze els) i canDefine type).
Proof.
  intros Hels. unfold analyze_kid. apply stable_lift. intros k Hk. rewrite map_lookup in Hk.
  destruct (els !! i) as [e|] eqn:E; [|done]. injection Hk as <-. rewrite Forall_forall in Hels.
  apply Hels. by eapply list_elem_of_lookup_2.
Qed.

Lemma stable_all els : Forall kid_stable els -> stable (analyze_all (List.map analyze els)).
Proof. induction 1 as [|e els He _ IH]; cbn; eauto with scopes. Qed.

Lemma stable_drop els : Forall kid_stable els -> stable (analyze_all (drop 1 (List.map analyze els))).
Proof. intros Hels. destruct Hels as [|e els He Hels]; [apply stable_mret|]. by apply stable_all. Qed.

#[export] Hint Resolve stable_rebind stable_kid stable_all stable_drop : scopes.

Lemma exists_scope els s s' :
  Forall kid_stable els ->
  (_ ← enterScope; and_then (analyze_all (List.map analyze els)) (_ ← exitScope; mret true)) s = (Ret true, s') -> s' = s.
Proof.
  intros Hels H. apply bind_Ret_inv in H as ([] & s1 & [= <-] & H). unfold and_then in H.
  apply bind_Ret_inv in H as ([] & s2 & H2 & H); [|done]. destruct (stable_all _ Hels _ _ H2) as [Hne Ht]; [done|].
  apply bind_Ret_inv in H as ([] & s3 & [= <-] & [= <-]). destruct s2 as [|g s2]; [done|]. exact Ht.
Qed.

Lemma analyze_stable a : kid_stable a.
Proof.
  induction a as [nt v els IH] using ast_ind'. intros canDefine type. cbn [analyze].
  repeat match goal with
  | |- stable (if ?b then _ else _) => destruct b
  | |- stable (and_then _ _) => apply stable_and_then
  | |- stable (lift _ ≫= _) => apply stable_lift; intros
  end; eauto with scopes; try (apply (stable_check (Declares v type)) || apply (stable_check (Uses v type))).
  intros s s' H Hs. by rewrite (exists_scope els s s').
Qed.

(** EXISTS: what a sub-query declares is gone after it: when the analysis
    of an EXISTS accepts, the scopes are the same as before, whatever the
    sub-query declares, renames with WITH or nests. *)
Theorem exists_does_not_leak v els canDefine type s s' :
  analyze (Node "EXISTS" v els) canDefine type s = (Ret true, s') -> s' = s.
Proof. intros H. eapply (exists_scope els); [|exact H]. apply Forall_forall. intros a _. apply analyze_stable. Qed.
