(* ===== verification/AstBuilder.v ===== *)
(** * AstBuilder: from the parse tree of a query to its syntax tree

    ASTBuilder.cpp of query/processor/cypher/astbuilder.  The lexer and the
    parser are generated by ANTLR from the openCypher grammar and are not part
    of the repository; what the builder takes from them is the parse tree: a
    context per grammar rule with its children in order, and a terminal per
    token.  [ctx->oC_X()] selects the children of a rule, [ctx->ALL()] the
    tokens of a kind, and [getText] is the concatenation of the tokens below.

    Each method [visitOC_X] is a definition over the children of its context,
    every child with the outcome of its own visit: the method that visits a
    child is the one of the rule of that child, the visits have no effect but
    the nodes they make, and a method only looks at the visits it calls.
    [accept] ties the methods together.  A method called with a null context
    reaches undefined behaviour. *)
From Stdlib Require Import ZArith Ascii String Lia.
From stdpp Require Import base tactics numbers list strings.
From S2P Require Import Prelude Json CypherPlan.

(** ** Parse trees *)

(** The rules of the grammar that the builder names. *)
Inductive rule :=
| OC_Cypher | OC_Statement | OC_Query | OC_RegularQuery | OC_Union | OC_SingleQuery
| OC_SinglePartQuery | OC_MultiPartQuery | OC_UpdatingClause | OC_ReadingClause | OC_Match | OC_Unwind
| OC_Merge | OC_MergeAction | OC_Create | OC_Set | OC_SetItem | OC_Delete | OC_Remove | OC_RemoveItem
| OC_InQueryCall | OC_StandaloneCall | OC_YieldItems | OC_YieldItem | OC_With | OC_Return
| OC_ProjectionBody | OC_ProjectionItems | OC_ProjectionItem | OC_Order | OC_Skip | OC_Limit
| OC_SortItem | OC_Where | OC_Pattern | OC_PatternPart | OC_AnonymousPatternPart | OC_PatternElement
| OC_RelationshipsPattern | OC_NodePattern | OC_PatternElementChain | OC_RelationshipPattern
| OC_RelationshipDetail | OC_Properties | OC_RelationshipTypes | OC_NodeLabels | OC_NodeLabel
| OC_RangeLiteral | OC_LabelName | OC_RelTypeName | OC_PropertyExpression | OC_Expression
| OC_OrExpression | OC_XorExpression | OC_AndExpression | OC_NotExpression | OC_ComparisonExpression
| OC_PartialComparisonExpression | OC_StringListNullPredicateExpression | OC_StringPredicateExpression
| OC_ListPredicateExpression | OC_NullPredicateExpression | OC_AddOrSubtractExpression
| OC_MultiplyDivideModuloExpression | OC_PowerOfExpression | OC_UnaryAddOrSubtractExpression
| OC_NonArithmeticOperatorExpression | OC_ListOperatorExpression | OC_PropertyLookup | OC_Atom
| OC_CaseExpression | OC_CaseAlternative | OC_ListComprehension | OC_PatternComprehension
| OC_Quantifier | OC_FilterExpression | OC_PatternPredicate | OC_ParenthesizedExpression | OC_IdInColl
| OC_FunctionInvocation | OC_FunctionName | OC_ExistentialSubquery | OC_ExplicitProcedureInvocation
| OC_ImplicitProcedureInvocation | OC_ProcedureResultField | OC_ProcedureName | OC_Namespace
| OC_Variable | OC_Literal | OC_BooleanLiteral | OC_NumberLiteral | OC_IntegerLiteral | OC_DoubleLiteral
| OC_ListLiteral | OC_MapLiteral | OC_PropertyKeyName | OC_Parameter | OC_SchemaName | OC_ReservedWord
| OC_SymbolicName | OC_LeftArrowHead | OC_RightArrowHead | OC_Dash.

Scheme Equality for rule.

#[export] Instance rule_decision : EqDecision rule := rule_eq_dec.

(** A token has its kind, empty for the anonymous ones, and its text. *)
Inductive tree :=
| Rule (r : rule) (children : list tree)
| Terminal (symbol text : string).

Fixpoint getText (t : tree) : string :=
  match t with
  | Rule _ children => String.concat "" (List.map getText children)
  | Terminal _ s => s
  end.

(** What a visit returns: [std::any] with a node, or with a name. *)
Inductive any := AnyNode (n : ASTNode) | AnyString (s : string).

(** ** Contexts *)

Definition context : Type := list (tree * outcome any).

Definition is_rule (r : rule) (t : tree) : bool :=
  match t with Rule s _ => rule_beq s r | Terminal _ _ => false end.
Definition is_token (k : string) (t : tree) : bool :=
  match t with Rule _ _ => false | Terminal s _ => String.eqb s k end.

Section contexts.
Context (ctx : context).

(** The visits of [ctx->oC_X()] where the rule may occur several times. *)
Definition all_of (r : rule) : list (outcome any) := snd <$> List.filter (fun k => is_rule r k.1) ctx.
Definition count_of (r : rule) : nat := length (all_of r).
Definition has (r : rule) : bool := negb (Nat.eqb (count_of r) 0).

(** The visit of [ctx->oC_X(i)], of [ctx->oC_X()[i]] and of [ctx->oC_X()]. *)
Definition nth_of (r : rule) (i : nat) : outcome any := default Undef (all_of r !! i).
Definition the (r : rule) : outcome any := nth_of r 0.
Definition optional (r : rule) : list (outcome any) := if has r then [the r] else [].

Definition tokens (k : string) : nat := length (List.filter (fun c => is_token k c.1) ctx).
Definition token (k : string) : bool := negb (Nat.eqb (tokens k) 0).

Definition text_of : string := String.concat "" (List.map (fun c => getText c.1) ctx).

(** [ctx->getText().find(s) != npos] *)
Definition find (s : string) : bool := match String.index 0 s text_of with Some _ => true | None => false end.

(** [ctx->children[0]->getText() == s] *)
Definition first_text : outcome string := match ctx with [] => Undef | (c, _) :: _ => Ret (getText c) end.

Definition first_of (rs : list rule) (otherwise : outcome any) : outcome any :=
  match List.find has rs with Some r => the r | None => otherwise end.
End contexts.

(** ** Nodes *)

Definition any_cast_node (a : any) : outcome ASTNode :=
  match a with AnyNode n => Ret n | AnyString _ => Throw bad_any_cast end.
Definition any_cast_string (a : any) : outcome string :=
  match a with AnyString s => Ret s | AnyNode _ => Throw bad_any_cast end.

(** [new ASTInternalNode(type)] and an [addElements] for every visit. *)
Definition ASTInternalNode (type : string) (visits : list (outcome any)) : outcome any :=
  l ← traverse (fun o => a ← o; any_cast_node a) visits;
  Ret (AnyNode (Node type "" l)).

Definition ASTLeafNoValue (type : string) : outcome any := Ret (AnyNode (Node type "" [])).
Definition ASTLeafValue (type value : string) : outcome any := Ret (AnyNode (Node type value [])).

(** A leaf whose value is the name that a visit returned. *)
Definition leaf_of (type : string) (o : outcome any) : outcome any :=
  a ← o; s ← any_cast_string a; ASTLeafValue type s.

(** ** The methods *)

Section methods.
Context (ctx : context).

(** *** Queries and clauses *)

Definition visitOC_Cypher : outcome any := the ctx OC_Statement.
Definition visitOC_Statement : outcome any := the ctx OC_Query.
Definition visitOC_Query : outcome any := first_of ctx [OC_RegularQuery] (the ctx OC_StandaloneCall).

Definition visitOC_RegularQuery : outcome any :=
  if has ctx OC_Union then ASTInternalNode "UNION" (the ctx OC_SingleQuery :: all_of ctx OC_Union)
  else the ctx OC_SingleQuery.

Definition visitOC_Union : outcome any :=
  if token ctx "ALL" then ASTInternalNode "ALL" [the ctx OC_SingleQuery] else the ctx OC_SingleQuery.

Definition visitOC_SingleQuery : outcome any := first_of ctx [OC_MultiPartQuery] (the ctx OC_SinglePartQuery).

Definition visitOC_SinglePartQuery : outcome any :=
  ASTInternalNode "SINGLE_QUERY"
    (all_of ctx OC_ReadingClause ++ all_of ctx OC_UpdatingClause ++ optional ctx OC_Return).

(** The loop over the children: [node] holds the finished parts, [newNode]
    the elements of the part being built. *)
Fixpoint multi_parts (children : context) (withIndex readIndex updateIndex : nat)
    (node newNode : list (outcome any)) : list (outcome any) :=
  match children with
  | (c, _) :: ((next, _) :: _) as rest =>
      if is_rule OC_With c then
        let part := ASTInternalNode "SINGLE_QUERY" (newNode ++ [nth_of ctx OC_With withIndex]) in
        if is_rule OC_SinglePartQuery next then node ++ [part]
        else multi_parts rest (S withIndex) readIndex updateIndex (node ++ [part]) []
      else if is_rule OC_ReadingClause c then
        multi_parts rest withIndex (S readIndex) updateIndex node
          (newNode ++ [nth_of ctx OC_ReadingClause readIndex])
      else if is_rule OC_UpdatingClause c then
        multi_parts rest withIndex readIndex (S updateIndex) node
          (newNode ++ [nth_of ctx OC_UpdatingClause updateIndex])
      else multi_parts rest withIndex readIndex updateIndex node newNode
  | _ => node
  end.

Definition visitOC_MultiPartQuery : outcome any :=
  ASTInternalNode "MULTI_PART_QUERY" (multi_parts ctx 0 0 0 [] [] ++ [the ctx OC_SinglePartQuery]).

Definition visitOC_UpdatingClause : outcome any :=
  first_of ctx [OC_Create; OC_Delete; OC_Merge; OC_Remove] (the ctx OC_Set).
Definition visitOC_ReadingClause : outcome any := first_of ctx [OC_Match; OC_Unwind] (the ctx OC_InQueryCall).

Definition visitOC_Match : outcome any :=
  ASTInternalNode "MATCH"
    ((if token ctx "OPTIONAL" then [ASTLeafNoValue "OPTIONAL"] else []) ++
     [the ctx OC_Pattern] ++ optional ctx OC_Where).

Definition visitOC_Unwind : outcome any :=
  ASTInternalNode "UNWIND" [ASTInternalNode "AS" [the ctx OC_Expression; the ctx OC_Variable]].

Definition visitOC_Merge : outcome any :=
  ASTInternalNode "MERGE" (the ctx OC_PatternPart :: all_of ctx OC_MergeAction).
Definition visitOC_MergeAction : outcome any :=
  ASTInternalNode (if token ctx "CREATE" then "ON_CREATE" else "ON_MATCH") [the ctx OC_Set].
Definition visitOC_Create : outcome any := ASTInternalNode "CREATE" [the ctx OC_Pattern].

Definition visitOC_Set : outcome any :=
  if Nat.ltb 1 (count_of ctx OC_SetItem) then ASTInternalNode "MULTIPLE_SET" (all_of ctx OC_SetItem)
  else nth_of ctx OC_SetItem 0.

Definition visitOC_SetItem : outcome any :=
  if has ctx OC_PropertyExpression then ASTInternalNode "SET" [the ctx OC_PropertyExpression; the ctx OC_Expression]
  else if find ctx "+=" then ASTInternalNode "SET_+=" [the ctx OC_Variable; the ctx OC_Expression]
  else if find ctx "=" then ASTInternalNode "SET_=" [the ctx OC_Variable; the ctx OC_Expression]
  else ASTInternalNode "SET" [the ctx OC_Variable; the ctx OC_NodeLabels].

Definition visitOC_Delete : outcome any :=
  let deleteNode := ASTInternalNode "DELETE" (all_of ctx OC_Expression) in
  if token ctx "DETACH" then ASTInternalNode "DETACH" [deleteNode] else deleteNode.

Definition visitOC_Remove : outcome any :=
  if Nat.ltb 1 (count_of ctx OC_RemoveItem) then ASTInternalNode "REMOVE_LIST" (all_of ctx OC_RemoveItem)
  else nth_of ctx OC_RemoveItem 0.

Definition visitOC_RemoveItem : outcome any :=
  if has ctx OC_Variable then ASTInternalNode "REMOVE" [the ctx OC_Variable; the ctx OC_NodeLabels]
  else ASTInternalNode "REMOVE" [the ctx OC_PropertyExpression].

Definition visitOC_InQueryCall : outcome any :=
  ASTInternalNode "CALL" (the ctx OC_ExplicitProcedureInvocation :: optional ctx OC_YieldItems).

Definition visitOC_StandaloneCall : outcome any :=
  let results :=
    if has ctx OC_YieldItems then [the ctx OC_YieldItems]
    else if find ctx "*" then [ASTLeafNoValue "*"] else [] in
  if has ctx OC_ExplicitProcedureInvocation then
    ASTInternalNode "CALL" (the ctx OC_ExplicitProcedureInvocation :: results)
  else ASTInternalNode "CALL" (the ctx OC_ImplicitProcedureInvocation :: results).

Definition visitOC_YieldItems : outcome any :=
  ASTInternalNode "YIELD_ITEMS" (all_of ctx OC_YieldItem ++ optional ctx OC_Where).

Definition visitOC_YieldItem : outcome any :=
  if has ctx OC_ProcedureResultField then
    ASTInternalNode "YIELD" [ASTInternalNode "AS" [the ctx OC_ProcedureResultField; the ctx OC_Variable]]
  else ASTInternalNode "YIELD" [the ctx OC_Variable].

(** *** Projections *)

Definition visitOC_With : outcome any :=
  ASTInternalNode "WITH" (the ctx OC_ProjectionBody :: optional ctx OC_Where).
Definition visitOC_Return : outcome any := the ctx OC_ProjectionBody.

Definition visitOC_ProjectionBody : outcome any :=
  ASTInternalNode "RETURN"
    ((if token ctx "DISTINCT" then ASTInternalNode "DISTINCT" [the ctx OC_ProjectionItems]
      else the ctx OC_ProjectionItems) ::
     optional ctx OC_Order ++ optional ctx OC_Skip ++ optional ctx OC_Limit).

Definition visitOC_ProjectionItems : outcome any :=
  t ← first_text ctx;
  ASTInternalNode "RETURN_BODY"
    ((if String.eqb t "*" then [ASTLeafNoValue "*"] else []) ++ all_of ctx OC_ProjectionItem).

Definition visitOC_ProjectionItem : outcome any :=
  if has ctx OC_Variable then ASTInternalNode "AS" [the ctx OC_Expression; the ctx OC_Variable]
  else the ctx OC_Expression.

Definition visitOC_Order : outcome any := ASTInternalNode "ORDERED_BY" (all_of ctx OC_SortItem).
Definition visitOC_Skip : outcome any := ASTInternalNode "SKIP" [the ctx OC_Expression].
Definition visitOC_Limit : outcome any := ASTInternalNode "LIMIT" [the ctx OC_Expression].

Definition visitOC_SortItem : outcome any :=
  if token ctx "ASC" || token ctx "ASCENDING" then ASTInternalNode "ASC" [the ctx OC_Expression]
  else ASTInternalNode "DESC" [the ctx OC_Expression].

Definition visitOC_Where : outcome any := ASTInternalNode "WHERE" [the ctx OC_Expression].

(** *** Patterns *)

Definition visitOC_Pattern : outcome any := ASTInternalNode "PATTERN" (all_of ctx OC_PatternPart).

Definition visitOC_PatternPart : outcome any :=
  if has ctx OC_Variable then ASTInternalNode "=" [the ctx OC_Variable; the ctx OC_AnonymousPatternPart]
  else the ctx OC_AnonymousPatternPart.

Definition visitOC_AnonymousPatternPart : outcome any := the ctx OC_PatternElement.

Definition visitOC_PatternElement : outcome any :=
  if has ctx OC_PatternElement then the ctx OC_PatternElement
  else if has ctx OC_PatternElementChain then
    ASTInternalNode "PATTERN_ELEMENTS" (the ctx OC_NodePattern :: all_of ctx OC_PatternElementChain)
  else the ctx OC_NodePattern.

Definition visitOC_RelationshipsPattern : outcome any :=
  ASTInternalNode "PATTERN_ELEMENTS" (the ctx OC_NodePattern :: all_of ctx OC_PatternElementChain).

Definition visitOC_NodePattern : outcome any :=
  ASTInternalNode "NODE_PATTERN"
    (optional ctx OC_Variable ++ optional ctx OC_NodeLabels ++ optional ctx OC_Properties).

Definition visitOC_PatternElementChain : outcome any :=
  ASTInternalNode "PATTERN_ELEMENT_CHAIN" [the ctx OC_RelationshipPattern; the ctx OC_NodePattern].

Definition visitOC_RelationshipPattern : outcome any :=
  ASTInternalNode "RELATIONSHIP_PATTTERN"
    ((if has ctx OC_LeftArrowHead && negb (has ctx OC_RightArrowHead) then the ctx OC_LeftArrowHead
      else if negb (has ctx OC_LeftArrowHead) && has ctx OC_RightArrowHead then the ctx OC_RightArrowHead
      else ASTLeafNoValue "UNIDIRECTION_ARROW") :: optional ctx OC_RelationshipDetail).

Definition visitOC_RelationshipDetail : outcome any :=
  ASTInternalNode "RELATIONSHIP_DETAILS"
    (optional ctx OC_Variable ++ optional ctx OC_RelationshipTypes ++ optional ctx OC_RangeLiteral ++
     optional ctx OC_Properties).

Definition visitOC_Properties : outcome any := first_of ctx [OC_Parameter] (the ctx OC_MapLiteral).

Definition visitOC_RelationshipTypes : outcome any :=
  if Nat.ltb 1 (count_of ctx OC_RelTypeName) then ASTInternalNode "RELATIONSHIP_TYPES" (all_of ctx OC_RelTypeName)
  else nth_of ctx OC_RelTypeName 0.

Definition visitOC_NodeLabels : outcome any :=
  if Nat.ltb 1 (count_of ctx OC_NodeLabel) then ASTInternalNode "NODE_LABELS" (all_of ctx OC_NodeLabel)
  else nth_of ctx OC_NodeLabel 0.

Definition visitOC_NodeLabel : outcome any := ASTInternalNode "NODE_LABEL" [the ctx OC_LabelName].

Definition visitOC_RangeLiteral : outcome any :=
  if Nat.ltb 1 (count_of ctx OC_IntegerLiteral) then
    ASTInternalNode "RANGE" [nth_of ctx OC_IntegerLiteral 0; nth_of ctx OC_IntegerLiteral 1]
  else ASTInternalNode "RANGE" [nth_of ctx OC_IntegerLiteral 0].

Definition visitOC_LabelName : outcome any := the ctx OC_SchemaName.
Definition visitOC_RelTypeName : outcome any := ASTInternalNode "RELATIONSHIP_TYPE" [the ctx OC_SchemaName].

Definition visitOC_PropertyExpression : outcome any :=
  ASTInternalNode "PROPERTY" (the ctx OC_Atom :: all_of ctx OC_PropertyLookup).

(** *** Expressions *)

Definition visitOC_Expression : outcome any := the ctx OC_OrExpression.

Definition visitOC_OrExpression : outcome any :=
  if Nat.ltb 1 (count_of ctx OC_XorExpression) then ASTInternalNode "OR" (all_of ctx OC_XorExpression)
  else nth_of ctx OC_XorExpression 0.

Definition visitOC_XorExpression : outcome any :=
  if Nat.ltb 1 (count_of ctx OC_AndExpression) then ASTInternalNode "XOR" (all_of ctx OC_AndExpression)
  else nth_of ctx OC_AndExpression 0.

Definition visitOC_AndExpression : outcome any :=
  if Nat.ltb 1 (count_of ctx OC_NotExpression) then ASTInternalNode "AND" (all_of ctx OC_NotExpression)
  else nth_of ctx OC_NotExpression 0.

Definition visitOC_NotExpression : outcome any :=
  if Nat.odd (tokens ctx "NOT") then ASTInternalNode Const_NOT [the ctx OC_ComparisonExpression]
  else the ctx OC_ComparisonExpression.

Definition visitOC_ComparisonExpression : outcome any :=
  if has ctx OC_PartialComparisonExpression then
    ASTInternalNode "COMPARISON"
      (the ctx OC_StringListNullPredicateExpression :: all_of ctx OC_PartialComparisonExpression)
  else the ctx OC_StringListNullPredicateExpression.

(** The operator is looked for in the text of the whole context. *)
Definition comparison_operator : string :=
  if find ctx "<>" then "<>"
  else if find ctx ">" then ">"
  else if find ctx "=" then "=="
  else if find ctx "<" then "<"
  else if find ctx ">=" then ">="
  else "<=".

Definition visitOC_PartialComparisonExpression : outcome any :=
  ASTInternalNode comparison_operator [the ctx OC_StringListNullPredicateExpression].

(** A group of predicates, if there are any. *)
Definition predicates (type : string) (r : rule) : list (outcome any) :=
  if has ctx r then [ASTInternalNode type (all_of ctx r)] else [].

Definition visitOC_StringListNullPredicateExpression : outcome any :=
  let visits := the ctx OC_AddOrSubtractExpression ::
    predicates "STRING_PREDICATES" OC_StringPredicateExpression ++
    predicates "LIST_PREDICATES" OC_ListPredicateExpression ++
    predicates "NULL_PREDICATES" OC_NullPredicateExpression in
  node ← ASTInternalNode "PREDICATE_EXPRESSIONS" visits;
  if Nat.ltb 1 (length visits) then Ret node else the ctx OC_AddOrSubtractExpression.

(** [Const::STARTS_WITH] has the text of another constant. *)
Definition Const_STARTS_WITH : string := "UNIDIRECTION_ARROW".

Definition visitOC_StringPredicateExpression : outcome any :=
  ASTInternalNode
    (if token ctx "STARTS" then Const_STARTS_WITH else if token ctx "ENDS" then "ENDS_WITH" else "CONTAINS")
    [the ctx OC_AddOrSubtractExpression].

Definition visitOC_ListPredicateExpression : outcome any := ASTInternalNode "IN" [the ctx OC_AddOrSubtractExpression].

Definition visitOC_NullPredicateExpression : outcome any :=
  ASTLeafNoValue (if token ctx "NOT" then "IS_NOT_NULL" else "IS_NULL").

(** The loop of an arithmetic level: a child whose text is one of the
    operators takes the next operand. *)
Fixpoint operations (operators : list string) (operand : rule) (children : context) (index : nat)
    : list (outcome any) :=
  match children with
  | [] => []
  | (c, _) :: rest =>
      if existsb (String.eqb (getText c)) operators then
        ASTInternalNode (getText c) [nth_of ctx operand index] :: operations operators operand rest (S index)
      else operations operators operand rest index
  end.

Definition arithmetic (type : string) (operators : list string) (operand : rule) : outcome any :=
  if Nat.ltb 1 (count_of ctx operand) then
    ASTInternalNode type (nth_of ctx operand 0 :: operations operators operand ctx 1)
  else nth_of ctx operand 0.

Definition visitOC_AddOrSubtractExpression : outcome any :=
  arithmetic "ADD_OR_SUBSTRACT" ["+"; "-"] OC_MultiplyDivideModuloExpression.
Definition visitOC_MultiplyDivideModuloExpression : outcome any :=
  arithmetic "MULTIPLY_DIVID_MODULO" ["*"; "/"] OC_PowerOfExpression.
Definition visitOC_PowerOfExpression : outcome any :=
  arithmetic "POWER_OF" ["^"] OC_UnaryAddOrSubtractExpression.

Definition visitOC_UnaryAddOrSubtractExpression : outcome any :=
  t ← first_text ctx;
  if String.eqb t "+" then ASTInternalNode "UNARY_+" [the ctx OC_NonArithmeticOperatorExpression]
  else if String.eqb t "-" then ASTInternalNode "UNARY_-" [the ctx OC_NonArithmeticOperatorExpression]
  else the ctx OC_NonArithmeticOperatorExpression.

(** The loop over the children; whatever is not an atom, a lookup or a list
    operator is taken for the labels. *)
Fixpoint accesses (children : context) (i j : nat) : list (outcome any) :=
  match children with
  | [] => []
  | (c, _) :: rest =>
      if is_rule OC_Atom c then the ctx OC_Atom :: accesses rest i j
      else if is_rule OC_PropertyLookup c then nth_of ctx OC_PropertyLookup i :: accesses rest (S i) j
      else if is_rule OC_ListOperatorExpression c then
        nth_of ctx OC_ListOperatorExpression j :: accesses rest i (S j)
      else the ctx OC_NodeLabels :: accesses rest i j
  end.

Definition visitOC_NonArithmeticOperatorExpression : outcome any :=
  if has ctx OC_ListOperatorExpression || has ctx OC_PropertyLookup then
    ASTInternalNode "NON_ARITHMETIC_OPERATOR" (accesses ctx 0 0)
  else if has ctx OC_NodeLabels then
    ASTInternalNode "NON_ARITHMETIC_OPERATOR" [the ctx OC_Atom; the ctx OC_NodeLabels]
  else the ctx OC_Atom.

Definition visitOC_ListOperatorExpression : outcome any :=
  if Nat.eqb (count_of ctx OC_Expression) 2 then
    ASTInternalNode "LIST_INDEX_RANGE" [nth_of ctx OC_Expression 0; nth_of ctx OC_Expression 1]
  else ASTInternalNode "LIST_INDEX" [nth_of ctx OC_Expression 0].

Definition visitOC_PropertyLookup : outcome any := ASTInternalNode "PROPERTY_LOOKUP" [the ctx OC_PropertyKeyName].

Definition visitOC_Atom : outcome any :=
  first_of ctx [OC_Literal; OC_Parameter; OC_Quantifier; OC_Variable; OC_CaseExpression; OC_ExistentialSubquery;
                OC_FunctionInvocation; OC_ListComprehension; OC_ParenthesizedExpression; OC_PatternComprehension;
                OC_PatternPredicate]
    (ASTLeafValue "COUNT" "*").

(** [::toupper] in the C locale. *)
Definition toupper (c : ascii) : ascii :=
  let n := nat_of_ascii c in
  if Nat.leb 97 n && Nat.leb n 122 then ascii_of_nat (n - 32) else c.

Fixpoint upper (s : string) : string :=
  match s with EmptyString => EmptyString | String c r => String (toupper c) (upper r) end.

(** The loop over the children of CASE.  The type name of the child after the
    next is empty when there is no such child, and [substr] then throws. *)
Fixpoint case_parts (children : context) (caseAlt : nat) : list (outcome any) :=
  match children with
  | [] => []
  | (c, _) :: rest =>
      let text := upper (getText c) in
      let other :=
        if String.eqb text "ELSE" then
          ASTInternalNode "ELSE_EXPRESSION"
            [nth_of ctx OC_Expression (if Nat.ltb 1 (count_of ctx OC_Expression) then 1 else 0)%nat] ::
          case_parts rest caseAlt
        else if bool_decide (is_Some (String.index 0 "WHEN" text)) then
          nth_of ctx OC_CaseAlternative caseAlt :: case_parts rest (S caseAlt)
        else case_parts rest caseAlt in
      if String.eqb text "CASE" then
        match rest !! 1%nat with
        | None => [Throw out_of_range]
        | Some (c2, _) =>
            if is_rule OC_Expression c2 then
              ASTInternalNode "CASE_EXPRESSION" [nth_of ctx OC_Expression 0] :: case_parts rest caseAlt
            else other
        end
      else other
  end.

Definition visitOC_CaseExpression : outcome any := ASTInternalNode "CASE_PATTERN" (case_parts ctx 0).

Definition visitOC_CaseAlternative : outcome any :=
  ASTInternalNode "CASE"
    [ASTInternalNode "WHEN" [nth_of ctx OC_Expression 0]; ASTInternalNode "THEN" [nth_of ctx OC_Expression 1]].

Definition visitOC_ListComprehension : outcome any :=
  ASTInternalNode "LIST_COMPREHENSION"
    (the ctx OC_FilterExpression ::
     (if find ctx "|" then [ASTInternalNode "FILTER_RESULT" [the ctx OC_Expression]] else [])).

Definition visitOC_PatternComprehension : outcome any :=
  ASTInternalNode "PATTERN_COMPREHENSION"
    ((if has ctx OC_Variable then ASTInternalNode "=" [the ctx OC_Variable; the ctx OC_RelationshipsPattern]
      else the ctx OC_RelationshipsPattern) ::
     optional ctx OC_Where ++ [ASTInternalNode "FILTER_RESULT" [the ctx OC_Expression]]).

Definition visitOC_Quantifier : outcome any :=
  ASTInternalNode
    (if token ctx "ALL" then "ALL" else if token ctx "ANY" then "ANY" else if token ctx "NONE" then "NONE" else "SINGLE")
    [the ctx OC_FilterExpression].

Definition visitOC_FilterExpression : outcome any :=
  ASTInternalNode "FILTER_EXPRESSION" (the ctx OC_IdInColl :: optional ctx OC_Where).

Definition visitOC_PatternPredicate : outcome any := the ctx OC_RelationshipsPattern.
Definition visitOC_ParenthesizedExpression : outcome any := the ctx OC_Expression.

Definition visitOC_IdInColl : outcome any :=
  ASTInternalNode "LIST_ITERATE" [the ctx OC_Variable; the ctx OC_Expression].

(** *** Functions and procedures *)

Definition visitOC_FunctionInvocation : outcome any :=
  if token ctx "DISTINCT" then
    ASTInternalNode "FUNCTION_BODY"
      [the ctx OC_FunctionName; ASTInternalNode "ARGUMENTS" [ASTInternalNode "DISTINCT" (all_of ctx OC_Expression)]]
  else
    ASTInternalNode "FUNCTION_BODY"
      (the ctx OC_FunctionName ::
       (if has ctx OC_Expression then [ASTInternalNode "ARGUMENTS" (all_of ctx OC_Expression)] else [])).

Definition visitOC_FunctionName : outcome any :=
  ASTInternalNode "FUNCTION" [the ctx OC_Namespace; leaf_of "FUNCTION_NAME" (the ctx OC_SymbolicName)].

Definition visitOC_ExistentialSubquery : outcome any :=
  if has ctx OC_RegularQuery then ASTInternalNode "EXISTS" [the ctx OC_RegularQuery]
  else ASTInternalNode "EXISTS" (the ctx OC_Pattern :: optional ctx OC_Where).

Definition visitOC_ExplicitProcedureInvocation : outcome any :=
  ASTInternalNode "EXPLICIT_PROCEDURE"
    (the ctx OC_ProcedureName ::
     (if Nat.ltb 1 (count_of ctx OC_Expression) then [ASTInternalNode "ARGUMENTS" (all_of ctx OC_Expression)] else [])).

Definition visitOC_ImplicitProcedureInvocation : outcome any :=
  ASTInternalNode "IMPLICIT_PROCEDURE" [the ctx OC_ProcedureName].
Definition visitOC_ProcedureResultField : outcome any := leaf_of "PROCEDURE_RESULT" (the ctx OC_SymbolicName).
Definition visitOC_ProcedureName : outcome any :=
  ASTInternalNode "PROCEDURE" [the ctx OC_Namespace; leaf_of "PROCEDURE_NAME" (the ctx OC_SymbolicName)].

(** The names of a name space are the types of its leaves. *)
Definition visitOC_Namespace : outcome any :=
  ASTInternalNode "NAMESPACE"
    ((fun o => a ← o; s ← any_cast_string a; ASTLeafNoValue s) <$> all_of ctx OC_SymbolicName).

Definition visitOC_Variable : outcome any := leaf_of "VARIABLE" (the ctx OC_SymbolicName).

(** *** Literals and names *)

Definition visitOC_Literal : outcome any :=
  first_of ctx [OC_BooleanLiteral; OC_ListLiteral; OC_MapLiteral; OC_NumberLiteral]
    (if token ctx "NULL" then ASTLeafNoValue "NULL" else ASTLeafValue "STRING" (text_of ctx)).

Definition visitOC_BooleanLiteral : outcome any :=
  ASTLeafValue "BOOLEAN" (if token ctx "TRUE" then "TRUE" else "FALSE").

Definition visitOC_NumberLiteral : outcome any := first_of ctx [OC_DoubleLiteral] (the ctx OC_IntegerLiteral).

Definition visitOC_IntegerLiteral : outcome any :=
  ASTLeafValue
    (if token ctx "DecimalInteger" then "DECIMAL" else if token ctx "HexInteger" then "HEX" else "OCTAL")
    (text_of ctx).

Definition visitOC_DoubleLiteral : outcome any :=
  ASTLeafValue (if token ctx "ExponentDecimalReal" then "EXP_DECIMAL" else "REGULAR_DECIMAL") (text_of ctx).

Definition visitOC_ListLiteral : outcome any := ASTInternalNode "LIST" (all_of ctx OC_Expression).

Definition visitOC_MapLiteral : outcome any :=
  ASTInternalNode "PROPERTIES_MAP"
    ((fun i => ASTInternalNode "PROPERTY" [nth_of ctx OC_PropertyKeyName i; nth_of ctx OC_Expression i]) <$>
     seq 0 (count_of ctx OC_PropertyKeyName)).

Definition visitOC_PropertyKeyName : outcome any := the ctx OC_SchemaName.

Definition visitOC_Parameter : outcome any :=
  if has ctx OC_SymbolicName then leaf_of "PARAMETER" (the ctx OC_SymbolicName)
  else ASTLeafValue "PARAMETER" (text_of ctx).

Definition visitOC_SchemaName : outcome any :=
  if has ctx OC_ReservedWord then the ctx OC_ReservedWord
  else leaf_of "SYMBOLIC_WORD" (the ctx OC_SymbolicName).

Definition visitOC_ReservedWord : outcome any := ASTLeafValue "RESERVED_WORD" (text_of ctx).
Definition visitOC_SymbolicName : outcome any := Ret (AnyString (text_of ctx)).
End methods.

Definition visitOC_LeftArrowHead (_ : context) : outcome any := ASTLeafNoValue "LEFT_ARRROW".
Definition visitOC_RightArrowHead (_ : context) : outcome any := ASTLeafNoValue "RIGHT_ARROW".

(** The method of a rule.  The dash of a relationship is the only rule that
    no method visits. *)
Definition method (r : rule) : context -> outcome any :=
  match r with
  | OC_Cypher => visitOC_Cypher
  | OC_Statement => visitOC_Statement
  | OC_Query => visitOC_Query
  | OC_RegularQuery => visitOC_RegularQuery
  | OC_Union => visitOC_Union
  | OC_SingleQuery => visitOC_SingleQuery
  | OC_SinglePartQuery => visitOC_SinglePartQuery
  | OC_MultiPartQuery => visitOC_MultiPartQuery
  | OC_UpdatingClause => visitOC_UpdatingClause
  | OC_ReadingClause => visitOC_ReadingClause
  | OC_Match => visitOC_Match
  | OC_Unwind => visitOC_Unwind
  | OC_Merge => visitOC_Merge
  | OC_MergeAction => visitOC_MergeAction
  | OC_Create => visitOC_Create
  | OC_Set => visitOC_Set
  | OC_SetItem => visitOC_SetItem
  | OC_Delete => visitOC_Delete
  | OC_Remove => visitOC_Remove
  | OC_RemoveItem => visitOC_RemoveItem
  | OC_InQueryCall => visitOC_InQueryCall
  | OC_StandaloneCall => visitOC_StandaloneCall
  | OC_YieldItems => visitOC_YieldItems
  | OC_YieldItem => visitOC_YieldItem
  | OC_With => visitOC_With
  | OC_Return => visitOC_Return
  | OC_ProjectionBody => visitOC_ProjectionBody
  | OC_ProjectionItems => visitOC_ProjectionItems
  | OC_ProjectionItem => visitOC_ProjectionItem
  | OC_Order => visitOC_Order
  | OC_Skip => visitOC_Skip
  | OC_Limit => visitOC_Limit
  | OC_SortItem => visitOC_SortItem
  | OC_Where => visitOC_Where
  | OC_Pattern => visitOC_Pattern
  | OC_PatternPart => visitOC_PatternPart
  | OC_AnonymousPatternPart => visitOC_AnonymousPatternPart
  | OC_PatternElement => visitOC_PatternElement
  | OC_RelationshipsPattern => visitOC_RelationshipsPattern
  | OC_NodePattern => visitOC_NodePattern
  | OC_PatternElementChain => visitOC_PatternElementChain
  | OC_RelationshipPattern => visitOC_RelationshipPattern
  | OC_RelationshipDetail => visitOC_RelationshipDetail
  | OC_Properties => visitOC_Properties
  | OC_RelationshipTypes => visitOC_RelationshipTypes
  | OC_NodeLabels => visitOC_NodeLabels
  | OC_NodeLabel => visitOC_NodeLabel
  | OC_RangeLiteral => visitOC_RangeLiteral
  | OC_LabelName => visitOC_LabelName
  | OC_RelTypeName => visitOC_RelTypeName
  | OC_PropertyExpression => visitOC_PropertyExpression
  | OC_Expression => visitOC_Expression
  | OC_OrExpression => visitOC_OrExpression
  | OC_XorExpression => visitOC_XorExpression
  | OC_AndExpression => visitOC_AndExpression
  | OC_NotExpression => visitOC_NotExpression
  | OC_ComparisonExpression => visitOC_ComparisonExpression
  | OC_PartialComparisonExpression => visitOC_PartialComparisonExpression
  | OC_StringListNullPredicateExpression => visitOC_StringListNullPredicateExpression
  | OC_StringPredicateExpression => visitOC_StringPredicateExpression
  | OC_ListPredicateExpression => visitOC_ListPredicateExpression
  | OC_NullPredicateExpression => visitOC_NullPredicateExpression
  | OC_AddOrSubtractExpression => visitOC_AddOrSubtractExpression
  | OC_MultiplyDivideModuloExpression => visitOC_MultiplyDivideModuloExpression
  | OC_PowerOfExpression => visitOC_PowerOfExpression
  | OC_UnaryAddOrSubtractExpression => visitOC_UnaryAddOrSubtractExpression
  | OC_NonArithmeticOperatorExpression => visitOC_NonArithmeticOperatorExpression
  | OC_ListOperatorExpression => visitOC_ListOperatorExpression
  | OC_PropertyLookup => visitOC_PropertyLookup
  | OC_Atom => visitOC_Atom
  | OC_CaseExpression => visitOC_CaseExpression
  | OC_CaseAlternative => visitOC_CaseAlternative
  | OC_ListComprehension => visitOC_ListComprehension
  | OC_PatternComprehension => visitOC_PatternComprehension
  | OC_Quantifier => visitOC_Quantifier
  | OC_FilterExpression => visitOC_FilterExpression
  | OC_PatternPredicate => visitOC_PatternPredicate
  | OC_ParenthesizedExpression => visitOC_ParenthesizedExpression
  | OC_IdInColl => visitOC_IdInColl
  | OC_FunctionInvocation => visitOC_FunctionInvocation
  | OC_FunctionName => visitOC_FunctionName
  | OC_ExistentialSubquery => visitOC_ExistentialSubquery
  | OC_ExplicitProcedureInvocation => visitOC_ExplicitProcedureInvocation
  | OC_ImplicitProcedureInvocation => visitOC_ImplicitProcedureInvocation
  | OC_ProcedureResultField => visitOC_ProcedureResultField
  | OC_ProcedureName => visitOC_ProcedureName
  | OC_Namespace => visitOC_Namespace
  | OC_Variable => visitOC_Variable
  | OC_Literal => visitOC_Literal
  | OC_BooleanLiteral => visitOC_BooleanLiteral
  | OC_NumberLiteral => visitOC_NumberLiteral
  | OC_IntegerLiteral => visitOC_IntegerLiteral
  | OC_DoubleLiteral => visitOC_DoubleLiteral
  | OC_ListLiteral => visitOC_ListLiteral
  | OC_MapLiteral => visitOC_MapLiteral
  | OC_PropertyKeyName => visitOC_PropertyKeyName
  | OC_Parameter => visitOC_Parameter
  | OC_SchemaName => visitOC_SchemaName
  | OC_ReservedWord => visitOC_ReservedWord
  | OC_SymbolicName => visitOC_SymbolicName
  | OC_LeftArrowHead => visitOC_LeftArrowHead
  | OC_RightArrowHead => visitOC_RightArrowHead
  | OC_Dash => fun _ => Undef
  end.

(** A terminal is never visited. *)
Fixpoint accept (t : tree) : outcome any :=
  match t with
  | Rule r children => method r (List.map (fun c => (c, accept c)) children)
  | Terminal _ _ => Undef
  end.
