(* ===== verification/AstTheory.v ===== *)
(** * AstTheory: the syntax tree that the builder makes

    The builder never casts a visit to the wrong type.  A context whose only
    rule is the next one down the grammar is passed through, so that a parse
    tree is read at the contexts that matter; the condition of a WHERE clause
    and a sorted query become the trees that PlanTheory and OrderedQuery start
    from.  Where an operator is recognised by the text of its context, the
    text decides. *)
From Stdlib Require Import ZArith Ascii String Lia.
From stdpp Require Import base tactics numbers list strings.
From S2P Require Import Prelude Json SharedBuffer Pipelines ParallelExecutor CypherFilter FilterTheory.
From S2P Require Import CypherRuntime OrderBy RuntimeTheory CypherPlan CypherPlanner PlanTheory AstBuilder.

(** ** Types of visits *)

Definition makes_node (o : outcome any) : Prop :=
  match o with Ret (AnyString _) | Throw bad_any_cast => False | _ => True end.
Definition makes_name (o : outcome any) : Prop :=
  match o with Ret (AnyNode _) | Throw bad_any_cast => False | _ => True end.

(** A symbolic name is visited to a string, everything else to a node. *)
Definition typed (r : rule) (o : outcome any) : Prop :=
  match r with OC_SymbolicName => makes_name o | _ => makes_node o end.

Definition typed_child (k : tree * outcome any) : Prop :=
  match k.1 with Rule r _ => typed r k.2 | Terminal _ _ => True end.

Definition name_rule (r : rule) : bool := match r with OC_SymbolicName => true | _ => false end.

Lemma typed_node r o : name_rule r = false -> typed r o -> makes_node o.
Proof. by destruct r. Qed.

Section typing.
Context (ctx : context) (Hctx : Forall typed_child ctx).

Lemma all_of_typed r : Forall (typed r) (all_of ctx r).
Proof.
  unfold all_of. clear -Hctx. induction ctx as [|[t o] l IH]; [constructor|]. cbn [List.filter fst].
  apply Forall_cons in Hctx as [Ht Hl]. destruct (is_rule r t) eqn:E; [|by apply IH].
  rewrite fmap_cons. constructor; [|by apply IH].
  destruct t as [s ks|]; [|done]. by apply internal_rule_dec_bl in E as ->.
Qed.

Lemma nth_typed r i : typed r (nth_of ctx r i).
Proof.
  unfold nth_of. destruct (all_of ctx r !! i) as [o|] eqn:E; [|by destruct r].
  by eapply (Forall_lookup_1 _ _ _ _ (all_of_typed r)).
Qed.

Lemma nth_node r i : name_rule r = false -> makes_node (nth_of ctx r i).
Proof. intros H. by eapply typed_node, nth_typed. Qed.

Lemma the_node r : name_rule r = false -> makes_node (the ctx r).
Proof. apply nth_node. Qed.

Lemma all_nodes r : name_rule r = false -> Forall makes_node (all_of ctx r).
Proof. intros H. eapply Forall_impl; [apply all_of_typed|]. intros o. by apply typed_node. Qed.

Lemma optional_nodes r : name_rule r = false -> Forall makes_node (optional ctx r).
Proof. intros H. unfold optional. destruct (has ctx r); auto using the_node. Qed.

Lemma first_of_node rs o :
  forallb (fun r => negb (name_rule r)) rs = true -> makes_node o -> makes_node (first_of ctx rs o).
Proof.
  intros Hrs Ho. unfold first_of. induction rs as [|r rs IH]; [done|]. cbn in *.
  apply andb_true_iff in Hrs as [Hr Hrs]. apply negb_true_iff in Hr.
  destruct (has ctx r); [by apply the_node|by apply IH].
Qed.
End typing.

Lemma leaf_node type v : makes_node (ASTLeafValue type v).
Proof. done. Qed.

Lemma plain_leaf_node type : makes_node (ASTLeafNoValue type).
Proof. done. Qed.

Lemma leaf_of_node type o : makes_name o -> makes_node (leaf_of type o).
Proof. by destruct o as [[]|[]| | | |]. Qed.

Lemma internal_node type l : Forall makes_node l -> makes_node (ASTInternalNode type l).
Proof.
  unfold ASTInternalNode. induction 1 as [|o l Ho _ IH]; [done|]. cbn [traverse].
  destruct o as [[]|[]| | | |]; try done. cbn [mbind outcome_bind any_cast_node].
  by destruct (traverse _ l) as [|[]| | | |].
Qed.

Create HintDb build.
#[export] Hint Resolve nth_node the_node all_nodes optional_nodes first_of_node leaf_node plain_leaf_node leaf_of_node : build.
#[export] Hint Resolve internal_node Forall_cons_2 Forall_app_2 Forall_nil_2 : build.
#[export] Hint Extern 1 (name_rule _ = false) => reflexivity : build.
#[export] Hint Extern 1 (forallb _ _ = true) => reflexivity : build.

Lemma first_text_node ctx f : (forall t, makes_node (f t)) -> makes_node (t ← first_text ctx; f t).
Proof. intros H. destruct ctx as [|[]]; [done|apply H]. Qed.

Section loops.
Context (ctx : context) (Hctx : Forall typed_child ctx).

Lemma multi_parts_nodes children i j k node new :
  Forall makes_node node -> Forall makes_node new -> Forall makes_node (multi_parts ctx children i j k node new).
Proof.
  revert i j k node new. induction children as [|[c o] children IH]; intros i j k node new Hn Hw; [done|].
  cbn [multi_parts]. destruct children as [|[next o'] rest]; [done|].
  repeat case_match; auto 8 with build.
Qed.

Lemma predicates_nodes type r : name_rule r = false -> Forall makes_node (predicates ctx type r).
Proof. intros H. unfold predicates. case_match; auto with build. Qed.

Lemma operations_nodes ops r children i :
  name_rule r = false -> Forall makes_node (operations ctx ops r children i).
Proof.
  intros Hr. revert i. induction children as [|[c o] children IH]; intros i; [constructor|]. cbn [operations].
  case_match; auto 6 with build.
Qed.

Lemma arithmetic_node type ops r : name_rule r = false -> makes_node (arithmetic ctx type ops r).
Proof. intros Hr. unfold arithmetic. case_match; auto 6 using operations_nodes with build. Qed.

Lemma accesses_nodes children i j : Forall makes_node (accesses ctx children i j).
Proof.
  revert i j. induction children as [|[c o] children IH]; intros i j; [constructor|]. cbn [accesses].
  repeat case_match; auto with build.
Qed.

Lemma case_parts_nodes children i : Forall makes_node (case_parts ctx children i).
Proof.
  revert i. induction children as [|[c o] children IH]; intros i; [constructor|]. cbn [case_parts].
  repeat case_match; auto 8 with build. by repeat constructor.
Qed.

Lemma namespace_nodes :
  Forall makes_node ((fun o => a ← o; s ← any_cast_string a; ASTLeafNoValue s) <$> all_of ctx OC_SymbolicName).
Proof.
  apply Forall_fmap. eapply Forall_impl; [by apply all_of_typed|]. by intros [[]|[]| | | |].
Qed.

Lemma the_name : makes_name (the ctx OC_SymbolicName).
Proof. exact (nth_typed ctx Hctx OC_SymbolicName 0). Qed.

Lemma map_nodes n :
  Forall makes_node
    ((fun i => ASTInternalNode "PROPERTY" [nth_of ctx OC_PropertyKeyName i; nth_of ctx OC_Expression i]) <$> seq 0 n).
Proof. apply Forall_fmap, Forall_true. intros i. unfold compose. auto 6 with build. Qed.
End loops.

#[export] Hint Resolve multi_parts_nodes predicates_nodes arithmetic_node accesses_nodes case_parts_nodes : build.
#[export] Hint Resolve namespace_nodes the_name map_nodes : build.

Ltac build := try (apply first_text_node; intros ?); repeat case_match; auto 12 with build.

Lemma predicate_expression_node ctx :
  Forall typed_child ctx -> makes_node (visitOC_StringListNullPredicateExpression ctx).
Proof.
  intros H. unfold visitOC_StringListNullPredicateExpression. set (l := _ :: _).
  assert (makes_node (ASTInternalNode "PREDICATE_EXPRESSIONS" l)) as Hn by (subst l; auto 12 with build).
  revert Hn. destruct (ASTInternalNode _ l) as [a|[]| | | |]; try done. intros Ha. cbn [mbind outcome_bind].
  case_match; [done|auto with build].
Qed.

Lemma method_typed r ctx : Forall typed_child ctx -> typed r (method r ctx).
Proof.
  intros H. destruct r; cbn [method typed]; try done; try (by apply predicate_expression_node);
  match goal with |- _ (?f ctx) => unfold f end; build.
Qed.

Fixpoint tree_ind' (P : tree -> Prop) (HR : forall r ks, Forall P ks -> P (Rule r ks))
    (HT : forall s t, P (Terminal s t)) (t : tree) : P t :=
  match t with
  | Rule r ks =>
      HR r ks ((fix go (l : list tree) : Forall P l :=
                  match l with
                  | [] => Forall_nil_2 P
                  | k :: l' => Forall_cons_2 P k l' (tree_ind' P HR HT k) (go l')
                  end) ks)
  | Terminal s x => HT s x
  end.

Lemma visit_typed r ks : typed r (accept (Rule r ks)).
Proof.
  assert (forall t, match t with Rule r ks => typed r (accept t) | _ => True end) as H.
  { intros t. induction t as [s l IH|] using tree_ind'; [|done]. cbn [accept]. apply method_typed.
    rewrite List.Forall_map. eapply Forall_impl; [exact IH|]. by intros [] ?. }
  exact (H (Rule r ks)).
Qed.

(** C36. The builder on any parse tree, also one of a query with errors: a symbolic
    name is visited to a string and every other rule to a node, unless a
    missing child or an exception stops the visit; no [any_cast] fails. *)
Theorem builder_types r ks : typed r (accept (Rule r ks)) /\ accept (Rule r ks) <> Throw bad_any_cast.
Proof.
  pose proof (visit_typed r ks) as H. split; [done|]. intros E. rewrite E in H. by destruct r.
Qed.

(** ** Contexts that are passed through *)

Definition visited (ks : list tree) : context := List.map (fun c => (c, accept c)) ks.

Definition is_context (t : tree) : bool := match t with Rule _ _ => true | Terminal _ _ => false end.

(** The children that are not tokens. *)
Definition contexts_of (ks : list tree) : list tree := List.filter is_context ks.

Lemma all_of_visited ks r : all_of (visited ks) r = accept <$> List.filter (is_rule r) (contexts_of ks).
Proof.
  unfold all_of, visited, contexts_of. induction ks as [|[s l|s x] ks IH]; [done| |done].
  cbn [List.map List.filter fst is_context]. destruct (is_rule r (Rule s l)); [|done]. by rewrite !fmap_cons, IH.
Qed.

Lemma the_only ks r s l :
  contexts_of ks = [Rule s l] -> all_of (visited ks) r = if rule_beq s r then [accept (Rule s l)] else [].
Proof. intros H. rewrite all_of_visited, H. cbn [List.filter is_rule]. by destruct (rule_beq s r). Qed.

(** The rules that may be the only one below a rule. *)
Definition below (r : rule) : list rule :=
  match r with
  | OC_Cypher => [OC_Statement]
  | OC_Statement => [OC_Query]
  | OC_Query => [OC_RegularQuery; OC_StandaloneCall]
  | OC_RegularQuery | OC_Union => [OC_SingleQuery]
  | OC_SingleQuery => [OC_MultiPartQuery; OC_SinglePartQuery]
  | OC_UpdatingClause => [OC_Create; OC_Delete; OC_Merge; OC_Remove; OC_Set]
  | OC_ReadingClause => [OC_Match; OC_Unwind; OC_InQueryCall]
  | OC_Set => [OC_SetItem]
  | OC_Remove => [OC_RemoveItem]
  | OC_Return => [OC_ProjectionBody]
  | OC_ProjectionItem | OC_ParenthesizedExpression => [OC_Expression]
  | OC_PatternPart => [OC_AnonymousPatternPart]
  | OC_AnonymousPatternPart => [OC_PatternElement]
  | OC_PatternElement => [OC_PatternElement; OC_NodePattern]
  | OC_PatternPredicate => [OC_RelationshipsPattern]
  | OC_Properties => [OC_Parameter; OC_MapLiteral]
  | OC_RelationshipTypes => [OC_RelTypeName]
  | OC_NodeLabels => [OC_NodeLabel]
  | OC_LabelName | OC_PropertyKeyName => [OC_SchemaName]
  | OC_SchemaName => [OC_ReservedWord]
  | OC_Expression => [OC_OrExpression]
  | OC_OrExpression => [OC_XorExpression]
  | OC_XorExpression => [OC_AndExpression]
  | OC_AndExpression => [OC_NotExpression]
  | OC_NotExpression => [OC_ComparisonExpression]
  | OC_ComparisonExpression => [OC_StringListNullPredicateExpression]
  | OC_StringListNullPredicateExpression => [OC_AddOrSubtractExpression]
  | OC_AddOrSubtractExpression => [OC_MultiplyDivideModuloExpression]
  | OC_MultiplyDivideModuloExpression => [OC_PowerOfExpression]
  | OC_PowerOfExpression => [OC_UnaryAddOrSubtractExpression]
  | OC_UnaryAddOrSubtractExpression => [OC_NonArithmeticOperatorExpression]
  | OC_NonArithmeticOperatorExpression => [OC_Atom]
  | OC_Atom =>
      [OC_Literal; OC_Parameter; OC_Quantifier; OC_Variable; OC_CaseExpression; OC_ExistentialSubquery;
       OC_FunctionInvocation; OC_ListComprehension; OC_ParenthesizedExpression; OC_PatternComprehension;
       OC_PatternPredicate]
  | OC_Literal => [OC_BooleanLiteral; OC_ListLiteral; OC_MapLiteral; OC_NumberLiteral]
  | OC_NumberLiteral => [OC_DoubleLiteral; OC_IntegerLiteral]
  | _ => []
  end.

(** No token changes the meaning: no ALL, an even number of NOTs, no sign. *)
Definition silent (r : rule) (ks : list tree) : bool :=
  match r with
  | OC_Union => negb (token (visited ks) "ALL")
  | OC_NotExpression => Nat.even (tokens (visited ks) "NOT")
  | OC_UnaryAddOrSubtractExpression =>
      match ks with [] => false | k :: _ => negb (String.eqb (getText k) "+" || String.eqb (getText k) "-") end
  | _ => true
  end.

Lemma visit_below r ks s l :
  contexts_of ks = [Rule s l] -> s ∈ below r -> silent r ks = true -> accept (Rule r ks) = accept (Rule s l).
Proof.
  intros Hks Hs Hq. pose proof (fun q => the_only ks q s l Hks) as Hall. pose proof (visit_typed s l) as Hty.
  change (accept (Rule r ks)) with (method r (visited ks)). revert Hall Hty. generalize (accept (Rule s l)) as o.
  intros o Hall Hty.
  destruct r; cbn [below] in Hs; repeat (apply elem_of_cons in Hs as [-> | Hs]); try (by apply elem_of_nil in Hs);
    cbn [method silent typed] in *;
    match goal with |- ?f _ = _ => unfold f end;
    unfold arithmetic, the, nth_of, first_of, has, count_of, predicates; cbn [List.find];
    unfold has, count_of; rewrite ?Hall; cbn [rule_beq length Nat.eqb negb Nat.ltb Nat.leb lookup list_lookup default];
    try done; try (by unfold the, nth_of; rewrite Hall).
  - apply negb_true_iff in Hq. by rewrite Hq.
  - by rewrite <- Nat.negb_even, Hq.
  - by destruct o as [[]|[]| | | |].
  - destruct ks as [|k ks]; [done|]. apply negb_true_iff, orb_false_iff in Hq as [Hp Hm].
    cbn [visited List.map first_text mbind outcome_bind]. by rewrite Hp, Hm.
Qed.

(** The first context on the way down that is not passed through. *)
Fixpoint descend (t : tree) : tree :=
  match t with
  | Terminal _ _ => t
  | Rule r ks =>
      match List.filter (fun k => is_context k.1) (List.map (fun k => (k, descend k)) ks) with
      | [(Rule s _, d)] => if bool_decide (s ∈ below r) && silent r ks then d else t
      | _ => t
      end
  end.

Lemma filter_descend ks :
  List.filter (fun k : tree * tree => is_context k.1) (List.map (fun k => (k, descend k)) ks) =
  (fun k => (k, descend k)) <$> contexts_of ks.
Proof.
  unfold contexts_of. induction ks as [|k ks IH]; [done|]. cbn [List.map List.filter fst].
  destruct (is_context k); [|done]. by rewrite fmap_cons, IH.
Qed.

Lemma visit_descend t : accept (descend t) = accept t.
Proof.
  induction t as [r ks IH|] using tree_ind'; [|done]. cbn [descend]. rewrite filter_descend.
  destruct (contexts_of ks) as [|[s l|] [|]] eqn:E; try done. rewrite fmap_cons, fmap_nil. cbv iota.
  destruct (bool_decide (s ∈ below r) && silent r ks) eqn:Hs; [|done].
  apply andb_true_iff in Hs as [Hb Hq]. apply bool_decide_eq_true in Hb. rewrite (visit_below r ks s l) by done.
  rewrite Forall_forall in IH. apply IH. apply list_elem_of_In. apply (List.filter_In is_context).
  unfold contexts_of in E. rewrite E. by left.
Qed.

(** ** Building nodes *)

Definition builds (n : ASTNode) (t : tree) : Prop := accept t = Ret (AnyNode n).

Lemma builds_descend n t : builds n (descend t) -> builds n t.
Proof. unfold builds. by rewrite visit_descend. Qed.

Lemma internal_builds type ns ts :
  Forall2 builds ns ts -> ASTInternalNode type (accept <$> ts) = Ret (AnyNode (Node type "" ns)).
Proof.
  intros H. unfold ASTInternalNode.
  assert (traverse (fun o => a ← o; any_cast_node a) (accept <$> ts) = Ret ns) as ->; [|done].
  induction H as [|n t ns ts Hn _ IH]; [done|]. rewrite fmap_cons. cbn [traverse]. rewrite Hn.
  cbn [mbind outcome_bind any_cast_node]. by rewrite IH.
Qed.

Lemma internal_one type n t : builds n t -> ASTInternalNode type [accept t] = Ret (AnyNode (Node type "" [n])).
Proof. intros H. by apply (internal_builds type [n] [t]), Forall2_cons. Qed.

Lemma text_of_visited r ks : text_of (visited ks) = getText (Rule r ks).
Proof. unfold text_of, visited. cbn [getText]. by rewrite List.map_map. Qed.

Lemma only_rule r ts : Forall (fun t => is_rule r t = true) ts -> List.filter (is_rule r) ts = ts.
Proof. induction 1 as [|t ts Ht _ IH]; [done|]. cbn [List.filter]. by rewrite Ht, IH. Qed.

(** ** Reading a parse tree

    The relations below say what a parse tree is a text of, in the terms of
    the query; they leave the tokens and the white space open wherever the
    grammar does. *)

Definition symbolic_name (s : string) (t : tree) : Prop :=
  is_rule OC_SymbolicName t = true /\ getText t = s.

Definition reads_variable (v : string) (t : tree) : Prop :=
  exists ks n, descend t = Rule OC_Variable ks /\ contexts_of ks = [n] /\ symbolic_name v n.

(** A property lookup. *)
Definition reads_key (p : string) (t : tree) : Prop :=
  exists kp key ks n, t = Rule OC_PropertyLookup kp /\ contexts_of kp = [key] /\
    is_rule OC_PropertyKeyName key = true /\ descend key = Rule OC_SchemaName ks /\
    contexts_of ks = [n] /\ symbolic_name p n.

(** The name of a function, without a name space. *)
Definition reads_function (f : string) (t : tree) : Prop :=
  exists ks kn n, t = Rule OC_FunctionName ks /\ contexts_of ks = [Rule OC_Namespace kn; n] /\
    contexts_of kn = [] /\ symbolic_name f n.

Inductive reads_operand : operand -> tree -> Prop :=
| read_lookup v ps t atom keys :
    descend t = Rule OC_NonArithmeticOperatorExpression (atom :: keys) -> is_rule OC_Atom atom = true ->
    reads_variable v atom -> ps <> [] -> Forall2 reads_key ps keys -> reads_operand (Lookup v ps) t
| read_call f args t ks name es :
    descend t = Rule OC_FunctionInvocation ks -> token (visited ks) "DISTINCT" = false ->
    contexts_of ks = name :: es -> reads_function f name -> args <> [] ->
    Forall (fun e => is_rule OC_Expression e = true) es -> Forall2 reads_variable args es ->
    reads_operand (Call f args) t
| read_integer t ks :
    descend t = Rule OC_IntegerLiteral ks -> token (visited ks) "DecimalInteger" = true ->
    reads_operand (Literal "DECIMAL" (Some (getText (descend t)))) t
| read_real t ks :
    descend t = Rule OC_DoubleLiteral ks -> token (visited ks) "ExponentDecimalReal" = false ->
    reads_operand (Literal "REGULAR_DECIMAL" (Some (getText (descend t)))) t
| read_boolean t ks :
    descend t = Rule OC_BooleanLiteral ks ->
    reads_operand (Literal "BOOLEAN" (Some (if token (visited ks) "TRUE" then "TRUE" else "FALSE")%string)) t
| read_string t ks :
    descend t = Rule OC_Literal ks -> contexts_of ks = [] -> token (visited ks) "NULL" = false ->
    reads_operand (Literal "STRING" (Some (getText (descend t)))) t.

(** The operators that the builder tells apart, and how it writes them. *)
Definition plain_operators : list (string * string) := [("=", "=="); ("<>", "<>"); ("<", "<"); (">", ">")].

(** A text without the characters of the comparison operators. *)
Fixpoint operator_free (s : string) : bool :=
  match s with
  | EmptyString => true
  | String c r => negb (existsb (Ascii.eqb c) ["<"; ">"; "="]%char) && operator_free r
  end.

(** The comparison is written with [o], and only [o]. *)
Definition written (o : string) (ks : list tree) : Prop :=
  exists k rest, ks = Terminal k o :: rest /\ operator_free (getText (Rule OC_Expression rest)) = true.

Definition level (k : connective) : option (rule * rule) :=
  match k with
  | OR => Some (OC_OrExpression, OC_XorExpression)
  | XOR => Some (OC_XorExpression, OC_AndExpression)
  | AND => Some (OC_AndExpression, OC_NotExpression)
  | NOT => None
  end.

#[local] Set Warnings "-register-all".
Inductive reads : cond -> tree -> Prop :=
| reads_connective k r s t ks cs :
    level k = Some (r, s) -> descend t = Rule r ks -> (1 < length cs)%nat ->
    Forall (fun u => is_rule s u = true) (contexts_of ks) -> Forall2 reads cs (contexts_of ks) ->
    reads (Logic k cs) t
| reads_not t ks u c :
    descend t = Rule OC_NotExpression ks -> Nat.odd (tokens (visited ks) "NOT") = true ->
    contexts_of ks = [u] -> is_rule OC_ComparisonExpression u = true -> reads c u -> reads (Logic NOT [c]) t
| reads_comparison t ks l kp r o op x y :
    descend t = Rule OC_ComparisonExpression ks -> contexts_of ks = [l; Rule OC_PartialComparisonExpression kp] ->
    contexts_of kp = [r] -> is_rule OC_StringListNullPredicateExpression l = true ->
    is_rule OC_StringListNullPredicateExpression r = true -> (o, op) ∈ plain_operators -> written o kp ->
    reads_operand x l -> reads_operand y r -> reads (Compare false op x y) t
| reads_null t ks l kn x :
    descend t = Rule OC_StringListNullPredicateExpression ks ->
    contexts_of ks = [l; Rule OC_NullPredicateExpression kn] -> is_rule OC_AddOrSubtractExpression l = true ->
    reads_operand x l ->
    reads (Compare true (if token (visited kn) "NOT" then "<>" else "==")%string x (Literal "NULL" None)) t.

(** ** Operands *)

Lemma visit_rule r ks : accept (Rule r ks) = method r (visited ks).
Proof. done. Qed.

Lemma is_rule_inv r t : is_rule r t = true -> exists ks, t = Rule r ks.
Proof. destruct t as [s ks|]; [|done]. intros H%internal_rule_dec_bl. subst. by eexists. Qed.

(** The visits of a rule, from the contexts among the children. *)
Ltac children H :=
  unfold optional, the, nth_of, has, count_of; rewrite ?all_of_visited, ?H;
  cbn [List.filter is_rule rule_beq fmap list_fmap length Nat.eqb negb Nat.ltb Nat.leb lookup list_lookup default
       from_option id orb andb app].

Lemma name_visit s t : symbolic_name s t -> accept t = Ret (AnyString s).
Proof.
  intros [(ks & ->)%is_rule_inv <-]. rewrite visit_rule. cbn [method]. unfold visitOC_SymbolicName.
  by rewrite (text_of_visited OC_SymbolicName).
Qed.

Lemma leaf_builds type s n : symbolic_name s n -> leaf_of type (accept n) = Ret (AnyNode (leaf type s)).
Proof. intros H%name_visit. by rewrite H. Qed.

Lemma name_contexts s n ks : contexts_of ks = [n] -> symbolic_name s n -> the (visited ks) OC_SymbolicName = accept n.
Proof. intros H [(l & ->)%is_rule_inv _]. by children H. Qed.

Lemma variable_builds v t : reads_variable v t -> builds (leaf "VARIABLE" v) t.
Proof.
  intros (ks & n & Ht & Hk & Hn). apply builds_descend. unfold builds. rewrite Ht, visit_rule. cbn [method].
  unfold visitOC_Variable. rewrite (name_contexts v n) by done. by apply leaf_builds.
Qed.

Lemma key_builds p t : reads_key p t -> builds (Node "PROPERTY_LOOKUP" "" [leaf "SYMBOLIC_WORD" p]) t.
Proof.
  intros (kp & key & ks & n & -> & Hkp & (l & ->)%is_rule_inv & Hd & Hk & Hn). unfold builds. rewrite visit_rule.
  cbn [method]. unfold visitOC_PropertyLookup. children Hkp. apply internal_one, builds_descend.
  unfold builds. rewrite Hd, visit_rule. cbn [method]. unfold visitOC_SchemaName. rewrite (name_contexts p n) by done.
  assert (has (visited ks) OC_ReservedWord = false) as ->; [|by apply leaf_builds].
  destruct Hn as [(ln & ->)%is_rule_inv _]. by children Hk.
Qed.

Lemma lookups_contexts (ps : list string) keys :
  Forall2 reads_key ps keys -> contexts_of keys = keys /\ Forall (fun k => is_rule OC_PropertyLookup k = true) keys.
Proof.
  induction 1 as [|p k ps keys (? & ? & ? & ? & -> & _) _ [IH1 IH2]]; [done|].
  unfold contexts_of in *. cbn [List.filter is_context]. rewrite IH1. by repeat constructor.
Qed.

(** The loop over a variable and its lookups visits them in order. *)
Lemma accesses_lookups ctx keys i :
  (forall j k, keys !! j = Some k -> is_rule OC_PropertyLookup k = true /\ nth_of ctx OC_PropertyLookup (i + j) = accept k) ->
  accesses ctx (visited keys) i 0 = accept <$> keys.
Proof.
  revert i. induction keys as [|k keys IH]; intros i H; [done|]. cbn [visited List.map accesses].
  destruct (H 0%nat k) as [Hk Hn]; [done|]. apply is_rule_inv in Hk as (l & ->). cbn [is_rule rule_beq].
  rewrite Nat.add_0_r in Hn. rewrite Hn, fmap_cons. f_equal. apply IH. intros j k' Hj.
  rewrite Nat.add_succ_comm. by apply (H (S j)).
Qed.

Lemma lookup_builds v ps t : reads_operand (Lookup v ps) t -> builds (operand_ast (Lookup v ps)) t.
Proof.
  inversion 1 as [v' ps' t' atom keys Ht Hatom Hv Hps Hkeys| | | | |]; subst. apply builds_descend. unfold builds.
  rewrite Ht, visit_rule. cbn [method]. unfold visitOC_NonArithmeticOperatorExpression.
  apply is_rule_inv in Hatom as (la & ->). destruct (lookups_contexts ps keys Hkeys) as [Hc Hall].
  assert (all_of (visited (Rule OC_Atom la :: keys)) OC_PropertyLookup = accept <$> keys) as Hlook.
  { rewrite all_of_visited. unfold contexts_of in *. cbn [List.filter is_context is_rule rule_beq]. by rewrite Hc, only_rule. }
  assert (has (visited (Rule OC_Atom la :: keys)) OC_PropertyLookup = true) as ->.
  { unfold has, count_of. rewrite Hlook, length_fmap. destruct Hkeys; [done|done]. }
  rewrite orb_true_r.
  assert (accesses (visited (Rule OC_Atom la :: keys)) (visited (Rule OC_Atom la :: keys)) 0 0 =
    accept <$> Rule OC_Atom la :: keys) as ->.
  { cbn [visited List.map accesses is_rule rule_beq]. rewrite fmap_cons. f_equal. apply accesses_lookups.
    intros j k Hj. split; [by eapply (Forall_lookup_1 _ _ _ _ Hall)|]. unfold nth_of.
    change ((_, _) :: List.map _ keys) with (visited (Rule OC_Atom la :: keys)). rewrite Hlook. cbn [Nat.add].
    by rewrite list_lookup_fmap, Hj. }
  apply internal_builds. constructor; [by apply variable_builds|].
  clear -Hkeys. induction Hkeys; constructor; auto using key_builds.
Qed.

Lemma function_builds f t :
  reads_function f t -> builds (Node "FUNCTION" "" [leaf "NAMESPACE" ""; leaf "FUNCTION_NAME" f]) t.
Proof.
  intros (ks & kn & n & -> & Hk & Hns & Hn). unfold builds. rewrite visit_rule. cbn [method]. unfold visitOC_FunctionName.
  assert (the (visited ks) OC_SymbolicName = accept n) as ->.
  { destruct Hn as [(l & ->)%is_rule_inv _]. by children Hk. }
  rewrite (leaf_builds _ f) by done. children Hk. rewrite visit_rule. cbn [method]. unfold visitOC_Namespace.
  rewrite all_of_visited, Hns. done.
Qed.

Lemma call_builds f args t : reads_operand (Call f args) t -> builds (operand_ast (Call f args)) t.
Proof.
  inversion 1 as [|f' args' t' ks name es Ht Hd Hk Hf Hne Hes Hargs| | | |]; subst. apply builds_descend. unfold builds.
  rewrite Ht, visit_rule. cbn [method]. unfold visitOC_FunctionInvocation. rewrite Hd.
  pose proof (function_builds f name Hf) as Hname. destruct Hf as (kf & kn & n & -> & _).
  assert (all_of (visited ks) OC_Expression = accept <$> es) as He.
  { rewrite all_of_visited, Hk. cbn [List.filter is_rule rule_beq]. by rewrite only_rule. }
  assert (the (visited ks) OC_FunctionName = accept (Rule OC_FunctionName kf)) as -> by (by children Hk).
  assert (has (visited ks) OC_Expression = true) as ->.
  { unfold has, count_of. rewrite He. by destruct Hargs. }
  rewrite He, (internal_builds "ARGUMENTS" (leaf "VARIABLE" <$> args) es).
  - unfold ASTInternalNode. cbn [traverse]. rewrite Hname. done.
  - clear -Hargs. induction Hargs; constructor; auto using variable_builds.
Qed.

Lemma operand_builds o t : reads_operand o t -> builds (operand_ast o) t.
Proof.
  intros H. destruct o as [v ps|f args|ty val]; [by apply lookup_builds|by apply call_builds|].
  apply builds_descend. unfold builds. inversion H as [| |? ks Ht Hk|? ks Ht Hk|? ks Ht|? ks Ht Hk Hn]; subst;
    rewrite Ht, visit_rule; cbn [method].
  - unfold visitOC_IntegerLiteral. by rewrite Hk, (text_of_visited OC_IntegerLiteral).
  - unfold visitOC_DoubleLiteral. by rewrite Hk, (text_of_visited OC_DoubleLiteral).
  - done.
  - unfold visitOC_Literal, first_of. cbn [List.find]. children Hk. by rewrite Hn, (text_of_visited OC_Literal).
Qed.

(** ** Comparison operators *)

(** How the builder reads the operators of the grammar. *)
Definition read_operator (o : string) : option string :=
  if String.eqb o "=" then Some "=="
  else if String.eqb o "<>" then Some "<>"
  else if String.eqb o "<" then Some "<"
  else if String.eqb o ">" then Some ">"
  else if String.eqb o "<=" then Some "=="
  else if String.eqb o ">=" then Some ">"
  else None.

Lemma prefix_free c p s :
  existsb (Ascii.eqb c) ["<"; ">"; "="]%char = true -> operator_free s = true -> String.prefix (String c p) s = false.
Proof.
  intros Hc Hs. destruct s as [|a s]; [done|]. cbn [operator_free] in Hs. apply andb_true_iff in Hs as [Ha _].
  cbn [String.prefix]. destruct (ascii_dec c a) as [->|]; [by rewrite Hc in Ha|done].
Qed.

Lemma index_free c p s :
  existsb (Ascii.eqb c) ["<"; ">"; "="]%char = true -> operator_free s = true -> String.index 0 (String c p) s = None.
Proof.
  intros Hc. induction s as [|a s IH]; intros Hs; [done|]. pose proof (prefix_free c p _ Hc Hs) as Hp.
  cbn [operator_free] in Hs. apply andb_true_iff in Hs as [_ Hs]. cbn [String.index]. by rewrite Hp, IH.
Qed.

Lemma operator_text k o rest : text_of (visited (Terminal k o :: rest)) = (o +:+ getText (Rule OC_Expression rest))%string.
Proof.
  rewrite (text_of_visited OC_Expression). cbn [getText List.map String.concat].
  destruct (List.map getText rest); [by rewrite string_app_nil|done].
Qed.

Lemma operator_read o op ks :
  read_operator o = Some op -> written o ks -> comparison_operator (visited ks) = op.
Proof.
  intros Ho (k & rest & -> & Hfree). unfold comparison_operator, find. rewrite operator_text.
  revert Hfree. generalize (getText (Rule OC_Expression rest)) as s. intros s Hs.
  pose proof (fun c p Hc => index_free c p s Hc Hs) as Hi. pose proof (fun c p Hc => prefix_free c p s Hc Hs) as Hp.
  assert (o ∈ ["="; "<>"; "<"; ">"; "<="; ">="]%string) as Hin.
  { unfold read_operator in Ho. repeat case_match; try done; repeat match goal with H : String.eqb o _ = true |- _ => apply String.eqb_eq in H; subst o end;
    by apply (bool_decide_unpack _). }
  rewrite !elem_of_cons, elem_of_nil in Hin.
  destruct Hin as [-> | [-> | [-> | [-> | [-> | [-> | []]]]]]]; cbv in Ho; injection Ho as <-;
    match goal with |- context [?o +:+ s] => let x := eval cbv [String.append] in (o +:+ s) in change (o +:+ s) with x end;
    cbn; rewrite ?Hi, ?Hp by done; cbn; rewrite ?Hi by done; by destruct s.
Qed.

Lemma plain_operator_read o op : (o, op) ∈ plain_operators -> read_operator o = Some op.
Proof.
  unfold plain_operators. rewrite !elem_of_cons, elem_of_nil.
  intros [[= -> ->]|[[= -> ->]|[[= -> ->]|[[= -> ->]|[]]]]]; done.
Qed.

(** ** Conditions *)

Section reads_induction.
Context (P : cond -> tree -> Prop).
Hypothesis Hlogic : forall k r s t ks cs, level k = Some (r, s) -> descend t = Rule r ks -> (1 < length cs)%nat ->
  Forall (fun u => is_rule s u = true) (contexts_of ks) -> Forall2 P cs (contexts_of ks) -> P (Logic k cs) t.
Hypothesis Hnot : forall t ks u c, descend t = Rule OC_NotExpression ks -> Nat.odd (tokens (visited ks) "NOT") = true ->
  contexts_of ks = [u] -> is_rule OC_ComparisonExpression u = true -> P c u -> P (Logic NOT [c]) t.
Hypothesis Hcompare : forall p op x y t, reads (Compare p op x y) t -> P (Compare p op x y) t.

Fixpoint reads_ind' (c : cond) (t : tree) (H : reads c t) : P c t :=
  match H in reads c t return P c t with
  | reads_connective k r s t ks cs Hl Ht Hn Hr Hall =>
      Hlogic k r s t ks cs Hl Ht Hn Hr
        ((fix go cs ts (F : Forall2 reads cs ts) : Forall2 P cs ts :=
            match F with
            | List.Forall2_nil _ => List.Forall2_nil P
            | @List.Forall2_cons _ _ _ c u cs ts Hc F => List.Forall2_cons c u (reads_ind' c u Hc) (go cs ts F)
            end) cs (contexts_of ks) Hall)
  | reads_not t ks u c Ht Ho Hu Hr Hc => Hnot t ks u c Ht Ho Hu Hr (reads_ind' c u Hc)
  | reads_comparison t ks l kp r o op x y H1 H2 H3 H4 H5 H6 H7 H8 H9 =>
      Hcompare false op x y t (reads_comparison t ks l kp r o op x y H1 H2 H3 H4 H5 H6 H7 H8 H9)
  | reads_null t ks l kn x H1 H2 H3 H4 => Hcompare true _ x _ t (reads_null t ks l kn x H1 H2 H3 H4)
  end.
End reads_induction.

Lemma connective_builds k r s ks ns :
  level k = Some (r, s) -> (1 < length ns)%nat -> Forall (fun u => is_rule s u = true) (contexts_of ks) ->
  Forall2 builds ns (contexts_of ks) -> builds (Node (connective_name k) "" ns) (Rule r ks).
Proof.
  intros Hl Hn Hr H. pose proof (Forall2_length _ _ _ H) as Hlen.
  assert (all_of (visited ks) s = accept <$> contexts_of ks) as Ha by (by rewrite all_of_visited, only_rule).
  assert (Nat.ltb 1 (count_of (visited ks) s) = true) as Hs.
  { apply Nat.ltb_lt. unfold count_of. rewrite Ha, length_fmap. lia. }
  unfold builds. destruct k; try discriminate; injection Hl as <- <-; rewrite visit_rule; cbn [method].
  - unfold visitOC_AndExpression. rewrite Hs, Ha. by apply internal_builds.
  - unfold visitOC_OrExpression. rewrite Hs, Ha. by apply internal_builds.
  - unfold visitOC_XorExpression. rewrite Hs, Ha. by apply internal_builds.
Qed.

Lemma partial_builds kp r y o op :
  contexts_of kp = [r] -> is_rule OC_StringListNullPredicateExpression r = true -> reads_operand y r ->
  read_operator o = Some op -> written o kp ->
  builds (Node op "" [operand_ast y]) (Rule OC_PartialComparisonExpression kp).
Proof.
  intros Hk (l & ->)%is_rule_inv Hy%operand_builds Ho Hw. unfold builds. rewrite visit_rule. cbn [method].
  unfold visitOC_PartialComparisonExpression. rewrite (operator_read o op) by done. children Hk. by apply internal_one.
Qed.

Lemma comparison_builds p op x y t : reads (Compare p op x y) t -> builds (where_ast (Compare p op x y)) t.
Proof.
  intros H. apply builds_descend. unfold builds.
  inversion H as [| |? ks l kp r o ? ? ? Ht Hk Hkp Hl Hr Ho Hw Hx Hy|? ks l kn ? Ht Hk Hl Hx]; subst.
  - pose proof (partial_builds kp r y o op Hkp Hr Hy (plain_operator_read _ _ Ho) Hw) as Hp. apply operand_builds in Hx.
    apply is_rule_inv in Hl as (kl & ->). rewrite Ht, visit_rule. cbn [method]. unfold visitOC_ComparisonExpression.
    children Hk.
    apply (internal_builds "COMPARISON" [_; _] [_; _]). by repeat constructor.
  - apply operand_builds in Hx. apply is_rule_inv in Hl as (kl & ->). rewrite Ht, visit_rule. cbn [method].
    unfold visitOC_StringListNullPredicateExpression, predicates. children Hk.
    rewrite Hx, visit_rule. cbn [method]. unfold visitOC_NullPredicateExpression, ASTLeafNoValue.
    by destruct (token (visited kn) "NOT").
Qed.

Lemma condition_builds c t : reads c t -> builds (where_ast c) t.
Proof.
  intros H. induction H as [k r s t ks cs Hl Ht Hn Hr H|t ks u c Ht Ho Hk Hu H|p op x y t H] using reads_ind'.
  - apply builds_descend. rewrite Ht.
    assert (where_ast (Logic k cs) = Node (connective_name k) "" (where_ast <$> cs)) as -> by (by destruct k).
    apply (connective_builds k r s); [done|by rewrite length_fmap|done|]. by apply Forall2_fmap_l.
  - apply builds_descend. rewrite Ht. apply is_rule_inv in Hu as (ku & ->). unfold builds. rewrite visit_rule. cbn [method].
    unfold visitOC_NotExpression. rewrite Ho. children Hk. by apply internal_one.
  - by apply comparison_builds.
Qed.

(** C37. The builder looks for the operator of a comparison in the text of the whole
    context, the shorter operators first: it takes >= for > and <= for =, so
    that the cases of these two operators are never reached. *)
Theorem comparison_misread kp r y :
  contexts_of kp = [r] -> is_rule OC_StringListNullPredicateExpression r = true -> reads_operand y r ->
  (written ">=" kp -> builds (Node ">" "" [operand_ast y]) (Rule OC_PartialComparisonExpression kp)) /\
  (written "<=" kp -> builds (Node "==" "" [operand_ast y]) (Rule OC_PartialComparisonExpression kp)).
Proof.
  intros Hk Hr Hy. split; intros Hw; [by apply (partial_builds kp r y ">=")|by apply (partial_builds kp r y "<=")].
Qed.
