(* ===== verification/ParsedQuery.v ===== *)
(** * ParsedQuery: a query from its parse tree to the client

    What the master does with a parse tree (CypherQueryExecutor.cpp): the
    syntax tree, the check of the variables, the plan and its text.  Together
    with OrderedQuery this is the way of a query from the parser to the rows
    that the client gets. *)
From Stdlib Require Import ZArith Ascii String Lia.
From stdpp Require Import base tactics numbers list strings sets gmap sorting.
From S2P Require Import Prelude Json SharedBuffer Pipelines ParallelExecutor CypherFilter FilterTheory.
From S2P Require Import CypherRuntime OrderBy OrderTheory MasterMerge RuntimeTheory ProjectionTheory CypherPlan CypherPlanner PlanTheory.
From S2P Require Import FStream PropertyLinks PropertyLinkTheory NodeBlock RelationBlock NodeManager PropertyOwners CypherScans ScanTheory QueryTheory OrderedQuery.
From S2P Require Import SemanticAnalyzer AstBuilder AstTheory.

(** ** The master *)

(** The plan of a query: the text stays empty when the variables of the query
    do not fit. *)
Definition plan_query `{JT : JsonText} (t : tree) : M aggregate string :=
  ast ← lift (a ← accept t; any_cast_node a);
  ok ← lift (analyze ast false "ANY" global_scope).1;
  if ok : bool then
    plan ← lift (createExecutionPlan ast None "");
    match plan with Some executionPlan => execute executionPlan | None => undef end
  else mret "".

(** ** Reading a query *)

(** MATCH (v) WHERE c *)
Inductive reads_match (v : string) (c : cond) (t : tree) : Prop :=
| read_match km kp kw part kn x e :
    descend t = Rule OC_Match km -> token (visited km) "OPTIONAL" = false ->
    contexts_of km = [Rule OC_Pattern kp; Rule OC_Where kw] ->
    contexts_of kp = [part] -> is_rule OC_PatternPart part = true -> descend part = Rule OC_NodePattern kn ->
    contexts_of kn = [x] -> is_rule OC_Variable x = true -> reads_variable v x ->
    contexts_of kw = [e] -> is_rule OC_Expression e = true -> reads c e -> reads_match v c t.

(** v.p1, v.p2, ... *)
Inductive reads_items (v : string) (props : list string) (t : tree) : Prop :=
| read_items first rest :
    t = Rule OC_ProjectionItems (first :: rest) -> getText first <> "*" ->
    Forall (fun i => is_rule OC_ProjectionItem i = true) (contexts_of (first :: rest)) ->
    Forall2 (fun p i => reads_operand (Lookup v [p]) i) props (contexts_of (first :: rest)) -> reads_items v props t.

(** ORDER BY v.k ASC *)
Inductive reads_order (v k : string) (t : tree) : Prop :=
| read_order ko ks e :
    t = Rule OC_Order ko -> contexts_of ko = [Rule OC_SortItem ks] ->
    token (visited ks) "ASC" || token (visited ks) "ASCENDING" = true -> contexts_of ks = [e] ->
    is_rule OC_Expression e = true -> reads_operand (Lookup v [k]) e -> reads_order v k t.

Inductive reads_query (v : string) (c : cond) (props : list string) (k : string) (t : tree) : Prop :=
| read_query kq reading ret kb items order :
    descend t = Rule OC_SinglePartQuery kq -> contexts_of kq = [reading; ret] ->
    is_rule OC_ReadingClause reading = true -> is_rule OC_Return ret = true -> reads_match v c reading ->
    descend ret = Rule OC_ProjectionBody kb -> token (visited kb) "DISTINCT" = false ->
    contexts_of kb = [items; order] -> reads_items v props items -> reads_order v k order ->
    reads_query v c props k t.

(** ** The syntax tree of the query *)

Lemma match_builds v c t : reads_match v c t -> builds (match_clause v c) t.
Proof.
  intros [km kp kw part kn x e Ht Ho Hm Hp Hpart Hn Hkn Hx Hv Hw He Hc]. apply builds_descend. unfold builds.
  apply is_rule_inv in Hpart as (lp & ->). apply is_rule_inv in Hx as (lx & ->). apply is_rule_inv in He as (le & ->).
  rewrite Ht, visit_rule. cbn [method]. unfold visitOC_Match. rewrite Ho. children Hm.
  apply (internal_builds "MATCH" [_; _] [_; _]). repeat constructor; unfold builds; rewrite visit_rule; cbn [method].
  - unfold visitOC_Pattern. rewrite all_of_visited, Hp. cbn [List.filter is_rule rule_beq fmap list_fmap].
    apply internal_one, builds_descend. unfold builds. rewrite Hn, visit_rule. cbn [method]. unfold visitOC_NodePattern.
    children Hkn. by apply internal_one, variable_builds.
  - unfold visitOC_Where. children Hw. by apply internal_one, condition_builds.
Qed.

Lemma items_builds v props t : reads_items v props t -> builds (return_body v props) t.
Proof.
  intros [first rest -> Hs Hr H]. unfold builds. rewrite visit_rule. cbn [method]. unfold visitOC_ProjectionItems.
  cbn [first_text visited List.map mbind outcome_bind]. apply String.eqb_neq in Hs. rewrite Hs. cbn [app].
  change ((first, _) :: _) with (visited (first :: rest)). rewrite all_of_visited, only_rule by done.
  apply internal_builds. rewrite Forall2_fmap_l. eapply Forall2_impl; [exact H|]. intros p i. by apply operand_builds.
Qed.

Lemma order_builds v k t : reads_order v k t -> builds (Node "ORDERED_BY" "" [order_clause v k]) t.
Proof.
  intros [ko ks e -> Hko Hasc Hks (le & ->)%is_rule_inv He]. unfold builds. rewrite visit_rule. cbn [method].
  unfold visitOC_Order. rewrite all_of_visited, Hko. cbn [List.filter is_rule rule_beq fmap list_fmap].
  apply internal_one. unfold builds. rewrite visit_rule. cbn [method]. unfold visitOC_SortItem. rewrite Hasc. children Hks.
  by apply internal_one, operand_builds.
Qed.

Lemma query_builds v c props k t : reads_query v c props k t -> builds (ordered_ast v c props k) t.
Proof.
  intros [kq reading ret kb items order Ht Hq (lr & ->)%is_rule_inv (lt & ->)%is_rule_inv Hm Hb Hd Hkb Hi Ho].
  apply builds_descend. unfold builds. rewrite Ht, visit_rule. cbn [method]. unfold visitOC_SinglePartQuery. children Hq.
  apply (internal_builds "SINGLE_QUERY" [_; _] [_; _]). repeat constructor; [by apply match_builds|].
  apply builds_descend. unfold builds. rewrite Hb, visit_rule. cbn [method]. unfold visitOC_ProjectionBody. rewrite Hd.
  pose proof (items_builds _ _ _ Hi) as Hi'. pose proof (order_builds _ _ _ Ho) as Ho'.
  destruct Hi as [first rest -> _ _ _]. destruct Ho as [ko ks e -> _ _ _ _ _]. children Hkb.
  apply (internal_builds "RETURN" [_; _] [_; _]). by repeat constructor.
Qed.

(** ** The variables of the query *)

(** Conditions on the properties of the variable [v] alone. *)
Definition simple_operand (v : string) (o : operand) : bool :=
  match o with
  | Lookup x ps => String.eqb x v && negb (Nat.eqb (length ps) 0)
  | Literal t (Some _) => existsb (String.eqb t) ["DECIMAL"; "REGULAR_DECIMAL"; "BOOLEAN"; "STRING"]
  | _ => false
  end.

Fixpoint simple_cond (v : string) (c : cond) : bool :=
  match c with
  | Compare false op l r =>
      existsb (String.eqb op) ["=="; "<>"; "<"; ">"] && simple_operand v l && simple_operand v r
  | Compare true op l (Literal t None) =>
      existsb (String.eqb op) ["=="; "<>"] && simple_operand v l && String.eqb t "NULL"
  | Logic (AND | OR) cs => forallb (simple_cond v) cs
  | _ => false
  end.

Lemma simple_literal t :
  existsb (String.eqb t) ["DECIMAL"; "REGULAR_DECIMAL"; "BOOLEAN"; "STRING"] = true ->
  t = "DECIMAL" \/ t = "REGULAR_DECIMAL" \/ t = "BOOLEAN" \/ t = "STRING".
Proof. cbn [existsb]. rewrite !orb_true_iff, !String.eqb_eq. naive_solver. Qed.

Lemma simple_operator op : existsb (String.eqb op) ["=="; "<>"; "<"; ">"] = true -> op = "==" \/ op = "<>" \/ op = "<" \/ op = ">".
Proof. cbn [existsb]. rewrite !orb_true_iff, !String.eqb_eq. naive_solver. Qed.

Lemma simple_plain_operand v o : simple_operand v o = true -> plain_operand o = true.
Proof. destruct o as [| |t [val|]]; try done. by intros [-> | [-> | [-> | ->]]]%simple_literal. Qed.

Lemma simple_plain v c : simple_cond v c = true -> plain_cond c = true.
Proof.
  induction c as [[] op l r|k cs IH] using cond_ind'; cbn [simple_cond plain_cond].
  - destruct r as [| |t [|]]; try done. rewrite !andb_true_iff. intros [[Hop Hl] Ht].
    split_and!; [by eapply simple_plain_operand|done|]. cbn [existsb] in Hop. rewrite !orb_true_iff in *. naive_solver.
  - rewrite !andb_true_iff. intros [[_ Hl] Hr]. split; by eapply simple_plain_operand.
  - rewrite Forall_forall in IH. intros H. assert (forallb plain_cond cs = true) as Hcs; [|by destruct k].
    assert (forallb (simple_cond v) cs = true) as Hs by (by destruct k). rewrite forallb_elem in *. auto.
Qed.

Lemma operand_no_call v o : simple_operand v o = true -> isAvailable "FUNCTION_BODY" (operand_ast o) = false.
Proof.
  destruct o as [x ps| |t [val|]]; try done; cbn [simple_operand].
  - intros _. cbn. induction ps as [|p ps IH]; [done|exact IH].
  - by intros [-> | [-> | [-> | ->]]]%simple_literal.
Qed.

Lemma simple_no_call v c : simple_cond v c = true -> isAvailable "FUNCTION_BODY" (where_ast c) = false.
Proof.
  induction c as [[] op l r|k cs IH] using cond_ind'; cbn [simple_cond].
  - destruct r as [| |t [|]]; try done. rewrite !andb_true_iff. intros [[Hop Hl] Ht]. cbn [where_ast isAvailable existsb].
    rewrite (operand_no_call v) by done. by destruct (String.eqb op "<>").
  - rewrite !andb_true_iff. intros [[Hop Hl] Hr]. cbn [where_ast isAvailable existsb].
    rewrite !(operand_no_call v) by done. by apply simple_operator in Hop as [-> | [-> | [-> | ->]]].
  - rewrite Forall_forall in IH. intros H. assert (forallb (simple_cond v) cs = true) as Hs by (by destruct k).
    assert (existsb (isAvailable "FUNCTION_BODY") (where_ast <$> cs) = false) as E; [|by destruct k].
    rewrite forallb_elem in Hs. apply existsb_false. intros a (c & -> & Hc)%list_elem_of_fmap. auto.
Qed.

(** The occurrences below a node are uses of [v] as something with properties. *)
Definition only_uses (v : string) (l : list occurrence) : Prop := Forall (eq (Uses v "LOOKUP")) l.
Definition uses_only (v : string) (a : ASTNode) : Prop :=
  exists l, occurrences a false "ANY" = Ret l /\ only_uses v l.

(** The types of nodes that the analysis treats in a special way. *)
Definition ordinary (t : string) : bool :=
  negb (existsb (String.eqb t) ["VARIABLE"; "AS"; "YIELD"; "="; "NODE_PATTERN"; "RELATIONSHIP_DETAILS"; "LIST_ITERATE";
                                "NON_ARITHMETIC_OPERATOR"; "EXISTS"; "WITH"]).

Lemma ordinary_uses v t x els : ordinary t = true -> Forall (uses_only v) els -> uses_only v (Node t x els).
Proof.
  intros Ht H. unfold uses_only. assert (occurrences (Node t x els) false "ANY" = occ_all (List.map occurrences els)) as ->.
  { cbn [occurrences]. unfold ordinary in Ht. apply negb_true_iff in Ht. cbn [existsb] in Ht.
    repeat (apply orb_false_iff in Ht as [? Ht]).
    repeat match goal with H : String.eqb t _ = false |- _ => rewrite H; clear H end. done. }
  induction H as [|a els (l & Hl & Hu) _ (l' & Hl' & Hu')]; [exists []; split; [done|constructor]|]. exists (l ++ l'). cbn [List.map occ_all].
  rewrite Hl, Hl'. split; [done|]. by apply Forall_app_2.
Qed.

Lemma lookup_uses v p ps : uses_only v (operand_ast (Lookup v (p :: ps))).
Proof. exists [Uses v "LOOKUP"]. split; [done|]. by repeat constructor. Qed.

Lemma operand_uses v o : simple_operand v o = true -> uses_only v (operand_ast o).
Proof.
  destruct o as [x [|p ps]| |t [val|]]; try done; cbn [simple_operand].
  - by rewrite andb_false_r.
  - rewrite andb_true_r. intros ->%String.eqb_eq. apply lookup_uses.
  - by intros [-> | [-> | [-> | ->]]]%simple_literal; apply ordinary_uses.
Qed.

Lemma simple_uses v c : simple_cond v c = true -> uses_only v (where_ast c).
Proof.
  induction c as [[] op l r|k cs IH] using cond_ind'; cbn [simple_cond].
  - destruct r as [| |t [|]]; try done. rewrite !andb_true_iff. intros [[Hop Hl] Ht]. apply ordinary_uses; [done|].
    repeat constructor; [by apply operand_uses|]. apply ordinary_uses; [done|]. repeat constructor.
    by destruct (String.eqb op "<>"); apply ordinary_uses.
  - rewrite !andb_true_iff. intros [[Hop Hl] Hr]. apply ordinary_uses; [done|].
    repeat constructor; [by apply operand_uses|].
    apply ordinary_uses; [by apply simple_operator in Hop as [-> | [-> | [-> | ->]]]|].
    repeat constructor. by apply operand_uses.
  - rewrite Forall_forall in IH. intros H. assert (forallb (simple_cond v) cs = true) as Hs by (by destruct k).
    rewrite forallb_elem in Hs.
    assert (Forall (uses_only v) (where_ast <$> cs)) as E; [|by destruct k; try done; apply ordinary_uses].
    apply Forall_fmap, Forall_forall. intros c Hc. apply IH; auto.
Qed.

(** The whole query declares [v] as a node and then only looks at it. *)
Lemma query_occurrences v c props k :
  simple_cond v c = true ->
  exists l, occurrences (ordered_ast v c props k) false "ANY" = Ret (Declares v "NODE" :: l) /\ only_uses v l.
Proof.
  intros Hc.
  assert (uses_only v (Node "WHERE" "" [where_ast c])) as (l1 & E1 & U1).
  { apply ordinary_uses; [done|]. repeat constructor. by apply simple_uses. }
  assert (uses_only v (Node "RETURN" "" [return_body v props; Node "ORDERED_BY" "" [order_clause v k]])) as (l2 & E2 & U2).
  { apply ordinary_uses; [done|]. repeat constructor; (apply ordinary_uses; [done|]).
    - apply Forall_fmap, Forall_true. intros p. apply lookup_uses.
    - repeat constructor. apply ordinary_uses; [done|]. repeat constructor. apply lookup_uses. }
  exists (l1 ++ [] ++ l2 ++ []). split; [|by apply Forall_app_2; [|rewrite app_nil_l, app_nil_r]].
  unfold ordered_ast.
  transitivity (l ← occurrences (match_clause v c) false "ANY";
    l' ← (l'' ← occurrences (Node "RETURN" "" [return_body v props; Node "ORDERED_BY" "" [order_clause v k]]) false "ANY"; Ret (l'' ++ []));
    Ret (l ++ l')); [done|]. rewrite E2.
  assert (occurrences (match_clause v c) false "ANY" =
    (l' ← (l'' ← occurrences (Node "WHERE" "" [where_ast c]) false "ANY"; Ret (l'' ++ [])); Ret ([Declares v "NODE"] ++ l'))) as -> by done.
  rewrite E1. cbn [mbind outcome_bind app]. by rewrite !app_nil_r.
Qed.

Lemma query_accepted v c props k :
  simple_cond v c = true -> (analyze (ordered_ast v c props k) false "ANY" global_scope).1 = Ret true.
Proof.
  intros Hc. destruct (query_occurrences v c props k Hc) as (l & Hl & Hu).
  rewrite (analyze_checks _ _ _ _ _ Hl).
  destruct (check_all_spec (Declares v "NODE" :: l) global_scope) as (b & s' & Hb & Hok & _); [done|].
  rewrite Hb. cbn [fst]. f_equal. apply Hok. split.
  - intros [|i] x t Hi; [done|]. right. exists 0%nat, "NODE". split; [lia|]. cbn in Hi.
    assert (Uses v "LOOKUP" = Uses x t) as [= <- <-] by (by eapply (Forall_lookup_1 _ _ _ _ Hu)). done.
  - exists {[v := "NODE"]}. split; [cbn; rewrite map_union_empty; apply map_empty_subseteq|].
    constructor; [apply lookup_singleton_eq|]. eapply Forall_impl; [exact Hu|]. intros o <-. exists "NODE".
    by rewrite lookup_singleton_eq.
Qed.

(** ** The way of the query *)

(** A key of ORDER BY without a direction: the builder takes it as descending. *)
Theorem default_order_descends ks e o :
  contexts_of ks = [e] -> is_rule OC_Expression e = true -> reads_operand o e ->
  token (visited ks) "ASC" = false -> token (visited ks) "ASCENDING" = false ->
  builds (Node "DESC" "" [operand_ast o]) (Rule OC_SortItem ks).
Proof.
  intros Hk (l & ->)%is_rule_inv Ho H1 H2. unfold builds. rewrite visit_rule. cbn [method]. unfold visitOC_SortItem.
  rewrite H1, H2. children Hk. by apply internal_one, operand_builds.
Qed.

Section parsed.
Context {HM : HostMemory} `{JT : JsonText} `{PQ : PriorityQueue}.
Context (v : string) (c : cond) (props : list string) (k : string).

Lemma plan_of_query t op text a a' :
  builds (ordered_ast v c props k) t -> simple_cond v c = true ->
  createExecutionPlan (ordered_ast v c props k) None "" = Ret (Some op) -> execute op a = (Ret text, a') ->
  plan_query t a = (Ret text, a').
Proof.
  intros Ht Hc Hop Hex. unfold plan_query, lift, mbind, M_bind. rewrite Ht. cbn [outcome_bind any_cast_node mbind].
  rewrite query_accepted, Hop by done. done.
Qed.

End parsed.
