(* ===== verification/CypherSamples.v ===== *)
(** * CypherSamples: queries on a small store

    Three nodes with labels, properties and partitions, written by the
    operations of the store themselves, and for each theorem of the query
    processor an instance in which its hypotheses hold. *)
From Stdlib Require Import ZArith Ascii String Lia.
From stdpp Require Import base tactics numbers list strings gmap sets.
From S2P Require Import Prelude FStream PropertyLinks PropertyLinkTheory NodeBlock RelationBlock.
From S2P Require Import NodeRelations NodeManager GraphFiles GraphTheory ManagerTheory ManagerQueries Samples.
From S2P Require Import Json JsonPrinter SharedBuffer Pipelines ParallelExecutor CypherFilter FilterTheory.
From S2P Require Import CypherRuntime OrderBy OrderTheory RuntimeTheory ProjectionTheory CypherScans ScanTheory.
From S2P Require Import MasterMerge CypherPlan CypherPlanner PlannerTheory PlanTheory QueryTheory OrderedQuery SemanticAnalyzer.
#[local] Open Scope Z_scope.
#[local] Open Scope string_scope.

#[local] Ltac by_computation := by apply (bool_decide_unpack _); vm_compute.

(** ** A store *)

Definition describe (nid label name age pid : string) : M manager unit :=
  n ← NodeManager.load nid;
  n ← on_store (addLabel n (resize 118 nul (chars label)));
  n ← on_store (addProperty n "name" (text name));
  n ← on_store (addProperty n "age" (text age));
  n ← on_store (addMetaProperty n "partitionID" (text pid));
  mret tt.

Definition people : manager :=
  ((_ ← describe "1" "Person" "Ann" "41" "0";
    _ ← describe "2" "Child" "Bob" "12" "0";
    describe "3" "Person" "Eve" "50" "1") sample).2.

Definition people_nodes : list (list ascii) := chop 140 3 (fs_data (nodesDB (dbs people))).
Definition people_props : list (list ascii) := chop 434 7 (fs_data (ldb (propertiesDB (dbs people)))).
Definition people_meta : list (list ascii) := chop 416 4 (fs_data (ldb (metaPropertiesDB (dbs people)))).

Definition person (nid : string) (i : nat) (label name age pid : string) : listed :=
  mkListed nid i pid label {["name" := name; "age" := age]}.

Definition people_list : list listed :=
  [person "1" 0 "Person" "Ann" "41" "0"; person "2" 1 "Child" "Bob" "12" "0"; person "3" 2 "Person" "Eve" "50" "1"].

Lemma files_of_blocks s nbs :
  bool_decide (fs_fail (nodesDB s) = false /\ fs_data (nodesDB s) = concat nbs /\
    Forall (fun b => length b = 140%nat) nbs /\
    Forall (fun k => fs_fail (rel_file k s) = false /\ fs_data (rel_file k s) = concat (rblocks k) /\
      Forall (fun b => length b = rsize k) (rblocks k) /\ (2 <= length (rblocks k))%nat /\
      nextRelationIndex k s = Z.of_nat (length (rblocks k))) [Local; Central]) ->
  files s nbs rblocks.
Proof.
  rewrite bool_decide_spec, Forall_cons, Forall_singleton. intros (H1 & H2 & H3 & HL & HC).
  split; [exact (conj H1 (conj H2 H3))|].
  intros []; [destruct HL as (? & ? & ? & ? & ?)|destruct HC as (? & ? & ? & ? & ?)];
    (split; [repeat split; assumption|right; split; assumption]).
Qed.

Lemma people_store : node_store (dbs people) people_nodes rblocks people_props people_meta.
Proof.
  split; [apply files_of_blocks; by vm_compute| |];
    (split_and!; [by vm_compute..|split; [by vm_compute|by_computation]|right]);
    (by split_and!; [vm_compute; lia|vm_compute..]).
Qed.

(** The blocks of a list, one after the other. *)
Ltac chain_by_computation :=
  match goal with
  | |- @PropertyLinkTheory.chain ?C ?bs ?a [] => replace a with 0 by (by vm_compute); constructor
  | |- @PropertyLinkTheory.chain ?C ?bs ?a ((?i, ?nm, ?v) :: ?es) =>
      replace a with (@laddr C i) by (by vm_compute);
      replace v with (@bvalue C (nth i bs [])) by (by vm_compute);
      apply (@PropertyLinkTheory.chain_cons C bs i (nth i bs []) nm es); [lia|by vm_compute|by vm_compute|chain_by_computation]
  end.

Lemma person_describes nid i label name age pid b :
  people_nodes !! i = Some b -> nul ∈ nf_label b -> naddress i < 4294967296 -> block_label b = Some label ->
  @PropertyLinkTheory.chain MetaPropertyLink people_meta (nf32 18 b) [(S i, "partitionID", resize 400 nul (chars pid))] ->
  @PropertyLinkTheory.chain PropertyLink people_props (nf32 14 b) [(2 * i + 1, "name", text name); (2 * i + 2, "age", text age)]%nat ->
  cstring (resize 400 nul (chars pid)) = Some pid ->
  readable_values [(2 * i + 1, "name", text name); (2 * i + 2, "age", text age)]%nat ->
  props [(2 * i + 1, "name", text name); (2 * i + 2, "age", text age)]%nat = {["name" := name; "age" := age]} ->
  describes people_nodes people_props people_meta (person nid i label name age pid).
Proof.
  intros Hb Hn Ha Hl Hm Hp Hv Hr Hps. exists b. refine (conj Hb (conj Hn (conj Ha (conj Hl _)))). split.
  - by exists (S i), "partitionID", (resize 400 nul (chars pid)), [].
  - right. eexists. split; [|split; [exact Hp|by split]]. discriminate.
Qed.

Lemma people_opened : opened people_nodes rblocks people_props people_meta people people_list.
Proof.
  split; [exact people_store|].
  repeat (apply Forall_cons_2; [split; [|by vm_compute]|]); [..|apply Forall_nil_2];
    (eapply person_describes;
      [vm_compute; reflexivity|by_computation|by vm_compute|by vm_compute|chain_by_computation|chain_by_computation|
       by vm_compute|by_computation|by vm_compute]).
Qed.

#[local] Opaque people people_nodes people_props people_meta.

(** ** Scans *)

(** The rows of the nodes of partition 0. *)
Definition ann : list (string * json) :=
  [("age", JString "41"); ("name", JString "Ann"); ("partitionID", JString "0")].

Definition ann_row : list (string * json) := [("n", JObject ann)].

Definition bob : list (string * json) :=
  [("age", JString "12"); ("name", JString "Bob"); ("partitionID", JString "0")].
Definition bob_row : list (string * json) := [("n", JObject bob)].


Lemma all_node_scan_rows_witness :
  exists m', AllNodeScan 0 4 (fun _ => dbs people) (JObject [("variables", JString "n")])
      (entry_of <$> people_list) people = (Ret [row_text ann_row; row_text bob_row], m').
Proof.
  destruct (all_node_scan_rows 0 people_nodes rblocks people_props people_meta 4 (fun _ => dbs people)
    (JObject [("variables", JString "n")]) "n" people_list people) as (m' & H & _);
    [reflexivity|exact people_opened|lia|cbn; lia|intros _; exact people_store|].
  exists m'. rewrite H. f_equal.
Defined.

Definition label_query : json := JObject [("Label", JString "Person"); ("variable", JString "n")].

Lemma label_scan_rows_witness :
  (exists m', NodeScanByLabel_sequential 0 label_query ((entry_of <$> people_list).*1) people =
    (Ret [row_text ann_row], m')) /\
  NodeScanByLabelParallel 0 4 (fun _ => dbs people) label_query (entry_of <$> people_list) =
    Ret [dump (JObject ann)].
Proof.
  destruct (label_scan_rows 0 people_nodes rblocks people_props people_meta 4 (fun _ => dbs people)
    label_query "n" "Person" people_list people) as [(m' & H1) H2];
    [reflexivity|reflexivity|exact people_opened|lia|cbn; lia|intros _; exact people_store|].
  split; [exists m'; rewrite H1; f_equal|]. rewrite H2. reflexivity.
Defined.

Definition directed_query : json :=
  JObject [("destVariable", JString "b"); ("direction", JString "right"); ("relVariable", JString "r");
           ("sourceVariable", JString "a")].

Lemma local_blocks : relation_blocks Local (dbs sample) = 3.
Proof. vm_compute. reflexivity. Qed.

Lemma local_scan_empty :
  (scan_kind 0 Local (mkTests true false false) directed_query (directed_row true directed_query) (dbs sample)).1 = Ret [].
Proof. vm_compute. reflexivity. Qed.

(** The sample has two local relationships. *)
Lemma directed_all_scan_local_witness :
  relation_blocks Local (dbs sample) = 3 /\
  (scan_kind 0 Local (mkTests true false false) directed_query (directed_row true directed_query) (dbs sample)).1 = Ret [] /\
  DirectedAllRelationshipScanParallel 0 true 4 (fun _ => dbs sample) directed_query (dbs sample) = (Undef, dbs sample).
Proof.
  split; [exact local_blocks|].
  destruct (scan_kind 0 Local (mkTests true false false) directed_query (directed_row true directed_query) (dbs sample))
    as [o s'] eqn:E.
  assert (exists rows, o = Ret rows) as [rows ->].
  { exists []. rewrite <- local_scan_empty, E. reflexivity. }
  destruct (directed_all_scan_local 0 true directed_query (dbs sample) rows s' eq_refl) as [H1 H2].
  split; [cbn [fst]; f_equal; exact (H1 E)|]. 
  refine (H2 4 (fun _ => dbs sample) _ _); [lia|]. rewrite local_blocks. lia.
Defined.

(** ** Conditions *)

Definition adult : cond := Compare false ">" (Lookup "n" ["age"]) (Literal "DECIMAL" (Some "18")).
Definition named (s : string) : cond := Compare false "==" (Lookup "n" ["name"]) (Literal "STRING" (Some s)).
Definition ageless : cond := Compare true "==" (Lookup "n" ["age"]) (Literal "NULL" None).

(** A grown-up called Ann, and a row without an email that is not Bob's. *)
Definition adult_ann : test := AllOf [NumberTest "n" "age" Greater 18; TextTest "n" "name" true "Ann"].
Definition nobody : test := AnyOf [NullTest "n" "email" false; TextTest "n" "name" true "Bob"].

Lemma ann_satisfies : satisfies ann_row adult_ann /\ ~ satisfies ann_row nobody.
Proof.
  split.
  - split; [|split; [|done]].
    + exists "41", 41. split; [reflexivity|]. split; [by apply (numeral_show 41)|cbn; lia].
    + exists "Ann". by split.
  - intros [H|[(s & [= <-] & H)|[]]]; [by apply H|discriminate H].
Qed.

Lemma ann_readable : readable ann_row adult_ann /\ readable ann_row nobody.
Proof.
  assert (forall p, p = "age" \/ p = "name" \/ p = "email" -> has_text ann_row "n" p) as H.
  { intros p Hp. eexists. split; [reflexivity|]. destruct Hp as [-> | [-> | ->]]; cbn; eauto. }
  split; cbn [readable foldr adult_ann nobody]; split_and!; auto; done.
Qed.


Lemma filter_connectives_witness :
  evaluated ann_row (Logic XOR [adult; named "'Bob'"; named "'Ann'"]) = Ret false /\
  evaluated ann_row (Logic NOT [adult]) = Ret true.
Proof.
  split.
  - destruct (filter_connectives ann_row [adult; named "'Bob'"; named "'Ann'"]
      (fun c => match evaluated ann_row c with Ret b => b | _ => false end)) as (_ & _ & -> & _);
      [reflexivity|reflexivity| |reflexivity].
    intros c Hc. rewrite !elem_of_cons in Hc. destruct Hc as [->|[->|[->|Hc]]]; [reflexivity..|by apply elem_of_nil in Hc].
  - destruct (filter_connectives ann_row [adult] (fun _ => true)) as (_ & _ & _ & H);
      [reflexivity|reflexivity| |by apply (H adult)].
    intros c Hc. apply elem_of_cons in Hc as [->|Hc]; [reflexivity|by apply elem_of_nil in Hc].
Defined.

Lemma filter_decimal_witness :
  evaluated ann_row (Compare false ">" (Lookup "n" ["age"]) (Literal "DECIMAL" (Some (show_long 18)))) = Ret true /\
  evaluated ann_row (Compare false "<>" (Lookup "n" ["name"]) (Literal "DECIMAL" (Some (show_long 18)))) = Ret false.
Proof.
  split.
  - destruct (filter_decimal ann_row "n" ann "age" ">" 18) as [H _]; [reflexivity|reflexivity|reflexivity|lia|].
    rewrite (H 41); [reflexivity|lia|reflexivity].
  - destruct (filter_decimal ann_row "n" ann "name" "<>" 18) as [_ H]; [reflexivity|reflexivity|reflexivity|lia|].
    apply H. right. exists "Ann". split; [reflexivity|by vm_compute].
Defined.

(** ** Operators *)

Definition is_adult (row : list (string * json)) : bool := match holds row adult with Ret b => b | _ => false end.

Lemma filter_keeps_true_witness :
  transform (Filter (Some 4) (JObject [("condition", cond_json adult)])) [] (row_text <$> [ann_row; bob_row]) =
    Ret [row_text ann_row].
Proof.
  rewrite (filter_keeps_true (Some 4) (JObject [("condition", cond_json adult)]) adult [ann_row; bob_row] is_adult);
    [reflexivity|reflexivity|reflexivity|].
  intros row Hrow. rewrite !elem_of_cons in Hrow.
  destruct Hrow as [->|[->|Hrow]]; [by split..|by apply elem_of_nil in Hrow].
Defined.

Definition no_columns : json := JObject [("project", JArray [])].

Lemma distinct_keeps_duplicates_witness :
  exists out, transform (Distinct no_columns) tt [row_text ann_row; row_text ann_row] = Ret out /\
    length out = 2%nat /\ out !! 0%nat = out !! 1%nat.
Proof.
  destruct (transform (Distinct no_columns) tt [row_text ann_row; row_text ann_row]) as [out| | | | |] eqn:E;
    [|by vm_compute in E..].
  exists out. split; [reflexivity|]. destruct (distinct_keeps_duplicates _ _ _ E) as [Hlen Hdup].
  split; [exact Hlen|]. destruct (lookup_lt_is_Some_2 out 0) as [b Hb]; [rewrite Hlen; cbn; lia|].
  rewrite Hb. symmetry. by apply (Hdup 0%nat 1%nat (row_text ann_row) b).
Defined.

Definition age_row (age : Z) : string := dump (JObject [("age", JInt age)]).

Lemma order_by_sorts_witness :
  exists out, transform (OrderBy_stage 64 (fun _ => true) "age" "ASC") (mkSorter [] 0 [] 0) [age_row 41; age_row 12] = Ret out /\
    out ≡ₚ [age_row 41; age_row 12].
Proof.
  destruct (order_by_sorts 64 (fun _ => true) "age" [age_row 41; age_row 12]) as (out & H & Hp & _).
  - reflexivity.
  - by_computation.
  - right. repeat (apply Forall_cons_2; [by eexists|]). apply Forall_nil_2.
  - exists out. split; [exact H|]. exact Hp.
Defined.

Definition age_of (age : Z) : Row := mkRow (JObject [("age", JInt age)]) (age_row age) 0.

Lemma order_by_descending_witness :
  DynamicComparator "age" false (age_of 41) (age_of 41) = true /\
  DynamicComparator "age" false (age_of 41) (age_of 12) = DynamicComparator "age" true (age_of 41) (age_of 12).
Proof.
  destruct (order_by_descending "age" (age_of 41) (age_of 12)) as [H1 H2].
  - right. repeat (apply Forall_cons_2; [by eexists|]). apply Forall_nil_2.
  - split; [exact H1|]. apply H2; [discriminate|]. intros x y [= <-] [= <-]. by split.
Defined.

(** ** Pipelines *)

Definition name_query : json := JObject [("variable", strings_json ["n"])].

Lemma pipeline_delivers_witness :
  always (query_done [row_text ann_row])
    (start_query [row_text ann_row; row_text bob_row]
       [Filter (Some 4) (JObject [("condition", cond_json adult)]); ProduceResult name_query]).
Proof.
  apply pipeline_delivers.
  - apply Forall_cons_2; [apply Filter_well_behaved|]. apply Forall_cons_2; [apply ProduceResult_well_behaved|apply Forall_nil_2].
  - by_computation.
  - vm_compute. reflexivity.
Defined.

(** ** Plans *)

Definition node_pattern (v : string) (more : list ASTNode) : ASTNode := Node "NODE_PATTERN" "" (leaf "VARIABLE" v :: more).
Definition link (arrow : string) (v : string) (more : list ASTNode) (node : ASTNode) : ASTNode :=
  Node "PATTERN_ELEMENT_CHAIN" ""
    [Node "RELATIONSHIP_PATTTERN" "" [leaf arrow ""; Node "RELATIONSHIP_DETAILS" "" (leaf "VARIABLE" v :: more)]; node].
Definition of_type (t : string) : ASTNode := Node "RELATIONSHIP_TYPE" "" [leaf "SYMBOLIC_WORD" t].
Definition with_name (s : string) : ASTNode :=
  Node "PROPERTIES_MAP" "" [Node "PROPERTY" "" [leaf "SYMBOLIC_WORD" "name"; leaf "STRING" s]].

(** [(a)<-[r:KNOWS]-(b)-[s]->(c)] *)
Definition friends : ASTNode :=
  Node "PATTERN_ELEMENTS" ""
    [node_pattern "a" []; link "LEFT_ARRROW" "r" [of_type "KNOWS"] (node_pattern "b" []);
     link "RIGHT_ARROW" "s" [] (node_pattern "c" [])].

Definition friends_edges : list edge := [mkEdge "a" "b" "r" "KNOWS" "left"; mkEdge "b" "c" "s" "null" "right"].

Lemma path_plan_covers_witness :
  exists op, pathPatternHandler friends None = Ret op /\ covers friends_edges op /\
    plan_edges op = [mkEdge "b" "c" "s" "null" "right"; mkEdge "a" "b" "r" "KNOWS" "left"].
Proof.
  pose proof (path_plan_covers friends (node_pattern "a" []) "a" friends_edges eq_refl eq_refl eq_refl
    ltac:(discriminate)) as H. cbn -[pathPatternHandler covers] in H.
  destruct H as (op & Hop & Hcov). exists op. split; [exact Hop|]. split; [exact Hcov|].
  by injection Hop as <-.
Defined.

(** [(a {name: 'Ann'})-[r]->(b)] *)
Definition from_ann : ASTNode :=
  Node "PATTERN_ELEMENTS" "" [node_pattern "a" [with_name "'Ann'"]; link "RIGHT_ARROW" "r" [] (node_pattern "b" [])].

Lemma directed_plan_drops_properties_witness :
  exists op, pathPatternHandler from_ann None = Ret op /\ Forall compares_relationships (plan_cases op).
Proof.
  eexists. split; [reflexivity|].
  apply (directed_plan_drops_properties from_ann (node_pattern "a" [with_name "'Ann'"]) "a"
    [mkEdge "a" "b" "r" "null" "right"]); reflexivity.
Defined.

(** Anonymous nodes: [()-[r:KNOWS]->()-[s]->()] gives the second and the third
    node the same variable. *)
Definition anonymous : ASTNode :=
  let node := Node "NODE_PATTERN" "" [] in
  Node "PATTERN_ELEMENTS" "" [node; link "RIGHT_ARROW" "r" [of_type "KNOWS"] node; link "RIGHT_ARROW" "s" [] node].

Example anonymous_nodes_collide :
  plan_edges <$> (match pathPatternHandler anonymous None with Ret op => Some op | _ => None end) =
  Some [mkEdge "node_var_1" "node_var_1" "s" "null" "right"; mkEdge "node_var_0" "node_var_1" "r" "KNOWS" "right"].
Proof. reflexivity. Qed.

(** [(a)-->(b)]: a relationship without brackets has no details to read. *)
Example bare_relationship_undefined :
  pathPatternHandler
    (Node "PATTERN_ELEMENTS" "" [node_pattern "a" [];
       Node "PATTERN_ELEMENT_CHAIN" "" [Node "RELATIONSHIP_PATTTERN" "" [leaf "RIGHT_ARROW" ""]; node_pattern "b" []]]) None =
  Undef.
Proof. reflexivity. Qed.

(** A pattern with two labels and a property map: only one condition is left
    of the cases of its filter. *)
Example last_case_wins :
  execute (Op.Filter (Some (Op.AllNodeScan "n"))
    [("n", Node "NODE_LABEL" "" [leaf "SYMBOLIC_WORD" "Person"]); ("n", with_name "'Ann'")]) no_aggregate =
  execute (Op.Filter (Some (Op.AllNodeScan "n")) [("n", with_name "'Ann'")]) no_aggregate.
Proof. reflexivity. Qed.

(** LIMIT has no text, and the worker does not know a scan for several labels. *)
Example limit_cannot_run :
  (t ← execute (Op.ProduceResults (Some (Op.Limit (Some (Op.AllNodeScan "n")) (leaf "DECIMAL" "1"))) [leaf "VARIABLE" "n"]);
   lift (CypherPlan.load 64 (fun _ => true) None 5 t)) no_aggregate = (Throw json_error, no_aggregate).
Proof. reflexivity. Qed.

Example several_labels_cannot_run :
  (t ← execute (Op.MultipleNodeScanByLabel ["Person"; "Child"] "n");
   lift (CypherPlan.load 64 (fun _ => true) None 5 t)) no_aggregate = (Throw bad_function_call, no_aggregate).
Proof. reflexivity. Qed.

Lemma where_clause_runs_witness :
  (t ← analyzeWhere (where_ast (Logic AND [adult; Logic OR [ageless; named "'Ann'"]]));
   evaluate t (dump (JObject ann_row))) = Ret true.
Proof. rewrite (where_clause_runs (Logic AND [adult; Logic OR [ageless; named "'Ann'"]]) ann_row); reflexivity. Defined.

Lemma where_xor_not_witness :
  analyzeWhere (where_ast (Logic XOR [adult; ageless])) = Throw json_error /\
  (t ← analyzeWhere (where_ast (Logic NOT [adult])); evaluate t (dump (JObject ann_row))) = Ret false.
Proof.
  apply (where_xor_not adult [ageless] ann_row); [|reflexivity].
  intros c Hc. rewrite !elem_of_cons in Hc. destruct Hc as [->|[->|Hc]]; [by split..|by apply elem_of_nil in Hc].
Defined.

(** MATCH (n) WHERE n.age > 18 RETURN n.name, n.email *)
(** The nodes over eighteen. *)
Definition adult_test : test := NumberTest "n" "age" Greater 18.

Lemma people_readable d : d ∈ people_list -> readable [("n", JObject (node_fields d))] adult_test.
Proof.
  intros Hd. unfold people_list in Hd. rewrite !elem_of_cons in Hd. split; [|lia].
  destruct Hd as [->|[->|[->|Hd]]]; [..|by apply elem_of_nil in Hd]; (eexists; split; [reflexivity|]; cbn; eauto).
Qed.

Lemma adult_satisfies d : d ∈ people_list ->
  is_adult [("n", JObject (node_fields d))] = true <-> satisfies [("n", JObject (node_fields d))] adult_test.
Proof.
  intros Hd. destruct (test_holds _ _ (people_readable d Hd)) as (r & E & H). rewrite <- H. unfold is_adult.
  change adult with (test_cond adult_test). by rewrite E.
Qed.


(** ** The master *)

Lemma results_collected_witness :
  collect_leads (fun c => collected_all [["a"; "b"]; []; ["c"]] c /\ written c ≡ₚ ["a"; "b"; "c"])
    (mkCollecting [["a"; "b"; "-1"]; ["-1"]; ["c"; "-1"]] 0 []).
Proof. apply (results_collected [["a"; "b"]; []; ["c"]]). by_computation. Defined.

Lemma master_merge_sorts_witness :
  exists out, order_results "age" true [[age_row 12; age_row 41; END]; [END]; [age_row 30; END]] = Ret out /\
    out ≡ₚ [age_row 12; age_row 41; age_row 30].
Proof.
  destruct (master_merge_sorts "age" [[age_row 12; age_row 41]; []; [age_row 30]]) as (out & H1 & H2 & _).
  - intros f s Hf Hs. rewrite !elem_of_cons, elem_of_nil in Hf.
    destruct Hf as [->|[->|[->|[]]]]; rewrite ?elem_of_cons, ?elem_of_nil in Hs.
    + destruct Hs as [->|[->|[]]]; (split_and!; [discriminate|discriminate|by eexists]).
    + destruct Hs.
    + destruct Hs as [->|[]]; (split_and!; [discriminate|discriminate|by eexists]).
  - intros f Hf. rewrite !elem_of_cons, elem_of_nil in Hf.
    destruct Hf as [->|[->|[->|[]]]]; (split; [repeat constructor|]);
      repeat (apply Forall_cons_2; [by eexists|]); apply Forall_nil_2.
  - right. repeat (apply Forall_cons_2; [by eexists|]). apply Forall_nil_2.
  - exists out. split; [exact H1|exact H2].
Defined.

(** Two workers, with the partitions 0 and 1 of the store. *)
Definition worker_of (pid : Z) : query_worker :=
  mkQueryWorker pid people_nodes rblocks people_props people_meta people_list people 4 (fun _ => dbs people).

Definition eve : list (string * json) :=
  [("age", JString "50"); ("name", JString "Eve"); ("partitionID", JString "1")].

Lemma worker_of_ok pid : worker_ok "n" adult (fun n => is_adult [("n", JObject n)]) (worker_of pid).
Proof.
  split; [exact people_opened|]. split; [cbn; lia|]. split; [cbn; lia|]. split; [intros ch; exact people_store|].
  intros n Hn. apply list_elem_of_fmap in Hn as (d & -> & Hd). apply list_elem_of_In, List.filter_In in Hd as [Hd _].
  apply list_elem_of_In in Hd. cbn [worker_of w_index] in Hd. unfold people_list in Hd. rewrite !elem_of_cons in Hd.
  destruct Hd as [->|[->|[->|Hd]]]; [by split..|by apply elem_of_nil in Hd].
Qed.

(** ** Variables *)

(** MATCH (n)-[r]->(m) RETURN n.name, r.since *)
Definition typed_query : ASTNode :=
  Node "SINGLE_QUERY" ""
    [Node "MATCH" "" [Node "PATTERN" "" [Node "PATTERN_ELEMENTS" "" [node_pattern "n" []; link "RIGHT_ARROW" "r" [] (node_pattern "m" [])]]];
     Node "RETURN" "" [Node "RETURN_BODY" "" [column_ast "n" "name"; column_ast "r" "since"]]].

Definition typed_occurrences : list occurrence :=
  [Declares "n" "NODE"; Declares "r" "RELATIONSHIP"; Declares "m" "NODE"; Uses "n" "LOOKUP"; Uses "r" "LOOKUP"].

Lemma analyze_types_witness :
  exists s', analyze typed_query false "ANY" global_scope = (Ret true, s') /\
    Forall (typed_in (symbols s')) typed_occurrences /\ well_typed ∅ typed_occurrences.
Proof.
  destruct (analyze_types typed_query global_scope typed_occurrences) as (b & s' & H & Hb & Hok); [discriminate|reflexivity|].
  assert (b = true) as ->. { apply (f_equal fst) in H. by vm_compute in H; injection H as <-. }
  exists s'. split; [exact H|]. split; [by apply Hok|]. by apply Hb.
Defined.

(** A node variable used as a relationship. *)
Example wrong_type_rejected :
  (analyze (Node "MATCH" "" [node_pattern "n" []; link "RIGHT_ARROW" "n" [] (node_pattern "m" [])]) false "ANY" global_scope).1 =
  Ret false.
Proof. reflexivity. Qed.

Definition has_friend : ASTNode := Node "EXISTS" "" [Node "PATTERN" "" [node_pattern "n" []; node_pattern "friend" []]].

Definition n_scope : scopes := [{["n" := "NODE"]}].

Lemma exists_does_not_leak_witness :
  exists s', analyze has_friend false "ANY" n_scope = (Ret true, s') /\ s' = n_scope.
Proof.
  exists (analyze has_friend false "ANY" n_scope).2.
  assert (analyze has_friend false "ANY" n_scope = (Ret true, (analyze has_friend false "ANY" n_scope).2)) as H by reflexivity.
  split; [exact H|]. exact (exists_does_not_leak _ _ _ _ _ _ H).
Defined.

(** A rejected sub-query leaves its scope on the stack. *)
Example rejected_exists_leaves_scope :
  analyze (Node "EXISTS" "" [leaf "VARIABLE" "x"]) false "ANY" n_scope = (Ret false, ∅ :: n_scope).
Proof. reflexivity. Qed.

(** WITH in a sub-query looks an outer variable up in the inner table only. *)
Example with_in_exists_throws :
  (analyze (Node "EXISTS" "" [Node "WITH" "" [Node "RETURN" "" [Node "RETURN_BODY" "" [leaf "VARIABLE" "n"]]]]) false "ANY" n_scope).1 =
  Throw out_of_range.
Proof. reflexivity. Qed.
