(* ===== verification/ParsedSamples.v ===== *)
(** * ParsedSamples: parse trees of small queries

    The parse tree of a sorted query on the store of CypherSamples, and trees
    on which the builder does not do what the query says. *)
From Stdlib Require Import ZArith Ascii String Lia.
From stdpp Require Import base tactics numbers list strings gmap sets sorting.
From S2P Require Import Prelude FStream PropertyLinks PropertyLinkTheory NodeBlock RelationBlock NodeManager Samples.
From S2P Require Import Json JsonPrinter SharedBuffer Pipelines ParallelExecutor CypherFilter FilterTheory.
From S2P Require Import CypherRuntime OrderBy OrderTheory RuntimeTheory ProjectionTheory CypherScans ScanTheory.
From S2P Require Import MasterMerge CypherPlan CypherPlanner PlanTheory QueryTheory OrderedQuery SemanticAnalyzer.
From S2P Require Import CypherSamples AstBuilder AstTheory ParsedQuery.
#[local] Open Scope Z_scope.
#[local] Open Scope string_scope.

#[local] Ltac by_computation := by apply (bool_decide_unpack _); vm_compute.

(** ** Trees *)

(** Contexts with one child each. *)
Definition nest (rs : list rule) (ks : list tree) : list tree := foldr (fun r l => [Rule r l]) ks rs.

Definition word (s : string) : tree := Terminal "" s.
Definition space : tree := Terminal "SP" " ".

(** From the arithmetic of an expression down to its atom, and from the top. *)
Definition arithmetic_rules : list rule :=
  [OC_AddOrSubtractExpression; OC_MultiplyDivideModuloExpression; OC_PowerOfExpression; OC_UnaryAddOrSubtractExpression].
Definition logic_rules : list rule :=
  [OC_Expression; OC_OrExpression; OC_XorExpression; OC_AndExpression; OC_NotExpression].

Definition name_tree (s : string) : tree := Rule OC_SymbolicName [Terminal "UnescapedSymbolicName" s].
Definition variable_tree (s : string) : tree := Rule OC_Variable [name_tree s].

Definition property_tree (v p : string) : list tree :=
  nest (arithmetic_rules ++ [OC_NonArithmeticOperatorExpression])
    [Rule OC_Atom [variable_tree v];
     Rule OC_PropertyLookup [word "."; Rule OC_PropertyKeyName [Rule OC_SchemaName [name_tree p]]]].
Definition integer_tree (s : string) : list tree :=
  nest (arithmetic_rules ++
        [OC_NonArithmeticOperatorExpression; OC_Atom; OC_Literal; OC_NumberLiteral; OC_IntegerLiteral])
    [Terminal "DecimalInteger" s].

(** An expression that is a property, and a comparison of a property. *)
Definition property_expression (v p : string) : list tree :=
  nest (logic_rules ++ [OC_ComparisonExpression; OC_StringListNullPredicateExpression]) (property_tree v p).

Definition partial_tree (o n : string) : list tree :=
  [word o; space; Rule OC_StringListNullPredicateExpression (integer_tree n)].
Definition comparison_tree (v p o n : string) : tree :=
  Rule OC_ComparisonExpression
    [Rule OC_StringListNullPredicateExpression (property_tree v p); space;
     Rule OC_PartialComparisonExpression (partial_tree o n)].

Definition parenthesized (ks : list tree) : list tree :=
  nest (logic_rules ++ [OC_ComparisonExpression; OC_StringListNullPredicateExpression] ++ arithmetic_rules ++
        [OC_NonArithmeticOperatorExpression; OC_Atom; OC_ParenthesizedExpression]) ((word "(" :: ks) ++ [word ")"]).

(** MATCH (n) WHERE (n.age > 18) RETURN n.name, n.email ORDER BY n.name ASC *)
Definition sorted_query (direction : list tree) : tree :=
  Rule OC_Cypher (nest [OC_Statement; OC_Query; OC_RegularQuery; OC_SingleQuery; OC_SinglePartQuery]
    [Rule OC_ReadingClause [Rule OC_Match
       [Terminal "MATCH" "MATCH"; space;
        Rule OC_Pattern (nest [OC_PatternPart; OC_AnonymousPatternPart; OC_PatternElement; OC_NodePattern]
          [word "("; variable_tree "n"; word ")"]);
        space; Rule OC_Where (Terminal "WHERE" "WHERE" :: space :: parenthesized (nest logic_rules [comparison_tree "n" "age" ">" "18"]))]];
     space;
     Rule OC_Return [Terminal "RETURN" "RETURN"; Rule OC_ProjectionBody
       [space;
        Rule OC_ProjectionItems
          [Rule OC_ProjectionItem (property_expression "n" "name"); word ","; space;
           Rule OC_ProjectionItem (property_expression "n" "email")];
        space;
        Rule OC_Order
          [Terminal "ORDER" "ORDER"; space; Terminal "BY" "BY"; space;
           Rule OC_SortItem (property_expression "n" "name" ++ direction)]]]])%list.

Definition ascending : list tree := [space; Terminal "ASC" "ASC"].

(** ** Reading them *)

Ltac read_name := do 2 eexists; split; [reflexivity|split; [reflexivity|split; reflexivity]].

Ltac read_property :=
  eapply read_lookup;
  [reflexivity|reflexivity|read_name|discriminate|
   apply Forall2_cons; split; [do 4 eexists; split_and!; try reflexivity; split; reflexivity|apply List.Forall2_nil]].

Lemma adult_read t :
  descend t = comparison_tree "n" "age" ">" "18" -> reads adult t.
Proof.
  intros Ht. eapply (reads_comparison t _ _ _ _ ">"); [rewrite Ht; reflexivity|reflexivity..| | | |].
  - by_computation.
  - do 2 eexists. split; reflexivity.
  - read_property.
  - eapply (read_integer (Rule OC_StringListNullPredicateExpression (integer_tree "18"))); reflexivity.
Qed.

Lemma sorted_query_read : reads_query "n" adult ["name"; "email"] "name" (sorted_query ascending).
Proof.
  eapply read_query; try reflexivity.
  - eapply read_match; try reflexivity; [read_name|]. by apply adult_read.
  - eapply read_items; [reflexivity|discriminate|by repeat constructor|].
    repeat (apply Forall2_cons; split; [read_property|]). apply List.Forall2_nil.
  - eapply read_order; try reflexivity. read_property.
Qed.


(** *** Operators *)

(** n.age >= 18 and n.age <= 18 *)
Lemma comparison_misread_witness :
  accept (Rule OC_PartialComparisonExpression (partial_tree ">=" "18")) =
    Ret (AnyNode (Node ">" "" [Node "DECIMAL" "18" []])) /\
  accept (Rule OC_PartialComparisonExpression (partial_tree "<=" "18")) =
    Ret (AnyNode (Node "==" "" [Node "DECIMAL" "18" []])).
Proof.
  split.
  - apply (comparison_misread (partial_tree ">=" "18") (Rule OC_StringListNullPredicateExpression (integer_tree "18"))
      (Literal "DECIMAL" (Some "18"))); [reflexivity|reflexivity| |do 2 eexists; split; reflexivity].
    eapply (read_integer (Rule OC_StringListNullPredicateExpression (integer_tree "18"))); reflexivity.
  - apply (comparison_misread (partial_tree "<=" "18") (Rule OC_StringListNullPredicateExpression (integer_tree "18"))
      (Literal "DECIMAL" (Some "18"))); [reflexivity|reflexivity| |do 2 eexists; split; reflexivity].
    eapply (read_integer (Rule OC_StringListNullPredicateExpression (integer_tree "18"))); reflexivity.
Defined.

(** An operator inside a string literal: n.name = 'a>b' is read as n.name > 'a>b'. *)
Example operator_in_string :
  accept (Rule OC_PartialComparisonExpression
    [word "="; Rule OC_StringListNullPredicateExpression (nest (arithmetic_rules ++
       [OC_NonArithmeticOperatorExpression; OC_Atom; OC_Literal]) [Terminal "StringLiteral" "'a>b'"])]) =
  Ret (AnyNode (Node ">" "" [Node "STRING" "'a>b'" []])).
Proof. reflexivity. Qed.

(** 7 % 2 loses its second operand, and 7 % 2 * 3 is read as 7 * 2. *)
Definition power_of (n : string) : tree :=
  Rule OC_PowerOfExpression (nest [OC_UnaryAddOrSubtractExpression; OC_NonArithmeticOperatorExpression; OC_Atom; OC_Literal;
    OC_NumberLiteral; OC_IntegerLiteral] [Terminal "DecimalInteger" n]).

Example modulo_dropped :
  accept (Rule OC_MultiplyDivideModuloExpression [power_of "7"; word "%"; power_of "2"]) =
    Ret (AnyNode (Node "MULTIPLY_DIVID_MODULO" "" [Node "DECIMAL" "7" []])) /\
  accept (Rule OC_MultiplyDivideModuloExpression [power_of "7"; word "%"; power_of "2"; word "*"; power_of "3"]) =
    Ret (AnyNode (Node "MULTIPLY_DIVID_MODULO" "" [Node "DECIMAL" "7" []; Node "*" "" [Node "DECIMAL" "2" []]])).
Proof. split; reflexivity. Qed.

(** A space between a variable and its property: the space is taken for labels. *)
Example space_before_property :
  accept (Rule OC_NonArithmeticOperatorExpression
    [Rule OC_Atom [variable_tree "n"]; space;
     Rule OC_PropertyLookup [word "."; Rule OC_PropertyKeyName [Rule OC_SchemaName [name_tree "age"]]]]) = Undef.
Proof. reflexivity. Qed.

(** A relationship of any length, [*], without bounds. *)
Example unbounded_range : accept (Rule OC_RangeLiteral [word "*"]) = Undef.
Proof. reflexivity. Qed.

(** A procedure with one argument loses it. *)
Example single_argument_dropped :
  accept (Rule OC_ExplicitProcedureInvocation
    ([Rule OC_ProcedureName [Rule OC_Namespace []; name_tree "f"]; word "("] ++ property_expression "n" "age" ++ [word ")"])%list) =
  Ret (AnyNode (Node "EXPLICIT_PROCEDURE" "" [Node "PROCEDURE" "" [Node "NAMESPACE" "" []; Node "PROCEDURE_NAME" "f" []]])).
Proof. reflexivity. Qed.

Lemma default_order_descends_witness :
  accept (Rule OC_SortItem (property_expression "n" "name")) = Ret (AnyNode (Node "DESC" "" [column_ast "n" "name"])).
Proof.
  eapply (default_order_descends (property_expression "n" "name") _ (Lookup "n" ["name"])); try reflexivity. read_property.
Defined.
