(* ===== verification/StreamSamples.v ===== *)
(** * StreamSamples: a small stream

    A topic with two edges for a graph of two partitions on two workers, the
    instances of the theorems for it, and what the stores do with messages the
    theorems leave out. *)
From Stdlib Require Import ZArith Ascii String Lia.
From stdpp Require Import functions base tactics numbers list strings gmap.
From S2P Require Import Prelude FStream PropertyLinks NodeBlock RelationBlock NodeManager ManagerTheory PropertyOwners.
From S2P Require Import HashMapStores Sessions WorkerSessions Partition Partitioner PartitionTheory PartitionerTheory Cluster.
From S2P Require Import Json JsonPrinter IncrementalStore IncrementalTheory PropertyGraph Samples.
From S2P Require Import StaticSamples StreamedGraph StreamInput StreamWorker StreamedCluster StreamSessions.

#[local] Ltac by_computation := by apply (bool_decide_unpack _); vm_compute.

(** ** The topic *)

Definition endpoint (i name : string) : json :=
  JObject [("id", JString i); ("properties", JObject [("label", JString "Person"); ("name", JString name)])].

Definition edge_json (s d : json) (type : string) : json :=
  JObject [("destination", d); ("properties", JObject [("type", JString type)]); ("source", s)].

Definition ann_knows_bob : stream_edge :=
  mkStreamEdge "1" [("label", "Person"); ("name", "Ann")] "2" [("label", "Person"); ("name", "Bob")] [("type", "knows")].
Definition bob_likes_eve : stream_edge :=
  mkStreamEdge "2" [("label", "Person"); ("name", "Bob")] "4" [("label", "Person"); ("name", "Eve")] [("type", "likes")].

Definition sample_polls : list (bool * kafka_message) :=
  [(false, Data (dump (edge_json (endpoint "1" "Ann") (endpoint "2" "Bob") "knows")));
   (false, NoMessage);
   (false, Data (dump (edge_json (endpoint "2" "Bob") (endpoint "4" "Eve") "likes")))].

Definition sample_edges : list stream_edge := [ann_knows_bob; bob_likes_eve].

#[export] Instance hash_id_dec u : Decision (hash_id u).
Proof.
  unfold hash_id. apply and_dec; [unfold comma_free; apply _|].
  destruct (stoi u) as [x|a]; [right; by intros (? & ? & _)|].
  destruct (decide (0 <= a)); [left; eauto|right; intros (b & Hb & ?); injection Hb as ->; done].
Defined.

Lemma sample_brings : brings sample_polls sample_edges.
Proof.
  split_and!; try done. exists ann_knows_bob, [bob_likes_eve]. eexists. split_and!; [done|by vm_compute|by vm_compute| | |].
  - do 3 eexists. split_and!; [reflexivity|reflexivity| |reflexivity| |reflexivity]; eexists; (split_and!; [reflexivity..|]); reflexivity.
  - split_and!; by_computation.
  - split_and!; try done. split_and!; try done.
    exists bob_likes_eve, []. eexists. split_and!; [done|by vm_compute|by vm_compute| | |done].
    + do 3 eexists. split_and!; [reflexivity|reflexivity| |reflexivity| |reflexivity]; eexists; (split_and!; [reflexivity..|]); reflexivity.
    + split_and!; by_computation.
Qed.

#[export] Instance value_fits_dec w : Decision (value_fits w).
Proof. unfold value_fits, no_nul. apply _. Defined.
#[export] Instance key_ok_dec k : Decision (key_ok k).
Proof. unfold key_ok, no_nul. apply _. Defined.
#[export] Instance item_fits_dec kv : Decision (item_fits kv).
Proof. unfold item_fits. apply _. Defined.
#[export] Instance edge_item_fits_dec kv : Decision (edge_item_fits kv).
Proof. unfold edge_item_fits. apply _. Defined.

Lemma sample_storable : Forall (storable (key_size 43)) sample_edges.
Proof.
  repeat (apply Forall_cons_2 || apply Forall_nil_2); (split; [by_computation..|by vm_compute]).
Qed.

Definition sample_handler : stream_handler :=
  mkHandler (newPartitioner 2 7 HASH false) [] [] (mkRegistry ∅ ∅ 0) None.

Definition no_files (_ : string) : disk := empty_disk.

(** ** The cluster *)

Lemma streamed_cluster_witness :
  exists h', listen any_pow 7 2 "2" sample_polls sample_handler = (Ret false, h') /\
    forall w s, serves 43 no_files (mkSession new_handler false) (texts_for w (published h')) s ->
      threads_reach 43 no_files
        (fun hd => forall p, 0 <= p < 2 -> Z.rem p 2 = w -> for_partition 7 2 p sample_edges <> [] ->
           partition_served 7 2 p sample_edges hd)
        (handler s).
Proof.
  apply (streamed_cluster any_pow 7 ltac:(done) 2 "2" 2 ltac:(by vm_compute) ltac:(done) 43 no_files sample_polls sample_edges 2 sample_handler);
    [exact sample_brings|done|done|done|done|exact sample_storable|by vm_compute|done].
Defined.

(** ** The queues of the first worker *)

Definition sample_requests : list string :=
  texts_for 0 (published (listen any_pow 7 2 "2" sample_polls sample_handler).2).

Definition requested (reqs : list string) : session :=
  mkSession (foldl (fun h t => handleRequest t h) new_handler reqs) false.

(** Messages for one partition are taken one after the other. *)
Lemma requested_serves reqs : "-1" ∉ reqs -> single reqs -> serves 43 no_files (mkSession new_handler false) reqs (requested reqs).
Proof.
  induction reqs as [|t reqs IH] using rev_ind; intros Hn H1; [constructor|].
  rewrite elem_of_app, list_elem_of_singleton in Hn. unfold requested. rewrite foldl_app.
  assert (serves 43 no_files (mkSession new_handler false) reqs (requested reqs)) as Hs
    by (apply IH; [tauto|by eapply single_prefix]).
  assert (t <> "-1") as Ht by (intros ->; tauto). eapply serves_request; [exact Hs|]. apply step_request; [done|].
  eapply single_no_race; [done|exact H1|]. apply (serves_account _ _ _ _ Hs). by eapply single_prefix.
Qed.

Lemma sample_no_end : "-1" ∉ sample_requests.
Proof. by_computation. Qed.

Lemma sample_identifier : Forall (fun t => extractGraphIdentifier t = "7_0") (messages sample_requests).
Proof. by_computation. Qed.

Lemma sample_single : single sample_requests.
Proof. pose proof sample_identifier as H. rewrite Forall_forall in H. intros t u Ht Hu. by rewrite (H t Ht), (H u Hu). Qed.

Definition sample_taken : option local_store :=
  match first_store 43 no_files (mine "7_0" sample_requests) with
  | Ret l0 => match ingest (mine "7_0" sample_requests) l0 with (Ret _, l) => Some l | _ => None end
  | _ => None
  end.

Lemma sample_taken_ok : bool_decide (is_Some (nodeIndex <$> (nm <$> sample_taken))) = true.
Proof. by vm_compute. Qed.

Lemma sample_mine i : mine i sample_requests <> [] -> i = "7_0".
Proof.
  intros H. pose proof sample_identifier as Hf. apply mine_identifier in H. apply list_elem_of_fmap in H as (t & -> & Ht). rewrite Forall_forall in Hf. by apply Hf.
Qed.

Lemma sample_ingestible i : mine i sample_requests <> [] -> ingestible 43 no_files sample_requests i.
Proof.
  intros ->%sample_mine. pose proof sample_taken_ok as H. apply bool_decide_eq_true in H. revert H.
  unfold sample_taken, ingestible. destruct (first_store _ _ _) as [l0| | | | |]; try by intros [].
  destruct (ingest _ l0) as [[[]| | | | |] l] eqn:E; try by intros []. intros _. by exists l0, l.
Qed.

Lemma queues_deliver_witness :
  threads_reach 43 no_files (all_taken 43 no_files sample_requests) (handler (requested sample_requests)).
Proof.
  destruct (queues_deliver 43 no_files sample_requests (requested sample_requests)) as [_ H].
  - exact (requested_serves _ sample_no_end sample_single).
  - exact sample_single.
  - apply H; [exact sample_no_end|exact sample_ingestible].
Defined.

(** ** Over a connection *)

(** A handler that keeps what it gets. *)
Definition keep (m : string) : M service unit := modify (fun s => set_masterIP (sv_masterIP s +:+ m) s).

Definition idle_worker : service := mkService sample_worker "" 1 0 None.
Definition after_stream : service := mkService sample_worker "edge-1edge-2" 1 0 None.

Lemma publish_delivers_witness :
  must (fun x => x = mkConn (Fin (Ret tt)) (awaiting elements 0 keep no_other 1) after_stream [] [])
    (mkConn (publish_all 16 ["edge-1"; "edge-2"]) (awaiting elements 0 keep no_other 3) idle_worker [] []).
Proof.
  apply (publish_delivers elements 0 keep no_other 16 ["edge-1"; "edge-2"] 1);
    [repeat (apply Forall_cons_2 || apply Forall_nil_2); (split; [done|by apply Nat.leb_le])|done|lia].
Defined.

Lemma new_publisher_loses_witness :
  let x := mkConn (new_publisher (publish_all 16 ["edge-1"; "edge-2"]))
       (serve elements 0 (stream_command keep no_other) 3) idle_worker [] [] in
  must (lost idle_worker) x /\
  (["edge-1"; "edge-2"] <> [] -> exists y, may x y /\ lost idle_worker y /\ client y = Fin Terminated).
Proof. by apply (new_publisher_loses elements 0 keep no_other 15 ["edge-1"; "edge-2"] 2). Defined.

(** A message of 600 bytes, of which 500 have arrived when it is received. *)
Definition long_message : string := string_of_list_ascii (replicate 600 "a"%char).

Lemma long_message_cut_witness :
  exists y, may (mkConn (publish 16 long_message) (awaiting elements 0 keep no_other 2) idle_worker [] []) y /\
    world y = mkService sample_worker (cut_message 500 long_message) 1 0 None.
Proof.
  apply (long_message_cut elements 0 keep no_other 16 1 long_message 500 idle_worker);
    [by apply Nat.ltb_lt|by vm_compute|vm_compute; lia|reflexivity].
Defined.

(** ** What the theorems leave out *)

Definition empty_store : outcome local_store := new_local_store 43 7 0 "trunk" empty_disk.

(** The properties of a vertex and the type of the first local edge. *)
Definition vertex_properties (i : string) : M local_store (gmap string string) :=
  o ← on_manager (getNode i); n ← determinate o; on_databases (NodeBlock_getAllProperties n).
Definition first_type : M local_store string :=
  o ← on_databases (getRelation Local (BLOCK_SIZE Local)); r ← determinate o; on_databases (getRelationshipType Local r).

Definition after (o : outcome local_store) {A} (c : M local_store A) : outcome A :=
  match o with Ret l => (c l).1 | _ => Undef end.

Definition placed_endpoint (i name : string) : json :=
  JObject [("id", JString i); ("pid", JInt 0); ("properties", JObject [("name", JString name)])].

Definition local_message (s d : json) (props : list (string * json)) : string :=
  dump (JObject [("EdgeType", JString "Local"); ("PID", JInt 0); ("destination", d); ("properties", JObject props); ("source", s)]).

(** A loop: the source and the destination are two objects of one vertex, and
    the properties that came with the destination are written over those of the
    source.  With two vertices, both keep theirs. *)
Definition two_names (s d : string) : json * json :=
  (JObject [("id", JString s); ("pid", JInt 0); ("properties", JObject [("first", JString "Ann")])],
   JObject [("id", JString d); ("pid", JInt 0); ("properties", JObject [("last", JString "Lee")])]).

Lemma loop_loses_properties :
  let m s d := local_message (two_names s d).1 (two_names s d).2 [] in
  after empty_store (addEdgeFromString (m "1" "2");; vertex_properties "1") = Ret {["first" := "Ann"]} /\
  after empty_store (addEdgeFromString (m "1" "1");; vertex_properties "1") = Ret {["last" := "Lee"]}.
Proof. split; vm_compute; reflexivity. Qed.

(** The type of a local edge is lost when it is the first property, and kept
    when another one comes before it. *)
Lemma first_type_misplaced :
  let m props := local_message (placed_endpoint "1" "Ann") (placed_endpoint "2" "Bob") props in
  after empty_store (addEdgeFromString (m [("since", JString "2001"); ("type", JString "knows")]);; first_type) = Ret "knows" /\
  after empty_store (addEdgeFromString (m [("type", JString "knows")]);; first_type) <> Ret "knows".
Proof. split; [vm_compute; reflexivity|]. intros H. vm_compute in H. discriminate H. Qed.

(** Central edges with an id get the same index in the index of edges. *)
Definition central_message (edge_id s d : string) : string :=
  dump (JObject [("destination", placed_endpoint d "Bob"); ("properties", JObject [("id", JString edge_id)]);
                 ("source", placed_endpoint s "Ann")]).

Lemma central_ids_share_index :
  after empty_store (store_addCentralEdge (central_message "a" "1" "2");; store_addCentralEdge (central_message "b" "3" "4");;
    l ← get_state; mret (edgeIndex (nm l))) = Ret (<["b" := 0]> {["a" := 0]}).
Proof. vm_compute. reflexivity. Qed.

(** A message of the topic that is not JSON ends the master. *)
Lemma malformed_terminates :
  (stream_thread any_pow 7 2 "2" [("10.0.0.1", 7780); ("10.0.0.2", 7780)] [(false, Data "{")] sample_handler).1 = Terminated.
Proof. vm_compute. reflexivity. Qed.

(** The end of the stream overtakes the queue: an edge that waits is dropped,
    and the session goes on without its thread. *)
Definition first_request : string := default "" (head sample_requests).

Definition thread_twice (h : instance_handler) : option instance_handler :=
  thread_next 43 no_files "7_0" h ≫= thread_next 43 no_files "7_0".

Definition left_behind (h : instance_handler) : Prop :=
  all_finished h /\ (nodeIndex <$> (nm <$> incrementalLocalStoreMap h !! "7_0")) = Some ∅ /\
  queues h !! "7_0" = Some [first_request].

#[export] Instance left_behind_dec o : Decision (from_option left_behind False o).
Proof. destruct o; cbn; [unfold left_behind, all_finished|]; apply _. Defined.

Lemma thread_twice_steps h P : from_option P False (thread_twice h) ->
  exists h1 h2, thread_next 43 no_files "7_0" h = Some h1 /\ thread_next 43 no_files "7_0" h1 = Some h2 /\ P h2.
Proof.
  unfold thread_twice. destruct (thread_next _ _ _ h) as [h1|]; [|done]. cbn.
  destruct (thread_next _ _ _ h1) as [h2|] eqn:E; [|done]. intros H. by exists h1, h2.
Qed.

Lemma first_request_taken : first_request <> "-1" /\
  from_option left_behind False (thread_twice (set_terminate (handleRequest first_request new_handler))).
Proof. by_computation. Qed.

Lemma end_drops_edges :
  exists h, serves 43 no_files (mkSession new_handler false) [first_request; "-1"] (mkSession h false) /\ left_behind h.
Proof.
  destruct first_request_taken as [Hne H]. revert Hne H. generalize first_request. intros t Hne H.
  apply thread_twice_steps in H as (h1 & h2 & N1 & N2 & Hl).
  exists h2. split; [|done]. eapply serves_step; [|apply step_joined, Hl].
  eapply serves_step; [|exact (step_thread _ _ _ _ _ true N2)]. eapply serves_step; [|exact (step_thread _ _ _ _ _ true N1)].
  apply (serves_request _ _ _ [t] (mkSession (handleRequest t new_handler) false)); [|apply step_end].
  apply (serves_request _ _ _ [] (mkSession new_handler false)); [constructor|].
  apply step_request; [done|]. intros [_ Hr]. apply Hr, map_Forall_empty.
Qed.

(** A stream into a graph that has files already starts with empty databases. *)
Lemma stream_truncates d :
  exists l, loadStreamingStore 43 (fun _ => d) "7" "0" "trunk" = Ret l /\ nodeIndex (nm l) = ∅ /\
    fs_data (nodesDB (dbs (nm l))) = [].
Proof. eexists. by split_and!. Qed.
